(* ===== verification/_CoqProject ===== *)
-Q . S2P
Prelude.v
Time.v
Crc.v
Css.v
GdpWire.v
Gctl.v
GtsWire.v
GtsCodec.v
GtsCodecSound.v
NoPanic.v
Dlp.v
DlpLink.v
DlpSystem.v
BTree.v
Reliable.v
GtsStream.v
GtsStreamSystem.v
Routing.v
RoutingWire.v
Rib.v
Adjacency.v
Egress.v
Storage.v
Socket.v
BoundedGts.v
BoundedGtsInv.v
BoundedGtsSystem.v
EndpointCore.v
EndpointAuth.v
EndpointInv.v
EndpointSafety.v
EndpointLease.v
EndpointFlow.v
EndpointData.v
Scenarios.v
DlpFrame.v
DlpControl.v
DlpControlInv.v
DlpControlFlow.v
P4Gdp.v
P4Pipeline.v
StaticRouter.v
StaticSwitch.v
DynamicRouter.v
Runtime.v
P4Gts.v
P4GdpPlane.v
Network.v
RoutingExchange.v
EndpointNet.v
Trace.v
