(* ===== verification/Prelude.v ===== *)
(** * smolgnet: verification of the GNet protocol suite

    smolgnet is a network stack: a link protocol that moves GDP packets as flits
    under credit, GDP headers and packets, GTS tunnels and streams over them, GCTL
    control messages, endpoints that join these, and routers and switches whose
    forwarding runs as P4 programs. This development models it file by file
    and proves what makes its parts correct, by themselves and together.

    ** Conventions

    An integer of the source is a [Z]; its width is written out where it matters:
    [as_u8], [as_u16], [as_u32] for casts, [wrapping_add], [saturating_add],
    [saturating_sub] for the operations of these names, and the predicates [u8],
    [u16], [u32], [u64] for values of a type. Octets are [list Z] with [bytes]. A
    fallible call returns [res A]: [Ok], [Err] with the [Error] of error.rs, or
    [Panic], an unwinding call (index or slice out of range, overflow, a failed
    [expect]), so that a theorem can say that code does not panic. A method that
    takes [&mut self] is a [st S A], a function from the state to the state and
    the outcome; the state it leaves behind when it fails is modelled too. A call on
    a field is [zoom]. A Rust [BTreeMap] is a [gmap] that [btree] lists in key
    order (BTree); a [VecDeque] or [Vec] is a list.

    ** The files

    Shared: Prelude (results, states, octets, folds, widths, tactics and hints),
    BTree (ordered maps and sets), Time (time.rs).

    Wire formats: Crc (wire/crc.rs), Css (wire/css.rs), GdpWire (wire/gdp_common.rs,
    gdp_handwritten.rs, gdp.rs), Gctl (wire/gctl.rs), GtsWire (wire/gts.rs: packet
    types and profiles; gts_handwritten.rs; the interface [GtsLowerCodec] of a lower
    codec), GtsCodec and GtsCodecSound (wire/gts.rs and gts_tx.rs: planning,
    encoding, decoding), NoPanic (the encoders never panic), RoutingWire
    (dynamic_routing.rs, wire/gctl_routing.rs), DlpFrame (dlp_control.rs: frames).

    Link: Dlp (dlp.rs), DlpLink (dlp_v01.rs, dlp_gdp.rs), DlpSystem (a sending
    port, a channel, a receiving port), DlpControl, DlpControlInv, DlpControlFlow
    (dlp_control.rs: the managed link, its invariants, bring-up from end to end),
    Egress (egress_scheduler.rs), Trace (qdx.rs, trace.rs).

    Transport: Reliable and GtsStream (gts.rs), GtsStreamSystem (two ends of a
    stream over a bad network), Storage (storage.rs), Socket (socket.rs),
    BoundedGts, BoundedGtsInv, BoundedGtsSystem (bounded_gts.rs over the pools of
    Storage, its invariants, two sockets over a bad network).

    Endpoint: EndpointCore (endpoint/core.rs, endpoint/link_api.rs), EndpointAuth
    (address authority), EndpointInv (every operation keeps the invariant and does
    not panic), EndpointSafety (all runs), EndpointLease (what all runs do to the promises
    and leases of an address authority), EndpointFlow (address assignment from
    end to end), EndpointData (tunnels and messages from end to end), Scenarios (the
    repository's endpoint tests, run on the model), Runtime (endpoint.rs, runtime.rs).

    Routing: Routing (routing.rs), Rib (router_rib.rs), Adjacency
    (router_adjacency.rs), P4Gdp (p4-common/gdp_wire.p4, p4_gdp.rs), P4Pipeline (what
    tables, entries and programs mean, and the interface of a generated pipeline),
    StaticRouter (static_router.rs, cycle_router.rs, router.p4), StaticSwitch
    (static_switch.rs, switch.p4), DynamicRouter (dynamic_router.rs), P4Gts
    (p4-common/gts_wire.p4, p4_gts.rs), P4GdpPlane (p4-gdp/src/lib.rs, gdp.p4),
    Network (routers of every kind joined by links), RoutingExchange (two dynamic
    routers, from an announcement to a delivered packet), EndpointNet (endpoints with
    routers between them).

    Definitions have the names of the source, with a prefix where two types have a
    method of the same name ([ep_send], [dr_process], [rib_new]). A loop body that
    proofs talk about has a definition of its own.

    ** How the parts interact

    EndpointCore drives one Dlp endpoint and the tunnels of GtsStream, and encodes
    through GdpWire, Gctl and GtsCodec; Runtime adds the table of Routing and the
    clock. DlpControl wraps the endpoint in the link control protocol. GtsCodec is
    proved over the class [GtsLowerCodec], which GtsWire (handwritten) and P4Gts
    (generated) implement. The routers and the switch are proved over the classes
    [Pipeline] and [Runs]; DynamicRouter compiles the selection of Rib into the
    tables of StaticRouter; Network is proved over the class [RouterNode], which the
    three routers implement.

    ** What the theorems show

    - Codecs: round trips of GDP packets, GTS packets, GCTL, routing and link
      control messages and service selectors; decoders accept only canonical
      encodings and never panic; the CRC-32 tells apart messages that differ within
      32 bits; the table-driven CRCs are the bit-serial ones.
    - The P4 codecs: parsing and emitting through the P4 definitions is the same
      function as the handwritten code, errors included (p4_decode_agrees,
      gts_backends_agree, gdp_plane_accepts).
    - The link: credit promised never exceeds the buffer (dlp_credit_safety); two
      joined ports deliver each lane in order, once, intact, and all of it
      (link_lossless); outside Up nothing moves (link_fail_stop); bring-up ends in
      agreement and the managed link stays within what was negotiated.
    - Streams: over a network that loses, repeats and reorders, what is consumed is a
      prefix of what was sent, for the alloc-backed and for the heapless transport;
      what is due is sent again and moves the receiver forward.
    - Storage: the packet buffer and the ring buffer refine queues; handles reach
      their own socket only.
    - The endpoint: every reachable state is well formed, no call panics whatever
      arrives, pumping terminates, address leases are exclusive, assignment completes,
      a conversation over a tunnel is delivered, on one link and across a network of
      routers (conversation_delivered, conversation_across_routers), and the polling
      schedule misses no route expiry.
    - Routing: lookup is longest prefix; neighbours stay in step with the base; the
      static router forwards by longest prefix over 64 bits although its program
      has two tables; the switch and the dynamic router follow what is registered
      and learned now; in a network of routers no packet moves more often than its
      hops allow, and the fates of packets do not depend on their order; a network that
      one router announces is reached through the router that learned it.

    Where the code does not do what it says a theorem or an example states what it
    does: own_address_route_freezes, expired_local_revived (P4GdpPlane),
    expiry_instant_spins (Runtime), egress_refused_round_strands,
    packet_buffer_overwrites, socket_handle_wraps, bounded_ack_before_first,
    duplicate_hello_closes_data_path, small_buffer_stalls (Scenarios), tie_not_by_insertion
    (Routing), the second part of endpoint_never_panics, and others beside the component they concern.

    ** Bounds

    Recursion that is not structural has fuel, and each is shown or chosen to be
    enough: [emit_loop] gets capacity plus queue plus one; [drain] the number of
    waiting messages; [mark_contiguous_delivered] one more than the slots of the
    pool (a reachable socket never runs out: bounded_socket_safe); [pump_loop] the
    flit limit plus one and [cable_loop] the transfer limit plus one, as each
    round moves something or ends (pump_terminates, cable_pump_terminates);
    [allocate_loop] has the attempts that the source counts itself; the loops of
    512 rounds in DlpControl are those of the source; [walk] of Network has the
    hops of the packet (walk_total). Counters of packets and of milliseconds are
    bounded by their widths; nothing else is.

    ** What is assumed

    The Rust that x4c generates from the P4 programs and the p4rs library are not in
    the repository. The parser and the headers are modelled from the P4 source, and
    the class [Runs] states that a generated pipeline runs its program over the
    entries it was given; [installed_runs] is an instance, so the hypothesis can
    hold, and every witness uses it. Where several table entries match equally well
    the choice is left open ([EntryChoice]). A waker and its [will_wake] are
    parameters of Runtime; a trace sink is any state with an update.

    ** What is not modelled

    [RouterId::random] (the random source of the operating system), [Debug] output
    and [Display], the interface [GnetFlitDevice] (without implementations), the
    re-exports of lib.rs, the tests and scripts (those of the endpoint are run in
    Scenarios). Not proved in general: that the flits a pump moves carry a whole
    conversation (Scenarios evaluates it on particular ones; the end-to-end theorems take
    packets from the queue of one endpoint to the handler of the other;
    link_lossless is about the flits of one link), and convergence of routing
    between more than two dynamic routers, which the source leaves to the program that
    passes the messages on. *)
From stdpp Require Import prelude.
From Stdlib Require Import ZArith Lia ZifyBool.
Local Open Scope Z_scope.

(** ** The error type and the result monad *)

(** [Error] of error.rs: the variants in the order of the source. *)
Inductive Error : Set :=
  | InvalidLength | InvalidField | InvalidCrc | InvalidAddressForm
  | InvalidSizeClass | Unsupported | NonCanonical | BufferFull | NoCredit
  | NoRoute | CreditViolation | LinkDown | Desynchronized | UnknownService
  | UnknownTunnel | UnknownStream | InvalidState | DirectionViolation
  | ProfileViolation | MessageTooLarge | WouldBlock.

#[export] Instance Error_eq_dec : EqDecision Error.
Proof. solve_decision. Defined.

(** Outcome of a Rust call: [Ok] and [Err] are the constructors of
    [core::result::Result<_, Error>]; [Panic] stands for an unwinding call
    (an index or slice out of range, a failed [expect], an arithmetic
    overflow).  Keeping it as a value lets theorems say that code does not
    panic. *)
Inductive res (A : Type) : Type :=
  | Ok (a : A)
  | Err (e : Error)
  | Panic.
Arguments Ok {A} a.
Arguments Err {A} e.
Arguments Panic {A}.

#[export] Instance res_ret : MRet res := @Ok.
#[export] Instance res_bind : MBind res := λ A B f m,
  match m with Ok a => f a | Err e => Err e | Panic => Panic end.
#[export] Instance res_fmap : FMap res := λ A B f m,
  match m with Ok a => Ok (f a) | Err e => Err e | Panic => Panic end.
#[export] Instance res_eq_dec {A} `{EqDecision A} : EqDecision (res A).
Proof. solve_decision. Defined.

(** [if b { return Err(e) }] *)
Definition fail_if (b : bool) (e : Error) : res unit :=
  if b then Err e else Ok tt.

(** [o.ok_or(e)?] *)
Definition ok_or {A} (o : option A) (e : Error) : res A :=
  match o with Some a => Ok a | None => Err e end.

(** [o.expect(..)] and [o.unwrap()] *)
Definition expect {A} (o : option A) : res A :=
  match o with Some a => Ok a | None => Panic end.

(** [r.map_err(|_| e)] *)
Definition map_err {A} (r : res A) (e : Error) : res A :=
  match r with Err _ => Err e | _ => r end.

Definition no_panic {A} (m : res A) : Prop := m ≠ Panic.

Definition is_ok {A} (m : res A) : bool :=
  match m with Ok _ => true | _ => false end.

Lemma bind_Ok {A B} (f : A → res B) m b :
  m ≫= f = Ok b ↔ ∃ a, m = Ok a ∧ f a = Ok b.
Proof. destruct m; naive_solver. Qed.

Lemma bind_Ok_l {A B} (f : A → res B) a : Ok a ≫= f = f a.
Proof. done. Qed.

Lemma Ok_inj {A} (a b : A) : Ok a = Ok b → a = b.
Proof. congruence. Qed.
Lemma pair_inv {A B} (a c : A) (b d : B) : (a, b) = (c, d) → a = c ∧ b = d.
Proof. by intros [= -> ->]. Qed.
Lemma Some_inj {A} (a b : A) : Some a = Some b → a = b.
Proof. congruence. Qed.

Lemma fail_if_Ok b e u : fail_if b e = Ok u ↔ b = false ∧ u = tt.
Proof. destruct b, u; naive_solver. Qed.

Lemma ok_or_Ok {A} (o : option A) e a : ok_or o e = Ok a ↔ o = Some a.
Proof. destruct o; naive_solver. Qed.

Lemma expect_Ok {A} (o : option A) a : expect o = Ok a ↔ o = Some a.
Proof. destruct o; naive_solver. Qed.

Create HintDb nopanic discriminated.

Lemma no_panic_Ok {A} (a : A) : no_panic (Ok a).
Proof. done. Qed.
Lemma no_panic_Err {A} e : no_panic (@Err A e).
Proof. done. Qed.
Lemma no_panic_fail_if b e : no_panic (fail_if b e).
Proof. by destruct b. Qed.
Lemma no_panic_ok_or {A} (o : option A) e : no_panic (ok_or o e).
Proof. by destruct o. Qed.
Lemma no_panic_bind {A B} (f : A → res B) m :
  no_panic m → (∀ a, m = Ok a → no_panic (f a)) → no_panic (m ≫= f).
Proof. destruct m; unfold no_panic; naive_solver. Qed.
Lemma no_panic_fmap {A B} (f : A → B) (m : res A) :
  no_panic m → no_panic (f <$> m).
Proof. destruct m; unfold no_panic; naive_solver. Qed.
Lemma no_panic_map_err {A} (m : res A) e : no_panic m → no_panic (map_err m e).
Proof. destruct m; unfold no_panic; naive_solver. Qed.

#[export] Hint Resolve no_panic_Ok no_panic_Err no_panic_fail_if
  no_panic_ok_or no_panic_bind no_panic_fmap no_panic_map_err : nopanic.

(** The call does not panic, and a value it returns satisfies [Q]. *)
Definition res_sat {A} (Q : A → Prop) (m : res A) : Prop :=
  match m with Ok a => Q a | Err _ => True | Panic => False end.

Lemma res_sat_bind {A B} (Q : A → Prop) (R : B → Prop) (f : A → res B) m :
  res_sat Q m → (∀ a, Q a → res_sat R (f a)) → res_sat R (m ≫= f).
Proof. destruct m; cbn; auto. Qed.
Lemma res_sat_no_panic {A} (m : res A) : no_panic m ↔ res_sat (λ _, True) m.
Proof. unfold no_panic. destruct m; cbn; intuition congruence. Qed.
Lemma res_sat_intro {A} (Q : A → Prop) (m : res A) :
  no_panic m → (∀ a, m = Ok a → Q a) → res_sat Q m.
Proof. unfold no_panic. destruct m; cbn; intros Hn H; [by apply H | done | by apply Hn]. Qed.
Lemma res_sat_mono {A} (Q R : A → Prop) (m : res A) :
  res_sat Q m → (∀ a, Q a → R a) → res_sat R m.
Proof. destruct m; cbn; auto. Qed.
Lemma res_sat_fail_if b e : res_sat (λ _, b = false) (fail_if b e).
Proof. by destruct b. Qed.
Lemma res_sat_ok_or {A} (o : option A) e : res_sat (λ a, o = Some a) (ok_or o e).
Proof. by destruct o. Qed.

(** The errors a call can report. *)
Definition errs_in {A} (l : list Error) (m : res A) : Prop := ∀ e, m = Err e → e ∈ l.

Lemma errs_in_bind {A B} l (f : A → res B) m :
  errs_in l m → (∀ a, errs_in l (f a)) → errs_in l (m ≫= f).
Proof. unfold errs_in. destruct m; naive_solver. Qed.
Lemma errs_in_fail_if l b e : (b = true → e ∈ l) → errs_in l (fail_if b e).
Proof. unfold errs_in. destruct b; naive_solver. Qed.
Lemma errs_in_Ok {A} l (a : A) : errs_in l (Ok a).
Proof. by intros e. Qed.

(** ** Machine integers

    A [u8]/[u16]/[u32]/[u64] is a [Z]; the type's range is the predicate.
    [usize] is [Z] as well: a length never reaches [2^64]. *)
Definition u8 (x : Z) : Prop := 0 ≤ x < 0x100.
Definition u16 (x : Z) : Prop := 0 ≤ x < 0x10000.
Definition u32 (x : Z) : Prop := 0 ≤ x < 0x100000000.
Definition u64 (x : Z) : Prop := 0 ≤ x < 0x10000000000000000.

#[export] Instance u8_dec x : Decision (u8 x).
Proof. unfold u8. apply _. Defined.
#[export] Instance u16_dec x : Decision (u16 x).
Proof. unfold u16. apply _. Defined.
#[export] Instance u32_dec x : Decision (u32 x).
Proof. unfold u32. apply _. Defined.
#[export] Instance u64_dec x : Decision (u64 x).
Proof. unfold u64. apply _. Defined.

(** [x as u8], [x as u16], [x as u32] *)
Definition as_u8 (x : Z) : Z := x mod 0x100.
Definition as_u16 (x : Z) : Z := x mod 0x10000.
Definition as_u32 (x : Z) : Z := x mod 0x100000000.

(** Arithmetic of the standard library at width [w]. *)
Definition wrapping_add (w a b : Z) : Z := (a + b) mod 2 ^ w.
Definition wrapping_sub (w a b : Z) : Z := (a - b) mod 2 ^ w.
Definition saturating_add (w a b : Z) : Z := Z.min (2 ^ w - 1) (a + b).
Definition saturating_sub (a b : Z) : Z := Z.max 0 (a - b).
Definition checked_add (w a b : Z) : option Z :=
  if a + b <? 2 ^ w then Some (a + b) else None.
Definition checked_sub (a b : Z) : option Z :=
  if b <=? a then Some (a - b) else None.

(** [a + b] and [a - b] with overflow checks: outside the range they panic. *)
Definition add_or_panic (w a b : Z) : res Z := expect (checked_add w a b).
Definition sub_or_panic (a b : Z) : res Z := expect (checked_sub a b).

Ltac unfold_ints :=
  unfold u8, u16, u32, u64, as_u8, as_u16, as_u32, wrapping_add, wrapping_sub,
    saturating_add, saturating_sub in *.
(** Linear arithmetic after the machine-integer vocabulary is opened. *)
Ltac ulia := unfold_ints; lia.
(** The same when divisions and remainders by constants occur. *)
Ltac zdiv := unfold_ints; Z.div_mod_to_equations; lia.

(** Destruct a chain of binds in a hypothesis [_ = Ok _]. *)
Ltac inv_res :=
  repeat match goal with
  | H : Ok _ = Ok _ |- _ => apply Ok_inj in H; try subst
  | H : Err _ = Ok _ |- _ => discriminate H
  | H : Panic = Ok _ |- _ => discriminate H
  | H : true = false |- _ => discriminate H
  | H : false = true |- _ => discriminate H
  | H : _ ≫= _ = Ok _ |- _ =>
      apply bind_Ok in H as (? & ? & ?)
  | H : fail_if _ _ = Ok _ |- _ => apply fail_if_Ok in H as [? ?]
  | H : ok_or _ _ = Ok _ |- _ => apply ok_or_Ok in H
  | H : expect _ = Ok _ |- _ => apply expect_Ok in H
  | H : (_, _) = (_, _) |- _ => apply pair_inv in H as [? ?]
  | H : Some _ = Some _ |- _ => apply Some_inj in H
  | H : Some _ = None |- _ => discriminate H
  | H : None = Some _ |- _ => discriminate H
  end; subst.

(** ** Byte buffers

    A [&[u8]], [Vec<u8>] or [[u8; n]] is a list of integers; [bytes] is the
    range of its elements.  Lengths, offsets and indices are [Z]. *)
Definition len {A} (l : list A) : Z := Z.of_nat (length l).
Definition bytes (l : list Z) : Prop := Forall u8 l.
Definition zeros (n : Z) : list Z := replicate (Z.to_nat n) 0.

(** [l[a..b]] when the range is valid. *)
Definition slice {A} (l : list A) (a b : Z) : list A :=
  take (Z.to_nat (b - a)) (drop (Z.to_nat a) l).

(** [l[a..b]], with the panic of an invalid range. *)
Definition get_slice {A} (l : list A) (a b : Z) : res (list A) :=
  if (0 <=? a) && (a <=? b) && (b <=? len l) then Ok (slice l a b) else Panic.

(** [l[i]] *)
Definition get_index {A} (l : list A) (i : Z) : res A :=
  if 0 <=? i then expect (l !! Z.to_nat i) else Panic.

(** [l[a..a + src.len()].copy_from_slice(src)] *)
Definition splice {A} (l : list A) (a : Z) (src : list A) : list A :=
  take (Z.to_nat a) l ++ src ++ drop (Z.to_nat (a + len src)) l.
Definition copy_at {A} (l : list A) (a : Z) (src : list A) : res (list A) :=
  if (0 <=? a) && (a + len src <=? len l) then Ok (splice l a src) else Panic.

(** [l.iter().all(|&b| b == 0)] *)
Definition all_zero (l : list Z) : bool := forallb (Z.eqb 0) l.

Create Rewrite HintDb len.

Lemma len_nonneg {A} (l : list A) : 0 ≤ len l.
Proof. unfold len. lia. Qed.
Lemma len_nil {A} : len (@nil A) = 0.
Proof. done. Qed.
Lemma len_cons {A} (x : A) l : len (x :: l) = 1 + len l.
Proof. unfold len. cbn [length]. lia. Qed.
Lemma len_app {A} (l k : list A) : len (l ++ k) = len l + len k.
Proof. unfold len. rewrite length_app. lia. Qed.
Lemma len_replicate {A} n (x : A) : len (replicate n x) = Z.of_nat n.
Proof. unfold len. by rewrite length_replicate. Qed.
Lemma len_zeros n : len (zeros n) = Z.max 0 n.
Proof. unfold zeros. rewrite len_replicate. lia. Qed.
Lemma len_slice {A} (l : list A) a b :
  len (slice l a b) = Z.min (Z.max 0 (b - a)) (Z.max 0 (len l - Z.max 0 a)).
Proof. unfold len, slice. rewrite length_take, length_drop. lia. Qed.
Lemma len_splice {A} (l : list A) a src :
  0 ≤ a → a + len src ≤ len l → len (splice l a src) = len l.
Proof.
  unfold splice, len. intros. rewrite !length_app, length_take, length_drop. lia.
Qed.
Lemma length_len {A} (l : list A) : Z.to_nat (len l) = length l.
Proof. unfold len. lia. Qed.
Lemma len_snoc {A} (l : list A) x : len (l ++ [x]) = len l + 1.
Proof. unfold len. rewrite length_app. cbn. lia. Qed.
Lemma len_0_inv {A} (l : list A) : len l = 0 → l = [].
Proof. unfold len. destruct l; cbn [length]; [done | lia]. Qed.

#[export] Hint Rewrite @len_nil @len_cons @len_app @len_zeros @len_slice : len.

(** Arithmetic on lengths of concatenations, slices and zero runs. *)
Ltac lens :=
  repeat match goal with
  | |- context [len ?l] =>
      lazymatch goal with
      | _ : 0 ≤ len l |- _ => fail
      | _ => pose proof (len_nonneg l)
      end
  | _ : context [len ?l] |- _ =>
      lazymatch goal with
      | _ : 0 ≤ len l |- _ => fail
      | _ => pose proof (len_nonneg l)
      end
  end.
Ltac len_lia := autorewrite with len in *; lens; ulia.

Lemma slice_full {A} (l : list A) a b : a = 0 → b = len l → slice l a b = l.
Proof.
  intros -> ->. unfold slice, len. rewrite Z.sub_0_r, Nat2Z.id. cbn.
  by rewrite take_ge.
Qed.

Lemma slice_nil_eq {A} (l : list A) a b : b ≤ a → slice l a b = [].
Proof.
  intros. unfold slice. by replace (Z.to_nat (b - a)) with 0%nat by lia.
Qed.

Lemma slice_app_l {A} (l k : list A) a b :
  0 ≤ a → b ≤ len l → slice (l ++ k) a b = slice l a b.
Proof.
  unfold slice, len. intros.
  destruct (decide (a ≤ Z.of_nat (length l))).
  - rewrite drop_app_le by lia. rewrite take_app_le; [done |].
    rewrite length_drop. lia.
  - by replace (Z.to_nat (b - a)) with 0%nat by lia.
Qed.

Lemma slice_app_r {A} (l k : list A) a b :
  len l ≤ a → slice (l ++ k) a b = slice k (a - len l) (b - len l).
Proof.
  unfold slice, len. intros. rewrite drop_app_ge by lia.
  f_equal; [| f_equal]; lia.
Qed.

Lemma slice_split {A} (l : list A) a b c :
  0 ≤ a ≤ b → b ≤ c → slice l a c = slice l a b ++ slice l b c.
Proof.
  unfold slice. intros.
  replace (Z.to_nat (c - a)) with (Z.to_nat (b - a) + Z.to_nat (c - b))%nat by lia.
  rewrite <- take_take_drop, drop_drop. do 3 f_equal. lia.
Qed.

Lemma slice_slice {A} (l : list A) a b c d :
  0 ≤ a → 0 ≤ c → c ≤ d → d ≤ b - a →
  slice (slice l a b) c d = slice l (a + c) (a + d).
Proof.
  unfold slice. intros.
  replace (Z.to_nat (b - a)) with (Z.to_nat c + Z.to_nat (b - a - c))%nat by lia.
  rewrite <- take_drop_commute, take_take, drop_drop.
  f_equal; [lia |]. f_equal. lia.
Qed.

Lemma bytes_app l k : bytes (l ++ k) ↔ bytes l ∧ bytes k.
Proof. apply Forall_app. Qed.
Lemma bytes_cons x l : bytes (x :: l) ↔ u8 x ∧ bytes l.
Proof. apply Forall_cons. Qed.
Lemma bytes_nil : bytes [].
Proof. constructor. Qed.
Lemma bytes_slice l a b : bytes l → bytes (slice l a b).
Proof. intros. by apply Forall_take, Forall_drop. Qed.
Lemma bytes_zeros n : bytes (zeros n).
Proof. apply Forall_replicate. ulia. Qed.

Lemma get_slice_Ok {A} (l : list A) a b s :
  get_slice l a b = Ok s ↔ 0 ≤ a ∧ a ≤ b ∧ b ≤ len l ∧ s = slice l a b.
Proof.
  unfold get_slice. destruct (_ && _) eqn:E; naive_solver lia.
Qed.
Lemma get_slice_eq {A} (l : list A) a b :
  0 ≤ a → a ≤ b → b ≤ len l → get_slice l a b = Ok (slice l a b).
Proof. intros. apply get_slice_Ok. auto. Qed.
Lemma no_panic_get_slice {A} (l : list A) a b :
  0 ≤ a → a ≤ b → b ≤ len l → no_panic (get_slice l a b).
Proof. intros. rewrite get_slice_eq by done. done. Qed.

Lemma get_index_Ok {A} (l : list A) i x :
  get_index l i = Ok x ↔ 0 ≤ i ∧ l !! Z.to_nat i = Some x.
Proof.
  unfold get_index. destruct (0 <=? i) eqn:E; rewrite ?expect_Ok; naive_solver lia.
Qed.
Lemma no_panic_get_index {A} (l : list A) i :
  0 ≤ i < len l → no_panic (get_index l i).
Proof.
  unfold get_index, len. intros. rewrite (proj2 (Z.leb_le _ _)) by lia.
  destruct (lookup_lt_is_Some_2 l (Z.to_nat i)) as [x ->]; [lia | done].
Qed.
Lemma get_index_bytes l i x : bytes l → get_index l i = Ok x → u8 x.
Proof.
  intros Hb [_ ?]%get_index_Ok. by eapply Forall_lookup_1.
Qed.
Lemma get_slice_bytes l a b s : bytes l → get_slice l a b = Ok s → bytes s.
Proof. intros Hb (_ & _ & _ & ->)%get_slice_Ok. by apply bytes_slice. Qed.

Lemma copy_at_eq {A} (l : list A) a src :
  0 ≤ a → a + len src ≤ len l → copy_at l a src = Ok (splice l a src).
Proof. intros. unfold copy_at. by replace (_ && _) with true by lia. Qed.

(** Writing over the front segment of a buffer whose tail is untouched. *)
Lemma splice_app {A} (l m k src : list A) a :
  a = len l → len src = len m → splice (l ++ m ++ k) a src = l ++ src ++ k.
Proof.
  unfold splice, len. intros -> ?.
  rewrite take_app_length' by lia. do 2 f_equal.
  rewrite app_assoc, drop_app_length'; [done |]. rewrite length_app. lia.
Qed.

Lemma all_zero_zeros n : all_zero (zeros n) = true.
Proof. unfold all_zero, zeros. induction (Z.to_nat n); cbn; auto. Qed.
Lemma all_zero_spec l : all_zero l = true ↔ l = zeros (len l).
Proof.
  unfold all_zero, zeros, len. rewrite Nat2Z.id.
  induction l as [| x l IH]; cbn [forallb length replicate]; [done |].
  rewrite andb_true_iff, Z.eqb_eq, IH. split; [| by injection 1].
  by intros [<- ->]; rewrite length_replicate.
Qed.
Lemma zeros_app a b : 0 ≤ a → 0 ≤ b → zeros (a + b) = zeros a ++ zeros b.
Proof.
  intros. unfold zeros. rewrite Z2Nat.inj_add by done. apply replicate_add.
Qed.
Lemma slice_zeros n a b : 0 ≤ a → a ≤ b → b ≤ n → slice (zeros n) a b = zeros (b - a).
Proof.
  intros. unfold slice, zeros. rewrite drop_replicate, take_replicate.
  f_equal. lia.
Qed.

(** ** Big-endian integers: [to_be_bytes] and [from_be_bytes] *)

Fixpoint to_be (n : nat) (v : Z) : list Z :=
  match n with
  | O => []
  | S k => (v / 256 ^ Z.of_nat k) mod 256 :: to_be k v
  end.

Definition from_be (l : list Z) : Z := fold_left (λ acc b, acc * 256 + b) l 0.

Lemma length_to_be n v : length (to_be n v) = n.
Proof. induction n; cbn; congruence. Qed.
Lemma len_to_be n v : len (to_be n v) = Z.of_nat n.
Proof. unfold len. by rewrite length_to_be. Qed.
#[export] Hint Rewrite len_to_be : len.

Lemma bytes_to_be n v : bytes (to_be n v).
Proof. induction n; cbn; constructor; [| done]. zdiv. Qed.

Lemma from_be_acc l acc :
  fold_left (λ acc b, acc * 256 + b) l acc = acc * 256 ^ len l + from_be l.
Proof.
  unfold from_be. revert acc. induction l as [| x l IH]; intros acc; cbn [fold_left].
  - unfold len. cbn. lia.
  - rewrite IH, (IH (0 * 256 + x)), len_cons, Z.pow_add_r by (lens; lia). lia.
Qed.

Lemma from_be_cons x l : from_be (x :: l) = x * 256 ^ len l + from_be l.
Proof. unfold from_be at 1. cbn [fold_left]. by rewrite from_be_acc. Qed.

Lemma from_be_range l : bytes l → 0 ≤ from_be l < 256 ^ len l.
Proof.
  induction 1 as [| x l ? ? IH]; [done |].
  rewrite from_be_cons, len_cons, Z.pow_add_r by (lens; lia). unfold u8 in *. nia.
Qed.

Lemma from_be_to_be_mod n v : from_be (to_be n v) = v mod 256 ^ Z.of_nat n.
Proof.
  induction n as [| n IH]; [cbn; by rewrite Z.mod_1_r |].
  cbn [to_be]. rewrite from_be_cons, len_to_be, IH, Nat2Z.inj_succ, Z.pow_succ_r by lia.
  rewrite (Z.mul_comm 256), Z.rem_mul_r by (try apply Z.pow_nonzero; lia). lia.
Qed.

Lemma from_be_to_be n v : 0 ≤ v < 256 ^ Z.of_nat n → from_be (to_be n v) = v.
Proof. intros. by rewrite from_be_to_be_mod, Z.mod_small. Qed.

Lemma to_be_mod n v : to_be n (v mod 256 ^ Z.of_nat n) = to_be n v.
Proof.
  enough (H : ∀ m, (n ≤ m)%nat → to_be n (v mod 256 ^ Z.of_nat m) = to_be n v) by auto.
  intros m. induction n as [| n IH]; intros; [done |]. cbn [to_be].
  rewrite IH by lia. f_equal.
  replace (Z.of_nat m) with (Z.of_nat n + Z.of_nat (m - n)) by lia.
  rewrite Z.pow_add_r, Z.rem_mul_r by (try apply Z.pow_nonzero; lia).
  rewrite Z.mul_comm, Z.div_add by (apply Z.pow_nonzero; lia).
  rewrite (Z.div_small (v mod _)) by (apply Z.mod_pos_bound; lia).
  replace (Z.of_nat (m - n)) with (1 + Z.of_nat (m - n - 1)) by lia.
  rewrite Z.pow_add_r, Z.rem_mul_r by (try apply Z.pow_nonzero; lia).
  rewrite Z.pow_1_r, Z.add_0_l, Z.add_mod, Z.mul_comm, Z.mod_mul by lia.
  by rewrite Z.add_0_r, !Z.mod_mod by lia.
Qed.

Lemma to_be_from_be l : bytes l → to_be (length l) (from_be l) = l.
Proof.
  induction 1 as [| x l Hx Hl IH]; [done |]. cbn [length to_be].
  pose proof (from_be_range l Hl) as Hr. unfold len in Hr.
  rewrite from_be_cons. unfold len. f_equal.
  - rewrite Z.div_add_l, Z.div_small by lia. rewrite Z.add_0_r. apply Z.mod_small, Hx.
  - rewrite <- to_be_mod, Z.add_comm, Z.mod_add by lia.
    by rewrite Z.mod_small.
Qed.

(** [u16::from_be_bytes(b.try_into().unwrap())]: a slice of the wrong length
    panics. *)
Definition from_be_bytes (n : nat) (l : list Z) : res Z :=
  if len l =? Z.of_nat n then Ok (from_be l) else Panic.

(** [uN::from_be_bytes(b.try_into().map_err(|_| Error::InvalidLength)?)] *)
Definition try_from_be (n : nat) (l : list Z) : res Z :=
  if len l =? Z.of_nat n then Ok (from_be l) else Err InvalidLength.

Lemma try_from_be_eq n l : len l = Z.of_nat n → try_from_be n l = Ok (from_be l).
Proof. intros ?. unfold try_from_be. by rewrite (proj2 (Z.eqb_eq _ _)). Qed.
Lemma no_panic_try_from_be n l : no_panic (try_from_be n l).
Proof. unfold try_from_be. by destruct (_ =? _). Qed.
#[export] Hint Resolve no_panic_try_from_be : nopanic.

Lemma from_be_bytes_eq n l : len l = Z.of_nat n → from_be_bytes n l = Ok (from_be l).
Proof. intros ?. unfold from_be_bytes. by rewrite (proj2 (Z.eqb_eq _ _)). Qed.

(** ** Bit fields *)

Lemma lor_shiftl_add n a b :
  0 ≤ n → 0 ≤ b < 2 ^ n → Z.lor (Z.shiftl a n) b = a * 2 ^ n + b.
Proof.
  intros Hn Hb. rewrite Z.shiftl_mul_pow2 by done.
  rewrite <- Z.lxor_lor, <- Z.add_nocarry_lxor; [done | |];
    apply Z.bits_inj'; intros i Hi; rewrite Z.land_spec, Z.bits_0;
    (destruct (decide (i < n));
      [rewrite Z.mul_pow2_bits_low by lia; done |]);
    rewrite andb_comm;
    rewrite <- (Z.mod_small b (2 ^ n)), Z.mod_pow2_bits_high by lia; done.
Qed.

Lemma land_ones_mod a n m : 0 ≤ n → m = Z.ones n → Z.land a m = a mod 2 ^ n.
Proof. intros ? ->. by apply Z.land_ones. Qed.

Lemma shiftr_div a n : 0 ≤ n → Z.shiftr a n = a / 2 ^ n.
Proof. apply Z.shiftr_div_pow2. Qed.

(** [x & !0xffff] on a [u64] *)
Definition clear_low16 (x : Z) : Z := Z.land x 0xffffffffffff0000.

Lemma clear_low16_eq x : u64 x → clear_low16 x = x / 0x10000 * 0x10000.
Proof.
  intros Hx. unfold clear_low16.
  transitivity (Z.shiftl (Z.shiftr x 16) 16);
    [| by rewrite Z.shiftl_mul_pow2, Z.shiftr_div_pow2 by lia].
  apply Z.bits_inj'. intros i Hi. rewrite Z.land_spec.
  change 0xffffffffffff0000 with (Z.shiftl (Z.ones 48) 16).
  destruct (decide (i < 16)).
  - by rewrite !Z.shiftl_spec_low, andb_false_r by lia.
  - rewrite !Z.shiftl_spec_high, Z.shiftr_spec by lia.
    replace (i - 16 + 16) with i by lia.
    destruct (decide (i - 16 < 48)); [by rewrite Z.ones_spec_low, andb_true_r by lia |].
    rewrite Z.ones_spec_high, andb_false_r by lia. symmetry.
    rewrite <- (Z.mod_small x (2 ^ 64)) by (unfold u64 in Hx; lia).
    apply Z.mod_pow2_bits_high. lia.
Qed.

(** ** Evaluating fixed layouts *)

Lemma len_cons_inv {A} (x : A) l n : len (x :: l) = n → len l = n - 1.
Proof. rewrite len_cons. lia. Qed.

Lemma len_nil_pos {A} p : len (@nil A) = Zpos p → False.
Proof. done. Qed.

(** Split [s] into variables when [H : len s = n] with [n] a numeral. *)
Ltac explode s H :=
  lazymatch type of H with
  | _ = 0 => apply len_0_inv in H; subst s
  | _ = Zpos _ =>
      let x := fresh "x" in
      destruct s as [| x s];
      [exfalso; exact (len_nil_pos _ H)
      | apply len_cons_inv in H;
        lazymatch type of H with
        | ?l = ?m => let k := eval cbv in m in change (l = k) in H
        end; explode s H]
  end.

(** Compute reads of a list whose spine is explicit and whose elements are
    variables. *)
Ltac eval_reads :=
  repeat match goal with
  | |- context [get_slice ?l ?a ?b] =>
      let r := eval cbv in (get_slice l a b) in change (get_slice l a b) with r
  | |- context [get_index ?l ?i] =>
      let r := eval cbv in (get_index l i) in change (get_index l i) with r
  | |- context [slice ?l ?a ?b] =>
      let r := eval cbv in (slice l a b) in change (slice l a b) with r
  | |- context [len ?l] =>
      let r := eval cbv in (len l) in
      lazymatch r with Z0 => idtac | Zpos _ => idtac end; change (len l) with r
  end; rewrite ?bind_Ok_l.

(** Writes into the tail of a buffer whose front is already known. *)
Lemma copy_at_app {A} (l k src : list A) a :
  a = len l → len src ≤ len k →
  copy_at (l ++ k) a src = Ok (l ++ src ++ drop (Z.to_nat (len src)) k).
Proof.
  intros -> ?. rewrite copy_at_eq by (rewrite ?len_app; lens; lia). f_equal.
  unfold splice, len. rewrite take_app_length' by lia. do 2 f_equal.
  rewrite drop_app_ge by lia. f_equal. lia.
Qed.
Lemma copy_at_0 {A} (k src : list A) :
  len src ≤ len k → copy_at k 0 src = Ok (src ++ drop (Z.to_nat (len src)) k).
Proof. intros. by apply (copy_at_app [] k src 0). Qed.
Lemma len_drop {A} (l : list A) n : len (drop n l) = Z.max 0 (len l - Z.of_nat n).
Proof. unfold len. rewrite length_drop. lia. Qed.
Lemma len_take {A} (l : list A) n : len (take n l) = Z.min (Z.of_nat n) (len l).
Proof. unfold len. rewrite length_take. lia. Qed.
#[export] Hint Rewrite @len_drop @len_take : len.

(** Arithmetic on lengths, in the goal only. *)
Ltac len_goal := autorewrite with len; lens; ulia.

(** Resolve a slice of a concatenation to the segment it selects. *)
Ltac slice_step :=
  match goal with
  | |- context [slice (?l ++ ?k) ?a ?b] =>
      first [ rewrite (slice_app_l l k a b) by len_goal
            | rewrite (slice_app_r l k a b) by len_goal ]
  | |- context [slice ?l ?a ?b] => rewrite (slice_full l a b) by len_goal
  end.
Ltac slices := repeat slice_step.

(** Discharge a guard that does not fire. *)
Ltac pass_guard :=
  match goal with
  | |- context [fail_if ?b ?e] => replace (fail_if b e) with (@Ok unit tt)
      by (unfold fail_if; replace b with false by len_goal; reflexivity);
      rewrite bind_Ok_l
  end.

Lemma get_index_app_l {A} (l k : list A) i :
  i < len l → get_index (l ++ k) i = get_index l i.
Proof.
  unfold get_index, len. intros. destruct (Z.leb_spec 0 i); [| done].
  by rewrite lookup_app_l by lia.
Qed.
Lemma get_index_app_r {A} (l k : list A) i :
  len l ≤ i → get_index (l ++ k) i = get_index k (i - len l).
Proof.
  unfold get_index, len. intros.
  rewrite !(proj2 (Z.leb_le 0 _)), lookup_app_r by lia. do 2 f_equal. lia.
Qed.

Lemma slice_index {A} (buf : list A) i v : get_index buf i = Ok v → slice buf i (i + 1) = [v].
Proof.
  intros [Hi H]%get_index_Ok. unfold slice. replace (i + 1 - i) with 1 by lia.
  by rewrite (drop_S _ _ _ H).
Qed.
Lemma no_panic_from_be_bytes n l : len l = Z.of_nat n → no_panic (from_be_bytes n l).
Proof. intros. by rewrite from_be_bytes_eq. Qed.

(** Resolve the index read at the head of the goal, down to a computable
    read. *)
Ltac head_index :=
  lazymatch goal with
  | |- mbind _ (get_index (?l ++ ?k) ?i) = _ =>
      first [ rewrite (get_index_app_l l k i) by len_goal
            | rewrite (get_index_app_r l k i) by len_goal ]; head_index
  | |- mbind _ (get_index ?l ?i) = _ =>
      autorewrite with len;
      lazymatch goal with
      | |- mbind _ (get_index ?l' ?i') = _ =>
          let j := eval vm_compute in i' in change (get_index l' i') with (get_index l' j);
          let r := eval cbv [get_index Z.leb Z.compare expect lookup list_lookup Z.to_nat
                               Pos.to_nat Pos.iter_op Nat.add to_be] in (get_index l' j) in
          change (get_index l' j) with r
      end
  end.

(** One step of a straight-line reader. *)
Ltac read_step :=
  first
  [ rewrite bind_Ok_l
  | lazymatch goal with
    | |- mbind _ (fail_if ?b ?e) = _ => pass_guard
    | |- mbind _ (get_slice ?l ?a ?b) = _ =>
        rewrite (get_slice_eq l a b) by len_goal; rewrite bind_Ok_l; slices
    | |- mbind _ (from_be_bytes ?n ?l) = _ =>
        rewrite (from_be_bytes_eq n l) by len_goal; rewrite bind_Ok_l;
        rewrite ?from_be_to_be by ulia
    | |- mbind _ (get_index ?l ?i) = _ => head_index; rewrite bind_Ok_l
    end ].

Lemma drop_zeros k n : 0 ≤ k → drop (Z.to_nat k) (zeros n) = zeros (n - k).
Proof. intros. unfold zeros. rewrite drop_replicate. f_equal. lia. Qed.

(** ** Exhaustive checks over the words of [n] bits *)
Fixpoint forall_words (n : nat) (P : Z → bool) (acc : Z) : bool :=
  match n with
  | O => P acc
  | S n => forall_words n P (2 * acc) && forall_words n P (2 * acc + 1)
  end.

Lemma forall_words_spec n P acc :
  forall_words n P acc = true →
  ∀ x, acc * 2 ^ Z.of_nat n ≤ x < (acc + 1) * 2 ^ Z.of_nat n → P x = true.
Proof.
  revert acc. induction n as [| n IH]; intros acc H x Hx.
  - cbn in *. by replace x with acc by lia.
  - cbn [forall_words] in H. apply andb_true_iff in H as [H1 H2].
    rewrite Nat2Z.inj_succ, Z.pow_succ_r in Hx by lia.
    destruct (decide (x < (2 * acc + 1) * 2 ^ Z.of_nat n)).
    + apply (IH _ H1). lia.
    + apply (IH _ H2). lia.
Qed.

Lemma forall_u8 P : forall_words 8 P 0 = true → ∀ x, u8 x → P x = true.
Proof. intros H x Hx. apply (forall_words_spec 8 P 0 H). ulia. Qed.
Lemma forall_u16 P : forall_words 16 P 0 = true → ∀ x, u16 x → P x = true.
Proof. intros H x Hx. apply (forall_words_spec 16 P 0 H). ulia. Qed.

(** ** State passing

    A method with [&mut self] is a function from the state to the new state
    and its outcome.  The state reached before an error or a panic is kept:
    Rust does not roll back. *)
Definition st (S A : Type) : Type := S → S * res A.

#[export] Instance st_ret S : MRet (st S) := λ A a s, (s, Ok a).
#[export] Instance st_bind S : MBind (st S) := λ A B f m s,
  match m s with
  | (s', Ok a) => f a s'
  | (s', Err e) => (s', Err e)
  | (s', Panic) => (s', Panic)
  end.

Definition gets {S A} (f : S → A) : st S A := λ s, (s, Ok (f s)).
Definition modify {S} (f : S → S) : st S unit := λ s, (f s, Ok tt).
Definition lift {S A} (m : res A) : st S A := λ s, (s, m).
(** [if b { return Err(e) }] in a method *)
Definition guard_st {S} (b : bool) (e : Error) : st S unit := lift (fail_if b e).

(** A call on a component of the state. *)
Definition zoom {S T A} (proj : S → T) (put : T → S → S) (m : st T A) : st S A := λ s,
  let '(t, r) := m (proj s) in (put t s, r).

(** Every outcome of [m], errors included, keeps the invariant. *)
Definition preserves {S A} (P : S → Prop) (m : st S A) : Prop := ∀ s, P s → P (m s).1.

Lemma st_bind_Ok {S A B} (f : A → st S B) (m : st S A) s s' b :
  (m ≫= f) s = (s', Ok b) ↔ ∃ s1 a, m s = (s1, Ok a) ∧ f a s1 = (s', Ok b).
Proof.
  unfold mbind, st_bind. destruct (m s) as [s1 [a | e |]]; naive_solver.
Qed.

Lemma st_bind_Ok_l {S A B} (f : A → st S B) (m : st S A) s s1 a :
  m s = (s1, Ok a) → (m ≫= f) s = f a s1.
Proof. unfold mbind, st_bind. by intros ->. Qed.
Lemma st_bind_Err_l {S A B} (f : A → st S B) (m : st S A) s s1 e :
  m s = (s1, Err e) → (m ≫= f) s = (s1, Err e).
Proof. unfold mbind, st_bind. by intros ->. Qed.

Lemma guard_st_false {S} e (s : S) : guard_st false e s = (s, Ok tt).
Proof. done. Qed.
Lemma guard_st_true {S} e (s : S) : guard_st true e s = (s, Err e).
Proof. done. Qed.

Create HintDb preserves discriminated.

Lemma preserves_bind {S A B} (P : S → Prop) (f : A → st S B) (m : st S A) :
  preserves P m → (∀ a, preserves P (f a)) → preserves P (m ≫= f).
Proof.
  intros Hm Hf s Hs. specialize (Hm s Hs). unfold mbind, st_bind.
  destruct (m s) as [s' [a | e |]]; cbn in *; [by apply Hf | done..].
Qed.
Lemma preserves_lift {S A} (P : S → Prop) (m : res A) : preserves P (lift m).
Proof. by intros s. Qed.
Lemma preserves_guard {S} (P : S → Prop) b e : preserves P (guard_st b e).
Proof. by intros s. Qed.
Lemma preserves_gets {S A} (P : S → Prop) (f : S → A) : preserves P (gets f).
Proof. by intros s. Qed.
Lemma preserves_ret {S A} (P : S → Prop) (a : A) : preserves P (mret a).
Proof. by intros s. Qed.
Lemma preserves_modify {S} (P : S → Prop) f : (∀ s, P s → P (f s)) → preserves P (modify f).
Proof. intros H s Hs. by apply H. Qed.

#[export] Hint Resolve preserves_bind preserves_lift preserves_guard preserves_gets
  preserves_ret : preserves.

(** [m] keeps the invariant whatever it returns, does not panic, and the value
    it returns satisfies [Q]; first in one state, then in all. *)
Definition sound_at {S A} (P : S → Prop) (Q : A → Prop) (m : st S A) (s : S) : Prop :=
  P (m s).1 ∧ res_sat Q (m s).2.
Definition sound {S A} (P : S → Prop) (Q : A → Prop) (m : st S A) : Prop :=
  ∀ s, P s → sound_at P Q m s.

Lemma sound_at_bind {S A B} (P : S → Prop) (Q : A → Prop) (R : B → Prop) (f : A → st S B) m s :
  sound_at P Q m s → (∀ a, Q a → sound P R (f a)) → sound_at P R (m ≫= f) s.
Proof.
  unfold sound_at, mbind, st_bind. intros [Hp Hq] Hf.
  destruct (m s) as [s' [a | e |]]; cbn in *; [by apply Hf | done..].
Qed.
Lemma sound_bind {S A B} (P : S → Prop) (Q : A → Prop) (R : B → Prop) (f : A → st S B) m :
  sound P Q m → (∀ a, Q a → sound P R (f a)) → sound P R (m ≫= f).
Proof. intros Hm Hf s Hs. eapply sound_at_bind; [by apply Hm | done]. Qed.
(** [s ← gets id; f s] *)
Lemma sound_get {S B} (P : S → Prop) (R : B → Prop) (f : S → st S B) :
  (∀ s, P s → sound_at P R (f s) s) → sound P R (gets id ≫= f).
Proof. intros Hf s Hs. by apply Hf. Qed.
Lemma sound_get_any {S B} (P : S → Prop) (R : B → Prop) (f : S → st S B) :
  (∀ s, P s → sound P R (f s)) → sound P R (gets id ≫= f).
Proof. intros Hf s Hs. by apply Hf. Qed.
Lemma sound_gets {S A} (P : S → Prop) (f : S → A) : sound P (λ _, True) (gets f).
Proof. by intros s Hs. Qed.
Lemma sound_lift {S A} (P : S → Prop) (Q : A → Prop) (m : res A) : res_sat Q m → sound P Q (lift m).
Proof. by intros Hm s Hs. Qed.
Lemma sound_ret {S A} (P : S → Prop) (Q : A → Prop) (a : A) : Q a → sound P Q (mret a).
Proof. by intros Ha s Hs. Qed.
Lemma sound_err {S A} (P : S → Prop) (Q : A → Prop) e : sound P Q (@lift S A (Err e)).
Proof. by intros s Hs. Qed.
Lemma sound_guard {S} (P : S → Prop) b e : sound P (λ _, b = false) (guard_st b e).
Proof. apply sound_lift, res_sat_fail_if. Qed.
Lemma sound_modify {S} (P : S → Prop) f : (∀ s, P s → P (f s)) → sound P (λ _, True) (modify f).
Proof. intros H s Hs. split; [by apply H | done]. Qed.
Lemma sound_mono {S A} (P : S → Prop) (Q R : A → Prop) (m : st S A) :
  sound P Q m → (∀ a, Q a → R a) → sound P R m.
Proof. intros Hm HQ s Hs. destruct (Hm s Hs). split; [done |]. by eapply res_sat_mono. Qed.
Lemma sound_preserves {S A} (P : S → Prop) (Q : A → Prop) (m : st S A) : sound P Q m → preserves P m.
Proof. intros Hm s Hs. by apply Hm. Qed.
Lemma sound_intro {S A} (P : S → Prop) (m : st S A) :
  preserves P m → (∀ s, P s → (m s).2 ≠ Panic) → sound P (λ _, True) m.
Proof. intros Hp Hn s Hs. split; [by apply Hp |]. by apply res_sat_no_panic, Hn. Qed.
(** A call on a component: what holds of the component is read off the whole
    state, and the whole state is restored from the new component. *)
Lemma sound_zoom {S T A} (P : S → Prop) (P' : T → Prop) (Q : A → Prop) proj put (m : st T A) :
  (∀ s, P s → P' (proj s)) → (∀ s t, P s → P' t → P (put t s)) →
  sound P' Q m → sound P Q (zoom proj put m).
Proof.
  intros H1 H2 Hm s Hs. unfold sound_at, zoom. destruct (Hm (proj s) (H1 s Hs)) as [Ha Hb].
  destruct (m (proj s)) as [t r]. cbn in *. auto.
Qed.

(** Walk through a successful method call in a hypothesis. *)
Ltac inv_st H :=
  let s1 := fresh "s" in let a := fresh "a" in let E := fresh "E" in
  apply st_bind_Ok in H as (s1 & a & E & H).
