(* ===== verification/Time.v ===== *)
(** * Time (src/src/time.rs)

    Millisecond instants and durations with saturating arithmetic, and the
    poll deadlines the runtime hands to its caller. *)
From stdpp Require Import prelude.
From S2P Require Import Prelude.
Local Open Scope Z_scope.

Module Instant.
Definition from_millis (millis : Z) : Z := millis.
Definition total_millis (self : Z) : Z := self.
Definition saturating_duration_since (self earlier : Z) : Z := saturating_sub self earlier.
Definition checked_add (self duration : Z) : option Z := Prelude.checked_add 64 self duration.
Definition add (self rhs : Z) : Z := saturating_add 64 self rhs.
Definition sub_duration (self rhs : Z) : Z := saturating_sub self rhs.
Definition sub_instant (self rhs : Z) : Z := saturating_sub self rhs.
End Instant.

Module Duration.
Definition ZERO : Z := 0.
Definition from_secs (seconds : Z) : Z := Z.min (2 ^ 64 - 1) (seconds * 1000).
Definition total_secs (self : Z) : Z := self / 1000.
End Duration.

Inductive PollAt : Set := Now | Time (at_ : Z) | Ingress.

Definition delay_from (self : PollAt) (now : Z) : option Z :=
  match self with
  | Now => Some Duration.ZERO
  | Time at_ => Some (Instant.saturating_duration_since at_ now)
  | Ingress => None
  end.

Lemma instant_add_range self rhs : u64 self → u64 rhs → u64 (Instant.add self rhs).
Proof. unfold Instant.add. ulia. Qed.

Lemma instant_sub_range self rhs : u64 self → u64 rhs → u64 (Instant.sub_instant self rhs).
Proof. unfold Instant.sub_instant. ulia. Qed.

(** A caller that sleeps for the reported delay wakes at or after the
    deadline, unless the clock itself saturates. *)
Lemma delay_reaches_deadline p now d :
  u64 now → delay_from p now = Some d →
  match p with Time at_ => u64 at_ → at_ ≤ Instant.add now d | _ => d = 0 end.
Proof.
  destruct p; cbn; intros; inv_res; [done |].
  unfold Instant.add, Instant.saturating_duration_since. ulia.
Qed.
