(* ===== verification/Crc.v ===== *)
(** * Cyclic redundancy checks (src/src/wire/crc.rs)

    CRC-8-GNET (GDP headers) and CRC-32-GNET (GTS packets): the table
    constructors, the bit-serial and the table-driven updates.  The generic
    section proves, for any width and any odd polynomial, that the update is
    a linear and injective map on the register; both codes are instances. *)
From stdpp Require Import prelude.
From Stdlib Require Import ZArith Lia.
From S2P Require Import Prelude.
Local Open Scope Z_scope.

(** ** The code *)

Module Crc8.
(** Body of the inner loop of [make_crc8_table]. *)
Definition table_step (crc : Z) : Z :=
  if negb (Z.land crc 0x80 =? 0)
  then Z.lxor (as_u8 (Z.shiftl crc 1)) 0x07
  else as_u8 (Z.shiftl crc 1).

(** [make_crc8_table]: entry [i] runs the inner loop eight times on [i]. *)
Definition make_crc8_table : list Z :=
  map (λ i, Nat.iter 8 table_step (Z.of_nat i)) (seq 0 256).
Definition CRC8_TABLE : list Z := Eval vm_compute in make_crc8_table.

Definition new : Z := 0.

Definition update_bit (value : Z) (bit : bool) : Z :=
  let top := negb (Z.land value 0x80 =? 0) in
  let value := as_u8 (Z.shiftl value 1) in
  if xorb top bit then Z.lxor value 0x07 else value.

(** The bits [(value >> i) & 1] for [i] from [bits - 1] down to [0]. *)
Fixpoint update_bits (crc : Z) (value : Z) (bits : nat) : Z :=
  match bits with
  | O => crc
  | S i => update_bits
             (update_bit crc (negb (Z.land (Z.shiftr value (Z.of_nat i)) 1 =? 0))) value i
  end.

Definition update_bytes (crc : Z) (bs : list Z) : Z :=
  fold_left (λ value b, nth (Z.to_nat (Z.lxor value b)) CRC8_TABLE 0) bs crc.

Definition finalize (value : Z) : Z := value.
End Crc8.

Module Crc32.
Definition table_step (crc : Z) : Z :=
  if negb (Z.land crc 0x80000000 =? 0)
  then Z.lxor (as_u32 (Z.shiftl crc 1)) 0x04c11db7
  else as_u32 (Z.shiftl crc 1).

Definition make_crc32_table : list Z :=
  map (λ i, Nat.iter 8 table_step (as_u32 (Z.shiftl (Z.of_nat i) 24))) (seq 0 256).
Definition CRC32_TABLE : list Z := Eval vm_compute in make_crc32_table.

Definition new : Z := 0xffffffff.

Definition update_bit (value : Z) (bit : bool) : Z :=
  let top := negb (Z.land value 0x80000000 =? 0) in
  let value := as_u32 (Z.shiftl value 1) in
  if xorb top bit then Z.lxor value 0x04c11db7 else value.

Fixpoint update_bits (crc : Z) (value : Z) (bits : nat) : Z :=
  match bits with
  | O => crc
  | S i => update_bits
             (update_bit crc (negb (Z.land (Z.shiftr value (Z.of_nat i)) 1 =? 0))) value i
  end.

Definition update_bytes (crc : Z) (bs : list Z) : Z :=
  fold_left (λ value b,
    let idx := Z.lxor (as_u8 (Z.shiftr value 24)) b in
    Z.lxor (as_u32 (Z.shiftl value 8)) (nth (Z.to_nat idx) CRC32_TABLE 0)) bs crc.

Definition finalize (value : Z) : Z := Z.lxor value 0xffffffff.
End Crc32.

Definition crc8_gnet (bs : list Z) : Z := Crc8.finalize (Crc8.update_bytes Crc8.new bs).
Definition crc32_gnet (bs : list Z) : Z := Crc32.finalize (Crc32.update_bytes Crc32.new bs).

(** ** Bit strings *)

(** The [n] low bits of [v], most significant first: what [update_bits]
    feeds to the register. *)
Fixpoint bits_msb (n : nat) (v : Z) : list bool :=
  match n with
  | O => []
  | S i => Z.testbit v (Z.of_nat i) :: bits_msb i v
  end.
Definition bits_of_bytes (bs : list Z) : list bool := bs ≫= bits_msb 8.

Lemma land_pow2_testbit v n :
  0 ≤ n → negb (Z.land v (2 ^ n) =? 0) = Z.testbit v n.
Proof.
  intros Hn. assert (H : Z.land v (2 ^ n) = if Z.testbit v n then 2 ^ n else 0).
  { apply Z.bits_inj'. intros i Hi. rewrite Z.land_spec, Z.pow2_bits_eqb by done.
    destruct (Z.eqb_spec n i) as [-> |].
    - destruct (Z.testbit v i); cbn; [by rewrite Z.pow2_bits_true | by rewrite Z.bits_0].
    - rewrite andb_false_r. destruct (Z.testbit v n);
        [by rewrite Z.pow2_bits_false | by rewrite Z.bits_0]. }
  rewrite H. pose proof (Z.pow_pos_nonneg 2 n).
  destruct (Z.testbit v n); [rewrite (proj2 (Z.eqb_neq _ _)) by lia |]; done.
Qed.

Lemma land_1_testbit v i :
  negb (Z.land (Z.shiftr v (Z.of_nat i)) 1 =? 0) = Z.testbit v (Z.of_nat i).
Proof.
  change 1 with (2 ^ 0). rewrite land_pow2_testbit by done.
  by rewrite Z.shiftr_spec.
Qed.

Lemma mod_pow2_lxor a b n :
  0 ≤ n → Z.lxor a b mod 2 ^ n = Z.lxor (a mod 2 ^ n) (b mod 2 ^ n).
Proof.
  intros. rewrite <- !Z.land_ones by done. apply Z.bits_inj'. intros i ?.
  rewrite Z.land_spec, !Z.lxor_spec, !Z.land_spec.
  by destruct (Z.testbit (Z.ones n) i), (Z.testbit a i), (Z.testbit b i).
Qed.

Lemma lxor_range a b n : 0 ≤ n → 0 ≤ a < 2 ^ n → 0 ≤ b < 2 ^ n → 0 ≤ Z.lxor a b < 2 ^ n.
Proof.
  intros Hn Ha Hb. rewrite <- (Z.mod_small a (2 ^ n)), <- (Z.mod_small b (2 ^ n)) by done.
  rewrite <- mod_pow2_lxor by done. apply Z.mod_pos_bound. lia.
Qed.

Lemma double_lxor a b : 2 * Z.lxor a b = Z.lxor (2 * a) (2 * b).
Proof.
  change 2 with (2 ^ 1). rewrite !(Z.mul_comm (2 ^ 1)), <- !Z.shiftl_mul_pow2 by lia.
  apply Z.shiftl_lxor.
Qed.

Lemma testbit_high a n i : 0 ≤ a < 2 ^ n → 0 ≤ n ≤ i → Z.testbit a i = false.
Proof.
  intros. rewrite <- (Z.mod_small a (2 ^ n)) by done. apply Z.mod_pow2_bits_high. lia.
Qed.

(** ** The generic register *)

Section generic.
Context (w poly : Z).
Hypothesis Hw : 0 < w.
Hypothesis Hpoly : 0 ≤ poly < 2 ^ w.
Hypothesis Hodd : Z.testbit poly 0 = true.

Definition g_step (v : Z) : Z :=
  Z.lxor (Z.shiftl v 1 mod 2 ^ w) (if Z.testbit v (w - 1) then poly else 0).
Definition g_bit (v : Z) (bit : bool) : Z :=
  Z.lxor (Z.shiftl v 1 mod 2 ^ w) (if xorb (Z.testbit v (w - 1)) bit then poly else 0).
Definition g_list (v : Z) (e : list bool) : Z := fold_left g_bit e v.

(** Place a bit string against bit [j - 1], descending. *)
Fixpoint emb (j : Z) (e : list bool) : Z :=
  match e with
  | [] => 0
  | b :: e => Z.lxor (if b : bool then 2 ^ (j - 1) else 0) (emb (j - 1) e)
  end.

Lemma g_step_range v : 0 ≤ g_step v < 2 ^ w.
Proof using Hw Hpoly Hodd.
  apply lxor_range; [lia | apply Z.mod_pos_bound; lia |].
  destruct (Z.testbit v (w - 1)); lia.
Qed.

Lemma g_step_lxor a b : g_step (Z.lxor a b) = Z.lxor (g_step a) (g_step b).
Proof using Hw Hpoly Hodd.
  unfold g_step. rewrite Z.shiftl_lxor, mod_pow2_lxor, Z.lxor_spec by lia.
  set (x := _ mod _). set (y := _ mod _).
  destruct (Z.testbit a (w - 1)), (Z.testbit b (w - 1)); cbn;
    rewrite ?Z.lxor_0_r; [| | |done];
    apply Z.bits_inj'; intros i _; rewrite !Z.lxor_spec;
    destruct (Z.testbit x i), (Z.testbit y i), (Z.testbit poly i); done.
Qed.

Lemma g_step_small v : 0 ≤ v < 2 ^ (w - 1) → g_step v = 2 * v.
Proof using Hw Hpoly Hodd.
  intros. unfold g_step. rewrite (testbit_high v (w - 1)) by lia.
  rewrite Z.lxor_0_r, Z.shiftl_mul_pow2, Z.pow_1_r by lia.
  rewrite Z.mod_small; [lia |]. replace w with (1 + (w - 1)) by lia.
  rewrite Z.pow_add_r by lia. lia.
Qed.

Lemma g_step_inj a b : 0 ≤ a < 2 ^ w → 0 ≤ b < 2 ^ w → g_step a = g_step b → a = b.
Proof using Hw Hpoly Hodd.
  intros Ha Hb E.
  assert (T : ∀ i, 0 ≤ i → Z.testbit (g_step a) i = Z.testbit (g_step b) i) by (by rewrite E).
  assert (Hs : ∀ v i, 0 ≤ i < w →
    Z.testbit (Z.shiftl v 1 mod 2 ^ w) i = if i =? 0 then false else Z.testbit v (i - 1)).
  { intros v i ?. rewrite Z.mod_pow2_bits_low by lia.
    destruct (Z.eqb_spec i 0) as [-> |]; [by rewrite Z.shiftl_spec_low |].
    by rewrite Z.shiftl_spec by lia. }
  assert (Htop : Z.testbit a (w - 1) = Z.testbit b (w - 1)).
  { pose proof (T 0 ltac:(lia)) as T0. unfold g_step in T0.
    rewrite !Z.lxor_spec, !Hs, Z.eqb_refl, !xorb_false_l in T0 by lia.
    destruct (Z.testbit a (w - 1)), (Z.testbit b (w - 1)); try done;
      rewrite Hodd, Z.bits_0 in T0; done. }
  apply Z.bits_inj'. intros i Hi. destruct (decide (i < w - 1)) as [Hlt |].
  - pose proof (T (i + 1) ltac:(lia)) as Ti. unfold g_step in Ti.
    rewrite !Z.lxor_spec, !Hs, Htop in Ti by lia.
    rewrite (proj2 (Z.eqb_neq (i + 1) 0)), Z.add_simpl_r in Ti by lia.
    destruct (Z.testbit a i), (Z.testbit b i); try done;
      destruct (Z.testbit (if _ : bool then _ else _) _); done.
  - destruct (decide (i = w - 1)) as [-> |]; [done |].
    by rewrite !(testbit_high _ w) by lia.
Qed.

Lemma iter_step_lxor n a b :
  Nat.iter n g_step (Z.lxor a b) = Z.lxor (Nat.iter n g_step a) (Nat.iter n g_step b).
Proof using Hw Hpoly Hodd. induction n as [| n IH]; [done |]. rewrite !Nat.iter_succ, IH. apply g_step_lxor. Qed.

Lemma iter_step_range n a : 0 ≤ a < 2 ^ w → 0 ≤ Nat.iter n g_step a < 2 ^ w.
Proof using Hw Hpoly Hodd. destruct n; [done |]. rewrite Nat.iter_succ. intros. apply g_step_range. Qed.

Lemma iter_step_inj n a b :
  0 ≤ a < 2 ^ w → 0 ≤ b < 2 ^ w → Nat.iter n g_step a = Nat.iter n g_step b → a = b.
Proof using Hw Hpoly Hodd.
  intros Ha Hb. induction n as [| n IH]; [done |]. rewrite !Nat.iter_succ.
  intros E%g_step_inj; auto using iter_step_range.
Qed.

Lemma iter_step_small n a :
  Z.of_nat n ≤ w → 0 ≤ a < 2 ^ (w - Z.of_nat n) → Nat.iter n g_step a = a * 2 ^ Z.of_nat n.
Proof using Hw Hpoly Hodd.
  intros Hn Ha. induction n as [| n IH]; [cbn; lia |]. rewrite Nat.iter_succ.
  assert (Hp : 2 ^ (w - Z.of_nat n) = 2 * 2 ^ (w - Z.of_nat (S n))).
  { rewrite <- Z.pow_succ_r by lia. f_equal. lia. }
  rewrite IH by lia. rewrite g_step_small.
  - rewrite Nat2Z.inj_succ, Z.pow_succ_r by lia. lia.
  - split; [lia |]. replace (w - 1) with ((w - Z.of_nat (S n)) + Z.of_nat n) by lia.
    rewrite Z.pow_add_r by lia. pose proof (Z.pow_pos_nonneg 2 (Z.of_nat n)). nia.
Qed.

(** Feeding a bit is one zero-input step after toggling the top bit. *)
Lemma g_bit_step v b : g_bit v b = g_step (Z.lxor v (if b then 2 ^ (w - 1) else 0)).
Proof using Hw Hpoly Hodd.
  destruct b; [| unfold g_bit, g_step; by rewrite Z.lxor_0_r, xorb_false_r].
  unfold g_bit, g_step. rewrite Z.shiftl_lxor, mod_pow2_lxor, Z.lxor_spec by lia.
  rewrite Z.pow2_bits_true by lia. f_equal.
  rewrite (Z.shiftl_mul_pow2 (2 ^ _)), <- Z.pow_add_r by lia.
  replace (w - 1 + 1) with w by lia. by rewrite Z_mod_same_full, Z.lxor_0_r.
Qed.

Lemma emb_range j e : len e ≤ j → 0 ≤ emb j e < 2 ^ j.
Proof using Hw Hpoly Hodd.
  revert j. induction e as [| b e IH]; intros j Hj; pose proof (Z.pow_pos_nonneg 2 j);
    [unfold len in Hj; cbn in *; lia |].
  rewrite len_cons in Hj. lens. cbn [emb]. apply lxor_range; [lia | |].
  - destruct b; [| lia]. split; [lia |]. apply Z.pow_lt_mono_r; lia.
  - specialize (IH (j - 1) ltac:(lia)). split; [lia |].
    apply Z.lt_trans with (2 ^ (j - 1)); [lia |]. apply Z.pow_lt_mono_r; lia.
Qed.

Lemma emb_double j e : len e < j → 2 * emb (j - 1) e = emb j e.
Proof using Hw Hpoly Hodd.
  revert j. induction e as [| b e IH]; intros j Hj; [done |].
  rewrite len_cons in Hj. lens. cbn [emb].
  rewrite <- (IH (j - 1)), double_lxor by lia. f_equal.
  destruct b; [| done]. rewrite <- Z.pow_succ_r by lia. f_equal. lia.
Qed.

(** Closed form of a run of at most [w] bits. *)
Lemma g_list_emb v e :
  len e ≤ w → g_list v e = Nat.iter (length e) g_step (Z.lxor v (emb w e)).
Proof using Hw Hpoly Hodd.
  unfold g_list. revert v. induction e as [| b e IH]; intros v He.
  { cbn. by rewrite Z.lxor_0_r. }
  rewrite len_cons in He. cbn [fold_left length]. rewrite IH by lia.
  rewrite <- emb_double, <- g_step_small by (try apply emb_range; lia).
  rewrite g_bit_step, <- g_step_lxor, Nat.iter_succ_r. cbn [emb].
  do 2 f_equal. apply Z.lxor_assoc.
Qed.

Lemma emb_inj j e1 e2 :
  length e1 = length e2 → len e1 ≤ j → emb j e1 = emb j e2 → e1 = e2.
Proof using Hw Hpoly Hodd.
  revert j e2. induction e1 as [| b1 e1 IH]; intros j [| b2 e2]; try done.
  intros Hl Hj E. rewrite len_cons in Hj. injection Hl as Hl. cbn [emb] in E.
  assert (len e2 = len e1) by (unfold len; lia). lens.
  pose proof (emb_range (j - 1) e1 ltac:(lia)). pose proof (emb_range (j - 1) e2 ltac:(lia)).
  assert (b1 = b2) as ->.
  { apply (f_equal (λ z, Z.testbit z (j - 1))) in E. rewrite !Z.lxor_spec in E.
    rewrite !(testbit_high (emb _ _) (j - 1)) in E by lia.
    destruct b1, b2; rewrite ?Z.pow2_bits_true, ?Z.bits_0 in E by lia; done. }
  f_equal. apply (IH (j - 1)); [done | lia |].
  apply (f_equal (Z.lxor (if b2 then 2 ^ (j - 1) else 0))) in E.
  by rewrite <- !Z.lxor_assoc, Z.lxor_nilpotent, !Z.lxor_0_l in E.
Qed.

Lemma g_bit_range v b : 0 ≤ g_bit v b < 2 ^ w.
Proof using Hw Hpoly Hodd. rewrite g_bit_step. apply g_step_range. Qed.

Lemma g_list_range v e : 0 ≤ v < 2 ^ w → 0 ≤ g_list v e < 2 ^ w.
Proof using Hw Hpoly Hodd.
  unfold g_list. revert v. induction e; cbn; auto using g_bit_range.
Qed.

Lemma g_list_inj u v e : 0 ≤ u < 2 ^ w → 0 ≤ v < 2 ^ w → g_list u e = g_list v e → u = v.
Proof using Hw Hpoly Hodd.
  unfold g_list. revert u v. induction e as [| b e IH]; [done |]. cbn. intros u v Hu Hv E.
  apply IH in E; auto using g_bit_range. rewrite !g_bit_step in E.
  assert (Hr : ∀ z, 0 ≤ z < 2 ^ w → 0 ≤ Z.lxor z (if b then 2 ^ (w - 1) else 0) < 2 ^ w).
  { intros z Hz. apply lxor_range; [lia | done |]. destruct b; [| lia].
    split; [lia |]. apply Z.pow_lt_mono_r; lia. }
  apply g_step_inj in E; auto.
  apply (f_equal (λ z, Z.lxor z (if b then 2 ^ (w - 1) else 0))) in E.
  by rewrite !Z.lxor_assoc, Z.lxor_nilpotent, !Z.lxor_0_r in E.
Qed.

Lemma g_list_app v d e : g_list v (d ++ e) = g_list (g_list v d) e.
Proof using Type. apply fold_left_app. Qed.

(** Any change confined to a window of at most [w] bits changes the register. *)
Lemma g_burst v p e1 e2 s :
  0 ≤ v < 2 ^ w → length e1 = length e2 → len e1 ≤ w → e1 ≠ e2 →
  g_list v (p ++ e1 ++ s) ≠ g_list v (p ++ e2 ++ s).
Proof using Hw Hpoly Hodd.
  intros Hv Hl Hw' Hne E. rewrite !g_list_app in E.
  pose proof (g_list_range v p Hv) as Hp.
  apply g_list_inj in E; auto using g_list_range.
  assert (len e2 = len e1) by (unfold len; lia).
  rewrite (g_list_emb _ e1), (g_list_emb _ e2), Hl in E by lia.
  assert (Hx : ∀ e, len e ≤ w → 0 ≤ Z.lxor (g_list v p) (emb w e) < 2 ^ w)
    by (intros; apply lxor_range; auto using emb_range; lia).
  apply iter_step_inj in E; [| apply Hx; lia..].
  apply Hne, (emb_inj w); [done | lia |].
  apply (f_equal (Z.lxor (g_list v p))) in E.
  by rewrite <- !Z.lxor_assoc, Z.lxor_nilpotent, !Z.lxor_0_l in E.
Qed.
End generic.

(** ** CRC-8-GNET and CRC-32-GNET as instances *)

Lemma crc8_update_bit_eq v b : Crc8.update_bit v b = g_bit 8 0x07 v b.
Proof.
  unfold Crc8.update_bit, g_bit. change 0x80 with (2 ^ 7).
  rewrite land_pow2_testbit by done. cbn [Z.sub].
  destruct (xorb _ b); [done | by rewrite Z.lxor_0_r].
Qed.
Lemma crc32_update_bit_eq v b : Crc32.update_bit v b = g_bit 32 0x04c11db7 v b.
Proof.
  unfold Crc32.update_bit, g_bit. change 0x80000000 with (2 ^ 31).
  rewrite land_pow2_testbit by done.
  destruct (xorb _ b); [done | by rewrite Z.lxor_0_r].
Qed.

Lemma crc8_update_bits_eq c v n : Crc8.update_bits c v n = g_list 8 0x07 c (bits_msb n v).
Proof.
  revert c. induction n as [| n IH]; intros c; [done |].
  cbn [Crc8.update_bits bits_msb]. by rewrite IH, land_1_testbit, crc8_update_bit_eq.
Qed.
Lemma crc32_update_bits_eq c v n :
  Crc32.update_bits c v n = g_list 32 0x04c11db7 c (bits_msb n v).
Proof.
  revert c. induction n as [| n IH]; intros c; [done |].
  cbn [Crc32.update_bits bits_msb]. by rewrite IH, land_1_testbit, crc32_update_bit_eq.
Qed.

(** A table entry is eight zero-input steps from the byte at the top of the
    register. *)
Lemma crc8_table_lookup i :
  u8 i → nth (Z.to_nat i) Crc8.CRC8_TABLE 0 = Nat.iter 8 (g_step 8 0x07) i.
Proof. intros. apply Z.eqb_eq. revert i H. apply forall_u8. by vm_compute. Qed.

Lemma crc32_table_lookup i : u8 i →
  nth (Z.to_nat i) Crc32.CRC32_TABLE 0 = Nat.iter 8 (g_step 32 0x04c11db7) (i * 2 ^ 24).
Proof. intros. apply Z.eqb_eq. revert i H. apply forall_u8. by vm_compute. Qed.

Lemma emb_byte8 b : u8 b → emb 8 (bits_msb 8 b) = b.
Proof. intros. apply Z.eqb_eq. revert b H. apply forall_u8. by vm_compute. Qed.

Lemma emb_byte32 b : u8 b → emb 32 (bits_msb 8 b) = b * 2 ^ 24.
Proof. intros. apply Z.eqb_eq. revert b H. apply forall_u8. by vm_compute. Qed.

Lemma length_bits_msb n v : length (bits_msb n v) = n.
Proof. induction n; cbn; congruence. Qed.

Lemma crc8_byte v b : u8 v → u8 b →
  nth (Z.to_nat (Z.lxor v b)) Crc8.CRC8_TABLE 0 = g_list 8 0x07 v (bits_msb 8 b).
Proof.
  intros Hv Hb. pose proof (lxor_range v b 8 ltac:(lia) Hv Hb).
  rewrite (g_list_emb 8 0x07) by (try done; unfold len; by rewrite length_bits_msb).
  by rewrite length_bits_msb, emb_byte8, crc8_table_lookup.
Qed.

Lemma crc32_byte v b : u32 v → u8 b →
  Z.lxor (as_u32 (Z.shiftl v 8))
    (nth (Z.to_nat (Z.lxor (as_u8 (Z.shiftr v 24)) b)) Crc32.CRC32_TABLE 0)
  = g_list 32 0x04c11db7 v (bits_msb 8 b).
Proof.
  intros Hv Hb. rewrite Z.shiftr_div_pow2 by lia.
  assert (Ht : as_u8 (v / 2 ^ 24) = v / 2 ^ 24) by (unfold as_u8; zdiv).
  assert (Hu : u8 (v / 2 ^ 24)) by zdiv. rewrite Ht.
  pose proof (lxor_range (v / 2 ^ 24) b 8 ltac:(lia) Hu Hb).
  rewrite (g_list_emb 32 0x04c11db7) by (try done; unfold len; by rewrite length_bits_msb).
  rewrite length_bits_msb, emb_byte32, crc32_table_lookup by done.
  (* split the register into its top byte and the rest *)
  assert (Hsplit : Z.lxor v (b * 2 ^ 24)
    = Z.lxor (Z.lxor (v / 2 ^ 24) b * 2 ^ 24) (v mod 2 ^ 24)).
  { rewrite <- !Z.shiftl_mul_pow2, Z.shiftl_lxor by lia.
    rewrite (Z.lxor_comm (Z.shiftl (v / 2 ^ 24) 24)), Z.lxor_assoc, (Z.lxor_comm v).
    f_equal. rewrite <- Z.add_nocarry_lxor.
    - rewrite Z.shiftl_mul_pow2 by lia. zdiv.
    - apply Z.bits_inj'. intros i ?. rewrite Z.land_spec, Z.bits_0.
      destruct (decide (i < 24)); [by rewrite Z.shiftl_spec_low |].
      by rewrite Z.mod_pow2_bits_high, andb_false_r by lia. }
  rewrite Hsplit, (iter_step_lxor 32 0x04c11db7) by done.
  rewrite Z.lxor_comm. f_equal.
  rewrite (iter_step_small 32 0x04c11db7) by (try done; change (32 - Z.of_nat 8) with 24; zdiv).
  rewrite Z.shiftl_mul_pow2 by lia. cbn [Z.of_nat]. zdiv.
Qed.

Lemma crc8_update_bytes_eq v bs : u8 v → bytes bs →
  Crc8.update_bytes v bs = g_list 8 0x07 v (bits_of_bytes bs).
Proof.
  intros Hv Hbs. revert v Hv. induction Hbs as [| b bs Hb Hbs IH]; intros v Hv; [done |].
  cbn [Crc8.update_bytes fold_left]. rewrite crc8_byte by done.
  change (bits_of_bytes (b :: bs)) with (bits_msb 8 b ++ bits_of_bytes bs).
  rewrite g_list_app. apply IH. by apply (g_list_range 8 0x07).
Qed.

Lemma crc32_update_bytes_eq v bs : u32 v → bytes bs →
  Crc32.update_bytes v bs = g_list 32 0x04c11db7 v (bits_of_bytes bs).
Proof.
  intros Hv Hbs. revert v Hv. induction Hbs as [| b bs Hb Hbs IH]; intros v Hv; [done |].
  cbn [Crc32.update_bytes fold_left]. rewrite crc32_byte by done.
  change (bits_of_bytes (b :: bs)) with (bits_msb 8 b ++ bits_of_bytes bs).
  rewrite g_list_app. apply IH. by apply (g_list_range 32 0x04c11db7).
Qed.

(** ** Properties *)

(** The table-driven [update_bytes] of both codes computes the same
    register as the bit-serial [update_bits] fed one byte at a time, from any
    register value and for any byte string. *)
Theorem crc_table_driven_is_bit_serial v8 v32 bs :
  u8 v8 → u32 v32 → bytes bs →
  Crc8.update_bytes v8 bs = fold_left (λ c b, Crc8.update_bits c b 8) bs v8 ∧
  Crc32.update_bytes v32 bs = fold_left (λ c b, Crc32.update_bits c b 8) bs v32.
Proof.
  intros H8 H32 Hbs. rewrite crc8_update_bytes_eq, crc32_update_bytes_eq by done.
  clear H8 H32 Hbs. split; revert v8 v32; induction bs as [| b bs IH]; intros; try done;
    change (bits_of_bytes (b :: bs)) with (bits_msb 8 b ++ bits_of_bytes bs);
    rewrite g_list_app; cbn [fold_left];
    rewrite ?crc8_update_bits_eq, ?crc32_update_bits_eq; auto.
Qed.

Lemma crc_table_driven_is_bit_serial_witness :
  Crc8.update_bytes 0 [0x31; 0x32] = fold_left (λ c b, Crc8.update_bits c b 8) [0x31; 0x32] 0 ∧
  Crc32.update_bytes 7 [0x31; 0x32] = fold_left (λ c b, Crc32.update_bits c b 8) [0x31; 0x32] 7.
Proof.
  apply crc_table_driven_is_bit_serial; [ulia | ulia | repeat constructor; ulia].
Defined.

(** C12: two messages whose bit strings agree outside a window of at most 32
    bits, and differ inside it, have different CRC-32-GNET values: every burst
    error of up to 32 bits is detected. *)
Theorem crc32_detects_bursts m1 m2 p e1 e2 s :
  bytes m1 → bytes m2 →
  bits_of_bytes m1 = p ++ e1 ++ s → bits_of_bytes m2 = p ++ e2 ++ s →
  length e1 = length e2 → (length e1 ≤ 32)%nat → e1 ≠ e2 →
  crc32_gnet m1 ≠ crc32_gnet m2.
Proof.
  intros H1 H2 E1 E2 Hl Hn Hne E. unfold crc32_gnet, Crc32.finalize in E.
  apply (f_equal (λ z, Z.lxor z 0xffffffff)) in E.
  rewrite !Z.lxor_assoc, Z.lxor_nilpotent, !Z.lxor_0_r in E.
  assert (u32 Crc32.new) by done.
  rewrite !crc32_update_bytes_eq, E1, E2 in E by done. revert E.
  apply (g_burst 32 0x04c11db7); try done. unfold len. lia.
Qed.

Lemma crc32_detects_bursts_witness : crc32_gnet [1; 2; 3] ≠ crc32_gnet [1; 0x43; 3].
Proof.
  apply (crc32_detects_bursts _ _ (bits_msb 8 1) (bits_msb 8 2) (bits_msb 8 0x43) (bits_msb 8 3));
    try reflexivity; try (repeat constructor; ulia). discriminate.
Defined.

Example crc8_check : crc8_gnet [0x31; 0x32; 0x33; 0x34; 0x35; 0x36; 0x37; 0x38; 0x39] = 0xF4.
Proof. reflexivity. Qed.
Example crc32_check :
  crc32_gnet [0x31; 0x32; 0x33; 0x34; 0x35; 0x36; 0x37; 0x38; 0x39] = 0xFC891918.
Proof. reflexivity. Qed.
