(* ===== verification/Css.v ===== *)
(** * Canonical service selectors (src/src/wire/css.rs)

    The 16-byte selector, its three wire forms (Registered-8, Short-32,
    Full-128) and the rule that exactly one of them is canonical for each
    selector. *)
From stdpp Require Import prelude.
From Stdlib Require Import ZArith Lia.
From S2P Require Import Prelude.
Local Open Scope Z_scope.

(** [ServiceSelector([u8; 16])] *)
Record ServiceSelector : Set := mkSelector { sel : list Z }.
#[export] Instance ServiceSelector_eq_dec : EqDecision ServiceSelector.
Proof. solve_decision. Defined.

Definition wf_selector (s : ServiceSelector) : Prop := len (sel s) = 16 ∧ bytes (sel s).

Inductive CssWire : Set :=
  | Registered (code : Z)
  | Short (s : list Z)
  | Full (v : list Z).

Definition is_ascii_uppercase (b : Z) : bool := (0x41 <=? b) && (b <=? 0x5a).
Definition is_ascii_digit (b : Z) : bool := (0x30 <=? b) && (b <=? 0x39).

Definition valid_short (bs : list Z) : bool :=
  forallb (λ b, is_ascii_uppercase b || is_ascii_digit b) bs.

Definition FILE : list Z := [0x46; 0x49; 0x4c; 0x45].
Definition GRPC : list Z := [0x47; 0x52; 0x50; 0x43].

Definition registered_to_short (code : Z) : option (list Z) :=
  if code =? 1 then Some FILE else if code =? 2 then Some GRPC else None.

Definition short_to_registered (v : list Z) : option Z :=
  if bool_decide (v = FILE) then Some 1
  else if bool_decide (v = GRPC) then Some 2 else None.

Definition short_raw (v : list Z) : res ServiceSelector :=
  fail_if (negb (valid_short v)) InvalidField;;
  x ← copy_at (zeros 16) 0 v;
  Ok (mkSelector x).

Definition registered (code : Z) : res ServiceSelector :=
  s ← ok_or (registered_to_short code) InvalidField;
  short_raw s.

Definition short (v : list Z) : res ServiceSelector :=
  fail_if (bool_decide (is_Some (short_to_registered v))) NonCanonical;;
  short_raw v.

Definition full (v : list Z) : res ServiceSelector :=
  fail_if (bool_decide (v = zeros 16)) InvalidField;;
  hi ← get_slice v 4 (len v);
  (if all_zero hi then
     a ← get_slice v 0 4;
     fail_if (valid_short a) NonCanonical
   else Ok tt);;
  Ok (mkSelector v).

Definition canonical_wire (self : ServiceSelector) : res CssWire :=
  fail_if (bool_decide (sel self = zeros 16)) InvalidField;;
  hi ← get_slice (sel self) 4 (len (sel self));
  if all_zero hi then
    s ← get_slice (sel self) 0 4;
    if valid_short s then
      match short_to_registered s with
      | Some c => Ok (Registered c)
      | None => Ok (Short s)
      end
    else Ok (Full (sel self))
  else Ok (Full (sel self)).

Definition css_wire_len (wire : CssWire) : Z :=
  match wire with Registered _ => 2 | Short _ => 5 | Full _ => 17 end.

Definition encoded_len (self : ServiceSelector) : res Z :=
  css_wire_len <$> canonical_wire self.

(** [encode_into(&self, out)]: the new contents of [out] and the length.  All
    checks precede the writes, so [out] is unchanged on an error. *)
Definition encode_into (self : ServiceSelector) (out : list Z) : res (list Z * Z) :=
  wire ← canonical_wire self;
  let need := css_wire_len wire in
  fail_if (len out <? need) BufferFull;;
  out ← match wire with
        | Registered c => out ← copy_at out 0 [0]; copy_at out 1 [c]
        | Short s => out ← copy_at out 0 [0x40]; copy_at out 1 s
        | Full v => out ← copy_at out 0 [0x80]; copy_at out 1 v
        end;
  Ok (out, need).

Definition encode (self : ServiceSelector) : res (list Z) :=
  n ← encoded_len self;
  '(out, n) ← encode_into self (zeros n);
  Ok (take (Z.to_nat n) out).

Definition decode (buf : list Z) : res (ServiceSelector * Z) :=
  fail_if (len buf =? 0) InvalidLength;;
  b0 ← get_index buf 0;
  fail_if (negb (Z.land b0 0x3f =? 0)) InvalidField;;
  let form := Z.shiftr b0 6 in
  if form =? 0 then
    fail_if (len buf <? 2) InvalidLength;;
    b1 ← get_index buf 1;
    s ← registered b1;
    Ok (s, 2)
  else if form =? 1 then
    fail_if (len buf <? 5) InvalidLength;;
    s ← get_slice buf 1 5;
    fail_if (bool_decide (is_Some (short_to_registered s))) NonCanonical;;
    s ← short s;
    Ok (s, 5)
  else if form =? 2 then
    fail_if (len buf <? 17) InvalidLength;;
    v ← get_slice buf 1 17;
    s ← full v;
    Ok (s, 17)
  else Err InvalidField.

(** ** Lemmas *)

(** The two shapes of a selector: a valid short name padded with zeros, or
    anything else that is not all zero. *)
Definition is_short_form (v : list Z) : bool :=
  all_zero (slice v 4 16) && valid_short (slice v 0 4).

Lemma canonical_wire_spec s :
  len (sel s) = 16 →
  canonical_wire s =
    if bool_decide (sel s = zeros 16) then Err InvalidField
    else if is_short_form (sel s) then
      match short_to_registered (slice (sel s) 0 4) with
      | Some c => Ok (Registered c)
      | None => Ok (Short (slice (sel s) 0 4))
      end
    else Ok (Full (sel s)).
Proof.
  intros Hl. unfold canonical_wire, is_short_form. rewrite Hl.
  destruct (bool_decide _); [done |]. cbn [fail_if]. rewrite !bind_Ok_l.
  rewrite !get_slice_eq by lia. rewrite !bind_Ok_l.
  by destruct (all_zero _); cbn [andb].
Qed.

Lemma full_spec v :
  len v = 16 →
  full v = if bool_decide (v = zeros 16) then Err InvalidField
           else if is_short_form v then Err NonCanonical else Ok (mkSelector v).
Proof.
  intros Hl. unfold full, is_short_form. rewrite Hl.
  destruct (bool_decide _); [done |]. cbn [fail_if]. rewrite !bind_Ok_l.
  rewrite !get_slice_eq by lia. rewrite !bind_Ok_l.
  destruct (all_zero _); cbn [andb]; [| done]. by destruct (valid_short _).
Qed.

Lemma short_raw_spec v :
  len v = 4 →
  short_raw v = if valid_short v then Ok (mkSelector (v ++ zeros 12)) else Err InvalidField.
Proof.
  intros Hl. unfold short_raw. destruct (valid_short v); [| done].
  explode v Hl. reflexivity.
Qed.

Lemma short_form_split v :
  len v = 16 → is_short_form v = true →
  ∃ s, len s = 4 ∧ valid_short s = true ∧ v = s ++ zeros 12 ∧ slice v 0 4 = s.
Proof.
  unfold is_short_form. intros Hl [Hz Hv]%andb_true_iff. apply all_zero_spec in Hz.
  exists (slice v 0 4). repeat split; [len_lia | done |].
  rewrite <- (slice_full v 0 16) at 1 by lia.
  rewrite (slice_split v 0 4 16), Hz by lia. f_equal. f_equal. len_lia.
Qed.

Lemma short_form_app s :
  len s = 4 → valid_short s = true →
  is_short_form (s ++ zeros 12) = true ∧ slice (s ++ zeros 12) 0 4 = s ∧
  s ++ zeros 12 ≠ zeros 16.
Proof.
  intros Hl Hv. explode s Hl. repeat split; [exact Hv |].
  intros [= -> _ _ _]. done.
Qed.

Lemma encode_spec s w :
  wf_selector s → canonical_wire s = Ok w →
  encode s = Ok match w with
                | Registered c => [0; c]
                | Short v => 0x40 :: v
                | Full v => 0x80 :: v
                end.
Proof.
  intros [Hl Hb] Hw. unfold encode, encoded_len, encode_into. rewrite Hw. cbn [fmap res_fmap].
  rewrite !bind_Ok_l. rewrite canonical_wire_spec in Hw by done.
  destruct w as [c | v | v]; cbn [css_wire_len]; [reflexivity | |].
  - assert (Hv : len v = 4).
    { repeat case_match; simplify_eq; len_lia. }
    explode v Hv. reflexivity.
  - assert (Hv : len v = 16).
    { by repeat case_match; simplify_eq. }
    explode v Hv. reflexivity.
Qed.

Lemma short_to_registered_inv v c :
  short_to_registered v = Some c →
  registered_to_short c = Some v ∧ valid_short v = true ∧ len v = 4.
Proof.
  unfold short_to_registered. repeat case_bool_decide; intros; inv_res; by cbn.
Qed.

Lemma registered_to_short_inv c v :
  registered_to_short c = Some v →
  short_to_registered v = Some c ∧ valid_short v = true ∧ len v = 4.
Proof.
  unfold registered_to_short.
  destruct (Z.eqb_spec c 1) as [-> |]; [| destruct (Z.eqb_spec c 2) as [-> |]];
    intros; inv_res; done.
Qed.

Lemma bytes_short_pad v : bytes v → bytes (v ++ zeros 12).
Proof. intros. apply bytes_app. split; [done | apply bytes_zeros]. Qed.

Lemma registered_wf c : 
  match registered_to_short c with
  | Some v => registered c = Ok (mkSelector (v ++ zeros 12)) ∧ bytes v
  | None => registered c = Err InvalidField
  end.
Proof.
  unfold registered. destruct (registered_to_short c) eqn:E; [| done].
  cbn [ok_or]. rewrite bind_Ok_l. pose proof E as (_ & Hv & Hl)%registered_to_short_inv.
  rewrite short_raw_spec, Hv by done. split; [done |].
  revert E. unfold registered_to_short. 
  destruct (c =? 1), (c =? 2); intros; inv_res; repeat constructor; ulia.
Qed.

Lemma land_3f b : u8 b → Z.land b 0x3f = b mod 64.
Proof. intros. by apply (land_ones_mod b 6). Qed.

(** [decode] on a buffer that starts with one of the three forms. *)
Lemma decode_registered c rest :
  decode (0 :: c :: rest) = (s ← registered c; Ok (s, 2)).
Proof.
  unfold decode. rewrite !len_cons. pose proof (len_nonneg rest).
  change (get_index (0 :: c :: rest) 0) with (Ok 0).
  change (get_index (0 :: c :: rest) 1) with (Ok c).
  replace (_ =? 0) with false by lia. cbn -[registered Z.ltb Z.add].
  by replace (_ <? 2) with false by lia.
Qed.

Lemma decode_short s rest :
  len s = 4 →
  decode (0x40 :: s ++ rest) =
    (fail_if (bool_decide (is_Some (short_to_registered s))) NonCanonical;;
     s ← short s; Ok (s, 5)).
Proof.
  intros Hl. unfold decode. rewrite len_cons, len_app, Hl. pose proof (len_nonneg rest).
  change (get_index (0x40 :: s ++ rest) 0) with (Ok 0x40).
  replace (_ =? 0) with false by lia. cbn -[short Z.ltb Z.add get_slice].
  replace (_ <? 5) with false by lia.
  rewrite get_slice_eq by (rewrite ?len_cons, ?len_app; lia).
  replace (slice (0x40 :: s ++ rest) 1 5) with s; [done |].
  explode s Hl. reflexivity.
Qed.

Lemma decode_full v rest :
  len v = 16 → decode (0x80 :: v ++ rest) = (s ← full v; Ok (s, 17)).
Proof.
  intros Hl. unfold decode. rewrite len_cons, len_app, Hl. pose proof (len_nonneg rest).
  change (get_index (0x80 :: v ++ rest) 0) with (Ok 0x80).
  replace (_ =? 0) with false by lia. cbn -[full Z.ltb Z.add get_slice].
  replace (_ <? 17) with false by lia.
  rewrite (get_slice_eq _ 1 17) by (rewrite ?len_cons, ?len_app; lia).
  replace (slice (0x80 :: v ++ rest) 1 17) with v; [done |].
  explode v Hl. reflexivity.
Qed.

(** ** Properties *)

Lemma css_encode_decode s rest :
  wf_selector s → sel s ≠ zeros 16 →
  ∃ w, encode s = Ok w ∧ decode (w ++ rest) = Ok (s, len w).
Proof.
  intros Hs Hz. pose proof Hs as [Hl Hb]. destruct s as [v]. cbn [sel] in *.
  pose proof (canonical_wire_spec (mkSelector v) Hl) as Hw. cbn [sel] in Hw.
  rewrite bool_decide_eq_false_2 in Hw by done.
  destruct (is_short_form v) eqn:Esf.
  - destruct (short_form_split v Hl Esf) as (s & Hs4 & Hv & -> & Es). rewrite Es in Hw.
    destruct (short_to_registered s) as [c |] eqn:Er;
      (eexists; split; [by apply (encode_spec _ _ Hs Hw) |]).
    + cbn [app]. rewrite decode_registered.
      apply short_to_registered_inv in Er as (Er & _ & _).
      pose proof (registered_wf c) as Hc. rewrite Er in Hc. by destruct Hc as [-> _].
    + cbn [app]. rewrite decode_short by done. unfold short.
      rewrite Er, (short_raw_spec s Hs4), Hv, len_cons, Hs4. done.
  - eexists. split; [by apply (encode_spec _ _ Hs Hw) |]. cbn [app].
    rewrite decode_full, full_spec, bool_decide_eq_false_2, Esf, len_cons, Hl by done. done.
Qed.

Lemma encode_bytes s w : wf_selector s → encode s = Ok w → bytes w.
Proof.
  intros Hs H. pose proof Hs as [Hl Hb].
  destruct (canonical_wire s) as [wire | |] eqn:Hw;
    [| unfold encode, encoded_len in H; by rewrite Hw in H..].
  rewrite (encode_spec s wire Hs Hw) in H. apply Ok_inj in H. subst w.
  rewrite canonical_wire_spec in Hw by done.
  repeat case_match; simplify_eq; unfold short_to_registered in *; simplify_option_eq;
    rewrite ?bytes_cons; split_and?; try (apply bytes_slice || apply bytes_nil || ulia); done.
Qed.

(** Every selector other than all-zero has an encoding, and decoding that
    encoding, whatever follows it in the buffer, returns the selector and the
    number of bytes the encoding takes. *)
Theorem css_roundtrip s rest :
  wf_selector s → sel s ≠ zeros 16 →
  ∃ w, encode s = Ok w ∧ decode (w ++ rest) = Ok (s, len w).
Proof. apply css_encode_decode. Qed.

Lemma css_roundtrip_witness :
  ∃ w, encode (mkSelector (FILE ++ zeros 12)) = Ok w ∧
       decode (w ++ [9; 9]) = Ok (mkSelector (FILE ++ zeros 12), len w).
Proof.
  apply css_roundtrip; [| discriminate].
  split; [reflexivity | repeat constructor; ulia].
Defined.

(** The shapes a buffer has when its first byte selects a form. *)
Lemma buf_cons (buf : list Z) b : get_index buf 0 = Ok b → ∃ t, buf = b :: t.
Proof. intros [_ H]%get_index_Ok. destruct buf as [| x t]; [done |]. injection H as <-. eauto. Qed.

Lemma first_byte_forms b :
  u8 b → negb (Z.land b 0x3f =? 0) = false →
  (Z.shiftr b 6 = 0 ∧ b = 0) ∨ (Z.shiftr b 6 = 1 ∧ b = 0x40) ∨
  (Z.shiftr b 6 = 2 ∧ b = 0x80) ∨ (Z.shiftr b 6 = 3).
Proof.
  intros Hb. rewrite land_3f, Z.shiftr_div_pow2 by (done || lia). intros. zdiv.
Qed.

Lemma slice_cons_1 (b : Z) t n : 1 ≤ n → slice (b :: t) 1 n = slice t 0 (n - 1).
Proof. intros. change (b :: t) with ([b] ++ t). by rewrite slice_app_r. Qed.

Lemma encode_padded s :
  len s = 4 → bytes s → valid_short s = true →
  wf_selector (mkSelector (s ++ zeros 12)) ∧
  encode (mkSelector (s ++ zeros 12)) =
    Ok match short_to_registered s with Some c => [0; c] | None => 0x40 :: s end.
Proof.
  intros Hl Hb Hv. destruct (short_form_app s Hl Hv) as (Hs & Hsl & Hz).
  assert (Hwf : wf_selector (mkSelector (s ++ zeros 12))).
  { split; cbn [sel]; [len_lia | by apply bytes_short_pad]. }
  split; [done |]. pose proof Hwf as [Hl16 _].
  pose proof (canonical_wire_spec _ Hl16) as Hw. cbn [sel] in Hw.
  rewrite bool_decide_eq_false_2, Hs, Hsl in Hw by done.
  destruct (short_to_registered s); by apply (encode_spec _ _ Hwf Hw).
Qed.

Lemma encode_full v :
  len v = 16 → bytes v → v ≠ zeros 16 → is_short_form v = false →
  encode (mkSelector v) = Ok (0x80 :: v).
Proof.
  intros Hl Hb Hz Hs. pose proof (canonical_wire_spec (mkSelector v) Hl) as Hw.
  cbn [sel] in Hw. rewrite bool_decide_eq_false_2, Hs in Hw by done.
  by apply (encode_spec (mkSelector v) _ (conj Hl Hb) Hw).
Qed.

Lemma css_decode_encode buf s n :
  bytes buf → decode buf = Ok (s, n) →
  wf_selector s ∧ encode s = Ok (slice buf 0 n).
Proof.
  intros Hb H. unfold decode in H.
  apply bind_Ok in H as (_ & _ & H). apply bind_Ok in H as (b & Hi & H).
  destruct (buf_cons _ _ Hi) as [t ->]. clear Hi. apply bytes_cons in Hb as [Hu Ht].
  apply bind_Ok in H as (_ & [Hm _]%fail_if_Ok & H).
  destruct (first_byte_forms b Hu Hm) as [[E ->] | [[E ->] | [[E ->] | E]]];
    rewrite E in H; [| | | done]; cbv beta iota zeta delta [Z.eqb Pos.eqb] in H; inv_res.
  - destruct t as [| c t]; [done |]. injection H0 as <-.
    pose proof (registered_wf c) as Hc.
    destruct (registered_to_short c) eqn:Er; [| congruence].
    destruct Hc as [Hc Hbl]. rewrite Hc in H1. inv_res.
    apply registered_to_short_inv in Er as (Er & Hv & Hl).
    destruct (encode_padded l Hl Hbl Hv) as [? ->]. by rewrite Er.
  - apply get_slice_Ok in H0 as (_ & _ & Hlen & ->). rewrite len_cons in Hlen.
    rewrite (slice_split _ 0 1 5), slice_cons_1 in * by lia.
    set (v := slice t 0 _) in *.
    assert (Hv : len v = 4) by (subst v; len_lia).
    assert (bytes v) by by apply bytes_slice.
    unfold short in H2. inv_res. rewrite short_raw_spec in H3 by done.
    destruct (valid_short v) eqn:Ev; inv_res.
    destruct (encode_padded v Hv) as [? ->]; [done.. |]. split; [done |].
    apply bool_decide_eq_false in H1. by destruct (short_to_registered v); [destruct H1 |].
  - apply get_slice_Ok in H0 as (_ & _ & Hlen & ->). rewrite len_cons in Hlen.
    rewrite (slice_split _ 0 1 17), slice_cons_1 in * by lia.
    set (v := slice t 0 _) in *.
    assert (Hv : len v = 16) by (subst v; len_lia).
    assert (bytes v) by by apply bytes_slice.
    rewrite full_spec in H1 by done. case_bool_decide; inv_res.
    destruct (is_short_form v) eqn:Es; inv_res. split; [done |]. by apply encode_full.
Qed.

Lemma css_decode_wf buf s n : bytes buf → decode buf = Ok (s, n) → wf_selector s.
Proof. intros Hb H. by apply (css_decode_encode buf s n). Qed.

(** The wire form is unique: whatever bytes [decode] accepts are exactly
    the bytes [encode] produces for the selector it returns, so no two wire
    forms denote the same service. *)
Theorem css_decode_canonical buf s n :
  bytes buf → decode buf = Ok (s, n) →
  wf_selector s ∧ encode s = Ok (slice buf 0 n).
Proof. apply css_decode_encode. Qed.

Lemma css_decode_canonical_witness :
  wf_selector (mkSelector (FILE ++ zeros 12)) ∧
  encode (mkSelector (FILE ++ zeros 12)) = Ok (slice [0; 1; 0; 0] 0 2).
Proof.
  apply css_decode_canonical; [repeat constructor; ulia | reflexivity].
Defined.

Lemma no_panic_registered c : no_panic (registered c).
Proof. pose proof (registered_wf c). by destruct (registered_to_short c) as [? | ]; [destruct H as [-> _] | rewrite H]. Qed.

Lemma no_panic_short v : len v = 4 → no_panic (short v).
Proof.
  intros. unfold short. apply no_panic_bind; [apply no_panic_fail_if |]. intros _ _.
  rewrite short_raw_spec by done. by destruct (valid_short v).
Qed.

Lemma no_panic_full v : len v = 16 → no_panic (full v).
Proof. intros. rewrite full_spec by done. by repeat case_match. Qed.

(** [decode] returns on every byte string. *)
Lemma css_decode_no_panic buf : no_panic (decode buf).
Proof.
  unfold decode. apply no_panic_bind; [auto with nopanic |]. intros _ [Hz _]%fail_if_Ok.
  lens. apply no_panic_bind; [apply no_panic_get_index; lia |]. intros b Hb.
  apply no_panic_bind; [auto with nopanic |]. intros _ _.
  repeat (case_match; [apply no_panic_bind; [auto with nopanic |]; intros _ [Hlt _]%fail_if_Ok;
    apply no_panic_bind; [(apply no_panic_get_index || apply no_panic_get_slice); lia |] |]);
    [.. | done]; intros v Hv.
  - apply no_panic_bind; [apply no_panic_registered | done].
  - apply get_slice_Ok in Hv as (_ & _ & _ & ->).
    apply no_panic_bind; [auto with nopanic |]. intros _ _.
    apply no_panic_bind; [apply no_panic_short; len_lia | done].
  - apply get_slice_Ok in Hv as (_ & _ & _ & ->).
    apply no_panic_bind; [apply no_panic_full; len_lia | done].
Qed.
