(* ===== verification/GdpWire.v ===== *)
(** * GDP headers and packets (src/src/wire/gdp_common.rs, gdp_handwritten.rs, gdp.rs)

    Address forms, Size Classes, the CRC-8 protected header, its handwritten
    codec and the fixed-size packet around it. *)
From stdpp Require Import prelude.
From Stdlib Require Import ZArith Lia.
From S2P Require Import Prelude Crc.
Local Open Scope Z_scope.

(** ** gdp_common.rs *)

Inductive GdpType : Set := Gctl | Gts | Reserved (v : Z).
#[export] Instance GdpType_eq_dec : EqDecision GdpType.
Proof. solve_decision. Defined.

Definition type_to_wire (self : GdpType) : Z :=
  match self with
  | Gctl => 0x1
  | Gts => 0x2
  | Reserved v => Z.land v 0x0f
  end.

Definition type_from_wire (v : Z) : GdpType :=
  let x := Z.land v 0x0f in
  if x =? 1 then Gctl else if x =? 2 then Gts else Reserved x.

Inductive SizeClass : Set :=
  | Empty | Tiny3 | Ctrl32 | Ctrl64 | Msg128 | Msg192 | Msg256 | Msg384
  | Medium512 | Medium768 | Bulk1K | Bulk1280 | Legacy1500 | Xmtu2K
  | Jumbo4K | Jumbo8K.
#[export] Instance SizeClass_eq_dec : EqDecision SizeClass.
Proof. solve_decision. Defined.

(** [self as u8] *)
Definition sc_index (self : SizeClass) : Z :=
  match self with
  | Empty => 0 | Tiny3 => 1 | Ctrl32 => 2 | Ctrl64 => 3 | Msg128 => 4 | Msg192 => 5
  | Msg256 => 6 | Msg384 => 7 | Medium512 => 8 | Medium768 => 9 | Bulk1K => 10
  | Bulk1280 => 11 | Legacy1500 => 12 | Xmtu2K => 13 | Jumbo4K => 14 | Jumbo8K => 15
  end.

Definition SizeClass_ALL : list SizeClass :=
  [Empty; Tiny3; Ctrl32; Ctrl64; Msg128; Msg192; Msg256; Msg384; Medium512;
   Medium768; Bulk1K; Bulk1280; Legacy1500; Xmtu2K; Jumbo4K; Jumbo8K].

Definition sc_bytes (self : SizeClass) : Z :=
  nth (Z.to_nat (sc_index self))
    [0; 3; 32; 64; 128; 192; 256; 384; 512; 768; 1024; 1280; 1500; 2048; 4096; 8192] 0.

Definition sc_from_wire (v : Z) : res SizeClass :=
  ok_or (SizeClass_ALL !! Z.to_nat (Z.land v 0x0f)) InvalidSizeClass.

Definition smallest_for (required : Z) : option SizeClass :=
  find (λ c, required <=? sc_bytes c) SizeClass_ALL.

Inductive AddressForm : Set := FormGlobal | FormLocal.
#[export] Instance AddressForm_eq_dec : EqDecision AddressForm.
Proof. solve_decision. Defined.

Record GdpWireConfig : Set := mkWireConfig { local_form_bit : bool }.
Definition GdpWireConfig_default : GdpWireConfig := {| local_form_bit := true |}.

Definition form_bit (self : GdpWireConfig) (form : AddressForm) : bool :=
  match form with
  | FormLocal => local_form_bit self
  | FormGlobal => negb (local_form_bit self)
  end.

Definition form_from_bit (self : GdpWireConfig) (bit : bool) : AddressForm :=
  if eqb bit (local_form_bit self) then FormLocal else FormGlobal.

Inductive GdpAddresses : Set :=
  | Global (destination source : Z)
  | Local (destination source prefix : Z).
#[export] Instance GdpAddresses_eq_dec : EqDecision GdpAddresses.
Proof. solve_decision. Defined.

Definition addr_form (self : GdpAddresses) : AddressForm :=
  match self with Global _ _ => FormGlobal | Local _ _ _ => FormLocal end.

Definition effective_destination (self : GdpAddresses) : Z :=
  match self with
  | Global destination _ => destination
  | Local destination _ prefix => Z.lor (clear_low16 prefix) destination
  end.

Definition effective_source (self : GdpAddresses) : Z :=
  match self with
  | Global _ source => source
  | Local _ source prefix => Z.lor (clear_low16 prefix) source
  end.

Record GdpHeader : Set := mkHeader {
  hdr_version : Z;
  hdr_packet_type : GdpType;
  hdr_size_class : SizeClass;
  hdr_hop_limit : Z;
  hdr_addresses : GdpAddresses }.
#[export] Instance GdpHeader_eq_dec : EqDecision GdpHeader.
Proof. solve_decision. Defined.

Definition header_global packet_type size_class hop_limit source destination : GdpHeader :=
  {| hdr_version := 0; hdr_packet_type := packet_type; hdr_size_class := size_class;
     hdr_hop_limit := hop_limit; hdr_addresses := Global destination source |}.

Definition header_local packet_type size_class hop_limit prefix source destination
    : res GdpHeader :=
  fail_if (15 <? hop_limit) InvalidField;;
  Ok {| hdr_version := 0; hdr_packet_type := packet_type; hdr_size_class := size_class;
        hdr_hop_limit := hop_limit;
        hdr_addresses := Local destination source (clear_low16 prefix) |}.

Definition header_len (self : GdpHeader) : Z :=
  match hdr_addresses self with Global _ _ => 20 | Local _ _ _ => 8 end.

Definition hdr_source (self : GdpHeader) : Z := effective_source (hdr_addresses self).
Definition hdr_destination (self : GdpHeader) : Z := effective_destination (hdr_addresses self).

Definition crc8 (self : GdpHeader) (cfg : GdpWireConfig) : Z :=
  let c := Crc8.new in
  let c := Crc8.update_bits c (Z.land (hdr_version self) 0x03) 2 in
  let c := Crc8.update_bits c (type_to_wire (hdr_packet_type self)) 4 in
  let c := Crc8.update_bits c (sc_index (hdr_size_class self)) 4 in
  let c := Crc8.update_bit c (form_bit cfg (addr_form (hdr_addresses self))) in
  let c := match hdr_addresses self with
           | Global destination source =>
               Crc8.update_bits (Crc8.update_bits c destination 64) source 64
           | Local destination source _ =>
               Crc8.update_bits (Crc8.update_bits c destination 16) source 16
           end in
  Crc8.finalize c.

(** ** gdp_handwritten.rs *)

(** First header word of [encode_header_into]. *)
Definition header_word1 (header : GdpHeader) (cfg : GdpWireConfig) : Z :=
  let form_bit := Z.b2z (form_bit cfg (addr_form (hdr_addresses header))) in
  let crc := crc8 header cfg in
  let hop := match hdr_addresses header with
             | Global _ _ => hdr_hop_limit header
             | Local _ _ _ => Z.land (hdr_hop_limit header) 0x0f
             end in
  Z.lor (Z.lor (Z.lor (Z.lor (Z.lor
    (Z.shiftl (Z.land (hdr_version header) 3) 30)
    (Z.shiftl (Z.land (type_to_wire (hdr_packet_type header)) 0x0f) 26))
    (Z.shiftl (Z.land (sc_index (hdr_size_class header)) 0x0f) 22))
    (Z.shiftl form_bit 21))
    (Z.shiftl crc 8))
    hop.

(** [encode_header_into(header, cfg, out)]: the new contents of [out] and the
    number of bytes written; no write precedes an error. *)
Definition encode_header_into (header : GdpHeader) (cfg : GdpWireConfig) (out : list Z)
    : res (list Z * Z) :=
  fail_if ((3 <? hdr_version header) || (15 <? type_to_wire (hdr_packet_type header))) InvalidField;;
  fail_if (match hdr_addresses header with Local _ _ _ => 15 <? hdr_hop_limit header | _ => false end)
    InvalidField;;
  let need := header_len header in
  fail_if (len out <? need) BufferFull;;
  out ← copy_at out 0 (to_be 4 (header_word1 header cfg));
  out ← match hdr_addresses header with
        | Global destination source =>
            out ← copy_at out 4 (to_be 8 destination);
            copy_at out 12 (to_be 8 source)
        | Local destination source _ =>
            copy_at out 4 (to_be 4 (Z.lor (Z.shiftl destination 16) source))
        end;
  Ok (out, need).

Definition decode_header (buf : list Z) (cfg : GdpWireConfig) (local_prefix : Z)
    : res GdpHeader :=
  fail_if (len buf <? 4) InvalidLength;;
  w ← get_slice buf 0 4;
  word ← try_from_be 4 w;
  let version := Z.land (Z.shiftr word 30) 3 in
  let packet_type := type_from_wire (Z.land (Z.shiftr word 26) 0x0f) in
  size_class ← sc_from_wire (Z.land (Z.shiftr word 22) 0x0f);
  let form := form_from_bit cfg (negb (Z.land (Z.shiftr word 21) 1 =? 0)) in
  let received_crc := Z.land (Z.shiftr word 8) 0xff in
  header ←
    match form with
    | FormGlobal =>
        fail_if (len buf <? 20) InvalidLength;;
        d ← get_slice buf 4 12; d ← try_from_be 8 d;
        s ← get_slice buf 12 20; s ← try_from_be 8 s;
        Ok {| hdr_version := version; hdr_packet_type := packet_type; hdr_size_class := size_class;
              hdr_hop_limit := Z.land word 0xff; hdr_addresses := Global d s |}
    | FormLocal =>
        fail_if (len buf <? 8) InvalidLength;;
        i ← get_slice buf 4 8; ids ← try_from_be 4 i;
        Ok {| hdr_version := version; hdr_packet_type := packet_type; hdr_size_class := size_class;
              hdr_hop_limit := Z.land word 0x0f;
              hdr_addresses := Local (as_u16 (Z.shiftr ids 16)) (as_u16 ids)
                                 (clear_low16 local_prefix) |}
    end;
  fail_if (negb (crc8 header cfg =? received_crc)) InvalidCrc;;
  Ok header.

(** ** gdp.rs *)

Definition header_encode (self : GdpHeader) (cfg : GdpWireConfig) : res (list Z) :=
  '(out, _) ← encode_header_into self cfg (zeros (header_len self));
  Ok out.

(** [GdpPacketRef<'_>] borrows its payload and [GdpPacket] owns it; both are
    this record. *)
Record GdpPacket : Set := mkPacket { pkt_header : GdpHeader; pkt_payload : list Z }.
#[export] Instance GdpPacket_eq_dec : EqDecision GdpPacket.
Proof. solve_decision. Defined.

Definition packet_new (header : GdpHeader) (payload : list Z) : res GdpPacket :=
  fail_if (negb (len payload =? sc_bytes (hdr_size_class header))) InvalidLength;;
  Ok {| pkt_header := header; pkt_payload := payload |}.

Definition packet_decode (buf : list Z) (cfg : GdpWireConfig) (local_prefix : Z)
    : res GdpPacket :=
  header ← decode_header buf cfg local_prefix;
  let hl := header_len header in
  let total := hl + sc_bytes (hdr_size_class header) in
  fail_if (negb (len buf =? total)) InvalidLength;;
  payload ← get_slice buf hl (len buf);
  Ok {| pkt_header := header; pkt_payload := payload |}.

Definition packet_encode_into (self : GdpPacket) (cfg : GdpWireConfig) (out : list Z)
    : res (list Z * Z) :=
  let total := header_len (pkt_header self) + len (pkt_payload self) in
  fail_if (len out <? total) BufferFull;;
  '(out, hl) ← encode_header_into (pkt_header self) cfg out;
  out ← copy_at out hl (pkt_payload self);
  Ok (out, total).

Definition packet_encode (self : GdpPacket) (cfg : GdpWireConfig) : res (list Z) :=
  p ← packet_new (pkt_header self) (pkt_payload self);
  '(out, n) ← packet_encode_into p cfg (zeros (header_len (pkt_header self) + len (pkt_payload self)));
  Ok (take (Z.to_nat n) out).

(** ** Well-formedness: the ranges the Rust types impose, with [Reserved]
    carrying a code that is neither GCTL nor GTS *)

Definition wf_type (t : GdpType) : Prop :=
  match t with Reserved v => 0 ≤ v < 16 ∧ v ≠ 1 ∧ v ≠ 2 | _ => True end.

Definition wf_addresses (a : GdpAddresses) : Prop :=
  match a with
  | Global d s => u64 d ∧ u64 s
  | Local d s p => u16 d ∧ u16 s ∧ u64 p ∧ clear_low16 p = p
  end.

(** Headers the encoder accepts. *)
Definition wf_header (h : GdpHeader) : Prop :=
  0 ≤ hdr_version h ≤ 3 ∧ wf_type (hdr_packet_type h) ∧ wf_addresses (hdr_addresses h) ∧
  u8 (hdr_hop_limit h) ∧
  match hdr_addresses h with Local _ _ _ => hdr_hop_limit h ≤ 15 | _ => True end.

(** The receiver's prefix supplies the one of a Local header. *)
Definition prefix_matches (h : GdpHeader) (local_prefix : Z) : Prop :=
  match hdr_addresses h with Local _ _ p => p = clear_low16 local_prefix | _ => True end.

(** ** Lemmas *)

Lemma sc_index_range c : 0 ≤ sc_index c < 16.
Proof. destruct c; cbn; lia. Qed.
Lemma sc_bytes_range c : 0 ≤ sc_bytes c ≤ 8192.
Proof. destruct c; by vm_compute. Qed.
(** The table of class sizes, as equations. *)
Ltac sc_norm :=
  change (sc_bytes Empty) with 0 in *; change (sc_bytes Tiny3) with 3 in *;
  change (sc_bytes Ctrl32) with 32 in *; change (sc_bytes Ctrl64) with 64 in *;
  change (sc_bytes Msg128) with 128 in *; change (sc_bytes Msg192) with 192 in *;
  change (sc_bytes Msg256) with 256 in *; change (sc_bytes Msg384) with 384 in *;
  change (sc_bytes Medium512) with 512 in *; change (sc_bytes Medium768) with 768 in *;
  change (sc_bytes Bulk1K) with 1024 in *; change (sc_bytes Bulk1280) with 1280 in *;
  change (sc_bytes Legacy1500) with 1500 in *; change (sc_bytes Xmtu2K) with 2048 in *;
  change (sc_bytes Jumbo4K) with 4096 in *; change (sc_bytes Jumbo8K) with 8192 in *;
  cbn [sc_index] in *.

Lemma sc_from_index c : sc_from_wire (sc_index c) = Ok c.
Proof. by destruct c. Qed.
Lemma sc_index_inj c d : sc_index c = sc_index d → c = d.
Proof. by destruct c, d. Qed.

Lemma sc_from_wire_total v : ∃ c, sc_from_wire v = Ok c ∧ sc_index c = v mod 16.
Proof.
  unfold sc_from_wire. rewrite (land_ones_mod v 4) by done.
  change (2 ^ 4) with 16. pose proof (Z.mod_pos_bound v 16 ltac:(lia)) as Hk.
  revert Hk. generalize (v mod 16). intros k Hk.
  assert (Hc : k = 0 ∨ k = 1 ∨ k = 2 ∨ k = 3 ∨ k = 4 ∨ k = 5 ∨ k = 6 ∨ k = 7 ∨ k = 8 ∨
    k = 9 ∨ k = 10 ∨ k = 11 ∨ k = 12 ∨ k = 13 ∨ k = 14 ∨ k = 15) by lia.
  destruct_or! Hc; subst k; eexists; (split; [reflexivity | reflexivity]).
Qed.

Lemma type_wire_range t : 0 ≤ type_to_wire t < 16.
Proof.
  destruct t; cbn [type_to_wire]; [lia.. |].
  rewrite (land_ones_mod v 4) by done. apply Z.mod_pos_bound. lia.
Qed.

Lemma type_from_to_wire t : wf_type t → type_from_wire (type_to_wire t) = t.
Proof.
  destruct t as [| | v]; cbn [wf_type type_to_wire]; [done.. |]. intros (Hv & H1 & H2).
  unfold type_from_wire. rewrite !(land_ones_mod _ 4) by done.
  rewrite !Z.mod_mod, Z.mod_small by lia.
  by rewrite (proj2 (Z.eqb_neq v 1)), (proj2 (Z.eqb_neq v 2)).
Qed.

Lemma wf_type_from_wire v : wf_type (type_from_wire v).
Proof.
  unfold type_from_wire. rewrite (land_ones_mod v 4) by done.
  pose proof (Z.mod_pos_bound v (2 ^ 4) ltac:(lia)).
  destruct (Z.eqb_spec (v mod 2 ^ 4) 1); [done |].
  destruct (Z.eqb_spec (v mod 2 ^ 4) 2); [done |]. cbn. lia.
Qed.

Lemma form_from_form_bit cfg f : form_from_bit cfg (form_bit cfg f) = f.
Proof. destruct cfg as [[]], f; done. Qed.

Lemma crc8_bits_range c v n : u8 c → u8 (Crc8.update_bits c v n).
Proof. intros. rewrite crc8_update_bits_eq. by apply (g_list_range 8 0x07). Qed.
Lemma crc8_bit_range c b : u8 (Crc8.update_bit c b).
Proof. rewrite crc8_update_bit_eq. by apply (g_bit_range 8 0x07). Qed.

Lemma crc8_range h cfg : u8 (crc8 h cfg).
Proof.
  unfold crc8, Crc8.finalize.
  destruct (hdr_addresses h); auto using crc8_bits_range, crc8_bit_range.
Qed.

(** The CRC does not read the hop limit, nor the prefix of a Local header. *)
Lemma crc8_ext h h' cfg :
  hdr_version h = hdr_version h' → hdr_packet_type h = hdr_packet_type h' →
  hdr_size_class h = hdr_size_class h' →
  match hdr_addresses h, hdr_addresses h' with
  | Global d s, Global d' s' => d = d' ∧ s = s'
  | Local d s _, Local d' s' _ => d = d' ∧ s = s'
  | _, _ => False
  end → crc8 h cfg = crc8 h' cfg.
Proof.
  unfold crc8. intros -> -> -> Ha. destruct (hdr_addresses h), (hdr_addresses h');
    try contradiction; destruct Ha as [-> ->]; reflexivity.
Qed.

(** The fields of a header word as a sum and back. *)
Definition word_sum (v t s b c h : Z) : Z :=
  v * 2 ^ 30 + t * 2 ^ 26 + s * 2 ^ 22 + b * 2 ^ 21 + c * 2 ^ 8 + h.

Definition word_ranges (v t s b c h : Z) : Prop :=
  0 ≤ v < 4 ∧ 0 ≤ t < 16 ∧ 0 ≤ s < 16 ∧ 0 ≤ b < 2 ∧ u8 c ∧ u8 h.

Lemma word_sum_range v t s b c h : word_ranges v t s b c h → u32 (word_sum v t s b c h).
Proof. unfold word_ranges, word_sum. ulia. Qed.

Lemma word_lor v t s b c h :
  word_ranges v t s b c h →
  Z.lor (Z.lor (Z.lor (Z.lor (Z.lor (Z.shiftl v 30) (Z.shiftl t 26)) (Z.shiftl s 22))
    (Z.shiftl b 21)) (Z.shiftl c 8)) h = word_sum v t s b c h.
Proof.
  unfold word_ranges. intros. rewrite <- !Z.lor_assoc.
  rewrite (lor_shiftl_add 8) by ulia. rewrite (lor_shiftl_add 21) by ulia.
  rewrite (lor_shiftl_add 22) by ulia. rewrite (lor_shiftl_add 26) by ulia.
  rewrite (lor_shiftl_add 30) by ulia. unfold word_sum. lia.
Qed.

Lemma word_fields v t s b c h :
  word_ranges v t s b c h → let w := word_sum v t s b c h in
  Z.land (Z.shiftr w 30) 3 = v ∧ Z.land (Z.shiftr w 26) 0x0f = t ∧
  Z.land (Z.shiftr w 22) 0x0f = s ∧ Z.land (Z.shiftr w 21) 1 = b ∧
  Z.land (Z.shiftr w 8) 0xff = c ∧ Z.land w 0xff = h ∧ Z.land w 0x0f = h mod 16.
Proof.
  unfold word_ranges. cbv zeta. intros. unfold word_sum.
  rewrite !shiftr_div by lia.
  rewrite (land_ones_mod _ 2 3), !(land_ones_mod _ 4 0x0f), (land_ones_mod _ 1 1),
    !(land_ones_mod _ 8 0xff) by done.
  repeat split; zdiv.
Qed.

Lemma header_word_ranges h cfg :
  wf_header h →
  word_ranges (hdr_version h) (type_to_wire (hdr_packet_type h)) (sc_index (hdr_size_class h))
    (Z.b2z (form_bit cfg (addr_form (hdr_addresses h)))) (crc8 h cfg) (hdr_hop_limit h).
Proof.
  intros (Hv & _ & _ & Hh & _).
  pose proof (type_wire_range (hdr_packet_type h)). pose proof (sc_index_range (hdr_size_class h)).
  pose proof (crc8_range h cfg). unfold word_ranges.
  repeat split; try ulia; destruct (form_bit _ _); cbn; lia.
Qed.

Lemma header_word1_eq h cfg :
  wf_header h →
  header_word1 h cfg =
    word_sum (hdr_version h) (type_to_wire (hdr_packet_type h)) (sc_index (hdr_size_class h))
      (Z.b2z (form_bit cfg (addr_form (hdr_addresses h)))) (crc8 h cfg) (hdr_hop_limit h).
Proof.
  intros Hwf. pose proof (header_word_ranges h cfg Hwf) as Hr.
  destruct Hwf as (Hv & _ & _ & Hh & Hl).
  rewrite <- word_lor by done. unfold header_word1, word_ranges in *.
  rewrite (land_ones_mod _ 2 3), !(land_ones_mod _ 4 0x0f) by done.
  rewrite !Z.mod_small by ulia. destruct (hdr_addresses h); [done |].
  by rewrite Z.mod_small by ulia.
Qed.

(** The bytes of an encoded header. *)
Definition header_wire (h : GdpHeader) (cfg : GdpWireConfig) : list Z :=
  to_be 4 (header_word1 h cfg) ++
  match hdr_addresses h with
  | Global d s => to_be 8 d ++ to_be 8 s
  | Local d s _ => to_be 4 (Z.lor (Z.shiftl d 16) s)
  end.

Lemma len_header_wire h cfg : len (header_wire h cfg) = header_len h.
Proof. unfold header_wire, header_len. destruct (hdr_addresses h); len_goal. Qed.
#[export] Hint Rewrite len_header_wire : len.

Lemma header_len_pos h : 8 ≤ header_len h ≤ 20.
Proof. unfold header_len. destruct (hdr_addresses h); lia. Qed.

Lemma encode_header_ok h cfg out :
  wf_header h → header_len h ≤ len out →
  encode_header_into h cfg out =
    Ok (header_wire h cfg ++ drop (Z.to_nat (header_len h)) out, header_len h).
Proof.
  intros Hwf Ho. unfold encode_header_into.
  pose proof (type_wire_range (hdr_packet_type h)).
  destruct Hwf as (Hv & _ & _ & Hh & Hl).
  replace (_ || _) with false by lia.
  replace (match hdr_addresses h with Global _ _ => false | _ => _ end) with false
    by (destruct (hdr_addresses h); [done | lia]).
  cbn [fail_if]. rewrite !bind_Ok_l. pass_guard.
  unfold header_wire, header_len in *. generalize (header_word1 h cfg). intros w.
  rewrite copy_at_0, bind_Ok_l by (destruct (hdr_addresses h); len_goal).
  destruct (hdr_addresses h) as [d s | d s p].
  - rewrite copy_at_app, bind_Ok_l by len_goal.
    rewrite app_assoc, copy_at_app, bind_Ok_l by len_goal.
    rewrite !drop_drop, <- !app_assoc, !len_to_be. done.
  - rewrite copy_at_app, bind_Ok_l by len_goal.
    rewrite !drop_drop, <- !app_assoc, !len_to_be. done.
Qed.

Lemma local_ids d s : u16 d → u16 s →
  u32 (Z.lor (Z.shiftl d 16) s) ∧
  as_u16 (Z.shiftr (Z.lor (Z.shiftl d 16) s) 16) = d ∧ as_u16 (Z.lor (Z.shiftl d 16) s) = s.
Proof.
  intros Hd Hs. rewrite lor_shiftl_add, shiftr_div by ulia.
  repeat split; zdiv.
Qed.

Lemma word_sum_mod16 h : 0 ≤ h ≤ 15 → h mod 16 = h.
Proof. intros. apply Z.mod_small. lia. Qed.

#[local] Opaque crc8.

Lemma decode_header_wire h cfg lp rest :
  wf_header h → prefix_matches h lp →
  decode_header (header_wire h cfg ++ rest) cfg lp = Ok h.
Proof.
  intros Hwf Hp. pose proof (header_word_ranges h cfg Hwf) as Hr.
  pose proof (header_word1_eq h cfg Hwf) as Hw.
  pose proof (word_sum_range _ _ _ _ _ _ Hr) as Hw32.
  destruct (word_fields _ _ _ _ _ _ Hr) as (E1 & E2 & E3 & E4 & E5 & E6 & E7).
  cbv zeta in *. rewrite <- Hw in *. clear Hw Hr.
  destruct Hwf as (_ & Ht & Ha & Hh & Hl).
  unfold decode_header, header_wire. rewrite <- app_assoc.
  set (w := header_word1 h cfg) in *. clearbody w.
  pass_guard. rewrite (get_slice_eq _ 0 4), bind_Ok_l by len_goal. slices.
  rewrite try_from_be_eq, bind_Ok_l, from_be_to_be by (ulia || len_goal).
  rewrite E1, E2, E3, E4, E5, E6, E7, sc_from_index, bind_Ok_l, type_from_to_wire by done.
  replace (negb (Z.b2z _ =? 0)) with (form_bit cfg (addr_form (hdr_addresses h)))
    by (by destruct (form_bit _ _)).
  rewrite form_from_form_bit. destruct h as [v t s hop a]; cbn [hdr_addresses] in *.
  unfold prefix_matches in Hp. cbn [hdr_addresses hdr_version hdr_packet_type hdr_size_class
    hdr_hop_limit] in *.
  destruct a as [d src | d src p]; cbn [addr_form].
  - destruct Ha as [Hd Hs]. pass_guard.
    rewrite !get_slice_eq, !bind_Ok_l by len_goal. slices.
    rewrite !try_from_be_eq, !bind_Ok_l, !from_be_to_be by (ulia || len_goal).
    rewrite try_from_be_eq, bind_Ok_l, from_be_to_be by (ulia || len_goal).
    by rewrite bind_Ok_l, Z.eqb_refl.
  - destruct Ha as (Hd & Hs & _). destruct (local_ids d src Hd Hs) as (Hi & Ed & Es).
    pass_guard. rewrite get_slice_eq, bind_Ok_l by len_goal. slices.
    rewrite try_from_be_eq, bind_Ok_l, from_be_to_be by (ulia || len_goal).
    rewrite bind_Ok_l, Ed, Es, <- Hp, word_sum_mod16 by ulia.
    erewrite crc8_ext, Z.eqb_refl by done. done.
Qed.

Lemma header_encode_ok h cfg : wf_header h → header_encode h cfg = Ok (header_wire h cfg).
Proof.
  intros Hwf. unfold header_encode. pose proof (header_len_pos h).
  rewrite encode_header_ok, bind_Ok_l by (done || len_goal).
  rewrite drop_ge, app_nil_r; [done |].
  unfold zeros. rewrite length_replicate. lia.
Qed.

Lemma packet_encode_ok p cfg :
  wf_header (pkt_header p) → len (pkt_payload p) = sc_bytes (hdr_size_class (pkt_header p)) →
  packet_encode p cfg = Ok (header_wire (pkt_header p) cfg ++ pkt_payload p).
Proof.
  intros Hwf Hl. destruct p as [h pl]; cbn [pkt_header pkt_payload] in *.
  unfold packet_encode, packet_new, packet_encode_into. cbn [pkt_header pkt_payload].
  pose proof (header_len_pos h). pass_guard. rewrite bind_Ok_l.
  cbn [pkt_header pkt_payload]. lens. pass_guard.
  rewrite encode_header_ok, bind_Ok_l by (done || len_goal).
  rewrite copy_at_app, !bind_Ok_l by len_goal. f_equal.
  rewrite drop_drop, (drop_ge (zeros _)), app_nil_r
    by (unfold zeros, len; rewrite length_replicate; lia).
  apply take_ge. pose proof (len_header_wire h cfg). unfold len in *.
  rewrite length_app. lia.
Qed.

Lemma no_panic_decode_header buf cfg lp : no_panic (decode_header buf cfg lp).
Proof.
  unfold decode_header. apply no_panic_bind; [auto with nopanic |]. intros _ [Hl _]%fail_if_Ok.
  apply no_panic_bind; [apply no_panic_get_slice; lia |]. intros w _.
  apply no_panic_bind; [auto with nopanic |]. intros word _.
  destruct (sc_from_wire_total (Z.land (Z.shiftr word 22) 0x0f)) as (c & -> & _).
  rewrite bind_Ok_l. apply no_panic_bind; [| auto with nopanic].
  destruct (form_from_bit _ _);
    (apply no_panic_bind; [auto with nopanic |]; intros _ [Hl' _]%fail_if_Ok;
     repeat (apply no_panic_bind;
       [first [apply no_panic_get_slice; lia | auto with nopanic] | intros ? _]);
     done).
Qed.

Lemma from_be_u32 l : bytes l → len l = 4 → u32 (from_be l).
Proof. intros Hb Hl. pose proof (from_be_range l Hb) as H. rewrite Hl in H. exact H. Qed.
Lemma from_be_u64 l : bytes l → len l = 8 → u64 (from_be l).
Proof. intros Hb Hl. pose proof (from_be_range l Hb) as H. rewrite Hl in H. exact H. Qed.

Lemma try_from_be_Ok n l v : try_from_be n l = Ok v ↔ len l = Z.of_nat n ∧ v = from_be l.
Proof.
  unfold try_from_be. destruct (Z.eqb_spec (len l) (Z.of_nat n)); naive_solver.
Qed.

Lemma clear_low16_range p : u64 p → u64 (clear_low16 p) ∧ clear_low16 (clear_low16 p) = clear_low16 p.
Proof.
  intros Hp. assert (H : u64 (clear_low16 p)) by (rewrite clear_low16_eq by done; zdiv).
  split; [done |]. rewrite (clear_low16_eq (clear_low16 p)) by done.
  rewrite clear_low16_eq by done. zdiv.
Qed.

(** What a header accepted by the decoder satisfies. *)
Lemma decode_header_wf buf cfg lp h :
  bytes buf → u64 lp → decode_header buf cfg lp = Ok h →
  wf_header h ∧ prefix_matches h lp ∧ header_len h ≤ len buf.
Proof.
  intros Hb Hlp H. unfold decode_header in H.
  apply bind_Ok in H as (_ & _ & H). apply bind_Ok in H as (wb & Hwb & H).
  apply bind_Ok in H as (word & [Hl ->]%try_from_be_Ok & H).
  apply (get_slice_bytes _ _ _ _ Hb) in Hwb.
  apply bind_Ok in H as (c & _ & H). apply bind_Ok in H as (h' & Hh & H).
  apply bind_Ok in H as (_ & _ & H). injection H as ->.
  pose proof (from_be_u32 wb Hwb Hl) as Hw.
  assert (Hv : 0 ≤ Z.land (Z.shiftr (from_be wb) 30) 3 ≤ 3)
    by (rewrite (land_ones_mod _ 2), shiftr_div by done; zdiv).
  assert (H8 : u8 (Z.land (from_be wb) 0xff)) by (rewrite (land_ones_mod _ 8) by done; zdiv).
  assert (H4 : u8 (Z.land (from_be wb) 0x0f) ∧ Z.land (from_be wb) 0x0f ≤ 15)
    by (rewrite (land_ones_mod _ 4) by done; zdiv).
  pose proof (wf_type_from_wire (Z.land (Z.shiftr (from_be wb) 26) 0x0f)) as Ht.
  destruct (clear_low16_range lp Hlp) as [Hc1 Hc2].
  unfold wf_header, prefix_matches, header_len.
  destruct (form_from_bit _ _).
  - apply bind_Ok in Hh as (_ & [Hlen _]%fail_if_Ok & Hh).
    apply bind_Ok in Hh as (d & Hd & Hh). apply bind_Ok in Hh as (dv & [Hdl ->]%try_from_be_Ok & Hh).
    apply bind_Ok in Hh as (s & Hs & Hh). apply bind_Ok in Hh as (sv & [Hsl ->]%try_from_be_Ok & Hh).
    apply (get_slice_bytes _ _ _ _ Hb) in Hd, Hs. injection Hh as <-.
    cbn [hdr_version hdr_packet_type hdr_addresses hdr_hop_limit wf_addresses].
    pose proof (from_be_u64 d Hd Hdl). pose proof (from_be_u64 s Hs Hsl).
    split; [tauto | split; [exact I | lia]].
  - apply bind_Ok in Hh as (_ & [Hlen _]%fail_if_Ok & Hh).
    apply bind_Ok in Hh as (i & Hi & Hh). apply bind_Ok in Hh as (iv & [Hil ->]%try_from_be_Ok & Hh).
    injection Hh as <-.
    cbn [hdr_version hdr_packet_type hdr_addresses hdr_hop_limit wf_addresses].
    assert (Hu : ∀ x, u16 (as_u16 x)) by (intros; zdiv).
    pose proof (Hu (from_be i)). pose proof (Hu (Z.shiftr (from_be i) 16)). clear Hu.
    destruct H4. split; [| split; [exact eq_refl | lia]]. tauto.
Qed.

(** Decoding reports only a bad length or a bad CRC. *)
Lemma packet_decode_errs bs cfg lp :
  errs_in [InvalidLength; InvalidCrc] (packet_decode bs cfg lp).
Proof.
  assert (Ht : ∀ n l, errs_in [InvalidLength; InvalidCrc] (try_from_be n l)).
  { intros n l e. unfold try_from_be. destruct (_ =? _); [done |]. intros [= <-]. set_solver. }
  assert (Hg : ∀ (l : list Z) a b, errs_in [InvalidLength; InvalidCrc] (get_slice l a b)).
  { intros l a b e. unfold get_slice. by destruct (_ && _). }
  assert (Hf : ∀ b, errs_in [InvalidLength; InvalidCrc] (fail_if b InvalidLength))
    by (intros; apply errs_in_fail_if; set_solver).
  unfold packet_decode, decode_header.
  apply errs_in_bind.
  - apply errs_in_bind; [done |]. intros _. apply errs_in_bind; [done |]. intros w.
    apply errs_in_bind; [done |]. intros word.
    destruct (sc_from_wire_total (Z.land (Z.shiftr word 22) 0x0f)) as (c & -> & _). rewrite bind_Ok_l.
    apply errs_in_bind.
    + destruct (form_from_bit _ _); repeat (apply errs_in_bind; [done | intros ?]); apply errs_in_Ok.
    + intros h. apply errs_in_bind; [apply errs_in_fail_if; set_solver |]. intros _. apply errs_in_Ok.
  - intros h. apply errs_in_bind; [done |]. intros _. apply errs_in_bind; [done |].
    intros pl. apply errs_in_Ok.
Qed.

(** ** Properties *)

Lemma packet_roundtrip p cfg lp :
  wf_header (pkt_header p) → prefix_matches (pkt_header p) lp →
  len (pkt_payload p) = sc_bytes (hdr_size_class (pkt_header p)) →
  ∃ w, packet_encode p cfg = Ok w ∧
       len w = header_len (pkt_header p) + sc_bytes (hdr_size_class (pkt_header p)) ∧
       packet_decode w cfg lp = Ok p.
Proof.
  intros Hwf Hp Hl. eexists. split; [by apply packet_encode_ok |].
  split; [rewrite <- Hl; len_goal |]. unfold packet_decode.
  rewrite decode_header_wire, bind_Ok_l by done. pose proof (header_len_pos (pkt_header p)).
  pass_guard. rewrite get_slice_eq, bind_Ok_l by len_goal. slices. by destruct p.
Qed.

(** C10: for every well-formed header and a payload of the size its Size Class
    prescribes, encoding the packet succeeds, its length is header plus
    payload, and decoding the bytes (with the receiver's Local prefix) returns
    the same packet. *)
Theorem gdp_packet_roundtrip p cfg lp :
  wf_header (pkt_header p) → prefix_matches (pkt_header p) lp →
  len (pkt_payload p) = sc_bytes (hdr_size_class (pkt_header p)) →
  ∃ w, packet_encode p cfg = Ok w ∧
       len w = header_len (pkt_header p) + sc_bytes (hdr_size_class (pkt_header p)) ∧
       packet_decode w cfg lp = Ok p.
Proof. apply packet_roundtrip. Qed.

Definition sample_header : GdpHeader :=
  header_global Gts Tiny3 64 0x0102030400000001 0x0102030400000002.
Definition sample_packet : GdpPacket :=
  {| pkt_header := sample_header; pkt_payload := [1; 2; 3] |}.

Lemma gdp_packet_roundtrip_witness :
  ∃ w, packet_encode sample_packet GdpWireConfig_default = Ok w ∧ len w = 23 ∧
       packet_decode w GdpWireConfig_default 0 = Ok sample_packet.
Proof.
  apply (gdp_packet_roundtrip sample_packet GdpWireConfig_default 0);
    [| done | reflexivity].
  unfold wf_header, wf_type, wf_addresses; cbn. repeat split; ulia.
Defined.

Lemma packet_decode_safe buf cfg lp :
  bytes buf → u64 lp →
  match packet_decode buf cfg lp with
  | Ok p => wf_header (pkt_header p) ∧ prefix_matches (pkt_header p) lp ∧
            len (pkt_payload p) = sc_bytes (hdr_size_class (pkt_header p)) ∧
            bytes (pkt_payload p)
  | Err _ => True
  | Panic => False
  end.
Proof.
  intros Hb Hlp. unfold packet_decode.
  pose proof (no_panic_decode_header buf cfg lp) as Hn.
  destruct (decode_header buf cfg lp) as [h | |] eqn:E; [| done | done].
  destruct (decode_header_wf _ _ _ _ Hb Hlp E) as (Hwf & Hp & Hl). cbn [mbind res_bind].
  destruct (negb _) eqn:El; [done |]. cbn [fail_if]. cbn [mbind res_bind].
  pose proof (header_len_pos h). rewrite get_slice_eq by lia.
  cbn [mbind res_bind pkt_header pkt_payload].
  split; [done |]. split; [done |]. split; [len_goal | by apply bytes_slice].
Qed.

(** Decoding a GDP packet terminates without panicking on every byte
    string, and a packet it accepts has a well-formed header whose Size Class
    is the payload length. *)
Theorem gdp_decode_safe buf cfg lp :
  bytes buf → u64 lp →
  match packet_decode buf cfg lp with
  | Ok p => wf_header (pkt_header p) ∧ prefix_matches (pkt_header p) lp ∧
            len (pkt_payload p) = sc_bytes (hdr_size_class (pkt_header p)) ∧
            bytes (pkt_payload p)
  | Err _ => True
  | Panic => False
  end.
Proof. apply packet_decode_safe. Qed.

Lemma gdp_decode_safe_witness :
  match packet_decode [255; 255; 0; 1] GdpWireConfig_default 0 with
  | Ok p => wf_header (pkt_header p) ∧ prefix_matches (pkt_header p) 0 ∧
            len (pkt_payload p) = sc_bytes (hdr_size_class (pkt_header p)) ∧
            bytes (pkt_payload p)
  | Err _ => True
  | Panic => False
  end.
Proof. apply gdp_decode_safe; [repeat constructor; ulia | ulia]. Defined.

Definition set_hop (h : GdpHeader) (hop : Z) : GdpHeader :=
  {| hdr_version := hdr_version h; hdr_packet_type := hdr_packet_type h;
     hdr_size_class := hdr_size_class h; hdr_hop_limit := hop;
     hdr_addresses := hdr_addresses h |}.

Lemma to_be_4_split w : to_be 4 w = to_be 3 (w / 256) ++ [w mod 256].
Proof.
  cbn [to_be app]. rewrite !Z.div_div by lia. cbn. by rewrite Z.div_1_r.
Qed.

(** The header CRC does not cover the hop limit: overwriting octet 3 of an
    encoded Global header with any new hop limit yields bytes that decode to
    the same header with that hop limit, so a router may decrement it without
    recomputing the CRC. *)
Theorem gdp_hop_rewrite h cfg lp w hop rest :
  wf_header h → addr_form (hdr_addresses h) = FormGlobal → u8 hop →
  header_encode h cfg = Ok w →
  decode_header (splice w 3 [hop] ++ rest) cfg lp = Ok (set_hop h hop).
Proof.
  intros Hwf Hg Hh He. rewrite header_encode_ok in He by done. injection He as <-.
  assert (Hwf' : wf_header (set_hop h hop)).
  { unfold wf_header, set_hop in *; cbn. destruct (hdr_addresses h); [| done]. tauto. }
  rewrite <- (decode_header_wire (set_hop h hop) cfg lp rest Hwf');
    [| unfold prefix_matches, set_hop; cbn; by destruct (hdr_addresses h)].
  do 2 f_equal. unfold header_wire.
  rewrite (header_word1_eq h), (header_word1_eq (set_hop h hop)) by done.
  cbn [set_hop hdr_version hdr_packet_type hdr_size_class hdr_addresses hdr_hop_limit].
  rewrite (crc8_ext (set_hop h hop) h) by (done || (cbn; by destruct (hdr_addresses h))).
  destruct Hwf as (_ & _ & _ & Hh0 & _). unfold word_sum.
  set (q := hdr_version h * 2 ^ 22 + type_to_wire (hdr_packet_type h) * 2 ^ 18 +
    sc_index (hdr_size_class h) * 2 ^ 14 +
    Z.b2z (form_bit cfg (addr_form (hdr_addresses h))) * 2 ^ 13 + crc8 h cfg).
  match goal with |- splice (to_be 4 ?a ++ _) _ _ = to_be 4 ?b ++ _ =>
    replace a with (q * 256 + hdr_hop_limit h) by (subst q; lia);
    replace b with (q * 256 + hop) by (subst q; lia) end.
  rewrite !to_be_4_split, !Z.div_add_l, !Z.div_small, <- !app_assoc by ulia.
  rewrite splice_app by done.
  do 2 f_equal. f_equal. zdiv.
Qed.

Lemma gdp_hop_rewrite_witness :
  decode_header (splice (header_wire sample_header GdpWireConfig_default) 3 [63] ++ [])
    GdpWireConfig_default 0 = Ok (set_hop sample_header 63).
Proof.
  apply (gdp_hop_rewrite sample_header); [| done | ulia | reflexivity].
  unfold wf_header, wf_type, wf_addresses; cbn. repeat split; ulia.
Defined.

Lemma smallest_for_spec required :
  match smallest_for required with
  | Some c => required ≤ sc_bytes c ∧ ∀ d, required ≤ sc_bytes d → sc_index c ≤ sc_index d
  | None => 8192 < required
  end.
Proof.
  unfold smallest_for, SizeClass_ALL. cbn [find].
  repeat match goal with |- context [required <=? ?n] =>
    destruct (required <=? n) eqn:?; [split; [by apply Z.leb_le | intros []; sc_norm; lia] |]
  end.
  sc_norm. lia.
Qed.

(** [smallest_for] is exact: it returns a class that holds the required
    length and no smaller class does, and it returns nothing only when the
    length exceeds the largest class. *)
Theorem smallest_for_exact required :
  match smallest_for required with
  | Some c => required ≤ sc_bytes c ∧ ∀ d, required ≤ sc_bytes d → sc_index c ≤ sc_index d
  | None => 8192 < required
  end.
Proof. apply smallest_for_spec. Qed.
