(* ===== verification/Gctl.v ===== *)
(** * GCTL control messages (src/src/wire/gctl.rs)

    Link credit, router discovery, node announcement and address assignment
    messages: the common header, the typed bodies and their parsers. *)
From stdpp Require Import prelude.
From Stdlib Require Import ZArith Lia.
From S2P Require Import Prelude Crc GdpWire.
Local Open Scope Z_scope.

Inductive GctlType : Set :=
  | Solicit | Advertise | CreditRequest | Credit | NodeAnnounce | ReannounceSolicit
  | AddressOffer | AddressClaim | AddressAck | AddressNak
  | EchoRequest | EchoReply | DestinationUnreachable | HopLimitExceeded
  | ParameterProblem | ClassUnsupported | TransitAborted | PathProbe | PathReply
  | StatusRequest | StatusReply | GetRequest | GetReply | GetNextRequest
  | GetNextReply | EventReport | Experimental.
#[export] Instance GctlType_eq_dec : EqDecision GctlType.
Proof. solve_decision. Defined.

(** [self as u8] *)
Definition gctl_to_wire (self : GctlType) : Z :=
  match self with
  | Solicit => 0x01 | Advertise => 0x02 | CreditRequest => 0x03 | Credit => 0x04
  | NodeAnnounce => 0x05 | ReannounceSolicit => 0x06
  | AddressOffer => 0x10 | AddressClaim => 0x11 | AddressAck => 0x12 | AddressNak => 0x13
  | EchoRequest => 0x20 | EchoReply => 0x21 | DestinationUnreachable => 0x22
  | HopLimitExceeded => 0x23 | ParameterProblem => 0x24 | ClassUnsupported => 0x25
  | TransitAborted => 0x26 | PathProbe => 0x28 | PathReply => 0x29
  | StatusRequest => 0x30 | StatusReply => 0x31 | GetRequest => 0x32 | GetReply => 0x33
  | GetNextRequest => 0x34 | GetNextReply => 0x35 | EventReport => 0x36
  | Experimental => 0xff
  end.

Definition gctl_from_wire (v : Z) : res GctlType :=
  match v with
  | 0x01 => Ok Solicit | 0x02 => Ok Advertise | 0x03 => Ok CreditRequest
  | 0x04 => Ok Credit | 0x05 => Ok NodeAnnounce | 0x06 => Ok ReannounceSolicit
  | 0x10 => Ok AddressOffer | 0x11 => Ok AddressClaim | 0x12 => Ok AddressAck
  | 0x13 => Ok AddressNak | 0x20 => Ok EchoRequest | 0x21 => Ok EchoReply
  | 0x22 => Ok DestinationUnreachable | 0x23 => Ok HopLimitExceeded
  | 0x24 => Ok ParameterProblem | 0x25 => Ok ClassUnsupported
  | 0x26 => Ok TransitAborted | 0x28 => Ok PathProbe | 0x29 => Ok PathReply
  | 0x30 => Ok StatusRequest | 0x31 => Ok StatusReply | 0x32 => Ok GetRequest
  | 0x33 => Ok GetReply | 0x34 => Ok GetNextRequest | 0x35 => Ok GetNextReply
  | 0x36 => Ok EventReport | 0xff => Ok Experimental
  | _ => Err Unsupported
  end.

(** [ServiceType(u16)] *)
Definition ServiceType_ROUTER : Z := 0x0001.
Definition ServiceType_EXPERIMENTAL : Z := 0xffff.

Inductive DiscoveryScope : Set := Link.
Definition scope_to_wire (self : DiscoveryScope) : Z := match self with Link => 0 end.
Definition scope_from_wire (v : Z) : res DiscoveryScope :=
  if v =? 0 then Ok Link else Err Unsupported.

(** Typed bodies.  [CreditRequest { requested_flits }] and
    [CreditGrant { granted_flits }] are the integer itself. *)
Record SolicitBody : Set := mkSolicit { so_service_type : Z; so_scope : DiscoveryScope }.
Record AdvertiseBody : Set := mkAdvertise {
  av_service_type : Z; av_preference : Z; av_provider : Z; av_lifetime : Z; av_capabilities : Z }.
Record NodeAnnounceBody : Set := mkNodeAnnounce {
  na_node : Z; na_nonce : Z; na_capabilities : Z }.
Record AddressOfferBody : Set := mkAddressOffer {
  of_router : Z; of_prefix : Z; of_prefix_len : Z; of_candidate : Z; of_lifetime : Z }.
Record AddressClaimBody : Set := mkAddressClaim { cl_candidate : Z; cl_nonce : Z }.
Record AddressAckBody : Set := mkAddressAck { ak_candidate : Z; ak_lifetime : Z }.
Record AddressNakBody : Set := mkAddressNak {
  nk_candidate : Z; nk_reason : Z; nk_retry_delay : Z }.

Definition conflicts_with (self other : NodeAnnounceBody) : bool :=
  (na_node self =? na_node other) && negb (na_nonce self =? na_nonce other).

Definition prefix_mask (prefix_len : Z) : res Z :=
  if (prefix_len =? 16) || (prefix_len =? 32) || (prefix_len =? 48) || (prefix_len =? 56)
  then Ok (Z.shiftl 0xffffffffffffffff (64 - prefix_len) mod 2 ^ 64)
  else Err InvalidField.

Definition normalize_prefix (prefix prefix_len : Z) : res Z :=
  m ← prefix_mask prefix_len; Ok (Z.land prefix m).

Definition address_matches_prefix (address prefix prefix_len : Z) : res bool :=
  mask ← prefix_mask prefix_len;
  Ok (Z.land address mask =? Z.land prefix mask).

Record GctlMessage : Set := mkGctl {
  gm_version : Z;
  gm_type : GctlType;
  gm_code : Z;
  gm_flags : Z;
  gm_transaction_id : Z;
  gm_body : list Z }.

Definition gctl_new (message_type : GctlType) (transaction_id : Z) (body : list Z) : GctlMessage :=
  {| gm_version := 1; gm_type := message_type; gm_code := 0; gm_flags := 0;
     gm_transaction_id := transaction_id; gm_body := body |}.

Definition gctl_encoded_len (self : GctlMessage) : Z := 8 + len (gm_body self).

Definition recommended_size_class (self : GctlMessage) : res SizeClass :=
  ok_or (smallest_for (gctl_encoded_len self)) MessageTooLarge.

Definition encode_exact (self : GctlMessage) (total : Z) : res (list Z) :=
  fail_if (negb (gm_version self =? 1) || (total <? gctl_encoded_len self)) InvalidLength;;
  let o := zeros total in
  o ← copy_at o 0 [gm_version self];
  o ← copy_at o 1 [gctl_to_wire (gm_type self)];
  o ← copy_at o 2 [gm_code self];
  o ← copy_at o 3 [gm_flags self];
  o ← copy_at o 4 (to_be 4 (gm_transaction_id self));
  copy_at o 8 (gm_body self).

Definition gctl_decode (buf : list Z) : res GctlMessage :=
  fail_if (len buf <? 8) InvalidLength;;
  b0 ← get_index buf 0;
  fail_if (negb (b0 =? 1)) Unsupported;;
  b1 ← get_index buf 1;
  message_type ← gctl_from_wire b1;
  code ← get_index buf 2;
  flags ← get_index buf 3;
  t ← get_slice buf 4 8;
  transaction_id ← from_be_bytes 4 t;
  body ← get_slice buf 8 (len buf);
  Ok {| gm_version := b0; gm_type := message_type; gm_code := code; gm_flags := flags;
        gm_transaction_id := transaction_id; gm_body := body |}.

Definition typed_body (self : GctlMessage) (expected : GctlType) (n : Z) : res (list Z) :=
  fail_if (negb (bool_decide (gm_type self = expected)) || (len (gm_body self) <? n))
    InvalidLength;;
  rest ← get_slice (gm_body self) n (len (gm_body self));
  fail_if (negb (all_zero rest)) InvalidField;;
  get_slice (gm_body self) 0 n.

Definition echo_reply (self : GctlMessage) : res GctlMessage :=
  fail_if (negb (bool_decide (gm_type self = EchoRequest))) InvalidState;;
  Ok {| gm_version := gm_version self; gm_type := EchoReply; gm_code := gm_code self;
        gm_flags := gm_flags self; gm_transaction_id := gm_transaction_id self;
        gm_body := gm_body self |}.

Definition credit_request (transaction_id requested_flits : Z) : GctlMessage :=
  gctl_new CreditRequest transaction_id (to_be 4 requested_flits).
Definition parse_credit_request (self : GctlMessage) : res Z :=
  b ← typed_body self CreditRequest 4; x ← from_be_bytes 4 b; Ok x.
Definition credit (transaction_id granted_flits : Z) : GctlMessage :=
  gctl_new Credit transaction_id (to_be 4 granted_flits).
Definition parse_credit (self : GctlMessage) : res Z :=
  b ← typed_body self Credit 4; x ← from_be_bytes 4 b; Ok x.

Definition solicit (transaction_id service_type : Z) (scope : DiscoveryScope) : GctlMessage :=
  gctl_new Solicit transaction_id (to_be 2 service_type ++ [scope_to_wire scope] ++ [0]).
Definition parse_solicit (self : GctlMessage) : res SolicitBody :=
  b ← typed_body self Solicit 4;
  b3 ← get_index b 3;
  fail_if (negb (b3 =? 0)) InvalidField;;
  b0 ← get_index b 0; b1 ← get_index b 1; st ← from_be_bytes 2 [b0; b1];
  b2 ← get_index b 2; scope ← scope_from_wire b2;
  Ok {| so_service_type := st; so_scope := scope |}.

Definition advertise (transaction_id : Z) (a : AdvertiseBody) : GctlMessage :=
  gctl_new Advertise transaction_id
    (to_be 2 (av_service_type a) ++ [av_preference a] ++ [0] ++ to_be 8 (av_provider a) ++
     to_be 4 (av_lifetime a) ++ to_be 4 (av_capabilities a)).
Definition parse_advertise (self : GctlMessage) : res AdvertiseBody :=
  b ← typed_body self Advertise 20;
  b3 ← get_index b 3;
  fail_if (negb (b3 =? 0)) InvalidField;;
  b0 ← get_index b 0; b1 ← get_index b 1; st ← from_be_bytes 2 [b0; b1];
  b2 ← get_index b 2;
  p ← get_slice b 4 12; provider ← from_be_bytes 8 p;
  l ← get_slice b 12 16; lifetime ← from_be_bytes 4 l;
  c ← get_slice b 16 20; capabilities ← from_be_bytes 4 c;
  Ok {| av_service_type := st; av_preference := b2; av_provider := provider;
        av_lifetime := lifetime; av_capabilities := capabilities |}.

Definition node_announce (transaction_id : Z) (a : NodeAnnounceBody) : GctlMessage :=
  gctl_new NodeAnnounce transaction_id
    (to_be 8 (na_node a) ++ to_be 8 (na_nonce a) ++ to_be 4 (na_capabilities a)).
Definition parse_node_announce (self : GctlMessage) : res NodeAnnounceBody :=
  b ← typed_body self NodeAnnounce 20;
  n ← get_slice b 0 8; node ← from_be_bytes 8 n;
  n ← get_slice b 8 16; nonce ← from_be_bytes 8 n;
  c ← get_slice b 16 20; capabilities ← from_be_bytes 4 c;
  Ok {| na_node := node; na_nonce := nonce; na_capabilities := capabilities |}.

Definition reannounce_solicit (transaction_id : Z) (scope : DiscoveryScope) : GctlMessage :=
  gctl_new ReannounceSolicit transaction_id [scope_to_wire scope; 0; 0; 0].
Definition parse_reannounce_solicit (self : GctlMessage) : res DiscoveryScope :=
  b ← typed_body self ReannounceSolicit 4;
  r ← get_slice b 1 4;
  fail_if (negb (all_zero r)) InvalidField;;
  b0 ← get_index b 0; scope_from_wire b0.

Definition address_offer (transaction_id : Z) (offer : AddressOfferBody) : res GctlMessage :=
  normalized ← normalize_prefix (of_prefix offer) (of_prefix_len offer);
  fail_if (negb (normalized =? of_prefix offer)) InvalidField;;
  m ← address_matches_prefix (of_candidate offer) (of_prefix offer) (of_prefix_len offer);
  fail_if (negb m) InvalidField;;
  Ok (gctl_new AddressOffer transaction_id
    (to_be 8 (of_router offer) ++ to_be 8 (of_prefix offer) ++ [of_prefix_len offer] ++
     [0; 0; 0] ++ to_be 8 (of_candidate offer) ++ to_be 4 (of_lifetime offer))).
Definition parse_address_offer (self : GctlMessage) : res AddressOfferBody :=
  b ← typed_body self AddressOffer 32;
  r ← get_slice b 17 20;
  fail_if (negb (all_zero r)) InvalidField;;
  r ← get_slice b 0 8; router ← from_be_bytes 8 r;
  p ← get_slice b 8 16; prefix ← from_be_bytes 8 p;
  prefix_len ← get_index b 16;
  c ← get_slice b 20 28; candidate ← from_be_bytes 8 c;
  l ← get_slice b 28 32; lifetime ← from_be_bytes 4 l;
  normalized ← normalize_prefix prefix prefix_len;
  fail_if (negb (normalized =? prefix)) InvalidField;;
  m ← address_matches_prefix candidate prefix prefix_len;
  fail_if (negb m) InvalidField;;
  Ok {| of_router := router; of_prefix := prefix; of_prefix_len := prefix_len;
        of_candidate := candidate; of_lifetime := lifetime |}.

Definition address_claim (transaction_id : Z) (c : AddressClaimBody) : GctlMessage :=
  gctl_new AddressClaim transaction_id (to_be 8 (cl_candidate c) ++ to_be 8 (cl_nonce c)).
Definition parse_address_claim (self : GctlMessage) : res AddressClaimBody :=
  b ← typed_body self AddressClaim 16;
  c ← get_slice b 0 8; candidate ← from_be_bytes 8 c;
  n ← get_slice b 8 16; nonce ← from_be_bytes 8 n;
  Ok {| cl_candidate := candidate; cl_nonce := nonce |}.

Definition address_ack (transaction_id : Z) (a : AddressAckBody) : GctlMessage :=
  gctl_new AddressAck transaction_id (to_be 8 (ak_candidate a) ++ to_be 4 (ak_lifetime a)).
Definition parse_address_ack (self : GctlMessage) : res AddressAckBody :=
  b ← typed_body self AddressAck 12;
  c ← get_slice b 0 8; candidate ← from_be_bytes 8 c;
  l ← get_slice b 8 12; lifetime ← from_be_bytes 4 l;
  Ok {| ak_candidate := candidate; ak_lifetime := lifetime |}.

Definition address_nak (transaction_id : Z) (n : AddressNakBody) : GctlMessage :=
  let msg := gctl_new AddressNak transaction_id
    (to_be 8 (nk_candidate n) ++ to_be 4 (nk_retry_delay n)) in
  {| gm_version := gm_version msg; gm_type := gm_type msg; gm_code := nk_reason n;
     gm_flags := gm_flags msg; gm_transaction_id := gm_transaction_id msg;
     gm_body := gm_body msg |}.
Definition parse_address_nak (self : GctlMessage) : res AddressNakBody :=
  b ← typed_body self AddressNak 12;
  c ← get_slice b 0 8; candidate ← from_be_bytes 8 c;
  d ← get_slice b 8 12; retry_delay ← from_be_bytes 4 d;
  Ok {| nk_candidate := candidate; nk_reason := gm_code self; nk_retry_delay := retry_delay |}.

(** ** Lemmas *)

Lemma gctl_from_to_wire t : gctl_from_wire (gctl_to_wire t) = Ok t.
Proof. by destruct t. Qed.
Lemma gctl_to_wire_range t : u8 (gctl_to_wire t).
Proof. by destruct t. Qed.

Definition wf_gctl (m : GctlMessage) : Prop :=
  gm_version m = 1 ∧ u8 (gm_code m) ∧ u8 (gm_flags m) ∧ u32 (gm_transaction_id m) ∧
  bytes (gm_body m).

(** The bytes of an encoded message: header, body and zero padding. *)
Definition gctl_wire (m : GctlMessage) (total : Z) : list Z :=
  [gm_version m; gctl_to_wire (gm_type m); gm_code m; gm_flags m] ++
  to_be 4 (gm_transaction_id m) ++ gm_body m ++ zeros (total - gctl_encoded_len m).

Lemma encode_exact_ok m total :
  gm_version m = 1 → gctl_encoded_len m ≤ total →
  encode_exact m total = Ok (gctl_wire m total) ∧ len (gctl_wire m total) = total.
Proof.
  unfold encode_exact, gctl_wire, gctl_encoded_len. intros Hv Hl. lens. split; [| len_goal].
  rewrite Hv. replace (_ || _) with false by lia. cbn [fail_if]. rewrite bind_Ok_l. cbv zeta.
  rewrite copy_at_0, bind_Ok_l by len_goal.
  do 3 (rewrite copy_at_app, bind_Ok_l by len_goal; rewrite app_assoc).
  rewrite copy_at_app, bind_Ok_l by len_goal. rewrite app_assoc.
  rewrite copy_at_app by len_goal.
  rewrite !drop_zeros by len_goal. rewrite <- !app_assoc. cbn [app]. do 8 f_equal.
  len_goal.
Qed.

(** The message a receiver sees: the body carries the padding. *)
Definition pad_body (m : GctlMessage) (k : Z) : GctlMessage :=
  {| gm_version := gm_version m; gm_type := gm_type m; gm_code := gm_code m;
     gm_flags := gm_flags m; gm_transaction_id := gm_transaction_id m;
     gm_body := gm_body m ++ zeros k |}.

Lemma gctl_decode_wire m total :
  wf_gctl m → gctl_encoded_len m ≤ total →
  gctl_decode (gctl_wire m total) = Ok (pad_body m (total - gctl_encoded_len m)).
Proof.
  intros (Hv & Hc & Hf & Ht & Hb) Hl. unfold gctl_decode, gctl_wire, pad_body.
  rewrite Hv. set (k := total - _). assert (0 ≤ k) by (subst k; lia).
  repeat read_step. rewrite gctl_from_to_wire. repeat read_step. done.
Qed.

Lemma typed_body_pad m k ty n :
  gm_type m = ty → len (gm_body m) = n → 0 ≤ k →
  typed_body (pad_body m k) ty n = Ok (gm_body m).
Proof.
  intros <- <- Hk. unfold typed_body, pad_body. cbn [gm_type gm_body].
  rewrite bool_decide_eq_true_2 by done. cbn [negb orb]. repeat read_step.
  rewrite all_zero_zeros. cbn [negb fail_if]. rewrite bind_Ok_l.
  rewrite get_slice_eq by len_goal. by slices.
Qed.

(** ** The messages as a specification

    [Control] lists the typed control messages; [build] and [parse] dispatch
    to the constructors and parsers of the code. *)
Inductive Control : Set :=
  | CCreditRequest (requested_flits : Z)
  | CCredit (granted_flits : Z)
  | CSolicit (b : SolicitBody)
  | CAdvertise (b : AdvertiseBody)
  | CNodeAnnounce (b : NodeAnnounceBody)
  | CReannounceSolicit (s : DiscoveryScope)
  | CAddressOffer (b : AddressOfferBody)
  | CAddressClaim (b : AddressClaimBody)
  | CAddressAck (b : AddressAckBody)
  | CAddressNak (b : AddressNakBody).

Definition build (tid : Z) (c : Control) : res GctlMessage :=
  match c with
  | CCreditRequest n => Ok (credit_request tid n)
  | CCredit n => Ok (credit tid n)
  | CSolicit b => Ok (solicit tid (so_service_type b) (so_scope b))
  | CAdvertise b => Ok (advertise tid b)
  | CNodeAnnounce b => Ok (node_announce tid b)
  | CReannounceSolicit s => Ok (reannounce_solicit tid s)
  | CAddressOffer b => address_offer tid b
  | CAddressClaim b => Ok (address_claim tid b)
  | CAddressAck b => Ok (address_ack tid b)
  | CAddressNak b => Ok (address_nak tid b)
  end.

Definition parse (m : GctlMessage) : res Control :=
  match gm_type m with
  | CreditRequest => CCreditRequest <$> parse_credit_request m
  | Credit => CCredit <$> parse_credit m
  | Solicit => CSolicit <$> parse_solicit m
  | Advertise => CAdvertise <$> parse_advertise m
  | NodeAnnounce => CNodeAnnounce <$> parse_node_announce m
  | ReannounceSolicit => CReannounceSolicit <$> parse_reannounce_solicit m
  | AddressOffer => CAddressOffer <$> parse_address_offer m
  | AddressClaim => CAddressClaim <$> parse_address_claim m
  | AddressAck => CAddressAck <$> parse_address_ack m
  | AddressNak => CAddressNak <$> parse_address_nak m
  | _ => Err Unsupported
  end.

(** Field ranges of the Rust types. *)
Definition wf_control (c : Control) : Prop :=
  match c with
  | CCreditRequest n | CCredit n => u32 n
  | CSolicit b => u16 (so_service_type b)
  | CAdvertise b => u16 (av_service_type b) ∧ u8 (av_preference b) ∧ u64 (av_provider b) ∧
                    u32 (av_lifetime b) ∧ u32 (av_capabilities b)
  | CNodeAnnounce b => u64 (na_node b) ∧ u64 (na_nonce b) ∧ u32 (na_capabilities b)
  | CReannounceSolicit _ => True
  | CAddressOffer b => u64 (of_router b) ∧ u64 (of_prefix b) ∧ u8 (of_prefix_len b) ∧
                       u64 (of_candidate b) ∧ u32 (of_lifetime b)
  | CAddressClaim b => u64 (cl_candidate b) ∧ u64 (cl_nonce b)
  | CAddressAck b => u64 (ak_candidate b) ∧ u32 (ak_lifetime b)
  | CAddressNak b => u64 (nk_candidate b) ∧ u8 (nk_reason b) ∧ u32 (nk_retry_delay b)
  end.

(** The two checks of an address offer. *)
Definition offer_ok (b : AddressOfferBody) : Prop :=
  normalize_prefix (of_prefix b) (of_prefix_len b) = Ok (of_prefix b) ∧
  address_matches_prefix (of_candidate b) (of_prefix b) (of_prefix_len b) = Ok true.

Lemma address_offer_Ok tid b m :
  address_offer tid b = Ok m ↔
  offer_ok b ∧ m = gctl_new AddressOffer tid
    (to_be 8 (of_router b) ++ to_be 8 (of_prefix b) ++ [of_prefix_len b] ++ [0; 0; 0] ++
     to_be 8 (of_candidate b) ++ to_be 4 (of_lifetime b)).
Proof.
  unfold address_offer, offer_ok. set (m' := gctl_new _ _ _). clearbody m'. split.
  - intros H. apply bind_Ok in H as (n & Hn & H).
    apply bind_Ok in H as (_ & [E _]%fail_if_Ok & H).
    apply bind_Ok in H as (x & Hx & H). apply bind_Ok in H as (_ & [Ex _]%fail_if_Ok & H).
    apply negb_false_iff in E, Ex. apply Z.eqb_eq in E. subst. split; [done | congruence].
  - intros [[-> ->] ->]. cbn. by rewrite Z.eqb_refl.
Qed.

Lemma build_wf tid c m :
  wf_control c → u32 tid → build tid c = Ok m → wf_gctl m ∧ gm_transaction_id m = tid.
Proof.
  intros Hc Ht H. unfold wf_gctl.
  assert (Hb : bytes (gm_body m) ∧ gm_version m = 1 ∧ u8 (gm_code m) ∧ gm_flags m = 0 ∧
               gm_transaction_id m = tid); [| destruct Hb as (? & ? & ? & -> & ->); repeat split; done || ulia].
  destruct c as [n | n | [st []] | b | b | [] | b | b | b | b]; cbn [build wf_control] in *;
    [.. | apply address_offer_Ok in H as [_ ->] | | |]; try injection H as <-;
    (split; [| repeat split; done || (cbn; ulia)]); cbn [gm_body gctl_new credit_request credit
      solicit advertise node_announce reannounce_solicit address_claim address_ack address_nak];
    rewrite ?bytes_app, ?bytes_cons; repeat split; try apply bytes_to_be; try apply bytes_nil;
    try (cbn; ulia).
Qed.

Ltac parse_body :=
  lazymatch goal with |- fmap ?f ?m = Ok (?f ?v) => enough (m = Ok v) as -> by done end;
  lazymatch goal with |- ?p _ = _ => unfold p end;
  rewrite typed_body_pad by (done || (cbn [credit_request credit solicit advertise node_announce
      reannounce_solicit address_claim address_ack address_nak gctl_new gm_body]; len_goal));
  cbn [credit_request credit solicit advertise node_announce reannounce_solicit
       address_claim address_ack address_nak gctl_new gm_body];
  repeat read_step.

Lemma parse_pad tid c m k :
  wf_control c → build tid c = Ok m → 0 ≤ k → parse (pad_body m k) = Ok c.
Proof.
  intros Hc H Hk.
  destruct c as [n | n | [st []] | [] | [] | [] | [] | [] | [] | []];
    cbn [build wf_control so_service_type so_scope] in *;
    [.. | apply address_offer_Ok in H as [Ho ->] | | |]; try injection H as <-;
    unfold parse; cbn [pad_body gm_type credit_request credit solicit advertise node_announce
       reannounce_solicit address_claim address_ack address_nak gctl_new].
  all: try (parse_body; done).
  - parse_body. cbn [scope_from_wire scope_to_wire Z.eqb]. rewrite bind_Ok_l.
    match goal with |- context [from_be ?l] => change (from_be l) with (from_be (to_be 2 st)) end.
    by rewrite from_be_to_be by ulia.
  - destruct Hc as (Hst & ? & ? & ? & ?). parse_body. cbn [av_service_type] in *.
    match goal with |- context [from_be ?l] =>
      change (from_be l) with (from_be (to_be 2 av_service_type0)) end.
    by rewrite from_be_to_be by ulia.
  - destruct Ho as [Hn Hm]. destruct Hc as (? & ? & ? & ? & ?).
    cbn [of_router of_prefix of_prefix_len of_candidate of_lifetime] in *.
    parse_body. cbn [of_router of_prefix of_prefix_len of_candidate of_lifetime].
    change (all_zero [0; 0; 0]) with true. cbn [negb]. repeat read_step.
    rewrite Hn. repeat read_step. rewrite Hm. by repeat read_step.
Qed.

(** ** Properties *)

(** Every typed control message survives the trip: if the constructor
    builds it, encoding it into any frame that holds it succeeds, and decoding
    the frame and parsing the (zero-padded) body returns the same body and
    transaction id. *)
Theorem gctl_roundtrip tid c m total :
  wf_control c → u32 tid → build tid c = Ok m → gctl_encoded_len m ≤ total →
  ∃ w m', encode_exact m total = Ok w ∧ len w = total ∧
          gctl_decode w = Ok m' ∧ gm_transaction_id m' = tid ∧ parse m' = Ok c.
Proof.
  intros Hc Ht Hb Hl. destruct (build_wf _ _ _ Hc Ht Hb) as [Hwf Htid].
  destruct (encode_exact_ok m total) as [He Hlen]; [apply Hwf | done |].
  exists (gctl_wire m total), (pad_body m (total - gctl_encoded_len m)).
  split; [done |]. split; [done |]. split; [by apply gctl_decode_wire |].
  split; [done |]. apply (parse_pad tid); [done.. | lia].
Qed.

Lemma gctl_roundtrip_witness :
  let m := advertise 7 (mkAdvertise 1 10 0x1234 3600 0) in
  ∃ w m', encode_exact m 32 = Ok w ∧ len w = 32 ∧
          gctl_decode w = Ok m' ∧ gm_transaction_id m' = 7 ∧
          parse m' = Ok (CAdvertise (mkAdvertise 1 10 0x1234 3600 0)).
Proof.
  apply (gctl_roundtrip 7 (CAdvertise (mkAdvertise 1 10 0x1234 3600 0)) _ 32);
    [cbn; ulia | ulia | reflexivity | by vm_compute].
Defined.

Lemma no_panic_gctl_from_wire v : no_panic (gctl_from_wire v).
Proof. unfold gctl_from_wire. by repeat case_match. Qed.

Lemma no_panic_prefix_mask n : no_panic (prefix_mask n).
Proof. unfold prefix_mask. by case_match. Qed.

Lemma typed_body_safe m ty n :
  0 ≤ n → no_panic (typed_body m ty n) ∧ ∀ b, typed_body m ty n = Ok b → len b = n.
Proof.
  intros Hn. unfold typed_body. destruct (negb (bool_decide (gm_type m = ty)) || (len (gm_body m) <? n)) eqn:E; [split; [done | intros; inv_res] |].
  cbn [fail_if]. rewrite bind_Ok_l. rewrite !get_slice_eq, bind_Ok_l by lia.
  destruct (all_zero _); cbn [negb fail_if]; [rewrite bind_Ok_l | split; [done | intros; inv_res]].
  split; [done |]. intros b H. injection H as <-. len_goal.
Qed.

Ltac safe_step :=
  apply no_panic_bind;
  [ first [ apply no_panic_fail_if | apply no_panic_prefix_mask
          | apply no_panic_get_index; lia
          | apply no_panic_get_slice; lia
          | apply no_panic_from_be_bytes; cbn; lia
          | apply no_panic_from_be_bytes; len_goal
          | unfold normalize_prefix, address_matches_prefix; repeat safe_step; done
          | unfold scope_from_wire; by case_match ]
  | let x := fresh in let H := fresh in intros x H;
    try (apply get_slice_Ok in H as (_ & _ & _ & ->)) ].

Lemma no_panic_gctl_decode buf : no_panic (gctl_decode buf).
Proof.
  unfold gctl_decode. apply no_panic_bind; [auto with nopanic |].
  intros _ [Hl _]%fail_if_Ok. do 3 safe_step.
  apply no_panic_bind; [apply no_panic_gctl_from_wire |]. intros ty _.
  repeat safe_step. done.
Qed.

Lemma no_panic_parse m : no_panic (parse m).
Proof.
  unfold parse. destruct (gm_type m); try done; apply no_panic_fmap;
    lazymatch goal with |- no_panic (?p _) => unfold p end;
    lazymatch goal with |- context [typed_body ?x ?ty ?n] =>
      destruct (typed_body_safe x ty n) as [Hn Hlen]; [lia |];
      apply no_panic_bind; [exact Hn |]; intros b Hb%Hlen; clear Hn Hlen end;
    repeat safe_step; try done; unfold scope_from_wire; by case_match.
Qed.

(** The message an offer parses to is one its constructor accepts: the prefix
    is normalised and the candidate lies inside it. *)
Lemma parse_address_offer_ok m b : parse_address_offer m = Ok b → offer_ok b.
Proof.
  unfold parse_address_offer. intros H.
  repeat match type of H with mbind _ _ = Ok _ =>
    let x := fresh "x" in let E := fresh "E" in apply bind_Ok in H as (x & E & H) end.
  injection H as <-. unfold offer_ok. cbn.
  repeat match goal with
  | E : fail_if (negb _) _ = Ok _ |- _ =>
      apply fail_if_Ok in E as [E _]; apply negb_false_iff in E
  | E : (_ =? _) = true |- _ => apply Z.eqb_eq in E; subst
  end. subst. done.
Qed.

(** Control traffic cannot crash the node: decoding any byte string and
    parsing the typed body of any message both return, with a value or an
    error; and an address offer is accepted only when its prefix is normalised
    and its candidate address lies in the prefix. *)
Theorem gctl_receive_safe buf :
  no_panic (m ← gctl_decode buf; parse m) ∧
  ∀ m b, gctl_decode buf = Ok m → parse m = Ok (CAddressOffer b) →
    normalize_prefix (of_prefix b) (of_prefix_len b) = Ok (of_prefix b) ∧
    address_matches_prefix (of_candidate b) (of_prefix b) (of_prefix_len b) = Ok true.
Proof.
  split.
  - apply no_panic_bind; [apply no_panic_gctl_decode | intros m _; apply no_panic_parse].
  - intros m b _ H. apply (parse_address_offer_ok m). unfold parse in H.
    destruct (gm_type m); try done;
      lazymatch type of H with fmap _ ?p = _ => destruct p; cbn in H; simplify_eq; done end.
Qed.

Lemma gctl_receive_safe_witness :
  normalize_prefix 0x123456789abc0000 48 = Ok 0x123456789abc0000 ∧
  address_matches_prefix 0x123456789abc0011 0x123456789abc0000 48 = Ok true.
Proof.
  set (b := mkAddressOffer 1 0x123456789abc0000 48 0x123456789abc0011 3600).
  destruct (address_offer 5 b) as [m | |] eqn:E; [| discriminate E | discriminate E].
  destruct (gctl_receive_safe (gctl_wire m 40)) as [_ H].
  injection E as <-. exact (H _ b eq_refl eq_refl).
Defined.
