(* ===== verification/GtsWire.v ===== *)
(** * GTS wire vocabulary and lower codec (src/src/wire/gts.rs, gts_handwritten.rs)

    Packet types, stream profiles, the profile-independent lower packet, the
    interface of a lower codec and the handwritten implementation of it. *)
From stdpp Require Import prelude list_numbers.
From Stdlib Require Import ZArith Lia.
From S2P Require Import Prelude Crc Css GdpWire.
Local Open Scope Z_scope.

(** ** Packet types and profiles (gts.rs) *)

Inductive GtsType : Set :=
  | TReserved | TConnect | TConnectAck | TStreamOpen | TStreamAck | TData | TAck
  | TDataEnd | TStreamClose | TStreamCloseAck | TTunnelClose | TTunnelCloseAck
  | TReset | TDatagram | TStreamReset | TStreamResetAck.
#[export] Instance GtsType_eq_dec : EqDecision GtsType.
Proof. solve_decision. Defined.

(** [self as u8] *)
Definition gts_type_to_wire (self : GtsType) : Z :=
  match self with
  | TReserved => 0 | TConnect => 1 | TConnectAck => 2 | TStreamOpen => 3
  | TStreamAck => 4 | TData => 5 | TAck => 6 | TDataEnd => 7 | TStreamClose => 8
  | TStreamCloseAck => 9 | TTunnelClose => 10 | TTunnelCloseAck => 11 | TReset => 12
  | TDatagram => 13 | TStreamReset => 14 | TStreamResetAck => 15
  end.

Definition gts_type_from_wire (v : Z) : res GtsType :=
  match Z.land v 0xf with
  | 0 => Ok TReserved | 1 => Ok TConnect | 2 => Ok TConnectAck | 3 => Ok TStreamOpen
  | 4 => Ok TStreamAck | 5 => Ok TData | 6 => Ok TAck | 7 => Ok TDataEnd
  | 8 => Ok TStreamClose | 9 => Ok TStreamCloseAck | 10 => Ok TTunnelClose
  | 11 => Ok TTunnelCloseAck | 12 => Ok TReset | 13 => Ok TDatagram
  | 14 => Ok TStreamReset | 15 => Ok TStreamResetAck
  | _ => Panic
  end.

Inductive Direction : Set := OpenerToPeer | PeerToOpener | Bidirectional.
#[export] Instance Direction_eq_dec : EqDecision Direction.
Proof. solve_decision. Defined.

Definition dir_bits (self : Direction) : Z :=
  match self with OpenerToPeer => 1 | PeerToOpener => 2 | Bidirectional => 3 end.

Definition dir_from_bits (v : Z) : res Direction :=
  match v with
  | 1 => Ok OpenerToPeer | 2 => Ok PeerToOpener | 3 => Ok Bidirectional
  | _ => Err ProfileViolation
  end.

Definition opener_may_send (self : Direction) : bool :=
  match self with OpenerToPeer | Bidirectional => true | _ => false end.
Definition peer_may_send (self : Direction) : bool :=
  match self with PeerToOpener | Bidirectional => true | _ => false end.

Record StreamProfile : Set := mkProfile {
  sp_unreliable : bool;
  sp_variable : bool;
  sp_sequenced : bool;
  sp_unchecked_payload : bool;
  sp_direction : Direction;
  sp_size_class : SizeClass }.
#[export] Instance StreamProfile_eq_dec : EqDecision StreamProfile.
Proof. solve_decision. Defined.

Definition reliable_fixed (size_class : SizeClass) (direction : Direction) : StreamProfile :=
  {| sp_unreliable := false; sp_variable := false; sp_sequenced := false;
     sp_unchecked_payload := false; sp_direction := direction; sp_size_class := size_class |}.
Definition reliable_variable (max_class : SizeClass) (direction : Direction) : StreamProfile :=
  {| sp_unreliable := false; sp_variable := true; sp_sequenced := false;
     sp_unchecked_payload := false; sp_direction := direction; sp_size_class := max_class |}.
Definition unreliable_fixed size_class direction (sequenced unchecked_payload : bool)
    : StreamProfile :=
  {| sp_unreliable := true; sp_variable := false; sp_sequenced := sequenced;
     sp_unchecked_payload := unchecked_payload; sp_direction := direction;
     sp_size_class := size_class |}.
Definition unreliable_variable max_class direction (sequenced unchecked_payload : bool)
    : StreamProfile :=
  {| sp_unreliable := true; sp_variable := true; sp_sequenced := sequenced;
     sp_unchecked_payload := unchecked_payload; sp_direction := direction;
     sp_size_class := max_class |}.

Definition sp_validate (self : StreamProfile) : res StreamProfile :=
  fail_if (negb (sp_unreliable self) && (sp_sequenced self || sp_unchecked_payload self))
    ProfileViolation;;
  Ok self.

Definition sp_to_wire (self : StreamProfile) : res Z :=
  sp_validate self;;
  Ok (Z.lor (Z.lor (Z.lor (Z.lor (Z.lor
    (Z.shiftl (Z.b2z (sp_unreliable self)) 15)
    (Z.shiftl (Z.b2z (sp_variable self)) 14))
    (Z.shiftl (Z.b2z (sp_sequenced self)) 13))
    (Z.shiftl (Z.b2z (sp_unchecked_payload self)) 12))
    (Z.shiftl (dir_bits (sp_direction self)) 10))
    (sc_index (sp_size_class self))).

Definition sp_from_wire (v : Z) : res StreamProfile :=
  fail_if (negb (Z.land v 0x03f0 =? 0)) ProfileViolation;;
  direction ← dir_from_bits (Z.land (Z.shiftr v 10) 3);
  size_class ← sc_from_wire (as_u8 (Z.land v 0xf));
  sp_validate
    {| sp_unreliable := negb (Z.land v 0x8000 =? 0);
       sp_variable := negb (Z.land v 0x4000 =? 0);
       sp_sequenced := negb (Z.land v 0x2000 =? 0);
       sp_unchecked_payload := negb (Z.land v 0x1000 =? 0);
       sp_direction := direction; sp_size_class := size_class |}.

Record GtsContext : Set := mkContext {
  ctx_gdp_version : Z;
  ctx_size_class : SizeClass;
  ctx_source : Z;
  ctx_destination : Z }.

Inductive GtsLowerPacket : Set :=
  | LConnect (initiator_receive_tunnel initiator_reset_id profile initial_receive_credit : Z)
  | LConnectAck (initiator_receive_tunnel responder_receive_tunnel responder_reset_id status
                 initial_receive_credit reserved : Z)
  | LStreamOpen (tunnel_id stream_id profile initial_receive_credit reserved : Z)
  | LStreamAck (tunnel_id stream_id status initial_receive_credit reserved : Z)
  | LData (tunnel_id stream_id sequence : Z) (end_ : bool) (option_probe : Z)
  | LAck (tunnel_id stream_id ack_base receive_bitmap receive_credit reserved : Z)
  | LDatagram (tunnel_id stream_id : Z) (option_probe : list Z)
  | LStreamClose (tunnel_id stream_id final_sequence : Z) (ack : bool)
  | LTunnelClose (tunnel_id : Z) (ack : bool)
  | LReset (tunnel_id reset_id reason : Z)
  | LStreamReset (tunnel_id stream_id reason reserved : Z) (ack : bool).

Definition lower_packet_type (self : GtsLowerPacket) : GtsType :=
  match self with
  | LConnect _ _ _ _ => TConnect
  | LConnectAck _ _ _ _ _ _ => TConnectAck
  | LStreamOpen _ _ _ _ _ => TStreamOpen
  | LStreamAck _ _ _ _ _ => TStreamAck
  | LData _ _ _ false _ => TData
  | LData _ _ _ true _ => TDataEnd
  | LAck _ _ _ _ _ _ => TAck
  | LDatagram _ _ _ => TDatagram
  | LStreamClose _ _ _ false => TStreamClose
  | LStreamClose _ _ _ true => TStreamCloseAck
  | LTunnelClose _ false => TTunnelClose
  | LTunnelClose _ true => TTunnelCloseAck
  | LReset _ _ _ => TReset
  | LStreamReset _ _ _ _ false => TStreamReset
  | LStreamReset _ _ _ _ true => TStreamResetAck
  end.

Definition lower_prefix_len (ty : GtsType) : res Z :=
  match ty with
  | TConnect => Ok 12
  | TConnectAck => Ok 16
  | TStreamOpen => Ok 10
  | TStreamAck => Ok 9
  | TData | TDataEnd => Ok 12
  | TAck => Ok 16
  | TDatagram => Ok 12
  | TStreamClose | TStreamCloseAck => Ok 10
  | TTunnelClose | TTunnelCloseAck => Ok 5
  | TReset => Ok 10
  | TStreamReset | TStreamResetAck => Ok 8
  | TReserved => Err Unsupported
  end.

(** The traits [GtsLowerDecoder] and [GtsLowerEncoder] of a wire backend. *)
Class GtsLowerDecoder : Type := parse_lower : list Z → res GtsLowerPacket.
Class GtsLowerEncoder : Type := encode_lower : GtsLowerPacket → res (list Z).

(** ** The handwritten backend (gts_handwritten.rs) *)

(** Cursor reads: the value and the advanced position. *)
Definition read_u32 (buf : list Z) (pos limit : Z) : res (Z * Z) :=
  fail_if (limit <? pos + 4) InvalidLength;;
  s ← get_slice buf pos (pos + 4);
  v ← try_from_be 4 s;
  Ok (v, pos + 4).
Definition read_u16 (buf : list Z) (pos limit : Z) : res (Z * Z) :=
  fail_if (limit <? pos + 2) InvalidLength;;
  s ← get_slice buf pos (pos + 2);
  v ← try_from_be 2 s;
  Ok (v, pos + 2).
Definition read_u8 (buf : list Z) (pos limit : Z) : res (Z * Z) :=
  fail_if (limit <=? pos) InvalidLength;;
  v ← get_index buf pos;
  Ok (v, pos + 1).

(** [for octet in &mut option_probe { *octet = read_u8(..)?; }] *)
Fixpoint read_octets (n : nat) (buf : list Z) (pos limit : Z) : res (list Z * Z) :=
  match n with
  | O => Ok ([], pos)
  | S n =>
      '(b, pos) ← read_u8 buf pos limit;
      '(bs, pos) ← read_octets n buf pos limit;
      Ok (b :: bs, pos)
  end.

Definition handwritten_parse_lower (buf : list Z) : res GtsLowerPacket :=
  fail_if (len buf <? 5) InvalidLength;;
  b0 ← get_index buf 0;
  fail_if (negb (Z.shiftr b0 4 =? 0)) Unsupported;;
  ty ← gts_type_from_wire (Z.land b0 0x0f);
  limit ← lower_prefix_len ty;
  fail_if (len buf <? limit + 4) InvalidLength;;
  let pos := 1 in
  match ty with
  | TConnect =>
      '(a, pos) ← read_u32 buf pos limit;
      '(b, pos) ← read_u32 buf pos limit;
      '(c, pos) ← read_u16 buf pos limit;
      '(d, pos) ← read_u8 buf pos limit;
      Ok (LConnect a b c d)
  | TConnectAck =>
      '(a, pos) ← read_u32 buf pos limit;
      '(b, pos) ← read_u32 buf pos limit;
      '(c, pos) ← read_u32 buf pos limit;
      '(d, pos) ← read_u8 buf pos limit;
      '(e, pos) ← read_u8 buf pos limit;
      '(f, pos) ← read_u8 buf pos limit;
      Ok (LConnectAck a b c d e f)
  | TStreamOpen =>
      '(a, pos) ← read_u32 buf pos limit;
      '(b, pos) ← read_u8 buf pos limit;
      '(c, pos) ← read_u16 buf pos limit;
      '(d, pos) ← read_u8 buf pos limit;
      '(e, pos) ← read_u8 buf pos limit;
      Ok (LStreamOpen a b c d e)
  | TStreamAck =>
      '(a, pos) ← read_u32 buf pos limit;
      '(b, pos) ← read_u8 buf pos limit;
      '(c, pos) ← read_u8 buf pos limit;
      '(d, pos) ← read_u8 buf pos limit;
      '(e, pos) ← read_u8 buf pos limit;
      Ok (LStreamAck a b c d e)
  | TData | TDataEnd =>
      '(a, pos) ← read_u32 buf pos limit;
      '(b, pos) ← read_u8 buf pos limit;
      '(c, pos) ← read_u32 buf pos limit;
      '(d, pos) ← read_u16 buf pos limit;
      Ok (LData a b c (bool_decide (ty = TDataEnd)) d)
  | TAck =>
      '(a, pos) ← read_u32 buf pos limit;
      '(b, pos) ← read_u8 buf pos limit;
      '(c, pos) ← read_u32 buf pos limit;
      '(d, pos) ← read_u32 buf pos limit;
      '(e, pos) ← read_u8 buf pos limit;
      '(f, pos) ← read_u8 buf pos limit;
      Ok (LAck a b c d e f)
  | TDatagram =>
      '(a, pos) ← read_u32 buf pos limit;
      '(b, pos) ← read_u8 buf pos limit;
      '(option_probe, pos) ← read_octets 6 buf pos limit;
      Ok (LDatagram a b option_probe)
  | TStreamClose | TStreamCloseAck =>
      '(a, pos) ← read_u32 buf pos limit;
      '(b, pos) ← read_u8 buf pos limit;
      '(c, pos) ← read_u32 buf pos limit;
      Ok (LStreamClose a b c (bool_decide (ty = TStreamCloseAck)))
  | TTunnelClose | TTunnelCloseAck =>
      '(a, pos) ← read_u32 buf pos limit;
      Ok (LTunnelClose a (bool_decide (ty = TTunnelCloseAck)))
  | TReset =>
      '(a, pos) ← read_u32 buf pos limit;
      '(b, pos) ← read_u32 buf pos limit;
      '(c, pos) ← read_u8 buf pos limit;
      Ok (LReset a b c)
  | TStreamReset | TStreamResetAck =>
      '(a, pos) ← read_u32 buf pos limit;
      '(b, pos) ← read_u8 buf pos limit;
      '(c, pos) ← read_u8 buf pos limit;
      '(d, pos) ← read_u8 buf pos limit;
      Ok (LStreamReset a b c d (bool_decide (ty = TStreamResetAck)))
  | TReserved => Err Unsupported
  end.

(** Cursor writes: the buffer and the advanced position. *)
Definition put_u32 (st : list Z * Z) (v : Z) : res (list Z * Z) :=
  let '(out, pos) := st in
  fail_if (len out <? pos + 4) InvalidLength;;
  out ← copy_at out pos (to_be 4 v);
  Ok (out, pos + 4).
Definition put_u16 (st : list Z * Z) (v : Z) : res (list Z * Z) :=
  let '(out, pos) := st in
  fail_if (len out <? pos + 2) InvalidLength;;
  out ← copy_at out pos (to_be 2 v);
  Ok (out, pos + 2).
Definition put_u8 (st : list Z * Z) (v : Z) : res (list Z * Z) :=
  let '(out, pos) := st in
  fail_if (len out <=? pos) InvalidLength;;
  out ← copy_at out pos [v];
  Ok (out, pos + 1).

(** [for octet in option_probe { put_u8(..)?; }] *)
Fixpoint put_octets (st : list Z * Z) (vs : list Z) : res (list Z * Z) :=
  match vs with
  | [] => Ok st
  | v :: vs => st ← put_u8 st v; put_octets st vs
  end.

Definition handwritten_encode_lower (lower : GtsLowerPacket) : res (list Z) :=
  n ← lower_prefix_len (lower_packet_type lower);
  out ← copy_at (zeros n) 0 [gts_type_to_wire (lower_packet_type lower)];
  let st := (out, 1) in
  '(out, pos) ←
    match lower with
    | LConnect a b c d =>
        st ← put_u32 st a; st ← put_u32 st b; st ← put_u16 st c; put_u8 st d
    | LConnectAck a b c d e f =>
        st ← put_u32 st a; st ← put_u32 st b; st ← put_u32 st c;
        st ← put_u8 st d; st ← put_u8 st e; put_u8 st f
    | LStreamOpen a b c d e =>
        st ← put_u32 st a; st ← put_u8 st b; st ← put_u16 st c; st ← put_u8 st d; put_u8 st e
    | LStreamAck a b c d e =>
        st ← put_u32 st a; st ← put_u8 st b; st ← put_u8 st c; st ← put_u8 st d; put_u8 st e
    | LData a b c _ d =>
        st ← put_u32 st a; st ← put_u8 st b; st ← put_u32 st c; put_u16 st d
    | LAck a b c d e f =>
        st ← put_u32 st a; st ← put_u8 st b; st ← put_u32 st c; st ← put_u32 st d;
        st ← put_u8 st e; put_u8 st f
    | LDatagram a b option_probe =>
        st ← put_u32 st a; st ← put_u8 st b; put_octets st option_probe
    | LStreamClose a b c _ => st ← put_u32 st a; st ← put_u8 st b; put_u32 st c
    | LTunnelClose a _ => put_u32 st a
    | LReset a b c => st ← put_u32 st a; st ← put_u32 st b; put_u8 st c
    | LStreamReset a b c d _ =>
        st ← put_u32 st a; st ← put_u8 st b; st ← put_u8 st c; put_u8 st d
    end;
  fail_if (negb (pos =? len out)) InvalidLength;;
  Ok out.

#[export] Instance handwritten_decoder : GtsLowerDecoder := handwritten_parse_lower.
#[export] Instance handwritten_encoder : GtsLowerEncoder := handwritten_encode_lower.

(** ** Profile lemmas *)

Lemma sp_validate_Ok p q : sp_validate p = Ok q → q = p ∧ sp_validate p = Ok p.
Proof. unfold sp_validate. intros (_ & [E _]%fail_if_Ok & [= ->])%bind_Ok. by rewrite E. Qed.

(** Exhaustive check over the profiles. *)
Definition all_bools : list bool := [true; false].
Definition all_directions : list Direction := [OpenerToPeer; PeerToOpener; Bidirectional].

Lemma forall_profiles (P : StreamProfile → bool) :
  forallb (λ u, forallb (λ v, forallb (λ s, forallb (λ c, forallb (λ d,
    forallb (λ z, P (mkProfile u v s c d z)) SizeClass_ALL) all_directions)
    all_bools) all_bools) all_bools) all_bools = true →
  ∀ p, P p = true.
Proof.
  intros H [u v s c d z]. assert (Hb : ∀ x, In x all_bools) by (intros []; cbn; tauto).
  assert (Hd : ∀ x, In x all_directions) by (intros []; cbn; tauto).
  assert (Hz : ∀ x, In x SizeClass_ALL) by (intros []; cbn; tauto).
  rewrite forallb_forall in H. specialize (H u (Hb u)).
  rewrite forallb_forall in H. specialize (H v (Hb v)).
  rewrite forallb_forall in H. specialize (H s (Hb s)).
  rewrite forallb_forall in H. specialize (H c (Hb c)).
  rewrite forallb_forall in H. specialize (H d (Hd d)).
  rewrite forallb_forall in H. exact (H z (Hz z)).
Qed.

Lemma sp_from_to_wire p w : sp_to_wire p = Ok w → u16 w ∧ sp_from_wire w = Ok p.
Proof.
  intros H.
  assert (Hp : match sp_to_wire p with
    | Ok w => bool_decide (u16 w) && bool_decide (sp_from_wire w = Ok p) | _ => true end = true).
  { revert p H. intros p _. revert p. apply forall_profiles. vm_compute. reflexivity. }
  rewrite H in Hp. apply andb_true_iff in Hp as [H1 H2].
  by apply bool_decide_eq_true in H1, H2.
Qed.

Lemma sp_to_from_wire w p : u16 w → sp_from_wire w = Ok p → sp_to_wire p = Ok w.
Proof.
  intros Hw H.
  assert (Hp : match sp_from_wire w with
    | Ok p => bool_decide (sp_to_wire p = Ok w) | _ => true end = true).
  { clear H. revert w Hw. apply forall_u16. vm_compute. reflexivity. }
  rewrite H in Hp. by apply bool_decide_eq_true in Hp.
Qed.

Lemma sp_from_wire_valid w p : sp_from_wire w = Ok p → sp_validate p = Ok p.
Proof.
  unfold sp_from_wire. intros (_ & _ & (d & _ & (c & _ & H)%bind_Ok)%bind_Ok)%bind_Ok.
  by apply sp_validate_Ok in H as [-> ?].
Qed.

Lemma no_panic_sp_from_wire v : no_panic (sp_from_wire v).
Proof.
  unfold sp_from_wire. apply no_panic_bind; [auto with nopanic |]. intros _ _.
  apply no_panic_bind; [unfold dir_from_bits; by repeat case_match |]. intros d _.
  destruct (sc_from_wire_total (as_u8 (Z.land v 0xf))) as (c & -> & _). rewrite bind_Ok_l.
  unfold sp_validate. auto with nopanic.
Qed.

(** The 16-bit stream profile word is a bijection between the valid
    profiles and the accepted words: decoding an encoded profile returns it,
    and a word the decoder accepts is the encoding of its profile. *)
Theorem stream_profile_wire_bijection :
  (∀ p w, sp_to_wire p = Ok w → u16 w ∧ sp_from_wire w = Ok p) ∧
  (∀ w p, u16 w → sp_from_wire w = Ok p → sp_to_wire p = Ok w).
Proof. split; [apply sp_from_to_wire | apply sp_to_from_wire]. Qed.

Lemma stream_profile_wire_bijection_witness :
  sp_from_wire 0x4C04 = Ok (reliable_variable Msg128 Bidirectional) ∧
  sp_to_wire (reliable_variable Msg128 Bidirectional) = Ok 0x4C04.
Proof.
  destruct stream_profile_wire_bijection as [H1 H2]. split.
  - apply (H1 (reliable_variable Msg128 Bidirectional)). reflexivity.
  - apply H2; [by vm_compute | reflexivity].
Defined.

(** ** Lower codec lemmas *)

Definition wf_lower (l : GtsLowerPacket) : Prop :=
  match l with
  | LConnect a b c d => u32 a ∧ u32 b ∧ u16 c ∧ u8 d
  | LConnectAck a b c d e f => u32 a ∧ u32 b ∧ u32 c ∧ u8 d ∧ u8 e ∧ u8 f
  | LStreamOpen a b c d e => u32 a ∧ u8 b ∧ u16 c ∧ u8 d ∧ u8 e
  | LStreamAck a b c d e => u32 a ∧ u8 b ∧ u8 c ∧ u8 d ∧ u8 e
  | LData a b c _ d => u32 a ∧ u8 b ∧ u32 c ∧ u16 d
  | LAck a b c d e f => u32 a ∧ u8 b ∧ u32 c ∧ u32 d ∧ u8 e ∧ u8 f
  | LDatagram a b o => u32 a ∧ u8 b ∧ len o = 6 ∧ bytes o
  | LStreamClose a b c _ => u32 a ∧ u8 b ∧ u32 c
  | LTunnelClose a _ => u32 a
  | LReset a b c => u32 a ∧ u32 b ∧ u8 c
  | LStreamReset a b c d _ => u32 a ∧ u8 b ∧ u8 c ∧ u8 d
  end.

(** The prefix as a concatenation of fields. *)
Definition lower_bytes (l : GtsLowerPacket) : list Z :=
  [gts_type_to_wire (lower_packet_type l)] ++
  match l with
  | LConnect a b c d => to_be 4 a ++ to_be 4 b ++ to_be 2 c ++ [d]
  | LConnectAck a b c d e f => to_be 4 a ++ to_be 4 b ++ to_be 4 c ++ [d] ++ [e] ++ [f]
  | LStreamOpen a b c d e => to_be 4 a ++ [b] ++ to_be 2 c ++ [d] ++ [e]
  | LStreamAck a b c d e => to_be 4 a ++ [b] ++ [c] ++ [d] ++ [e]
  | LData a b c _ d => to_be 4 a ++ [b] ++ to_be 4 c ++ to_be 2 d
  | LAck a b c d e f => to_be 4 a ++ [b] ++ to_be 4 c ++ to_be 4 d ++ [e] ++ [f]
  | LDatagram a b o => to_be 4 a ++ [b] ++ o
  | LStreamClose a b c _ => to_be 4 a ++ [b] ++ to_be 4 c
  | LTunnelClose a _ => to_be 4 a
  | LReset a b c => to_be 4 a ++ to_be 4 b ++ [c]
  | LStreamReset a b c d _ => to_be 4 a ++ [b] ++ [c] ++ [d]
  end.

Lemma len_lower_bytes l :
  wf_lower l → lower_prefix_len (lower_packet_type l) = Ok (len (lower_bytes l)).
Proof.
  intros Hwf. unfold lower_bytes. destruct l;
    repeat match goal with b : bool |- _ => destruct b end;
    cbn [lower_packet_type lower_prefix_len]; f_equal; try len_goal.
  destruct Hwf as (_ & _ & Hl & _). len_goal.
Qed.

Lemma handwritten_encode_lower_ok l :
  wf_lower l → handwritten_encode_lower l = Ok (lower_bytes l).
Proof.
  intros Hwf. destruct l; try reflexivity; try (by destruct end_); try (by destruct ack).
  destruct Hwf as (_ & _ & Hl & _). explode option_probe Hl. reflexivity.
Qed.

Lemma read_u32_ok pre v post pos limit :
  pos = len pre → u32 v → pos + 4 ≤ limit →
  read_u32 (pre ++ to_be 4 v ++ post) pos limit = Ok (v, pos + 4).
Proof.
  intros -> Hv Hl. unfold read_u32. pass_guard.
  rewrite get_slice_eq, bind_Ok_l by len_goal. slices.
  rewrite try_from_be_eq, bind_Ok_l, from_be_to_be by (ulia || len_goal). done.
Qed.
Lemma read_u16_ok pre v post pos limit :
  pos = len pre → u16 v → pos + 2 ≤ limit →
  read_u16 (pre ++ to_be 2 v ++ post) pos limit = Ok (v, pos + 2).
Proof.
  intros -> Hv Hl. unfold read_u16. pass_guard.
  rewrite get_slice_eq, bind_Ok_l by len_goal. slices.
  rewrite try_from_be_eq, bind_Ok_l, from_be_to_be by (ulia || len_goal). done.
Qed.
Lemma get_index_mid {A} (pre post : list A) v : get_index (pre ++ v :: post) (len pre) = Ok v.
Proof. rewrite get_index_app_r by lia. by rewrite Z.sub_diag. Qed.

Lemma read_u8_ok pre v post pos limit :
  pos = len pre → pos < limit → read_u8 (pre ++ [v] ++ post) pos limit = Ok (v, pos + 1).
Proof.
  intros -> Hl. unfold read_u8. pass_guard. cbn [app]. by rewrite get_index_mid.
Qed.

Lemma read_octets_ok pre vs post pos limit :
  pos = len pre → pos + len vs ≤ limit →
  read_octets (length vs) (pre ++ vs ++ post) pos limit = Ok (vs, pos + len vs).
Proof.
  revert pre pos. induction vs as [| v vs IH]; intros pre pos -> Hl; cbn [length read_octets].
  - by rewrite len_nil, Z.add_0_r.
  - rewrite len_cons in Hl. lens. cbn [app].
    change (v :: vs ++ post) with ([v] ++ vs ++ post).
    rewrite read_u8_ok by lia. rewrite bind_Ok_l, app_assoc.
    rewrite IH by len_goal. rewrite bind_Ok_l, len_cons. do 2 f_equal. lia.
Qed.

(** One cursor read at the head of the goal; the consumed field joins the
    prefix already read. *)
Ltac lower_read :=
  lazymatch goal with
  | |- mbind _ (read_u32 _ _ _) = _ => rewrite read_u32_ok by (done || len_goal)
  | |- mbind _ (read_u16 _ _ _) = _ => rewrite read_u16_ok by (done || len_goal)
  | |- mbind _ (read_u8 _ _ _) = _ => rewrite read_u8_ok by len_goal
  end; rewrite bind_Ok_l; cbv beta iota; try rewrite app_assoc.

Lemma handwritten_parse_lower_ok l rest :
  wf_lower l → 4 ≤ len rest → handwritten_parse_lower (lower_bytes l ++ rest) = Ok l.
Proof.
  intros Hwf Hr. pose proof (len_lower_bytes l Hwf) as Hp.
  assert (Hlen : 5 ≤ len (lower_bytes l)).
  { revert Hp. destruct (lower_packet_type l); cbn [lower_prefix_len]; intros H; inv_res; lia. }
  set (t := gts_type_to_wire (lower_packet_type l)).
  assert (Hi : get_index (lower_bytes l ++ rest) 0 = Ok t) by done.
  assert (Ht : Z.shiftr t 4 = 0 ∧ gts_type_from_wire (Z.land t 0x0f) = Ok (lower_packet_type l))
    by (subst t; by destruct (lower_packet_type l)).
  destruct Ht as [Ht0 Ht1]. unfold handwritten_parse_lower.
  pass_guard. rewrite Hi, bind_Ok_l, Ht0, Ht1, bind_Ok_l, Hp, bind_Ok_l. cbn [negb Z.eqb].
  pass_guard. pass_guard. generalize (eq_refl (len (lower_bytes l))).
  generalize (len (lower_bytes l)) at -2. intros limit El. clear Hi Ht0 Ht1 Hp.
  subst t. unfold lower_bytes in *. 
  destruct l; repeat match goal with b : bool |- _ => destruct b end;
    cbn [lower_packet_type wf_lower] in *; destruct_and? Hwf;
    rewrite ?len_app in El; autorewrite with len in El; rewrite <- !app_assoc.
  all: try (repeat lower_read; done).
  do 2 lower_read. assert (Ho : len option_probe = 6) by done.
  change 6%nat with (Z.to_nat 6). rewrite <- Ho. unfold len at 1. rewrite Nat2Z.id.
  rewrite read_octets_ok by len_goal. done.
Qed.

(** What a successful cursor read says about the buffer. *)
Lemma read_u32_inv buf pos limit v p :
  bytes buf → read_u32 buf pos limit = Ok (v, p) →
  p = pos + 4 ∧ u32 v ∧ slice buf pos (pos + 4) = to_be 4 v ∧ 0 ≤ pos ∧ pos + 4 ≤ limit.
Proof.
  unfold read_u32. intros Hb (_ & [Hl _]%fail_if_Ok & (s & Hs & H)%bind_Ok)%bind_Ok.
  pose proof (get_slice_bytes _ _ _ _ Hb Hs) as Hsb. apply get_slice_Ok in Hs as (? & ? & ? & ->).
  apply bind_Ok in H as (x & [Hx ->]%try_from_be_Ok & [= <- <-]).
  split; [done |]. split; [by apply from_be_u32 |]. split; [| lia].
  unfold len in Hx. replace 4%nat with (length (slice buf pos (pos + 4))) by lia.
  by rewrite to_be_from_be.
Qed.
Lemma read_u16_inv buf pos limit v p :
  bytes buf → read_u16 buf pos limit = Ok (v, p) →
  p = pos + 2 ∧ u16 v ∧ slice buf pos (pos + 2) = to_be 2 v ∧ 0 ≤ pos ∧ pos + 2 ≤ limit.
Proof.
  unfold read_u16. intros Hb (_ & [Hl _]%fail_if_Ok & (s & Hs & H)%bind_Ok)%bind_Ok.
  pose proof (get_slice_bytes _ _ _ _ Hb Hs) as Hsb. apply get_slice_Ok in Hs as (? & ? & ? & ->).
  apply bind_Ok in H as (x & [Hx ->]%try_from_be_Ok & [= <- <-]).
  split; [done |].
  split; [pose proof (from_be_range _ Hsb) as Hr; rewrite Hx in Hr; exact Hr |]. split; [| lia].
  unfold len in Hx. replace 2%nat with (length (slice buf pos (pos + 2))) by lia.
  by rewrite to_be_from_be.
Qed.
Lemma read_u8_inv buf pos limit v p :
  bytes buf → read_u8 buf pos limit = Ok (v, p) →
  p = pos + 1 ∧ u8 v ∧ slice buf pos (pos + 1) = [v] ∧ 0 ≤ pos ∧ pos + 1 ≤ limit.
Proof.
  unfold read_u8. intros Hb (_ & [Hl _]%fail_if_Ok & (x & Hs & [= <- <-])%bind_Ok)%bind_Ok.
  pose proof (get_index_bytes _ _ _ Hb Hs). pose proof (slice_index _ _ _ Hs).
  apply get_index_Ok in Hs as [? _]. repeat split; try done; try ulia.
Qed.
Lemma read_octets_inv n buf pos limit vs p :
  bytes buf → 0 ≤ pos → read_octets n buf pos limit = Ok (vs, p) →
  p = pos + Z.of_nat n ∧ bytes vs ∧ len vs = Z.of_nat n ∧ slice buf pos p = vs ∧
  (0 < Z.of_nat n → pos + Z.of_nat n ≤ limit).
Proof.
  intros Hb. revert pos vs p. induction n as [| n IH]; intros pos vs p Hpos; cbn [read_octets].
  - intros [= <- <-]. rewrite slice_nil_eq by lia. cbn [Z.of_nat].
    split; [lia |]. split; [apply bytes_nil |]. split; [done |]. split; [done | lia].
  - intros ([v q] & H1 & ([vs' q'] & H2 & [= <- <-])%bind_Ok)%bind_Ok.
    apply read_u8_inv in H1 as (-> & Hv & Hs & _ & Hl); [| done].
    apply IH in H2 as (-> & Hvs & Hlen & Hs2 & Hl2); [| lia].
    rewrite (slice_split buf pos (pos + 1)), Hs, Hs2 by lia.
    rewrite len_cons, Hlen. split; [lia |]. split; [by constructor |]. split; [lia |].
    split; [done |]. destruct n; lia.
Qed.

Lemma no_panic_read_u32 buf pos limit :
  0 ≤ pos → limit ≤ len buf → no_panic (read_u32 buf pos limit).
Proof.
  intros. unfold read_u32. apply no_panic_bind; [auto with nopanic |]. intros _ [? _]%fail_if_Ok.
  rewrite get_slice_eq, bind_Ok_l by lia. apply no_panic_bind; auto with nopanic.
Qed.
Lemma no_panic_read_u16 buf pos limit :
  0 ≤ pos → limit ≤ len buf → no_panic (read_u16 buf pos limit).
Proof.
  intros. unfold read_u16. apply no_panic_bind; [auto with nopanic |]. intros _ [? _]%fail_if_Ok.
  rewrite get_slice_eq, bind_Ok_l by lia. apply no_panic_bind; auto with nopanic.
Qed.
Lemma no_panic_read_u8 buf pos limit :
  0 ≤ pos → limit ≤ len buf → no_panic (read_u8 buf pos limit).
Proof.
  intros. unfold read_u8. apply no_panic_bind; [auto with nopanic |]. intros _ [? _]%fail_if_Ok.
  apply no_panic_bind; [apply no_panic_get_index; lia | done].
Qed.
Lemma no_panic_read_octets n buf pos limit :
  0 ≤ pos → limit ≤ len buf → no_panic (read_octets n buf pos limit).
Proof.
  revert pos. induction n as [| n IH]; intros pos Hp Hl; cbn [read_octets]; [done |].
  apply no_panic_bind; [by apply no_panic_read_u8 |]. intros [v p] H.
  assert (0 ≤ p).
  { unfold read_u8 in H. apply bind_Ok in H as (_ & _ & (x & _ & [= _ <-])%bind_Ok). lia. }
  apply no_panic_bind; [by apply IH |]. by intros [].
Qed.

(** Step through a successful chain of cursor reads. *)
Ltac inv_reads Hb :=
  repeat match goal with
  | H : mbind _ _ = Ok _ |- _ =>
      let p := fresh "p" in let E := fresh "E" in apply bind_Ok in H as ([? p] & E & H);
      first [ apply (read_u32_inv _ _ _ _ _ Hb) in E | apply (read_u16_inv _ _ _ _ _ Hb) in E
            | apply (read_u8_inv _ _ _ _ _ Hb) in E
            | apply (read_octets_inv _ _ _ _ _ _ Hb) in E; [| lia] ];
      destruct_and! E; subst p; cbv beta iota in H
  end.

Lemma slice_app_from {A} (l : list A) a b c x y :
  0 ≤ a ≤ b → b ≤ c → slice l a b = x → slice l b c = y → slice l a c = x ++ y.
Proof. intros ? ? <- <-. by apply slice_split. Qed.

Lemma gts_type_byte b ty :
  u8 b → negb (Z.shiftr b 4 =? 0) = false → gts_type_from_wire (Z.land b 0x0f) = Ok ty →
  b = gts_type_to_wire ty.
Proof.
  intros Hb. assert (H : match gts_type_from_wire (Z.land b 0x0f) with
    | Ok ty => negb (Z.shiftr b 4 =? 0) || (b =? gts_type_to_wire ty)
    | _ => true end = true) by (revert b Hb; apply forall_u8; by vm_compute).
  intros Hn E. rewrite E, Hn in H. by apply Z.eqb_eq in H.
Qed.

(** An accepted buffer starts with the encoding of the packet it parses to. *)
Lemma handwritten_parse_lower_inv buf l :
  bytes buf → handwritten_parse_lower buf = Ok l →
  wf_lower l ∧ slice buf 0 (len (lower_bytes l)) = lower_bytes l ∧
  len (lower_bytes l) + 4 ≤ len buf.
Proof.
  intros Hb H. unfold handwritten_parse_lower in H.
  apply bind_Ok in H as (_ & _ & H). apply bind_Ok in H as (b0 & Hb0 & H).
  pose proof (get_index_bytes _ _ _ Hb Hb0) as Hu. apply slice_index in Hb0. cbn in Hb0.
  apply bind_Ok in H as (_ & [H4 _]%fail_if_Ok & H). apply bind_Ok in H as (ty & Hty & H).
  pose proof (gts_type_byte _ _ Hu H4 Hty) as ->. clear H4 Hty Hu.
  apply bind_Ok in H as (limit & Hlim & H). apply bind_Ok in H as (_ & [Hlen _]%fail_if_Ok & H).
  assert (Hgoal : wf_lower l ∧ slice buf 0 limit = lower_bytes l); cycle 1.
  { destruct Hgoal as [Hwf Hs]. split; [done |].
    assert (limit = len (lower_bytes l)) as <-; [| split; [done | lia]].
    rewrite <- Hs. assert (0 ≤ limit) by (destruct ty; cbn in Hlim; inv_res; lia). len_goal. }
  cbv zeta in H. destruct ty; cbn [lower_prefix_len] in Hlim; try discriminate Hlim;
    apply Ok_inj in Hlim; subst limit; inv_reads Hb; apply Ok_inj in H; subst l.
  all: repeat match goal with |- context [bool_decide ?P] =>
    let b := eval vm_compute in (bool_decide P) in change (bool_decide P) with b end.
  all: cbn [wf_lower]; split; [repeat (split; [assumption |]); assumption |].
  all: unfold lower_bytes;
    repeat (eapply slice_app_from; cycle 2; [eassumption | | lia | lia]); eassumption.
Qed.

Lemma no_panic_handwritten_parse_lower buf :
  bytes buf → no_panic (handwritten_parse_lower buf).
Proof.
  intros Hb. unfold handwritten_parse_lower.
  apply no_panic_bind; [auto with nopanic |]. intros _ [Hl _]%fail_if_Ok.
  apply no_panic_bind; [apply no_panic_get_index; lia |]. intros b0 Hb0.
  apply no_panic_bind; [auto with nopanic |]. intros _ _.
  apply no_panic_bind.
  { pose proof (get_index_bytes _ _ _ Hb Hb0) as Hu. clear -Hu.
    assert (H : match gts_type_from_wire (Z.land b0 0x0f) with Panic => false | _ => true end = true)
      by (revert b0 Hu; apply forall_u8; by vm_compute).
    by destruct (gts_type_from_wire _). }
  intros ty _. apply no_panic_bind; [by destruct ty |]. intros limit _.
  apply no_panic_bind; [auto with nopanic |]. intros _ [Hlim _]%fail_if_Ok. cbv zeta.
  assert (Hge : limit ≤ len buf) by lia. clear Hlim Hl Hb0.
  destruct ty; try done;
    repeat (apply no_panic_bind;
      [ first [ apply no_panic_read_u32; lia | apply no_panic_read_u16; lia
              | apply no_panic_read_u8; lia | apply no_panic_read_octets; lia ]
      | let E := fresh in intros [? ?] E;
        first [ apply (read_u32_inv _ _ _ _ _ Hb) in E | apply (read_u16_inv _ _ _ _ _ Hb) in E
              | apply (read_u8_inv _ _ _ _ _ Hb) in E
              | apply (read_octets_inv _ _ _ _ _ _ Hb) in E; [| lia] ];
        destruct E as (-> & E); clear E ]); done.
Qed.

Lemma bytes_lower_bytes l : wf_lower l → bytes (lower_bytes l).
Proof.
  intros Hwf. unfold lower_bytes. apply bytes_app. split.
  { constructor; [by destruct (lower_packet_type l) | constructor]. }
  destruct l; cbn [wf_lower] in Hwf; destruct_and? Hwf; rewrite ?bytes_app, ?bytes_cons;
    repeat first [assumption | apply bytes_to_be | apply bytes_nil | apply conj].
Qed.

(** ** The contract of a lower codec

    [lower_bytes] is the wire format.  A backend encodes every well-formed
    packet to it, parses it back whatever follows, and accepts nothing else.
    The theorems about packets are proved against this class, for any
    backend. *)
Class GtsLowerCodec `{D : GtsLowerDecoder} `{E : GtsLowerEncoder} : Prop := {
  encode_lower_spec l : wf_lower l → encode_lower l = Ok (lower_bytes l);
  parse_lower_spec l rest :
    wf_lower l → 4 ≤ len rest → parse_lower (lower_bytes l ++ rest) = Ok l;
  parse_lower_no_panic buf : bytes buf → no_panic (parse_lower buf);
  parse_lower_sound buf l :
    bytes buf → parse_lower buf = Ok l →
    wf_lower l ∧ slice buf 0 (len (lower_bytes l)) = lower_bytes l ∧
    len (lower_bytes l) + 4 ≤ len buf }.

#[export] Instance handwritten_codec : GtsLowerCodec.
Proof.
  split; unfold encode_lower, parse_lower, handwritten_encoder, handwritten_decoder;
    auto using handwritten_encode_lower_ok, handwritten_parse_lower_ok,
      no_panic_handwritten_parse_lower, handwritten_parse_lower_inv.
Qed.

(** C11: the handwritten lower codec implements its contract: every well-formed
    lower packet encodes to exactly its prescribed prefix length and parses
    back from any buffer that starts with those bytes; and any buffer that
    parses starts with the encoding of the packet it parses to. *)
Theorem handwritten_lower_codec_correct l rest buf l' :
  wf_lower l → 4 ≤ len rest → bytes buf → handwritten_parse_lower buf = Ok l' →
  (∃ p, handwritten_encode_lower l = Ok p ∧
        lower_prefix_len (lower_packet_type l) = Ok (len p) ∧
        handwritten_parse_lower (p ++ rest) = Ok l) ∧
  (∃ p, handwritten_encode_lower l' = Ok p ∧ slice buf 0 (len p) = p).
Proof.
  intros Hwf Hr Hb H. split.
  - exists (lower_bytes l).
    auto using handwritten_encode_lower_ok, len_lower_bytes, handwritten_parse_lower_ok.
  - destruct (handwritten_parse_lower_inv _ _ Hb H) as (Hwf' & Hs & _).
    exists (lower_bytes l'). by rewrite handwritten_encode_lower_ok.
Qed.

Lemma handwritten_lower_codec_correct_witness :
  (∃ p, handwritten_encode_lower (LReset 7 9 1) = Ok p ∧
        lower_prefix_len TReset = Ok (len p) ∧
        handwritten_parse_lower (p ++ [0; 0; 0; 0]) = Ok (LReset 7 9 1)) ∧
  (∃ p, handwritten_encode_lower (LTunnelClose 5 true) = Ok p ∧
        slice [11; 0; 0; 0; 5; 1; 2; 3; 4] 0 (len p) = p).
Proof.
  apply (handwritten_lower_codec_correct (LReset 7 9 1) [0; 0; 0; 0]
    [11; 0; 0; 0; 5; 1; 2; 3; 4] (LTunnelClose 5 true)).
  - cbn. ulia.
  - by vm_compute.
  - repeat constructor; ulia.
  - reflexivity.
Defined.
