(* ===== verification/GtsCodec.v ===== *)
(** * GTS packets (src/src/wire/gts.rs, gts_tx.rs)

    The packet type, size-class selection, transmit planning, CRC coverage and
    the decoder that interprets a lower packet under the negotiated profile. *)
From stdpp Require Import prelude.
From Stdlib Require Import ZArith Lia.
From S2P Require Import Prelude Crc Css GdpWire GtsWire.
Local Open Scope Z_scope.

(** ** gts.rs *)

Inductive GtsPacket : Set :=
  | Connect (initiator_receive_tunnel initiator_reset_id : Z) (profile : StreamProfile)
            (initial_receive_credit : Z) (css : ServiceSelector)
  | ConnectAck (initiator_receive_tunnel responder_receive_tunnel responder_reset_id status
                initial_receive_credit : Z)
  | StreamOpen (tunnel_id stream_id : Z) (profile : StreamProfile) (initial_receive_credit : Z)
  | StreamAck (tunnel_id stream_id status initial_receive_credit : Z)
  | Data (tunnel_id stream_id sequence : Z) (data : list Z) (end_ : bool)
  | Ack (tunnel_id stream_id ack_base receive_bitmap receive_credit : Z)
  | Datagram (tunnel_id stream_id : Z) (sequence : option Z) (data : list Z)
  | StreamClose (tunnel_id stream_id final_sequence : Z) (ack : bool)
  | TunnelClose (tunnel_id : Z) (ack : bool)
  | Reset (tunnel_id reset_id reason : Z)
  | StreamReset (tunnel_id stream_id reason : Z) (ack : bool).
#[export] Instance GtsPacket_eq_dec : EqDecision GtsPacket.
Proof. solve_decision. Defined.

Definition packet_type (self : GtsPacket) : GtsType :=
  match self with
  | Connect _ _ _ _ _ => TConnect
  | ConnectAck _ _ _ _ _ => TConnectAck
  | StreamOpen _ _ _ _ => TStreamOpen
  | StreamAck _ _ _ _ => TStreamAck
  | Data _ _ _ _ false => TData
  | Data _ _ _ _ true => TDataEnd
  | Ack _ _ _ _ _ => TAck
  | Datagram _ _ _ _ => TDatagram
  | StreamClose _ _ _ false => TStreamClose
  | StreamClose _ _ _ true => TStreamCloseAck
  | TunnelClose _ false => TTunnelClose
  | TunnelClose _ true => TTunnelCloseAck
  | Reset _ _ _ => TReset
  | StreamReset _ _ _ false => TStreamReset
  | StreamReset _ _ _ true => TStreamResetAck
  end.

Definition minimum_len (self : GtsPacket) (profile : option StreamProfile) : res Z :=
  match self with
  | Connect _ _ _ _ css => c ← Css.encode css; Ok (1 + 4 + 4 + 2 + 1 + len c + 4)
  | ConnectAck _ _ _ _ _ => Ok (1 + 4 + 4 + 4 + 1 + 1 + 1 + 4)
  | StreamOpen _ _ _ _ => Ok (1 + 4 + 1 + 2 + 1 + 1 + 4)
  | StreamAck _ _ _ _ => Ok (1 + 4 + 1 + 1 + 1 + 1 + 4)
  | Ack _ _ _ _ _ => Ok 20
  | StreamClose _ _ _ _ => Ok (1 + 4 + 1 + 4 + 4)
  | TunnelClose _ _ => Ok (1 + 4 + 4)
  | Reset _ _ _ => Ok (1 + 4 + 4 + 1 + 4)
  | StreamReset _ _ _ _ => Ok 12
  | Data _ _ _ data end_ =>
      p ← ok_or profile ProfileViolation;
      fail_if (sp_unreliable p) ProfileViolation;;
      Ok (10 + (if sp_variable p || end_ then 2 else 0) + len data + 4)
  | Datagram _ _ _ data =>
      p ← ok_or profile ProfileViolation;
      fail_if (negb (sp_unreliable p)) ProfileViolation;;
      Ok (6 + (if sp_sequenced p then 4 else 0) + (if sp_variable p then 2 else 0)
          + len data + 4)
  end.

(** The variable branch shared by DATA and DATAGRAM. *)
Definition choose_variable (self : GtsPacket) (p : StreamProfile) : res SizeClass :=
  need ← minimum_len self (Some p);
  c ← ok_or (smallest_for need) MessageTooLarge;
  fail_if (sc_index (sp_size_class p) <? sc_index c) MessageTooLarge;;
  Ok c.

Definition choose_size_class (self : GtsPacket) (profile : option StreamProfile)
    : res SizeClass :=
  let fallthrough :=
    n ← minimum_len self profile; ok_or (smallest_for n) MessageTooLarge in
  match profile with
  | Some p =>
      match self with
      | Data _ _ _ _ end_ =>
          if negb (sp_variable p) then
            min ← minimum_len self (Some p);
            (if end_ then fail_if (sc_bytes (sp_size_class p) <? min) MessageTooLarge
             else fail_if (negb (min =? sc_bytes (sp_size_class p))) InvalidLength);;
            Ok (sp_size_class p)
          else choose_variable self p
      | Datagram _ _ _ _ =>
          if negb (sp_variable p) then
            min ← minimum_len self (Some p);
            fail_if (negb (min =? sc_bytes (sp_size_class p))) InvalidLength;;
            Ok (sp_size_class p)
          else choose_variable self p
      | _ => fallthrough
      end
  | None => fallthrough
  end.

Definition compute_crc (ctx : GtsContext) (gts : list Z) : Z :=
  let c := Crc32.new in
  let c := Crc32.update_bits c (Z.land (ctx_gdp_version ctx) 3) 2 in
  let c := Crc32.update_bits c 0x2 4 in
  let c := Crc32.update_bits c (sc_index (ctx_size_class ctx)) 4 in
  let c := Crc32.update_bits c (ctx_source ctx) 64 in
  let c := Crc32.update_bits c (ctx_destination ctx) 64 in
  let c := Crc32.update_bytes c gts in
  Crc32.finalize c.

(** ** gts_tx.rs *)

Record GtsTxPlan : Set := mkPlan {
  plan_lower : GtsLowerPacket;
  plan_tail : list Z;
  plan_crc_coverage_end : Z }.

Definition zero_tail (total : Z) (lower : GtsLowerPacket) : res (list Z) :=
  crc_off ← ok_or (checked_sub total 4) InvalidLength;
  prefix ← lower_prefix_len (lower_packet_type lower);
  fail_if (crc_off <? prefix) InvalidLength;;
  Ok (zeros (crc_off - prefix)).

(** The checks DATA and DATAGRAM share on the frame's Size Class. *)
Definition class_violates (c : SizeClass) (sp : StreamProfile) : bool :=
  (negb (sp_variable sp) && negb (bool_decide (c = sp_size_class sp))) ||
  (sp_variable sp && (sc_index (sp_size_class sp) <? sc_index c)).

Definition prepare_data (ctx : GtsContext) (profile : option StreamProfile) (crc_off : Z)
    (tunnel_id stream_id sequence : Z) (data : list Z) (end_ : bool)
    : res (GtsLowerPacket * list Z * Z) :=
  sp ← ok_or profile ProfileViolation;
  sp ← sp_validate sp;
  fail_if (sp_unreliable sp || class_violates (ctx_size_class ctx) sp) ProfileViolation;;
  fail_if (crc_off <? 12) InvalidLength;;
  let rest := zeros (crc_off - 10) in
  '(rest, pos) ←
    (if sp_variable sp || end_ then
       fail_if (0xffff <? len data) MessageTooLarge;;
       rest ← copy_at rest 0 (to_be 2 (len data));
       Ok (rest, 2)
     else Ok (rest, 0));
  fail_if (len rest <? pos + len data) MessageTooLarge;;
  rest ← copy_at rest pos data;
  let pos := pos + len data in
  fail_if (negb (sp_variable sp) && negb end_ && negb (pos =? len rest)) InvalidLength;;
  r0 ← get_index rest 0; r1 ← get_index rest 1;
  probe ← from_be_bytes 2 [r0; r1];
  tail ← get_slice rest 2 (len rest);
  Ok (LData tunnel_id stream_id sequence end_ probe, tail, crc_off).

Definition prepare_datagram (ctx : GtsContext) (profile : option StreamProfile) (crc_off : Z)
    (tunnel_id stream_id : Z) (sequence : option Z) (data : list Z)
    : res (GtsLowerPacket * list Z * Z) :=
  sp ← ok_or profile ProfileViolation;
  sp ← sp_validate sp;
  fail_if (negb (sp_unreliable sp) || class_violates (ctx_size_class ctx) sp) ProfileViolation;;
  fail_if (crc_off <? 12) InvalidLength;;
  let rest := zeros (crc_off - 6) in
  '(rest, pos) ←
    (if sp_sequenced sp then
       seq ← ok_or sequence ProfileViolation;
       rest ← copy_at rest 0 (to_be 4 seq);
       Ok (rest, 4)
     else
       fail_if (bool_decide (is_Some sequence)) ProfileViolation;;
       Ok (rest, 0));
  '(rest, pos) ←
    (if sp_variable sp then
       fail_if (0xffff <? len data) MessageTooLarge;;
       rest ← copy_at rest pos (to_be 2 (len data));
       Ok (rest, pos + 2)
     else Ok (rest, pos));
  let meta_end := 6 + pos in
  fail_if (len rest <? pos + len data) MessageTooLarge;;
  rest ← copy_at rest pos data;
  let pos := pos + len data in
  fail_if (negb (sp_variable sp) && negb (pos =? len rest)) InvalidLength;;
  probe ← get_slice rest 0 6;
  tail ← get_slice rest 6 (len rest);
  Ok (LDatagram tunnel_id stream_id probe, tail,
      if sp_unchecked_payload sp then meta_end else crc_off).

(** The match of [prepare_encode]: lower packet, tail and CRC coverage. *)
Definition prepare_parts (packet : GtsPacket) (ctx : GtsContext)
    (profile : option StreamProfile) (crc_off : Z) : res (GtsLowerPacket * list Z * Z) :=
  let total := sc_bytes (ctx_size_class ctx) in
  let padded (lower : GtsLowerPacket) : res (GtsLowerPacket * list Z * Z) :=
    tail ← zero_tail total lower; Ok (lower, tail, crc_off) in
  match packet with
  | Connect irt irid sp credit css =>
      sp ← sp_validate sp;
      fail_if (sp_unreliable sp && negb (credit =? 0)) ProfileViolation;;
      w ← sp_to_wire sp;
      let lower := LConnect irt irid w credit in
      tail ← zero_tail total lower;
      css ← Css.encode css;
      fail_if (len tail <? len css) InvalidLength;;
      tail ← copy_at tail 0 css;
      Ok (lower, tail, crc_off)
  | ConnectAck irt rrt rrid status credit => padded (LConnectAck irt rrt rrid status credit 0)
  | StreamOpen tid sid sp credit =>
      sp ← sp_validate sp;
      fail_if (sp_unreliable sp && negb (credit =? 0)) ProfileViolation;;
      w ← sp_to_wire sp;
      padded (LStreamOpen tid sid w credit 0)
  | StreamAck tid sid status credit => padded (LStreamAck tid sid status credit 0)
  | Data tid sid seq data end_ => prepare_data ctx profile crc_off tid sid seq data end_
  | Ack tid sid base bitmap credit => padded (LAck tid sid base bitmap credit 0)
  | Datagram tid sid seq data => prepare_datagram ctx profile crc_off tid sid seq data
  | StreamClose tid sid final ack => padded (LStreamClose tid sid final ack)
  | TunnelClose tid ack => padded (LTunnelClose tid ack)
  | Reset tid rid reason => padded (LReset tid rid reason)
  | StreamReset tid sid reason ack => padded (LStreamReset tid sid reason 0 ack)
  end.

Definition prepare_encode (packet : GtsPacket) (ctx : GtsContext) (profile : option StreamProfile)
    : res GtsTxPlan :=
  let total := sc_bytes (ctx_size_class ctx) in
  crc_off ← ok_or (checked_sub total 4) InvalidLength;
  '(lower, tail, coverage) ← prepare_parts packet ctx profile crc_off;
  prefix_len ← lower_prefix_len (lower_packet_type lower);
  fail_if (negb (prefix_len + len tail =? crc_off) || (crc_off <? coverage)) InvalidLength;;
  Ok {| plan_lower := lower; plan_tail := tail; plan_crc_coverage_end := coverage |}.

Definition finish_encode `{GtsLowerEncoder} (plan : GtsTxPlan) (ctx : GtsContext)
    : res (list Z) :=
  let total := sc_bytes (ctx_size_class ctx) in
  crc_off ← ok_or (checked_sub total 4) InvalidLength;
  prefix_len ← lower_prefix_len (lower_packet_type (plan_lower plan));
  prefix ← encode_lower (plan_lower plan);
  fail_if (negb (len prefix =? prefix_len) ||
           negb (prefix_len + len (plan_tail plan) =? crc_off)) InvalidLength;;
  let out := zeros total in
  out ← copy_at out 0 prefix;
  out ← copy_at out prefix_len (plan_tail plan);
  covered ← get_slice out 0 (plan_crc_coverage_end plan);
  copy_at out crc_off (to_be 4 (compute_crc ctx covered)).

(** [encode_with::<E>]; [GtsPacket::encode] is its handwritten instance. *)
Definition encode_with `{GtsLowerEncoder} (packet : GtsPacket) (ctx : GtsContext)
    (profile : option StreamProfile) : res (list Z) :=
  plan ← prepare_encode packet ctx profile;
  finish_encode plan ctx.

(** ** Decoding (gts.rs) *)

Definition any_nonzero (l : list Z) : bool := negb (all_zero l).

(** Payload extraction shared by DATA and DATAGRAM: the octets from [pos], of
    the declared length [valid] or up to the CRC. *)
Definition take_payload (buf : list Z) (crc_off pos : Z) (valid : option Z) : res (list Z) :=
  d ← sub_or_panic crc_off pos;
  let n := default d valid in
  fail_if (crc_off <? pos + n) InvalidLength;;
  data ← get_slice buf pos (pos + n);
  padding ← get_slice buf (pos + n) crc_off;
  fail_if (bool_decide (is_Some valid) && any_nonzero padding) InvalidField;;
  Ok data.

(** The match of [finish_decode]: the packet and the end of its metadata. *)
Definition interpret_lower (buf : list Z) (ctx : GtsContext) (profile : option StreamProfile)
    (crc_off : Z) (lower : GtsLowerPacket) : res (GtsPacket * Z) :=
  match lower with
  | LConnect irt irid w credit =>
      stream_profile ← sp_from_wire w;
      fail_if (sp_unreliable stream_profile && negb (credit =? 0)) ProfileViolation;;
      body ← get_slice buf 12 crc_off;
      '(css, n) ← Css.decode body;
      padding ← get_slice buf (12 + n) crc_off;
      fail_if (any_nonzero padding) InvalidField;;
      Ok (Connect irt irid stream_profile credit css, crc_off)
  | LConnectAck irt rrt rrid status credit reserved =>
      fail_if (negb (reserved =? 0)) InvalidField;;
      Ok (ConnectAck irt rrt rrid status credit, crc_off)
  | LStreamOpen tid sid w credit reserved =>
      stream_profile ← sp_from_wire w;
      fail_if (negb (reserved =? 0) || (sp_unreliable stream_profile && negb (credit =? 0)))
        ProfileViolation;;
      Ok (StreamOpen tid sid stream_profile credit, crc_off)
  | LStreamAck tid sid status credit reserved =>
      fail_if (negb (reserved =? 0)) InvalidField;;
      Ok (StreamAck tid sid status credit, crc_off)
  | LData tid sid seq end_ probe =>
      sp ← ok_or profile ProfileViolation;
      sp ← sp_validate sp;
      fail_if (sp_unreliable sp || class_violates (ctx_size_class ctx) sp) ProfileViolation;;
      let '(pos, valid) := if end_ || sp_variable sp then (12, Some probe) else (10, None) in
      data ← take_payload buf crc_off pos valid;
      Ok (Data tid sid seq data end_, pos)
  | LAck tid sid base bitmap credit reserved =>
      fail_if (negb (reserved =? 0)) InvalidField;;
      Ok (Ack tid sid base bitmap credit, crc_off)
  | LDatagram tid sid probe =>
      sp ← ok_or profile ProfileViolation;
      sp ← sp_validate sp;
      fail_if (negb (sp_unreliable sp) || class_violates (ctx_size_class ctx) sp) ProfileViolation;;
      '(sequence, option_pos) ←
        (if sp_sequenced sp then
           s ← get_slice probe 0 4; v ← from_be_bytes 4 s; Ok (Some v, 4)
         else Ok (None, 0));
      '(valid, option_pos) ←
        (if sp_variable sp then
           s ← get_slice probe option_pos (option_pos + 2); v ← from_be_bytes 2 s;
           Ok (Some v, option_pos + 2)
         else Ok (None, option_pos));
      let pos := 6 + option_pos in
      data ← take_payload buf crc_off pos valid;
      Ok (Datagram tid sid sequence data, pos)
  | LStreamClose tid sid final ack => Ok (StreamClose tid sid final ack, crc_off)
  | LTunnelClose tid ack => Ok (TunnelClose tid ack, crc_off)
  | LReset tid rid reason => Ok (Reset tid rid reason, crc_off)
  | LStreamReset tid sid reason reserved ack =>
      fail_if (negb (reserved =? 0)) InvalidField;;
      Ok (StreamReset tid sid reason ack, crc_off)
  end.

Definition is_unchecked (profile : option StreamProfile) (ty : GtsType) : bool :=
  match profile with
  | Some sp => sp_unreliable sp && sp_unchecked_payload sp
  | None => false
  end && bool_decide (ty = TDatagram).

Definition finish_decode (buf : list Z) (ctx : GtsContext) (profile : option StreamProfile)
    (lower : GtsLowerPacket) : res GtsPacket :=
  crc_off ← sub_or_panic (len buf) 4;
  '(packet, meta_end) ← interpret_lower buf ctx profile crc_off lower;
  let unchecked := is_unchecked profile (lower_packet_type lower) in
  c ← get_slice buf crc_off (len buf);
  got ← try_from_be 4 c;
  covered ← get_slice buf 0 (if unchecked then meta_end else crc_off);
  fail_if (negb (got =? compute_crc ctx covered)) InvalidCrc;;
  Ok packet.

(** [GtsPacket::decode] over a backend. *)
Definition decode_with `{GtsLowerDecoder} (buf : list Z) (ctx : GtsContext)
    (profile : option StreamProfile) : res GtsPacket :=
  fail_if (negb (len buf =? sc_bytes (ctx_size_class ctx)) || (len buf <? 5)) InvalidLength;;
  lower ← parse_lower buf;
  finish_decode buf ctx profile lower.

Definition encode_packet : GtsPacket → GtsContext → option StreamProfile → res (list Z) :=
  encode_with (H := handwritten_encoder).
Definition decode_packet : list Z → GtsContext → option StreamProfile → res GtsPacket :=
  decode_with (H := handwritten_decoder).

(** ** Lemmas *)

(** Field ranges the Rust types give. *)
Definition wf_packet (p : GtsPacket) : Prop :=
  match p with
  | Connect irt irid sp credit css => u32 irt ∧ u32 irid ∧ u8 credit ∧ wf_selector css
  | ConnectAck irt rrt rrid status credit => u32 irt ∧ u32 rrt ∧ u32 rrid ∧ u8 status ∧ u8 credit
  | StreamOpen tid sid sp credit => u32 tid ∧ u8 sid ∧ u8 credit
  | StreamAck tid sid status credit => u32 tid ∧ u8 sid ∧ u8 status ∧ u8 credit
  | Data tid sid seq data _ => u32 tid ∧ u8 sid ∧ u32 seq ∧ bytes data
  | Ack tid sid base bitmap credit => u32 tid ∧ u8 sid ∧ u32 base ∧ u32 bitmap ∧ u8 credit
  | Datagram tid sid seq data => u32 tid ∧ u8 sid ∧ bytes data ∧ (∀ s, seq = Some s → u32 s)
  | StreamClose tid sid final _ => u32 tid ∧ u8 sid ∧ u32 final
  | TunnelClose tid _ => u32 tid
  | Reset tid rid reason => u32 tid ∧ u32 rid ∧ u8 reason
  | StreamReset tid sid reason _ => u32 tid ∧ u8 sid ∧ u8 reason
  end.

Lemma crc32_bits_range c v n : u32 c → u32 (Crc32.update_bits c v n).
Proof.
  rewrite crc32_update_bits_eq. intros. by apply (g_list_range 32 0x04c11db7).
Qed.

Lemma compute_crc_range ctx gts : bytes gts → u32 (compute_crc ctx gts).
Proof.
  intros Hb. unfold compute_crc, Crc32.finalize.
  set (c := Crc32.update_bits _ (ctx_destination ctx) 64).
  assert (Hc : u32 c) by (subst c; repeat apply crc32_bits_range; by vm_compute).
  rewrite crc32_update_bytes_eq by done.
  apply (lxor_range _ _ 32); [lia | by apply (g_list_range 32 0x04c11db7) | done].
Qed.

(** The frame both directions agree on: the prefix and tail of a plan, then
    the CRC of the covered front. *)
Definition plan_body (plan : GtsTxPlan) : list Z := lower_bytes (plan_lower plan) ++ plan_tail plan.

Definition plan_frame (ctx : GtsContext) (plan : GtsTxPlan) : list Z :=
  plan_body plan ++
  to_be 4 (compute_crc ctx (slice (plan_body plan) 0 (plan_crc_coverage_end plan))).

Record plan_ok (ctx : GtsContext) (plan : GtsTxPlan) : Prop := {
  plan_ok_lower : wf_lower (plan_lower plan);
  plan_ok_tail : bytes (plan_tail plan);
  plan_ok_len : len (plan_body plan) = sc_bytes (ctx_size_class ctx) - 4;
  plan_ok_cov : 0 ≤ plan_crc_coverage_end plan ≤ len (plan_body plan) }.

Lemma finish_encode_ok `{GtsLowerCodec} ctx plan :
  plan_ok ctx plan → finish_encode plan ctx = Ok (plan_frame ctx plan).
Proof.
  intros [Hwf Ht Hl Hc]. unfold plan_frame, finish_encode, checked_sub.
  pose proof (len_lower_bytes _ Hwf) as Hp. pose proof (len_nonneg (plan_body plan)).
  replace (4 <=? _) with true by lia. cbn [ok_or]. rewrite bind_Ok_l, Hp, bind_Ok_l.
  rewrite encode_lower_spec, bind_Ok_l by done. unfold plan_body in *.
  rewrite len_app in *. lens. pass_guard.
  rewrite copy_at_0, bind_Ok_l by len_goal. rewrite drop_zeros by lia.
  rewrite copy_at_app, bind_Ok_l by len_goal. rewrite drop_zeros by lia.
  rewrite app_assoc. rewrite get_slice_eq, bind_Ok_l by len_goal.
  rewrite slice_app_l by len_goal.
  rewrite copy_at_app by len_goal. rewrite drop_zeros by len_goal.
  rewrite len_to_be. replace (_ - Z.of_nat 4) with 0 by lia. by rewrite app_nil_r.
Qed.

Lemma bytes_plan_body ctx plan : plan_ok ctx plan → bytes (plan_body plan).
Proof. intros []. apply bytes_app. auto using bytes_lower_bytes. Qed.

Lemma len_plan_frame ctx plan :
  plan_ok ctx plan → len (plan_frame ctx plan) = sc_bytes (ctx_size_class ctx).
Proof. intros []. unfold plan_frame. len_goal. Qed.

(** [finish_decode] accepts a frame whose interpretation covers what the
    encoder covered. *)
Lemma finish_decode_frame ctx profile plan p meta :
  plan_ok ctx plan →
  (∀ crc, len crc = 4 →
     interpret_lower (plan_body plan ++ crc) ctx profile (len (plan_body plan))
       (plan_lower plan) = Ok (p, meta)) →
  plan_crc_coverage_end plan =
    (if is_unchecked profile (lower_packet_type (plan_lower plan)) then meta
     else len (plan_body plan)) →
  finish_decode (plan_frame ctx plan) ctx profile (plan_lower plan) = Ok p.
Proof.
  intros Hok Hint Hcov. pose proof (bytes_plan_body _ _ Hok) as Hb. destruct Hok as [_ _ _ Hc].
  unfold plan_frame. set (c := compute_crc _ _). unfold finish_decode.
  assert (Hu : u32 c) by by apply compute_crc_range, bytes_slice.
  lens. rewrite len_app, len_to_be. unfold sub_or_panic, checked_sub.
  replace (4 <=? _) with true by lia. cbn [expect]. rewrite bind_Ok_l.
  replace (_ - 4) with (len (plan_body plan)) by lia.
  rewrite Hint, bind_Ok_l by by rewrite len_to_be. cbv beta iota.
  read_step. rewrite try_from_be_eq, bind_Ok_l, from_be_to_be by (ulia || len_goal).
  rewrite <- Hcov, get_slice_eq, bind_Ok_l by len_goal. rewrite slice_app_l by lia.
  fold c. by rewrite Z.eqb_refl.
Qed.

(** ** Preparing a packet and interpreting the result *)

Definition packet_frames (p : GtsPacket) (ctx : GtsContext) (profile : option StreamProfile)
    (plan : GtsTxPlan) : Prop :=
  plan_ok ctx plan ∧ ∃ meta,
  (∀ crc, len crc = 4 →
     interpret_lower (plan_body plan ++ crc) ctx profile (len (plan_body plan))
       (plan_lower plan) = Ok (p, meta)) ∧
  plan_crc_coverage_end plan =
    (if is_unchecked profile (lower_packet_type (plan_lower plan)) then meta
     else len (plan_body plan)).

Lemma zero_tail_Ok total lower tail :
  wf_lower lower → zero_tail total lower = Ok tail →
  tail = zeros (total - 4 - len (lower_bytes lower)) ∧
  len (lower_bytes lower) + len tail = total - 4.
Proof.
  intros Hwf. unfold zero_tail, checked_sub. rewrite len_lower_bytes by done.
  destruct (Z.leb_spec 4 total); cbn [ok_or]; [| done]. rewrite !bind_Ok_l.
  intros (_ & [? _]%fail_if_Ok & <-%Ok_inj)%bind_Ok. split; [done |]. len_goal.
Qed.

(** Reading the payload back out of the frame. *)
Lemma take_payload_ok hd data pad crc crc_off pos valid :
  pos = len hd → crc_off = len hd + len data + len pad →
  (valid = Some (len data) ∧ pad = zeros (len pad)) ∨ (valid = None ∧ pad = []) →
  take_payload (hd ++ data ++ pad ++ crc) crc_off pos valid = Ok data.
Proof.
  intros -> -> Hv. unfold take_payload, sub_or_panic, checked_sub. lens.
  replace (len hd <=? _) with true by lia. cbn [expect]. rewrite bind_Ok_l.
  assert (Hn : default (len hd + len data + len pad - len hd) valid = len data).
  { destruct Hv as [[-> _] | [-> ->]]; cbn [default]; [done | rewrite len_nil; lia]. }
  rewrite Hn. pass_guard. do 2 read_step.
  destruct Hv as [[_ Hp] | [-> _]]; [| done].
  unfold any_nonzero. rewrite Hp, all_zero_zeros. cbn [negb]. by rewrite andb_false_r.
Qed.

Lemma padded_frames p ctx profile lower tail :
  wf_lower lower → zero_tail (sc_bytes (ctx_size_class ctx)) lower = Ok tail →
  is_unchecked profile (lower_packet_type lower) = false →
  (∀ buf crc_off, interpret_lower buf ctx profile crc_off lower = Ok (p, crc_off)) →
  packet_frames p ctx profile
    (mkPlan lower tail (sc_bytes (ctx_size_class ctx) - 4)).
Proof.
  intros Hwf [-> Hl]%zero_tail_Ok Hu Hint; [| done]. rewrite len_zeros in Hl.
  assert (Hlen : len (plan_body (mkPlan lower (zeros (sc_bytes (ctx_size_class ctx) - 4 -
    len (lower_bytes lower))) (sc_bytes (ctx_size_class ctx) - 4)))
    = sc_bytes (ctx_size_class ctx) - 4) by (unfold plan_body; cbn [plan_lower plan_tail]; len_goal).
  split; [split; cbn [plan_lower plan_tail plan_crc_coverage_end]; try done|].
  - apply bytes_zeros.
  - rewrite Hlen. unfold plan_body in Hlen. lens. lia.
  - eexists. split; [intros; apply Hint |]. cbn [plan_lower]. by rewrite Hu.
Qed.

Lemma split_probe rest r0 r1 tail :
  bytes rest → get_index rest 0 = Ok r0 → get_index rest 1 = Ok r1 →
  get_slice rest 2 (len rest) = Ok tail →
  u16 (from_be [r0; r1]) ∧ rest = to_be 2 (from_be [r0; r1]) ++ tail.
Proof.
  intros Hb H0 H1 (_ & Hl & _ & ->)%get_slice_Ok.
  pose proof (get_index_bytes _ _ _ Hb H0) as U0. pose proof (get_index_bytes _ _ _ Hb H1) as U1.
  assert (Hbb : bytes [r0; r1]) by (repeat constructor; apply U0 || apply U1).
  split; [by apply (from_be_range [r0; r1]) |].
  change (to_be 2 _) with (to_be (length [r0; r1]) (from_be [r0; r1])). rewrite to_be_from_be by done.
  destruct rest as [| a [| b t]]; [len_lia.. |]. 
  apply get_index_Ok in H0 as [_ [= ->]]. apply get_index_Ok in H1 as [_ [= ->]].
  change (r0 :: r1 :: t) with ([r0; r1] ++ t) at 2. rewrite slice_app_r by len_goal.
  by rewrite slice_full by len_goal.
Qed.

(** The region behind the fixed fields of DATA: the optional length, the
    payload, zeros. *)
Definition data_rest (withlen : bool) (data : list Z) (k : Z) : list Z :=
  (if withlen then to_be 2 (len data) else []) ++ data ++ zeros k.

Lemma prepare_data_Ok ctx profile crc_off tid sid seq data end_ lower tail cov :
  prepare_data ctx profile crc_off tid sid seq data end_ = Ok (lower, tail, cov) →
  bytes data →
  ∃ sp probe k, profile = Some sp ∧ sp_validate sp = Ok sp ∧ cov = crc_off ∧
    sp_unreliable sp || class_violates (ctx_size_class ctx) sp = false ∧ u16 probe ∧ 0 ≤ k ∧
    lower = LData tid sid seq end_ probe ∧
    to_be 2 probe ++ tail = data_rest (sp_variable sp || end_) data k ∧
    10 + len (data_rest (sp_variable sp || end_) data k) = crc_off ∧
    (if sp_variable sp || end_ then probe = len data else k = 0).
Proof.
  unfold prepare_data. intros H Hb.
  apply bind_Ok in H as (sp & ->%ok_or_Ok & H). apply bind_Ok in H as (sp' & Hv & H).
  apply sp_validate_Ok in Hv as [-> Hv].
  apply bind_Ok in H as (_ & [Hg _]%fail_if_Ok & H).
  apply bind_Ok in H as (_ & [Hc _]%fail_if_Ok & H). cbv zeta in H.
  apply bind_Ok in H as ([rest pos] & Hrest & H).
  remember (sp_variable sp || end_) as f eqn:Ef.
  assert (Hshape : ∃ k, 0 ≤ k ∧ rest = (if f then to_be 2 (len data) else []) ++ zeros k ∧
    pos = (if f then 2 else 0) ∧ len rest = crc_off - 10 ∧ (f = true → len data ≤ 0xffff)).
  { destruct f.
    - apply bind_Ok in Hrest as (_ & [Hm _]%fail_if_Ok & Hrest).
      rewrite copy_at_0, bind_Ok_l, drop_zeros in Hrest by len_goal.
      apply Ok_inj, pair_inv in Hrest as [<- <-].
      exists (crc_off - 10 - 2). rewrite len_to_be. split_and!; try done; len_goal.
    - apply Ok_inj, pair_inv in Hrest as [<- <-]. exists (crc_off - 10). split_and!; try done; len_goal. }
  clear Hrest. destruct Hshape as (k & Hk & -> & -> & Hlen & Hm).
  apply bind_Ok in H as (_ & [Hfit _]%fail_if_Ok & H). lens.
  rewrite len_app, len_zeros in Hlen. rewrite len_app, len_zeros in Hfit.
  rewrite copy_at_app, bind_Ok_l, drop_zeros in H
    by (destruct f; autorewrite with len in *; lia).
  apply bind_Ok in H as (_ & [Hfix _]%fail_if_Ok & H).
  apply bind_Ok in H as (r0 & Hr0 & H). apply bind_Ok in H as (r1 & Hr1 & H).
  rewrite from_be_bytes_eq, bind_Ok_l in H by done.
  apply bind_Ok in H as (t & Ht & H). apply Ok_inj, pair_inv in H as [[<- <-]%pair_inv <-].
  assert (Hbr : bytes (data_rest f data (k - len data))).
  { unfold data_rest. rewrite !bytes_app. split; [destruct f; [apply bytes_to_be | constructor] |].
    split; [done | apply bytes_zeros]. }
  destruct (split_probe (data_rest f data (k - len data)) r0 r1 t) as [Hu Hr]; [done.. |].
  exists sp, (from_be [r0; r1]), (k - len data). rewrite <- Ef. split_and!; try done.
  - destruct f; autorewrite with len in *; lia.
  - unfold data_rest. destruct f; autorewrite with len in *; lia.
  - destruct f.
    + unfold data_rest in Hr. apply app_inj_1 in Hr as [Hr _]; [| by rewrite !length_to_be].
      rewrite <- (from_be_to_be 2 (len data)), Hr, from_be_to_be; [done | exact Hu |].
      specialize (Hm eq_refl). change (256 ^ _) with 0x10000. lia.
    + symmetry in Ef. apply orb_false_iff in Ef as [Ev Ee]. rewrite Ev, Ee in Hfix. cbn [negb andb] in Hfix.
      rewrite !len_app, len_zeros in Hfix. autorewrite with len in *. lia.
Qed.

Lemma is_unchecked_other profile ty : ty ≠ TDatagram → is_unchecked profile ty = false.
Proof. intros. unfold is_unchecked. rewrite bool_decide_eq_false_2 by done. apply andb_false_r. Qed.

Lemma data_frames ctx profile tid sid seq data end_ lower tail cov :
  u32 tid → u8 sid → u32 seq → bytes data →
  prepare_data ctx profile (sc_bytes (ctx_size_class ctx) - 4) tid sid seq data end_
    = Ok (lower, tail, cov) →
  packet_frames (Data tid sid seq data end_) ctx profile (mkPlan lower tail cov).
Proof.
  intros Ht Hs Hq Hb H. apply prepare_data_Ok in H; [| done].
  destruct H as (sp & probe & k & -> & Hv & -> & Hg & Hp & Hk & -> & Hrest & Hl & Hf).
  set (lower := LData tid sid seq end_ probe). set (f := sp_variable sp || end_) in *.
  set (hd := [gts_type_to_wire (lower_packet_type lower)] ++ to_be 4 tid ++ [sid] ++ to_be 4 seq).
  assert (Hhd : len hd = 10) by done.
  assert (Hbody : ∀ cov, plan_body (mkPlan lower tail cov) = hd ++ data_rest f data k).
  { intros. rewrite <- Hrest. unfold plan_body, lower_bytes, hd. cbn [plan_lower plan_tail lower].
    by rewrite <- !app_assoc. }
  assert (Hbr : bytes (data_rest f data k)).
  { unfold data_rest. rewrite !bytes_app. split; [destruct f; [apply bytes_to_be | constructor] |].
    split; [done | apply bytes_zeros]. }
  assert (Hlen : len (hd ++ data_rest f data k) = sc_bytes (ctx_size_class ctx) - 4) by len_goal.
  split.
  { split; cbn [plan_lower plan_tail plan_crc_coverage_end]; rewrite ?Hbody; [done | | done | lens; lia].
    rewrite <- Hrest in Hbr. by apply bytes_app in Hbr as [_ ?]. }
  exists (if f then 12 else 10). cbn [plan_lower plan_crc_coverage_end].
  rewrite Hbody. split; [| rewrite is_unchecked_other by (by destruct end_); lia].
  intros crc Hcrc. cbn [interpret_lower lower ok_or]. rewrite bind_Ok_l, Hv, bind_Ok_l, Hg.
  cbn [fail_if]. rewrite bind_Ok_l, (orb_comm end_). fold f. unfold data_rest in *.
  destruct f; rewrite <- !app_assoc.
  - rewrite (app_assoc hd), take_payload_ok; [done | len_goal | len_goal |].
    left. split; [by rewrite Hf |]. rewrite len_zeros. by rewrite Z.max_r.
  - subst k. cbn [app] in *. rewrite take_payload_ok; [done | done | len_goal | by right].
Qed.

(** The option fields of DATAGRAM and the region they open. *)
Definition datagram_opts (sp : StreamProfile) (sequence : option Z) (data : list Z) : list Z :=
  (if sp_sequenced sp then to_be 4 (default 0 sequence) else []) ++
  (if sp_variable sp then to_be 2 (len data) else []).

Lemma len_datagram_opts sp sequence data :
  len (datagram_opts sp sequence data) =
    (if sp_sequenced sp then 4 else 0) + (if sp_variable sp then 2 else 0).
Proof. unfold datagram_opts. by destruct (sp_sequenced sp), (sp_variable sp). Qed.

Lemma bytes_datagram_rest sp sequence data k :
  bytes data → bytes (datagram_opts sp sequence data ++ data ++ zeros k).
Proof.
  intros. unfold datagram_opts. rewrite !bytes_app.
  split; [split; case_match; (apply bytes_to_be || apply bytes_nil) |].
  split; [done | apply bytes_zeros].
Qed.

Lemma prepare_datagram_Ok ctx profile crc_off tid sid sequence data lower tail cov :
  prepare_datagram ctx profile crc_off tid sid sequence data = Ok (lower, tail, cov) →
  ∃ sp k, profile = Some sp ∧ sp_validate sp = Ok sp ∧
    negb (sp_unreliable sp) || class_violates (ctx_size_class ctx) sp = false ∧ 0 ≤ k ∧
    (if sp_sequenced sp then ∃ s, sequence = Some s else sequence = None) ∧
    let rest := datagram_opts sp sequence data ++ data ++ zeros k in
    lower = LDatagram tid sid (slice rest 0 6) ∧ tail = slice rest 6 (len rest) ∧
    6 ≤ len rest ∧ 6 + len rest = crc_off ∧
    cov = (if sp_unchecked_payload sp then 6 + len (datagram_opts sp sequence data) else crc_off) ∧
    (if sp_variable sp then len data ≤ 0xffff else k = 0).
Proof.
  unfold prepare_datagram. intros H.
  apply bind_Ok in H as (sp & ->%ok_or_Ok & H). apply bind_Ok in H as (sp' & Hv & H).
  apply sp_validate_Ok in Hv as [-> Hv].
  apply bind_Ok in H as (_ & [Hg _]%fail_if_Ok & H).
  apply bind_Ok in H as (_ & [Hc _]%fail_if_Ok & H). cbv zeta in H.
  apply bind_Ok in H as ([rest pos] & Hrest & H).
  set (o1 := if sp_sequenced sp then to_be 4 (default 0 sequence) else []) in *.
  assert (Ho1 : rest = o1 ++ zeros (crc_off - 6 - len o1) ∧ pos = len o1 ∧ len o1 ≤ 4 ∧
    if sp_sequenced sp then ∃ s, sequence = Some s else sequence = None).
  { subst o1. destruct (sp_sequenced sp).
    - apply bind_Ok in Hrest as (s & ->%ok_or_Ok & Hrest). cbn [default].
      rewrite copy_at_0, bind_Ok_l, drop_zeros in Hrest by len_goal.
      apply Ok_inj, pair_inv in Hrest as [<- <-]. split_and!; eauto; done.
    - apply bind_Ok in Hrest as (_ & [Hn _]%fail_if_Ok & [<- <-]%Ok_inj%pair_inv).
      split_and!; try done; [cbn [app len]; f_equal; len_goal |].
      apply bool_decide_eq_false in Hn. by destruct sequence; [destruct Hn |]. }
  clear Hrest. destruct Ho1 as (-> & -> & Hl1 & Hseq).
  apply bind_Ok in H as ([rest pos] & Hrest & H).
  set (o2 := if sp_variable sp then to_be 2 (len data) else []) in *.
  assert (Ho2 : rest = (o1 ++ o2) ++ zeros (crc_off - 6 - len (o1 ++ o2)) ∧ pos = len (o1 ++ o2) ∧
    len o2 ≤ 2 ∧ if sp_variable sp then len data ≤ 0xffff else True).
  { subst o2. destruct (sp_variable sp).
    - apply bind_Ok in Hrest as (_ & [Hm _]%fail_if_Ok & Hrest).
      rewrite copy_at_app, bind_Ok_l, drop_zeros in Hrest by len_goal.
      apply Ok_inj, pair_inv in Hrest as [<- <-]. rewrite <- app_assoc, len_app, len_to_be.
      split_and!; try done; [| len_goal]. do 2 f_equal. f_equal. lia.
    - apply Ok_inj, pair_inv in Hrest as [<- <-]. by rewrite app_nil_r. }
  clear Hrest. destruct Ho2 as (-> & -> & Hl2 & Hvar).
  apply bind_Ok in H as (_ & [Hfit _]%fail_if_Ok & H).
  change (o1 ++ o2) with (datagram_opts sp sequence data) in *.
  assert (len (datagram_opts sp sequence data) ≤ 6)
    by (rewrite len_datagram_opts; destruct (sp_sequenced sp), (sp_variable sp); lia).
  lens. rewrite len_app, len_zeros in Hfit.
  rewrite copy_at_app, bind_Ok_l, drop_zeros in H by len_goal.
  set (k := crc_off - 6 - len (datagram_opts sp sequence data) - len data) in *.
  apply bind_Ok in H as (_ & [Hfix _]%fail_if_Ok & H).
  apply bind_Ok in H as (probe & (_ & _ & Hp & ->)%get_slice_Ok & H).
  apply bind_Ok in H as (t & (_ & _ & _ & ->)%get_slice_Ok & H).
  apply Ok_inj, pair_inv in H as [[<- <-]%pair_inv <-].
  exists sp, k. split_and!; try done; [subst k; lia | subst k; len_goal |].
  destruct (sp_variable sp); [done |]. cbn [negb andb] in Hfix.
  rewrite !len_app, len_zeros in Hfix. subst k. lia.
Qed.

Lemma probe_read (rest : list Z) n a b x :
  0 ≤ a → a ≤ b → b ≤ n → n ≤ len rest → slice rest a b = x →
  get_slice (slice rest 0 n) a b = Ok x.
Proof.
  intros ???? <-. rewrite get_slice_eq by len_goal. by rewrite slice_slice by lia.
Qed.

Lemma datagram_frames ctx profile tid sid sequence data lower tail cov :
  u32 tid → u8 sid → bytes data → (∀ s, sequence = Some s → u32 s) →
  prepare_datagram ctx profile (sc_bytes (ctx_size_class ctx) - 4) tid sid sequence data
    = Ok (lower, tail, cov) →
  packet_frames (Datagram tid sid sequence data) ctx profile (mkPlan lower tail cov).
Proof.
  intros Ht Hs Hb Hu H. apply prepare_datagram_Ok in H.
  destruct H as (sp & k & -> & Hv & Hg & Hk & Hseq & -> & -> & H6 & Hl & -> & Hvar).
  pose proof (bytes_datagram_rest sp sequence data k Hb) as Hbr.
  set (o := datagram_opts sp sequence data) in *. set (rest := o ++ data ++ zeros k) in *.
  set (lower := LDatagram tid sid (slice rest 0 6)).
  set (hd := [gts_type_to_wire TDatagram] ++ to_be 4 tid ++ [sid]).
  assert (Hhd : len hd = 6) by done.
  assert (Hbody : ∀ cov, plan_body (mkPlan lower (slice rest 6 (len rest)) cov) = hd ++ rest).
  { intros. unfold plan_body, lower_bytes, hd. cbn [plan_lower plan_tail lower lower_packet_type].
    rewrite <- !app_assoc, <- (slice_split rest 0 6) by lia. by rewrite (slice_full rest) by done. }
  assert (Hlen : len (hd ++ rest) = sc_bytes (ctx_size_class ctx) - 4) by (rewrite len_app; lia).
  assert (Ho : len o ≤ len rest) by (subst rest; len_goal).
  split.
  { split; cbn [plan_lower plan_tail plan_crc_coverage_end wf_lower lower]; rewrite ?Hbody;
      [| by apply bytes_slice | done | destruct (sp_unchecked_payload sp); lens; lia].
    split_and!; [done | done | len_goal | by apply bytes_slice]. }
  exists (6 + len o). cbn [plan_lower plan_crc_coverage_end]. rewrite Hbody.
  apply orb_false_iff in Hg as [Hun%negb_false_iff Hcl]. split;
    [| unfold is_unchecked; cbn [lower lower_packet_type]; rewrite Hun, bool_decide_eq_true_2,
         andb_true_r by done; by rewrite Hlen].
  intros crc Hcrc. cbn [interpret_lower lower ok_or]. rewrite bind_Ok_l, Hv, bind_Ok_l, Hun, Hcl.
  cbn [fail_if negb orb]. rewrite bind_Ok_l.
  assert (Hpay : ∀ valid pos, valid = (if sp_variable sp then Some (len data) else None) →
    pos = len o → take_payload ((hd ++ rest) ++ crc) (len (hd ++ rest)) (6 + pos) valid = Ok data).
  { intros valid pos -> ->. subst rest. rewrite <- !app_assoc, (app_assoc hd).
    apply take_payload_ok; [len_goal | len_goal |].
    destruct (sp_variable sp); [left | right; by subst k].
    split; [done |]. rewrite len_zeros. by rewrite Z.max_r. }
  revert Hpay. generalize ((hd ++ rest) ++ crc) (len (hd ++ rest)). intros buf off Hpay.
  clear Hbody Hlen Hhd Ho Hbr hd lower.
  assert (Hread : ∀ a b x, 0 ≤ a → a ≤ b → b ≤ 6 → slice rest a b = x →
    get_slice (slice rest 0 6) a b = Ok x) by (intros; by apply probe_read).
  subst rest o. unfold datagram_opts in *.
  destruct (sp_sequenced sp); [destruct Hseq as [s ->]; cbn [default] in *; specialize (Hu s eq_refl);
    rewrite (Hread 0 4 (to_be 4 s)) by (lia || (slices; done)); rewrite bind_Ok_l;
    rewrite from_be_bytes_eq, bind_Ok_l, from_be_to_be by (ulia || done); rewrite bind_Ok_l
    | subst sequence; rewrite bind_Ok_l];
    (destruct (sp_variable sp);
      [erewrite Hread by (cycle 3; [slices; done | lia..]); rewrite bind_Ok_l;
       rewrite from_be_bytes_eq, bind_Ok_l, from_be_to_be by (lens; ulia || done) |];
     rewrite bind_Ok_l, Hpay by done; done).
Qed.

Lemma checked_total c e off :
  ok_or (checked_sub (sc_bytes c) 4) e = Ok off → 4 ≤ sc_bytes c ∧ off = sc_bytes c - 4.
Proof.
  unfold checked_sub. destruct (Z.leb_spec 4 (sc_bytes c)); intros E%ok_or_Ok; naive_solver.
Qed.

Lemma connect_frames ctx profile irt irid sp credit css w tail0 c tail :
  u32 irt → u32 irid → u8 credit → wf_selector css →
  sp_to_wire sp = Ok w → sp_unreliable sp && negb (credit =? 0) = false →
  zero_tail (sc_bytes (ctx_size_class ctx)) (LConnect irt irid w credit) = Ok tail0 →
  Css.encode css = Ok c → copy_at tail0 0 c = Ok tail →
  packet_frames (Connect irt irid sp credit css) ctx profile
    (mkPlan (LConnect irt irid w credit) tail (sc_bytes (ctx_size_class ctx) - 4)).
Proof.
  intros Ha Hb Hc Hs Hw Hcr Hz He Ht. set (lower := LConnect irt irid w credit) in *.
  apply sp_from_to_wire in Hw as [Hwr Hw].
  assert (Hwf : wf_lower lower) by done. apply zero_tail_Ok in Hz as [-> Hl]; [| done].
  assert (Hne : sel css ≠ zeros 16).
  { intros E. unfold Css.encode, encoded_len in He. rewrite canonical_wire_spec in He by apply Hs.
    by rewrite bool_decide_eq_true_2 in He. }
  assert (H12 : len (lower_bytes lower) = 12) by done. rewrite H12 in *.
  rewrite len_zeros in Hl.
  assert (Hfit : len c ≤ sc_bytes (ctx_size_class ctx) - 16).
  { revert Ht. unfold copy_at. rewrite len_zeros. case_match; [lia | done]. }
  rewrite copy_at_0, drop_zeros in Ht by (lens; rewrite ?len_zeros; lia). apply Ok_inj in Ht.
  set (k := sc_bytes (ctx_size_class ctx) - 4 - 12 - len c) in *. subst tail.
  assert (Hlen : len (lower_bytes lower ++ c ++ zeros k) = sc_bytes (ctx_size_class ctx) - 4)
    by (rewrite len_app, H12; len_goal).
  split.
  { split; unfold plan_body; cbn [plan_lower plan_tail plan_crc_coverage_end];
      [done | | done | lens; lia].
    apply bytes_app. split; [| apply bytes_zeros]. by eapply encode_bytes. }
  exists (sc_bytes (ctx_size_class ctx) - 4). unfold plan_body. cbn [plan_lower plan_tail plan_crc_coverage_end].
  rewrite Hlen. split; [| by rewrite is_unchecked_other]. intros crc Hcrc. cbn [interpret_lower lower].
  rewrite Hw, bind_Ok_l, Hcr. cbn [fail_if]. rewrite bind_Ok_l.
  rewrite get_slice_eq, bind_Ok_l by (lens; rewrite ?len_app in *; lia).
  rewrite slice_app_l, slice_app_r, H12 by (rewrite ?H12; lia).
  rewrite slice_full by (rewrite ?len_app in *; lia).
  destruct (css_encode_decode css (zeros k) Hs Hne) as (c' & Hc' & Hd).
  rewrite He in Hc'. apply Ok_inj in Hc' as <-. rewrite Hd, bind_Ok_l. cbv beta iota.
  rewrite get_slice_eq, bind_Ok_l by (lens; rewrite ?len_app in *; lia).
  rewrite slice_app_l, slice_app_r, slice_app_r, H12 by (rewrite ?H12; lens; lia).
  rewrite slice_full by (rewrite ?len_app, ?len_zeros in *; lia).
  unfold any_nonzero. by rewrite all_zero_zeros.
Qed.

Lemma parts_frames p ctx profile lower tail cov :
  wf_packet p →
  prepare_parts p ctx profile (sc_bytes (ctx_size_class ctx) - 4) = Ok (lower, tail, cov) →
  packet_frames p ctx profile (mkPlan lower tail cov).
Proof.
  intros Hwf Hl. unfold prepare_parts in Hl. cbv zeta in Hl.
  destruct p; cbn [wf_packet] in Hwf; destruct_and? Hwf.
  all: try (apply bind_Ok in Hl as (t & Hz & [[<- <-]%pair_inv <-]%Ok_inj%pair_inv);
    apply padded_frames; [cbn; split_and!; (done || ulia) | done
      | apply is_unchecked_other; by try destruct ack | by intros]).
  - apply bind_Ok in Hl as (sp & [-> Hv]%sp_validate_Ok & Hl).
    apply bind_Ok in Hl as (_ & [Hcr _]%fail_if_Ok & Hl). apply bind_Ok in Hl as (w & Hw & Hl).
    apply bind_Ok in Hl as (t0 & Hz & Hl). apply bind_Ok in Hl as (c & He & Hl).
    apply bind_Ok in Hl as (_ & _ & Hl).
    apply bind_Ok in Hl as (t & Ht & [[<- <-]%pair_inv <-]%Ok_inj%pair_inv).
    by eapply connect_frames.
  - apply bind_Ok in Hl as (sp & [-> Hv]%sp_validate_Ok & Hl).
    apply bind_Ok in Hl as (_ & [Hcr _]%fail_if_Ok & Hl). apply bind_Ok in Hl as (w & Hw & Hl).
    apply bind_Ok in Hl as (t & Hz & [[<- <-]%pair_inv <-]%Ok_inj%pair_inv).
    apply sp_from_to_wire in Hw as [Hwr Hw].
    apply padded_frames; [cbn; split_and!; (done || ulia) | done | by apply is_unchecked_other |].
    intros. cbn [interpret_lower]. by rewrite Hw, bind_Ok_l, Hcr.
  - by apply data_frames.
  - by apply datagram_frames.
Qed.

(** [prepare_encode] is [prepare_parts] on frames that hold a CRC. *)
Lemma prepare_encode_Ok p ctx profile plan :
  wf_packet p →
  prepare_encode p ctx profile = Ok plan ↔
  4 ≤ sc_bytes (ctx_size_class ctx) ∧
  prepare_parts p ctx profile (sc_bytes (ctx_size_class ctx) - 4) =
    Ok (plan_lower plan, plan_tail plan, plan_crc_coverage_end plan).
Proof.
  intros Hwf. unfold prepare_encode, checked_sub. destruct (Z.leb_spec 4 (sc_bytes (ctx_size_class ctx)));
    cbn [ok_or]; [rewrite bind_Ok_l | split; [done | lia]]. split.
  - intros ([[lower tail] cov] & Hp & H1)%bind_Ok. cbv beta iota in H1.
    by apply bind_Ok in H1 as (_ & _ & (_ & _ & <-%Ok_inj)%bind_Ok).
  - intros [_ Hp]. rewrite Hp, bind_Ok_l. cbv beta iota. destruct plan as [lower tail cov].
    destruct (parts_frames _ _ _ _ _ _ Hwf Hp) as [[Hl _ Hlen Hc] _].
    unfold plan_body in *. cbn [plan_lower plan_tail plan_crc_coverage_end] in *.
    rewrite len_lower_bytes, bind_Ok_l by done. rewrite len_app in *. by pass_guard.
Qed.

Section codec.
Context `{GtsLowerCodec}.

Lemma encode_with_Ok p ctx profile w :
  wf_packet p → encode_with p ctx profile = Ok w →
  ∃ plan, packet_frames p ctx profile plan ∧
    prepare_parts p ctx profile (sc_bytes (ctx_size_class ctx) - 4) =
      Ok (plan_lower plan, plan_tail plan, plan_crc_coverage_end plan) ∧
    w = plan_frame ctx plan.
Proof.
  intros Hwf (plan & Hp & Hf)%bind_Ok. apply prepare_encode_Ok in Hp as [_ Hp]; [| done].
  pose proof (parts_frames _ _ _ _ _ _ Hwf Hp) as Hfr. destruct plan. cbn in Hfr, Hp.
  eexists. split; [exact Hfr |]. split; [exact Hp |].
  rewrite finish_encode_ok in Hf by apply Hfr. by apply Ok_inj in Hf.
Qed.

Lemma decode_plan_frame p ctx profile plan :
  packet_frames p ctx profile plan → decode_with (plan_frame ctx plan) ctx profile = Ok p.
Proof.
  intros [Hok (meta & Hint & Hcov)]. pose proof (len_plan_frame _ _ Hok) as Hl.
  unfold decode_with. rewrite Hl.
  assert (5 ≤ sc_bytes (ctx_size_class ctx)).
  { destruct Hok as [Hwf _ Hlen _]. unfold plan_body, lower_bytes in Hlen.
    rewrite !len_app, len_cons in Hlen. lens. lia. }
  pass_guard. destruct Hok as [Hwf Ht Hlen Hc].
  assert (Hp : parse_lower (plan_frame ctx plan) = Ok (plan_lower plan)).
  { unfold plan_frame, plan_body. rewrite <- app_assoc. apply parse_lower_spec; [done |]. len_goal. }
  rewrite Hp, bind_Ok_l. by eapply finish_decode_frame.
Qed.

Lemma bytes_plan_frame ctx plan : plan_ok ctx plan → bytes (plan_frame ctx plan).
Proof.
  intros Hok. unfold plan_frame. apply bytes_app. split; [| apply bytes_to_be].
  by eapply bytes_plan_body.
Qed.

(** C7: encoding any GTS packet for a frame of the context's Size Class yields
    a frame of exactly that many octets, and decoding it in the same context
    under the same profile returns the packet; this holds over every lawful
    lower-codec backend. *)
Theorem gts_packet_roundtrip p ctx profile w :
  wf_packet p → encode_with p ctx profile = Ok w →
  len w = sc_bytes (ctx_size_class ctx) ∧ bytes w ∧ decode_with w ctx profile = Ok p.
Proof.
  intros Hwf Hw. destruct (encode_with_Ok _ _ _ _ Hwf Hw) as (plan & Hfr & _ & ->).
  split; [apply len_plan_frame, Hfr | split; [apply bytes_plan_frame, Hfr |]].
  by apply decode_plan_frame.
Qed.
End codec.

Lemma gts_packet_roundtrip_witness :
  let ctx := mkContext 0 Ctrl32 0x1000000020003 0x1000000040005 in
  ∃ w, encode_packet (Ack 7 2 40 5 9) ctx None = Ok w ∧
       len w = 32 ∧ bytes w ∧ decode_packet w ctx None = Ok (Ack 7 2 40 5 9).
Proof.
  eexists. split; [vm_compute; reflexivity |].
  apply (gts_packet_roundtrip (H := handwritten_codec) (Ack 7 2 40 5 9)
    (mkContext 0 Ctrl32 0x1000000020003 0x1000000040005) None).
  - cbn. ulia.
  - vm_compute. reflexivity.
Defined.
