(* ===== verification/GtsCodecSound.v ===== *)
(** * GTS packets: class selection and decoding (gts.rs, gts_tx.rs)

    Exactness of [choose_size_class] with respect to the encoder, safety of
    the decoder on arbitrary octets, and its soundness for payload packets. *)
From stdpp Require Import prelude.
From Stdlib Require Import ZArith Lia.
From S2P Require Import Prelude Crc Css GdpWire GtsWire GtsCodec.
Local Open Scope Z_scope.

(** ** Size-class selection against the encoder *)

(** What a negotiated packet satisfies besides its field ranges: a valid
    profile, no credit on an unreliable stream, and a datagram sequence exactly
    when the profile is sequenced. *)
Definition admissible (p : GtsPacket) (profile : option StreamProfile) : Prop :=
  match p with
  | Connect _ _ sp credit _ | StreamOpen _ _ sp credit =>
      sp_validate sp = Ok sp ∧ sp_unreliable sp && negb (credit =? 0) = false
  | Data _ _ _ _ _ => ∀ sp, profile = Some sp → sp_validate sp = Ok sp
  | Datagram _ _ seq _ => ∀ sp, profile = Some sp →
      sp_validate sp = Ok sp ∧ bool_decide (is_Some seq) = sp_sequenced sp
  | _ => True
  end.

(** The frames of class [c] can carry the packet. *)
Definition fits (p : GtsPacket) (profile : option StreamProfile) (c : SizeClass) : Prop :=
  ∃ n, minimum_len p profile = Ok n ∧ n ≤ sc_bytes c ∧
    match p with
    | Data _ _ _ _ end_ => ∀ sp, profile = Some sp →
        class_violates c sp = false ∧ (sp_variable sp || end_ = false → n = sc_bytes c)
    | Datagram _ _ _ _ => ∀ sp, profile = Some sp →
        class_violates c sp = false ∧ (sp_variable sp = false → n = sc_bytes c)
    | _ => True
    end.

Lemma class_violates_variable c sp :
  sp_variable sp = true → class_violates c sp = (sc_index (sp_size_class sp) <? sc_index c).
Proof. unfold class_violates. by intros ->. Qed.
Lemma class_violates_fixed c sp :
  sp_variable sp = false → class_violates c sp = false ↔ c = sp_size_class sp.
Proof.
  unfold class_violates. intros ->. cbn [negb andb]. rewrite orb_false_r.
  case_bool_decide; cbn [negb]; naive_solver.
Qed.

Lemma smallest_for_Ok n e c : ok_or (smallest_for n) e = Ok c → n ≤ sc_bytes c.
Proof. intros E%ok_or_Ok. pose proof (smallest_for_spec n) as Hs. rewrite E in Hs. apply Hs. Qed.
Lemma smallest_for_le n e d :
  n ≤ sc_bytes d → ∃ c, ok_or (smallest_for n) e = Ok c ∧ sc_index c ≤ sc_index d.
Proof.
  intros Hd. pose proof (smallest_for_spec n) as Hs. destruct (smallest_for n) as [c |].
  - exists c. split; [done |]. by apply Hs.
  - pose proof (sc_bytes_range d). lia.
Qed.

Lemma choose_variable_Ok p sp c :
  choose_variable p sp = Ok c →
  ∃ n, minimum_len p (Some sp) = Ok n ∧ n ≤ sc_bytes c ∧ sc_index c ≤ sc_index (sp_size_class sp).
Proof.
  unfold choose_variable. intros (n & Hn & H)%bind_Ok. apply bind_Ok in H as (c' & Hc & H).
  apply bind_Ok in H as (u & [Hg _]%fail_if_Ok & <-%Ok_inj).
  exists n. apply smallest_for_Ok in Hc. split_and!; [done | done | lia].
Qed.

Lemma choose_fits p profile c : choose_size_class p profile = Ok c → fits p profile c.
Proof.
  unfold choose_size_class, fits. intros H.
  assert (Hfall : (n ← minimum_len p profile; ok_or (smallest_for n) MessageTooLarge) = Ok c →
    ∃ n, minimum_len p profile = Ok n ∧ n ≤ sc_bytes c).
  { intros (n & Hn & Hc%smallest_for_Ok)%bind_Ok. eauto. }
  destruct profile as [sp |].
  - destruct p; cbv zeta in H; try (destruct (Hfall H) as (n & ? & ?); by exists n); clear Hfall.
    + destruct (sp_variable sp) eqn:Ev; cbn [negb] in H.
      * apply choose_variable_Ok in H as (n & Hn & Hl & Hi). exists n. split_and!; [done.. |].
        intros ? <-%Some_inj. rewrite class_violates_variable, Ev by done.
        split; [by apply Z.ltb_ge | done].
      * apply bind_Ok in H as (n & Hn & (u & Hg & <-%Ok_inj)%bind_Ok). exists n.
        split; [done |]. split.
        -- destruct end_; apply fail_if_Ok in Hg as [Hg _]; lia.
        -- intros ? <-%Some_inj. split; [by apply class_violates_fixed |]. rewrite Ev. cbn [orb].
           intros ->. apply fail_if_Ok in Hg as [Hg _]. lia.
    + destruct (sp_variable sp) eqn:Ev; cbn [negb] in H.
      * apply choose_variable_Ok in H as (n & Hn & Hl & Hi). exists n. split_and!; [done.. |].
        intros ? <-%Some_inj. rewrite class_violates_variable, Ev by done.
        split; [by apply Z.ltb_ge | done].
      * apply bind_Ok in H as (n & Hn & (u & [Hg _]%fail_if_Ok & <-%Ok_inj)%bind_Ok). exists n.
        split; [done |]. split; [lia |].
        intros ? <-%Some_inj. split; [by apply class_violates_fixed |]. lia.
  - destruct (Hfall H) as (n & Hn & Hl). exists n. by destruct p.
Qed.

Lemma fits_choose p profile d :
  fits p profile d → ∃ c, choose_size_class p profile = Ok c ∧ sc_index c ≤ sc_index d.
Proof.
  intros (n & Hn & Hl & Hp). unfold choose_size_class.
  destruct (smallest_for_le n MessageTooLarge d Hl) as (c & Hc & Hi).
  assert (Hfall : (n ← minimum_len p profile; ok_or (smallest_for n) MessageTooLarge) = Ok c)
    by by rewrite Hn, bind_Ok_l.
  destruct profile as [sp |]; [| by exists c].
  destruct p; cbv zeta; try (by exists c); clear Hfall; destruct (Hp sp eq_refl) as [Hv Hf];
    (destruct (sp_variable sp) eqn:Ev; cbn [negb];
      [exists c; split; [| done]; unfold choose_variable; rewrite Hn, bind_Ok_l, Hc, bind_Ok_l;
       rewrite class_violates_variable in Hv by done; by pass_guard
      | apply class_violates_fixed in Hv as ->; [| done]; exists (sp_size_class sp); split; [| done];
        rewrite Hn, bind_Ok_l]).
  - destruct end_; [by pass_guard |]. rewrite (Hf eq_refl), Z.eqb_refl. done.
  - by rewrite (Hf eq_refl), Z.eqb_refl.
Qed.

Lemma zero_tail_exists total lower :
  wf_lower lower → len (lower_bytes lower) + 4 ≤ total → is_ok (zero_tail total lower) = true.
Proof.
  intros Hwf Hl. unfold zero_tail, checked_sub. lens. replace (4 <=? total) with true by lia.
  cbn [ok_or]. rewrite len_lower_bytes, !bind_Ok_l by done. by pass_guard.
Qed.

Lemma is_ok_ex {A} (m : res A) : is_ok m = true ↔ ∃ a, m = Ok a.
Proof. destruct m; naive_solver. Qed.

(** [prepare_parts] succeeds only in classes that fit. *)
Lemma parts_fits p ctx profile lower tail cov :
  wf_packet p →
  prepare_parts p ctx profile (sc_bytes (ctx_size_class ctx) - 4) = Ok (lower, tail, cov) →
  fits p profile (ctx_size_class ctx).
Proof.
  intros Hwf H. pose proof (parts_frames _ _ _ _ _ _ Hwf H) as [[Hlw _ Hlen _] _].
  unfold plan_body in Hlen. cbn [plan_lower plan_tail] in *. rewrite len_app in Hlen.
  unfold prepare_parts in H. cbv zeta in H. unfold fits. lens.
  destruct p; cbn [wf_packet] in Hwf; destruct_and? Hwf.
  all: try (apply bind_Ok in H as (t & Hz & [[<- <-]%pair_inv <-]%Ok_inj%pair_inv);
    eexists; split_and!; [reflexivity | | done];
    unfold lower_bytes in Hlen; autorewrite with len in Hlen; lia).
  - apply bind_Ok in H as (sp' & _ & H). apply bind_Ok in H as (u & _ & H).
    apply bind_Ok in H as (w & _ & H). apply bind_Ok in H as (t & Hz & H).
    apply bind_Ok in H as (c & Hc & H). apply bind_Ok in H as (v & [Hg _]%fail_if_Ok & H).
    apply bind_Ok in H as (t' & Ht & [[<- <-]%pair_inv <-]%Ok_inj%pair_inv).
    cbn [minimum_len]. rewrite Hc, bind_Ok_l. eexists; split_and!; [reflexivity | | done].
    apply zero_tail_Ok in Hz as [_ Hz]; [| done].
    unfold lower_bytes in Hz; autorewrite with len in Hz. lia.
  - apply bind_Ok in H as (sp' & _ & H). apply bind_Ok in H as (u & _ & H).
    apply bind_Ok in H as (w & _ & H).
    apply bind_Ok in H as (t & Hz & [[<- <-]%pair_inv <-]%Ok_inj%pair_inv).
    eexists; split_and!; [reflexivity | | done].
    unfold lower_bytes in Hlen; autorewrite with len in Hlen; lia.
  - apply prepare_data_Ok in H; [| done].
    destruct H as (sp & probe & k & -> & Hv & -> & Hg & Hp & Hk & -> & Hrest & Hl & Hf).
    apply orb_false_iff in Hg as [Hu Hcv]. cbn [minimum_len ok_or]. rewrite bind_Ok_l, Hu.
    unfold data_rest in Hl. rewrite !len_app, len_zeros in Hl.
    eexists; split_and!; [reflexivity | |].
    + destruct (_ || _); autorewrite with len in *; lia.
    + intros ? <-%Some_inj. split; [done |]. intros E. rewrite E in *. rewrite len_nil in Hl. lia.
  - apply prepare_datagram_Ok in H.
    destruct H as (sp & k & -> & Hv & Hg & Hk & Hseq & -> & -> & Hs6 & Hl & -> & Hvar).
    apply orb_false_iff in Hg as [Hu Hcv]. cbn [minimum_len ok_or]. rewrite bind_Ok_l, Hu.
    rewrite !len_app, len_zeros, len_datagram_opts in Hl.
    eexists; split_and!; [reflexivity | lens; lia |].
    intros ? <-%Some_inj. split; [done |]. intros E. rewrite E in *. lia.
Qed.

Lemma sc_bytes_gaps c : 14 ≤ sc_bytes c → 32 ≤ sc_bytes c.
Proof. destruct c; sc_norm; lia. Qed.

Lemma data_exists ctx profile tid sid seq data end_ :
  (∀ sp, profile = Some sp → sp_validate sp = Ok sp) →
  fits (Data tid sid seq data end_) profile (ctx_size_class ctx) →
  is_ok (prepare_data ctx profile (sc_bytes (ctx_size_class ctx) - 4) tid sid seq data end_) = true.
Proof.
  intros Hadm (n & Hn & Hl & Hp). unfold prepare_data. cbn [minimum_len] in Hn.
  apply bind_Ok in Hn as (sp & ->%ok_or_Ok & Hn). apply bind_Ok in Hn as (u & [Hu _]%fail_if_Ok & Hn).
  apply Ok_inj in Hn. destruct (Hp sp eq_refl) as [Hcv Hfix]. specialize (Hadm sp eq_refl).
  pose proof (sc_bytes_range (ctx_size_class ctx)). pose proof (sc_bytes_gaps (ctx_size_class ctx)).
  cbn [ok_or]. rewrite bind_Ok_l, Hadm, bind_Ok_l, Hu, Hcv. cbn [orb]. lens.
  pass_guard. assert (32 ≤ sc_bytes (ctx_size_class ctx)) by (destruct (_ || _); lia).
  pass_guard. set (off := sc_bytes (ctx_size_class ctx) - 4) in *.
  destruct (sp_variable sp || end_) eqn:Ef.
  - pass_guard. rewrite copy_at_0, !bind_Ok_l, drop_zeros by len_goal. cbv beta iota.
    pass_guard. rewrite copy_at_app, bind_Ok_l by len_goal.
    replace (negb (sp_variable sp) && negb end_) with false
      by (destruct (sp_variable sp), end_; done). cbn [andb].
    cbn [fail_if]. rewrite bind_Ok_l. by rewrite get_slice_eq by len_goal.
  - specialize (Hfix eq_refl). rewrite !bind_Ok_l. cbv beta iota. pass_guard.
    rewrite copy_at_0, bind_Ok_l, drop_zeros by len_goal.
    replace (0 + len data =? _) with true by len_goal. cbn [negb]. rewrite andb_false_r.
    cbn [fail_if]. rewrite bind_Ok_l. replace (off - 10 - len data) with 0 by lia.
    rewrite app_nil_r. destruct data as [| a [| b data]]; [len_lia.. |].
    change (get_index (a :: b :: data) 0) with (Ok a). change (get_index (a :: b :: data) 1) with (Ok b).
    rewrite !bind_Ok_l. by rewrite get_slice_eq by len_goal.
Qed.

Lemma datagram_exists ctx profile tid sid seq data :
  (∀ sp, profile = Some sp → sp_validate sp = Ok sp ∧ bool_decide (is_Some seq) = sp_sequenced sp) →
  fits (Datagram tid sid seq data) profile (ctx_size_class ctx) →
  is_ok (prepare_datagram ctx profile (sc_bytes (ctx_size_class ctx) - 4) tid sid seq data) = true.
Proof.
  intros Hadm (n & Hn & Hl & Hp). unfold prepare_datagram. cbn [minimum_len] in Hn.
  apply bind_Ok in Hn as (sp & ->%ok_or_Ok & Hn). apply bind_Ok in Hn as (u & [Hu _]%fail_if_Ok & Hn).
  apply Ok_inj in Hn. destruct (Hp sp eq_refl) as [Hcv Hfix].
  destruct (Hadm sp eq_refl) as [Hv Hs]. clear Hadm Hp.
  pose proof (sc_bytes_range (ctx_size_class ctx)). lens.
  assert (Hg : 10 ≤ sc_bytes (ctx_size_class ctx)) by (repeat case_match; lia).
  assert (32 ≤ sc_bytes (ctx_size_class ctx)).
  { clear -Hg. destruct (ctx_size_class ctx); sc_norm; lia. }
  cbn [ok_or]. rewrite bind_Ok_l, Hv, bind_Ok_l, Hu, Hcv. cbn [orb fail_if]. rewrite bind_Ok_l.
  pass_guard. set (off := sc_bytes (ctx_size_class ctx) - 4) in *.
  destruct (sp_sequenced sp), seq as [s |]; try discriminate Hs; cbn [ok_or];
    [rewrite bind_Ok_l, copy_at_0, !bind_Ok_l, drop_zeros by len_goal; cbv beta iota
    | cbn [is_Some fail_if]; rewrite bool_decide_eq_false_2 by (by intros []); cbn [fail_if];
      rewrite !bind_Ok_l; cbv beta iota].
  all: destruct (sp_variable sp); [| specialize (Hfix eq_refl)].
  all: try (pass_guard; first [rewrite copy_at_app, !bind_Ok_l, drop_zeros by len_goal
    | rewrite copy_at_0, !bind_Ok_l, drop_zeros by len_goal]); rewrite ?bind_Ok_l; cbv beta iota.
  all: pass_guard; rewrite ?app_assoc;
    first [rewrite copy_at_app, bind_Ok_l by len_goal | rewrite copy_at_0, bind_Ok_l by len_goal];
    pass_guard; rewrite (get_slice_eq _ 0 6), bind_Ok_l by len_goal; by rewrite get_slice_eq by len_goal.
Qed.

Lemma parts_exist p ctx profile :
  wf_packet p → admissible p profile → fits p profile (ctx_size_class ctx) →
  is_ok (prepare_parts p ctx profile (sc_bytes (ctx_size_class ctx) - 4)) = true.
Proof.
  intros Hwf Hadm Hfit. unfold prepare_parts. cbv zeta.
  assert (Hpad : ∀ lower, wf_lower lower →
    len (lower_bytes lower) + 4 ≤ sc_bytes (ctx_size_class ctx) →
    is_ok (tail ← zero_tail (sc_bytes (ctx_size_class ctx)) lower;
           Ok (lower, tail, sc_bytes (ctx_size_class ctx) - 4)) = true).
  { intros lower Hl Hn. pose proof (zero_tail_exists _ _ Hl Hn) as [t ->]%is_ok_ex. done. }
  destruct p; cbn [wf_packet admissible] in *; destruct_and? Hwf; lens;
    try (apply data_exists || apply datagram_exists; done);
    destruct Hfit as (n & Hn & Hl & _); cbn [minimum_len] in Hn; apply bind_Ok in Hn || apply Ok_inj in Hn.
  all: try (apply Hpad; [cbn; split_and?; (done || ulia)
    | unfold lower_bytes; autorewrite with len; lia]).
  - destruct Hn as (c & Hc & <-%Ok_inj). destruct Hadm as [Hv Hcr].
    rewrite Hv, bind_Ok_l, Hcr. cbn [fail_if]. rewrite bind_Ok_l. unfold sp_to_wire at 1.
    rewrite Hv, !bind_Ok_l. set (w := Z.lor _ _).
    assert (Hw : u16 w) by (eapply sp_from_to_wire; unfold sp_to_wire; by rewrite Hv).
    assert (Hlw : wf_lower (LConnect initiator_receive_tunnel initiator_reset_id w
      initial_receive_credit)) by done.
    destruct (zero_tail (sc_bytes (ctx_size_class ctx)) (LConnect _ _ w _)) as [t | |] eqn:Ez.
    + rewrite bind_Ok_l, Hc, bind_Ok_l. apply zero_tail_Ok in Ez as [_ Ez]; [| done].
      unfold lower_bytes in Ez. autorewrite with len in Ez. lens. pass_guard. by rewrite copy_at_0 by lia.
    + apply (f_equal is_ok) in Ez. rewrite zero_tail_exists in Ez; [done.. |].
      unfold lower_bytes. len_goal.
    + apply (f_equal is_ok) in Ez. rewrite zero_tail_exists in Ez; [done.. |].
      unfold lower_bytes. len_goal.
  - destruct Hadm as [Hv Hcr].
    rewrite Hv, bind_Ok_l, Hcr. cbn [fail_if]. rewrite bind_Ok_l. unfold sp_to_wire at 1.
    rewrite Hv, !bind_Ok_l. apply Hpad; [| unfold lower_bytes; len_goal].
    cbn. split_and!; try (done || ulia). eapply sp_from_to_wire. unfold sp_to_wire. by rewrite Hv.
Qed.

Lemma plan_frame_crc ctx plan crc_off :
  len (plan_body plan) = crc_off →
  slice (plan_frame ctx plan) crc_off (crc_off + 4) =
    to_be 4 (compute_crc ctx (slice (plan_body plan) 0 (plan_crc_coverage_end plan))).
Proof.
  intros <-. unfold plan_frame. rewrite slice_app_r by lia.
  apply slice_full; rewrite ?len_to_be; lia.
Qed.

Section choice.
Context `{GtsLowerCodec}.

Lemma encode_iff_fits p ctx profile :
  wf_packet p → admissible p profile →
  is_ok (encode_with p ctx profile) = true ↔ fits p profile (ctx_size_class ctx).
Proof.
  intros Hwf Hadm. split.
  - intros [w Hw]%is_ok_ex. destruct (encode_with_Ok _ _ _ _ Hwf Hw) as (plan & _ & Hp & _).
    by eapply parts_fits.
  - intros Hf. pose proof (parts_exist _ _ _ Hwf Hadm Hf) as [[[l t] c] Hp]%is_ok_ex.
    assert (4 ≤ sc_bytes (ctx_size_class ctx)).
    { destruct (parts_frames _ _ _ _ _ _ Hwf Hp) as [[_ _ Hl _] _]. lens. lia. }
    pose proof (parts_frames _ _ _ _ _ _ Hwf Hp) as [Hok _].
    assert (He : prepare_encode p ctx profile = Ok (mkPlan l t c)) by by apply prepare_encode_Ok.
    unfold encode_with. by rewrite He, bind_Ok_l, finish_encode_ok.
Qed.

(** [choose_size_class] is exact with respect to the encoder: when it
    returns a class, the packet encodes in every context of that class and in
    no context of a smaller one; when it fails, the packet encodes in no
    context at all. *)
Theorem gts_size_class_exact p profile :
  wf_packet p → admissible p profile →
  match choose_size_class p profile with
  | Ok c =>
      (∀ ctx, ctx_size_class ctx = c → ∃ w, encode_with p ctx profile = Ok w) ∧
      (∀ ctx w, encode_with p ctx profile = Ok w → sc_index c ≤ sc_index (ctx_size_class ctx))
  | _ => ∀ ctx w, encode_with p ctx profile ≠ Ok w
  end.
Proof.
  intros Hwf Hadm.
  assert (Henc : ∀ ctx w, encode_with p ctx profile = Ok w →
    ∃ c, choose_size_class p profile = Ok c ∧ sc_index c ≤ sc_index (ctx_size_class ctx)).
  { intros ctx w Hw. apply fits_choose, encode_iff_fits; [done.. |]. by rewrite Hw. }
  destruct (choose_size_class p profile) as [c | e |] eqn:Ec.
  - split.
    + intros ctx <-. apply is_ok_ex, encode_iff_fits; [done.. |]. by apply choose_fits.
    + intros ctx w Hw. destruct (Henc ctx w Hw) as (c' & <-%Ok_inj & ?). done.
  - intros ctx w Hw. by destruct (Henc ctx w Hw) as (? & ? & _).
  - intros ctx w Hw. by destruct (Henc ctx w Hw) as (? & ? & _).
Qed.

(** On an unchecked-payload stream the CRC of a DATAGRAM covers its
    metadata only: two datagrams that differ in payload octets (of equal
    number) carry the same CRC. *)
Theorem gts_unchecked_payload_uncovered ctx sp tid sid seq d1 d2 w1 w2 :
  sp_unchecked_payload sp = true → len d1 = len d2 →
  wf_packet (Datagram tid sid seq d1) → wf_packet (Datagram tid sid seq d2) →
  encode_with (Datagram tid sid seq d1) ctx (Some sp) = Ok w1 →
  encode_with (Datagram tid sid seq d2) ctx (Some sp) = Ok w2 →
  let crc_off := sc_bytes (ctx_size_class ctx) - 4 in
  slice w1 crc_off (crc_off + 4) = slice w2 crc_off (crc_off + 4).
Proof.
  intros Hun Hd Hwf1 Hwf2 (plan1 & Hf1 & Hp1 & ->)%encode_with_Ok
    (plan2 & Hf2 & Hp2 & ->)%encode_with_Ok crc_off; [| done..].
  assert (Hcov : ∀ d plan, len d = len d1 → packet_frames (Datagram tid sid seq d) ctx (Some sp) plan →
    prepare_parts (Datagram tid sid seq d) ctx (Some sp) crc_off =
      Ok (plan_lower plan, plan_tail plan, plan_crc_coverage_end plan) →
    slice (plan_frame ctx plan) crc_off (crc_off + 4) = to_be 4 (compute_crc ctx
      ([gts_type_to_wire TDatagram] ++ to_be 4 tid ++ [sid] ++ datagram_opts sp seq d1))).
  { clear -Hun. intros d plan Hd [[_ _ Hl _] _] Hp. cbn [prepare_parts] in Hp.
    destruct plan as [lower tail cov]. cbn [plan_lower plan_tail plan_crc_coverage_end] in Hp.
    apply prepare_datagram_Ok in Hp.
    destruct Hp as (sp' & k & <-%Some_inj & _ & _ & Hk & _ & -> & -> & Hs6 & _ & -> & _).
    rewrite Hun in *. rewrite plan_frame_crc by done. cbn [plan_crc_coverage_end]. do 2 f_equal.
    unfold plan_body, lower_bytes. cbn [plan_lower plan_tail lower_packet_type].
    rewrite <- !app_assoc, <- (slice_split _ 0 6) by lia. rewrite (slice_full (datagram_opts _ _ _ ++ _)) by done.
    replace (datagram_opts sp seq d1) with (datagram_opts sp seq d)
      by (unfold datagram_opts; by rewrite Hd).
    rewrite !app_assoc. rewrite <- (app_assoc _ d). rewrite slice_app_l by len_goal.
    apply slice_full; len_goal. }
  by rewrite (Hcov d1 plan1), (Hcov d2 plan2).
Qed.
End choice.

(** ** Decoding arbitrary octets *)

Lemma take_payload_inv buf crc_off pos valid data :
  0 ≤ pos → crc_off ≤ len buf → (∀ n, valid = Some n → 0 ≤ n) →
  take_payload buf crc_off pos valid = Ok data →
  ∃ k, 0 ≤ k ∧ pos ≤ crc_off ∧ slice buf pos crc_off = data ++ zeros k ∧
    match valid with Some n => len data = n | None => k = 0 end.
Proof.
  intros Hp Hc Hv H. unfold take_payload, sub_or_panic, checked_sub in H.
  destruct (Z.leb_spec pos crc_off) as [Hle |]; cbn [expect] in H; [| done].
  rewrite bind_Ok_l in H. set (n := default (crc_off - pos) valid) in *.
  assert (Hn : 0 ≤ n) by (subst n; destruct valid; cbn [default]; [by apply Hv | lia]).
  apply bind_Ok in H as (u & [Hg _]%fail_if_Ok & H).
  rewrite !get_slice_eq, !bind_Ok_l in H by lia.
  apply bind_Ok in H as (v & [Hz _]%fail_if_Ok & <-%Ok_inj).
  exists (crc_off - (pos + n)). split; [lia |]. split; [done |].
  rewrite (slice_split buf pos (pos + n)) by lia. destruct valid as [m |].
  - assert (En : n = m) by done. clearbody n. subst m. split; [| rewrite len_slice; lia]. f_equal.
    unfold any_nonzero in Hz. rewrite bool_decide_eq_true_2 in Hz by eauto. cbn [andb] in Hz.
    apply negb_false_iff, all_zero_spec in Hz. rewrite Hz. f_equal. rewrite len_slice. lia.
  - assert (En : n = crc_off - pos) by done. clearbody n. subst n. split; [| lia]. f_equal.
    rewrite slice_nil_eq by lia. by replace (crc_off - _) with 0 by lia.
Qed.

Lemma take_payload_no_panic buf crc_off pos valid :
  0 ≤ pos ≤ crc_off → crc_off ≤ len buf → (∀ n, valid = Some n → 0 ≤ n) →
  no_panic (take_payload buf crc_off pos valid).
Proof.
  intros Hp Hc Hv. unfold take_payload, sub_or_panic, checked_sub.
  replace (pos <=? crc_off) with true by lia. cbn [expect]. rewrite bind_Ok_l.
  assert (Hn : 0 ≤ default (crc_off - pos) valid) by (destruct valid; cbn; [by apply Hv | lia]).
  apply no_panic_bind; [auto with nopanic |]. intros _ [Hg _]%fail_if_Ok.
  rewrite !get_slice_eq, !bind_Ok_l by lia. auto with nopanic.
Qed.

Lemma css_decode_len buf s n : bytes buf → Css.decode buf = Ok (s, n) → wf_selector s ∧ 0 ≤ n ≤ len buf.
Proof.
  intros Hb H. split; [by apply (css_decode_wf buf s n) |].
  unfold Css.decode in H. apply bind_Ok in H as (_ & _ & H). apply bind_Ok in H as (b & _ & H).
  apply bind_Ok in H as (_ & _ & H). cbv zeta in H. lens.
  destruct (_ =? 0); [| destruct (_ =? 1); [| destruct (_ =? 2); [| done]]]; 
    apply bind_Ok in H as (u & [Hl _]%fail_if_Ok & H); inv_res; lia.
Qed.

Section decode_safety.
Context (buf : list Z) (ctx : GtsContext) (profile : option StreamProfile) (lower : GtsLowerPacket).
Context (Hb : bytes buf) (Hwf : wf_lower lower)
  (Hs : slice buf 0 (len (lower_bytes lower)) = lower_bytes lower)
  (Hl : len (lower_bytes lower) + 4 ≤ len buf).

Lemma interpret_no_panic :
  no_panic (interpret_lower buf ctx profile (len buf - 4) lower).
Proof.
  destruct lower; cbn [interpret_lower wf_lower] in *; auto with nopanic;
    destruct_and? Hwf; try (apply no_panic_bind; [auto with nopanic | done]).
  - apply no_panic_bind; [apply no_panic_sp_from_wire |]. intros sp _.
    apply no_panic_bind; [auto with nopanic |]. intros _ _. unfold lower_bytes in Hl.
    autorewrite with len in Hl. rewrite get_slice_eq, bind_Ok_l by lia.
    apply no_panic_bind; [apply css_decode_no_panic |]. intros [c n] Hc.
    apply css_decode_len in Hc as [_ Hn]; [| by apply bytes_slice]. rewrite len_slice in Hn.
    rewrite get_slice_eq, bind_Ok_l by lia. apply no_panic_bind; auto with nopanic.
  - apply no_panic_bind; [apply no_panic_sp_from_wire |]. intros sp _.
    apply no_panic_bind; auto with nopanic.
  - apply no_panic_bind; [auto with nopanic |]. intros sp _.
    apply no_panic_bind; [unfold sp_validate; auto with nopanic |]. intros sp' _.
    apply no_panic_bind; [auto with nopanic |]. intros _ _. unfold lower_bytes in Hl.
    autorewrite with len in Hl.
    destruct (_ || _); (apply no_panic_bind; [| done]); apply take_payload_no_panic; try lia;
      try done. intros ? [= <-]. ulia.
  - apply no_panic_bind; [auto with nopanic |]. intros sp _.
    apply no_panic_bind; [unfold sp_validate; auto with nopanic |]. intros sp' _.
    apply no_panic_bind; [auto with nopanic |]. intros _ _. unfold lower_bytes in Hl.
    autorewrite with len in Hl.
    assert (Hread : ∀ n a, 0 ≤ a → a + Z.of_nat n ≤ 6 →
      ∃ v, 0 ≤ v ∧ (s ← get_slice option_probe a (a + Z.of_nat n); from_be_bytes n s) = Ok v).
    { intros n a Ha Hn. rewrite get_slice_eq, bind_Ok_l by lia. rewrite from_be_bytes_eq by len_goal.
      eexists. split; [| done]. by apply from_be_range, bytes_slice. }
    destruct (sp_sequenced sp').
    + destruct (Hread 4%nat 0) as (v & _ & Hv); [lia.. |]. change (0 + Z.of_nat 4) with 4 in Hv.
      apply bind_Ok in Hv as (s & -> & Hv). rewrite bind_Ok_l, Hv, !bind_Ok_l.
      destruct (sp_variable sp').
      * destruct (Hread 2%nat 4) as (n & Hn & E); [lia.. |].
        apply bind_Ok in E as (s' & Es & E). change (4 + Z.of_nat 2) with (4 + 2) in Es.
        rewrite Es, bind_Ok_l, E, !bind_Ok_l.
        apply no_panic_bind; [| done]. apply take_payload_no_panic; [lia.. |]. by intros ? [= <-].
      * rewrite bind_Ok_l. apply no_panic_bind; [| done]. by apply take_payload_no_panic; [lia.. |].
    + rewrite bind_Ok_l. destruct (sp_variable sp').
      * destruct (Hread 2%nat 0) as (n & Hn & E); [lia.. |].
        apply bind_Ok in E as (s' & Es & E). change (0 + Z.of_nat 2) with (0 + 2) in Es.
        rewrite Es, bind_Ok_l, E, !bind_Ok_l.
        apply no_panic_bind; [| done]. apply take_payload_no_panic; [lia.. |]. by intros ? [= <-].
      * rewrite bind_Ok_l. apply no_panic_bind; [| done]. by apply take_payload_no_panic; [lia.. |].
Qed.
End decode_safety.

(** The front of a frame that carries the packet: fixed fields, options,
    payload and [k] octets of padding. *)
Definition payload_body (p : GtsPacket) (sp : StreamProfile) (k : Z) : list Z :=
  match p with
  | Data tid sid seq data end_ =>
      ([gts_type_to_wire (packet_type p)] ++ to_be 4 tid ++ [sid] ++ to_be 4 seq) ++
      data_rest (sp_variable sp || end_) data k
  | Datagram tid sid seq data =>
      ([gts_type_to_wire TDatagram] ++ to_be 4 tid ++ [sid]) ++
      datagram_opts sp seq data ++ data ++ zeros k
  | _ => []
  end.

Definition is_payload (p : GtsPacket) : bool :=
  match p with Data _ _ _ _ _ | Datagram _ _ _ _ => true | _ => false end.

Lemma slice_prefix (l : list Z) n m p q : 0 ≤ n → slice l 0 n = p ++ q → m = len p → slice l 0 m = p.
Proof.
  intros Hn E ->. pose proof (f_equal len E) as El. autorewrite with len in El. lens.
  transitivity (slice (slice l 0 n) 0 (len p)); [by rewrite slice_slice by lia |].
  rewrite E, slice_app_l by lia. by apply slice_full.
Qed.

Lemma interpret_data_sound buf ctx profile off tid sid seq end_ probe p meta :
  bytes buf → off ≤ len buf → 12 ≤ off → wf_lower (LData tid sid seq end_ probe) →
  slice buf 0 12 = lower_bytes (LData tid sid seq end_ probe) →
  interpret_lower buf ctx profile off (LData tid sid seq end_ probe) = Ok (p, meta) →
  ∃ sp data k, p = Data tid sid seq data end_ ∧ profile = Some sp ∧ sp_validate sp = Ok sp ∧
    sp_unreliable sp = false ∧ class_violates (ctx_size_class ctx) sp = false ∧ bytes data ∧
    0 ≤ k ∧ (sp_variable sp || end_ = false → k = 0) ∧ slice buf 0 off = payload_body p sp k.
Proof.
  intros Hb Hoff H12 Hwf Hs H. cbn [interpret_lower wf_lower] in *. destruct_and! Hwf.
  apply bind_Ok in H as (sp & ->%ok_or_Ok & H). apply bind_Ok in H as (sp' & [-> Hv]%sp_validate_Ok & H).
  apply bind_Ok in H as (u & [Hg _]%fail_if_Ok & H). apply orb_false_iff in Hg as [Hu Hcv].
  rewrite orb_comm in H. set (f := sp_variable sp || end_) in *. cbv zeta in H.
  set (hd := [gts_type_to_wire (if end_ then TDataEnd else TData)] ++ to_be 4 tid ++ [sid] ++ to_be 4 seq).
  assert (Hs' : slice buf 0 12 = hd ++ to_be 2 probe).
  { rewrite Hs. unfold lower_bytes, hd. rewrite <- !app_assoc. by destruct end_. }
  assert (Hpay : ∃ data k, p = Data tid sid seq data end_ ∧ 0 ≤ k ∧ (f = false → k = 0) ∧
    slice buf (if f then 12 else 10) off = data ++ zeros k ∧ (f = true → len data = probe)).
  { destruct f; apply bind_Ok in H as (data & Hd & [<- <-]%Ok_inj%pair_inv);
      (apply take_payload_inv in Hd as (k & Hk & Hle & Hsl & Hn);
        [| lia | done | intros ? [= <-]; ulia || intros ? [=]]); by exists data, k. }
  destruct Hpay as (data & k & -> & Hk & Hk0 & Hsl & Hn). exists sp, data, k.
  assert (bytes data).
  { apply (bytes_app data (zeros k)). rewrite <- Hsl. by apply bytes_slice. }
  split_and!; try done. cbn [payload_body packet_type]. fold f.
  replace (gts_type_to_wire _) with (gts_type_to_wire (if end_ then TDataEnd else TData))
    by (by destruct end_). fold hd. unfold data_rest. destruct f.
  - rewrite (slice_split buf 0 12), Hs', Hsl, (Hn eq_refl) by lia. by rewrite <- app_assoc.
  - cbn [app]. rewrite (slice_split buf 0 10), Hsl by lia.
    by rewrite (slice_prefix buf 12 10 hd (to_be 2 probe)).
Qed.

Lemma interpret_datagram_sound buf ctx profile off tid sid probe p meta :
  bytes buf → off ≤ len buf → 12 ≤ off → wf_lower (LDatagram tid sid probe) →
  slice buf 0 12 = lower_bytes (LDatagram tid sid probe) →
  interpret_lower buf ctx profile off (LDatagram tid sid probe) = Ok (p, meta) →
  ∃ sp seq data k, p = Datagram tid sid seq data ∧ profile = Some sp ∧ sp_validate sp = Ok sp ∧
    sp_unreliable sp = true ∧ class_violates (ctx_size_class ctx) sp = false ∧
    bytes data ∧ (∀ s, seq = Some s → u32 s) ∧ bool_decide (is_Some seq) = sp_sequenced sp ∧
    0 ≤ k ∧ (sp_variable sp = false → k = 0) ∧ slice buf 0 off = payload_body p sp k ∧
    meta = 6 + len (datagram_opts sp seq data).
Proof.
  intros Hb Hoff H12 Hwf Hs H. cbn [interpret_lower wf_lower] in *.
  destruct Hwf as (Ht & Hsd & Hl6 & Hpb).
  apply bind_Ok in H as (sp & ->%ok_or_Ok & H). apply bind_Ok in H as (sp' & [-> Hv]%sp_validate_Ok & H).
  apply bind_Ok in H as (u & [Hg _]%fail_if_Ok & H).
  apply orb_false_iff in Hg as [Hu%negb_false_iff Hcv].
  set (hd := [gts_type_to_wire TDatagram] ++ to_be 4 tid ++ [sid]).
  assert (Hhd : slice buf 0 12 = hd ++ probe)
    by (rewrite Hs; unfold lower_bytes, hd; by rewrite <- !app_assoc).
  assert (Hread : ∀ n a v, 0 ≤ a → a + Z.of_nat n ≤ 6 →
    (s ← get_slice probe a (a + Z.of_nat n); from_be_bytes n s) = Ok v →
    slice probe a (a + Z.of_nat n) = to_be n v ∧ 0 ≤ v < 256 ^ Z.of_nat n).
  { intros n a v Ha Hn (s & (_ & _ & _ & ->)%get_slice_Ok & Hvv)%bind_Ok.
    rewrite from_be_bytes_eq in Hvv by len_goal. apply Ok_inj in Hvv as <-.
    pose proof (bytes_slice _ a (a + Z.of_nat n) Hpb) as Hsb.
    pose proof (from_be_range _ Hsb) as Hr. rewrite len_slice in Hr.
    replace (Z.min _ _) with (Z.of_nat n) in Hr by lia. split; [| done].
    rewrite <- (to_be_from_be _ Hsb) at 1. f_equal.
    enough (Z.of_nat (length (slice probe a (a + Z.of_nat n))) = Z.of_nat n) by lia.
    change (len (slice probe a (a + Z.of_nat n)) = Z.of_nat n). len_goal. }
  apply bind_Ok in H as ([seq op1] & Hseq & H). apply bind_Ok in H as ([valid op2] & Hval & H).
  cbv zeta in H. apply bind_Ok in H as (data & Hd & [<- <-]%Ok_inj%pair_inv).
  set (o1 := if sp_sequenced sp then to_be 4 (default 0 seq) else []).
  assert (Ho1 : op1 = len o1 ∧ slice probe 0 op1 = o1 ∧ (∀ s, seq = Some s → u32 s) ∧
    bool_decide (is_Some seq) = sp_sequenced sp ∧ len o1 ≤ 4).
  { subst o1. destruct (sp_sequenced sp).
    - apply bind_Ok in Hseq as (s & Hs1 & (v & Hs2 & [<- <-]%Ok_inj%pair_inv)%bind_Ok).
      destruct (Hread 4%nat 0 v) as [E1 E2]; [lia.. | |].
      { change (0 + Z.of_nat 4) with 4. by rewrite Hs1, bind_Ok_l. }
      split_and!; try done. by intros ? [= <-].
    - apply Ok_inj, pair_inv in Hseq as [<- <-]. split_and!; try done. }
  destruct Ho1 as (-> & Ho1 & Hsu & Hsd' & Hl1).
  assert (Ho2 : ∃ o2, op2 = len o1 + len o2 ∧ slice probe (len o1) op2 = o2 ∧ op2 ≤ 6 ∧
    match valid with Some n => sp_variable sp = true ∧ o2 = to_be 2 n ∧ 0 ≤ n
                   | None => sp_variable sp = false ∧ o2 = [] end).
  { lens. destruct (sp_variable sp).
    - apply bind_Ok in Hval as (s & Hs1 & (v & Hs2 & [<- <-]%Ok_inj%pair_inv)%bind_Ok).
      destruct (Hread 2%nat (len o1) v) as [E1 E2]; [lia.. | |].
      { change (Z.of_nat 2) with 2. by rewrite Hs1, bind_Ok_l. }
      exists (to_be 2 v). rewrite len_to_be. split_and!; try done; lia.
    - apply Ok_inj, pair_inv in Hval as [<- <-]. exists []. rewrite slice_nil_eq, len_nil by lia.
      split_and!; try done; lia. }
  destruct Ho2 as (o2 & -> & Ho2 & Hop6 & Hval'). lens.
  apply take_payload_inv in Hd as (k & Hk & Hle & Hsl & Hn);
    [| lia | done | intros n ->; apply Hval'].
  assert (Hopt : datagram_opts sp seq data = o1 ++ o2).
  { unfold datagram_opts. fold o1. f_equal. destruct valid as [n |].
    - destruct Hval' as (-> & -> & _). by rewrite Hn.
    - by destruct Hval' as (-> & ->). }
  assert (Hbd : bytes data).
  { apply (bytes_app data (zeros k)). rewrite <- Hsl. by apply bytes_slice. }
  exists sp, seq, data, k. split_and!; try done.
  - intros Ev. destruct valid; [naive_solver congruence | done].
  - cbn [payload_body]. fold hd. rewrite Hopt, <- Hsl.
    assert (Hhl : len hd = 6) by done.
    rewrite (slice_split buf 0 6) by lia. rewrite (slice_prefix buf 12 6 hd probe) by done. f_equal.
    rewrite (slice_split buf 6 (6 + (len o1 + len o2))) by lia. f_equal.
    rewrite <- Ho1, <- Ho2 at 2. rewrite <- slice_split by lia.
    assert (Hp12 : probe = slice buf 6 12).
    { pose proof (slice_slice buf 0 12 6 12) as E. rewrite Hhd, slice_app_r, slice_full in E by lia.
      apply E; lia. }
    rewrite Hp12, slice_slice by lia. f_equal; lia.
  - by rewrite Hopt, len_app.
Qed.

Lemma payload_body_len p sp k k' :
  0 ≤ k → 0 ≤ k' → is_payload p = true →
  len (payload_body p sp k) = len (payload_body p sp k') → k = k'.
Proof.
  destruct p; try done; cbn [payload_body]; unfold data_rest; intros ?? _;
    rewrite !len_app, !len_zeros; lia.
Qed.

(** The plan of a payload packet is its [payload_body]. *)
Lemma parts_payload p ctx profile lower tail cov :
  wf_packet p → is_payload p = true →
  prepare_parts p ctx profile (sc_bytes (ctx_size_class ctx) - 4) = Ok (lower, tail, cov) →
  ∃ sp k, profile = Some sp ∧ 0 ≤ k ∧ plan_body (mkPlan lower tail cov) = payload_body p sp k ∧
    lower_packet_type lower = packet_type p ∧
    cov = match p with
          | Datagram _ _ seq data =>
              if sp_unchecked_payload sp then 6 + len (datagram_opts sp seq data)
              else sc_bytes (ctx_size_class ctx) - 4
          | _ => sc_bytes (ctx_size_class ctx) - 4
          end.
Proof.
  intros Hwf Hp H. destruct p; try done; cbn [prepare_parts wf_packet] in *; destruct_and! Hwf.
  - apply prepare_data_Ok in H; [| done].
    destruct H as (sp & probe & k & -> & Hv & -> & Hg & Hpr & Hk & -> & Hrest & Hl & Hf).
    exists sp, k. split_and!; try done.
    unfold plan_body, lower_bytes. cbn [plan_lower plan_tail payload_body]. rewrite <- Hrest.
    rewrite <- !app_assoc. by destruct end_.
  - apply prepare_datagram_Ok in H.
    destruct H as (sp & k & -> & Hv & Hg & Hk & Hseq & -> & -> & Hs6 & Hl & -> & Hvar).
    exists sp, k. split_and!; try done. unfold plan_body, lower_bytes.
    cbn [plan_lower plan_tail payload_body lower_packet_type].
    rewrite <- !app_assoc, <- (slice_split _ 0 6) by lia. by rewrite (slice_full (datagram_opts _ _ _ ++ _)) by done.
Qed.

Section sound.
Context `{GtsLowerCodec}.

(** A frame whose front is a payload body and whose CRC is right is what the
    encoder emits for that packet. *)
Lemma payload_frame_encodes p ctx sp k buf :
  wf_packet p → is_payload p = true → admissible p (Some sp) →
  fits p (Some sp) (ctx_size_class ctx) →
  bytes buf → len buf = sc_bytes (ctx_size_class ctx) → 4 ≤ len buf → 0 ≤ k →
  slice buf 0 (len buf - 4) = payload_body p sp k →
  from_be (slice buf (len buf - 4) (len buf)) = compute_crc ctx (slice buf 0
    (match p with
     | Datagram _ _ seq data =>
         if sp_unchecked_payload sp then 6 + len (datagram_opts sp seq data) else len buf - 4
     | _ => len buf - 4 end)) →
  (match p with Datagram _ _ seq data => 6 + len (datagram_opts sp seq data) ≤ len buf - 4
   | _ => True end) →
  encode_with p ctx (Some sp) = Ok buf.
Proof.
  intros Hwf Hp Hadm Hfit Hb Hlen H4 Hk Hbody Hcrc Hmeta.
  pose proof (proj2 (encode_iff_fits p ctx (Some sp) Hwf Hadm) Hfit) as [w Hw]%is_ok_ex.
  rewrite Hw. f_equal. destruct (encode_with_Ok _ _ _ _ Hwf Hw) as ([lower tail cov] & Hf & Hparts & ->).
  cbn [plan_lower plan_tail plan_crc_coverage_end] in Hparts.
  destruct (parts_payload _ _ _ _ _ _ Hwf Hp Hparts) as (sp' & k' & <-%Some_inj & Hk' & Hpb & _ & Hcov).
  destruct Hf as [[_ _ Hpl _] _]. rewrite Hpb in Hpl.
  assert (k' = k) as ->.
  { apply (payload_body_len p sp); [done.. |]. rewrite Hpl, <- Hbody, len_slice. lia. }
  unfold plan_frame. rewrite Hpb. cbn [plan_crc_coverage_end]. rewrite <- Hbody.
  assert (0 ≤ cov ≤ len buf - 4).
  { rewrite Hcov. destruct p; try done; [lia |]. destruct (sp_unchecked_payload sp); lens; lia. }
  rewrite slice_slice by lia.
  replace (0 + cov) with cov by lia. change (0 + 0) with 0.
  rewrite <- (slice_full buf 0 (len buf)) at 4 by done.
  rewrite (slice_split buf 0 (len buf - 4) (len buf)) by lia. f_equal.
  rewrite Hcov. rewrite <- Hlen. rewrite <- Hcrc.
  rewrite <- (to_be_from_be (slice buf (len buf - 4) (len buf))) at 2 by by apply bytes_slice.
  f_equal. enough (len (slice buf (len buf - 4) (len buf)) = 4) as Hx by (unfold len at 1 in Hx; lia).
  rewrite len_slice. lia.
Qed.
End sound.

Section decode.
Context `{GtsLowerCodec}.

Lemma decode_with_inv buf ctx profile p :
  bytes buf → decode_with buf ctx profile = Ok p →
  ∃ lower meta, len buf = sc_bytes (ctx_size_class ctx) ∧ wf_lower lower ∧
    slice buf 0 (len (lower_bytes lower)) = lower_bytes lower ∧
    len (lower_bytes lower) + 4 ≤ len buf ∧
    interpret_lower buf ctx profile (len buf - 4) lower = Ok (p, meta) ∧
    from_be (slice buf (len buf - 4) (len buf)) = compute_crc ctx (slice buf 0
      (if is_unchecked profile (lower_packet_type lower) then meta else len buf - 4)).
Proof.
  intros Hb H0. unfold decode_with in H0. apply bind_Ok in H0 as (u & [Hg _]%fail_if_Ok & H0).
  apply bind_Ok in H0 as (lower & Hl & H0).
  apply parse_lower_sound in Hl as (Hwf & Hs & Hle); [| done].
  unfold finish_decode, sub_or_panic, checked_sub in H0. lens.
  replace (4 <=? len buf) with true in H0 by lia. cbn [expect] in H0. rewrite bind_Ok_l in H0.
  apply bind_Ok in H0 as ([q meta] & Hi & H0).
  rewrite (get_slice_eq buf (len buf - 4)), bind_Ok_l in H0 by lia.
  rewrite try_from_be_eq, bind_Ok_l in H0 by (rewrite len_slice; lia).
  apply bind_Ok in H0 as (cv & (_ & _ & _ & ->)%get_slice_Ok & H0).
  apply bind_Ok in H0 as (v & [Hc _]%fail_if_Ok & <-%Ok_inj).
  exists lower, meta. split_and!; try done; lia.
Qed.

Lemma unchecked_datagram profile lower :
  is_unchecked profile (lower_packet_type lower) = true →
  (∃ tid sid probe, lower = LDatagram tid sid probe) ∧
  ∃ sp, profile = Some sp ∧ sp_unchecked_payload sp = true.
Proof.
  unfold is_unchecked. intros [Hp Hty%bool_decide_eq_true]%andb_true_iff. split.
  - destruct lower; try discriminate Hty; try (by destruct end_); try (by destruct ack). eauto.
  - destruct profile as [sp |]; [| done]. apply andb_true_iff in Hp as [_ ?]. eauto.
Qed.

Lemma len_datagram_prefix tid sid probe :
  wf_lower (LDatagram tid sid probe) → len (lower_bytes (LDatagram tid sid probe)) = 12.
Proof. intros (_ & _ & Hl & _). unfold lower_bytes. len_goal. Qed.

Lemma interpret_meta buf ctx profile lower p meta :
  bytes buf → wf_lower lower → slice buf 0 (len (lower_bytes lower)) = lower_bytes lower →
  len (lower_bytes lower) + 4 ≤ len buf →
  interpret_lower buf ctx profile (len buf - 4) lower = Ok (p, meta) →
  0 ≤ (if is_unchecked profile (lower_packet_type lower) then meta else len buf - 4) ≤ len buf.
Proof.
  intros Hb Hwf Hs Hl Hi. lens. destruct (is_unchecked _ _) eqn:Hun; [| lia].
  apply unchecked_datagram in Hun as [(tid & sid & probe & ->) _].
  rewrite (len_datagram_prefix _ _ _ Hwf) in *.
  apply interpret_datagram_sound in Hi; [| done | lia | lia | done | done].
  destruct Hi as (sp & seq & data & k & _ & _ & _ & _ & _ & _ & _ & _ & _ & _ & _ & ->).
  rewrite len_datagram_opts. repeat case_match; lia.
Qed.

(** Decoding arbitrary octets in any context never panics. *)
Lemma gts_decode_no_panic buf ctx profile :
  bytes buf → no_panic (decode_with buf ctx profile).
Proof.
  intros Hb. unfold decode_with. apply no_panic_bind; [auto with nopanic |]. intros u [Hg _]%fail_if_Ok.
  apply no_panic_bind; [by apply parse_lower_no_panic |].
  intros lower (Hwf & Hs & Hle)%parse_lower_sound; [| done].
  unfold finish_decode, sub_or_panic, checked_sub. lens.
  replace (4 <=? len buf) with true by lia. cbn [expect]. rewrite bind_Ok_l.
  apply no_panic_bind; [by apply interpret_no_panic |]. intros [p meta] Hi.
  apply interpret_meta in Hi as [? ?]; [| done..].
  rewrite (get_slice_eq buf (len buf - 4)), bind_Ok_l by lia.
  apply no_panic_bind; [auto with nopanic |]. intros got _.
  apply no_panic_bind; [by apply no_panic_get_slice | auto with nopanic].
Qed.

(** Interpretation keeps the packet type. *)
Lemma interpret_type buf ctx profile off lower p meta :
  interpret_lower buf ctx profile off lower = Ok (p, meta) →
  packet_type p = lower_packet_type lower.
Proof.
  intros Hi. destruct lower; cbn [interpret_lower] in Hi;
    repeat match type of Hi with
    | mbind _ _ = Ok _ => apply bind_Ok in Hi as (? & _ & Hi); cbv beta in Hi
    | match ?x with pair _ _ => _ end = Ok _ => destruct x; cbv beta zeta in Hi
    | (let _ := _ in _) = Ok _ => cbv zeta in Hi
    | Ok _ = Ok _ => apply Ok_inj, pair_inv in Hi as [<- _]
    end; done.
Qed.

(** The encoding of payload packets is canonical: a frame that decodes to
    a DATA or DATAGRAM is bit for bit the frame the encoder emits for it, so a
    receiver accepts no second representation of a payload. *)
Theorem gts_payload_canonical buf ctx profile p :
  bytes buf → decode_with buf ctx profile = Ok p → is_payload p = true →
  wf_packet p ∧ encode_with p ctx profile = Ok buf.
Proof.
  intros Hb Hd Hp. destruct (decode_with_inv _ _ _ _ Hb Hd)
    as (lower & meta & Hlen & Hwf & Hs & Hle & Hi & Hcrc).
  assert (Hlow : ∃ tid sid, (∃ seq e probe, lower = LData tid sid seq e probe) ∨
    ∃ probe, lower = LDatagram tid sid probe).
  { apply interpret_type in Hi. destruct p as [| | | | ? ? ? ? [] | | | | | |]; try done;
      destruct lower; eauto 7; try discriminate Hi; by destruct ack. }
  destruct Hlow as (tid & sid & [(seq & e & probe & ->) | (probe & ->)]).
  - assert (Hl12 : len (lower_bytes (LData tid sid seq e probe)) = 12) by done. rewrite Hl12 in *.
    rewrite is_unchecked_other in Hcrc by (by destruct e).
    apply interpret_data_sound in Hi; [| done | lia | lia | done | done].
    destruct Hi as (sp & data & k & -> & -> & Hv & Hu & Hcv & Hbd & Hk & Hk0 & Hbody).
    destruct Hwf as (Ht & Hsd & Hsq & _).
    assert (Hwp : wf_packet (Data tid sid seq data e)) by done. split; [done |].
    apply (payload_frame_encodes _ _ _ k); try done; [by intros ? <-%Some_inj | | lia].
    apply (f_equal len) in Hbody. cbn [payload_body] in Hbody. unfold data_rest in Hbody.
    rewrite !len_app, len_slice, len_zeros in Hbody. autorewrite with len in Hbody.
    exists (10 + (if sp_variable sp || e then 2 else 0) + len data + 4). cbn [minimum_len ok_or].
    rewrite bind_Ok_l, Hu. split; [done |]. lens. split; [destruct (_ || _); autorewrite with len in *; lia |].
    intros ? <-%Some_inj. split; [done |]. intros Ev. rewrite (Hk0 Ev), Ev in Hbody. change (len []) with 0 in Hbody.
    rewrite Ev. lia.
  - rewrite (len_datagram_prefix _ _ _ Hwf) in *.
    apply interpret_datagram_sound in Hi; [| done | lia | lia | done | done].
    destruct Hi as (sp & seq & data & k & -> & -> & Hv & Hu & Hcv & Hbd & Hsu & Hsq & Hk & Hk0 & Hbody & ->).
    unfold is_unchecked in Hcrc. rewrite Hu, bool_decide_eq_true_2, andb_true_r in Hcrc by done.
    destruct Hwf as (Ht & Hsd & _).
    assert (Hwp : wf_packet (Datagram tid sid seq data)) by done. split; [done |].
    pose proof (f_equal len Hbody) as Hbl. cbn [payload_body] in Hbl.
    rewrite !len_app, len_slice, len_zeros, len_datagram_opts in Hbl. autorewrite with len in Hbl. lens.
    apply (payload_frame_encodes _ _ _ k); try done; [by intros ? <-%Some_inj | | lia
      | rewrite len_datagram_opts; repeat case_match; lia].
    exists (6 + (if sp_sequenced sp then 4 else 0) + (if sp_variable sp then 2 else 0) + len data + 4).
    cbn [minimum_len ok_or]. rewrite bind_Ok_l, Hu. split; [done |].
    split; [repeat case_match; lia |].
    intros ? <-%Some_inj. split; [done |]. intros Ev. rewrite (Hk0 Ev), Ev in Hbl. rewrite Ev. lia.
Qed.
End decode.

(** ** Witnesses *)

Definition wctx (c : SizeClass) : GtsContext := mkContext 0 c 0x1000000020003 0x1000000040005.
Definition wprofile : StreamProfile := unreliable_variable Msg128 Bidirectional true true.

Lemma gts_size_class_exact_witness :
  (∀ ctx, ctx_size_class ctx = Ctrl32 →
     ∃ w, encode_packet (Datagram 9 1 (Some 7) [1; 2; 3]) ctx (Some wprofile) = Ok w) ∧
  (∀ ctx w, encode_packet (Datagram 9 1 (Some 7) [1; 2; 3]) ctx (Some wprofile) = Ok w →
     2 ≤ sc_index (ctx_size_class ctx)).
Proof.
  refine (gts_size_class_exact (H := handwritten_codec) (Datagram 9 1 (Some 7) [1; 2; 3])
    (Some wprofile) _ _).
  - cbn. split_and!; try ulia; [repeat constructor; ulia |]. intros ? [= <-]. ulia.
  - intros sp <-%Some_inj. split; reflexivity.
Defined.

Definition wframe : list Z := Eval vm_compute in
  match encode_packet (Datagram 9 1 (Some 7) [1; 2; 3]) (wctx Ctrl32) (Some wprofile) with
  | Ok w => w | _ => [] end.

Definition wframe' : list Z := Eval vm_compute in
  match encode_packet (Datagram 9 1 (Some 7) [1; 2; 4]) (wctx Ctrl32) (Some wprofile) with
  | Ok w => w | _ => [] end.

Lemma gts_unchecked_payload_uncovered_witness :
  encode_packet (Datagram 9 1 (Some 7) [1; 2; 3]) (wctx Ctrl32) (Some wprofile) = Ok wframe ∧
  encode_packet (Datagram 9 1 (Some 7) [1; 2; 4]) (wctx Ctrl32) (Some wprofile) = Ok wframe' ∧
  let crc_off := sc_bytes (ctx_size_class (wctx Ctrl32)) - 4 in
  slice wframe crc_off (crc_off + 4) = slice wframe' crc_off (crc_off + 4).
Proof.
  assert (E1 : encode_packet (Datagram 9 1 (Some 7) [1; 2; 3]) (wctx Ctrl32) (Some wprofile)
    = Ok wframe) by (vm_compute; reflexivity).
  assert (E2 : encode_packet (Datagram 9 1 (Some 7) [1; 2; 4]) (wctx Ctrl32) (Some wprofile)
    = Ok wframe') by (vm_compute; reflexivity).
  split; [exact E1 |]. split; [exact E2 |].
  apply (gts_unchecked_payload_uncovered (H := handwritten_codec) (wctx Ctrl32) wprofile 9 1 (Some 7)
    [1; 2; 3] [1; 2; 4]); [reflexivity | reflexivity | | | exact E1 | exact E2];
    (cbn; split_and!; [ulia | ulia | repeat constructor; ulia | intros ? [= <-]; ulia]).
Defined.

Lemma gts_payload_canonical_witness :
  decode_packet wframe (wctx Ctrl32) (Some wprofile) = Ok (Datagram 9 1 (Some 7) [1; 2; 3]) ∧
  wf_packet (Datagram 9 1 (Some 7) [1; 2; 3]) ∧
  encode_packet (Datagram 9 1 (Some 7) [1; 2; 3]) (wctx Ctrl32) (Some wprofile) = Ok wframe.
Proof.
  assert (E : decode_packet wframe (wctx Ctrl32) (Some wprofile)
    = Ok (Datagram 9 1 (Some 7) [1; 2; 3])) by (vm_compute; reflexivity).
  split; [exact E |].
  apply (gts_payload_canonical (H := handwritten_codec)); [| exact E | reflexivity].
  repeat constructor; ulia.
Defined.
