(* ===== verification/NoPanic.v ===== *)
(** * The encoders do not panic

    Encoding a GDP packet, a GCTL message or a GTS packet returns a value or
    an error whatever the fields hold. *)
From stdpp Require Import prelude.
From Stdlib Require Import ZArith Lia.
From S2P Require Import Prelude Css GdpWire Gctl GtsWire GtsCodec GtsCodecSound.
Local Open Scope Z_scope.

Lemma no_panic_copy_at {A} (l : list A) a src :
  0 ≤ a → a + len src ≤ len l → no_panic (copy_at l a src).
Proof. intros. by rewrite copy_at_eq. Qed.

Lemma res_sat_copy_at {A} (l : list A) a src :
  0 ≤ a → a + len src ≤ len l → res_sat (λ o, len o = len l) (copy_at l a src).
Proof. intros. rewrite copy_at_eq by done. cbn. by apply len_splice. Qed.

(** Arithmetic on lengths behind a postcondition. *)
Ltac rlia := cbv beta in *; cbn [fst snd] in *; rewrite ?len_to_be, ?len_zeros in *; lia.

(** ** GCTL and GDP *)

Lemma no_panic_encode_exact m total : no_panic (encode_exact m total).
Proof.
  apply res_sat_no_panic. unfold encode_exact.
  eapply res_sat_bind; [apply res_sat_fail_if |]. intros [] Hg. apply orb_false_elim, proj2 in Hg.
  unfold gctl_encoded_len in Hg. pose proof (len_nonneg (gm_body m)).
  assert (Ht : 8 + len (gm_body m) ≤ total) by lia. clear Hg. cbv zeta.
  assert (Hz : len (zeros total) = total) by (rewrite len_zeros; lia).
  do 4 (eapply res_sat_bind; [apply res_sat_copy_at; [lia | change (len [?x]) with 1; lia] |];
        intros ? Hl; rewrite Hz in Hl; clear Hz; rename Hl into Hz).
  eapply res_sat_bind; [apply res_sat_copy_at; rlia |]. intros o Hl. cbv beta in Hl, Hz. rewrite Hz in Hl.
  eapply res_sat_mono; [apply res_sat_copy_at; rlia | done].
Qed.

Lemma packet_encode_no_panic p cfg : no_panic (packet_encode p cfg).
Proof.
  apply res_sat_no_panic. unfold packet_encode.
  pose proof (header_len_pos (pkt_header p)) as Hh. pose proof (len_nonneg (pkt_payload p)).
  eapply res_sat_bind; [apply (res_sat_intro (λ q, q = p)) |].
  { unfold packet_new. auto with nopanic. }
  { unfold packet_new. intros q (_ & _ & <-%Ok_inj)%bind_Ok. by destruct p. }
  intros q ->. eapply (res_sat_bind (λ _, True)); [| by intros []].
  unfold packet_encode_into. cbv zeta. set (out := zeros _).
  assert (Ho : len out = header_len (pkt_header p) + len (pkt_payload p)).
  { unfold out. rewrite len_zeros. lia. }
  clearbody out. eapply res_sat_bind; [apply res_sat_fail_if |]. intros _ _.
  eapply (res_sat_bind (λ x, len x.1 = len out ∧ x.2 = header_len (pkt_header p))).
  - unfold encode_header_into. do 2 (eapply res_sat_bind; [apply res_sat_fail_if | intros _ _]). cbv zeta.
    eapply res_sat_bind; [apply res_sat_fail_if | intros _ _].
    eapply res_sat_bind; [apply res_sat_copy_at; rlia |]. intros o1 H1.
    eapply (res_sat_bind (λ o, len o = len out)); [| by intros o ?].
    unfold header_len in *. destruct (hdr_addresses (pkt_header p)).
    + eapply res_sat_bind; [apply res_sat_copy_at; rlia |]. intros o2 H2.
      eapply res_sat_mono; [apply res_sat_copy_at; rlia |]. rlia.
    + eapply res_sat_mono; [apply res_sat_copy_at; rlia |]. rlia.
  - intros [o hl] [H1 H2]. cbn [fst snd] in *. subst hl.
    eapply res_sat_bind; [apply res_sat_copy_at; rlia | done].
Qed.

(** ** GTS *)

Lemma css_encode_no_panic s : wf_selector s → no_panic (Css.encode s).
Proof.
  intros Hs. destruct (decide (sel s = zeros 16)) as [E | E].
  - unfold Css.encode, encoded_len, canonical_wire. by rewrite E.
  - destruct (css_encode_decode s [] Hs E) as (w & -> & _). apply no_panic_Ok.
Qed.

(** The frame's lower packet: any of them except a datagram with a probe of
    the wrong length. *)
Definition probe_ok (l : GtsLowerPacket) : Prop :=
  match l with LDatagram _ _ o => len o = 6 | _ => True end.

Lemma lower_encodes l :
  probe_ok l → handwritten_encode_lower l = Ok (lower_bytes l).
Proof.
  intros Hp. destruct l; try reflexivity; try (by destruct end_); try (by destruct ack).
  cbn [probe_ok] in Hp. explode option_probe Hp. reflexivity.
Qed.

Lemma no_panic_prefix ty : no_panic (lower_prefix_len ty).
Proof. by destruct ty. Qed.

Lemma no_panic_zero_tail total l : no_panic (zero_tail total l).
Proof.
  unfold zero_tail. apply no_panic_bind; [auto with nopanic |]. intros o _.
  apply no_panic_bind; [apply no_panic_prefix | auto with nopanic].
Qed.

Lemma no_panic_sp_to_wire p : no_panic (sp_to_wire p).
Proof. unfold sp_to_wire, sp_validate. auto with nopanic. Qed.

(** The selector of a CONNECT is sixteen octets. *)
Definition packet_ok (p : GtsPacket) : Prop :=
  match p with Connect _ _ _ _ css => wf_selector css | _ => True end.

(** What [prepare_parts] returns. *)
Definition parts_sat (x : GtsLowerPacket * list Z * Z) : Prop := probe_ok x.1.1 ∧ 0 ≤ x.2.

Lemma padded_sat total l off :
  probe_ok l → 0 ≤ off → res_sat parts_sat (tail ← zero_tail total l; Ok (l, tail, off)).
Proof.
  intros Hp Ho. eapply (res_sat_bind (λ _, True)); [apply res_sat_no_panic, no_panic_zero_tail |].
  intros t _. by split.
Qed.

Lemma checked_sat sp (b : StreamProfile → bool) e {A} (f : StreamProfile → res A) Q :
  res_sat Q (f sp) → res_sat Q (sp ← sp_validate sp; fail_if (b sp) e;; f sp).
Proof.
  intros Hf. unfold sp_validate. destruct (_ && _); [done |]. cbn [fail_if]. rewrite !bind_Ok_l.
  by destruct (b sp).
Qed.

Lemma prepare_data_sat ctx profile off tid sid seq data end_ :
  res_sat parts_sat (prepare_data ctx profile off tid sid seq data end_).
Proof.
  unfold prepare_data. pose proof (len_nonneg data).
  eapply (res_sat_bind (λ _, True)); [apply res_sat_no_panic; auto with nopanic |]. intros sp _.
  eapply (res_sat_bind (λ _, True)); [apply res_sat_no_panic; unfold sp_validate; auto with nopanic |].
  intros sp' _. eapply (res_sat_bind (λ _, True)); [apply res_sat_no_panic; auto with nopanic |].
  intros _ _. eapply res_sat_bind; [apply res_sat_fail_if |]. intros [] Ho. cbv zeta.
  eapply (res_sat_bind (λ x, len x.1 = off - 10 ∧ 0 ≤ x.2)).
  { destruct (_ || _); [| cbn; rewrite len_zeros; lia].
    eapply res_sat_bind; [apply res_sat_fail_if |]. intros _ _.
    eapply res_sat_bind; [apply res_sat_copy_at; rlia |].
    intros r Hr. cbn. rewrite len_zeros in Hr. lia. }
  intros [rest pos] [Hr Hp]. cbn [fst snd] in *.
  eapply res_sat_bind; [apply res_sat_fail_if |]. intros [] Hf.
  eapply res_sat_bind; [apply res_sat_copy_at; rlia |]. intros rest' Hr'.
  eapply (res_sat_bind (λ _, True)); [apply res_sat_no_panic; auto with nopanic |]. intros _ _.
  do 2 (eapply (res_sat_bind (λ _, True)); [apply res_sat_no_panic, no_panic_get_index; rlia | intros ? _]).
  eapply (res_sat_bind (λ _, True)); [by apply res_sat_no_panic, no_panic_from_be_bytes |]. intros pb _.
  rewrite get_slice_eq by rlia. cbn. split; [done |]. cbn. rlia.
Qed.

Lemma prepare_datagram_sat ctx profile off tid sid sequence data :
  res_sat parts_sat (prepare_datagram ctx profile off tid sid sequence data).
Proof.
  unfold prepare_datagram. pose proof (len_nonneg data).
  eapply (res_sat_bind (λ _, True)); [apply res_sat_no_panic; auto with nopanic |]. intros sp _.
  eapply (res_sat_bind (λ _, True)); [apply res_sat_no_panic; unfold sp_validate; auto with nopanic |].
  intros sp' _. eapply (res_sat_bind (λ _, True)); [apply res_sat_no_panic; auto with nopanic |].
  intros _ _. eapply res_sat_bind; [apply res_sat_fail_if |]. intros [] Ho. cbv zeta.
  eapply (res_sat_bind (λ x, len x.1 = off - 6 ∧ 0 ≤ x.2 ≤ 4)).
  { destruct (sp_sequenced sp').
    - eapply (res_sat_bind (λ _, True)); [apply res_sat_no_panic; auto with nopanic |]. intros seq _.
      eapply res_sat_bind; [apply res_sat_copy_at; rlia |].
      intros r Hr. cbn. rewrite len_zeros in Hr. lia.
    - eapply res_sat_bind; [apply res_sat_fail_if |]. intros _ _. cbn. rewrite len_zeros. lia. }
  intros [rest pos] [Hr Hp]. cbn [fst snd] in *.
  eapply (res_sat_bind (λ x, len x.1 = off - 6 ∧ 0 ≤ x.2)).
  { destruct (sp_variable sp'); [| cbn; lia].
    eapply res_sat_bind; [apply res_sat_fail_if |]. intros _ _.
    eapply res_sat_bind; [apply res_sat_copy_at; rlia |].
    intros r Hr'. cbn. rlia. }
  intros [rest' pos'] [Hr' Hp']. cbn [fst snd] in *.
  eapply res_sat_bind; [apply res_sat_fail_if |]. intros [] Hf.
  eapply res_sat_bind; [apply res_sat_copy_at; rlia |]. intros r Hr2.
  eapply (res_sat_bind (λ _, True)); [apply res_sat_no_panic; auto with nopanic |]. intros _ _.
  rewrite !get_slice_eq by rlia. cbn. unfold parts_sat. cbn. rewrite len_slice.
  cbv beta in Hr2. split; [lia |]. destruct (sp_unchecked_payload sp'); lia.
Qed.

Lemma prepare_parts_sat p ctx profile off :
  packet_ok p → 0 ≤ off → res_sat parts_sat (prepare_parts p ctx profile off).
Proof.
  intros Hp Ho. destruct p; cbn [prepare_parts packet_ok] in *;
    try (by apply padded_sat); try apply prepare_data_sat; try apply prepare_datagram_sat;
    match goal with |- context [fail_if (_ && negb (?c =? 0))] =>
      apply (checked_sat _ (λ sp, sp_unreliable sp && negb (c =? 0))) end;
    (eapply (res_sat_bind (λ _, True)); [apply res_sat_no_panic, no_panic_sp_to_wire |]); intros w _;
    [| by apply padded_sat].
  eapply (res_sat_bind (λ _, True)); [apply res_sat_no_panic, no_panic_zero_tail |]. intros t _.
  eapply (res_sat_bind (λ _, True)); [by apply res_sat_no_panic, css_encode_no_panic |]. intros c _.
  eapply res_sat_bind; [apply res_sat_fail_if |]. intros [] Hl.
  eapply res_sat_bind; [apply res_sat_copy_at; rlia |]. by intros.
Qed.

Lemma encode_packet_no_panic p ctx profile : packet_ok p → no_panic (encode_packet p ctx profile).
Proof.
  intros Hp. apply res_sat_no_panic. unfold encode_packet, encode_with.
  eapply (res_sat_bind (λ plan, probe_ok (plan_lower plan) ∧ 0 ≤ plan_crc_coverage_end plan ≤
    sc_bytes (ctx_size_class ctx) - 4)).
  - unfold prepare_encode. cbv zeta. eapply res_sat_bind; [apply res_sat_ok_or |]. intros off Hoff.
    unfold checked_sub in Hoff. destruct (Z.leb_spec 4 (sc_bytes (ctx_size_class ctx))); [| done].
    apply Some_inj in Hoff. subst off.
    eapply res_sat_bind; [apply prepare_parts_sat; [done | lia] |]. intros [[l t] c] [Hl Hc].
    eapply (res_sat_bind (λ _, True)); [apply res_sat_no_panic, no_panic_prefix |]. intros n _.
    eapply res_sat_bind; [apply res_sat_fail_if |]. intros [] [_ Hg]%orb_false_iff. cbn in *. split; [done | lia].
  - intros plan [Hl Hc]. unfold finish_encode. cbv zeta.
    eapply res_sat_bind; [apply res_sat_ok_or |]. intros off Hoff.
    unfold checked_sub in Hoff. destruct (Z.leb_spec 4 (sc_bytes (ctx_size_class ctx))); [| done].
    apply Some_inj in Hoff. subst off.
    eapply (res_sat_bind (λ n, 0 ≤ n)); [by destruct (lower_packet_type _) |]. intros n Hn.
    unfold encode_lower, handwritten_encoder. rewrite lower_encodes, bind_Ok_l by done.
    eapply res_sat_bind; [apply res_sat_fail_if |]. intros [] Hg. apply orb_false_iff in Hg as [H1 H2].
    pose proof (len_nonneg (plan_tail plan)).
    eapply res_sat_bind; [apply res_sat_copy_at; rewrite ?len_zeros; lia |]. intros o1 Ho1.
    rewrite len_zeros in Ho1.
    eapply res_sat_bind; [apply res_sat_copy_at; rlia |]. intros o2 Ho2.
    rewrite get_slice_eq, bind_Ok_l by rlia.
    eapply res_sat_mono; [apply res_sat_copy_at; rlia | done].
Qed.

Lemma choose_size_class_no_panic p profile : packet_ok p → no_panic (choose_size_class p profile).
Proof.
  intros Hp. assert (Hm : no_panic (minimum_len p profile)).
  { destruct p; cbn [minimum_len packet_ok] in *; try done;
      try (apply no_panic_bind; [by apply css_encode_no_panic | done]); auto with nopanic. }
  assert (Hf : no_panic (n ← minimum_len p profile; ok_or (smallest_for n) MessageTooLarge))
    by auto with nopanic.
  assert (Hv : ∀ sp, profile = Some sp → no_panic (choose_variable p sp)).
  { intros sp ->. unfold choose_variable. auto with nopanic. }
  unfold choose_size_class. destruct profile as [sp |]; [| done].
  destruct p; try done; destruct (negb _); auto.
  all: apply no_panic_bind; [done |]; intros; try (destruct end_); auto with nopanic.
Qed.
