(* ===== verification/Dlp.v ===== *)
(** * The link endpoint (src/src/dlp.rs)

    Virtual channels, transmit queues with credit, flit emission, flit and
    frame reception with per-channel reassembly. *)
From stdpp Require Import prelude.
From Stdlib Require Import ZArith Lia.
From S2P Require Import Prelude GdpWire.
Local Open Scope Z_scope.

Inductive VcMode : Set := Two | Four.
Definition vc_mode_count (self : VcMode) : Z := match self with Two => 2 | Four => 4 end.

(** [Vcid(u8)], a number below four. *)
Definition Vcid_CONTROL : Z := 0.
Definition vcid_new (v : Z) : res Z := if v <? 4 then Ok v else Err InvalidField.
Definition is_control (vc : Z) : bool := vc =? 0.

Record Flit : Set := mkFlit { fl_vcid : Z; fl_data : Z }.

Inductive LinkTraffic : Set := TControl | TrData.
#[export] Instance LinkTraffic_eq_dec : EqDecision LinkTraffic.
Proof. solve_decision. Defined.

Record GnetFrame : Set := mkFrame { gf_vcid : Z; gf_traffic : LinkTraffic; gf_bytes : list Z }.
Definition flit_len (bs : list Z) : Z := (len bs + 3) / 4.

Record DlpConfig : Set := mkConfig {
  dc_gdp : GdpWireConfig;
  dc_local_prefix : Z;
  dc_vc_mode : VcMode;
  dc_rx_buffer_flits : Z;
  dc_control_window_flits : Z }.

Definition config_new (rx_buffer_flits : Z) (vc_mode : VcMode) : res DlpConfig :=
  fail_if (rx_buffer_flits =? 0) InvalidField;;
  Ok {| dc_gdp := GdpWireConfig_default; dc_local_prefix := 0; dc_vc_mode := vc_mode;
        dc_rx_buffer_flits := rx_buffer_flits; dc_control_window_flits := 32 |}.

Record TxFrame : Set := mkTx {
  tx_vcid : Z; tx_traffic : LinkTraffic; tx_bytes : list Z; tx_flit_offset : Z }.

Definition tx_flit_len (self : TxFrame) : Z := (len (tx_bytes self) + 3) / 4.
Definition remaining_flits (self : TxFrame) : Z :=
  saturating_sub (tx_flit_len self) (tx_flit_offset self).

Definition next_flit (self : TxFrame) : res (TxFrame * option Flit) :=
  if tx_flit_len self <=? tx_flit_offset self then Ok (self, None)
  else
    let start := tx_flit_offset self * 4 in
    let end_ := Z.min (start + 4) (len (tx_bytes self)) in
    chunk ← get_slice (tx_bytes self) start end_;
    word ← copy_at (zeros 4) 0 chunk;
    Ok ({| tx_vcid := tx_vcid self; tx_traffic := tx_traffic self; tx_bytes := tx_bytes self;
           tx_flit_offset := tx_flit_offset self + 1 |},
        Some {| fl_vcid := tx_vcid self; fl_data := from_be word |}).

Definition into_frame (self : TxFrame) : res GnetFrame :=
  fail_if (negb (tx_flit_offset self =? 0)) InvalidState;;
  Ok {| gf_vcid := tx_vcid self; gf_traffic := tx_traffic self; gf_bytes := tx_bytes self |}.

Record RxSegment : Set := mkSeg {
  rs_bytes : list Z;
  rs_expected_bytes : Z;
  rs_expected_flits : Z;
  rs_received_flits : Z;
  rs_traffic : LinkTraffic }.

Record DlpEndpoint : Set := mkEndpoint {
  cfg : GdpWireConfig;
  local_prefix : Z;
  vc_mode : VcMode;
  rx_buffer_flits : Z;
  control_window_flits : Z;
  data_tx_credit : Z;
  control_tx_credit : Z;
  data_credit_outstanding : Z;
  data_rx_in_use : Z;
  control_tx_queue : list TxFrame;
  data_tx_queue : list TxFrame;
  rx : list (option RxSegment);
  desynchronized : list bool;
  next_data_vc : Z;
  link_up : bool }.

(** Assignments to fields. *)
Section setters.
Context (s : DlpEndpoint).
Definition set_prefix v :=
  mkEndpoint (cfg s) v (vc_mode s) (rx_buffer_flits s) (control_window_flits s) (data_tx_credit s)
    (control_tx_credit s) (data_credit_outstanding s) (data_rx_in_use s) (control_tx_queue s)
    (data_tx_queue s) (rx s) (desynchronized s) (next_data_vc s) (link_up s).
Definition set_data_tx (credit : Z) (queue : list TxFrame) :=
  mkEndpoint (cfg s) (local_prefix s) (vc_mode s) (rx_buffer_flits s) (control_window_flits s) credit
    (control_tx_credit s) (data_credit_outstanding s) (data_rx_in_use s) (control_tx_queue s)
    queue (rx s) (desynchronized s) (next_data_vc s) (link_up s).
Definition set_control_tx (credit : Z) (queue : list TxFrame) :=
  mkEndpoint (cfg s) (local_prefix s) (vc_mode s) (rx_buffer_flits s) (control_window_flits s)
    (data_tx_credit s) credit (data_credit_outstanding s) (data_rx_in_use s) queue
    (data_tx_queue s) (rx s) (desynchronized s) (next_data_vc s) (link_up s).
Definition set_rx_account (outstanding in_use : Z) :=
  mkEndpoint (cfg s) (local_prefix s) (vc_mode s) (rx_buffer_flits s) (control_window_flits s)
    (data_tx_credit s) (control_tx_credit s) outstanding in_use (control_tx_queue s)
    (data_tx_queue s) (rx s) (desynchronized s) (next_data_vc s) (link_up s).
Definition set_rx v :=
  mkEndpoint (cfg s) (local_prefix s) (vc_mode s) (rx_buffer_flits s) (control_window_flits s)
    (data_tx_credit s) (control_tx_credit s) (data_credit_outstanding s) (data_rx_in_use s)
    (control_tx_queue s) (data_tx_queue s) v (desynchronized s) (next_data_vc s) (link_up s).
Definition set_desync v :=
  mkEndpoint (cfg s) (local_prefix s) (vc_mode s) (rx_buffer_flits s) (control_window_flits s)
    (data_tx_credit s) (control_tx_credit s) (data_credit_outstanding s) (data_rx_in_use s)
    (control_tx_queue s) (data_tx_queue s) (rx s) v (next_data_vc s) (link_up s).
Definition set_next_data_vc v :=
  mkEndpoint (cfg s) (local_prefix s) (vc_mode s) (rx_buffer_flits s) (control_window_flits s)
    (data_tx_credit s) (control_tx_credit s) (data_credit_outstanding s) (data_rx_in_use s)
    (control_tx_queue s) (data_tx_queue s) (rx s) (desynchronized s) v (link_up s).
Definition set_link v :=
  mkEndpoint (cfg s) (local_prefix s) (vc_mode s) (rx_buffer_flits s) (control_window_flits s)
    (data_tx_credit s) (control_tx_credit s) (data_credit_outstanding s) (data_rx_in_use s)
    (control_tx_queue s) (data_tx_queue s) (rx s) (desynchronized s) (next_data_vc s) v.
End setters.

Definition no_segments : list (option RxSegment) := [None; None; None; None].
Definition no_desync : list bool := [false; false; false; false].

Definition endpoint_new (config : DlpConfig) : res DlpEndpoint :=
  fail_if ((dc_rx_buffer_flits config =? 0) || (dc_control_window_flits config =? 0)) InvalidField;;
  Ok {| cfg := dc_gdp config; local_prefix := clear_low16 (dc_local_prefix config);
        vc_mode := dc_vc_mode config; rx_buffer_flits := dc_rx_buffer_flits config;
        control_window_flits := dc_control_window_flits config; data_tx_credit := 0;
        control_tx_credit := 0; data_credit_outstanding := 0; data_rx_in_use := 0;
        control_tx_queue := []; data_tx_queue := []; rx := no_segments;
        desynchronized := no_desync; next_data_vc := 1; link_up := true |}.

Definition vc_count (self : DlpEndpoint) : Z := vc_mode_count (vc_mode self).
Definition available_rx_flits (self : DlpEndpoint) : Z :=
  saturating_sub (rx_buffer_flits self) (data_rx_in_use self).
Definition grantable_data_credit (self : DlpEndpoint) : Z :=
  saturating_sub (available_rx_flits self) (data_credit_outstanding self).

Definition note_data_credit_granted (count : Z) : st DlpEndpoint unit :=
  s ← gets id;
  guard_st (grantable_data_credit s <? count) BufferFull;;
  modify (λ s, set_rx_account s (saturating_add 32 (data_credit_outstanding s) count)
                 (data_rx_in_use s)).

Definition grant_data_tx_credit (count : Z) (s : DlpEndpoint) : DlpEndpoint :=
  set_data_tx s (saturating_add 32 (data_tx_credit s) count) (data_tx_queue s).
Definition grant_control_tx_credit (count : Z) (s : DlpEndpoint) : DlpEndpoint :=
  set_control_tx s (saturating_add 32 (control_tx_credit s) count) (control_tx_queue s).
Definition set_local_prefix (prefix : Z) (s : DlpEndpoint) : DlpEndpoint :=
  set_prefix s (clear_low16 prefix).

Definition set_link_up (up : bool) (s : DlpEndpoint) : DlpEndpoint :=
  let s := set_link s up in
  if up then s
  else
    let s := set_control_tx s 0 [] in
    let s := set_data_tx s 0 [] in
    let s := set_rx s no_segments in
    let s := set_desync s no_desync in
    set_rx_account s 0 0.

Definition queue_flits (queue : list TxFrame) : Z :=
  fold_right (λ f n, remaining_flits f + n) 0 queue.
Definition queued_data_flits (s : DlpEndpoint) : Z := queue_flits (data_tx_queue s).
Definition queued_control_flits (s : DlpEndpoint) : Z := queue_flits (control_tx_queue s).
Definition queued_flits (s : DlpEndpoint) : Z := queued_control_flits s + queued_data_flits s.

Definition choose_data_vc : st DlpEndpoint Z := λ s,
  let count := vc_count s in
  let vc := next_data_vc s in
  let next := next_data_vc s + 1 in
  (set_next_data_vc s (if count <=? next then 1 else next), Ok vc).

(** The lane checks shared by [queue_packet_on] and [receive_frame]. *)
Definition lane_guards (s : DlpEndpoint) (traffic : LinkTraffic) (vcid : Z) : res unit :=
  fail_if (negb (link_up s)) LinkDown;;
  fail_if (vc_count s <=? vcid) InvalidField;;
  fail_if (bool_decide (traffic = TControl) && negb (is_control vcid)) InvalidField;;
  fail_if (bool_decide (traffic = TrData) && is_control vcid) InvalidField.

Definition queue_packet_on (traffic : LinkTraffic) (vcid : Z) (packet : GdpPacket)
    : st DlpEndpoint Z :=
  s ← gets id;
  lift (lane_guards s traffic vcid);;
  bs ← lift (packet_encode packet (cfg s));
  let n := (len bs + 3) / 4 in
  let frame := {| tx_vcid := vcid; tx_traffic := traffic; tx_bytes := bs; tx_flit_offset := 0 |} in
  modify (λ s, match traffic with
               | TControl => set_control_tx s (control_tx_credit s) (control_tx_queue s ++ [frame])
               | TrData => set_data_tx s (data_tx_credit s) (data_tx_queue s ++ [frame])
               end);;
  mret n.

Definition queue_control_packet (packet : GdpPacket) : st DlpEndpoint Z :=
  queue_packet_on TControl Vcid_CONTROL packet.
Definition queue_data_packet (packet : GdpPacket) : st DlpEndpoint Z :=
  vc ← choose_data_vc; queue_packet_on TrData vc packet.

(** ** Transmission

    The queue and the credit counter are borrowed together: both are the
    state of these functions. *)
Definition pop_sendable_frame : st (list TxFrame * Z) (option GnetFrame) := λ '(queue, credit),
  match queue with
  | [] => ((queue, credit), Ok None)
  | front :: rest =>
      if negb (tx_flit_offset front =? 0) then ((queue, credit), Err InvalidState)
      else
        let needed := tx_flit_len front in
        if credit <? needed then ((queue, credit), Ok None)
        else ((rest, credit - as_u32 needed), Some <$> into_frame front)
  end.

Definition on_control {A} : st (list TxFrame * Z) A → st DlpEndpoint A :=
  zoom (λ s, (control_tx_queue s, control_tx_credit s)) (λ '(q, c) s, set_control_tx s c q).
Definition on_data {A} : st (list TxFrame * Z) A → st DlpEndpoint A :=
  zoom (λ s, (data_tx_queue s, data_tx_credit s)) (λ '(q, c) s, set_data_tx s c q).

Definition queues_empty (s : DlpEndpoint) : bool :=
  match control_tx_queue s, data_tx_queue s with [], [] => true | _, _ => false end.

Definition poll_tx_frame : st DlpEndpoint (option GnetFrame) :=
  s ← gets id;
  guard_st (negb (link_up s)) LinkDown;;
  f ← on_control pop_sendable_frame;
  match f with
  | Some frame => mret (Some frame)
  | None =>
      f ← on_data pop_sendable_frame;
      match f with
      | Some frame => mret (Some frame)
      | None => s ← gets id; if queues_empty s then mret None else lift (Err NoCredit)
      end
  end.

(** The loop of [emit_queue_flits].  Each turn writes a flit or drops a spent
    frame, so [len out + length queue + 1] turns are enough. *)
Fixpoint emit_loop (fuel : nat) (queue : list TxFrame) (credit : Z) (out : list Flit) (written : Z)
    : res (list TxFrame * Z * (list Flit * Z)) :=
  match fuel with
  | O => Panic
  | S fuel =>
      if (written <? len out) && negb (credit =? 0) then
        match queue with
        | [] => Ok (queue, credit, (out, written))
        | front :: rest =>
            '(front, f) ← next_flit front;
            match f with
            | None => emit_loop fuel rest credit out written
            | Some flit =>
                out ← copy_at out written [flit];
                let written := written + 1 in
                credit ← sub_or_panic credit 1;
                let queue := if remaining_flits front =? 0 then rest else front :: rest in
                emit_loop fuel queue credit out written
            end
        end
      else Ok (queue, credit, (out, written))
  end.

Definition emit_queue_flits (out : list Flit) : st (list TxFrame * Z) (list Flit * Z) :=
  λ '(queue, credit),
  match emit_loop (length out + length queue + 1) queue credit out 0 with
  | Ok (qc, r) => (qc, Ok r)
  | Err e => ((queue, credit), Err e)
  | Panic => ((queue, credit), Panic)
  end.

(** The new contents of [out] and the number of flits written. *)
Definition poll_tx_burst (out : list Flit) : st DlpEndpoint (list Flit * Z) :=
  s ← gets id;
  guard_st (negb (link_up s)) LinkDown;;
  if len out =? 0 then mret (out, 0)
  else
    '(out, control_n) ← on_control (emit_queue_flits out);
    tail ← lift (get_slice out control_n (len out));
    '(tail, data_n) ← on_data (emit_queue_flits tail);
    let out := take (Z.to_nat control_n) out ++ tail in
    let written := control_n + data_n in
    if negb (written =? 0) then mret (out, written)
    else
      s ← gets id;
      if queues_empty s then mret (out, 0) else lift (Err NoCredit).

Definition poll_tx : st DlpEndpoint (option Flit) :=
  '(one, n) ← poll_tx_burst [{| fl_vcid := Vcid_CONTROL; fl_data := 0 |}];
  if n =? 0 then mret None
  else if n =? 1 then f ← lift (get_index one 0); mret (Some f)
  else lift Panic.

(** ** Reception *)

Definition release_data_segment (flits : Z) (s : DlpEndpoint) : DlpEndpoint :=
  set_rx_account s (data_credit_outstanding s) (saturating_sub (data_rx_in_use s) (as_u32 flits)).

Definition receive_frame (frame : GnetFrame) : st DlpEndpoint GdpPacket :=
  s ← gets id;
  lift (lane_guards s (gf_traffic frame) (gf_vcid frame));;
  let flits := flit_len (gf_bytes frame) in
  (if bool_decide (gf_traffic frame = TrData) then
     guard_st (data_credit_outstanding s <? as_u32 flits) CreditViolation;;
     guard_st (available_rx_flits s <? as_u32 flits) BufferFull;;
     n ← lift (add_or_panic 32 (data_rx_in_use s) (as_u32 flits));
     modify (λ s, set_rx_account s (data_credit_outstanding s - as_u32 flits) n)
   else mret tt);;
  s ← gets id;
  let decoded := packet_decode (gf_bytes frame) (cfg s) (local_prefix s) in
  (if bool_decide (gf_traffic frame = TrData) then modify (release_data_segment flits) else mret tt);;
  lift decoded.

Definition segment_traffic (vcid : Z) : LinkTraffic := if is_control vcid then TControl else TrData.

(** The segment the first flit of a frame opens. *)
Definition open_segment (s : DlpEndpoint) (w : Z) (traffic : LinkTraffic) : res RxSegment :=
  size ← sc_from_wire (as_u8 (Z.land (Z.shiftr w 22) 0xf));
  let form := form_from_bit (cfg s) (negb (Z.land (Z.shiftr w 21) 1 =? 0)) in
  let header_len := match form with FormGlobal => 20 | FormLocal => 8 end in
  let total := header_len + sc_bytes size in
  Ok {| rs_bytes := []; rs_expected_bytes := total; rs_expected_flits := (total + 3) / 4;
        rs_received_flits := 0; rs_traffic := traffic |}.

(** The segment a flit extends; [self.rx[idx]] is filled when it was empty. *)
Definition receive_segment (s : DlpEndpoint) (flit : Flit) (traffic : LinkTraffic)
    (slot : option RxSegment) : st DlpEndpoint RxSegment :=
  match slot with
  | Some seg => mret seg
  | None =>
      match open_segment s (fl_data flit) traffic with
      | Ok seg => mret seg
      | Err e =>
          (if bool_decide (traffic = TrData) then modify (release_data_segment 1) else mret tt);;
          modify (λ s, set_desync s (<[Z.to_nat (fl_vcid flit) := true]> (desynchronized s)));;
          lift (Err e)
      | Panic => lift Panic
      end
  end.

(** Appending a flit, and delivery of the completed packet. *)
Definition receive_push (idx : nat) (w : Z) (traffic : LinkTraffic) (seg : RxSegment)
    : st DlpEndpoint (option GdpPacket) :=
  modify (λ s, set_rx s (<[idx := Some seg]> (rx s)));;
  guard_st (negb (bool_decide (rs_traffic seg = traffic))) InvalidState;;
  let seg := {| rs_bytes := rs_bytes seg ++ to_be 4 w;
                rs_expected_bytes := rs_expected_bytes seg;
                rs_expected_flits := rs_expected_flits seg;
                rs_received_flits := rs_received_flits seg + 1; rs_traffic := rs_traffic seg |} in
  modify (λ s, set_rx s (<[idx := Some seg]> (rx s)));;
  if rs_received_flits seg <? rs_expected_flits seg then mret None
  else
    modify (λ s, set_rx s (<[idx := None]> (rx s)));;
    let bs := take (Z.to_nat (rs_expected_bytes seg)) (rs_bytes seg) in
    (if bool_decide (rs_traffic seg = TrData)
     then modify (release_data_segment (rs_received_flits seg)) else mret tt);;
    s ← gets id;
    match packet_decode bs (cfg s) (local_prefix s) with
    | Ok packet => mret (Some packet)
    | Err e =>
        modify (λ s, set_desync s (<[idx := true]> (desynchronized s)));;
        lift (Err e)
    | Panic => lift Panic
    end.

Definition receive (flit : Flit) : st DlpEndpoint (option GdpPacket) :=
  s ← gets id;
  guard_st (negb (link_up s)) LinkDown;;
  let idx := fl_vcid flit in
  guard_st (vc_count s <=? idx) InvalidField;;
  d ← lift (get_index (desynchronized s) idx);
  guard_st d Desynchronized;;
  let traffic := segment_traffic (fl_vcid flit) in
  (if bool_decide (traffic = TrData) then
     guard_st (data_credit_outstanding s =? 0) CreditViolation;;
     guard_st (rx_buffer_flits s <=? data_rx_in_use s) BufferFull;;
     modify (λ s, set_rx_account s (data_credit_outstanding s - 1) (data_rx_in_use s + 1))
   else mret tt);;
  slot ← lift (get_index (rx s) idx);
  seg ← receive_segment s flit traffic slot;
  receive_push (Z.to_nat idx) (fl_data flit) traffic seg.

(** [packets] grows even when a later flit fails, so it is part of the state. *)
Fixpoint receive_burst_loop (flits : list Flit) : st (DlpEndpoint * list GdpPacket) unit :=
  match flits with
  | [] => mret tt
  | flit :: flits =>
      p ← zoom fst (λ e s, (e, s.2)) (receive flit);
      match p with
      | Some packet => modify (λ s, (s.1, s.2 ++ [packet]))
      | None => mret tt
      end;;
      receive_burst_loop flits
  end.

Definition receive_burst (flits : list Flit) : st (DlpEndpoint * list GdpPacket) Z :=
  before ← gets (λ s, len s.2);
  receive_burst_loop flits;;
  after ← gets (λ s, len s.2);
  lift (sub_or_panic after before).

Definition reset_vc (vcid : Z) : st DlpEndpoint unit :=
  s ← gets id;
  guard_st (vc_count s <=? vcid) InvalidField;;
  slot ← lift (get_index (rx s) vcid);
  modify (λ s, set_rx s (<[Z.to_nat vcid := None]> (rx s)));;
  match slot with
  | Some segment =>
      if bool_decide (rs_traffic segment = TrData)
      then modify (release_data_segment (rs_received_flits segment)) else mret tt
  | None => mret tt
  end;;
  modify (λ s, set_desync s (<[Z.to_nat vcid := false]> (desynchronized s))).

(** ** The endpoint invariant *)

(** Flits of ordinary data a receive slot holds. *)
Definition seg_flits (o : option RxSegment) : Z :=
  match o with
  | Some seg => if bool_decide (rs_traffic seg = TrData) then rs_received_flits seg else 0
  | None => 0
  end.
Definition rx_flits (l : list (option RxSegment)) : Z := fold_right (λ o n, seg_flits o + n) 0 l.

Definition seg_ok (vcs i : Z) (seg : RxSegment) : Prop :=
  i < vcs ∧ rs_traffic seg = segment_traffic i ∧
  0 ≤ rs_received_flits seg < rs_expected_flits seg ∧
  rs_expected_flits seg = (rs_expected_bytes seg + 3) / 4 ∧ 8 ≤ rs_expected_bytes seg ≤ 8212 ∧
  len (rs_bytes seg) = 4 * rs_received_flits seg ∧ bytes (rs_bytes seg).

Definition tx_ok (vcs : Z) (traffic : LinkTraffic) (f : TxFrame) : Prop :=
  tx_traffic f = traffic ∧ 0 ≤ tx_vcid f < vcs ∧ segment_traffic (tx_vcid f) = traffic ∧
  0 ≤ tx_flit_offset f < tx_flit_len f.

(** Only the front frame of a queue may be partly emitted. *)
Definition queue_ok (vcs : Z) (traffic : LinkTraffic) (q : list TxFrame) : Prop :=
  Forall (tx_ok vcs traffic) q ∧ Forall (λ f, tx_flit_offset f = 0) (tail q).

Record dlp_inv (s : DlpEndpoint) : Prop := {
  di_buffer : 0 < rx_buffer_flits s < 2 ^ 32;
  di_credit : u32 (data_tx_credit s) ∧ u32 (control_tx_credit s);
  di_outstanding : 0 ≤ data_credit_outstanding s;
  (** no more credit is outstanding than the buffer can absorb *)
  di_bound : data_credit_outstanding s + data_rx_in_use s ≤ rx_buffer_flits s;
  (** buffer accounting is exact: it counts the flits held in segments *)
  di_exact : data_rx_in_use s = rx_flits (rx s);
  di_slots : length (rx s) = 4%nat ∧ length (desynchronized s) = 4%nat;
  di_segs : ∀ i seg, rx s !! i = Some (Some seg) → seg_ok (vc_count s) (Z.of_nat i) seg;
  di_vc : 1 ≤ next_data_vc s < vc_count s;
  di_control_q : queue_ok (vc_count s) TControl (control_tx_queue s);
  di_data_q : queue_ok (vc_count s) TrData (data_tx_queue s);
  di_prefix : u64 (local_prefix s) }.

Lemma vc_count_range s : 2 ≤ vc_count s ≤ 4.
Proof. unfold vc_count. destruct (vc_mode s); cbn; lia. Qed.

Lemma rx_flits_cons o l : rx_flits (o :: l) = seg_flits o + rx_flits l.
Proof. done. Qed.

Lemma rx_flits_insert l i o o' :
  l !! i = Some o → rx_flits (<[i:=o']> l) = rx_flits l - seg_flits o + seg_flits o'.
Proof.
  revert i. induction l as [| x l IH]; intros [| i] H; try done.
  - injection H as ->. change (<[0%nat:=o']> (o :: l)) with (o' :: l). rewrite !rx_flits_cons. lia.
  - change (<[S i:=o']> (x :: l)) with (x :: <[i:=o']> l). rewrite !rx_flits_cons, (IH i H). lia.
Qed.

Lemma seg_flits_nonneg vcs i seg : seg_ok vcs i seg → 0 ≤ seg_flits (Some seg).
Proof. intros (_ & _ & ? & _). cbn. case_bool_decide; lia. Qed.

Lemma rx_flits_nonneg l :
  (∀ i seg, l !! i = Some (Some seg) → 0 ≤ seg_flits (Some seg)) → 0 ≤ rx_flits l.
Proof.
  induction l as [| o l IH]; intros H; [done |]. rewrite rx_flits_cons.
  assert (0 ≤ rx_flits l) by (apply IH; intros i; apply (H (S i))).
  destruct o as [seg |]; [pose proof (H 0%nat seg eq_refl); lia | cbn [seg_flits]; lia].
Qed.

(** What one slot holds is part of the total. *)
Lemma rx_flits_ge l i o :
  (∀ i seg, l !! i = Some (Some seg) → 0 ≤ seg_flits (Some seg)) →
  l !! i = Some o → seg_flits o ≤ rx_flits l.
Proof.
  intros H Hi. pose proof (rx_flits_insert l i o None Hi) as E.
  enough (0 ≤ rx_flits (<[i:=None]> l)) by (cbn [seg_flits] in E; lia).
  apply rx_flits_nonneg. intros j seg Hj.
  apply list_lookup_insert_Some in Hj as [(_ & [=] & _) | [_ ?]]. by eapply H.
Qed.

Lemma clear_low16_u64 p : u64 p → u64 (clear_low16 p).
Proof. apply clear_low16_range. Qed.

Lemma endpoint_new_inv config s :
  u32 (dc_rx_buffer_flits config) → u64 (dc_local_prefix config) →
  endpoint_new config = Ok s → dlp_inv s ∧ link_up s = true ∧ data_credit_outstanding s = 0.
Proof.
  unfold endpoint_new. intros Hb Hp (u & [Hg _]%fail_if_Ok & <-%Ok_inj)%bind_Ok.
  split; [| done].
  split; cbn; try done; try (split; constructor); try ulia.
  - intros i seg Hi. do 4 (destruct i as [| i]; [done |]). done.
  - pose proof (vc_count_range (mkEndpoint (dc_gdp config) 0 (dc_vc_mode config) 0 0 0 0 0 0 [] [] [] [] 0 true)).
    unfold vc_count in *. cbn in *. lia.
  - by apply clear_low16_u64.
Qed.

(** *** Credit *)

Lemma grantable_eq s : dlp_inv s →
  grantable_data_credit s = rx_buffer_flits s - data_rx_in_use s - data_credit_outstanding s.
Proof.
  intros []. unfold grantable_data_credit, available_rx_flits. ulia.
Qed.

Lemma note_granted_eq count s :
  dlp_inv s → 0 ≤ count →
  note_data_credit_granted count s =
    if grantable_data_credit s <? count then (s, Err BufferFull)
    else (set_rx_account s (data_credit_outstanding s + count) (data_rx_in_use s), Ok tt).
Proof.
  intros Hi Hc. pose proof (grantable_eq s Hi). destruct Hi.
  unfold note_data_credit_granted, mbind, st_bind, gets, guard_st, lift, modify. cbn [id].
  destruct (Z.ltb_spec (grantable_data_credit s) count); cbn [fail_if]; [done |].
  do 2 f_equal. assert (0 ≤ data_rx_in_use s).
  { rewrite di_exact0. apply rx_flits_nonneg. intros. by eapply seg_flits_nonneg, di_segs0. }
  ulia.
Qed.

Lemma in_use_nonneg s : dlp_inv s → 0 ≤ data_rx_in_use s.
Proof.
  intros []. rewrite di_exact0. apply rx_flits_nonneg. intros. by eapply seg_flits_nonneg, di_segs0.
Qed.

Lemma note_granted_preserves count : 0 ≤ count → preserves dlp_inv (note_data_credit_granted count).
Proof.
  intros Hc s Hs. rewrite note_granted_eq by done. pose proof (grantable_eq s Hs).
  destruct (Z.ltb_spec (grantable_data_credit s) count); [done |]. destruct Hs.
  split; cbn; try done; lia.
Qed.

Lemma grant_data_inv count s : 0 ≤ count → dlp_inv s → dlp_inv (grant_data_tx_credit count s).
Proof. intros ? []. split; cbn; try done. ulia. Qed.
Lemma grant_control_inv count s : 0 ≤ count → dlp_inv s → dlp_inv (grant_control_tx_credit count s).
Proof. intros ? []. split; cbn; try done. ulia. Qed.
Lemma set_prefix_inv p s : u64 p → dlp_inv s → dlp_inv (set_local_prefix p s).
Proof. intros ? []. split; cbn; try done. by apply clear_low16_u64. Qed.
Lemma set_link_up_inv up s : dlp_inv s → dlp_inv (set_link_up up s).
Proof.
  intros Hs. destruct up; [destruct Hs; by split |]. destruct Hs.
  split; cbn; try done; try lia; try (split; by constructor).
  intros i seg Hi. do 4 (destruct i as [| i]; [done |]). done.
Qed.

(** *** Transmission *)

(** Flit [k] of an encoded frame: four octets, the last flit zero-padded. *)
Definition flit_word (bs : list Z) (k : Z) : list Z :=
  let chunk := slice bs (k * 4) (Z.min (k * 4 + 4) (len bs)) in
  chunk ++ zeros (4 - len chunk).
Definition flit_at (vcid : Z) (bs : list Z) (k : Z) : Flit := mkFlit vcid (from_be (flit_word bs k)).

Definition advance (f : TxFrame) : TxFrame :=
  mkTx (tx_vcid f) (tx_traffic f) (tx_bytes f) (tx_flit_offset f + 1).

Lemma next_flit_eq f :
  0 ≤ tx_flit_offset f < tx_flit_len f →
  next_flit f = Ok (advance f, Some (flit_at (tx_vcid f) (tx_bytes f) (tx_flit_offset f))).
Proof.
  unfold tx_flit_len. intros Hk. unfold next_flit, tx_flit_len.
  replace (_ <=? _) with false by lia. pose proof (len_nonneg (tx_bytes f)).
  assert (tx_flit_offset f * 4 < len (tx_bytes f)) by zdiv.
  rewrite get_slice_eq, bind_Ok_l by lia. rewrite copy_at_0, bind_Ok_l by len_goal.
  rewrite drop_zeros by len_goal. done.
Qed.

(** One turn of the emission loop on a queue of unspent frames. *)
Definition emit_one (q : list TxFrame) : option (Flit * list TxFrame) :=
  match q with
  | [] => None
  | f :: rest =>
      Some (flit_at (tx_vcid f) (tx_bytes f) (tx_flit_offset f),
            if remaining_flits (advance f) =? 0 then rest else advance f :: rest)
  end.
Fixpoint emit_many (n : nat) (q : list TxFrame) : list Flit * list TxFrame :=
  match n with
  | O => ([], q)
  | S n => match emit_one q with
           | Some (f, q) => let '(fs, q) := emit_many n q in (f :: fs, q)
           | None => ([], q)
           end
  end.

Lemma tx_ok_remaining vcs tr f : tx_ok vcs tr f → 1 ≤ remaining_flits f.
Proof. intros (_ & _ & _ & ?). unfold remaining_flits. ulia. Qed.

Lemma queue_flits_cons f q : queue_flits (f :: q) = remaining_flits f + queue_flits q.
Proof. done. Qed.

Lemma queue_flits_nonneg q : 0 ≤ queue_flits q.
Proof.
  induction q as [| f q IH]; [done |]. rewrite queue_flits_cons. unfold remaining_flits. ulia.
Qed.

Lemma emit_one_ok vcs tr q f q' :
  queue_ok vcs tr q → emit_one q = Some (f, q') →
  queue_ok vcs tr q' ∧ queue_flits q' = queue_flits q - 1 ∧ (length q' ≤ length q)%nat ∧
  0 ≤ fl_vcid f < vcs ∧ segment_traffic (fl_vcid f) = tr.
Proof.
  intros [Hall Hz] H. destruct q as [| g rest]; [done |]. cbn in H. injection H as <- <-.
  inversion Hall as [| ? ? Hg Hrest]; subst. cbn [tail] in Hz.
  destruct Hg as (Ht & Hv & Hs & Ho). unfold remaining_flits, saturating_sub.
  change (tx_flit_len (advance g)) with (tx_flit_len g). cbn [advance tx_flit_offset].
  assert (Hr : queue_ok vcs tr rest) by (split; [done |]; destruct rest; [done | by inversion Hz]).
  assert (Hq : queue_flits (g :: rest) = tx_flit_len g - tx_flit_offset g + queue_flits rest).
  { rewrite queue_flits_cons. unfold remaining_flits. ulia. }
  destruct (Z.eqb_spec (Z.max 0 (tx_flit_len g - (tx_flit_offset g + 1))) 0).
  - split_and!; try done; cbn [flit_at fl_vcid length]; lia.
  - split_and!; try done; try (cbn [flit_at fl_vcid length]; lia).
    + split; [| done]. constructor; [| done]. split_and!; try done; cbn; try lia.
      change (tx_flit_len (advance g)) with (tx_flit_len g). lia.
    + rewrite Hq, queue_flits_cons. unfold remaining_flits.
      change (tx_flit_len (advance g)) with (tx_flit_len g). cbn [advance tx_flit_offset]. ulia.
Qed.

Lemma emit_one_None q : emit_one q = None → q = [].
Proof. by destruct q. Qed.

Lemma emit_many_ok vcs tr n q :
  queue_ok vcs tr q → Z.of_nat n ≤ queue_flits q →
  queue_ok vcs tr (emit_many n q).2 ∧ length (emit_many n q).1 = n ∧
  queue_flits (emit_many n q).2 = queue_flits q - Z.of_nat n ∧
  Forall (λ f, 0 ≤ fl_vcid f < vcs ∧ segment_traffic (fl_vcid f) = tr) (emit_many n q).1.
Proof.
  revert q. induction n as [| n IH]; intros q Hq Hn; cbn [emit_many].
  - split_and!; try done; cbn [fst snd Z.of_nat]; lia || constructor.
  - destruct (emit_one q) as [[f q'] |] eqn:E.
    + apply (emit_one_ok vcs tr) in E as (Hq' & Hl & _ & Hf); [| done].
      destruct (IH q' Hq') as (H1 & H2 & H3 & H4); [lia |].
      destruct (emit_many n q') as [fs q'']. cbn in *. split_and!; try done; try lia. by constructor.
    + apply emit_one_None in E as ->. cbn in Hn. lia.
Qed.

(** The emission loop writes the first flits of the queue, as many as the
    room, the credit and the queue allow, and spends one credit per flit. *)
Lemma emit_loop_spec vcs tr fuel q credit out written m :
  queue_ok vcs tr q → 0 ≤ written ≤ len out → 0 ≤ credit →
  (Z.to_nat (len out - written) < fuel)%nat →
  m = Z.min (len out - written) (Z.min credit (queue_flits q)) →
  emit_loop fuel q credit out written =
    Ok ((emit_many (Z.to_nat m) q).2, credit - m,
        (take (Z.to_nat written) out ++ (emit_many (Z.to_nat m) q).1 ++ drop (Z.to_nat (written + m)) out,
         written + m)).
Proof.
  revert q credit out written m.
  induction fuel as [| fuel IH]; intros q credit out written m Hq Hw Hc Hf Hm; [lia |].
  cbn [emit_loop]. pose proof (queue_flits_nonneg q) as Hn.
  assert (Hstop : m = 0 → Ok (q, credit, (out, written)) =
    Ok ((emit_many (Z.to_nat m) q).2, credit - m,
        (take (Z.to_nat written) out ++ (emit_many (Z.to_nat m) q).1 ++ drop (Z.to_nat (written + m)) out,
         written + m))).
  { intros ->. change (Z.to_nat 0) with 0%nat. cbn [emit_many fst snd app]. by rewrite Z.sub_0_r, Z.add_0_r, take_drop. }
  destruct (Z.ltb_spec written (len out)); cbn [andb]; [| apply Hstop; lia].
  destruct (Z.eqb_spec credit 0); cbn [negb]; [apply Hstop; lia |].
  destruct q as [| f rest] eqn:Eq; [apply Hstop; cbn in Hm; lia |]. rewrite <- Eq in *.
  destruct (emit_one q) as [[fl q'] |] eqn:E; [| by subst].
  pose proof (emit_one_ok _ _ _ _ _ Hq E) as (Hq' & Hl & _ & _).
  subst q. destruct Hq as [Hall _]. apply Forall_cons in Hall as [(_ & _ & _ & Ho) _].
  rewrite next_flit_eq, bind_Ok_l by done. cbv beta iota.
  rewrite copy_at_eq, bind_Ok_l by len_goal. unfold sub_or_panic, checked_sub.
  replace (1 <=? credit) with true by lia. cbn [expect]. rewrite bind_Ok_l.
  cbn [emit_one] in E. injection E as <- <-.
  set (q' := if remaining_flits (advance f) =? 0 then rest else advance f :: rest) in *.
  set (fl := flit_at _ _ _). pose proof (queue_flits_nonneg q').
  assert (Hlen : len (splice out written [fl]) = len out) by (apply len_splice; len_goal).
  rewrite (IH q' _ _ _ (m - 1)); [| done | lia | lia | lia | lia].
  replace (Z.to_nat m) with (S (Z.to_nat (m - 1))) by lia. cbn [emit_many emit_one].
  fold fl q'.
  destruct (emit_many (Z.to_nat (m - 1)) q') as [fs q'']. cbn [fst snd].
  replace (written + 1 + (m - 1)) with (written + m) by lia.
  replace (credit - 1 - (m - 1)) with (credit - m) by lia. do 3 f_equal.
  unfold splice. rewrite len_cons, len_nil.
  set (hd := take (Z.to_nat written) out ++ [fl]).
  assert (Hhd : length hd = Z.to_nat (written + 1))
    by (subst hd; rewrite length_app, length_take; unfold len in *; cbn; lia).
  rewrite (app_assoc _ [fl]). fold hd. rewrite take_app_length' by done.
  rewrite drop_app_ge by lia. rewrite drop_drop.
  replace (Z.to_nat (written + (1 + 0)) + (Z.to_nat (written + m) - length hd))%nat
    with (Z.to_nat (written + m)) by lia.
  subst hd. by rewrite <- app_assoc.
Qed.

(** The state a burst of [mc] control and [md] data flits leaves. *)
Definition after_burst (s : DlpEndpoint) (mc md : Z) : DlpEndpoint :=
  set_data_tx
    (set_control_tx s (control_tx_credit s - mc) (emit_many (Z.to_nat mc) (control_tx_queue s)).2)
    (data_tx_credit s - md) (emit_many (Z.to_nat md) (data_tx_queue s)).2.

Definition burst_control (s : DlpEndpoint) (room : Z) : Z :=
  Z.min room (Z.min (control_tx_credit s) (queued_control_flits s)).
Definition burst_data (s : DlpEndpoint) (room : Z) : Z :=
  Z.min (room - burst_control s room) (Z.min (data_tx_credit s) (queued_data_flits s)).
Definition burst_flits (s : DlpEndpoint) (room : Z) : list Flit :=
  (emit_many (Z.to_nat (burst_control s room)) (control_tx_queue s)).1 ++
  (emit_many (Z.to_nat (burst_data s room)) (data_tx_queue s)).1.

Lemma emit_queue_flits_eq vcs tr q credit out m :
  queue_ok vcs tr q → 0 ≤ credit → m = Z.min (len out) (Z.min credit (queue_flits q)) →
  emit_queue_flits out (q, credit) =
    (((emit_many (Z.to_nat m) q).2, credit - m),
     Ok ((emit_many (Z.to_nat m) q).1 ++ drop (Z.to_nat m) out, m)).
Proof.
  intros Hq Hc Hm. unfold emit_queue_flits. lens.
  rewrite (emit_loop_spec vcs tr _ q credit out 0 m); try done; try lia; unfold len; lia.
Qed.

Lemma queue_flits_0 vcs tr q : queue_ok vcs tr q → queue_flits q = 0 → q = [].
Proof.
  intros [Hall _] H0. destruct q as [| f q]; [done |]. rewrite queue_flits_cons in H0.
  apply Forall_cons in Hall as [Hf _]. apply tx_ok_remaining in Hf.
  pose proof (queue_flits_nonneg q). lia.
Qed.

Lemma queues_empty_spec s :
  queues_empty s = true ↔ control_tx_queue s = [] ∧ data_tx_queue s = [].
Proof. unfold queues_empty. destruct (control_tx_queue s), (data_tx_queue s); naive_solver. Qed.

Lemma burst_bounds s room :
  dlp_inv s → 0 ≤ room →
  0 ≤ burst_control s room ≤ queued_control_flits s ∧ burst_control s room ≤ control_tx_credit s ∧
  0 ≤ burst_data s room ≤ queued_data_flits s ∧ burst_data s room ≤ data_tx_credit s ∧
  burst_control s room + burst_data s room ≤ room.
Proof.
  intros [? [Hd Hc] ? ? ? ? ? ? ? ? ?] Hr. unfold burst_data, burst_control.
  pose proof (queue_flits_nonneg (control_tx_queue s)). pose proof (queue_flits_nonneg (data_tx_queue s)).
  unfold queued_control_flits, queued_data_flits. ulia.
Qed.

Lemma poll_tx_burst_eq s out :
  dlp_inv s → link_up s = true →
  poll_tx_burst out s =
    if len out =? 0 then (s, Ok (out, 0))
    else
      let mc := burst_control s (len out) in
      let md := burst_data s (len out) in
      (after_burst s mc md,
       if negb (mc + md =? 0) then Ok (burst_flits s (len out) ++ drop (Z.to_nat (mc + md)) out, mc + md)
       else if queues_empty s then Ok (out, 0) else Err NoCredit).
Proof.
  intros Hi Hl. pose proof (burst_bounds s (len out) Hi (len_nonneg out)) as Hb.
  destruct Hi as [_ [Hd Hc] _ _ _ _ _ _ Hcq Hdq _].
  unfold poll_tx_burst. rewrite (st_bind_Ok_l _ _ s s s) by done. rewrite Hl. cbn [negb].
  rewrite (st_bind_Ok_l _ _ s s tt) by done. destruct (Z.eqb_spec (len out) 0); [done |].
  set (mc := burst_control s (len out)) in *. set (md := burst_data s (len out)) in *. cbv zeta.
  destruct (emit_many_ok _ _ (Z.to_nat mc) _ Hcq) as (_ & Lc & Rc & _);
    [unfold queued_control_flits in *; lia |].
  destruct (emit_many_ok _ _ (Z.to_nat md) _ Hdq) as (_ & Ld & Rd & _);
    [unfold queued_data_flits in *; lia |].
  unfold mbind, st_bind, on_control, on_data, zoom.
  rewrite (emit_queue_flits_eq _ _ _ _ _ mc Hcq) by (done || ulia). cbn [fst snd].
  set (fc := (emit_many (Z.to_nat mc) (control_tx_queue s)).1) in *.
  assert (Hfc : len fc = mc) by (unfold len; lia).
  unfold lift. rewrite get_slice_eq by len_goal. rewrite slice_app_r by lia. rewrite Hfc.
  rewrite (slice_full (drop _ _)) by len_goal.
  cbn [set_control_tx data_tx_queue data_tx_credit].
  rewrite (emit_queue_flits_eq _ _ _ _ _ md Hdq)
    by (ulia || (unfold md, burst_data; fold mc; unfold queued_data_flits; f_equal; len_goal)).
  rewrite take_app_length' by (unfold len in Hfc; lia). rewrite drop_drop.
  assert (Haft : set_data_tx (set_control_tx s (control_tx_credit s - mc)
    (emit_many (Z.to_nat mc) (control_tx_queue s)).2) (data_tx_credit s - md)
    (emit_many (Z.to_nat md) (data_tx_queue s)).2 = after_burst s mc md) by done.
  destruct (Z.eqb_spec (mc + md) 0) as [E0 |]; cbn [negb].
  - assert (mc = 0) as -> by lia. assert (md = 0) as -> by lia.
    subst fc. change (Z.to_nat 0) with 0%nat in *. cbn [emit_many fst snd app Nat.add drop] in *.
    unfold gets. rewrite Haft. cbn [id].
    replace (queues_empty (after_burst s 0 0)) with (queues_empty s) by done.
    by destruct (queues_empty s).
  - rewrite Haft. unfold mret, st_ret. f_equal. f_equal. f_equal.
    unfold burst_flits. fold mc md fc. rewrite <- app_assoc. do 3 f_equal. lia.
Qed.

Lemma after_burst_inv s room :
  dlp_inv s → 0 ≤ room → dlp_inv (after_burst s (burst_control s room) (burst_data s room)).
Proof.
  intros Hi Hr. pose proof (burst_bounds s room Hi Hr) as Hb. destruct Hi.
  set (mc := burst_control s room) in *. set (md := burst_data s room) in *.
  destruct (emit_many_ok _ _ (Z.to_nat mc) _ di_control_q0) as (Qc & _);
    [unfold queued_control_flits in *; lia |].
  destruct (emit_many_ok _ _ (Z.to_nat md) _ di_data_q0) as (Qd & _);
    [unfold queued_data_flits in *; lia |].
  split; cbn; try done. ulia.
Qed.

Lemma poll_tx_burst_preserves out : preserves dlp_inv (poll_tx_burst out).
Proof.
  intros s Hs. destruct (link_up s) eqn:El.
  - rewrite poll_tx_burst_eq by done. destruct (_ =? 0); [done |].
    apply after_burst_inv; [done |]. lens. lia.
  - unfold poll_tx_burst. rewrite (st_bind_Ok_l _ _ s s s) by done. by rewrite El.
Qed.

(** [pop_sendable_frame] on a queue whose front is whole. *)
Lemma pop_sendable_eq q credit :
  pop_sendable_frame (q, credit) =
    match q with
    | [] => ((q, credit), Ok None)
    | f :: rest =>
        if negb (tx_flit_offset f =? 0) then ((q, credit), Err InvalidState)
        else if credit <? tx_flit_len f then ((q, credit), Ok None)
        else ((rest, credit - as_u32 (tx_flit_len f)),
              Ok (Some (mkFrame (tx_vcid f) (tx_traffic f) (tx_bytes f))))
    end.
Proof.
  destruct q as [| f rest]; [done |]. cbn. destruct (Z.eqb_spec (tx_flit_offset f) 0) as [E |]; [| done].
  cbn [negb]. destruct (_ <? _); [done |]. unfold into_frame. by rewrite E.
Qed.

Lemma pop_sendable_ok vcs tr q credit q' c' r :
  queue_ok vcs tr q → u32 credit → pop_sendable_frame (q, credit) = ((q', c'), r) →
  queue_ok vcs tr q' ∧ u32 c' ∧ queue_flits q' - c' = queue_flits q - credit ∧ r ≠ Panic ∧
  (∀ fr, r = Ok (Some fr) →
     (∃ f, q = f :: q' ∧ tx_flit_offset f = 0 ∧ fr = mkFrame (tx_vcid f) (tx_traffic f) (tx_bytes f)) ∧
     c' = credit - flit_len (gf_bytes fr) ∧ gf_traffic fr = tr ∧
     segment_traffic (gf_vcid fr) = tr ∧ 0 ≤ gf_vcid fr < vcs) ∧
  ((∀ fr, r ≠ Ok (Some fr)) → q' = q ∧ c' = credit).
Proof.
  intros Hq Hc. rewrite pop_sendable_eq. destruct q as [| f rest].
  { intros [[<- <-]%pair_inv <-]%pair_inv. split_and!; done. }
  destruct Hq as [Hall Hz]. pose proof Hall as [(Ht & Hv & Hs & Ho) Hrest]%Forall_cons.
  destruct (Z.eqb_spec (tx_flit_offset f) 0) as [E |]; cbn [negb];
    [| intros [[<- <-]%pair_inv <-]%pair_inv; split_and!; done].
  destruct (Z.ltb_spec credit (tx_flit_len f));
    [intros [[<- <-]%pair_inv <-]%pair_inv; split_and!; done |].
  intros [[<- <-]%pair_inv <-]%pair_inv.
  assert (Hw : as_u32 (tx_flit_len f) = tx_flit_len f) by (apply Z.mod_small; ulia). rewrite Hw.
  split; [split; [done |]; destruct rest; [done | by inversion Hz] |]. split; [ulia |].
  rewrite queue_flits_cons. unfold remaining_flits. split; [ulia |]. split; [done |].
  split; [| intros Hn; by destruct (Hn (mkFrame (tx_vcid f) (tx_traffic f) (tx_bytes f)))].
  intros fr [= <-]. cbn. split_and!; try done; [by exists f | lia | lia].
Qed.

Lemma on_data_eq {A} (m : st (list TxFrame * Z) A) s q c r :
  m (data_tx_queue s, data_tx_credit s) = ((q, c), r) → on_data m s = (set_data_tx s c q, r).
Proof. unfold on_data, zoom. by intros ->. Qed.
Lemma on_control_eq {A} (m : st (list TxFrame * Z) A) s q c r :
  m (control_tx_queue s, control_tx_credit s) = ((q, c), r) → on_control m s = (set_control_tx s c q, r).
Proof. unfold on_control, zoom. by intros ->. Qed.

Lemma on_control_preserves {A} (m : st (list TxFrame * Z) A) :
  (∀ vcs q c, queue_ok vcs TControl q → u32 c →
     let '((q', c'), _) := m (q, c) in queue_ok vcs TControl q' ∧ u32 c') →
  preserves dlp_inv (on_control m).
Proof.
  intros Hm s Hs. destruct Hs. unfold on_control, zoom.
  pose proof (Hm _ _ _ di_control_q0 (proj2 di_credit0)) as H.
  destruct (m _) as [[q c] r]. destruct H. split; cbn; try done. split; [apply di_credit0 | done].
Qed.
Lemma on_data_preserves {A} (m : st (list TxFrame * Z) A) :
  (∀ vcs q c, queue_ok vcs TrData q → u32 c →
     let '((q', c'), _) := m (q, c) in queue_ok vcs TrData q' ∧ u32 c') →
  preserves dlp_inv (on_data m).
Proof.
  intros Hm s Hs. destruct Hs. unfold on_data, zoom.
  pose proof (Hm _ _ _ di_data_q0 (proj1 di_credit0)) as H.
  destruct (m _) as [[q c] r]. destruct H. split; cbn; try done. split; [done | apply di_credit0].
Qed.

Lemma poll_tx_frame_preserves : preserves dlp_inv poll_tx_frame.
Proof.
  assert (Hp : ∀ tr vcs q c, queue_ok vcs tr q → u32 c →
    let '((q', c'), _) := pop_sendable_frame (q, c) in queue_ok vcs tr q' ∧ u32 c').
  { intros tr vcs q c Hq Hc. destruct (pop_sendable_frame (q, c)) as [[q' c'] r] eqn:E.
    destruct (pop_sendable_ok _ _ _ _ _ _ _ Hq Hc E) as (? & ? & _). done. }
  unfold poll_tx_frame. apply preserves_bind; [auto with preserves |]. intros s0.
  apply preserves_bind; [auto with preserves |]. intros _.
  apply preserves_bind; [apply on_control_preserves, Hp |]. intros [f |]; [auto with preserves |].
  apply preserves_bind; [apply on_data_preserves, Hp |]. intros [f |]; [auto with preserves |].
  apply preserves_bind; [auto with preserves |]. intros s1. case_match; auto with preserves.
Qed.

(** *** Queueing *)

Lemma lane_guards_Ok s tr vcid u :
  lane_guards s tr vcid = Ok u →
  link_up s = true ∧ vcid < vc_count s ∧ (0 ≤ vcid → segment_traffic vcid = tr).
Proof.
  unfold lane_guards, segment_traffic. intros H. inv_res. apply negb_false_iff in H.
  split; [done |]. split; [lia |]. intros _.
  destruct tr; cbn in *; destruct (is_control vcid); done.
Qed.

Lemma packet_encode_len p cfg bs :
  packet_encode p cfg = Ok bs →
  len bs = header_len (pkt_header p) + len (pkt_payload p) ∧
  len (pkt_payload p) = sc_bytes (hdr_size_class (pkt_header p)).
Proof.
  unfold packet_encode, packet_new. intros (q & (u & [Hg _]%fail_if_Ok & <-%Ok_inj)%bind_Ok & H)%bind_Ok.
  apply bind_Ok in H as ([out n] & H & <-%Ok_inj). unfold packet_encode_into in H.
  cbn [pkt_header pkt_payload] in H. apply bind_Ok in H as (v & _ & H).
  apply bind_Ok in H as ([o hl] & He & H). apply bind_Ok in H as (o' & Hc & [<- <-]%Ok_inj%pair_inv).
  assert (Hcopy : ∀ (l l' src : list Z) a, copy_at l a src = Ok l' → len l' = len l).
  { intros l l' src a. unfold copy_at. destruct (_ && _) eqn:E; intros; inv_res. apply len_splice; lia. }
  apply Hcopy in Hc. unfold encode_header_into in He.
  repeat (apply bind_Ok in He as (? & ? & He)). inv_res.
  assert (len o = header_len (pkt_header p) + len (pkt_payload p)).
  { pose proof (header_len_pos (pkt_header p)). lens.
    destruct (hdr_addresses (pkt_header p)); inv_res;
    repeat match goal with H : copy_at _ _ _ = Ok _ |- _ => apply Hcopy in H end;
    rewrite len_zeros in *; lia. }
  split; [| lia]. pose proof (header_len_pos (pkt_header p)). lens. rewrite len_take. lia.
Qed.

Lemma queue_packet_on_eq tr vcid p s :
  queue_packet_on tr vcid p s =
    match lane_guards s tr vcid with
    | Ok _ =>
        match packet_encode p (cfg s) with
        | Ok bs =>
            let f := mkTx vcid tr bs 0 in
            (match tr with
             | TControl => set_control_tx s (control_tx_credit s) (control_tx_queue s ++ [f])
             | TrData => set_data_tx s (data_tx_credit s) (data_tx_queue s ++ [f])
             end, Ok (flit_len bs))
        | Err e => (s, Err e)
        | Panic => (s, Panic)
        end
    | Err e => (s, Err e)
    | Panic => (s, Panic)
    end.
Proof.
  unfold queue_packet_on, mbind, st_bind, gets, lift. cbn [id].
  destruct (lane_guards _ _ _) as [[] | |]; [| done..]. by destruct (packet_encode _ _).
Qed.

Lemma queue_ok_app vcs tr q f :
  queue_ok vcs tr q → tx_ok vcs tr f → tx_flit_offset f = 0 → queue_ok vcs tr (q ++ [f]).
Proof.
  intros [Hall Hz] Hf H0. split; [apply Forall_app; by auto using Forall_nil, Forall_cons_2 |].
  destruct q; cbn; [done |]. apply Forall_app. by auto using Forall_nil, Forall_cons_2.
Qed.

Lemma queue_packet_preserves tr vcid p : 0 ≤ vcid → preserves dlp_inv (queue_packet_on tr vcid p).
Proof.
  intros Hv s Hs. rewrite queue_packet_on_eq. destruct (lane_guards s tr vcid) as [u | |] eqn:Eg; try done.
  apply lane_guards_Ok in Eg as (Hl & Hc & Hseg). specialize (Hseg Hv).
  destruct (packet_encode p (cfg s)) as [bs | |] eqn:Ee; try done.
  apply packet_encode_len in Ee as [Ee _]. pose proof (header_len_pos (pkt_header p)). lens.
  assert (Hf : tx_ok (vc_count s) tr (mkTx vcid tr bs 0)).
  { split_and!; try done; unfold tx_flit_len; cbn; zdiv. }
  destruct Hs. cbv zeta. destruct tr; cbn [fst]; split; cbn; try done; by apply queue_ok_app.
Qed.

Lemma choose_data_vc_preserves : preserves dlp_inv choose_data_vc.
Proof.
  intros s Hs. destruct Hs. split; cbn; try done.
  pose proof (vc_count_range s). change (vc_count (set_next_data_vc s _)) with (vc_count s).
  destruct (Z.leb_spec (vc_count s) (next_data_vc s + 1)); lia.
Qed.

Lemma queue_data_preserves p : preserves dlp_inv (queue_data_packet p).
Proof.
  intros s Hs. unfold queue_data_packet.
  rewrite (st_bind_Ok_l _ choose_data_vc s (choose_data_vc s).1 (next_data_vc s)) by done.
  apply queue_packet_preserves; [destruct Hs; lia |]. by apply choose_data_vc_preserves.
Qed.

(** *** Reception *)

Lemma open_segment_Ok s w tr :
  ∃ seg, open_segment s w tr = Ok seg ∧ rs_traffic seg = tr ∧ rs_bytes seg = [] ∧
    rs_received_flits seg = 0 ∧ rs_expected_flits seg = (rs_expected_bytes seg + 3) / 4 ∧
    8 ≤ rs_expected_bytes seg ≤ 8212.
Proof.
  unfold open_segment. destruct (sc_from_wire_total (as_u8 (Z.land (Z.shiftr w 22) 0xf))) as (c & -> & _).
  rewrite bind_Ok_l. eexists. split; [reflexivity |]. cbn -[sc_bytes Z.div]. pose proof (sc_bytes_range c).
  split_and!; try done; destruct (form_from_bit _ _); lia.
Qed.

(** The segment a flit extends: the open one, or a fresh one. *)
Definition segment_for (s : DlpEndpoint) (flit : Flit) (slot : option RxSegment) : RxSegment :=
  match slot with
  | Some seg => seg
  | None => match open_segment s (fl_data flit) (segment_traffic (fl_vcid flit)) with
            | Ok seg => seg
            | _ => mkSeg [] 0 0 0 TControl
            end
  end.
Definition seg_push (seg : RxSegment) (w : Z) : RxSegment :=
  mkSeg (rs_bytes seg ++ to_be 4 w) (rs_expected_bytes seg) (rs_expected_flits seg)
    (rs_received_flits seg + 1) (rs_traffic seg).

Definition is_data (vcid : Z) : bool := bool_decide (segment_traffic vcid = TrData).

(** The endpoint after the credit of one arriving data flit is spent. *)
Definition charge (s : DlpEndpoint) (vcid : Z) : DlpEndpoint :=
  if is_data vcid then set_rx_account s (data_credit_outstanding s - 1) (data_rx_in_use s + 1) else s.

Definition accept_flit (s : DlpEndpoint) (flit : Flit) (seg : RxSegment)
    : DlpEndpoint * res (option GdpPacket) :=
  let i := Z.to_nat (fl_vcid flit) in
  let s1 := charge s (fl_vcid flit) in
  let seg := seg_push seg (fl_data flit) in
  if rs_received_flits seg <? rs_expected_flits seg then (set_rx s1 (<[i:=Some seg]> (rx s)), Ok None)
  else
    let s2 := set_rx s1 (<[i:=None]> (rx s)) in
    let s2 := if is_data (fl_vcid flit) then release_data_segment (rs_received_flits seg) s2 else s2 in
    match packet_decode (take (Z.to_nat (rs_expected_bytes seg)) (rs_bytes seg)) (cfg s) (local_prefix s) with
    | Ok packet => (s2, Ok (Some packet))
    | Err e => (set_desync s2 (<[i:=true]> (desynchronized s)), Err e)
    | Panic => (s2, Panic)
    end.

Lemma receive_push_eq s flit seg :
  rs_traffic seg = segment_traffic (fl_vcid flit) →
  receive_push (Z.to_nat (fl_vcid flit)) (fl_data flit) (segment_traffic (fl_vcid flit)) seg
    (charge s (fl_vcid flit)) = accept_flit s flit seg.
Proof.
  intros Hseg. set (i := Z.to_nat (fl_vcid flit)).
  assert (Hc : rx (charge s (fl_vcid flit)) = rx s ∧ cfg (charge s (fl_vcid flit)) = cfg s ∧
    local_prefix (charge s (fl_vcid flit)) = local_prefix s ∧
    desynchronized (charge s (fl_vcid flit)) = desynchronized s)
    by (unfold charge; by destruct (is_data _)).
  destruct Hc as (H1 & H2 & H3 & H4).
  unfold receive_push, mbind, st_bind, gets, guard_st, lift, modify, mret, st_ret.
  rewrite Hseg, bool_decide_eq_true_2 by done. cbn [negb fail_if].
  unfold accept_flit. fold i. unfold seg_push, is_data. rewrite Hseg. cbn [rs_received_flits rs_expected_flits
    rs_expected_bytes rs_bytes rs_traffic].
  destruct (_ <? _).
  { cbn [set_rx rx]. by rewrite list_insert_insert_eq, H1. }
  destruct (bool_decide (segment_traffic (fl_vcid flit) = TrData));
    cbn [id set_rx release_data_segment set_rx_account cfg local_prefix rx desynchronized];
    rewrite !list_insert_insert_eq, H1, H2, H3; destruct (packet_decode _ _ _);
    cbn [set_rx release_data_segment set_rx_account desynchronized]; by rewrite ?H4.
Qed.

Lemma receive_eq s flit (slot : option RxSegment) (d : bool) :
  rx s !! Z.to_nat (fl_vcid flit) = Some slot →
  desynchronized s !! Z.to_nat (fl_vcid flit) = Some d →
  0 ≤ fl_vcid flit →
  (∀ seg, slot = Some seg → rs_traffic seg = segment_traffic (fl_vcid flit)) →
  receive flit s =
    if negb (link_up s) then (s, Err LinkDown)
    else if vc_count s <=? fl_vcid flit then (s, Err InvalidField)
    else if d then (s, Err Desynchronized)
    else if is_data (fl_vcid flit) && (data_credit_outstanding s =? 0) then (s, Err CreditViolation)
    else if is_data (fl_vcid flit) && (rx_buffer_flits s <=? data_rx_in_use s) then (s, Err BufferFull)
    else accept_flit s flit (segment_for s flit slot).
Proof.
  intros Hslot Hd Hpos Htr.
  assert (Hseg : rs_traffic (segment_for s flit slot) = segment_traffic (fl_vcid flit) ∧
    ∀ s', receive_segment s flit (segment_traffic (fl_vcid flit)) slot s' =
      (s', Ok (segment_for s flit slot))).
  { unfold segment_for, receive_segment. destruct slot; [split; [by apply Htr | done] |].
    by destruct (open_segment_Ok s (fl_data flit) (segment_traffic (fl_vcid flit))) as (seg & -> & ? & _). }
  destruct Hseg as [Hseg Hrs]. unfold receive. rewrite (st_bind_Ok_l _ _ s s s) by done.
  destruct (link_up s); cbn [negb]; [| done]. rewrite (st_bind_Ok_l _ _ s s tt) by done.
  destruct (vc_count s <=? fl_vcid flit); [done |]. rewrite (st_bind_Ok_l _ _ s s tt) by done.
  assert (Hg : ∀ A (l : list A) x, l !! Z.to_nat (fl_vcid flit) = Some x → get_index l (fl_vcid flit) = Ok x)
    by (intros; by apply get_index_Ok).
  rewrite (st_bind_Ok_l _ _ s s d) by (unfold lift; by rewrite (Hg _ _ d)).
  destruct d; [done |]. rewrite (st_bind_Ok_l _ _ s s tt) by done. fold (is_data (fl_vcid flit)).
  rewrite <- receive_push_eq by done.
  assert (Hcharge : ∀ B (f : unit → st DlpEndpoint B),
    ((if is_data (fl_vcid flit) then
       guard_st (data_credit_outstanding s =? 0) CreditViolation;;
       guard_st (rx_buffer_flits s <=? data_rx_in_use s) BufferFull;;
       modify (λ s, set_rx_account s (data_credit_outstanding s - 1) (data_rx_in_use s + 1))
     else mret tt) ≫= f) s =
    if is_data (fl_vcid flit) && (data_credit_outstanding s =? 0) then (s, Err CreditViolation)
    else if is_data (fl_vcid flit) && (rx_buffer_flits s <=? data_rx_in_use s) then (s, Err BufferFull)
    else f tt (charge s (fl_vcid flit))).
  { intros B f. unfold charge. destruct (is_data _); cbn [andb]; [| done].
    unfold mbind, st_bind, guard_st, lift, modify.
    destruct (_ =? 0); cbn [fail_if]; [done |]. by destruct (_ <=? _). }
  rewrite Hcharge. destruct (_ && _); [done |]. destruct (_ && _); [done |].
  rewrite (st_bind_Ok_l _ _ _ (charge s (fl_vcid flit)) slot) by (unfold lift; by rewrite (Hg _ _ slot)).
  by rewrite (st_bind_Ok_l _ _ _ (charge s (fl_vcid flit)) (segment_for s flit slot)) by apply Hrs.
Qed.

Lemma slot_exists s flit :
  dlp_inv s → 0 ≤ fl_vcid flit < 4 →
  ∃ slot d, rx s !! Z.to_nat (fl_vcid flit) = Some slot ∧
    desynchronized s !! Z.to_nat (fl_vcid flit) = Some d ∧
    (∀ seg, slot = Some seg → seg_ok (vc_count s) (fl_vcid flit) seg).
Proof.
  intros Hi Hv. destruct (di_slots s Hi) as [H1 H2].
  destruct (lookup_lt_is_Some_2 (rx s) (Z.to_nat (fl_vcid flit))) as [slot Hs]; [lia |].
  destruct (lookup_lt_is_Some_2 (desynchronized s) (Z.to_nat (fl_vcid flit))) as [d Hd]; [lia |].
  exists slot, d. split_and!; try done. intros seg ->.
  pose proof (di_segs s Hi _ _ Hs) as Hok. by rewrite Z2Nat.id in Hok by lia.
Qed.

Lemma segment_for_ok s flit slot :
  fl_vcid flit < vc_count s → (∀ seg, slot = Some seg → seg_ok (vc_count s) (fl_vcid flit) seg) →
  seg_ok (vc_count s) (fl_vcid flit) (segment_for s flit slot).
Proof.
  intros Hv Hs. unfold segment_for. destruct slot as [seg |]; [by apply Hs |].
  destruct (open_segment_Ok s (fl_data flit) (segment_traffic (fl_vcid flit)))
    as (seg & -> & Ht & Hb & Hr & He & Hx).
  unfold seg_ok. rewrite Ht, Hb, Hr. split_and!; try done; try lia; [zdiv | apply bytes_nil].
Qed.

Lemma is_data_flits vcid seg :
  rs_traffic seg = segment_traffic vcid →
  seg_flits (Some seg) = if is_data vcid then rs_received_flits seg else 0.
Proof. intros E. cbn. unfold is_data. by rewrite E. Qed.

(** The state when reception may accept the flit. *)
Definition may_accept (s : DlpEndpoint) (vcid : Z) : Prop :=
  is_data vcid = true → 0 < data_credit_outstanding s.

Lemma accept_in_use s flit slot :
  dlp_inv s → rx s !! Z.to_nat (fl_vcid flit) = Some slot →
  (∀ seg, slot = Some seg → seg_ok (vc_count s) (fl_vcid flit) seg) →
  (if is_data (fl_vcid flit) then rs_received_flits (segment_for s flit slot) else 0) ≤ data_rx_in_use s ∧
  seg_flits slot = (if is_data (fl_vcid flit) then rs_received_flits (segment_for s flit slot) else 0).
Proof.
  intros Hi Hs Hok. assert (E : seg_flits slot =
    (if is_data (fl_vcid flit) then rs_received_flits (segment_for s flit slot) else 0)).
  { destruct slot as [seg |]; cbn [segment_for].
    - rewrite (is_data_flits (fl_vcid flit)); [done |]. by destruct (Hok seg eq_refl) as (_ & ? & _).
    - destruct (open_segment_Ok s (fl_data flit) (segment_traffic (fl_vcid flit)))
        as (seg & -> & _ & _ & Hr & _). rewrite Hr. by destruct (is_data _). }
  split; [| done]. rewrite <- E, (di_exact s Hi). eapply rx_flits_ge; [| done].
  intros. by eapply seg_flits_nonneg, di_segs.
Qed.

Lemma seg_push_ok vcs i seg w :
  seg_ok vcs i seg → rs_received_flits (seg_push seg w) < rs_expected_flits (seg_push seg w) →
  seg_ok vcs i (seg_push seg w).
Proof.
  unfold seg_ok, seg_push. cbn [rs_bytes rs_expected_bytes rs_expected_flits rs_received_flits rs_traffic].
  intros (? & ? & ? & ? & ? & Hl & Hb) ?. split_and!; try done; try lia.
  - rewrite len_app, len_to_be, Hl. lia.
  - apply bytes_app. auto using bytes_to_be.
Qed.

Lemma rx_insert_segs s i o :
  dlp_inv s → (∀ seg, o = Some seg → seg_ok (vc_count s) (Z.of_nat i) seg) →
  ∀ j seg, <[i:=o]> (rx s) !! j = Some (Some seg) → seg_ok (vc_count s) (Z.of_nat j) seg.
Proof.
  intros Hi Ho j seg [(<- & E & _) | [_ Hj]]%list_lookup_insert_Some; [by apply Ho |].
  by apply (di_segs s Hi).
Qed.

(** Replacing the receive slots and their account. *)
Lemma inv_rx s o u l :
  dlp_inv s → 0 ≤ o → o + u ≤ rx_buffer_flits s → u = rx_flits l → length l = 4%nat →
  (∀ j seg, l !! j = Some (Some seg) → seg_ok (vc_count s) (Z.of_nat j) seg) →
  dlp_inv (set_rx (set_rx_account s o u) l).
Proof. intros [] **. split; try done. by split; [| apply di_slots0]. Qed.

Lemma inv_desync s i : dlp_inv s → dlp_inv (set_desync s (<[i:=true]> (desynchronized s))).
Proof.
  intros []. destruct di_slots0. split; try done. split; [done |].
  cbn [set_desync desynchronized]. by rewrite length_insert.
Qed.

Lemma accept_flit_inv s flit slot :
  dlp_inv s → 0 ≤ fl_vcid flit < vc_count s → rx s !! Z.to_nat (fl_vcid flit) = Some slot →
  (∀ seg, slot = Some seg → seg_ok (vc_count s) (fl_vcid flit) seg) →
  may_accept s (fl_vcid flit) →
  dlp_inv (accept_flit s flit (segment_for s flit slot)).1.
Proof.
  intros Hi Hv Hslot Hok Hmay. pose proof (segment_for_ok s flit slot (proj2 Hv) Hok) as Hseg.
  destruct (accept_in_use s flit slot Hi Hslot Hok) as [Huse Hsf].
  pose proof (in_use_nonneg s Hi) as Hnn. pose proof (di_bound s Hi). pose proof (di_exact s Hi).
  pose proof (di_outstanding s Hi). pose proof (proj1 (di_slots s Hi)).
  set (seg := segment_for s flit slot) in *. set (i := Z.to_nat (fl_vcid flit)) in *.
  assert (Hiz : Z.of_nat i = fl_vcid flit) by lia. unfold accept_flit. fold i.
  pose proof Hseg as (_ & Htr & Hrecv & He & Hx & _). unfold may_accept in Hmay.
  destruct (Z.ltb_spec (rs_received_flits (seg_push seg (fl_data flit)))
    (rs_expected_flits (seg_push seg (fl_data flit)))) as [Hlt | Hge].
  - pose proof (seg_push_ok _ _ seg (fl_data flit) Hseg Hlt) as Hpush.
    pose proof (rx_insert_segs s i (Some (seg_push seg (fl_data flit))) Hi) as Hsegs.
    pose proof (rx_flits_insert _ i slot (Some (seg_push seg (fl_data flit))) Hslot) as Hfl.
    rewrite (is_data_flits (fl_vcid flit)) in Hfl by done. cbn [seg_push rs_received_flits] in Hfl.
    cbn [fst]. unfold charge. destruct (is_data (fl_vcid flit)) eqn:Ed;
      [specialize (Hmay eq_refl); apply (inv_rx s (data_credit_outstanding s - 1) (data_rx_in_use s + 1))
      | apply (inv_rx s (data_credit_outstanding s) (data_rx_in_use s))];
      try done; try lia; try (by rewrite length_insert);
      apply Hsegs; intros ? [= <-]; by rewrite Hiz.
  - pose proof (rx_insert_segs s i None Hi) as Hsegs.
    pose proof (rx_flits_insert _ i slot None Hslot) as Hfl. cbn [seg_flits] in Hfl.
    assert (Hw : as_u32 (rs_received_flits (seg_push seg (fl_data flit))) =
      rs_received_flits seg + 1) by (cbn; apply Z.mod_small; zdiv).
    set (s2 := if is_data (fl_vcid flit) then _ else _).
    assert (Hs2 : dlp_inv s2 ∧ desynchronized s2 = desynchronized s).
    { subst s2. unfold charge. destruct (is_data (fl_vcid flit)) eqn:Ed; (split; [| done]).
      - specialize (Hmay eq_refl).
        apply (inv_rx s (data_credit_outstanding s - 1) (saturating_sub (data_rx_in_use s + 1)
          (as_u32 (rs_received_flits (seg_push seg (fl_data flit))))) (<[i:=None]> (rx s)));
          try done; try lia; try (rewrite Hw; ulia); try (by rewrite length_insert). by apply Hsegs.
      - apply (inv_rx s (data_credit_outstanding s) (data_rx_in_use s) (<[i:=None]> (rx s)));
          try done; try lia; try (by rewrite length_insert). by apply Hsegs. }
    destruct Hs2 as [Hs2 H2d].
    destruct (packet_decode _ _ _); cbn [fst]; try done. rewrite <- H2d. by apply inv_desync.
Qed.

Lemma receive_cases s flit (slot : option RxSegment) (d : bool) :
  dlp_inv s → 0 ≤ fl_vcid flit →
  rx s !! Z.to_nat (fl_vcid flit) = Some slot →
  desynchronized s !! Z.to_nat (fl_vcid flit) = Some d →
  (∀ seg, slot = Some seg → seg_ok (vc_count s) (fl_vcid flit) seg) →
  receive flit s =
    if negb (link_up s) then (s, Err LinkDown)
    else if vc_count s <=? fl_vcid flit then (s, Err InvalidField)
    else if d then (s, Err Desynchronized)
    else if is_data (fl_vcid flit) && (data_credit_outstanding s =? 0) then (s, Err CreditViolation)
    else accept_flit s flit (segment_for s flit slot).
Proof.
  intros Hi Hp Hslot Hd Hok. rewrite (receive_eq s flit slot d) by naive_solver.
  repeat case_match; try done. exfalso.
  pose proof (di_bound s Hi). pose proof (di_outstanding s Hi).
  destruct (is_data _); cbn [andb] in *; [lia | done].
Qed.

Lemma receive_preserves flit : 0 ≤ fl_vcid flit < 4 → preserves dlp_inv (receive flit).
Proof.
  intros Hv s Hs. destruct (slot_exists s flit Hs Hv) as (slot & d & Hslot & Hd & Hok).
  rewrite (receive_cases s flit slot d) by (done || lia).
  destruct (negb (link_up s)); [done |]. destruct (Z.leb_spec (vc_count s) (fl_vcid flit)); [done |].
  destruct d; [done |]. destruct (is_data _ && _) eqn:Ec; [done |].
  apply accept_flit_inv; try done; [lia |]. intros Hdata. rewrite Hdata in Ec. cbn [andb] in Ec.
  pose proof (di_outstanding s Hs). lia.
Qed.

Lemma flit_len_nonneg bs : 0 ≤ flit_len bs.
Proof. unfold flit_len. lens. zdiv. Qed.

Lemma receive_frame_eq s fr :
  dlp_inv s → 0 ≤ gf_vcid fr → flit_len (gf_bytes fr) < 2 ^ 32 →
  receive_frame fr s =
    match lane_guards s (gf_traffic fr) (gf_vcid fr) with
    | Ok _ =>
        let flits := flit_len (gf_bytes fr) in
        if bool_decide (gf_traffic fr = TrData) then
          if data_credit_outstanding s <? flits then (s, Err CreditViolation)
          else (set_rx_account s (data_credit_outstanding s - flits) (data_rx_in_use s),
                packet_decode (gf_bytes fr) (cfg s) (local_prefix s))
        else (s, packet_decode (gf_bytes fr) (cfg s) (local_prefix s))
    | Err e => (s, Err e)
    | Panic => (s, Panic)
    end.
Proof.
  intros Hi Hv Hl. pose proof (in_use_nonneg s Hi). pose proof (di_bound s Hi). pose proof (di_buffer s Hi).
  unfold receive_frame, mbind, st_bind, gets, lift, guard_st, modify, mret, st_ret. cbn [id].
  destruct (lane_guards _ _ _) as [[] | |]; [| done..]. cbv zeta.
  set (n := flit_len (gf_bytes fr)) in *.
  assert (Hn : 0 ≤ n) by apply flit_len_nonneg.
  assert (Hw : as_u32 n = n) by (apply Z.mod_small; lia). rewrite Hw.
  destruct (bool_decide _); [| done].
  destruct (Z.ltb_spec (data_credit_outstanding s) n); cbn [fail_if]; [done |].
  unfold available_rx_flits. replace (_ <? n) with false by ulia. cbn [fail_if].
  unfold add_or_panic, checked_add. replace (_ <? 2 ^ 32) with true by lia. cbn [expect].
  unfold release_data_segment. rewrite Hw.
  cbn [set_rx_account cfg local_prefix data_credit_outstanding data_rx_in_use]. f_equal.
  unfold set_rx_account; cbn. f_equal. ulia.
Qed.

Lemma inv_account s o : dlp_inv s → 0 ≤ o ≤ data_credit_outstanding s →
  dlp_inv (set_rx_account s o (data_rx_in_use s)).
Proof. intros [] ?. split; try done; cbn; lia. Qed.

Lemma receive_frame_preserves fr :
  0 ≤ gf_vcid fr → flit_len (gf_bytes fr) < 2 ^ 32 → preserves dlp_inv (receive_frame fr).
Proof.
  intros Hv Hl s Hs. rewrite receive_frame_eq by done. destruct (lane_guards _ _ _); [| done..].
  cbv zeta. destruct (bool_decide _); [| done]. destruct (Z.ltb_spec (data_credit_outstanding s) (flit_len (gf_bytes fr))); [done |].
  apply inv_account; [done |]. pose proof (flit_len_nonneg (gf_bytes fr)). lia.
Qed.

Lemma reset_vc_preserves vcid : 0 ≤ vcid < 4 → preserves dlp_inv (reset_vc vcid).
Proof.
  intros Hv s Hs. destruct (slot_exists s (mkFlit vcid 0) Hs Hv) as (slot & d & Hslot & Hd & Hok).
  cbn [fl_vcid] in *. unfold reset_vc, mbind, st_bind, gets, guard_st, lift, modify, mret, st_ret. cbn [id].
  destruct (vc_count s <=? vcid); cbn [fail_if]; [done |].
  rewrite (proj2 (get_index_Ok (rx s) vcid slot)) by (split; [lia | done]).
  pose proof (rx_insert_segs s (Z.to_nat vcid) None Hs) as Hsegs.
  pose proof (rx_flits_insert _ (Z.to_nat vcid) slot None Hslot) as Hfl. cbn [seg_flits] in Hfl.
  pose proof (di_bound s Hs). pose proof (di_exact s Hs). pose proof (di_outstanding s Hs).
  assert (Hge : seg_flits slot ≤ data_rx_in_use s).
  { rewrite (di_exact s Hs). eapply rx_flits_ge; [| done]. intros. by eapply seg_flits_nonneg, di_segs. }
  assert (Hd' : ∀ s', dlp_inv s' → dlp_inv (set_desync s' (<[Z.to_nat vcid:=false]> (desynchronized s')))).
  { intros s' []. destruct di_slots0. split; try done. split; [done |].
    cbn [set_desync desynchronized]. by rewrite length_insert. }
  assert (Hl4 : length (<[Z.to_nat vcid:=None]> (rx s)) = 4%nat) by (rewrite length_insert; apply (di_slots s Hs)).
  specialize (Hsegs ltac:(done)).
  destruct slot as [seg |]; [| apply Hd', (inv_rx s (data_credit_outstanding s) (data_rx_in_use s)
    (<[Z.to_nat vcid:=None]> (rx s))); cbn [seg_flits] in *; try done; lia].
  cbn [seg_flits] in *. destruct (Hok seg eq_refl) as (_ & _ & Hr & He & Hx & _).
  assert (Hw : as_u32 (rs_received_flits seg) = rs_received_flits seg) by (apply Z.mod_small; zdiv).
  destruct (bool_decide (rs_traffic seg = TrData)); apply Hd'.
  - apply (inv_rx s (data_credit_outstanding s) (saturating_sub (data_rx_in_use s) (as_u32 (rs_received_flits seg)))
      (<[Z.to_nat vcid:=None]> (rx s))); try done; rewrite ?Hw; ulia.
  - apply (inv_rx s (data_credit_outstanding s) (data_rx_in_use s) (<[Z.to_nat vcid:=None]> (rx s)));
      try done; lia.
Qed.

(** ** The endpoint as a state machine *)

(** One call on the endpoint; the state it leaves, whatever it returns.  The
    arguments have the ranges of their Rust types. *)
Inductive dlp_call : Set :=
  | CNoteGranted (count : Z) | CGrantData (count : Z) | CGrantControl (count : Z)
  | CSetPrefix (prefix : Z) | CSetLink (up : bool)
  | CQueueControl (p : GdpPacket) | CQueueData (p : GdpPacket)
  | CPollFrame | CPollBurst (out : list Flit)
  | CReceiveFrame (f : GnetFrame) | CReceive (f : Flit) | CResetVc (vcid : Z).

Definition call_ok (c : dlp_call) : Prop :=
  match c with
  | CNoteGranted n | CGrantData n | CGrantControl n => u32 n
  | CSetPrefix p => u64 p
  | CReceiveFrame f => 0 ≤ gf_vcid f < 4 ∧ flit_len (gf_bytes f) < 2 ^ 32
  | CReceive f => 0 ≤ fl_vcid f < 4
  | CResetVc v => 0 ≤ v < 4
  | _ => True
  end.

Definition run_call (c : dlp_call) (s : DlpEndpoint) : DlpEndpoint :=
  match c with
  | CNoteGranted n => (note_data_credit_granted n s).1
  | CGrantData n => grant_data_tx_credit n s
  | CGrantControl n => grant_control_tx_credit n s
  | CSetPrefix p => set_local_prefix p s
  | CSetLink up => set_link_up up s
  | CQueueControl p => (queue_control_packet p s).1
  | CQueueData p => (queue_data_packet p s).1
  | CPollFrame => (poll_tx_frame s).1
  | CPollBurst out => (poll_tx_burst out s).1
  | CReceiveFrame f => (receive_frame f s).1
  | CReceive f => (receive f s).1
  | CResetVc v => (reset_vc v s).1
  end.

Inductive dlp_reachable : DlpEndpoint → Prop :=
  | dlp_init config s :
      u32 (dc_rx_buffer_flits config) → u64 (dc_local_prefix config) →
      endpoint_new config = Ok s → dlp_reachable s
  | dlp_next s c : dlp_reachable s → call_ok c → dlp_reachable (run_call c s).

Lemma run_call_inv c s : call_ok c → dlp_inv s → dlp_inv (run_call c s).
Proof.
  intros Hc Hs. destruct c; cbn in *; unfold u32 in *.
  - apply note_granted_preserves; [lia | done].
  - apply grant_data_inv; [lia | done].
  - apply grant_control_inv; [lia | done].
  - by apply set_prefix_inv.
  - by apply set_link_up_inv.
  - by apply queue_packet_preserves.
  - by apply queue_data_preserves.
  - by apply poll_tx_frame_preserves.
  - by apply poll_tx_burst_preserves.
  - destruct Hc as [[? ?] ?]. by apply receive_frame_preserves.
  - by apply receive_preserves.
  - by apply reset_vc_preserves.
Qed.

Lemma reachable_inv s : dlp_reachable s → dlp_inv s.
Proof.
  induction 1 as [config s Hb Hp Hn | s c Hs IH Hc]; [| by apply run_call_inv].
  by apply (endpoint_new_inv config).
Qed.



(** ** Properties *)

(** C6: credit safety of the link endpoint: in every state reachable by any
    sequence of calls, the credit advertised and not yet used plus the flits
    held never exceed the receive buffer, the buffer account is exactly the
    number of data flits held in open segments, and the credit still grantable
    is exactly the rest. *)
Theorem dlp_credit_safety s :
  dlp_reachable s →
  0 ≤ data_credit_outstanding s ∧
  data_credit_outstanding s + data_rx_in_use s ≤ rx_buffer_flits s ∧
  data_rx_in_use s = rx_flits (rx s) ∧
  grantable_data_credit s = rx_buffer_flits s - data_rx_in_use s - data_credit_outstanding s.
Proof.
  intros Hr%reachable_inv. split_and!; try apply Hr. by apply grantable_eq.
Qed.

Definition sample_config : DlpConfig := mkConfig GdpWireConfig_default 0 Four 64 32.
Definition sample_endpoint : DlpEndpoint := Eval vm_compute in
  match endpoint_new sample_config with
  | Ok s => run_call (CNoteGranted 10) s
  | _ => set_link_up false (mkEndpoint GdpWireConfig_default 0 Two 0 0 0 0 0 0 [] [] [] [] 0 false)
  end.

Lemma sample_endpoint_reachable : dlp_reachable sample_endpoint.
Proof.
  apply (dlp_next match endpoint_new sample_config with Ok s => s | _ => sample_endpoint end (CNoteGranted 10));
    [| cbn; ulia].
  apply (dlp_init sample_config); [cbn; ulia | cbn; ulia | reflexivity].
Qed.

Lemma dlp_credit_safety_witness :
  0 ≤ data_credit_outstanding sample_endpoint ∧
  data_credit_outstanding sample_endpoint + data_rx_in_use sample_endpoint ≤ rx_buffer_flits sample_endpoint ∧
  data_rx_in_use sample_endpoint = rx_flits (rx sample_endpoint) ∧
  grantable_data_credit sample_endpoint = rx_buffer_flits sample_endpoint -
    data_rx_in_use sample_endpoint - data_credit_outstanding sample_endpoint.
Proof. apply (dlp_credit_safety sample_endpoint). apply sample_endpoint_reachable. Defined.







(** Burst transmission is exact: given an endpoint with the link up and a
    buffer of [room] flits, it writes control flits first and then data flits,
    as many as the room, the lane's credit and the lane's queue allow; it
    spends one credit and dequeues one flit for each, and reports [NoCredit]
    only when nothing could be sent although a queue holds flits. *)
Theorem dlp_burst_exact s out :
  dlp_reachable s → link_up s = true → out ≠ [] →
  let mc := Z.min (len out) (Z.min (control_tx_credit s) (queued_control_flits s)) in
  let md := Z.min (len out - mc) (Z.min (data_tx_credit s) (queued_data_flits s)) in
  let '(s', r) := poll_tx_burst out s in
  control_tx_credit s' = control_tx_credit s - mc ∧ data_tx_credit s' = data_tx_credit s - md ∧
  queued_control_flits s' = queued_control_flits s - mc ∧
  queued_data_flits s' = queued_data_flits s - md ∧
  match r with
  | Ok (out', n) => n = mc + md ∧ len out' = len out ∧
      take (Z.to_nat n) out' = (emit_many (Z.to_nat mc) (control_tx_queue s)).1 ++
                               (emit_many (Z.to_nat md) (data_tx_queue s)).1
  | Err e => e = NoCredit ∧ mc + md = 0 ∧ 0 < queued_flits s
  | Panic => False
  end.
Proof.
  intros Hs%reachable_inv Hl Hout mc md. rewrite poll_tx_burst_eq by done.
  destruct (Z.eqb_spec (len out) 0) as [E |]; [by apply len_0_inv in E |].
  pose proof (burst_bounds s (len out) Hs (len_nonneg out)) as (Bc & _ & Bd & _ & Br).
  change (burst_control s (len out)) with mc in *. change (burst_data s (len out)) with md in *. cbv zeta.
  pose proof (di_control_q s Hs) as Hcq. pose proof (di_data_q s Hs) as Hdq.
  destruct (emit_many_ok _ _ (Z.to_nat mc) _ Hcq) as (_ & Lc & Rc & _);
    [unfold queued_control_flits in *; lia |].
  destruct (emit_many_ok _ _ (Z.to_nat md) _ Hdq) as (_ & Ld & Rd & _);
    [unfold queued_data_flits in *; lia |].
  split; [done |]. split; [done |]. unfold queued_control_flits, queued_data_flits in *.
  cbn [after_burst set_data_tx set_control_tx control_tx_queue data_tx_queue].
  split; [rewrite Rc; lia |]. split; [rewrite Rd; lia |].
  unfold burst_flits. change (burst_control s (len out)) with mc. change (burst_data s (len out)) with md.
  set (fc := (emit_many (Z.to_nat mc) (control_tx_queue s)).1) in *.
  set (fd := (emit_many (Z.to_nat md) (data_tx_queue s)).1) in *.
  destruct (Z.eqb_spec (mc + md) 0) as [E |]; cbn [negb].
  - assert (mc = 0 ∧ md = 0) as [E1 E2] by lia. destruct (queues_empty s) eqn:Eq.
    + rewrite E1, E2 in *. split_and!; try done.
      assert (fc = [] ∧ fd = []) as [-> ->] by (by split; apply length_zero_iff_nil). done.
    + split_and!; try done. unfold queued_flits, queued_control_flits, queued_data_flits.
      pose proof (queue_flits_nonneg (control_tx_queue s)). pose proof (queue_flits_nonneg (data_tx_queue s)).
      destruct (Z.eq_dec (queue_flits (control_tx_queue s)) 0) as [Z1 |]; [| lia].
      destruct (Z.eq_dec (queue_flits (data_tx_queue s)) 0) as [Z2 |]; [| lia].
      pose proof (queue_flits_0 _ _ _ Hcq Z1) as Q1. pose proof (queue_flits_0 _ _ _ Hdq Z2) as Q2.
      unfold queues_empty in Eq. by rewrite Q1, Q2 in Eq.
  - assert (Hl' : len (fc ++ fd) = mc + md) by (unfold len; rewrite length_app; lia).
    split_and!; [done | rewrite len_app, Hl', len_drop; lia | rewrite take_app_length'; [done |]]. unfold len in Hl'. lia.
Qed.

Lemma dlp_burst_exact_witness :
  let s := sample_endpoint in
  let out := [mkFlit 0 0; mkFlit 0 0] in
  let mc := Z.min (len out) (Z.min (control_tx_credit s) (queued_control_flits s)) in
  let md := Z.min (len out - mc) (Z.min (data_tx_credit s) (queued_data_flits s)) in
  let '(s', r) := poll_tx_burst out s in
  control_tx_credit s' = control_tx_credit s - mc ∧ data_tx_credit s' = data_tx_credit s - md ∧
  queued_control_flits s' = queued_control_flits s - mc ∧
  queued_data_flits s' = queued_data_flits s - md ∧
  match r with
  | Ok (out', n) => n = mc + md ∧ len out' = len out ∧
      take (Z.to_nat n) out' = (emit_many (Z.to_nat mc) (control_tx_queue s)).1 ++
                               (emit_many (Z.to_nat md) (data_tx_queue s)).1
  | Err e => e = NoCredit ∧ mc + md = 0 ∧ 0 < queued_flits s
  | Panic => False
  end.
Proof.
  apply (dlp_burst_exact sample_endpoint); [apply sample_endpoint_reachable | reflexivity | done].
Defined.
