(* ===== verification/DlpLink.v ===== *)
(** * The recoverable link and its packet port (src/src/dlp_v01.rs, dlp_gdp.rs)

    [DlpLink] adds the Down / Recovering / Up state machine to an endpoint;
    [DlpGdpPort] hides flits and credit behind complete GDP packets. *)
From stdpp Require Import prelude.
From Stdlib Require Import ZArith Lia.
From S2P Require Import Prelude GdpWire Dlp.
Local Open Scope Z_scope.

(** ** dlp_v01.rs *)

Inductive DlpLinkState : Set := Down | Recovering | Up.
#[export] Instance DlpLinkState_eq_dec : EqDecision DlpLinkState.
Proof. solve_decision. Defined.

Record DlpLink : Set := mkLink {
  lk_endpoint : DlpEndpoint;
  lk_state : DlpLinkState;
  lk_generation : Z }.

Definition link_new (config : DlpConfig) : res DlpLink :=
  endpoint ← endpoint_new config;
  let endpoint := set_link_up false endpoint in
  Ok {| lk_endpoint := endpoint; lk_state := Down; lk_generation := 0 |}.

Definition begin_recovery : st DlpLink unit :=
  s ← gets id;
  guard_st (negb (bool_decide (lk_state s = Down))) InvalidState;;
  modify (λ s, mkLink (set_link_up true (lk_endpoint s)) Recovering (lk_generation s)).

Definition complete_recovery : st DlpLink unit :=
  s ← gets id;
  guard_st (negb (bool_decide (lk_state s = Recovering))) InvalidState;;
  modify (λ s, mkLink (lk_endpoint s) Up (lk_generation s)).

Definition link_reset (s : DlpLink) : DlpLink :=
  mkLink (set_link_up false (lk_endpoint s)) Down (wrapping_add 32 (lk_generation s) 1).

Definition require_up (s : DlpLink) : res unit :=
  if bool_decide (lk_state s = Up) then Ok tt else Err LinkDown.

(** [self.require_up()?; self.endpoint.f(..)] *)
Definition when_up {A} (m : st DlpEndpoint A) : st DlpLink A :=
  s ← gets id;
  lift (require_up s);;
  zoom lk_endpoint (λ e s, mkLink e (lk_state s) (lk_generation s)) m.

Definition link_queue_data_packet (p : GdpPacket) : st DlpLink Z := when_up (queue_data_packet p).
Definition link_queue_control_packet (p : GdpPacket) : st DlpLink Z := when_up (queue_control_packet p).
Definition link_poll_tx : st DlpLink (option Flit) := when_up poll_tx.
Definition link_poll_tx_burst (out : list Flit) : st DlpLink (list Flit * Z) := when_up (poll_tx_burst out).
Definition link_poll_tx_frame : st DlpLink (option GnetFrame) := when_up poll_tx_frame.
Definition link_receive (f : Flit) : st DlpLink (option GdpPacket) := when_up (receive f).
Definition link_receive_frame (f : GnetFrame) : st DlpLink GdpPacket := when_up (receive_frame f).

(** Both ends are borrowed: the state is the pair (receiver, sender). *)
Definition link_grant_peer_data_credit (count : Z) : st (DlpLink * DlpLink) unit :=
  s ← gets id;
  lift (require_up s.1);;
  lift (require_up s.2);;
  zoom (λ s, lk_endpoint s.1) (λ e s, (mkLink e (lk_state s.1) (lk_generation s.1), s.2))
    (note_data_credit_granted count);;
  modify (λ s, (s.1, mkLink (grant_data_tx_credit count (lk_endpoint s.2)) (lk_state s.2)
                       (lk_generation s.2))).

Definition link_grant_peer_control_credit (count : Z) : st DlpLink unit :=
  s ← gets id;
  lift (require_up s);;
  modify (λ s, mkLink (grant_control_tx_credit count (lk_endpoint s)) (lk_state s) (lk_generation s)).

(** ** dlp_gdp.rs *)

(** The trait [GdpPacketPort]: what routers and endpoints see of a link. *)
Class GdpPacketPort (P : Type) : Type := {
  poll_gdp : P → P * option GdpPacket;
  transmit_gdp : GdpPacket → st P unit }.

Record DlpGdpPort : Set := mkPort { pt_link : DlpLink; pt_received : list GdpPacket }.

Definition port_new (config : DlpConfig) : res DlpGdpPort :=
  link ← link_new config; Ok {| pt_link := link; pt_received := [] |}.

Definition on_link {A} (m : st DlpLink A) : st DlpGdpPort A :=
  zoom pt_link (λ l s, mkPort l (pt_received s)) m.

Definition port_begin_recovery : st DlpGdpPort unit := on_link begin_recovery.
Definition port_complete_recovery : st DlpGdpPort unit := on_link complete_recovery.
Definition port_reset (s : DlpGdpPort) : DlpGdpPort := mkPort (link_reset (pt_link s)) [].

Definition push_received (p : GdpPacket) (s : DlpGdpPort) : DlpGdpPort :=
  mkPort (pt_link s) (pt_received s ++ [p]).

Definition physical_receive_flit (f : Flit) : st DlpGdpPort bool :=
  p ← on_link (link_receive f);
  match p with
  | Some packet => modify (push_received packet);; mret true
  | None => mret false
  end.
Definition physical_receive_frame (f : GnetFrame) : st DlpGdpPort unit :=
  packet ← on_link (link_receive_frame f); modify (push_received packet).
Definition physical_poll_tx_flit : st DlpGdpPort (option Flit) := on_link link_poll_tx.
Definition physical_poll_tx_burst (out : list Flit) : st DlpGdpPort (list Flit * Z) :=
  on_link (link_poll_tx_burst out).
Definition physical_poll_tx_frame : st DlpGdpPort (option GnetFrame) := on_link link_poll_tx_frame.

Definition port_grant_peer_data_credit (count : Z) : st (DlpGdpPort * DlpGdpPort) unit :=
  zoom (λ s, (pt_link s.1, pt_link s.2))
    (λ l s, (mkPort l.1 (pt_received s.1), mkPort l.2 (pt_received s.2)))
    (link_grant_peer_data_credit count).
Definition port_grant_peer_control_credit (count : Z) : st DlpGdpPort unit :=
  on_link (link_grant_peer_control_credit count).

Definition port_poll_gdp (s : DlpGdpPort) : DlpGdpPort * option GdpPacket :=
  match pt_received s with
  | [] => (s, None)
  | p :: rest => (mkPort (pt_link s) rest, Some p)
  end.

Definition port_transmit_gdp (packet : GdpPacket) : st DlpGdpPort unit :=
  match hdr_packet_type (pkt_header packet) with
  | Gctl => on_link (link_queue_control_packet packet);; mret tt
  | Gts | Reserved _ => on_link (link_queue_data_packet packet);; mret tt
  end.

#[export] Instance dlp_port : GdpPacketPort DlpGdpPort := {|
  poll_gdp := port_poll_gdp;
  transmit_gdp := port_transmit_gdp |}.

(** ** The link state machine *)

Inductive link_call : Set :=
  | LBegin | LComplete | LReset' | LGrantData (count : Z) | LGrantControl (count : Z)
  | LNoteGranted (count : Z) | LQueueData (p : GdpPacket) | LQueueControl (p : GdpPacket)
  | LPollTx | LPollBurst (out : list Flit) | LPollFrame
  | LReceive (f : Flit) | LReceiveFrame (f : GnetFrame).

Definition link_call_ok (c : link_call) : Prop :=
  match c with
  | LGrantData n | LGrantControl n | LNoteGranted n => u32 n
  | LReceive f => 0 ≤ fl_vcid f < 4
  | LReceiveFrame f => 0 ≤ gf_vcid f < 4 ∧ flit_len (gf_bytes f) < 2 ^ 32
  | _ => True
  end.

(** The state a call leaves and whether it succeeded.  [LNoteGranted] and
    [LGrantData] are the two halves of [grant_peer_data_credit]. *)
Definition run_link (c : link_call) (s : DlpLink) : DlpLink * bool :=
  let run {A} (m : st DlpLink A) := let '(s', r) := m s in (s', is_ok r) in
  match c with
  | LBegin => run begin_recovery
  | LComplete => run complete_recovery
  | LReset' => (link_reset s, true)
  | LGrantData n => run (when_up (modify (grant_data_tx_credit n)))
  | LGrantControl n => run (link_grant_peer_control_credit n)
  | LNoteGranted n => run (when_up (note_data_credit_granted n))
  | LQueueData p => run (link_queue_data_packet p)
  | LQueueControl p => run (link_queue_control_packet p)
  | LPollTx => run link_poll_tx
  | LPollBurst out => run (link_poll_tx_burst out)
  | LPollFrame => run link_poll_tx_frame
  | LReceive f => run (link_receive f)
  | LReceiveFrame f => run (link_receive_frame f)
  end.

Inductive link_reachable : DlpLink → Prop :=
  | link_init config s :
      u32 (dc_rx_buffer_flits config) → u64 (dc_local_prefix config) →
      link_new config = Ok s → link_reachable s
  | link_next s c : link_reachable s → link_call_ok c → link_reachable (run_link c s).1.

(** Nothing of an earlier generation is left in the endpoint. *)
Definition endpoint_clean (e : DlpEndpoint) : Prop :=
  control_tx_queue e = [] ∧ data_tx_queue e = [] ∧ rx e = no_segments ∧ desynchronized e = no_desync ∧
  data_tx_credit e = 0 ∧ control_tx_credit e = 0 ∧ data_credit_outstanding e = 0 ∧ data_rx_in_use e = 0.

Record link_inv (s : DlpLink) : Prop := {
  li_endpoint : dlp_inv (lk_endpoint s);
  li_up : link_up (lk_endpoint s) = bool_decide (lk_state s ≠ Down);
  li_clean : lk_state s ≠ Up → endpoint_clean (lk_endpoint s);
  li_generation : u32 (lk_generation s) }.

Lemma when_up_eq {A} (m : st DlpEndpoint A) s :
  when_up m s = if bool_decide (lk_state s = Up)
    then let '(e, r) := m (lk_endpoint s) in (mkLink e (lk_state s) (lk_generation s), r)
    else (s, Err LinkDown).
Proof.
  unfold when_up, mbind, st_bind, gets, lift, require_up, zoom. cbn [id].
  by case_bool_decide.
Qed.

(** Operations on the endpoint never toggle its link flag. *)
Definition keeps_link {A} (m : st DlpEndpoint A) : Prop := ∀ s, link_up (m s).1 = link_up s.

Lemma keeps_link_preserves {A} (m : st DlpEndpoint A) :
  (∀ b, preserves (λ s, link_up s = b) m) → keeps_link m.
Proof. intros H s. by apply H. Qed.

Lemma when_up_preserves {A} (m : st DlpEndpoint A) :
  preserves dlp_inv m → keeps_link m → preserves link_inv (when_up m).
Proof.
  intros Hm Hk s Hs. rewrite when_up_eq. case_bool_decide as E; [| done].
  destruct Hs as [He Hu Hc Hg]. specialize (Hm _ He). specialize (Hk (lk_endpoint s)).
  destruct (m (lk_endpoint s)) as [e r]. cbn [fst] in *. split; cbn; try done. by rewrite Hk.
Qed.

Lemma preserves_zoom {S T A} (P : S → Prop) (proj : S → T) (put : T → S → S) (m : st T A) :
  (∀ t s, P s → P (put t s)) → preserves P (zoom proj put m).
Proof. intros H s Hs. unfold zoom. destruct (m (proj s)). by apply H. Qed.

Ltac keep_link_step :=
  first [ apply preserves_bind; [| intros ?]
        | apply preserves_lift | apply preserves_guard | apply preserves_gets | apply preserves_ret
        | apply preserves_modify; intros ? ?; cbv beta in *; repeat case_match; done
        | apply preserves_zoom; intros [? ?] ? ?; done
        | case_match ].
Ltac keep_link := apply keeps_link_preserves; intros b; repeat keep_link_step.

Lemma keeps_queue tr v p : keeps_link (queue_packet_on tr v p).
Proof. unfold queue_packet_on. keep_link. Qed.
Lemma keeps_queue_data p : keeps_link (queue_data_packet p).
Proof.
  unfold queue_data_packet. apply keeps_link_preserves. intros b.
  apply preserves_bind; [by intros s | intros v s Hs]. by rewrite keeps_queue.
Qed.
Lemma keeps_burst out : keeps_link (poll_tx_burst out).
Proof. unfold poll_tx_burst. keep_link. Qed.
Lemma keeps_poll_tx : keeps_link poll_tx.
Proof.
  unfold poll_tx. apply keeps_link_preserves. intros b.
  apply preserves_bind; [intros s Hs; by rewrite keeps_burst | intros [one n]; repeat keep_link_step].
Qed.
Lemma keeps_frame : keeps_link poll_tx_frame.
Proof. unfold poll_tx_frame. keep_link. Qed.
Lemma keeps_receive f : keeps_link (receive f).
Proof. unfold receive, receive_segment, receive_push. keep_link. Qed.
Lemma keeps_receive_frame f : keeps_link (receive_frame f).
Proof. unfold receive_frame. keep_link. Qed.
Lemma keeps_note n : keeps_link (note_data_credit_granted n).
Proof. unfold note_data_credit_granted. keep_link. Qed.

Lemma poll_tx_preserves : preserves dlp_inv poll_tx.
Proof.
  unfold poll_tx. apply preserves_bind; [apply poll_tx_burst_preserves |]. intros [one n].
  repeat keep_link_step.
Qed.

Lemma set_link_up_clean s : endpoint_clean (set_link_up false s).
Proof. done. Qed.

Lemma fst_run {A} (p : DlpLink * res A) : (let '(s', r) := p in (s', is_ok r)).1 = p.1.
Proof. by destruct p. Qed.

Lemma run_link_inv c s : link_call_ok c → link_inv s → link_inv (run_link c s).1.
Proof.
  intros Hc Hs. destruct c; cbn [run_link link_call_ok] in *; rewrite ?fst_run; unfold u32 in *.
  - unfold begin_recovery, mbind, st_bind, gets, guard_st, lift, modify. cbn [id].
    case_bool_decide as E; cbn [negb fail_if fst]; [| done].
    destruct Hs as [He Hu Hcl Hg]. rewrite E in *. split; cbn [lk_endpoint lk_state lk_generation fst link_reset]; try done.
    + by apply set_link_up_inv.
    + intros _. by destruct (Hcl ltac:(done)).
  - unfold complete_recovery, mbind, st_bind, gets, guard_st, lift, modify. cbn [id].
    case_bool_decide as E; cbn [negb fail_if fst]; [| done].
    destruct Hs as [He Hu Hcl Hg]. rewrite E in *. split; cbn [lk_endpoint lk_state lk_generation fst]; try done.
  - destruct Hs. split; cbn [lk_endpoint lk_state lk_generation fst link_reset]; try done; [by apply set_link_up_inv |].
    unfold wrapping_add, u32. change (2 ^ 32) with 0x100000000. apply Z.mod_pos_bound. lia.
  - apply when_up_preserves; [| by intros e | done]. intros e He. apply grant_data_inv; [lia | done].
  - unfold link_grant_peer_control_credit, mbind, st_bind, gets, lift, modify, require_up. cbn [id].
    case_bool_decide; [| done]. destruct Hs. split; cbn [lk_endpoint lk_state lk_generation fst link_reset]; try done. apply grant_control_inv; [lia | done].
  - apply when_up_preserves; [apply note_granted_preserves; lia | apply keeps_note | done].
  - apply when_up_preserves; [apply queue_data_preserves | apply keeps_queue_data | done].
  - apply when_up_preserves; [by apply queue_packet_preserves | apply keeps_queue | done].
  - apply when_up_preserves; [apply poll_tx_preserves | apply keeps_poll_tx | done].
  - apply when_up_preserves; [apply poll_tx_burst_preserves | apply keeps_burst | done].
  - apply when_up_preserves; [apply poll_tx_frame_preserves | apply keeps_frame | done].
  - apply when_up_preserves; [by apply receive_preserves | apply keeps_receive | done].
  - destruct Hc. apply when_up_preserves; [apply receive_frame_preserves; lia | apply keeps_receive_frame | done].
Qed.

Lemma link_reachable_inv s : link_reachable s → link_inv s.
Proof.
  induction 1 as [config s Hb Hp Hn | s c Hs IH Hc]; [| by apply run_link_inv].
  unfold link_new in Hn. apply bind_Ok in Hn as (e & He & <-%Ok_inj).
  destruct (endpoint_new_inv config e Hb Hp He) as (Hi & _ & _).
  split; cbn [lk_endpoint lk_state lk_generation fst link_reset]; try done; by apply set_link_up_inv.
Qed.

(** C8: the link is a fail-stop state machine: in every reachable state,
    outside [Up] every transfer call is refused with [LinkDown] and changes
    nothing, and the endpoint holds no queue, segment or credit of an earlier
    generation; [Up] is entered only through [begin_recovery] and
    [complete_recovery] in that order. *)
Theorem link_fail_stop s c :
  link_reachable s →
  let transfer := match c with LBegin | LComplete | LReset' => false | _ => true end in
  (lk_state s ≠ Up → endpoint_clean (lk_endpoint s) ∧ (transfer = true → run_link c s = (s, false))) ∧
  (lk_state (run_link c s).1 ≠ lk_state s →
     match c with
     | LBegin => lk_state s = Down ∧ lk_state (run_link c s).1 = Recovering
     | LComplete => lk_state s = Recovering ∧ lk_state (run_link c s).1 = Up
     | LReset' => lk_state (run_link c s).1 = Down ∧
                  lk_generation (run_link c s).1 = wrapping_add 32 (lk_generation s) 1
     | _ => False
     end).
Proof.
  intros Hr%link_reachable_inv transfer.
  assert (Hw : ∀ A (m : st DlpEndpoint A), lk_state s ≠ Up → when_up m s = (s, Err LinkDown))
    by (intros; rewrite when_up_eq; by rewrite bool_decide_eq_false_2).
  assert (Hk : ∀ A (m : st DlpEndpoint A), lk_state (when_up m s).1 = lk_state s).
  { intros. rewrite when_up_eq. case_bool_decide; [| done]. by destruct (m _). }
  assert (Hctl : ∀ n, lk_state s ≠ Up → link_grant_peer_control_credit n s = (s, Err LinkDown)).
  { intros n Hn. unfold link_grant_peer_control_credit, mbind, st_bind, gets, lift, require_up. cbn [id].
    by rewrite bool_decide_eq_false_2. }
  split.
  - intros Hn. split; [by apply (li_clean s Hr) |].
    destruct c; cbn [transfer]; try done; intros _; cbn [run_link];
      first [rewrite Hctl by done; done | unfold link_queue_data_packet, link_queue_control_packet,
        link_poll_tx, link_poll_tx_burst, link_poll_tx_frame, link_receive, link_receive_frame;
        rewrite Hw by done; done].
  - destruct c; cbn [run_link]; rewrite ?fst_run;
      try (unfold link_queue_data_packet, link_queue_control_packet,
        link_poll_tx, link_poll_tx_burst, link_poll_tx_frame, link_receive, link_receive_frame;
        rewrite Hk; done).
    + unfold begin_recovery, mbind, st_bind, gets, guard_st, lift, modify. cbn [id].
      case_bool_decide; done.
    + unfold complete_recovery, mbind, st_bind, gets, guard_st, lift, modify. cbn [id].
      case_bool_decide; done.
    + done.
    + unfold link_grant_peer_control_credit, mbind, st_bind, gets, lift, modify, require_up. cbn [id].
      case_bool_decide; done.
Qed.

Definition sample_link : DlpLink := Eval vm_compute in
  match link_new sample_config with
  | Ok s => s | _ => mkLink sample_endpoint Down 0 end.

Lemma link_fail_stop_witness :
  (lk_state sample_link ≠ Up →
     endpoint_clean (lk_endpoint sample_link) ∧
     (true = true → run_link (LReceive (mkFlit 1 7)) sample_link = (sample_link, false))) ∧
  (lk_state (run_link (LReceive (mkFlit 1 7)) sample_link).1 ≠ lk_state sample_link → False).
Proof.
  apply (link_fail_stop sample_link (LReceive (mkFlit 1 7))).
  apply (link_init sample_config); [cbn; ulia | cbn; ulia | reflexivity].
Defined.
