(* ===== verification/DlpSystem.v ===== *)
(** * Two ends of a link

    A sending [DlpGdpPort], a channel and a receiving one: packets arrive in
    order, once, intact, and credit makes every delivery succeed. *)
From stdpp Require Import prelude.
From Stdlib Require Import ZArith Lia.
From S2P Require Import Prelude GdpWire Dlp DlpLink.
Local Open Scope Z_scope.

(** ** One frame, flit by flit *)

Definition pad (bs : list Z) : list Z := bs ++ zeros (4 * flit_len bs - len bs).

Lemma flit_len_bounds bs : len bs ≤ 4 * flit_len bs < len bs + 4.
Proof. unfold flit_len. lens. zdiv. Qed.

Lemma len_pad bs : len (pad bs) = 4 * flit_len bs.
Proof. pose proof (flit_len_bounds bs). unfold pad. len_goal. Qed.

Lemma flit_word_eq bs k :
  0 ≤ k < flit_len bs → flit_word bs k = slice (pad bs) (4 * k) (4 * k + 4).
Proof.
  intros Hk. pose proof (flit_len_bounds bs). unfold flit_word, pad.
  replace (k * 4) with (4 * k) by lia.
  destruct (decide (4 * k + 4 ≤ len bs)).
  - rewrite Z.min_l by lia. rewrite slice_app_l by lia.
    assert (len (slice bs (4 * k) (4 * k + 4)) = 4) as -> by (rewrite len_slice; lia). apply app_nil_r.
  - rewrite Z.min_r by lia. assert (k = flit_len bs - 1) by lia.
    rewrite (slice_split (bs ++ _) (4 * k) (len bs)) by lia.
    rewrite slice_app_l, slice_app_r by lia. f_equal.
    rewrite slice_zeros by lia. f_equal. rewrite len_slice. lia.
Qed.

Lemma flit_word_bytes bs k : bytes bs → bytes (flit_word bs k).
Proof. intros. unfold flit_word. apply bytes_app. split; [by apply bytes_slice | apply bytes_zeros]. Qed.

Lemma to_be_flit bs k :
  bytes bs → 0 ≤ k < flit_len bs → to_be 4 (from_be (flit_word bs k)) = flit_word bs k.
Proof.
  intros Hb Hk. pose proof (to_be_from_be _ (flit_word_bytes bs k Hb)) as E.
  replace (length (flit_word bs k)) with 4%nat in E; [done |].
  rewrite flit_word_eq by done. enough (len (slice (pad bs) (4 * k) (4 * k + 4)) = 4) by (unfold len in *; lia).
  rewrite len_slice, len_pad. lia.
Qed.

(** Packets both ends agree on: what the encoder accepts and the receiver's
    Local prefix restores. *)
Definition valid_packet (lp : Z) (p : GdpPacket) : Prop :=
  wf_header (pkt_header p) ∧ prefix_matches (pkt_header p) lp ∧
  len (pkt_payload p) = sc_bytes (hdr_size_class (pkt_header p)) ∧ bytes (pkt_payload p).

Lemma valid_encode lp p cfg :
  valid_packet lp p →
  packet_encode p cfg = Ok (header_wire (pkt_header p) cfg ++ pkt_payload p) ∧
  packet_decode (header_wire (pkt_header p) cfg ++ pkt_payload p) cfg lp = Ok p.
Proof.
  intros (Hw & Hp & Hl & _). pose proof (packet_encode_ok p cfg Hw Hl) as He. split; [done |].
  destruct (packet_roundtrip p cfg lp Hw Hp Hl) as (w & Hw' & _ & Hd). rewrite He in Hw'.
  by apply Ok_inj in Hw' as <-.
Qed.

Lemma header_wire_bytes h cfg : bytes (header_wire h cfg).
Proof.
  unfold header_wire. apply bytes_app. split; [apply bytes_to_be |].
  destruct (hdr_addresses h); rewrite ?bytes_app; repeat split; apply bytes_to_be.
Qed.

(** The first word of a frame announces its length. *)
Lemma open_first lp p bs s tr :
  valid_packet lp p → packet_encode p (cfg s) = Ok bs →
  open_segment s (from_be (flit_word bs 0)) tr = Ok (mkSeg [] (len bs) (flit_len bs) 0 tr).
Proof.
  intros Hv He. destruct (valid_encode lp p (cfg s) Hv) as [He' _]. rewrite He in He'.
  apply Ok_inj in He' as ->. destruct Hv as (Hw & _ & Hl & _).
  pose proof (header_word_ranges (pkt_header p) (cfg s) Hw) as Hr.
  pose proof (header_word1_eq (pkt_header p) (cfg s) Hw) as Heq.
  pose proof (word_sum_range _ _ _ _ _ _ Hr) as H32.
  destruct (word_fields _ _ _ _ _ _ Hr) as (_ & _ & E3 & E4 & _). cbv zeta in *. rewrite <- Heq in *.
  assert (Hword : flit_word (header_wire (pkt_header p) (cfg s) ++ pkt_payload p) 0
    = to_be 4 (header_word1 (pkt_header p) (cfg s))).
  { pose proof (header_len_pos (pkt_header p)). unfold flit_word. lens.
    rewrite Z.min_l by (rewrite len_app, len_header_wire; lia).
    rewrite slice_app_l by (rewrite ?len_header_wire; lia). unfold header_wire.
    rewrite slice_app_l, slice_full by (rewrite ?len_to_be; lia). rewrite len_to_be.
    change (zeros (4 - Z.of_nat 4)) with (@nil Z). by rewrite app_nil_r. }
  rewrite Hword, from_be_to_be by exact H32. unfold open_segment. rewrite E3, E4.
  pose proof (sc_index_range (hdr_size_class (pkt_header p))).
  unfold as_u8. rewrite Z.mod_small, sc_from_index, bind_Ok_l by lia.
  replace (negb (Z.b2z _ =? 0)) with (form_bit (cfg s) (addr_form (hdr_addresses (pkt_header p))))
    by (by destruct (form_bit _ _)).
  rewrite form_from_form_bit. unfold flit_len. rewrite !len_app, len_header_wire, Hl.
  unfold header_len. by destruct (hdr_addresses (pkt_header p)).
Qed.

(** What the receiver holds of a frame of which [tx_flit_offset] flits have
    arrived. *)
Definition seg_at (f : TxFrame) : RxSegment :=
  mkSeg (slice (pad (tx_bytes f)) 0 (4 * tx_flit_offset f)) (len (tx_bytes f))
    (flit_len (tx_bytes f)) (tx_flit_offset f) (tx_traffic f).
Definition slot_at (f : TxFrame) : option RxSegment :=
  if tx_flit_offset f =? 0 then None else Some (seg_at f).

Definition frame_carries (lp : Z) (cfg : GdpWireConfig) (f : TxFrame) (p : GdpPacket) : Prop :=
  valid_packet lp p ∧ packet_encode p cfg = Ok (tx_bytes f).

Lemma carries_bytes lp cfg f p :
  frame_carries lp cfg f p →
  bytes (tx_bytes f) ∧ 8 ≤ len (tx_bytes f) ≤ 8212 ∧ packet_decode (tx_bytes f) cfg lp = Ok p.
Proof.
  intros [Hv He]. destruct (valid_encode lp p cfg Hv) as [He' Hd]. rewrite He in He'.
  apply Ok_inj in He' as E. rewrite E. destruct Hv as (_ & _ & Hl & Hb).
  pose proof (header_len_pos (pkt_header p)). pose proof (sc_bytes_range (hdr_size_class (pkt_header p))).
  split_and!; [| rewrite len_app, len_header_wire; lia.. | done].
  apply bytes_app. split; [apply header_wire_bytes | done].
Qed.

Lemma segment_for_at lp s f p vcs :
  frame_carries lp (cfg s) f p → tx_ok vcs (segment_traffic (tx_vcid f)) f →
  segment_for s (flit_at (tx_vcid f) (tx_bytes f) (tx_flit_offset f)) (slot_at f) = seg_at f.
Proof.
  intros [Hv He] (Ht & _). unfold slot_at. destruct (Z.eqb_spec (tx_flit_offset f) 0) as [E |]; [| done].
  unfold segment_for. cbn [flit_at fl_data fl_vcid]. rewrite E, (open_first lp p _ _ _ Hv He).
  unfold seg_at. rewrite E, Ht. by rewrite slice_nil_eq by lia.
Qed.

Lemma seg_push_at lp cfg f p :
  frame_carries lp cfg f p → 0 ≤ tx_flit_offset f < flit_len (tx_bytes f) →
  seg_push (seg_at f) (from_be (flit_word (tx_bytes f) (tx_flit_offset f))) = seg_at (advance f).
Proof.
  intros Hc Ho. destruct (carries_bytes _ _ _ _ Hc) as (Hb & _). unfold seg_push, seg_at.
  cbn [rs_bytes rs_expected_bytes rs_expected_flits rs_received_flits rs_traffic advance tx_bytes
    tx_flit_offset tx_traffic].
  rewrite to_be_flit, flit_word_eq by done. f_equal.
  rewrite <- slice_split by lia. f_equal. lia.
Qed.

(** The endpoint once a data or control flit has been accounted for. *)
Definition spent (s : DlpEndpoint) (vcid : Z) (flits : Z) : Z :=
  data_credit_outstanding s - (if is_data vcid then flits else 0).

(** Receiving the next flit of the frame a channel is receiving: the segment
    advances, and the last flit delivers the packet. *)
Lemma receive_next lp s f p :
  dlp_inv s → link_up s = true → local_prefix s = lp →
  frame_carries lp (cfg s) f p → tx_ok (vc_count s) (segment_traffic (tx_vcid f)) f →
  desynchronized s !! Z.to_nat (tx_vcid f) = Some false →
  rx s !! Z.to_nat (tx_vcid f) = Some (slot_at f) →
  (is_data (tx_vcid f) = true → 0 < data_credit_outstanding s) →
  ∃ u, receive (flit_at (tx_vcid f) (tx_bytes f) (tx_flit_offset f)) s =
    (set_rx (set_rx_account s (spent s (tx_vcid f) 1) u)
       (<[Z.to_nat (tx_vcid f) := if remaining_flits (advance f) =? 0 then None
          else Some (seg_at (advance f))]> (rx s)),
     Ok (if remaining_flits (advance f) =? 0 then Some p else None)).
Proof.
  intros Hi Hup <- Hc Htx Hd Hslot Hcr. pose proof Htx as (Ht & Hv & _ & Ho).
  unfold tx_flit_len in Ho. change ((len (tx_bytes f) + 3) / 4) with (flit_len (tx_bytes f)) in Ho.
  pose proof (vc_count_range s). set (fl := flit_at (tx_vcid f) (tx_bytes f) (tx_flit_offset f)).
  assert (Hok : ∀ seg, slot_at f = Some seg → seg_ok (vc_count s) (fl_vcid fl) seg).
  { intros seg Hs. rewrite Hs in Hslot. pose proof (di_segs s Hi _ _ Hslot) as Hg.
    by rewrite Z2Nat.id in Hg by lia. }
  rewrite (receive_cases s fl (slot_at f) false) by (done || (cbn; lia)). cbn [fl flit_at fl_vcid].
  rewrite Hup. cbn [negb]. destruct (Z.leb_spec (vc_count s) (tx_vcid f)); [lia |].
  replace (is_data (tx_vcid f) && _) with false
    by (destruct (is_data (tx_vcid f)); [specialize (Hcr eq_refl); cbn; lia | done]).
  subst fl. rewrite (segment_for_at (local_prefix s) _ _ p (vc_count s)) by done.
  unfold accept_flit. cbn [flit_at fl_vcid fl_data].
  rewrite (seg_push_at (local_prefix s) (cfg s) f p) by (done || lia).
  cbn [seg_at rs_received_flits rs_expected_flits rs_expected_bytes rs_bytes advance tx_bytes tx_flit_offset].
  assert (Hrem : (remaining_flits (advance f) =? 0) = negb (tx_flit_offset f + 1 <? flit_len (tx_bytes f))).
  { unfold remaining_flits, saturating_sub, tx_flit_len. cbn [advance tx_bytes tx_flit_offset].
    change ((len (tx_bytes f) + 3) / 4) with (flit_len (tx_bytes f)). lia. }
  rewrite Hrem. destruct (Z.ltb_spec (tx_flit_offset f + 1) (flit_len (tx_bytes f))); cbn [negb].
  - unfold charge, spent. destruct (is_data (tx_vcid f)); [by eexists |].
    exists (data_rx_in_use s). rewrite Z.sub_0_r. by destruct s.
  - replace (slice (pad (tx_bytes f)) 0 (4 * (tx_flit_offset f + 1))) with (pad (tx_bytes f)).
    2: { rewrite slice_full; [done | done |]. rewrite len_pad. lia. }
    replace (take (Z.to_nat (len (tx_bytes f))) (pad (tx_bytes f))) with (tx_bytes f).
    2: { unfold pad. by rewrite take_app_length' by (unfold len; lia). }
    destruct (carries_bytes _ _ _ _ Hc) as (_ & _ & ->). cbn iota.
    unfold charge, spent. destruct (is_data (tx_vcid f)); [by eexists |].
    exists (data_rx_in_use s). rewrite Z.sub_0_r. by destruct s.
Qed.

(** ** The channel between two ports *)

Inductive item : Set := IFlit (f : Flit) | IFrame (fr : GnetFrame).
Definition item_vcid (i : item) : Z := match i with IFlit f => fl_vcid f | IFrame fr => gf_vcid fr end.
Definition item_lane (i : item) : LinkTraffic := segment_traffic (item_vcid i).
Definition item_flits (i : item) : Z :=
  match i with IFlit _ => 1 | IFrame fr => flit_len (gf_bytes fr) end.

(** The lane DLP gives a packet. *)
Definition packet_lane (p : GdpPacket) : LinkTraffic :=
  match hdr_packet_type (pkt_header p) with Gctl => TControl | _ => TrData end.

Definition lane_items (L : LinkTraffic) (l : list item) : list item :=
  filter (λ i, item_lane i = L) l.
Definition lane_packets (L : LinkTraffic) (l : list GdpPacket) : list GdpPacket :=
  filter (λ p, packet_lane p = L) l.

(** Data flits in the channel. *)
Fixpoint data_flits (l : list item) : Z :=
  match l with
  | [] => 0
  | i :: l => (if is_data (item_vcid i) then item_flits i else 0) + data_flits l
  end.

Record sys : Set := mkSys {
  sender : DlpGdpPort;
  receiver : DlpGdpPort;
  channel : list item;
  sent : list GdpPacket;
  got : list GdpPacket }.

(** One step: a call on a port, or the arrival of the oldest item. *)
Inductive action : Set :=
  | ATransmit (p : GdpPacket) | ABurst (out : list Flit) | AFrame
  | ADeliver | APoll | AGrantData (count : Z) | AGrantControl (count : Z).

Definition deliver (i : item) : st DlpGdpPort unit :=
  match i with
  | IFlit f => physical_receive_flit f;; mret tt
  | IFrame fr => physical_receive_frame fr
  end.

Definition act (a : action) (s : sys) : sys :=
  match a with
  | ATransmit p =>
      let '(A, r) := transmit_gdp p (sender s) in
      mkSys A (receiver s) (channel s) (if is_ok r then sent s ++ [p] else sent s) (got s)
  | ABurst out =>
      let '(A, r) := physical_poll_tx_burst out (sender s) in
      mkSys A (receiver s)
        (match r with Ok (out', n) => channel s ++ map IFlit (take (Z.to_nat n) out') | _ => channel s end)
        (sent s) (got s)
  | AFrame =>
      let '(A, r) := physical_poll_tx_frame (sender s) in
      mkSys A (receiver s)
        (match r with Ok (Some fr) => channel s ++ [IFrame fr] | _ => channel s end) (sent s) (got s)
  | ADeliver =>
      match channel s with
      | [] => s
      | i :: rest => let '(B, _) := deliver i (receiver s) in mkSys (sender s) B rest (sent s) (got s)
      end
  | APoll =>
      let '(B, r) := poll_gdp (receiver s) in
      mkSys (sender s) B (channel s) (sent s) (match r with Some p => got s ++ [p] | None => got s end)
  | AGrantData n =>
      let '((B, A), _) := port_grant_peer_data_credit n (receiver s, sender s) in
      mkSys A B (channel s) (sent s) (got s)
  | AGrantControl n =>
      let '(A, _) := port_grant_peer_control_credit n (sender s) in
      mkSys A (receiver s) (channel s) (sent s) (got s)
  end.

Definition action_ok (lp : Z) (a : action) : Prop :=
  match a with
  | ATransmit p => valid_packet lp p
  | AGrantData n | AGrantControl n => u32 n
  | _ => True
  end.

(** A fresh port brought up by a completed recovery. *)
Definition port_up (config : DlpConfig) : res DlpGdpPort :=
  p ← port_new config;
  let '(p, r) := port_begin_recovery p in r;;
  let '(p, r) := port_complete_recovery p in r;;
  Ok p.

Definition lp_of (s : sys) : Z := local_prefix (lk_endpoint (pt_link (receiver s))).

Inductive sys_reachable : sys → Prop :=
  | sys_init ca cb A B :
      port_up ca = Ok A → port_up cb = Ok B →
      u32 (dc_rx_buffer_flits ca) → u32 (dc_rx_buffer_flits cb) →
      u64 (dc_local_prefix ca) → u64 (dc_local_prefix cb) →
      dc_gdp ca = dc_gdp cb → dc_vc_mode ca = dc_vc_mode cb →
      sys_reachable (mkSys A B [] [] [])
  | sys_next s a : sys_reachable s → action_ok (lp_of s) a → sys_reachable (act a s).

(** ** The invariant of one lane *)

(** [consumes P items Q]: sending [items] turns the frames [P], of which the
    first may be partly sent, into [Q]. *)
Inductive consumes : list TxFrame → list item → list TxFrame → Prop :=
  | consumes_nil Q : consumes Q [] Q
  | consumes_flit P fl P' items Q :
      emit_one P = Some (fl, P') → consumes P' items Q → consumes P (IFlit fl :: items) Q
  | consumes_frame f P items Q :
      tx_flit_offset f = 0 → consumes P items Q →
      consumes (f :: P) (IFrame (mkFrame (tx_vcid f) (tx_traffic f) (tx_bytes f)) :: items) Q.

Lemma consumes_trans P i1 Q i2 R : consumes P i1 Q → consumes Q i2 R → consumes P (i1 ++ i2) R.
Proof. induction 1; intros; cbn; [done | econstructor; eauto..]. Qed.

Lemma consumes_emit_many n Q :
  consumes Q (map IFlit (emit_many n Q).1) (emit_many n Q).2.
Proof.
  revert Q. induction n as [| n IH]; intros Q; cbn [emit_many]; [constructor |].
  destruct (emit_one Q) as [[f Q'] |] eqn:E; [| constructor].
  specialize (IH Q'). destruct (emit_many n Q') as [fs Q'']. cbn. by econstructor.
Qed.

Lemma consumes_push P items Q f :
  consumes P items Q → consumes (P ++ [f]) items (Q ++ [f]).
Proof.
  induction 1 as [Q | P fl P' items Q E H IH | g P items Q E H IH]; [constructor | | by constructor].
  econstructor; [| exact IH]. destruct P as [| g P]; [done |]. cbn in E |- *.
  injection E as <- <-. by destruct (_ =? 0).
Qed.

Definition slot_of (P : list TxFrame) (i : Z) : option RxSegment :=
  match P with
  | f :: _ => if tx_vcid f =? i then slot_at f else None
  | [] => None
  end.

Definition lane_queue (L : LinkTraffic) (e : DlpEndpoint) : list TxFrame :=
  match L with TControl => control_tx_queue e | TrData => data_tx_queue e end.

(** [P] are the frames the receiver has not completed and [pend] their
    packets. *)
Record lane_at (L : LinkTraffic) (eA eB : DlpEndpoint) (ch : list item)
    (sent delivered : list GdpPacket) (P : list TxFrame) (pend : list GdpPacket) : Prop := {
  ln_consumes : consumes P (lane_items L ch) (lane_queue L eA);
  ln_queue : queue_ok (vc_count eB) L P;
  ln_carries : Forall2 (frame_carries (local_prefix eB) (cfg eB)) P pend;
  ln_sent : lane_packets L sent = lane_packets L delivered ++ pend;
  ln_slots : ∀ i, 0 ≤ i < 4 → segment_traffic i = L → rx eB !! Z.to_nat i = Some (slot_of P i) }.

Definition lane_inv L eA eB ch sent delivered : Prop :=
  ∃ P pend, lane_at L eA eB ch sent delivered P pend.

(** The invariant of two connected endpoints. *)
Record ends (eA eB : DlpEndpoint) (ch : list item) (sent delivered : list GdpPacket) : Prop := {
  en_a : dlp_inv eA ∧ link_up eA = true;
  en_b : dlp_inv eB ∧ link_up eB = true;
  en_cfg : cfg eA = cfg eB ∧ vc_mode eA = vc_mode eB;
  en_sync : desynchronized eB = no_desync;
  en_credit : data_tx_credit eA + data_flits ch = data_credit_outstanding eB;
  en_lane : ∀ L, lane_inv L eA eB ch sent delivered }.

Lemma lane_items_app L l k : lane_items L (l ++ k) = lane_items L l ++ lane_items L k.
Proof. apply filter_app. Qed.
Lemma lane_packets_app L l k : lane_packets L (l ++ k) = lane_packets L l ++ lane_packets L k.
Proof. apply filter_app. Qed.
Lemma data_flits_app l k : data_flits (l ++ k) = data_flits l + data_flits k.
Proof. induction l; cbn; lia. Qed.

Lemma lane_items_one L i : lane_items L [i] = if decide (item_lane i = L) then [i] else [].
Proof. unfold lane_items. rewrite filter_cons. by case_decide. Qed.
Lemma lane_packets_one L p : lane_packets L [p] = if decide (packet_lane p = L) then [p] else [].
Proof. unfold lane_packets. rewrite filter_cons. by case_decide. Qed.

Lemma is_data_lane v : is_data v = bool_decide (segment_traffic v = TrData).
Proof. done. Qed.

(** *** Transmitting *)

Definition queue_lane (p : GdpPacket) : st DlpEndpoint Z :=
  match packet_lane p with TControl => queue_control_packet p | TrData => queue_data_packet p end.

Lemma queue_lane_ok p lp e :
  dlp_inv e → link_up e = true → valid_packet lp p →
  ∃ v bs e', packet_encode p (cfg e) = Ok bs ∧ segment_traffic v = packet_lane p ∧ 0 ≤ v < vc_count e ∧
    queue_lane p e = (e', Ok (flit_len bs)) ∧
    lane_queue (packet_lane p) e' = lane_queue (packet_lane p) e ++ [mkTx v (packet_lane p) bs 0] ∧
    (∀ L, L ≠ packet_lane p → lane_queue L e' = lane_queue L e) ∧
    dlp_inv e' ∧ link_up e' = true ∧ cfg e' = cfg e ∧ vc_mode e' = vc_mode e ∧
    data_tx_credit e' = data_tx_credit e.
Proof.
  intros Hi Hup Hv. destruct (valid_encode lp p (cfg e) Hv) as [He _].
  pose proof (vc_count_range e). pose proof (di_vc e Hi) as Hvc. unfold queue_lane.
  destruct (packet_lane p) eqn:El.
  - assert (Hg : lane_guards e TControl 0 = Ok tt).
    { unfold lane_guards. rewrite Hup. cbn. by replace (vc_count e <=? 0) with false by lia. }
    assert (Hq : queue_control_packet p e = (set_control_tx e (control_tx_credit e) (control_tx_queue e ++
      [mkTx 0 TControl (header_wire (pkt_header p) (cfg e) ++ pkt_payload p) 0]),
      Ok (flit_len (header_wire (pkt_header p) (cfg e) ++ pkt_payload p)))).
    { unfold queue_control_packet. rewrite queue_packet_on_eq. unfold Vcid_CONTROL. by rewrite Hg, He. }
    eexists 0, _, _. split; [exact He |]. split_and!; try done; try lia.
    + by intros [].
    + pose proof (queue_packet_preserves TControl 0 p ltac:(lia) e Hi) as Hpres.
      unfold queue_control_packet, Vcid_CONTROL in Hq. by rewrite Hq in Hpres.
  - set (v := next_data_vc e). set (e1 := (choose_data_vc e).1).
    assert (Hg : lane_guards e1 TrData v = Ok tt).
    { unfold lane_guards. change (link_up e1) with (link_up e). change (vc_count e1) with (vc_count e).
      rewrite Hup. cbn [negb fail_if]. rewrite bind_Ok_l.
      replace (vc_count e <=? v) with false by lia. unfold is_control.
      replace (v =? 0) with false by lia. done. }
    assert (Hq : queue_data_packet p e = (set_data_tx e1 (data_tx_credit e) (data_tx_queue e ++
      [mkTx v TrData (header_wire (pkt_header p) (cfg e) ++ pkt_payload p) 0]),
      Ok (flit_len (header_wire (pkt_header p) (cfg e) ++ pkt_payload p)))).
    { unfold queue_data_packet. rewrite (st_bind_Ok_l _ choose_data_vc e e1 v) by done.
      rewrite queue_packet_on_eq. change (cfg e1) with (cfg e). by rewrite Hg, He. }
    assert (Hs : segment_traffic v = TrData).
    { unfold segment_traffic, is_control. by replace (v =? 0) with false by lia. }
    eexists v, _, _. split; [exact He |]. split_and!; try done; try lia.
    + by intros [].
    + pose proof (queue_data_preserves p e Hi) as Hpres. by rewrite Hq in Hpres.
Qed.

Lemma ends_transmit eA eB ch sent del p :
  ends eA eB ch sent del → valid_packet (local_prefix eB) p →
  let '(eA', r) := queue_lane p eA in is_ok r = true ∧ ends eA' eB ch (sent ++ [p]) del.
Proof.
  intros [[Ha Hau] Hb [Hcfg Hvc] Hsy Hcr Hl] Hv.
  destruct (queue_lane_ok p _ eA Ha Hau Hv) as (v & bs & e' & He & Hs & Hvr & Hq & Hlq & Hother & Hi' & Hu' & Hc' & Hm' & Hcr').
  rewrite Hq. split; [done |]. split; try done; [by rewrite Hc', Hm' | by rewrite Hcr' |].
  intros L. destruct (Hl L) as (P & pend & [Hcon Hqo Hcar Hsent Hslots]).
  destruct (decide (L = packet_lane p)) as [-> | Hne].
  - set (f := mkTx v (packet_lane p) bs 0) in *. exists (P ++ [f]), (pend ++ [p]). split.
    + rewrite Hlq. by apply consumes_push.
    + assert (Hn : 8 ≤ len bs).
      { destruct (packet_encode_len _ _ _ He) as [Hlen _]. pose proof (header_len_pos (pkt_header p)). lens. lia. }
      apply queue_ok_app; [done | | done]. unfold vc_count in *. rewrite <- Hvc.
      split_and!; try done; unfold tx_flit_len; cbn; zdiv.
    + apply Forall2_app; [done |]. constructor; [| constructor]. split; [done |]. cbn. by rewrite <- Hcfg.
    + rewrite lane_packets_app, lane_packets_one, Hsent, decide_True by done. by rewrite app_assoc.
    + intros i Hi4 Hi. rewrite (Hslots i Hi4 Hi). f_equal. destruct P; [| done]. cbn.
      unfold slot_at. cbn. by destruct (v =? i).
  - exists P, pend. split; try done; [by rewrite Hother |].
    rewrite lane_packets_app, lane_packets_one, decide_False, app_nil_r by done. done.
Qed.

Lemma lane_items_flits L L' fs :
  Forall (λ f, segment_traffic (fl_vcid f) = L') fs →
  lane_items L (map IFlit fs) = if decide (L = L') then map IFlit fs else [].
Proof.
  intros H. induction H as [| f fs Hf H IH]; [by case_decide |]. cbn [map].
  unfold lane_items in *. rewrite filter_cons, IH. unfold item_lane. cbn [item_vcid]. rewrite Hf.
  repeat case_decide; congruence.
Qed.

Lemma data_flits_flits L' fs :
  Forall (λ f, segment_traffic (fl_vcid f) = L') fs →
  data_flits (map IFlit fs) = if decide (L' = TrData) then Z.of_nat (length fs) else 0.
Proof.
  intros H. induction H as [| f fs Hf H IH]; [by case_decide |]. cbn [map data_flits item_vcid item_flits].
  rewrite IH, is_data_lane, Hf. case_decide; case_bool_decide; cbn [length]; try done; lia.
Qed.

Lemma Forall_snd {A} (P Q : A → Prop) l : Forall (λ x, P x ∧ Q x) l → Forall Q l.
Proof. intros H. eapply Forall_impl; [exact H |]. by intros ? []. Qed.

Lemma ends_burst eA eB ch sent del out :
  ends eA eB ch sent del →
  let '(eA', r) := poll_tx_burst out eA in
  ends eA' eB (match r with Ok (out', n) => ch ++ map IFlit (take (Z.to_nat n) out') | _ => ch end) sent del.
Proof.
  intros H. pose proof H as [[Ha Hau] Hb [Hcfg Hvc] Hsy Hcr Hl]. rewrite poll_tx_burst_eq by done.
  destruct (Z.eqb_spec (len out) 0); [cbn; by rewrite app_nil_r |].
  pose proof (burst_bounds eA (len out) Ha (len_nonneg out)) as (Bc & _ & Bd & _ & Br).
  pose proof (after_burst_inv eA (len out) Ha (len_nonneg out)) as Hinv.
  set (mc := burst_control eA (len out)) in *. set (md := burst_data eA (len out)) in *.
  destruct (emit_many_ok _ _ (Z.to_nat mc) _ (di_control_q eA Ha)) as (_ & Lc & _ & Fc);
    [unfold queued_control_flits in *; lia |].
  destruct (emit_many_ok _ _ (Z.to_nat md) _ (di_data_q eA Ha)) as (_ & Ld & _ & Fd);
    [unfold queued_data_flits in *; lia |].
  apply Forall_snd in Fc, Fd. cbv zeta.
  assert (Hnew : ends (after_burst eA mc md) eB (ch ++ map IFlit (burst_flits eA (len out))) sent del).
  { unfold burst_flits. fold mc md. split; try done.
    - rewrite data_flits_app, map_app, data_flits_app, (data_flits_flits TControl), (data_flits_flits TrData) by done.
      cbn [decide after_burst set_data_tx set_control_tx data_tx_credit]. 
      rewrite (decide_False (P := TControl = TrData)), decide_True by done. rewrite Ld. lia.
    - intros L. destruct (Hl L) as (P & pend & [Hcon Hqo Hcar Hsent Hslots]). exists P, pend. split; try done.
      rewrite lane_items_app, map_app, lane_items_app, (lane_items_flits L TControl), (lane_items_flits L TrData) by done.
      eapply consumes_trans; [exact Hcon |]. destruct L; cbn [lane_queue];
        repeat case_decide; try done; rewrite ?app_nil_r; cbn [app]; apply consumes_emit_many. }
  assert (Hlen : len (burst_flits eA (len out)) = mc + md).
  { unfold burst_flits. fold mc md. unfold len. rewrite length_app, Lc, Ld. lia. }
  destruct (Z.eqb_spec (mc + md) 0) as [E0 |]; cbn [negb].
  - apply (f_equal Z.to_nat) in Hlen. rewrite E0, length_len in Hlen.
    apply length_zero_iff_nil in Hlen. rewrite Hlen in Hnew. cbn [map] in Hnew. rewrite app_nil_r in Hnew.
    destruct (queues_empty eA); cbn; rewrite ?app_nil_r; exact Hnew.
  - rewrite take_app_length'; [done |]. by rewrite <- Hlen, length_len.
Qed.

Lemma ends_pop eA eB ch sent del L q' c' fr f :
  ends eA eB ch sent del →
  lane_queue L eA = f :: q' → tx_flit_offset f = 0 → fr = mkFrame (tx_vcid f) (tx_traffic f) (tx_bytes f) →
  segment_traffic (gf_vcid fr) = L →
  dlp_inv (match L with TControl => set_control_tx eA c' q' | TrData => set_data_tx eA c' q' end) →
  (L = TrData → c' = data_tx_credit eA - flit_len (gf_bytes fr)) →
  ends (match L with TControl => set_control_tx eA c' q' | TrData => set_data_tx eA c' q' end) eB
    (ch ++ [IFrame fr]) sent del.
Proof.
  intros [[Ha Hau] Hb [Hcfg Hvc] Hsy Hcr Hl] Hq Hof Hfr Hs Hinv Hc'. split; try done.
  - split; [done | by destruct L].
  - by destruct L.
  - rewrite data_flits_app. cbn [data_flits item_vcid item_flits]. rewrite is_data_lane, Hs.
    destruct L; case_bool_decide; try done; cbn; [lia |]. rewrite Hc' by done. lia.
  - intros L'. destruct (Hl L') as (P & pend & [Hcon Hqo Hcar Hsent Hslots]). exists P, pend. split; try done.
    rewrite lane_items_app, lane_items_one. unfold item_lane. cbn [item_vcid]. rewrite Hs.
    eapply consumes_trans; [exact Hcon |]. destruct (decide (L = L')) as [<- | Hne].
    + rewrite Hq. subst fr. constructor; [done |].
      destruct L; cbn; constructor.
    + destruct L, L'; try done; constructor.
Qed.

Lemma lane_case_frame eA eB ch sent del L r q' c' :
  ends eA eB ch sent del → u32 (match L with TControl => control_tx_credit eA | TrData => data_tx_credit eA end) →
  pop_sendable_frame (lane_queue L eA,
    match L with TControl => control_tx_credit eA | TrData => data_tx_credit eA end) = ((q', c'), r) →
  let eA' := match L with TControl => set_control_tx eA c' q' | TrData => set_data_tx eA c' q' end in
  match r with
  | Ok (Some fr) => ends eA' eB (ch ++ [IFrame fr]) sent del
  | _ => eA' = eA
  end.
Proof.
  intros H Hc E. pose proof H as [[Ha Hau] _ _ _ _ _].
  assert (Hqo : queue_ok (vc_count eA) L (lane_queue L eA)).
  { destruct L; [apply (di_control_q eA Ha) | apply (di_data_q eA Ha)]. }
  destruct (pop_sendable_ok _ _ _ _ _ _ _ Hqo Hc E) as (Hq' & Hc' & _ & _ & Hsome & Hnone).
  assert (Hinv : dlp_inv (match L with TControl => set_control_tx eA c' q' | TrData => set_data_tx eA c' q' end)).
  { pose proof (di_credit eA Ha) as [? ?]. destruct Ha. destruct L; split; cbn; try done; by split. }
  assert (Hsame : (∀ fr, r ≠ Ok (Some fr)) →
    match L with TControl => set_control_tx eA c' q' | TrData => set_data_tx eA c' q' end = eA).
  { intros Hn. destruct (Hnone Hn) as [-> ->]. destruct L; by destruct eA. }
  destruct r as [[fr |] | |]; try (by apply Hsame).
  destruct (Hsome fr eq_refl) as ((f & Hq & Hof & Hfr) & Hcc & _ & Hs & _).
  cbv zeta. eapply ends_pop; try done. by intros ->.
Qed.

Lemma ends_frame eA eB ch sent del :
  ends eA eB ch sent del →
  let '(eA', r) := poll_tx_frame eA in
  ends eA' eB (match r with Ok (Some fr) => ch ++ [IFrame fr] | _ => ch end) sent del.
Proof.
  intros H. pose proof H as [[Ha Hau] _ _ _ _ _]. destruct (di_credit eA Ha) as [Hdc Hcc].
  unfold poll_tx_frame. rewrite (st_bind_Ok_l _ _ eA eA eA) by done. rewrite Hau. cbn [negb].
  rewrite (st_bind_Ok_l _ _ eA eA tt) by done.
  destruct (pop_sendable_frame (control_tx_queue eA, control_tx_credit eA)) as [[q c] r] eqn:Ec.
  pose proof (lane_case_frame _ _ _ _ _ TControl r q c H Hcc Ec) as Hctl. cbv zeta in Hctl.
  unfold mbind at 1, st_bind at 1. rewrite (on_control_eq _ _ _ _ _ Ec).
  destruct r as [[fr |] | e |]; [exact Hctl | | by rewrite Hctl..].
  rewrite Hctl.
  destruct (pop_sendable_frame (data_tx_queue eA, data_tx_credit eA)) as [[q2 c2] r2] eqn:Ed.
  pose proof (lane_case_frame _ _ _ _ _ TrData r2 q2 c2 H Hdc Ed) as Hdat. cbv zeta in Hdat.
  unfold mbind at 1, st_bind at 1. rewrite (on_data_eq _ _ _ _ _ Ed).
  destruct r2 as [[fr |] | e |]; [exact Hdat | | by rewrite Hdat..].
  rewrite Hdat. rewrite (st_bind_Ok_l _ _ eA eA eA) by done. by destruct (queues_empty eA).
Qed.

(** *** Granting credit *)

Lemma data_flits_nonneg ch : 0 ≤ data_flits ch.
Proof.
  induction ch as [| i ch IH]; [done |]. cbn. pose proof (flit_len_nonneg (match i with IFrame fr => gf_bytes fr | _ => [] end)).
  destruct (is_data _), i; cbn in *; lia.
Qed.

Lemma ends_grant_data eA eB ch sent del n :
  u32 n → ends eA eB ch sent del →
  let '(eB', r) := note_data_credit_granted n eB in
  match r with Ok _ => ends (grant_data_tx_credit n eA) eB' ch sent del | _ => eB' = eB end.
Proof.
  intros Hn [[Ha Hau] [Hb Hbu] [Hcfg Hvc] Hsy Hcr Hl]. unfold u32 in Hn.
  rewrite note_granted_eq by (done || lia). pose proof (grantable_eq eB Hb) as Hg.
  destruct (Z.ltb_spec (grantable_data_credit eB) n); [done |].
  pose proof (di_buffer eB Hb). pose proof (in_use_nonneg eB Hb). pose proof (data_flits_nonneg ch).
  assert (Hsat : saturating_add 32 (data_tx_credit eA) n = data_tx_credit eA + n)
    by (unfold saturating_add; lia).
  pose proof (note_granted_preserves n (proj1 Hn) eB Hb) as Hb'.
  rewrite note_granted_eq in Hb' by (done || lia).
  replace (grantable_data_credit eB <? n) with false in Hb' by lia.
  split; try done.
  - split; [| done]. apply grant_data_inv; [lia | done].
  - cbn. rewrite Hsat. lia.
  - intros L. destruct (Hl L) as (P & pend & []). exists P, pend. split; try done; by destruct L.
Qed.

Lemma ends_grant_control eA eB ch sent del n :
  u32 n → ends eA eB ch sent del → ends (grant_control_tx_credit n eA) eB ch sent del.
Proof.
  intros Hn [[Ha Hau] Hb Hc Hsy Hcr Hl]. unfold u32 in Hn. split; try done.
  - split; [| done]. apply grant_control_inv; [lia | done].
  - intros L. destruct (Hl L) as (P & pend & []). exists P, pend. split; try done; by destruct L.
Qed.

(** *** Delivery *)

Lemma lane_items_cons L i ch :
  lane_items L (i :: ch) = (if decide (item_lane i = L) then [i] else []) ++ lane_items L ch.
Proof. rewrite <- lane_items_one, <- lane_items_app. done. Qed.

Lemma pending_lane L sent del pend p :
  lane_packets L sent = lane_packets L del ++ p :: pend → packet_lane p = L.
Proof.
  intros E. assert (Hin : p ∈ lane_packets L sent) by (rewrite E; set_solver).
  by apply list_elem_of_filter in Hin as [? _].
Qed.

(** A delivery on another lane. *)
Lemma lane_other L eA eB eB' i ch sent del del' :
  item_lane i ≠ L → lane_inv L eA eB (i :: ch) sent del →
  cfg eB' = cfg eB → local_prefix eB' = local_prefix eB → vc_mode eB' = vc_mode eB →
  (∀ v, 0 ≤ v < 4 → segment_traffic v = L → rx eB' !! Z.to_nat v = rx eB !! Z.to_nat v) →
  lane_packets L del' = lane_packets L del →
  lane_inv L eA eB' ch sent del'.
Proof.
  intros Hi (P & pend & [Hcon Hqo Hcar Hsent Hslots]) Hc Hp Hm Hrx Hdel. exists P, pend.
  rewrite lane_items_cons, decide_False in Hcon by done. unfold vc_count in *.
  split; try done; rewrite ?Hc, ?Hp, ?Hm, ?Hdel; try done.
  - unfold vc_count. by rewrite Hm.
  - intros v Hv Hl. by rewrite Hrx, Hslots.
Qed.

Lemma other_slot (l : list (option RxSegment)) v o w :
  0 ≤ v < 4 → 0 ≤ w < 4 → segment_traffic v ≠ segment_traffic w →
  <[Z.to_nat v := o]> l !! Z.to_nat w = l !! Z.to_nat w.
Proof.
  intros Hv Hw Hne. apply list_lookup_insert_ne. intros E.
  assert (v = w) as -> by lia. done.
Qed.

Lemma no_desync_lookup v : 0 ≤ v < 4 → no_desync !! Z.to_nat v = Some false.
Proof.
  intros Hv. assert (v = 0 ∨ v = 1 ∨ v = 2 ∨ v = 3) as [-> | [-> | [-> | ->]]] by lia; done.
Qed.

(** The slots after the head frame has advanced by one flit. *)
Lemma slot_of_advance f rest v l :
  Forall (λ g, tx_flit_offset g = 0) rest → 0 ≤ tx_vcid f < 4 → 0 ≤ v < 4 →
  0 ≤ tx_flit_offset f → length l = 4%nat →
  l !! Z.to_nat v = Some (slot_of (f :: rest) v) →
  <[Z.to_nat (tx_vcid f) := if remaining_flits (advance f) =? 0 then None
     else Some (seg_at (advance f))]> l !! Z.to_nat v =
  Some (slot_of (if remaining_flits (advance f) =? 0 then rest else advance f :: rest) v).
Proof.
  intros Hz Hf Hv Ho Hlen Hs.
  assert (Hrest : slot_of rest v = None).
  { destruct rest as [| g rest]; [done |]. cbn. apply Forall_cons in Hz as [Hg _].
    unfold slot_at. rewrite Hg. by destruct (_ =? v). }
  destruct (decide (tx_vcid f = v)) as [<- | Hne].
  - rewrite list_lookup_insert_eq by lia. f_equal.
    destruct (remaining_flits (advance f) =? 0); [by rewrite Hrest |]. cbn.
    rewrite Z.eqb_refl. unfold slot_at. cbn. by replace (tx_flit_offset f + 1 =? 0) with false by lia.
  - rewrite list_lookup_insert_ne by lia. rewrite Hs. f_equal. cbn.
    replace (tx_vcid f =? v) with false by lia.
    destruct (remaining_flits (advance f) =? 0); [by rewrite Hrest |]. cbn.
    by replace (tx_vcid f =? v) with false by lia.
Qed.

Lemma ends_deliver_flit eA eB fl ch sent del :
  ends eA eB (IFlit fl :: ch) sent del →
  let '(eB', r) := receive fl eB in
  match r with
  | Ok (Some p) => ends eA eB' ch sent (del ++ [p])
  | Ok None => ends eA eB' ch sent del
  | _ => False
  end.
Proof.
  intros [Ha [Hb Hbu] [Hcfg Hvc] Hsy Hcr Hl]. set (L := segment_traffic (fl_vcid fl)).
  destruct (Hl L) as (P & pend & [Hcon Hqo Hcar Hsent Hslots]).
  rewrite lane_items_cons, decide_True in Hcon by done. cbn [app] in Hcon.
  inversion Hcon as [| P0 fl0 P' items Q He Hcon' |]; subst. clear Hcon.
  pose proof (emit_one_ok _ _ _ _ _ Hqo He) as (Hqo' & _).
  destruct P as [| f rest]; [done |]. cbn in He. injection He as Efl EP'. subst fl P'.
  cbn [fl_vcid flit_at] in L. inversion Hcar as [| ? p ? pend0 Hp Hcar0]; subst.
  destruct Hqo as [Hall Hz]. apply Forall_cons in Hall as [Htx _]. cbn [tail] in Hz.
  pose proof Htx as (Ht & Hv & _ & Ho). pose proof (vc_count_range eB).
  assert (Hv4 : 0 ≤ tx_vcid f < 4) by lia.
  pose proof (pending_lane _ _ _ _ _ Hsent) as Hpl.
  pose proof (Hslots _ Hv4 eq_refl) as Hslot. cbn [slot_of] in Hslot. rewrite Z.eqb_refl in Hslot.
  set (fl := flit_at (tx_vcid f) (tx_bytes f) (tx_flit_offset f)) in *.
  pose proof (data_flits_nonneg ch). destruct (di_credit eA (proj1 Ha)) as [Hdc _]. unfold u32 in Hdc.
  assert (Hcredit : data_flits (IFlit fl :: ch) = (if is_data (tx_vcid f) then 1 else 0) + data_flits ch) by done.
  destruct (receive_next _ eB f p Hb Hbu eq_refl Hp Htx) as [u Hrec];
    [by rewrite Hsy, no_desync_lookup | done | intros Hd; rewrite Hd in Hcredit; lia |].
  pose proof (receive_preserves fl Hv4 eB Hb) as Hb'. fold fl in Hrec. rewrite Hrec in *. cbn [fst] in Hb'.
  set (eB' := set_rx _ _) in *.
  set (del' := del ++ (if remaining_flits (advance f) =? 0 then [p] else [])).
  enough (Hgoal : ends eA eB' ch sent del').
  { subst del'. destruct (remaining_flits (advance f) =? 0); [done |]. by rewrite app_nil_r in Hgoal. }
  split; try done.
  - change (data_credit_outstanding eB') with (spent eB (tx_vcid f) 1). unfold spent.
    rewrite Hcredit in Hcr. destruct (is_data (tx_vcid f)); lia.
  - intros L'. destruct (decide (L' = L)) as [-> | Hne].
    + exists (if remaining_flits (advance f) =? 0 then rest else advance f :: rest),
        (if remaining_flits (advance f) =? 0 then pend0 else p :: pend0).
      split; try done.
      * destruct (_ =? 0); [done |]. by constructor.
      * subst del'. rewrite lane_packets_app, Hsent.
        destruct (_ =? 0); [| by rewrite app_nil_r].
        rewrite lane_packets_one, decide_True by done. by rewrite <- app_assoc.
      * intros v Hv' HL. apply slot_of_advance; try done; [lia | apply (di_slots eB Hb) | by apply Hslots].
    + eapply lane_other; [| exact (Hl L') | done | done | done | |].
      * intros E. apply Hne. by rewrite <- E.
      * intros v Hv' HL. cbn [eB' set_rx rx]. apply other_slot; [done | done |]. intros E. apply Hne. by rewrite <- HL, <- E.
      * subst del'. rewrite lane_packets_app. destruct (_ =? 0); [| by rewrite app_nil_r].
        rewrite lane_packets_one, decide_False, app_nil_r; [done |]. rewrite Hpl. intros E. by apply Hne.
Qed.

Lemma ends_deliver_frame eA eB fr ch sent del :
  ends eA eB (IFrame fr :: ch) sent del →
  let '(eB', r) := receive_frame fr eB in
  match r with Ok p => ends eA eB' ch sent (del ++ [p]) | _ => False end.
Proof.
  intros [Ha [Hb Hbu] [Hcfg Hvc] Hsy Hcr Hl]. set (L := segment_traffic (gf_vcid fr)).
  destruct (Hl L) as (P & pend & [Hcon Hqo Hcar Hsent Hslots]).
  rewrite lane_items_cons, decide_True in Hcon by done. cbn [app] in Hcon.
  inversion Hcon as [| | f rest items Q Hof Hcon']; subst. clear Hcon.
  inversion Hcar as [| ? p ? pend0 Hp Hcar0]; subst.
  destruct Hqo as [Hall Hz]. apply Forall_cons in Hall as [Htx Hrest]. cbn [tail] in Hz.
  pose proof Htx as (Ht & Hv & Hseg & Ho). pose proof (vc_count_range eB).
  set (fr := mkFrame (tx_vcid f) (tx_traffic f) (tx_bytes f)) in *.
  pose proof (pending_lane _ _ _ _ _ Hsent) as Hpl.
  destruct (carries_bytes _ _ _ _ Hp) as (Hbytes & Hlen & Hdec).
  pose proof (flit_len_bounds (tx_bytes f)). pose proof (data_flits_nonneg ch).
  destruct (di_credit eA (proj1 Ha)) as [Hdc _]. unfold u32 in Hdc.
  assert (Hcredit : data_flits (IFrame fr :: ch) =
    (if is_data (tx_vcid f) then flit_len (tx_bytes f) else 0) + data_flits ch) by done.
  assert (Hg : lane_guards eB (tx_traffic f) (tx_vcid f) = Ok tt).
  { unfold lane_guards. rewrite Hbu. replace (vc_count eB <=? tx_vcid f) with false by lia.
    rewrite Ht. subst L. cbn [gf_vcid fr]. unfold segment_traffic. by destruct (is_control (tx_vcid f)). }
  rewrite receive_frame_eq by (done || (cbn; lia)). cbn [fr gf_traffic gf_vcid gf_bytes].
  rewrite Hg, Hdec. cbv zeta.
  assert (Hdt : bool_decide (tx_traffic f = TrData) = is_data (tx_vcid f)) by (rewrite Ht; done).
  rewrite Hdt.
  set (eB' := if is_data (tx_vcid f) then set_rx_account eB (data_credit_outstanding eB - flit_len (tx_bytes f))
    (data_rx_in_use eB) else eB).
  assert (Hgoal : ends eA eB' ch sent (del ++ [p])).
  { assert (Hsame : cfg eB' = cfg eB ∧ local_prefix eB' = local_prefix eB ∧ vc_mode eB' = vc_mode eB ∧
      rx eB' = rx eB ∧ desynchronized eB' = desynchronized eB ∧ link_up eB' = link_up eB ∧
      data_credit_outstanding eB' = data_credit_outstanding eB -
        (if is_data (tx_vcid f) then flit_len (tx_bytes f) else 0)).
    { subst eB'. destruct (is_data _); split_and!; try done. lia. }
    destruct Hsame as (E1 & E2 & E3 & E4 & E5 & E6 & E7). split.
    - done.
    - split; [| by rewrite E6]. subst eB'. destruct (is_data (tx_vcid f)); [| done].
      apply inv_account; [done |]. lia.
    - by rewrite E1, E3.
    - by rewrite E5.
    - rewrite E7. lia.
    - intros L'. destruct (decide (L' = L)) as [-> | Hne].
      + exists rest, pend0. unfold vc_count in *. split; try done; unfold vc_count; rewrite ?E1, ?E2, ?E3, ?E4; try done.
        * split; [done |]. by destruct rest; [| apply Forall_cons in Hz as [_ ?]].
        * rewrite Hsent, lane_packets_app, lane_packets_one, decide_True by done. by rewrite <- app_assoc.
        * intros v Hv' HL. rewrite (Hslots v Hv' HL). f_equal. cbn. unfold slot_at. rewrite Hof. cbn.
          destruct rest as [| g rest]; [by destruct (_ =? v) |]. cbn.
          apply Forall_cons in Hz as [Hg0 _]. unfold slot_at. rewrite Hg0. cbn.
          by destruct (tx_vcid f =? v), (tx_vcid g =? v).
      + eapply lane_other; [| exact (Hl L') | done | done | done | |].
        * intros E. apply Hne. by rewrite <- E.
        * intros. by rewrite E4.
        * rewrite lane_packets_app, lane_packets_one, decide_False, app_nil_r; [done |].
          rewrite Hpl. intros E. by apply Hne. }
  subst eB'. destruct (is_data (tx_vcid f)) eqn:Ed; [| exact Hgoal].
  destruct (Z.ltb_spec (data_credit_outstanding eB) (flit_len (tx_bytes f))); [lia | exact Hgoal].
Qed.

(** *** The whole system *)

Definition up_end (p : DlpGdpPort) : DlpEndpoint := lk_endpoint (pt_link p).
Definition with_end (p : DlpGdpPort) (e : DlpEndpoint) : DlpGdpPort :=
  mkPort (mkLink e (lk_state (pt_link p)) (lk_generation (pt_link p))) (pt_received p).

Record sys_inv (s : sys) : Prop := {
  sv_up : lk_state (pt_link (sender s)) = Up ∧ lk_state (pt_link (receiver s)) = Up;
  sv_ends : ends (up_end (sender s)) (up_end (receiver s)) (channel s) (sent s)
              (got s ++ pt_received (receiver s)) }.

(** At an Up link a port call is the endpoint call. *)
Lemma on_link_up {A} (m : st DlpEndpoint A) (p : DlpGdpPort) :
  lk_state (pt_link p) = Up →
  on_link (when_up m) p = let '(e, r) := m (up_end p) in (with_end p e, r).
Proof.
  intros Hup. unfold on_link, zoom at 1. rewrite when_up_eq, bool_decide_eq_true_2 by done.
  unfold up_end, with_end. by destruct (m _).
Qed.

Lemma transmit_up p (A : DlpGdpPort) :
  lk_state (pt_link A) = Up →
  transmit_gdp p A = let '(e, r) := queue_lane p (up_end A) in
    (with_end A e, match r with Ok _ => Ok tt | Err e => Err e | Panic => Panic end).
Proof.
  intros Hup. cbn [transmit_gdp dlp_port]. unfold port_transmit_gdp, queue_lane, packet_lane.
  destruct (hdr_packet_type (pkt_header p)); unfold mbind, st_bind;
    unfold link_queue_control_packet, link_queue_data_packet; rewrite on_link_up by done;
    (destruct (_ p (up_end A)) as [e []]; done).
Qed.

Lemma init_ends ca cb eA eB :
  dlp_inv eA → dlp_inv eB → link_up eA = true → link_up eB = true →
  endpoint_clean eA → endpoint_clean eB → cfg eA = cfg eB → vc_mode eA = vc_mode eB →
  ca = [] → cb = [] → ends eA eB ca [] cb.
Proof.
  intros Ha Hb Hau Hbu (HA1 & HA2 & _ & _ & HA3 & _) (_ & _ & HB1 & HB2 & _ & _ & HB3 & _) ? ? -> ->.
  split; try done; [rewrite HA3, HB3; done |]. intros L. exists [], []. split; try done.
  - replace (lane_queue L eA) with (@nil TxFrame) by (destruct L; cbn; congruence). constructor.
  - intros i Hi _. rewrite HB1. assert (i = 0 ∨ i = 1 ∨ i = 2 ∨ i = 3) as [-> | [-> | [-> | ->]]] by lia; done.
Qed.

Lemma port_up_clean config P :
  port_up config = Ok P → u32 (dc_rx_buffer_flits config) → u64 (dc_local_prefix config) →
  lk_state (pt_link P) = Up ∧ pt_received P = [] ∧ dlp_inv (up_end P) ∧ link_up (up_end P) = true ∧
  endpoint_clean (up_end P) ∧ cfg (up_end P) = dc_gdp config ∧ vc_mode (up_end P) = dc_vc_mode config.
Proof.
  intros H Hb Hp. unfold port_up, port_new, link_new in H. apply bind_Ok in H as (p & Hn & H).
  apply bind_Ok in Hn as (l & Hl & <-%Ok_inj). apply bind_Ok in Hl as (e & He & <-%Ok_inj).
  destruct (endpoint_new_inv config e Hb Hp He) as (Hi & _ & _).
  cbn in H. apply Ok_inj in H as <-. cbn. unfold endpoint_new in He.
  repeat (apply bind_Ok in He as (? & _ & He)). apply Ok_inj in He as <-.
  by split_and!.
Qed.

Lemma sys_transmit s p :
  sys_inv s → valid_packet (lp_of s) p →
  (transmit_gdp p (sender s)).2 = Ok tt ∧ sys_inv (act (ATransmit p) s).
Proof.
  intros [[Hu Hr] He] Hv. cbn [act]. rewrite transmit_up by done.
  pose proof (ends_transmit _ _ _ _ _ p He Hv) as H. destruct (queue_lane p (up_end (sender s))) as [e r].
  destruct H as [Hok H]. destruct r; try done.
Qed.

Lemma sys_deliver s i rest :
  sys_inv s → channel s = i :: rest → (deliver i (receiver s)).2 = Ok tt ∧ sys_inv (act ADeliver s).
Proof.
  intros [[Hu Hr] He] Hc. cbn [act]. rewrite Hc in *.
  destruct i as [f | fr]; cbn [deliver].
  - pose proof (ends_deliver_flit _ _ _ _ _ _ He) as H. unfold physical_receive_flit, link_receive.
    unfold mbind, st_bind. rewrite on_link_up by done. destruct (receive f (up_end (receiver s))) as [e r].
    destruct r as [[p |] | |]; try done. cbn. split; [done |]. split; [done |]. cbn.
    by rewrite app_assoc.
  - pose proof (ends_deliver_frame _ _ _ _ _ _ He) as H. unfold physical_receive_frame, link_receive_frame.
    unfold mbind, st_bind. rewrite on_link_up by done. destruct (receive_frame fr (up_end (receiver s))) as [e r].
    destruct r as [p | |]; try done. cbn. split; [done |]. split; [done |]. cbn.
    by rewrite app_assoc.
Qed.

Lemma sys_emit s a :
  sys_inv s → match a with ABurst _ | AFrame | APoll => True | _ => False end → sys_inv (act a s).
Proof.
  intros [[Hu Hr] He] Ha. destruct a; try done; cbn [act].
  - unfold physical_poll_tx_burst, link_poll_tx_burst. rewrite on_link_up by done.
    pose proof (ends_burst _ _ _ _ _ out He) as H. destruct (poll_tx_burst out _) as [e r]. by split.
  - unfold physical_poll_tx_frame, link_poll_tx_frame. rewrite on_link_up by done.
    pose proof (ends_frame _ _ _ _ _ He) as H. destruct (poll_tx_frame _) as [e r]. by split.
  - cbn [poll_gdp dlp_port]. unfold port_poll_gdp.
    destruct (pt_received (receiver s)) as [| p q] eqn:Eq; split; try done; cbn.
    + by rewrite Eq.
    + by rewrite <- app_assoc.
Qed.

Lemma sys_grant s a :
  sys_inv s → match a with AGrantData n | AGrantControl n => u32 n | _ => False end → sys_inv (act a s).
Proof.
  intros [[Hu Hr] He] Ha. destruct a; try done; cbn [act].
  - pose proof (ends_grant_data _ _ _ _ _ count Ha He) as H.
    unfold port_grant_peer_data_credit, zoom, link_grant_peer_data_credit, mbind, st_bind, gets, lift,
      require_up, modify. cbn [id fst snd].
    rewrite Hu, Hr, !bool_decide_eq_true_2 by done. cbn [fst snd zoom]. unfold zoom. cbn [fst snd].
    unfold up_end in *. destruct (note_data_credit_granted count _) as [eB r].
    destruct r as [[] | |]; [by split | subst eB; by split..].
  - unfold port_grant_peer_control_credit, on_link, zoom, link_grant_peer_control_credit, mbind, st_bind,
      gets, lift, require_up, modify. cbn [id]. rewrite Hu, bool_decide_eq_true_2 by done.
    split; [done |]. by apply ends_grant_control.
Qed.

Lemma sys_reachable_inv s : sys_reachable s → sys_inv s.
Proof.
  induction 1 as [ca cb A B HA HB ? ? ? ? Hg Hm | s a Hs IH Ha].
  - destruct (port_up_clean ca A) as (A1 & A2 & A3 & A4 & A5 & A6 & A7); [done.. |].
    destruct (port_up_clean cb B) as (B1 & B2 & B3 & B4 & B5 & B6 & B7); [done.. |].
    split; [done |]. cbn. apply init_ends; try done; congruence.
  - destruct a; cbn [action_ok] in Ha.
    + by apply sys_transmit.
    + by apply sys_emit.
    + by apply sys_emit.
    + destruct (channel s) as [| i rest] eqn:Ec; [cbn; by rewrite Ec | by eapply sys_deliver].
    + by apply sys_emit.
    + by apply sys_grant.
    + by apply sys_grant.
Qed.

(** The lanes of the receiver see what the sender has been given, in order. *)
Lemma sys_lane s L :
  sys_inv s → ∃ P pend,
    lane_at L (up_end (sender s)) (up_end (receiver s)) (channel s) (sent s) (got s ++ pt_received (receiver s)) P pend.
Proof. intros [_ He]. destruct (en_lane _ _ _ _ _ He L) as (P & pend & H). by exists P, pend. Qed.

Lemma consumes_nothing P : consumes P [] [] → P = [].
Proof. by inversion 1. Qed.

(** C5: a link between two matching ports is lossless: whatever is
    transmitted, granted, emitted (as flits or as frames) and polled, in any
    order, the packets of each lane reach the receiving client in the order
    they were sent, each once and intact; all of them, once the channel and
    the lane's queue have drained; a valid packet is always accepted; and an
    item that has been emitted is always accepted by the receiver. *)
Theorem link_lossless s :
  sys_reachable s →
  (∀ L, ∃ pend,
     lane_packets L (sent s) = lane_packets L (got s ++ pt_received (receiver s)) ++ pend ∧
     (channel s = [] → lane_queue L (lk_endpoint (pt_link (sender s))) = [] → pend = [])) ∧
  (∀ i rest, channel s = i :: rest → (deliver i (receiver s)).2 = Ok tt) ∧
  (∀ p, valid_packet (lp_of s) p → (transmit_gdp p (sender s)).2 = Ok tt).
Proof.
  intros Hs%sys_reachable_inv. split_and!.
  - intros L. destruct (sys_lane s L Hs) as (P & pend & H). exists pend.
    split; [apply (ln_sent _ _ _ _ _ _ _ _ H) |]. intros Hc Hq.
    pose proof (ln_consumes _ _ _ _ _ _ _ _ H) as Hn. unfold up_end in Hn. rewrite Hc, Hq in Hn.
    apply consumes_nothing in Hn as ->. pose proof (ln_carries _ _ _ _ _ _ _ _ H) as Hf. by inversion Hf.
  - intros. by eapply sys_deliver.
  - intros. by apply sys_transmit.
Qed.

Definition sample_port : DlpGdpPort := Eval vm_compute in
  match port_up sample_config with Ok p => p | _ => mkPort sample_link [] end.
Definition sample_actions : list action :=
  [AGrantData 8; ATransmit sample_packet; ABurst (replicate 4 (mkFlit 0 0)); ADeliver; ADeliver].
Definition sample_sys : sys := Eval vm_compute in
  foldl (λ s a, act a s) (mkSys sample_port sample_port [] [] []) sample_actions.

Lemma sample_packet_valid : valid_packet 0 sample_packet.
Proof.
  split_and!; [| done | reflexivity |].
  - split_and!; cbn; ulia.
  - repeat constructor; ulia.
Qed.

Lemma sample_sys_reachable : sys_reachable sample_sys.
Proof.
  change sample_sys with (foldl (λ s a, act a s) (mkSys sample_port sample_port [] [] []) sample_actions).
  cbn [foldl sample_actions].
  repeat (apply sys_next; [| first [exact I | cbn; ulia | exact sample_packet_valid]]).
  apply (sys_init sample_config sample_config); (reflexivity || cbn; ulia).
Qed.

Lemma link_lossless_witness :
  length (channel sample_sys) = 2%nat ∧
  (∀ L, ∃ pend,
     lane_packets L (sent sample_sys) =
       lane_packets L (got sample_sys ++ pt_received (receiver sample_sys)) ++ pend ∧
     (channel sample_sys = [] → lane_queue L (lk_endpoint (pt_link (sender sample_sys))) = [] → pend = [])) ∧
  (∀ i rest, channel sample_sys = i :: rest → (deliver i (receiver sample_sys)).2 = Ok tt) ∧
  (∀ p, valid_packet (lp_of sample_sys) p → (transmit_gdp p (sender sample_sys)).2 = Ok tt).
Proof. split; [reflexivity | apply link_lossless, sample_sys_reachable]. Defined.
