(* ===== verification/BTree.v ===== *)
(** * Ordered maps and sets

    A [BTreeMap] is a finite map; iterating it visits the keys in increasing
    order, which [btree] makes explicit.  The order of a key type is its
    [Ord] instance, here the class [KeyOrder]. *)
From stdpp Require Import prelude gmap sorting.
From Stdlib Require Import ZArith Lia.
From S2P Require Import Prelude.
Local Open Scope Z_scope.

(** What [Ord] promises of a key type. *)
Class KeyOrder (K : Type) := {
  ord_le : relation K;
  ord_dec :: RelDecision ord_le;
  ord_total :: Total ord_le;
  ord_trans :: Transitive ord_le;
  ord_antisym :: AntiSymm (=) ord_le }.

#[export] Instance Z_key_order : KeyOrder Z := {| ord_le := Z.le |}.

(** The lexicographic order of a pair, as [#[derive(PartialOrd, Ord)]] gives
    it to a struct of two fields. *)
Section lex.
Context {A B : Type} `{KeyOrder A, KeyOrder B}.
Definition lex_le (x y : A * B) : Prop :=
  (ord_le x.1 y.1 ∧ ¬ ord_le y.1 x.1) ∨ (ord_le x.1 y.1 ∧ ord_le y.1 x.1 ∧ ord_le x.2 y.2).
#[export] Instance lex_le_dec : RelDecision lex_le.
Proof. intros x y. unfold lex_le. apply _. Defined.
#[export] Instance lex_le_total : Total lex_le.
Proof.
  intros x y. unfold lex_le. pose proof (total ord_le x.1 y.1). pose proof (total ord_le x.2 y.2).
  destruct (decide (ord_le x.1 y.1)), (decide (ord_le y.1 x.1)); tauto.
Qed.
#[export] Instance lex_le_trans : Transitive lex_le.
Proof.
  intros x y z. unfold lex_le. pose proof (transitivity (R := ord_le) (x := x.1) (y := y.1) (z := z.1)).
  pose proof (transitivity (R := ord_le) (x := z.1) (y := x.1) (z := y.1)).
  pose proof (transitivity (R := ord_le) (x := y.1) (y := z.1) (z := x.1)).
  pose proof (transitivity (R := ord_le) (x := z.1) (y := y.1) (z := x.1)).
  pose proof (transitivity (R := ord_le) (x := x.2) (y := y.2) (z := z.2)). tauto.
Qed.
#[export] Instance lex_le_antisym : AntiSymm (=) lex_le.
Proof.
  intros [x1 x2] [y1 y2]. unfold lex_le. cbn. intros H1 H2.
  pose proof (anti_symm (R := (=)) ord_le x1 y1). pose proof (anti_symm (R := (=)) ord_le x2 y2). f_equal; tauto.
Qed.
#[export] Instance lex_key_order : KeyOrder (A * B) := {| ord_le := lex_le |}.
End lex.

Section btree.
Context {K V : Type} `{Countable K, KeyOrder K}.
Implicit Types m : gmap K V.

Definition key_le (a b : K * V) : Prop := ord_le a.1 b.1.
#[export] Instance key_le_dec : RelDecision key_le.
Proof. intros a b. unfold key_le. apply _. Defined.
#[export] Instance key_le_total : Total key_le.
Proof. intros a b. apply (total ord_le). Qed.
#[export] Instance key_le_trans : Transitive key_le.
Proof. intros a b c. unfold key_le. apply transitivity. Qed.

(** [map.iter()] *)
Definition btree m : list (K * V) := merge_sort key_le (map_to_list m).
(** [map.keys()] *)
Definition btree_keys m : list K := (btree m).*1.

Lemma btree_perm m : btree m ≡ₚ map_to_list m.
Proof. apply merge_sort_Permutation. Qed.

Lemma elem_of_btree m k v : (k, v) ∈ btree m ↔ m !! k = Some v.
Proof. rewrite btree_perm. apply elem_of_map_to_list. Qed.

Lemma btree_sorted m : StronglySorted key_le (btree m).
Proof. apply StronglySorted_merge_sort; apply _. Qed.

Lemma elem_of_btree_keys m k : k ∈ btree_keys m ↔ is_Some (m !! k).
Proof.
  unfold btree_keys. rewrite list_elem_of_fmap. split.
  - intros ([k' v] & -> & Hk%elem_of_btree). by eexists.
  - intros [v Hk%elem_of_btree]. by exists (k, v).
Qed.

Lemma btree_keys_nodup m : NoDup (btree_keys m).
Proof. unfold btree_keys. rewrite btree_perm. apply NoDup_fst_map_to_list. Qed.

Lemma btree_empty : btree ∅ = [].
Proof. unfold btree. by rewrite map_to_list_empty. Qed.

Lemma btree_nil m : btree m = [] ↔ m = ∅.
Proof.
  split; [| intros ->; apply btree_empty]. intros E. apply map_empty. intros k.
  destruct (m !! k) eqn:Ek; [| done]. apply elem_of_btree in Ek. rewrite E in Ek. by apply elem_of_nil in Ek.
Qed.

End btree.

(** ** Ordered sets

    [BTreeSet]: the distinct elements of [l] in increasing order. *)
Section btree_set.
Context {K : Type} `{Countable K, KeyOrder K}.

Definition btree_set (l : list K) : list K :=
  btree_keys (list_to_map ((λ k, (k, tt)) <$> l) : gmap K unit).

Lemma elem_of_btree_set l k : k ∈ btree_set l ↔ k ∈ l.
Proof.
  unfold btree_set. rewrite elem_of_btree_keys. split.
  - intros [[] Hk%elem_of_list_to_map_2]. apply list_elem_of_fmap in Hk as (k' & [= ->] & Hk). done.
  - intros Hk. apply not_eq_None_Some. intros Hn%not_elem_of_list_to_map. apply Hn.
    rewrite <- list_fmap_compose. apply list_elem_of_fmap. by exists k.
Qed.
Lemma NoDup_btree_set l : NoDup (btree_set l).
Proof. apply btree_keys_nodup. Qed.
Lemma btree_keys_sorted {V} (m : gmap K V) : StronglySorted ord_le (btree_keys m).
Proof.
  unfold btree_keys. pose proof (btree_sorted m) as Hs. induction Hs as [| x l Hs IH Hx]; [constructor |].
  constructor; [done |]. apply Forall_fmap. eapply Forall_impl; [exact Hx |]. done.
Qed.
End btree_set.
