(* ===== verification/Reliable.v ===== *)
(** * Reliable delivery (src/src/gts.rs, [ReliableTx] and [ReliableRx])

    Sequencing, selective acknowledgement, retransmission and receive credit
    of one direction of a reliable stream. *)
From stdpp Require Import prelude gmap.
From Stdlib Require Import ZArith Lia.
From S2P Require Import Prelude BTree.
Local Open Scope Z_scope.

Definition DEFAULT_RTO_MS : Z := 500.

(** ** The sender *)

Record PendingTx : Set := mkPending { pe_data : list Z; pe_end : bool; pe_sent_at : Z }.

Record ReliableTx : Set := mkRtx {
  next_sequence : Z;
  peer_credit : Z;
  outstanding : gmap Z PendingTx;
  rto_ms : Z }.

Definition rtx_new (credit : Z) : ReliableTx :=
  {| next_sequence := 0; peer_credit := credit; outstanding := ∅; rto_ms := DEFAULT_RTO_MS |}.

Definition rtx_queue (data : list Z) (end_ : bool) (now : Z) : st ReliableTx Z :=
  s ← gets id;
  guard_st (peer_credit s =? 0) WouldBlock;;
  let seq := next_sequence s in
  modify (λ s, mkRtx (wrapping_add 32 (next_sequence s) 1) (peer_credit s - 1)
                 (<[seq := mkPending data end_ now]> (outstanding s)) (rto_ms s));;
  mret seq.

(** Is sequence [k] covered by an acknowledgement? *)
Definition acked (base bitmap k : Z) : bool :=
  if k <=? base then true
  else let d := wrapping_sub 32 (wrapping_sub 32 k base) 1 in
       (d <? 32) && negb (Z.land bitmap (Z.shiftl 1 d) =? 0).

Definition rtx_on_ack (base bitmap credit : Z) (s : ReliableTx) : ReliableTx :=
  mkRtx (next_sequence s) credit (filter (λ kv, acked base bitmap kv.1 = false) (outstanding s)) (rto_ms s).

Definition is_due (s : ReliableTx) (now : Z) (p : PendingTx) : bool :=
  rto_ms s <=? saturating_sub now (pe_sent_at p).

(** The messages to send again, and their restarted timers. *)
Definition rtx_due (now : Z) (s : ReliableTx) : ReliableTx * list (Z * list Z * bool) :=
  (mkRtx (next_sequence s) (peer_credit s)
     ((λ p, if is_due s now p then mkPending (pe_data p) (pe_end p) now else p) <$> outstanding s) (rto_ms s),
   (λ kv, (kv.1, pe_data kv.2, pe_end kv.2)) <$>
     filter (λ kv, is_due s now kv.2 = true) (btree (outstanding s))).

Definition rtx_reset (s : ReliableTx) : ReliableTx := mkRtx (next_sequence s) 0 ∅ (rto_ms s).
Definition rtx_set_credit (credit : Z) (s : ReliableTx) : ReliableTx :=
  mkRtx (next_sequence s) credit (outstanding s) (rto_ms s).

(** ** The receiver *)

Record ReliableRx : Set := mkRrx {
  next_expected : Z;
  pending : gmap Z (list Z);
  delivered : list (list Z);
  capacity : Z;
  seen_any : bool }.

Definition rrx_new (capacity : Z) : ReliableRx :=
  {| next_expected := 0; pending := ∅; delivered := []; capacity := capacity; seen_any := false |}.

Definition used (s : ReliableRx) : Z := Z.of_nat (size (pending s)) + len (delivered s).
Definition credit (s : ReliableRx) : Z := Z.min (saturating_sub (capacity s) (used s)) 255.

(** The loop that moves the messages now in order to the delivery queue.  Each
    turn removes an entry of [pending]. *)
Fixpoint drain (fuel : nat) (s : ReliableRx) : ReliableRx :=
  match fuel with
  | O => s
  | S fuel =>
      match pending s !! next_expected s with
      | Some v => drain fuel (mkRrx (wrapping_add 32 (next_expected s) 1) (delete (next_expected s) (pending s))
                                (delivered s ++ [v]) (capacity s) (seen_any s))
      | None => s
      end
  end.

Definition rrx_receive (seq : Z) (data : list Z) : st ReliableRx bool :=
  s ← gets id;
  if seq <? next_expected s then mret false
  else if seq =? next_expected s then
    guard_st (capacity s <=? used s) BufferFull;;
    modify (λ s, drain (size (pending s))
                   (mkRrx (wrapping_add 32 (next_expected s) 1) (pending s) (delivered s ++ [data])
                      (capacity s) true));;
    mret true
  else
    let distance := wrapping_sub 32 seq (next_expected s) in
    guard_st ((32 <? distance) || (capacity s <=? used s)) BufferFull;;
    modify (λ s, mkRrx (next_expected s)
                   (match pending s !! seq with Some _ => pending s | None => <[seq := data]> (pending s) end)
                   (delivered s) (capacity s) (seen_any s));;
    mret false.

Definition sack_bit (base bitmap seq : Z) : Z :=
  let d := wrapping_sub 32 (wrapping_sub 32 seq base) 1 in
  if d <? 32 then Z.lor bitmap (Z.shiftl 1 d) else bitmap.

Definition rrx_ack (s : ReliableRx) : option (Z * Z * Z) :=
  if negb (seen_any s) then None
  else
    let base := wrapping_sub 32 (next_expected s) 1 in
    Some (base, fold_left (sack_bit base) (btree_keys (pending s)) 0, credit s).

Definition rrx_recv (s : ReliableRx) : ReliableRx * option (list Z) :=
  match delivered s with
  | [] => (s, None)
  | v :: rest => (mkRrx (next_expected s) (pending s) rest (capacity s) (seen_any s), Some v)
  end.

Definition rrx_reset (s : ReliableRx) : ReliableRx := mkRrx 0 ∅ [] (capacity s) false.

(** ** Acknowledged sequences *)

Definition dist (base k : Z) : Z := wrapping_sub 32 (wrapping_sub 32 k base) 1.

Lemma dist_eq base k : -1 ≤ base → base < k → k < 2 ^ 32 → dist base k = k - base - 1.
Proof.
  intros. unfold dist, wrapping_sub. change (2 ^ 32) with 0x100000000 in *.
  rewrite Zminus_mod_idemp_l. apply Z.mod_small. lia.
Qed.

Lemma land_bit b d : 0 ≤ d → negb (Z.land b (Z.shiftl 1 d) =? 0) = Z.testbit b d.
Proof.
  intros Hd. rewrite Z.shiftl_1_l. destruct (Z.testbit b d) eqn:E.
  - destruct (Z.eqb_spec (Z.land b (2 ^ d)) 0) as [H |]; [| done].
    apply (f_equal (λ z, Z.testbit z d)) in H. rewrite Z.land_spec, E, Z.pow2_bits_true, Z.bits_0 in H by done. done.
  - replace (Z.land b (2 ^ d)) with 0; [done |]. symmetry. apply Z.bits_inj'. intros n Hn.
    rewrite Z.land_spec, Z.bits_0, Z.pow2_bits_eqb by done.
    destruct (Z.eqb_spec d n) as [<- |]; [by rewrite E | apply andb_false_r].
Qed.

Lemma sack_fold base keys : ∀ bm i, 0 ≤ i < 32 →
  Z.testbit (fold_left (sack_bit base) keys bm) i = Z.testbit bm i || existsb (λ k, dist base k =? i) keys.
Proof.
  induction keys as [| k keys IH]; intros bm i Hi; cbn [fold_left existsb]; [by rewrite orb_false_r |].
  rewrite IH by done. unfold sack_bit. fold (dist base k).
  assert (0 ≤ dist base k) by (unfold dist, wrapping_sub; apply Z.mod_pos_bound; done).
  destruct (Z.ltb_spec (dist base k) 32).
  - rewrite Z.lor_spec, Z.shiftl_1_l, Z.pow2_bits_eqb by done. by rewrite orb_assoc.
  - replace (dist base k =? i) with false by lia. done.
Qed.

Lemma lor_bit_range a d : u32 a → 0 ≤ d < 32 → u32 (Z.lor a (2 ^ d)).
Proof.
  intros Ha Hd. assert (0 < 2 ^ d < 2 ^ 32) by (split; [apply Z.pow_pos_nonneg; lia | apply Z.pow_lt_mono_r; lia]).
  assert (0 ≤ Z.lor a (2 ^ d)) by (apply Z.lor_nonneg; unfold u32 in Ha; lia).
  split; [done |]. change 0x100000000 with (2 ^ 32).
  destruct (decide (Z.lor a (2 ^ d) = 0)) as [-> |]; [done |]. apply Z.log2_lt_pow2; [lia |].
  rewrite Z.log2_lor by (unfold u32 in Ha; lia). apply Z.max_lub_lt; [| rewrite Z.log2_pow2; lia].
  destruct (decide (a = 0)) as [-> |]; [done |]. apply Z.log2_lt_pow2; unfold u32 in Ha; lia.
Qed.

Lemma sack_range base keys : ∀ bm, u32 bm → u32 (fold_left (sack_bit base) keys bm).
Proof.
  induction keys as [| k keys IH]; intros bm Hb; cbn [fold_left]; [done |]. apply IH. unfold sack_bit.
  set (d := wrapping_sub 32 _ 1). assert (0 ≤ d) by (subst d; unfold wrapping_sub; apply Z.mod_pos_bound; done).
  destruct (Z.ltb_spec d 32); [| done]. rewrite Z.shiftl_1_l. by apply lor_bit_range.
Qed.

Lemma ack_range rx base bm c : rrx_ack rx = Some (base, bm, c) → u32 base ∧ u32 bm.
Proof.
  unfold rrx_ack. destruct (negb _); [done |]. intros [= <- <- _].
  split; [unfold wrapping_sub; apply Z.mod_pos_bound; done | by apply sack_range].
Qed.

(** ** What both ends know

    [sent] is the list of the messages queued so far: sequence [k] is its
    entry [k].  The wire numbers messages with 32 bits and never wraps here:
    the theorems assume fewer than [2^32] messages. *)
Notation msg := (list Z * bool)%type.
Definition at_seq (sent : list msg) (k : Z) (m : msg) : Prop := 0 ≤ k ∧ sent !! Z.to_nat k = Some m.

Lemma at_seq_app sent m k x : at_seq sent k x → at_seq (sent ++ [m]) k x.
Proof. intros [Hk H]. split; [done |]. by apply lookup_app_l_Some. Qed.
Lemma at_seq_bound sent k x : at_seq sent k x → 0 ≤ k < len sent.
Proof. intros [Hk H%lookup_lt_Some]. unfold len. lia. Qed.
Lemma at_seq_last sent m : at_seq (sent ++ [m]) (len sent) m.
Proof. split; [unfold len; lia |]. rewrite length_len. by apply list_lookup_middle. Qed.
Lemma at_seq_total sent k : 0 ≤ k < len sent → ∃ m, at_seq sent k m.
Proof.
  intros Hk. destruct (sent !! Z.to_nat k) as [m |] eqn:E; [exists m; split; [lia | done] |].
  apply lookup_ge_None in E. unfold len in *. lia.
Qed.
Lemma at_seq_inj sent k x y : at_seq sent k x → at_seq sent k y → x = y.
Proof. intros [_ H1] [_ H2]. congruence. Qed.

Record tx_inv (sent : list msg) (tx : ReliableTx) : Prop := {
  ti_next : next_sequence tx = len sent;
  ti_credit : u8 (peer_credit tx);
  ti_out : ∀ k p, outstanding tx !! k = Some p → at_seq sent k (pe_data p, pe_end p) }.

(** [rx_mid]: inside [drain], the next message may be in [pending]. *)
Record rx_mid (sent : list msg) (got : list (list Z)) (rx : ReliableRx) : Prop := {
  rm_next : 0 < next_expected rx ≤ len sent;
  rm_data : got ++ delivered rx = (take (Z.to_nat (next_expected rx)) sent).*1;
  rm_pending : ∀ k v, pending rx !! k = Some v → next_expected rx ≤ k ∧ ∃ e, at_seq sent k (v, e);
  rm_used : used rx ≤ capacity rx;
  rm_seen : seen_any rx = true }.

Record rx_inv (sent : list msg) (got : list (list Z)) (rx : ReliableRx) : Prop := {
  ri_next : 0 ≤ next_expected rx ≤ len sent;
  ri_data : got ++ delivered rx = (take (Z.to_nat (next_expected rx)) sent).*1;
  ri_pending : ∀ k v, pending rx !! k = Some v → next_expected rx < k ∧ ∃ e, at_seq sent k (v, e);
  ri_used : used rx ≤ capacity rx;
  ri_seen : seen_any rx = bool_decide (0 < next_expected rx) }.

Definition received (rx : ReliableRx) (k : Z) : Prop := k < next_expected rx ∨ is_Some (pending rx !! k).

(** An acknowledgement covers only sequences that have been received. *)
Definition ack_ok (rx : ReliableRx) (a : Z * Z * Z) : Prop :=
  let '(base, bitmap, credit) := a in
  u8 credit ∧ ∀ k, 0 ≤ k < 2 ^ 32 → acked base bitmap k = true → received rx k.

Lemma wrap_succ n m : 0 ≤ n < m → m < 2 ^ 32 → wrapping_add 32 n 1 = n + 1.
Proof. intros. unfold wrapping_add. apply Z.mod_small. lia. Qed.

(** *** The sender *)

Lemma rtx_queue_ok sent tx data end_ now tx' r :
  tx_inv sent tx → len sent < 2 ^ 32 - 1 → rtx_queue data end_ now tx = (tx', r) →
  match r with
  | Ok seq => seq = len sent ∧ 0 < peer_credit tx ∧ tx_inv (sent ++ [(data, end_)]) tx' ∧
      outstanding tx' = <[seq := mkPending data end_ now]> (outstanding tx) ∧
      peer_credit tx' = peer_credit tx - 1
  | Err e => e = WouldBlock ∧ tx' = tx ∧ peer_credit tx = 0
  | Panic => False
  end.
Proof.
  intros [Hn Hc Ho] Hlen H. unfold rtx_queue, mbind, st_bind, gets, guard_st, lift, modify in H.
  cbn [id] in H. destruct (Z.eqb_spec (peer_credit tx) 0); cbn in H; injection H as <- <-; [done |].
  assert (0 ≤ len sent) by apply len_nonneg.
  split_and!; [done | ulia | | done | done]. split; cbn.
  - rewrite (wrap_succ _ (len sent + 1)), len_snoc by lia. lia.
  - ulia.
  - intros k p. rewrite lookup_insert_Some. intros [[<- <-] | [? Hk]].
    + rewrite Hn. apply at_seq_last.
    + by apply at_seq_app, Ho.
Qed.

Lemma rtx_on_ack_ok sent tx base bm c :
  tx_inv sent tx → u8 c → tx_inv sent (rtx_on_ack base bm c tx).
Proof.
  intros [Hn Hc Ho] Hu. split; cbn; [done.. |]. intros k p [Hk _]%map_lookup_filter_Some. by apply Ho.
Qed.

(** Only acknowledged messages leave the retransmission queue. *)
Lemma rtx_on_ack_kept tx base bm c k p :
  outstanding tx !! k = Some p →
  outstanding (rtx_on_ack base bm c tx) !! k = Some p ∨ acked base bm k = true.
Proof.
  intros H. destruct (acked base bm k) eqn:E; [by right | left]. cbn.
  by apply map_lookup_filter_Some.
Qed.

Lemma rtx_due_ok sent tx now :
  tx_inv sent tx →
  let '(tx', out) := rtx_due now tx in
  tx_inv sent tx' ∧ dom (outstanding tx') = dom (outstanding tx) ∧
  (∀ seq data e, (seq, data, e) ∈ out → at_seq sent seq (data, e)) ∧
  (∀ k p, outstanding tx !! k = Some p → is_due tx now p = true → (k, pe_data p, pe_end p) ∈ out).
Proof.
  intros [Hn Hc Ho]. cbn. split_and!.
  - split; cbn; [done.. |]. intros k p. rewrite lookup_fmap, fmap_Some. intros (q & Hq & ->).
    apply Ho in Hq. by destruct (is_due _ _ _).
  - apply dom_fmap_L.
  - intros seq data e ([k p] & [= -> -> ->] & [_ Hin]%list_elem_of_filter)%list_elem_of_fmap.
    by apply Ho, elem_of_btree.
  - intros k p Hk Hd. apply list_elem_of_fmap. exists (k, p). split; [done |].
    apply list_elem_of_filter. split; [done |]. by apply elem_of_btree.
Qed.

(** *** The receiver *)

Lemma used_drain1 rx v :
  pending rx !! next_expected rx = Some v →
  used (mkRrx (wrapping_add 32 (next_expected rx) 1) (delete (next_expected rx) (pending rx))
          (delivered rx ++ [v]) (capacity rx) (seen_any rx)) = used rx.
Proof.
  intros H. unfold used. cbn [pending delivered]. rewrite map_size_delete_Some, len_snoc by by eexists.
  assert (size (pending rx) ≠ 0%nat); [| lia]. intros E%map_size_empty_inv. rewrite E in H. by rewrite lookup_empty in H.
Qed.

Lemma take_next sent k m : at_seq sent k m →
  (take (Z.to_nat (k + 1)) sent).*1 = (take (Z.to_nat k) sent).*1 ++ [m.1].
Proof.
  intros [Hk H]. replace (Z.to_nat (k + 1)) with (S (Z.to_nat k)) by lia.
  rewrite (take_S_r _ _ _ H), fmap_app. done.
Qed.

Lemma drain_ok sent got : len sent < 2 ^ 32 → ∀ fuel rx,
  rx_mid sent got rx → (size (pending rx) ≤ fuel)%nat →
  rx_inv sent got (drain fuel rx) ∧ next_expected rx ≤ next_expected (drain fuel rx) ∧
  (∀ k, received rx k → received (drain fuel rx) k) ∧ capacity (drain fuel rx) = capacity rx.
Proof.
  intros Hlen fuel. induction fuel as [| fuel IH]; intros rx Hm Hf.
  - cbn. split; [| split; [lia | done]]. destruct Hm as [H1 H2 H3 H4 H5]. split; try done; [lia | |].
    + assert (pending rx = ∅) as E by (apply map_size_empty_inv; lia).
      intros k v Hk. rewrite E in Hk. by rewrite lookup_empty in Hk.
    + rewrite H5. symmetry. apply bool_decide_eq_true_2. lia.
  - cbn [drain]. destruct (pending rx !! next_expected rx) as [v |] eqn:Ev.
    + destruct Hm as [H1 H2 H3 H4 H5]. destruct (H3 _ _ Ev) as (_ & e & Hat).
      pose proof (at_seq_bound _ _ _ Hat). pose proof (wrap_succ (next_expected rx) (len sent) ltac:(lia) Hlen) as Hw.
      destruct (IH (mkRrx (wrapping_add 32 (next_expected rx) 1) (delete (next_expected rx) (pending rx))
          (delivered rx ++ [v]) (capacity rx) (seen_any rx))) as (I1 & I2 & I3 & I4).
      * pose proof (used_drain1 rx v Ev) as Hu. rewrite Hw in *.
        split; cbn [next_expected pending delivered capacity seen_any]; [lia | | | lia | done].
        -- rewrite app_assoc, H2. by rewrite (take_next _ _ _ Hat).
        -- intros k w [Hne Hk]%lookup_delete_Some. apply H3 in Hk as [? ?]. split; [lia | done].
      * cbn [pending]. rewrite map_size_delete_Some by by eexists. lia.
      * split; [done |]. split; [etransitivity; [| exact I2]; cbn [next_expected]; rewrite Hw; lia |]. split; [| done].
        intros k Hk. apply I3. unfold received in *. cbn [next_expected pending]. rewrite Hw.
        destruct Hk as [Hk | Hk]; [left; lia |]. destruct (decide (k = next_expected rx)) as [-> | Hne]; [left; lia |].
        right. by rewrite lookup_delete_ne.
    + split; [| split; [lia | done]]. destruct Hm as [H1 H2 H3 H4 H5]. split; try done; [lia | |].
      * intros k v Hk. destruct (H3 _ _ Hk) as [? ?]. split; [| done].
        destruct (decide (k = next_expected rx)) as [-> |]; [congruence | lia].
      * rewrite H5. symmetry. apply bool_decide_eq_true_2. lia.
Qed.

Lemma rx_inv_app sent got rx m : rx_inv sent got rx → rx_inv (sent ++ [m]) got rx.
Proof.
  intros [H1 H2 H3 H4 H5]. split; try done.
  - rewrite len_snoc. lia.
  - rewrite H2, take_app_le; [done |]. unfold len in *. lia.
  - intros k v Hk. destruct (H3 _ _ Hk) as (? & e & ?). split; [done |]. exists e. by apply at_seq_app.
Qed.

(** What one message does to the receiver. *)
Definition receive_outcome (sent : list msg) (got : list (list Z)) (rx : ReliableRx) (seq : Z)
    (rx' : ReliableRx) (r : res bool) : Prop :=
  rx_inv sent got rx' ∧ (∀ k, received rx k → received rx' k) ∧ capacity rx' = capacity rx ∧
  match r with
  | Ok b => received rx' seq ∧ b = (seq =? next_expected rx) ∧
            (if b then next_expected rx < next_expected rx' else next_expected rx' = next_expected rx)
  | Err e => e = BufferFull ∧ rx' = rx ∧ (capacity rx ≤ used rx ∨ 32 < seq - next_expected rx)
  | Panic => False
  end.

Lemma rrx_receive_ok sent got rx seq data e :
  rx_inv sent got rx → at_seq sent seq (data, e) → len sent < 2 ^ 32 →
  let '(rx', r) := rrx_receive seq data rx in receive_outcome sent got rx seq rx' r.
Proof.
  intros Hi Hat Hlen. pose proof (at_seq_bound _ _ _ Hat). pose proof Hi as [H1 H2 H3 H4 H5].
  unfold rrx_receive, mbind, st_bind, gets, guard_st, lift, modify. cbn [id].
  destruct (Z.ltb_spec seq (next_expected rx)).
  { split; [done |]. split; [done |]. split; [done |]. split; [by left |]. split; [lia | done]. }
  destruct (Z.eqb_spec seq (next_expected rx)) as [-> |].
  - destruct (Z.leb_spec (capacity rx) (used rx)); cbn [fail_if].
    { split; [done |]. split; [done |]. split; [done |]. split; [done |]. split; [done | by left]. }
    pose proof (wrap_succ (next_expected rx) (len sent) ltac:(lia) Hlen) as Hw. rewrite Hw.
    destruct (drain_ok sent got Hlen (size (pending rx))
      (mkRrx (next_expected rx + 1) (pending rx) (delivered rx ++ [data]) (capacity rx) true))
      as (I1 & I2 & I3 & I4); [| done |].
    + split; cbn [next_expected pending delivered capacity seen_any]; [lia | | | | done].
      * by rewrite app_assoc, H2, (take_next _ _ _ Hat).
      * intros k v Hk. destruct (H3 _ _ Hk). split; [lia | done].
      * unfold used in *. cbn [pending delivered]. rewrite len_snoc. lia.
    + cbn [next_expected capacity] in I2, I4. split; [done |]. split; [| split; [done |]].
      * intros k Hk. apply I3. unfold received in *. cbn. destruct Hk; [left; lia | by right].
      * split; [apply I3; left; cbn; lia |]. rewrite Z.eqb_refl. split; [done | lia].
  - assert (Hd : wrapping_sub 32 seq (next_expected rx) = seq - next_expected rx).
    { unfold wrapping_sub. apply Z.mod_small. lia. }
    rewrite Hd. destruct ((32 <? seq - next_expected rx) || (capacity rx <=? used rx)) eqn:Eg; cbn [fail_if].
    { split; [done |]. split; [done |]. split; [done |]. split; [done |]. split; [done | lia]. }
    apply orb_false_iff in Eg as [E1 E2]. split; [split; cbn; try done | split; [| split; [done | split; [| split; [lia | done]]]]].
    + intros k v Hk. destruct (pending rx !! seq) eqn:Ep; [by apply H3 |].
      apply lookup_insert_Some in Hk as [[<- <-] | [_ Hk]]; [| by apply H3].
      split; [lia | by exists e].
    + unfold used in *. cbn. destruct (pending rx !! seq) eqn:Ep; [done |].
      rewrite map_size_insert_None by done. lia.
    + intros k [Hk | Hk]; [by left | right]. cbn. destruct (pending rx !! seq); [done |].
      by apply lookup_insert_is_Some'; right.
    + right. cbn. destruct (pending rx !! seq) eqn:Ep; [by rewrite Ep |]. by rewrite lookup_insert_eq.
Qed.

Lemma rrx_recv_ok sent got rx :
  rx_inv sent got rx →
  let '(rx', r) := rrx_recv rx in
  rx_inv sent (got ++ match r with Some v => [v] | None => [] end) rx' ∧
  (∀ k, received rx k → received rx' k) ∧ capacity rx' = capacity rx ∧ next_expected rx' = next_expected rx.
Proof.
  intros Hi. pose proof Hi as [H1 H2 H3 H4 H5]. unfold rrx_recv.
  destruct (delivered rx) as [| v rest] eqn:E; [by rewrite app_nil_r |].
  split; [| done]. split; cbn; try done.
  - by rewrite <- app_assoc.
  - unfold used in *. rewrite E, len_cons in H4. cbn. lia.
Qed.

Lemma credit_u8 rx : u8 (credit rx).
Proof. unfold credit, saturating_sub, u8. lia. Qed.

(** An acknowledgement never covers what has not been received. *)
Lemma rrx_ack_ok sent got rx a :
  rx_inv sent got rx → len sent < 2 ^ 32 → rrx_ack rx = Some a → ack_ok rx a.
Proof.
  intros [H1 H2 H3 H4 H5] Hlen. unfold rrx_ack. rewrite H5.
  case_bool_decide as Hn; [| done]. intros [= <-]. split; [apply credit_u8 |]. intros k Hk.
  assert (Hw : wrapping_sub 32 (next_expected rx) 1 = next_expected rx - 1).
  { unfold wrapping_sub. apply Z.mod_small. lia. }
  rewrite Hw. unfold acked. destruct (Z.leb_spec k (next_expected rx - 1)); [intros _; left; lia |].
  fold (dist (next_expected rx - 1) k). rewrite dist_eq by lia.
  intros [Hlt Hbit]%andb_true_iff. rewrite land_bit, sack_fold, Z.bits_0 in Hbit by lia. cbn [orb] in Hbit.
  apply existsb_exists in Hbit as (q & Hq & Hd%Z.eqb_eq).
  apply list_elem_of_In, elem_of_btree_keys in Hq as [v Hv]. destruct (H3 _ _ Hv) as (Hlo & e & Hat).
  apply at_seq_bound in Hat. rewrite dist_eq in Hd by lia.
  assert (q = k) as -> by lia. right. by eexists.
Qed.

Lemma ack_ok_mono rx rx' a : (∀ k, received rx k → received rx' k) → ack_ok rx a → ack_ok rx' a.
Proof. destruct a as [[base bm] c]. intros H [Hc Ha]. split; [done |]. intros k Hk Hack. by apply H, Ha. Qed.

(** ** Past the last sequence number *)

(** Senders that only ever queue messages and take acknowledgements. *)
Inductive rtx_reachable : ReliableTx → Prop :=
  | rtx_init c : u8 c → rtx_reachable (rtx_new c)
  | rtx_step_queue s d e now : rtx_reachable s → rtx_reachable (rtx_queue d e now s).1
  | rtx_step_ack s base bm c : rtx_reachable s → u32 base → u32 bm → u8 c → rtx_reachable (rtx_on_ack base bm c s).

Lemma rtx_drained n :
  0 ≤ n < 2 ^ 32 → rtx_reachable (mkRtx n 2 ∅ DEFAULT_RTO_MS).
Proof.
  intros [H0 H1]. revert n H0 H1. apply (natlike_ind (λ n, n < 2 ^ 32 → rtx_reachable (mkRtx n 2 ∅ DEFAULT_RTO_MS))).
  - intros _. change (rtx_reachable (rtx_new 2)). constructor. ulia.
  - intros n Hn IH Hlt. change (2 ^ 32) with 0x100000000 in *.
    pose proof (rtx_step_ack _ n 0 2 (rtx_step_queue _ [] false 0 (IH ltac:(lia))) ltac:(ulia) ltac:(ulia) ltac:(ulia)) as H.
    unfold rtx_queue, mbind, st_bind, gets, guard_st, lift, modify, id, rtx_on_ack in H. cbn in H.
    rewrite (wrap_succ n (n + 1)) in H by (change (2 ^ 32) with 0x100000000; lia).
    replace (Z.succ n) with (n + 1) by lia.
    replace (filter _ _) with (∅ : gmap Z PendingTx) in H; [exact H |]. symmetry.
    apply map_empty. intros k. apply eq_None_not_Some. intros [p [Hk Hf]%map_lookup_filter_Some].
    apply lookup_insert_Some in Hk as [[<- _] | [_ Hk]]; [| by rewrite lookup_empty in Hk].
    cbn in Hf. unfold acked in Hf. by rewrite Z.leb_refl in Hf.
Qed.

(** Sequence numbers are compared without regard to wrapping: a sender
    that has used all [2^32] of them holds the last one and number 0 at once,
    and the acknowledgement of the last one alone discards both, so the
    message numbered 0 is never sent again even if it was lost. *)
Theorem rtx_ack_forgets_wrapped :
  ∃ tx, rtx_reachable tx ∧
    outstanding tx = {[ 2 ^ 32 - 1 := mkPending [1] false 0; 0 := mkPending [2] false 0 ]} ∧
    (∃ rx, rrx_ack rx = Some (2 ^ 32 - 1, 0, 1) ∧ ¬ received rx 0) ∧
    outstanding (rtx_on_ack (2 ^ 32 - 1) 0 1 tx) = ∅.
Proof.
  exists (rtx_queue [2] false 0 (rtx_queue [1] false 0 (mkRtx (2 ^ 32 - 1) 2 ∅ DEFAULT_RTO_MS)).1).1.
  split; [do 2 constructor; apply rtx_drained; lia |]. split; [by vm_compute |]. split; [| by vm_compute].
  exists (mkRrx 0 ∅ [[1]] 2 true). split; [by vm_compute |]. unfold received. cbn.
  rewrite lookup_empty. intros [? | [? ?]]; [lia | done].
Qed.
