(* ===== verification/GtsStream.v ===== *)
(** * Streams and tunnels (src/src/gts.rs)

    [GtsStream] is one stream of a tunnel under its negotiated profile,
    [GtsTunnel] the table of streams. *)
From stdpp Require Import prelude gmap.
From Stdlib Require Import ZArith Lia.
From S2P Require Import Prelude BTree Css GdpWire GtsWire GtsCodec GtsCodecSound Reliable.
Local Open Scope Z_scope.

Inductive TunnelRole : Set := Initiator | Responder.
Inductive TunnelState : Set := Connecting | Established | TunnelClosing | TunnelClosed | TunnelReset.
Inductive StreamState : Set := Opening | Open | Closing | Closed | SReset.
#[export] Instance TunnelState_eq_dec : EqDecision TunnelState.
Proof. solve_decision. Defined.
#[export] Instance StreamState_eq_dec : EqDecision StreamState.
Proof. solve_decision. Defined.

(** ** Streams *)

Record GtsStream : Set := mkStream {
  id : Z;
  profile : StreamProfile;
  state : StreamState;
  opened_by_local : bool;
  reliable_tx : option ReliableTx;
  reliable_rx : option ReliableRx;
  unrel_tx_sequence : Z;
  unrel_rx_highest : option Z;
  unrel_delivered : list (list Z);
  local_ended : bool;
  remote_ended : bool }.

Section setters.
Context (s : GtsStream).
Definition with_state v := mkStream (id s) (profile s) v (opened_by_local s) (reliable_tx s) (reliable_rx s)
  (unrel_tx_sequence s) (unrel_rx_highest s) (unrel_delivered s) (local_ended s) (remote_ended s).
Definition with_tx v := mkStream (id s) (profile s) (state s) (opened_by_local s) v (reliable_rx s)
  (unrel_tx_sequence s) (unrel_rx_highest s) (unrel_delivered s) (local_ended s) (remote_ended s).
Definition with_rx v := mkStream (id s) (profile s) (state s) (opened_by_local s) (reliable_tx s) v
  (unrel_tx_sequence s) (unrel_rx_highest s) (unrel_delivered s) (local_ended s) (remote_ended s).
Definition with_unrel_tx v := mkStream (id s) (profile s) (state s) (opened_by_local s) (reliable_tx s)
  (reliable_rx s) v (unrel_rx_highest s) (unrel_delivered s) (local_ended s) (remote_ended s).
Definition with_unrel_rx highest queue := mkStream (id s) (profile s) (state s) (opened_by_local s)
  (reliable_tx s) (reliable_rx s) (unrel_tx_sequence s) highest queue (local_ended s) (remote_ended s).
Definition with_ended local remote := mkStream (id s) (profile s) (state s) (opened_by_local s)
  (reliable_tx s) (reliable_rx s) (unrel_tx_sequence s) (unrel_rx_highest s) (unrel_delivered s) local remote.
End setters.

Definition stream_new (sid : Z) (p : StreamProfile) (opened : bool) (local_credit peer_credit : Z) : res GtsStream :=
  sp_validate p;;
  Ok {| id := sid; profile := p; state := Open; opened_by_local := opened;
        reliable_tx := if sp_unreliable p then None else Some (rtx_new peer_credit);
        reliable_rx := if sp_unreliable p then None else Some (rrx_new (Z.max local_credit 1));
        unrel_tx_sequence := 0; unrel_rx_highest := None; unrel_delivered := [];
        local_ended := false; remote_ended := false |}.

Definition local_may_send (s : GtsStream) (local_is_opener : bool) : bool :=
  if local_is_opener then opener_may_send (sp_direction (profile s)) else peer_may_send (sp_direction (profile s)).
Definition remote_may_send (s : GtsStream) (local_is_opener : bool) : bool :=
  if local_is_opener then peer_may_send (sp_direction (profile s)) else opener_may_send (sp_direction (profile s)).

Definition class_bytes (s : GtsStream) : Z := sc_bytes (sp_size_class (profile s)).
Definition fixed_reliable_data_len (s : GtsStream) : res Z :=
  ok_or (checked_sub (class_bytes s) 14) InvalidLength.
Definition fixed_reliable_end_capacity (s : GtsStream) : res Z :=
  ok_or (checked_sub (class_bytes s) 16) InvalidLength.
Definition fixed_unreliable_data_len (s : GtsStream) : res Z :=
  let overhead := if sp_sequenced (profile s) then 14 else 10 in
  ok_or (checked_sub (class_bytes s) overhead) InvalidLength.

Definition validate_send_len (s : GtsStream) (data_len : Z) (end_ : bool) : res unit :=
  let p := profile s in
  if sp_unreliable p then
    fail_if end_ ProfileViolation;;
    if sp_variable p then
      let overhead := if sp_sequenced p then 16 else 12 in
      fail_if (class_bytes s <? data_len + overhead) MessageTooLarge
    else n ← fixed_unreliable_data_len s; fail_if (negb (data_len =? n)) InvalidLength
  else if sp_variable p then fail_if (class_bytes s <? data_len + 16) MessageTooLarge
  else if end_ then n ← fixed_reliable_end_capacity s; fail_if (n <? data_len) MessageTooLarge
  else n ← fixed_reliable_data_len s; fail_if (negb (data_len =? n)) InvalidLength.

Definition finished (s : GtsStream) : bool := bool_decide (state s = Closed) || bool_decide (state s = SReset).

Definition validate_incoming (s : GtsStream) (size_class : SizeClass) (packet : GtsPacket) : res unit :=
  let p := profile s in
  fail_if (finished s) InvalidState;;
  match packet with
  | Data _ _ _ data end_ =>
      fail_if (sp_unreliable p || remote_ended s) ProfileViolation;;
      fail_if (negb (remote_may_send s (opened_by_local s))) DirectionViolation;;
      if sp_variable p then
        fail_if ((sc_index (sp_size_class p) <? sc_index size_class)
                 || (sc_bytes size_class <? len data + 16)) ProfileViolation
      else
        fail_if (negb (bool_decide (size_class = sp_size_class p))) ProfileViolation;;
        if end_ then n ← fixed_reliable_end_capacity s; fail_if (n <? len data) InvalidLength
        else n ← fixed_reliable_data_len s; fail_if (negb (len data =? n)) InvalidLength
  | Datagram _ _ sequence data =>
      fail_if (negb (sp_unreliable p)) ProfileViolation;;
      fail_if (negb (remote_may_send s (opened_by_local s))) DirectionViolation;;
      fail_if (negb (bool_decide (sp_sequenced p = bool_decide (is_Some sequence)))) ProfileViolation;;
      if sp_variable p then
        let overhead := if sp_sequenced p then 16 else 12 in
        fail_if ((sc_index (sp_size_class p) <? sc_index size_class)
                 || (sc_bytes size_class <? len data + overhead)) ProfileViolation
      else
        fail_if (negb (bool_decide (size_class = sp_size_class p))) InvalidLength;;
        n ← fixed_unreliable_data_len s; fail_if (negb (len data =? n)) InvalidLength
  | Ack _ _ _ _ _ => fail_if (sp_unreliable p) ProfileViolation
  | StreamClose _ _ final_sequence _ =>
      fail_if (sp_unreliable p && negb (final_sequence =? 0)) ProfileViolation
  | StreamReset _ _ _ _ => Ok tt
  | _ => Err ProfileViolation
  end.

(** [self.reliable_tx.as_mut().expect(..).f(..)] *)
Definition on_tx {A} (m : st ReliableTx A) : st GtsStream A := λ s,
  match reliable_tx s with
  | Some t => let '(t, r) := m t in (with_tx s (Some t), r)
  | None => (s, Panic)
  end.
Definition on_rx {A} (m : st ReliableRx A) : st GtsStream A := λ s,
  match reliable_rx s with
  | Some t => let '(t, r) := m t in (with_rx s (Some t), r)
  | None => (s, Panic)
  end.

Definition send_packet (tunnel_id : Z) (data : list Z) (end_ : bool) (now : Z) : st GtsStream GtsPacket :=
  s ← gets Datatypes.id;
  guard_st (negb (bool_decide (state s = Open))) InvalidState;;
  guard_st (local_ended s) InvalidState;;
  guard_st (negb (local_may_send s (opened_by_local s))) DirectionViolation;;
  lift (validate_send_len s (len data) end_);;
  if sp_unreliable (profile s) then
    if sp_sequenced (profile s) then
      modify (λ s, with_unrel_tx s (wrapping_add 32 (unrel_tx_sequence s) 1));;
      mret (Datagram tunnel_id (id s) (Some (unrel_tx_sequence s)) data)
    else mret (Datagram tunnel_id (id s) None data)
  else
    seq ← on_tx (rtx_queue data end_ now);
    modify (λ s, if end_ then with_ended s true (remote_ended s) else s);;
    mret (Data tunnel_id (id s) seq data end_).

Definition ack_packet (tunnel_id stream_id : Z) (a : option (Z * Z * Z)) : option GtsPacket :=
  '(base, bm, credit) ← a; Some (Ack tunnel_id stream_id base bm credit).

Definition receive_packet (packet : GtsPacket) : st GtsStream (option GtsPacket) :=
  s ← gets Datatypes.id;
  guard_st (finished s) InvalidState;;
  guard_st (negb (remote_may_send s (opened_by_local s))) DirectionViolation;;
  match packet with
  | Data tunnel_id stream_id sequence data end_ =>
      if sp_unreliable (profile s) then lift (Err ProfileViolation)
      else
        guard_st (negb (stream_id =? id s) || remote_ended s) InvalidState;;
        on_rx (rrx_receive sequence data);;
        modify (λ s, if end_ then with_ended s (local_ended s) true else s);;
        rx ← on_rx (gets Datatypes.id);
        mret (ack_packet tunnel_id stream_id (rrx_ack rx))
  | Datagram _ stream_id sequence data =>
      if sp_unreliable (profile s) then
        guard_st (negb (stream_id =? id s)) UnknownStream;;
        let push := modify (λ s, with_unrel_rx s (unrel_rx_highest s) (unrel_delivered s ++ [data])) in
        if sp_sequenced (profile s) then
          q ← lift (ok_or sequence ProfileViolation);
          if match unrel_rx_highest s with Some h => q <=? h | None => false end then mret None
          else modify (λ s, with_unrel_rx s (Some q) (unrel_delivered s));; push;; mret None
        else push;; mret None
      else lift (Err ProfileViolation)
  | _ => lift (Err ProfileViolation)
  end.

Definition on_ack (base bitmap credit : Z) : st GtsStream unit :=
  s ← gets Datatypes.id;
  guard_st (bool_decide (state s = SReset) || sp_unreliable (profile s)) ProfileViolation;;
  t ← lift (ok_or (reliable_tx s) ProfileViolation);
  modify (λ s, with_tx s (Some (rtx_on_ack base bitmap credit t))).

Definition recv : st GtsStream (option (list Z)) :=
  s ← gets Datatypes.id;
  if sp_unreliable (profile s) then
    match unrel_delivered s with
    | [] => mret None
    | v :: rest => modify (λ s, with_unrel_rx s (unrel_rx_highest s) rest);; mret (Some v)
    end
  else on_rx (λ rx, let '(rx, v) := rrx_recv rx in (rx, Ok v)).

Definition receive_credit_ack (tunnel_id : Z) (s : GtsStream) : option GtsPacket :=
  if sp_unreliable (profile s) || bool_decide (state s = SReset) then None
  else rx ← reliable_rx s; ack_packet tunnel_id (id s) (rrx_ack rx).

Definition retransmit_due (tunnel_id now : Z) (s : GtsStream) : GtsStream * list GtsPacket :=
  match reliable_tx s with
  | None => (s, [])
  | Some t =>
      let '(t, out) := rtx_due now t in
      (with_tx s (Some t), (λ '(sequence, data, end_), Data tunnel_id (id s) sequence data end_) <$> out)
  end.

Definition stream_peer_credit (s : GtsStream) : option Z := peer_credit <$> reliable_tx s.

Definition apply_open_ack (credit : Z) : st GtsStream unit :=
  s ← gets Datatypes.id;
  guard_st (negb (bool_decide (state s = Opening))) InvalidState;;
  modify (λ s, with_state (with_tx s (rtx_set_credit credit <$> reliable_tx s)) Open).

Definition mark_opening (s : GtsStream) : GtsStream := with_state s Opening.

Definition stream_reset (s : GtsStream) : GtsStream :=
  mkStream (id s) (profile s) SReset (opened_by_local s) (rtx_reset <$> reliable_tx s) (rrx_reset <$> reliable_rx s)
    (unrel_tx_sequence s) None [] true true.

(** ** Tunnels *)

Record GtsTunnel : Set := mkTunnel {
  role : TunnelRole;
  tstate : TunnelState;
  local_receive_id : Z;
  remote_receive_id : option Z;
  local_reset_id : Z;
  remote_reset_id : option Z;
  css : ServiceSelector;
  streams : gmap Z GtsStream;
  next_stream_id : Z }.

Definition tunnel_initiator (local_receive_id local_reset_id : Z) (css : ServiceSelector)
    (stream0_profile : StreamProfile) (local_credit : Z) : res GtsTunnel :=
  s ← stream_new 0 stream0_profile true local_credit 0;
  Ok {| role := Initiator; tstate := Connecting; local_receive_id := local_receive_id;
        remote_receive_id := None; local_reset_id := local_reset_id; remote_reset_id := None; css := css;
        streams := {[0 := s]}; next_stream_id := 2 |}.

Definition tunnel_responder (local_receive_id local_reset_id remote_receive_id remote_reset_id : Z)
    (css : ServiceSelector) (stream0_profile : StreamProfile) (local_credit peer_credit : Z) : res GtsTunnel :=
  s ← stream_new 0 stream0_profile false local_credit peer_credit;
  Ok {| role := Responder; tstate := Established; local_receive_id := local_receive_id;
        remote_receive_id := Some remote_receive_id; local_reset_id := local_reset_id;
        remote_reset_id := Some remote_reset_id; css := css;
        streams := {[0 := s]}; next_stream_id := 1 |}.

Definition with_streams (t : GtsTunnel) (m : gmap Z GtsStream) (next : Z) : GtsTunnel :=
  mkTunnel (role t) (tstate t) (local_receive_id t) (remote_receive_id t) (local_reset_id t)
    (remote_reset_id t) (css t) m next.

Definition establish_initiator (remote_receive_id remote_reset_id credit : Z) : st GtsTunnel unit :=
  t ← gets Datatypes.id;
  guard_st (negb (bool_decide (tstate t = Connecting))) InvalidState;;
  modify (λ t, mkTunnel (role t) Established (local_receive_id t) (Some remote_receive_id) (local_reset_id t)
                 (Some remote_reset_id) (css t) (streams t) (next_stream_id t));;
  s ← lift (expect (streams t !! 0));
  modify (λ t, with_streams t (<[0 := with_tx s (rtx_set_credit credit <$> reliable_tx s)]> (streams t))
                 (next_stream_id t)).

Definition alloc_stream_id : st GtsTunnel Z :=
  t ← gets Datatypes.id;
  guard_st (negb (bool_decide (tstate t = Established))) InvalidState;;
  guard_st (253 <? next_stream_id t) BufferFull;;
  modify (λ t, with_streams t (streams t) (wrapping_add 8 (next_stream_id t) 2));;
  mret (next_stream_id t).

Definition add_stream (sid : Z) (p : StreamProfile) (opened_by_local : bool) (local_credit peer_credit : Z)
    : st GtsTunnel unit :=
  t ← gets Datatypes.id;
  guard_st (negb (bool_decide (tstate t = Established)) || bool_decide (is_Some (streams t !! sid))) InvalidState;;
  s ← lift (stream_new sid p opened_by_local local_credit peer_credit);
  modify (λ t, with_streams t (<[sid := s]> (streams t)) (next_stream_id t)).

(** [self.stream_mut(id)?.f(..)] *)
Definition on_stream {A} (sid : Z) (m : st GtsStream A) : st GtsTunnel A := λ t,
  match streams t !! sid with
  | None => (t, Err UnknownStream)
  | Some s => let '(s, r) := m s in (with_streams t (<[sid := s]> (streams t)) (next_stream_id t), r)
  end.

Definition remote_id (t : GtsTunnel) : res Z := ok_or (remote_receive_id t) InvalidState.

Definition tunnel_reset (t : GtsTunnel) : GtsTunnel :=
  mkTunnel (role t) TunnelReset (local_receive_id t) (remote_receive_id t) (local_reset_id t)
    (remote_reset_id t) (css t) (stream_reset <$> streams t) (next_stream_id t).

(** ** What one end sends, the other accepts *)

(** The frame [send_gts] puts a packet in: its Size Class and octets. *)
Record path : Set := mkPath { pa_source : Z; pa_destination : Z }.
Definition frame_ctx (pa : path) (c : SizeClass) : GtsContext := mkContext 0 c (pa_source pa) (pa_destination pa).
Definition frame_of (pa : path) (prof : StreamProfile) (packet : GtsPacket) : res (SizeClass * list Z) :=
  c ← choose_size_class packet (Some prof);
  w ← encode_packet packet (frame_ctx pa c) (Some prof);
  Ok (c, w).

(** The other end of a stream. *)
Definition mirrors (s r : GtsStream) : Prop :=
  profile r = profile s ∧ id r = id s ∧ opened_by_local r = negb (opened_by_local s).

Record stream_ok (s : GtsStream) : Prop := {
  so_profile : sp_validate (profile s) = Ok (profile s);
  so_id : u8 (id s) }.

Definition payload_fits (prof : StreamProfile) (p : GtsPacket) : Prop :=
  wf_packet p ∧ admissible p (Some prof) ∧ fits p (Some prof) (sp_size_class prof).

Lemma frame_of_fits pa prof p :
  payload_fits prof p → ∃ c w, frame_of pa prof p = Ok (c, w) ∧ fits p (Some prof) c.
Proof.
  intros (Hwf & Ha & Hf). destruct (fits_choose _ _ _ Hf) as (c & Hc & _).
  pose proof (choose_fits _ _ _ Hc) as Hcf.
  destruct (proj1 (is_ok_ex (encode_packet p (frame_ctx pa c) (Some prof)))) as [w Hw].
  { unfold encode_packet. by apply (encode_iff_fits (H := handwritten_codec)). }
  exists c, w. split; [| done]. unfold frame_of. by rewrite Hc, bind_Ok_l, Hw.
Qed.

Lemma frame_of_decode pa prof p c w :
  wf_packet p → frame_of pa prof p = Ok (c, w) →
  decode_packet w (frame_ctx pa c) (Some prof) = Ok p ∧ fits p (Some prof) c.
Proof.
  intros Hwf H. unfold frame_of in H. apply bind_Ok in H as (c' & Hc & H).
  apply bind_Ok in H as (w' & Hw & H%Ok_inj). injection H as -> ->. split; [| by apply choose_fits].
  destruct (encode_with_Ok (H := handwritten_codec) _ _ _ _ Hwf Hw) as (plan & Hfr & _ & ->).
  unfold decode_packet. by apply (decode_plan_frame (H := handwritten_codec)).
Qed.

Lemma class_violates_self sp : class_violates (sp_size_class sp) sp = false.
Proof.
  destruct (sp_variable sp) eqn:E; [rewrite class_violates_variable by done; lia |].
  by apply class_violates_fixed.
Qed.

(** Lengths the sender admits fit the negotiated class. *)
Lemma send_len_fits s n end_ :
  validate_send_len s n end_ = Ok tt →
  let p := profile s in
  if sp_unreliable p then end_ = false ∧
    let k := (if sp_sequenced p then 14 else 10) + (if sp_variable p then 2 else 0) + n in
    k ≤ class_bytes s ∧ (sp_variable p = false → k = class_bytes s)
  else
    let k := 14 + (if sp_variable p || end_ then 2 else 0) + n in
    k ≤ class_bytes s ∧ (sp_variable p || end_ = false → k = class_bytes s).
Proof.
  unfold validate_send_len, fixed_unreliable_data_len, fixed_reliable_end_capacity, fixed_reliable_data_len, checked_sub.
  cbv zeta. destruct (sp_unreliable (profile s)).
  - destruct end_; [done |]. cbn [fail_if]. rewrite bind_Ok_l.
    destruct (sp_variable (profile s)); [intros [? _]%fail_if_Ok; split; [done |]; destruct (sp_sequenced _); lia |].
    destruct (Z.leb_spec (if sp_sequenced (profile s) then 14 else 10) (class_bytes s)); [| done].
    cbn [ok_or]. rewrite bind_Ok_l. intros [? _]%fail_if_Ok. split; [done |]. destruct (sp_sequenced _); lia.
  - destruct (sp_variable (profile s)); cbn [orb]; [intros [? _]%fail_if_Ok; lia |].
    destruct end_.
    + destruct (Z.leb_spec 16 (class_bytes s)); [| done]. cbn [ok_or]. rewrite bind_Ok_l. intros [? _]%fail_if_Ok. lia.
    + destruct (Z.leb_spec 14 (class_bytes s)); [| done]. cbn [ok_or]. rewrite bind_Ok_l. intros [? _]%fail_if_Ok. lia.
Qed.

Lemma data_payload_fits s tid seq data end_ :
  stream_ok s → u32 tid → u32 seq → bytes data → sp_unreliable (profile s) = false →
  validate_send_len s (len data) end_ = Ok tt →
  payload_fits (profile s) (Data tid (id s) seq data end_).
Proof.
  intros [Hp Hid] Ht Hs Hb Hu Hl. apply send_len_fits in Hl. cbv zeta in Hl. rewrite Hu in Hl.
  split; [by split_and! |]. split; [by intros sp [= <-] |].
  exists (10 + (if sp_variable (profile s) || end_ then 2 else 0) + len data + 4).
  unfold class_bytes in Hl. split; [cbn; by rewrite Hu |]. split; [lia |].
  intros sp [= <-]. split; [apply class_violates_self |]. intros. lia.
Qed.

Lemma datagram_payload_fits s tid seq data :
  stream_ok s → u32 tid → bytes data → (∀ q, seq = Some q → u32 q) → sp_unreliable (profile s) = true →
  bool_decide (is_Some seq) = sp_sequenced (profile s) →
  validate_send_len s (len data) false = Ok tt →
  payload_fits (profile s) (Datagram tid (id s) seq data).
Proof.
  intros [Hp Hid] Ht Hb Hq Hu Hseq Hl. apply send_len_fits in Hl. cbv zeta in Hl. rewrite Hu in Hl.
  destruct Hl as [_ Hl]. unfold class_bytes in Hl.
  split; [by split_and! |]. split; [by intros sp [= <-] |].
  exists (6 + (if sp_sequenced (profile s) then 4 else 0) + (if sp_variable (profile s) then 2 else 0) + len data + 4).
  split; [cbn; by rewrite Hu |]. split; [destruct (sp_sequenced _); lia |].
  intros sp [= <-]. split; [apply class_violates_self |]. intros. destruct (sp_sequenced _); lia.
Qed.

Lemma remote_mirror s r :
  mirrors s r → remote_may_send r (opened_by_local r) = local_may_send s (opened_by_local s).
Proof.
  intros (Hp & _ & Ho). unfold remote_may_send, local_may_send. rewrite Hp, Ho.
  by destruct (opened_by_local s).
Qed.

(** What fits the class is what the receiving end checks. *)
Lemma fits_accepted s r p c :
  mirrors s r → local_may_send s (opened_by_local s) = true → finished r = false →
  fits p (Some (profile s)) c →
  match p with
  | Data _ _ _ _ _ => remote_ended r = false
  | Datagram _ _ seq _ => bool_decide (is_Some seq) = sp_sequenced (profile s)
  | _ => False
  end → validate_incoming r c p = Ok tt.
Proof.
  intros Hm Hmay Hfin (n & Hn & Hle & Hcl) Hx. pose proof (remote_mirror _ _ Hm) as Hr.
  rewrite Hmay in Hr. destruct Hm as (Hp & _ & _). unfold validate_incoming. cbv zeta.
  rewrite Hfin. cbn [fail_if]. rewrite bind_Ok_l.
  destruct p; try done; destruct (Hcl _ eq_refl) as [Hv Hex]; clear Hcl; cbn [minimum_len] in Hn;
    apply bind_Ok in Hn as (sp & E & Hn); injection E as <-; apply bind_Ok in Hn as (u & [Hu _]%fail_if_Ok & Hn);
    apply Ok_inj in Hn as <-; unfold fixed_reliable_end_capacity, fixed_reliable_data_len,
      fixed_unreliable_data_len, class_bytes, checked_sub; rewrite Hr, Hp in *.
  - rewrite Hu, Hx. cbn [orb negb fail_if]. rewrite !bind_Ok_l.
    destruct (sp_variable (profile s)) eqn:Ev.
    + rewrite class_violates_variable in Hv by done. cbn [orb] in *. rewrite Hv. cbn [orb].
      unfold fail_if. by replace (_ <? _) with false by lia.
    + apply (class_violates_fixed _ _ Ev) in Hv as ->. rewrite bool_decide_eq_true_2 by done.
      cbn [negb fail_if orb] in *. rewrite bind_Ok_l. destruct end_.
      * replace (16 <=? _) with true by (pose proof (len_nonneg data); lia). cbn [ok_or]. rewrite bind_Ok_l.
        unfold fail_if. by replace (_ <? _) with false by lia.
      * specialize (Hex eq_refl). replace (14 <=? _) with true by (pose proof (len_nonneg data); lia).
        cbn [ok_or]. rewrite bind_Ok_l. unfold fail_if. by replace (negb _) with false by lia.
  - rewrite Hx. apply negb_false_iff in Hu as ->. cbn [negb fail_if]. rewrite !bind_Ok_l.
    rewrite (bool_decide_eq_true_2 (sp_sequenced (profile s) = sp_sequenced (profile s)) eq_refl). cbn [negb fail_if]. rewrite bind_Ok_l.
    pose proof (len_nonneg data). destruct (sp_variable (profile s)) eqn:Ev.
    + rewrite class_violates_variable in Hv by done. rewrite Hv. cbn [orb].
      unfold fail_if. by replace (_ <? _) with false by (destruct (sp_sequenced _); lia).
    + apply (class_violates_fixed _ _ Ev) in Hv as ->. rewrite bool_decide_eq_true_2 by done.
      cbn [negb fail_if]. rewrite bind_Ok_l. specialize (Hex eq_refl).
      replace ((if sp_sequenced (profile s) then 14 else 10) <=? _) with true by (destruct (sp_sequenced _); lia).
      cbn [ok_or]. rewrite bind_Ok_l. unfold fail_if.
      by replace (negb _) with false by (destruct (sp_sequenced _); lia).
Qed.

(** [send_packet] by cases. *)
Lemma send_packet_eq tid data end_ now s :
  send_packet tid data end_ now s =
  if negb (bool_decide (state s = Open)) || local_ended s then (s, Err InvalidState)
  else if negb (local_may_send s (opened_by_local s)) then (s, Err DirectionViolation)
  else match validate_send_len s (len data) end_ with
  | Err e => (s, Err e)
  | Panic => (s, Panic)
  | Ok _ =>
      if sp_unreliable (profile s) then
        if sp_sequenced (profile s) then
          (with_unrel_tx s (wrapping_add 32 (unrel_tx_sequence s) 1),
           Ok (Datagram tid (id s) (Some (unrel_tx_sequence s)) data))
        else (s, Ok (Datagram tid (id s) None data))
      else match reliable_tx s with
      | None => (s, Panic)
      | Some t =>
          match rtx_queue data end_ now t with
          | (t', Ok seq) => (let s' := with_tx s (Some t') in if end_ then with_ended s' true (remote_ended s) else s',
              Ok (Data tid (id s) seq data end_))
          | (t', Err e) => (with_tx s (Some t'), Err e)
          | (t', Panic) => (with_tx s (Some t'), Panic)
          end
      end
  end.
Proof.
  unfold send_packet, on_tx, mbind, st_bind, gets, guard_st, lift, modify, mret, st_ret, Datatypes.id.
  destruct (bool_decide (state s = Open)); cbn [negb orb fail_if]; [| done].
  destruct (local_ended s); cbn [fail_if]; [done |].
  destruct (local_may_send _ _); cbn [negb fail_if]; [| done].
  destruct (validate_send_len _ _ _) as [[] | |]; [| done..].
  destruct (sp_unreliable _); [by destruct (sp_sequenced _) |].
  destruct (reliable_tx s) as [t |]; [| done]. destruct (rtx_queue data end_ now t) as [t' [| |]]; done.
Qed.

Lemma rtx_queue_seq data end_ now t t' seq :
  rtx_queue data end_ now t = (t', Ok seq) → seq = next_sequence t.
Proof.
  unfold rtx_queue, mbind, st_bind, gets, guard_st, lift, modify, mret, st_ret, Datatypes.id.
  destruct (_ =? 0); cbn; [done |]. by intros [= _ <-].
Qed.

(** Sequence counters stay in their type. *)
Record stream_ranges (s : GtsStream) : Prop := {
  sr_unrel : u32 (unrel_tx_sequence s);
  sr_next : ∀ t, reliable_tx s = Some t → u32 (next_sequence t) }.

(** Whatever message [send_packet] admits travels: it fits a Size Class
    of the negotiated profile, encodes in a frame of that class, decodes from
    it at the other end, and passes [validate_incoming] of the mirrored
    stream, as long as that stream is live and has not seen the end of the
    data. *)
Theorem gts_sent_is_accepted pa s r tid data end_ now s' p :
  stream_ok s → stream_ranges s → u32 tid → bytes data →
  send_packet tid data end_ now s = (s', Ok p) →
  mirrors s r → finished r = false → remote_ended r = false →
  ∃ c w, frame_of pa (profile s) p = Ok (c, w) ∧ len w = sc_bytes c ∧
    sc_index c ≤ sc_index (sp_size_class (profile s)) ∧
    decode_packet w (frame_ctx pa c) (Some (profile r)) = Ok p ∧
    validate_incoming r c p = Ok tt.
Proof.
  intros Hok [Hr1 Hr2] Ht Hb Hs Hm Hfin Hend. rewrite send_packet_eq in Hs.
  destruct (negb _ || _); [done |]. destruct (local_may_send s _) eqn:Hmay; cbn [negb] in Hs; [| done].
  destruct (validate_send_len s (len data) end_) as [[] | |] eqn:Hl; [| done..].
  assert (Hp : payload_fits (profile s) p ∧
    match p with Data _ _ _ _ _ => True
    | Datagram _ _ seq _ => bool_decide (is_Some seq) = sp_sequenced (profile s) | _ => False end).
  { destruct (sp_unreliable (profile s)) eqn:Hu.
    - pose proof (send_len_fits _ _ _ Hl) as Hf. cbv zeta in Hf. rewrite Hu in Hf. destruct Hf as [-> _].
      destruct (sp_sequenced (profile s)) eqn:Hq; injection Hs as <- <-.
      + split; [| by rewrite bool_decide_eq_true_2 by by eexists].
        apply datagram_payload_fits; try done; try (by intros q [= <-]).
      + split; [| by rewrite bool_decide_eq_false_2 by by intros [? ?]].
        apply datagram_payload_fits; try done.
    - destruct (reliable_tx s) as [t |] eqn:Etx; [| done].
      destruct (rtx_queue data end_ now t) as [t' [seq | |]] eqn:Eq; [| done..]. injection Hs as _ <-.
      apply rtx_queue_seq in Eq as ->. split; [| done]. apply data_payload_fits; try done. by apply Hr2. }
  destruct Hp as [Hp Hx]. destruct (frame_of_fits pa _ _ Hp) as (c & w & Hf & Hc).
  destruct (frame_of_decode _ _ _ _ _ (proj1 Hp) Hf) as [Hd _]. exists c, w.
  split; [done |]. split.
  { unfold frame_of in Hf. apply bind_Ok in Hf as (c' & _ & Hf). apply bind_Ok in Hf as (w' & Hw & Hf%Ok_inj).
    injection Hf as -> ->. destruct (encode_with_Ok (H := handwritten_codec) _ _ _ _ (proj1 Hp) Hw) as (plan & Hfr & _ & ->).
    apply (len_plan_frame (frame_ctx pa c)), Hfr. }
  split.
  { destruct Hc as (n & _ & _ & Hc). destruct p; try done; destruct (Hc _ eq_refl) as [Hv _];
      destruct (sp_variable (profile s)) eqn:Ev;
      try (rewrite class_violates_variable in Hv by done; lia);
      apply (class_violates_fixed _ _ Ev) in Hv as ->; lia. }
  split; [by destruct Hm as (-> & _) |].
  apply (fits_accepted s); try done. by destruct p.
Qed.

Definition sample_profile : StreamProfile := reliable_variable Ctrl64 Bidirectional.
Definition sample_stream (opened : bool) (local_credit peer_credit : Z) : GtsStream :=
  match stream_new 2 sample_profile opened local_credit peer_credit with
  | Ok s => s
  | _ => mkStream 0 sample_profile Closed opened None None 0 None [] true true
  end.

Lemma gts_sent_is_accepted_witness :
  let s := sample_stream true 4 4 in
  ∃ c w, frame_of (mkPath 0x10002 0x10003) sample_profile (Data 7 2 0 [1; 2; 3] false) = Ok (c, w) ∧
    len w = sc_bytes c ∧ sc_index c ≤ sc_index (sp_size_class sample_profile) ∧
    decode_packet w (frame_ctx (mkPath 0x10002 0x10003) c) (Some sample_profile) = Ok (Data 7 2 0 [1; 2; 3] false) ∧
    validate_incoming (sample_stream false 4 4) c (Data 7 2 0 [1; 2; 3] false) = Ok tt.
Proof.
  apply (gts_sent_is_accepted (mkPath 0x10002 0x10003) (sample_stream true 4 4) (sample_stream false 4 4) 7
    [1; 2; 3] false 100 (send_packet 7 [1; 2; 3] false 100 (sample_stream true 4 4)).1).
  - split; [reflexivity | vm_compute; by split].
  - split; [vm_compute; by split |]. intros t [= <-]. vm_compute. by split.
  - ulia.
  - repeat constructor; ulia.
  - reflexivity.
  - done.
  - reflexivity.
  - reflexivity.
Defined.

(** ** Stream identifiers *)

(** A tunnel's life, with the identifiers it has allocated. *)
Inductive tunnel_reachable : GtsTunnel → list Z → Prop :=
  | tr_initiator lr lx c p k t : tunnel_initiator lr lx c p k = Ok t → tunnel_reachable t []
  | tr_responder lr lx rr rx c p k q t : tunnel_responder lr lx rr rx c p k q = Ok t → tunnel_reachable t []
  | tr_establish t ids rr rx k : tunnel_reachable t ids → tunnel_reachable (establish_initiator rr rx k t).1 ids
  | tr_add t ids sid p o k q : tunnel_reachable t ids → tunnel_reachable (add_stream sid p o k q t).1 ids
  | tr_stream t ids sid A (m : st GtsStream A) : tunnel_reachable t ids → tunnel_reachable (on_stream sid m t).1 ids
  | tr_reset t ids : tunnel_reachable t ids → tunnel_reachable (tunnel_reset t) ids
  | tr_alloc t ids t' r : tunnel_reachable t ids → alloc_stream_id t = (t', r) →
      tunnel_reachable t' (ids ++ match r with Ok i => [i] | _ => [] end).

Definition first_id (r : TunnelRole) : Z := match r with Initiator => 2 | Responder => 1 end.

(** The identifiers are consecutive of one parity. *)
Definition ids_inv (t : GtsTunnel) (ids : list Z) : Prop :=
  ids = (λ i : nat, first_id (role t) + 2 * Z.of_nat i) <$> seq 0 (length ids) ∧
  next_stream_id t = first_id (role t) + 2 * len ids ∧ next_stream_id t ≤ 255.

Lemma alloc_eq t :
  alloc_stream_id t =
  if negb (bool_decide (tstate t = Established)) then (t, Err InvalidState)
  else if 253 <? next_stream_id t then (t, Err BufferFull)
  else (with_streams t (streams t) (wrapping_add 8 (next_stream_id t) 2), Ok (next_stream_id t)).
Proof.
  unfold alloc_stream_id, mbind, st_bind, gets, guard_st, lift, modify, mret, st_ret, Datatypes.id.
  destruct (negb _); cbn; [done |]. by destruct (253 <? _).
Qed.

Lemma same_ids t t' ids : role t' = role t → next_stream_id t' = next_stream_id t → ids_inv t ids → ids_inv t' ids.
Proof. intros Hr Hn. unfold ids_inv. by rewrite Hr, Hn. Qed.

Lemma alloc_ids t ids t' r :
  ids_inv t ids → alloc_stream_id t = (t', r) → ids_inv t' (ids ++ match r with Ok i => [i] | _ => [] end).
Proof.
  intros (Hi & Hn & Hm) H. rewrite alloc_eq in H.
  destruct (negb _); [injection H as <- <-; by rewrite app_nil_r |].
  destruct (Z.ltb_spec 253 (next_stream_id t)); injection H as <- <-; [by rewrite app_nil_r |].
  assert (0 ≤ next_stream_id t) by (pose proof (len_nonneg ids); destruct (role t); cbn in Hn; lia).
  assert (Hw : wrapping_add 8 (next_stream_id t) 2 = next_stream_id t + 2).
  { unfold wrapping_add. apply Z.mod_small. change (2 ^ 8) with 256. lia. }
  unfold ids_inv. cbn [role with_streams next_stream_id]. rewrite Hw, len_snoc. split_and!; [| lia..].
  rewrite length_app. cbn [length]. rewrite Nat.add_1_r, seq_S, fmap_app, <- Hi. cbn. by rewrite Hn.
Qed.

Lemma tunnel_ids_inv t ids : tunnel_reachable t ids → ids_inv t ids.
Proof.
  induction 1 as [lr lx c p k t H | lr lx rr rx c p k q t H | t ids rr rx k Ht IH | t ids sid p o k q Ht IH
    | t ids sid A m Ht IH | t ids Ht IH | t ids t' r Ht IH H].
  - apply bind_Ok in H as (s & _ & <-%Ok_inj). done.
  - apply bind_Ok in H as (s & _ & <-%Ok_inj). done.
  - eapply same_ids; [| | exact IH]; unfold establish_initiator, mbind, st_bind, gets, guard_st, lift, modify, Datatypes.id;
      (destruct (negb _); cbn; [done |]; by destruct (streams t !! 0)).
  - eapply same_ids; [| | exact IH]; unfold add_stream, mbind, st_bind, gets, guard_st, lift, modify, Datatypes.id;
      (destruct (negb _ || _); cbn; [done |]; by destruct (stream_new _ _ _ _ _)).
  - eapply same_ids; [| | exact IH]; unfold on_stream; (destruct (streams t !! sid); [| done]; by destruct (m _)).
  - by eapply same_ids.
  - by eapply alloc_ids.
Qed.

Lemma elem_of_ids t ids i : ids_inv t ids → i ∈ ids →
  ∃ j : nat, i = first_id (role t) + 2 * Z.of_nat j ∧ (j < length ids)%nat.
Proof.
  intros (Hi & _) Hin. rewrite Hi in Hin. apply list_elem_of_fmap in Hin as (j & -> & Hj%elem_of_seq).
  exists j. split; [done | lia].
Qed.

(** Stream identifiers: over any life of a tunnel the allocated
    identifiers are distinct, at most 253, even at the initiator and odd at
    the responder, so that the two ends of a tunnel never allocate the same
    one; an established tunnel refuses only when its half of the space is used
    up. *)
Theorem tunnel_stream_ids t ids :
  tunnel_reachable t ids →
  NoDup ids ∧
  (∀ i, i ∈ ids → 0 < i ≤ 253 ∧ Z.even i = match role t with Initiator => true | Responder => false end) ∧
  (∀ u ids', tunnel_reachable u ids' → role u ≠ role t → ∀ i, i ∈ ids → i ∉ ids') ∧
  (tstate t = Established →
     match (alloc_stream_id t).2 with
     | Ok i => i ∉ ids
     | Err e => e = BufferFull ∧ length ids = match role t with Initiator => 126 | Responder => 127 end%nat
     | Panic => False
     end).
Proof.
  intros H%tunnel_ids_inv. pose proof H as (Hi & Hn & Hm).
  assert (Hpar : ∀ u l i, ids_inv u l → i ∈ l →
    0 < i ≤ 253 ∧ Z.even i = match role u with Initiator => true | Responder => false end).
  { intros u l i Hu Hin. destruct (elem_of_ids u l i Hu Hin) as (j & -> & Hj). destruct Hu as (_ & Hnu & Hmu).
    unfold len in Hnu. split; [destruct (role u); cbn in *; lia |].
    rewrite Z.even_add_mul_2. by destruct (role u). }
  split_and!.
  - rewrite Hi. apply NoDup_fmap_2; [| apply NoDup_seq]. intros a b E. lia.
  - intros i Hin. by apply (Hpar t ids).
  - intros u l Hu%tunnel_ids_inv Hne i Hin Hin'. destruct (Hpar t ids i H Hin) as [_ E1].
    destruct (Hpar u l i Hu Hin') as [_ E2]. rewrite E1 in E2. by destruct (role t), (role u).
  - intros Hs. rewrite alloc_eq, bool_decide_eq_true_2 by done. cbn [negb].
    destruct (Z.ltb_spec 253 (next_stream_id t)); cbn.
    + split; [done |]. unfold len in Hn. destruct (role t); cbn in Hn; lia.
    + intros Hin. destruct (elem_of_ids t ids _ H Hin) as (j & E & Hj). unfold len in Hn. lia.
Qed.

Definition sample_tunnel : GtsTunnel :=
  match tunnel_responder 1 2 3 4 (mkSelector (replicate 16 9)) sample_profile 4 4 with
  | Ok t => t
  | _ => mkTunnel Responder TunnelClosed 0 None 0 None (mkSelector []) ∅ 1
  end.

Lemma tunnel_stream_ids_witness :
  ∃ t, tunnel_reachable t [1; 3] ∧ NoDup [1; 3] ∧
    (∀ i, i ∈ [1; 3] → 0 < i ≤ 253 ∧ Z.even i = match role t with Initiator => true | Responder => false end) ∧
    (∀ u ids', tunnel_reachable u ids' → role u ≠ role t → ∀ i, i ∈ [1; 3] → i ∉ ids') ∧
    (tstate t = Established →
     match (alloc_stream_id t).2 with
     | Ok i => i ∉ [1; 3]
     | Err e => e = BufferFull ∧ length [1; 3] = match role t with Initiator => 126 | Responder => 127 end%nat
     | Panic => False
     end).
Proof.
  set (t1 := (alloc_stream_id sample_tunnel).1). set (t := (alloc_stream_id t1).1).
  assert (Ht : tunnel_reachable t [1; 3]).
  { apply (tr_alloc t1 [1] t (Ok 3)); [| reflexivity]. apply (tr_alloc sample_tunnel [] t1 (Ok 1)); [| reflexivity].
    by apply (tr_responder 1 2 3 4 (mkSelector (replicate 16 9)) sample_profile 4 4). }
  exists t. split; [exact Ht |]. apply (tunnel_stream_ids t [1; 3] Ht).
Defined.
