(* ===== verification/GtsStreamSystem.v ===== *)
(** * Two ends of a reliable stream

    A sending stream and a receiving one joined by a network that may lose,
    duplicate and reorder frames: it remembers every frame ever sent and
    delivers any of them at any time. *)
From stdpp Require Import prelude gmap.
From Stdlib Require Import ZArith Lia.
From S2P Require Import Prelude BTree GdpWire GtsWire GtsCodec GtsCodecSound Reliable GtsStream.
Local Open Scope Z_scope.

Section net.
Context (tid : Z) (pa : path) (Htid : u32 tid).

Definition frame : Set := SizeClass * list Z.

(** What an end does with a frame: decode, validate, then receive or
    acknowledge. *)
Definition take_frame (f : frame) : st GtsStream (option GtsPacket) :=
  s ← gets Datatypes.id;
  g ← lift (decode_packet f.2 (frame_ctx pa f.1) (Some (profile s)));
  lift (validate_incoming s f.1 g);;
  match g with
  | Ack _ _ base bm c => on_ack base bm c;; mret None
  | _ => receive_packet g
  end.

Record world : Set := mkWorld {
  snd_end : GtsStream;
  rcv_end : GtsStream;
  frames : list frame;
  acks : list frame;
  sent : list msg;
  got : list (list Z) }.

Inductive action : Set :=
  | WSend (data : list Z) (end_ : bool) (now : Z)   (* the application sends *)
  | WTick (now : Z)                                 (* retransmission timers *)
  | WData (i : nat)                                 (* frame [i] reaches the receiver *)
  | WAck (i : nat)                                  (* acknowledgement [i] reaches the sender *)
  | WRecv.                                          (* the application consumes a message *)

Definition emit (prof : StreamProfile) (p : GtsPacket) : list frame :=
  match frame_of pa prof p with Ok f => [f] | _ => [] end.
Definition emit_opt (prof : StreamProfile) (o : option GtsPacket) : list frame :=
  match o with Some p => emit prof p | None => [] end.

Definition act (a : action) (w : world) : world :=
  match a with
  | WSend data end_ now =>
      let '(s, r) := send_packet tid data end_ now (snd_end w) in
      match r with
      | Ok p => mkWorld s (rcv_end w) (frames w ++ emit (profile s) p) (acks w) (sent w ++ [(data, end_)]) (got w)
      | _ => mkWorld s (rcv_end w) (frames w) (acks w) (sent w) (got w)
      end
  | WTick now =>
      let '(s, out) := retransmit_due tid now (snd_end w) in
      mkWorld s (rcv_end w) (frames w ++ concat (emit (profile s) <$> out)) (acks w) (sent w) (got w)
  | WData i =>
      match frames w !! i with
      | None => w
      | Some f =>
          let '(r, o) := take_frame f (rcv_end w) in
          mkWorld (snd_end w) r (frames w)
            (acks w ++ match o with Ok a => emit_opt (profile r) a | _ => [] end) (sent w) (got w)
      end
  | WAck i =>
      match acks w !! i with
      | None => w
      | Some f => let '(s, _) := take_frame f (snd_end w) in mkWorld s (rcv_end w) (frames w) (acks w) (sent w) (got w)
      end
  | WRecv =>
      let '(r, o) := recv (rcv_end w) in
      match o with
      | Ok (Some v) => mkWorld (snd_end w) r (frames w)
          (acks w ++ emit_opt (profile r) (receive_credit_ack tid r)) (sent w) (got w ++ [v])
      | _ => mkWorld (snd_end w) r (frames w) (acks w) (sent w) (got w)
      end
  end.

(** Application data are octets, and fewer than [2^32] messages are sent. *)
Definition action_ok (a : action) (w : world) : Prop :=
  match a with WSend data _ _ => bytes data ∧ len (sent w) < 2 ^ 32 - 1 | _ => True end.

Inductive reachable : world → Prop :=
  | w_init sid prof o lc pc lc' pc' s r :
      u8 sid → u8 pc → sp_unreliable prof = false →
      stream_new sid prof o lc pc = Ok s → stream_new sid prof (negb o) lc' pc' = Ok r →
      local_may_send s o = true →
      reachable (mkWorld s r [] [] [] [])
  | w_step a w : reachable w → action_ok a w → reachable (act a w).

(** ** Invariant *)

Record joined (w : world) : Prop := {
  jn_mirrors : mirrors (snd_end w) (rcv_end w);
  jn_stream : stream_ok (snd_end w);
  jn_reliable : sp_unreliable (profile (snd_end w)) = false;
  jn_may : local_may_send (snd_end w) (opened_by_local (snd_end w)) = true;
  jn_open : state (snd_end w) = Open ∧ state (rcv_end w) = Open }.

Definition frame_ok (w : world) (f : frame) : Prop :=
  ∃ seq data end_, at_seq (sent w) seq (data, end_) ∧
    wf_packet (Data tid (id (snd_end w)) seq data end_) ∧
    frame_of pa (profile (snd_end w)) (Data tid (id (snd_end w)) seq data end_) = Ok f.
Definition ack_frame_ok (w : world) (rx : ReliableRx) (f : frame) : Prop :=
  ∃ base bm c, ack_ok rx (base, bm, c) ∧ wf_packet (Ack tid (id (snd_end w)) base bm c) ∧
    frame_of pa (profile (snd_end w)) (Ack tid (id (snd_end w)) base bm c) = Ok f.

Record winv (w : world) (tx : ReliableTx) (rx : ReliableRx) : Prop := {
  wi_joined : joined w;
  wi_tx : reliable_tx (snd_end w) = Some tx;
  wi_rx : reliable_rx (rcv_end w) = Some rx;
  wi_txinv : tx_inv (sent w) tx;
  wi_rxinv : rx_inv (sent w) (got w) rx;
  wi_len : len (sent w) < 2 ^ 32;
  wi_msgs : ∀ k m, at_seq (sent w) k m →
    payload_fits (profile (snd_end w)) (Data tid (id (snd_end w)) k m.1 m.2);
  wi_frames : Forall (frame_ok w) (frames w);
  wi_acks : Forall (ack_frame_ok w rx) (acks w);
  wi_kept : ∀ k, 0 ≤ k < len (sent w) → is_Some (outstanding tx !! k) ∨ received rx k }.

(** ** Steps *)

Lemma emit_fits prof p : payload_fits prof p → ∃ f, emit prof p = [f] ∧ frame_of pa prof p = Ok f.
Proof.
  intros Hp. destruct (frame_of_fits pa _ _ Hp) as (c & x & Hf & _). exists (c, x). split; [| done].
  unfold emit. by rewrite Hf.
Qed.

Lemma mirror_finished r : state r = Open → finished r = false.
Proof. unfold finished. by intros ->. Qed.

(** A data frame at the receiving end. *)
Lemma take_data w f seq data end_ rx :
  joined w → reliable_rx (rcv_end w) = Some rx →
  wf_packet (Data tid (id (snd_end w)) seq data end_) →
  frame_of pa (profile (snd_end w)) (Data tid (id (snd_end w)) seq data end_) = Ok f →
  take_frame f (rcv_end w) =
  let r := rcv_end w in
  if remote_ended r then (r, Err ProfileViolation)
  else match rrx_receive seq data rx with
  | (rx', Ok _) =>
      let r := with_rx r (Some rx') in
      (if end_ then with_ended r (local_ended r) true else r, Ok (ack_packet tid (id r) (rrx_ack rx')))
  | (rx', Err e) => (with_rx r (Some rx'), Err e)
  | (rx', Panic) => (with_rx r (Some rx'), Panic)
  end.
Proof.
  intros [Hm Hs Hr Hmay [Hos Hor]] Hrx Hwf Hf. destruct f as [c x].
  destruct (frame_of_decode _ _ _ _ _ Hwf Hf) as [Hd Hfit]. pose proof (remote_mirror _ _ Hm) as Hrem.
  pose proof Hm as (Hp & Hi & Ho). pose proof (mirror_finished _ Hor) as Hfin. cbv zeta.
  unfold take_frame, mbind, st_bind, gets, lift, Datatypes.id. cbn [fst snd]. rewrite Hp, Hd.
  destruct (remote_ended (rcv_end w)) eqn:He.
  - unfold validate_incoming. rewrite Hfin, He, Hp, Hr. done.
  - rewrite (fits_accepted (snd_end w) (rcv_end w) _ c) by done.
    unfold receive_packet, on_rx, mbind, st_bind, gets, guard_st, lift, modify, mret, st_ret, Datatypes.id.
    rewrite Hfin, Hrem, Hmay, Hp, Hr, He, Hi, Z.eqb_refl. cbn [negb orb fail_if].
    rewrite Hrx. destruct (rrx_receive seq data rx) as [rx' [b | |]]; [| done..].
    destruct end_; cbn; by rewrite Hi.
Qed.

(** An acknowledgement at the sending end. *)
Lemma take_ack w f base bm c tx :
  joined w → reliable_tx (snd_end w) = Some tx →
  wf_packet (Ack tid (id (snd_end w)) base bm c) →
  frame_of pa (profile (snd_end w)) (Ack tid (id (snd_end w)) base bm c) = Ok f →
  take_frame f (snd_end w) = (with_tx (snd_end w) (Some (rtx_on_ack base bm c tx)), Ok None).
Proof.
  intros [Hm Hs Hr Hmay [Hos Hor]] Htx Hwf Hf. destruct f as [k x].
  destruct (frame_of_decode _ _ _ _ _ Hwf Hf) as [Hd _]. pose proof (mirror_finished _ Hos) as Hfin.
  unfold take_frame, mbind, st_bind, gets, lift, Datatypes.id. cbn [fst snd]. rewrite Hd.
  unfold validate_incoming. rewrite Hfin, Hr. cbn [fail_if mbind res_bind].
  unfold on_ack, mbind, st_bind, gets, guard_st, lift, modify, mret, st_ret, Datatypes.id.
  rewrite Hos, Hr, Htx. done.
Qed.

Lemma ack_emitted w rx a :
  joined w → a = ack_packet tid (id (snd_end w)) (rrx_ack rx) →
  (∀ x, rrx_ack rx = Some x → ack_ok rx x) →
  Forall (ack_frame_ok w rx) (emit_opt (profile (snd_end w)) a).
Proof.
  intros Hj -> Hok. unfold ack_packet. destruct (rrx_ack rx) as [[[base bm] c] |] eqn:Ea; [| constructor].
  cbn. unfold emit. destruct (frame_of _ _ _) as [f | |] eqn:Ef; [| constructor..].
  constructor; [| constructor]. exists base, bm, c. split; [by apply Hok |]. split; [| done].
  destruct (jn_stream w Hj). destruct (Hok _ eq_refl) as [Hc _].
  destruct (ack_range _ _ _ _ Ea). by split_and!.
Qed.

(** *** The sending end *)

Lemma joined_snd w s f a x g :
  joined w → mirrors s (rcv_end w) → profile s = profile (snd_end w) → id s = id (snd_end w) →
  opened_by_local s = opened_by_local (snd_end w) → state s = state (snd_end w) →
  joined (mkWorld s (rcv_end w) f a x g).
Proof.
  intros [Hm [Hs1 Hs2] Hr Hmay Ho] Hm' Hp Hi Hol Hst.
  split; cbn; unfold local_may_send in *; rewrite ?Hp, ?Hol, ?Hst; try done. split; by rewrite ?Hp, ?Hi.
Qed.

Lemma frames_more w w' :
  (∀ k m, at_seq (sent w) k m → at_seq (sent w') k m) → id (snd_end w') = id (snd_end w) →
  profile (snd_end w') = profile (snd_end w) → Forall (frame_ok w) (frames w) → Forall (frame_ok w') (frames w).
Proof.
  intros Hs Hi Hp H. eapply Forall_impl; [exact H |]. intros f (seq & data & e & Hat & Hwf & Hf).
  exists seq, data, e. rewrite Hi, Hp. split; [by apply Hs | done].
Qed.

Lemma acks_more w w' rx rx' l :
  (∀ k, received rx k → received rx' k) → id (snd_end w') = id (snd_end w) →
  profile (snd_end w') = profile (snd_end w) → Forall (ack_frame_ok w rx) l → Forall (ack_frame_ok w' rx') l.
Proof.
  intros Hs Hi Hp H. eapply Forall_impl; [exact H |]. intros f (base & bm & c & Hok & Hwf & Hf).
  exists base, bm, c. rewrite Hi, Hp. split; [by eapply ack_ok_mono | done].
Qed.

Lemma send_inv w tx rx data end_ now :
  winv w tx rx → action_ok (WSend data end_ now) w →
  ∃ tx', winv (act (WSend data end_ now) w) tx' rx.
Proof.
  intros [Hj Htx Hrx Hti Hri Hlen Hmsg Hfr Hack Hkept] [Hb Hlt]. cbn [act]. rewrite send_packet_eq.
  pose proof Hj as [Hm Hs Hr Hmay [Hos Hor]]. pose proof Hm as (Hp & Hi & Ho).
  assert (Hsame : winv (mkWorld (snd_end w) (rcv_end w) (frames w) (acks w) (sent w) (got w)) tx rx) by by destruct w.
  destruct (negb _ || _); [by exists tx |]. rewrite Hmay. cbn [negb].
  destruct (validate_send_len _ _ _) as [[] | |] eqn:Hl; [| by exists tx..].
  rewrite Hr, Htx. destruct (rtx_queue data end_ now tx) as [tx' r] eqn:Eq.
  pose proof (rtx_queue_ok (sent w) tx data end_ now tx' r Hti Hlt Eq) as Hq.
  destruct r as [seq | e |]; [| | done].
  2: { destruct Hq as (-> & -> & _). exists tx. replace (with_tx (snd_end w) (Some tx)) with (snd_end w); [done |].
       destruct (snd_end w); cbn in *; by subst. }
  destruct Hq as (-> & _ & Hti' & Hout & _). exists tx'.
  set (s' := if end_ then _ else _).
  assert (Hs' : profile s' = profile (snd_end w) ∧ id s' = id (snd_end w) ∧ opened_by_local s' = opened_by_local (snd_end w)
    ∧ state s' = state (snd_end w) ∧ reliable_tx s' = Some tx') by (subst s'; by destruct end_).
  destruct Hs' as (E1 & E2 & E3 & E4 & E5). rewrite E1.
  assert (Hfits : payload_fits (profile (snd_end w)) (Data tid (id (snd_end w)) (len (sent w)) data end_)).
  { apply data_payload_fits; try done. pose proof (len_nonneg (sent w)). unfold u32. lia. }
  destruct (emit_fits _ _ Hfits) as (f & -> & Hf).
  split; cbn [snd_end rcv_end frames acks sent got]; [| exact E5 | exact Hrx | exact Hti' | | | | | |].
  - apply joined_snd; try done. split_and!; by rewrite ?E1, ?E2, ?E3.
  - by apply rx_inv_app.
  - rewrite len_snoc. lia.
  - intros k m [Hk Hat]. rewrite E1, E2. destruct (decide (k < len (sent w))).
    + apply Hmsg. split; [done |]. rewrite lookup_app_l in Hat by (unfold len in *; lia). done.
    + pose proof (lookup_lt_Some _ _ _ Hat) as Hlt'. rewrite length_app in Hlt'. cbn in Hlt'. unfold len in *.
      assert (k = Z.of_nat (length (sent w))) as -> by lia. rewrite Nat2Z.id, list_lookup_middle in Hat by done.
      by injection Hat as <-.
  - apply Forall_app. split.
    + eapply (frames_more w); cbn; try done. intros. by apply at_seq_app.
    + constructor; [| constructor]. exists (len (sent w)), data, end_. cbn. rewrite E1, E2.
      split; [apply at_seq_last |]. split; [apply Hfits | done].
  - by eapply (acks_more w).
  - intros k Hk. rewrite len_snoc in Hk. rewrite Hout. destruct (decide (k = len (sent w))) as [-> |].
    + left. rewrite lookup_insert_eq. by eexists.
    + rewrite lookup_insert_ne by done. apply Hkept. lia.
Qed.

Lemma tick_inv w tx rx now : winv w tx rx → ∃ tx', winv (act (WTick now) w) tx' rx.
Proof.
  intros [Hj Htx Hrx Hti Hri Hlen Hmsg Hfr Hack Hkept]. cbn [act]. unfold retransmit_due. rewrite Htx.
  pose proof (rtx_due_ok (sent w) tx now Hti) as Hd. destruct (rtx_due now tx) as [tx' out].
  destruct Hd as (Hti' & Hdom & Hout & _). exists tx'. pose proof Hj as [Hm Hs Hr Hmay [Hos Hor]].
  split; cbn [snd_end rcv_end frames acks sent got];
    [| done | exact Hrx | exact Hti' | exact Hri | exact Hlen | exact Hmsg | | |].
  - by apply joined_snd.
  - apply Forall_app. split; [by eapply (frames_more w) |]. apply Forall_concat, Forall_fmap, Forall_fmap, Forall_forall.
    intros [[seq data] e] Hin. apply Hout in Hin. pose proof (Hmsg _ _ Hin) as Hfits. cbn [fst snd] in Hfits.
    destruct (emit_fits _ _ Hfits) as (f & Hem & Hf). cbn. rewrite Hem. constructor; [| constructor].
    exists seq, data, e. split; [done |]. split; [apply Hfits | done].
  - by eapply (acks_more w).
  - intros k Hk. destruct (Hkept k Hk) as [Hin | ?]; [left | by right].
    apply elem_of_dom. rewrite Hdom. by apply elem_of_dom.
Qed.

(** *** The receiving end *)

Lemma joined_rcv w r f a x g :
  joined w → profile r = profile (rcv_end w) → id r = id (rcv_end w) →
  opened_by_local r = opened_by_local (rcv_end w) → state r = state (rcv_end w) →
  joined (mkWorld (snd_end w) r f a x g).
Proof.
  intros [(Hm1 & Hm2 & Hm3) Hs Hr Hmay Ho] Hp Hi Hol Hst.
  split; cbn; rewrite ?Hst; try done. by split_and!; rewrite ?Hp, ?Hi, ?Hol.
Qed.

(** A change of the receiving end that acknowledges what it holds. *)
Lemma rcv_inv w tx rx r rx' o g :
  winv w tx rx → profile r = profile (rcv_end w) → id r = id (rcv_end w) →
  opened_by_local r = opened_by_local (rcv_end w) → state r = state (rcv_end w) →
  reliable_rx r = Some rx' → rx_inv (sent w) g rx' → (∀ k, received rx k → received rx' k) →
  o = None ∨ o = ack_packet tid (id (snd_end w)) (rrx_ack rx') →
  winv (mkWorld (snd_end w) r (frames w) (acks w ++ emit_opt (profile r) o) (sent w) g) tx rx'.
Proof.
  intros [Hj Htx Hrx Hti Hri Hlen Hmsg Hfr Hack Hkept] Hp Hi Hol Hst Hr Hri' Hmono Ho.
  pose proof (jn_mirrors _ Hj) as (Hmp & Hmi & _).
  split; cbn [snd_end rcv_end frames acks sent got];
    [by apply joined_rcv | done | done | done | done | exact Hlen | done | done | |].
  - apply Forall_app. split; [by eapply (acks_more w) |].
    destruct Ho as [-> | Ho]; [constructor |]. rewrite Hp, Hmp.
    assert (Hall : Forall (ack_frame_ok w rx') (emit_opt (profile (snd_end w)) o)); [| by eapply (acks_more w _ rx'); [| | | exact Hall]].
    apply ack_emitted; try done. intros x Hx. by eapply rrx_ack_ok.
  - intros k Hk. destruct (Hkept k Hk); [by left | right; by apply Hmono].
Qed.

Lemma data_inv w tx rx i : winv w tx rx → ∃ rx', winv (act (WData i) w) tx rx'.
Proof.
  intros Hw. pose proof Hw as [Hj Htx Hrx Hti Hri Hlen Hmsg Hfr Hack Hkept]. cbn [act].
  destruct (frames w !! i) as [f |] eqn:Ef; [| by exists rx].
  destruct (proj1 (Forall_lookup _ _) Hfr _ _ Ef) as (seq & data & e & Hat & Hwf & Hf).
  rewrite (take_data w f seq data e rx) by done. cbv zeta.
  pose proof (jn_mirrors _ Hj) as (Hmp & Hmi & _).
  destruct (remote_ended (rcv_end w)).
  { exists rx. rewrite app_nil_r. by destruct w. }
  pose proof (rrx_receive_ok (sent w) (got w) rx seq data e Hri Hat Hlen) as Ho.
  destruct (rrx_receive seq data rx) as [rx' r]. destruct Ho as (Hri' & Hmono & _ & Hres).
  exists rx'. destruct r as [b | err |]; [| | done].
  - eapply (rcv_inv w tx rx); try done; try (by destruct e). right. by rewrite <- Hmi.
  - destruct Hres as (_ & -> & _). rewrite app_nil_r.
    replace (with_rx (rcv_end w) (Some rx)) with (rcv_end w); [by destruct w |].
    destruct (rcv_end w). cbn in *. by subst.
Qed.

Lemma ack_inv w tx rx i : winv w tx rx → ∃ tx', winv (act (WAck i) w) tx' rx.
Proof.
  intros Hw. pose proof Hw as [Hj Htx Hrx Hti Hri Hlen Hmsg Hfr Hack Hkept]. cbn [act].
  destruct (acks w !! i) as [f |] eqn:Ef; [| by exists tx].
  destruct (proj1 (Forall_lookup _ _) Hack _ _ Ef) as (base & bm & c & Hok & Hwf & Hf).
  rewrite (take_ack w f base bm c tx) by done. exists (rtx_on_ack base bm c tx).
  split; cbn [snd_end rcv_end frames acks sent got];
    [by apply joined_snd; try done; apply Hj | done | exact Hrx | | exact Hri | exact Hlen | exact Hmsg | | |].
  - apply rtx_on_ack_ok; [done | apply Hok].
  - by eapply (frames_more w).
  - by eapply (acks_more w).
  - intros k Hk. destruct (Hkept k Hk) as [[p Hp] | ?]; [| by right].
    destruct (rtx_on_ack_kept tx base bm c k p Hp) as [? | Ha]; [left; by eexists | right].
    apply (proj2 Hok); [lia | done].
Qed.

Lemma recv_eq s rx :
  sp_unreliable (profile s) = false → reliable_rx s = Some rx →
  recv s = (with_rx s (Some (rrx_recv rx).1), Ok (rrx_recv rx).2).
Proof.
  intros Hu Hr. unfold recv, on_rx, mbind, st_bind, gets, Datatypes.id. rewrite Hu, Hr.
  by destruct (rrx_recv rx).
Qed.

Lemma recv_inv w tx rx : winv w tx rx → ∃ rx', winv (act WRecv w) tx rx'.
Proof.
  intros Hw. pose proof Hw as [Hj Htx Hrx Hti Hri Hlen Hmsg Hfr Hack Hkept]. cbn [act].
  pose proof (jn_mirrors _ Hj) as (Hmp & Hmi & _). pose proof (jn_reliable _ Hj) as Hu. rewrite <- Hmp in Hu.
  rewrite (recv_eq _ rx) by done. pose proof (rrx_recv_ok (sent w) (got w) rx Hri) as Ho.
  destruct (rrx_recv rx) as [rx' o]. destruct Ho as (Hri' & Hmono & _). exists rx'. cbn [fst snd].
  destruct o as [v |].
  - eapply (rcv_inv w tx rx); try done. right. unfold receive_credit_ack. cbn [with_rx profile state reliable_rx id].
    rewrite Hu, (proj2 (jn_open _ Hj)). cbn. by rewrite <- Hmi.
  - rewrite app_nil_r in Hri'. pose proof (rcv_inv w tx rx (with_rx (rcv_end w) (Some rx')) rx' None (got w)) as H.
    cbn in H. rewrite app_nil_r in H. apply H; try done. by left.
Qed.

Lemma stream_new_ok sid prof o lc pc s :
  stream_new sid prof o lc pc = Ok s → sp_unreliable prof = false →
  sp_validate prof = Ok prof ∧ profile s = prof ∧ id s = sid ∧ opened_by_local s = o ∧ state s = Open ∧
  reliable_tx s = Some (rtx_new pc) ∧ reliable_rx s = Some (rrx_new (Z.max lc 1)).
Proof.
  intros H Hu. unfold stream_new in H. apply bind_Ok in H as (v & Hv & <-%Ok_inj). rewrite Hu.
  split_and!; try done. pose proof Hv as Hv'. unfold sp_validate in Hv'. apply bind_Ok in Hv' as (? & _ & <-%Ok_inj). done.
Qed.

Lemma world_reachable_inv w : reachable w → ∃ tx rx, winv w tx rx.
Proof.
  induction 1 as [sid prof o lc pc lc' pc' s r Hid Hpc Hu Hs Hr Hmay | a w Hw IH Ha].
  - destruct (stream_new_ok _ _ _ _ _ _ Hs Hu) as (Hv & S1 & S2 & S3 & S4 & S5 & _).
    destruct (stream_new_ok _ _ _ _ _ _ Hr Hu) as (_ & R1 & R2 & R3 & R4 & _ & R6).
    exists (rtx_new pc), (rrx_new (Z.max lc' 1)).
    split; cbn [snd_end rcv_end frames acks sent got]; [| done | done | | | done | | constructor | constructor |].
    + split; cbn; try done; [by split_and!; congruence | by split; rewrite ?S1, ?S2 | congruence | congruence].
    + split; cbn; [done | done |]. intros k p Hk. by rewrite lookup_empty in Hk.
    + split; cbn; [done | done | | change (0 ≤ Z.max lc' 1); lia | done]. intros k v Hk. by rewrite lookup_empty in Hk.
    + intros k m Hat. apply at_seq_bound in Hat. change (0 ≤ k < 0) in Hat. lia.
    + intros k Hk. change (0 ≤ k < 0) in Hk. lia.
  - destruct IH as (tx & rx & H). destruct a.
    + destruct (send_inv w tx rx _ _ _ H Ha) as [tx' ?]. by exists tx', rx.
    + destruct (tick_inv w tx rx now H) as [tx' ?]. by exists tx', rx.
    + destruct (data_inv w tx rx i H) as [rx' ?]. by exists tx, rx'.
    + destruct (ack_inv w tx rx i H) as [tx' ?]. by exists tx', rx.
    + destruct (recv_inv w tx rx H) as [rx' ?]. by exists tx, rx'.
Qed.

(** ** Theorems *)

(** C1: a reliable stream delivers in order, exactly once and unaltered: over
    a network that loses, duplicates and reorders frames, what the
    application has consumed and what waits for it is a prefix of the messages
    sent; every message of it that has not been received is still in the
    sender's retransmission queue, with its content; and the receiver never
    holds more messages than its capacity. *)
Theorem gts_stream_in_order w :
  reachable w →
  ∃ tx rx, reliable_tx (snd_end w) = Some tx ∧ reliable_rx (rcv_end w) = Some rx ∧
    got w ++ delivered rx = (take (Z.to_nat (next_expected rx)) (sent w)).*1 ∧
    (∀ k m, sent w !! k = Some m →
       (∃ p, outstanding tx !! Z.of_nat k = Some p ∧ m = (pe_data p, pe_end p)) ∨ received rx (Z.of_nat k)) ∧
    Z.of_nat (size (pending rx)) + len (delivered rx) ≤ capacity rx.
Proof.
  intros (tx & rx & H)%world_reachable_inv. exists tx, rx. destruct H as [Hj Htx Hrx Hti Hri Hlen Hmsg Hfr Hack Hkept].
  split; [done |]. split; [done |]. split; [apply Hri |]. split; [| apply Hri].
  intros k m Hk. pose proof (lookup_lt_Some _ _ _ Hk) as Hlt.
  destruct (Hkept (Z.of_nat k)) as [[p Hp] | ?]; [unfold len; lia | left | by right].
  exists p. split; [done |]. apply (ti_out _ _ Hti) in Hp as [_ Hp]. rewrite Nat2Z.id in Hp. congruence.
Qed.


(** *** What a premature end and a full window do *)

(** Everything that may happen from [w] on. *)
Inductive steps : world → world → Prop :=
  | steps_refl w : steps w w
  | steps_step w w' a : steps w w' → action_ok a w' → steps w (act a w').

Definition held (w : world) : list (list Z) :=
  got w ++ match reliable_rx (rcv_end w) with Some rx => delivered rx | None => [] end.

Lemma steps_reachable w w' : reachable w → steps w w' → reachable w'.
Proof. induction 2; [done |]. constructor; auto. Qed.

Lemma held_recv w tx rx : winv w tx rx → held (act WRecv w) = held w.
Proof.
  intros [Hj Htx Hrx _ _ _ _ _ _ _]. pose proof (jn_mirrors _ Hj) as (Hmp & _).
  pose proof (jn_reliable _ Hj) as Hu. rewrite <- Hmp in Hu.
  unfold act. rewrite (recv_eq _ rx) by done. unfold held, rrx_recv. rewrite Hrx.
  destruct (delivered rx) as [| v rest] eqn:E; cbn; [by rewrite E |]. by rewrite <- app_assoc.
Qed.

(** Sending, the timers and acknowledgements do not touch the receiving end. *)
Lemma act_rcv a w :
  match a with WData _ | WRecv => True | _ => rcv_end (act a w) = rcv_end w ∧ got (act a w) = got w end.
Proof.
  destruct a; try done; cbn.
  - destruct (send_packet _ _ _ _ _) as [s [| |]]; done.
  - by destruct (retransmit_due _ _ _).
  - destruct (acks w !! i); [| done]. by destruct (take_frame _ _).
Qed.

Lemma take_data_closed w tx rx i : winv w tx rx → remote_ended (rcv_end w) = true → act (WData i) w = w.
Proof.
  intros [Hj Htx Hrx Hti Hri Hlen Hmsg Hfr Hack Hkept] He. cbn [act].
  destruct (frames w !! i) as [f |] eqn:Ef; [| done].
  destruct (proj1 (Forall_lookup _ _) Hfr _ _ Ef) as (seq & data & e & Hat & Hwf & Hf).
  rewrite (take_data w f seq data e rx) by done. cbv zeta. rewrite He. rewrite app_nil_r. by destruct w.
Qed.

(** Once the receiving end has accepted any message marked as the last, no
    data frame changes it any more, and none is acknowledged. *)
Lemma end_closes w w' :
  reachable w → remote_ended (rcv_end w) = true → steps w w' →
  held w' = held w ∧ remote_ended (rcv_end w') = true.
Proof.
  intros Hr He. induction 1 as [w | w w' a Hs IH Ha]; [done |]. specialize (IH Hr He). destruct IH as [IH1 IH2].
  destruct (world_reachable_inv w' (steps_reachable _ _ Hr Hs)) as (tx & rx & Hw).
  pose proof (act_rcv a w') as Hrcv. destruct a.
  - destruct Hrcv as [E1 E2]. unfold held in *. by rewrite E1, E2.
  - destruct Hrcv as [E1 E2]. unfold held in *. by rewrite E1, E2.
  - by rewrite (take_data_closed w' tx rx).
  - destruct Hrcv as [E1 E2]. unfold held in *. by rewrite E1, E2.
  - rewrite (held_recv _ _ _ Hw). split; [done |]. unfold act.
    rewrite (recv_eq _ rx); [| | apply (wi_rx _ _ _ Hw)].
    + cbn. by destruct (rrx_recv rx).2.
    + destruct (wi_joined _ _ _ Hw) as [(Hmp & _) _ Hu _ _]. by rewrite Hmp.
Qed.

(** A receiver whose window is full of messages behind a hole. *)
Definition stuck (rx : ReliableRx) : Prop := delivered rx = [] ∧ capacity rx ≤ used rx.

Lemma stuck_receive rx seq data : stuck rx → (rrx_receive seq data rx).1 = rx.
Proof.
  intros [_ Hfull]. unfold rrx_receive, mbind, st_bind, gets, guard_st, lift, modify, Datatypes.id.
  replace (capacity rx <=? used rx) with true by lia.
  destruct (seq <? _); [done |]. destruct (seq =? _); [done |]. by rewrite orb_true_r.
Qed.

Lemma stuck_forever w w' rx :
  reachable w → reliable_rx (rcv_end w) = Some rx → stuck rx → steps w w' →
  reliable_rx (rcv_end w') = Some rx ∧ got w' = got w.
Proof.
  intros Hr Hrx Hst. induction 1 as [w | w w' a Hs IH Ha]; [done |]. specialize (IH Hr Hrx). destruct IH as [IH1 IH2].
  destruct (world_reachable_inv w' (steps_reachable _ _ Hr Hs)) as (tx & rx' & Hw).
  pose proof (wi_rx _ _ _ Hw) as E. rewrite IH1 in E. injection E as <-.
  pose proof (act_rcv a w') as Hrcv. destruct a; try (destruct Hrcv as [E1 E2]; by rewrite E1, E2).
  - pose proof Hw as [Hj Htx _ Hti Hri Hlen Hmsg Hfr Hack Hkept]. cbn [act].
    destruct (frames w' !! i) as [f |] eqn:Ef; [| done].
    destruct (proj1 (Forall_lookup _ _) Hfr _ _ Ef) as (seq & data & e & Hat & Hwf & Hf).
    rewrite (take_data w' f seq data e rx) by done. cbv zeta. destruct (remote_ended _); [done |].
    pose proof (stuck_receive rx seq data Hst) as Hsr. destruct (rrx_receive seq data rx) as [rx2 r].
    cbn in Hsr. subst rx2. destruct r; try done. by destruct e.
  - unfold act. rewrite (recv_eq _ rx); [| | done].
    + unfold rrx_recv. rewrite (proj1 Hst). cbn. done.
    + destruct (wi_joined _ _ _ Hw) as [(Hmp & _) _ Hu _ _]. by rewrite Hmp.
Qed.
End net.

(** ** Concrete runs *)

Definition sample_path : path := mkPath 0x10002 0x10003.
Definition start (capacity : Z) : world :=
  mkWorld (sample_stream true 4 capacity) (sample_stream false capacity 4) [] [] [] [].
Definition run (l : list action) (w : world) : world := foldl (λ w a, act 7 sample_path a w) w l.

Lemma start_reachable capacity : u8 capacity → reachable 7 sample_path (start capacity).
Proof. intros Hc. by apply (w_init 7 sample_path 2 sample_profile true 4 capacity capacity 4). Qed.

Lemma run_reachable l w :
  reachable 7 sample_path w → Forall (λ a, match a with WSend data _ _ => bytes data | _ => True end) l →
  len (sent w) + len l < 2 ^ 32 → reachable 7 sample_path (run l w).
Proof.
  revert w. induction l as [| a l IH]; intros w Hw Hl Hlen; [done |]. rewrite len_cons in Hlen.
  apply Forall_cons in Hl as [Ha Hl]. pose proof (len_nonneg l). pose proof (len_nonneg (sent w)).
  assert (Hok : action_ok a w) by (destruct a; try done; split; [done | lia]).
  apply IH; [by constructor | done |].
  assert (len (sent (act 7 sample_path a w)) ≤ len (sent w) + 1); [| lia].
  destruct a; cbn.
  - destruct (send_packet _ _ _ _ _) as [s [| |]]; cbn; rewrite ?len_snoc; lia.
  - destruct (retransmit_due _ _ _); cbn; lia.
  - destruct (frames w !! i); [destruct (take_frame _ _) as [? ?] |]; cbn; lia.
  - destruct (acks w !! i); [destruct (take_frame _ _) as [? ?] |]; cbn; lia.
  - destruct (recv _) as [? [[] | |]]; cbn; lia.
Qed.

Ltac trace_reachable :=
  apply run_reachable; [apply start_reachable; ulia | repeat constructor; ulia | by vm_compute].

Lemma gts_stream_in_order_witness :
  let w := run [WSend [1] false 0; WSend [2] false 0; WData 1; WData 0; WRecv] (start 4) in
  sent w = [([1], false); ([2], false)] ∧ got w = [[1]] ∧
  ∃ tx rx, reliable_tx (snd_end w) = Some tx ∧ reliable_rx (rcv_end w) = Some rx ∧
    got w ++ delivered rx = (take (Z.to_nat (next_expected rx)) (sent w)).*1 ∧
    (∀ k m, sent w !! k = Some m →
       (∃ p, outstanding tx !! Z.of_nat k = Some p ∧ m = (pe_data p, pe_end p)) ∨ received rx (Z.of_nat k)) ∧
    Z.of_nat (size (pending rx)) + len (delivered rx) ≤ capacity rx.
Proof.
  cbv zeta. split; [by vm_compute |]. split; [by vm_compute |].
  apply (gts_stream_in_order 7 sample_path); [ulia | trace_reachable].
Defined.


(** A message marked as the last closes the receiver when it arrives, not
    when its turn comes: after messages [1] and [2; end] are sent and the
    second overtakes the first, no retransmission, acknowledgement or timer
    ever lets the application see either of them. *)
Theorem gts_end_overtaking_loses :
  let w := run [WSend [1] false 0; WSend [2] true 0; WData 1] (start 4) in
  reachable 7 sample_path w ∧ sent w = [([1], false); ([2], true)] ∧
  ∀ w', steps 7 sample_path w w' → got w' = [].
Proof.
  cbv zeta. set (w := run _ _). assert (Hw : reachable 7 sample_path w) by trace_reachable.
  split; [done |]. split; [by vm_compute |]. intros w' Hs.
  destruct (end_closes 7 sample_path ltac:(ulia) w w' Hw ltac:(by vm_compute) Hs) as [H _].
  replace (held w) with (@nil (list Z)) in H by by vm_compute.
  unfold held in H. by apply app_eq_nil in H as [? _].
Qed.

(** Receive credit is no guarantee of capacity: two messages of credit
    are enough for a sender that obeys every acknowledgement to fill the
    receiver's window behind a lost message; the lost message is then refused
    for ever, and the application never gets past the first of the four
    messages sent. *)
Theorem gts_window_deadlock :
  let w := run [WSend [1] false 0; WSend [2] false 0; WData 0; WAck 0; WSend [3] false 0; WData 2; WAck 1;
                WRecv; WAck 2; WSend [4] false 0; WData 3] (start 2) in
  reachable 7 sample_path w ∧ (sent w).*1 = [[1]; [2]; [3]; [4]] ∧ got w = [[1]] ∧
  ∀ w', steps 7 sample_path w w' → got w' = [[1]].
Proof.
  cbv zeta. set (w := run _ _). assert (Hw : reachable 7 sample_path w) by trace_reachable.
  split; [done |]. split; [by vm_compute |]. split; [by vm_compute |]. intros w' Hs.
  set (rx := match reliable_rx (rcv_end w) with Some t => t | None => rrx_new 0 end).
  destruct (stuck_forever 7 sample_path ltac:(ulia) w w' rx Hw) as [_ ->].
  - vm_compute. reflexivity.
  - split; by vm_compute.
  - done.
  - by vm_compute.
Qed.
