(* ===== verification/Routing.v ===== *)
(** * The fixed-capacity routing table (src/src/routing.rs) *)
From stdpp Require Import prelude.
From stdpp Require countable.
From Stdlib Require Import ZArith Lia ZifyBool.
From S2P Require Import Prelude.
Local Open Scope Z_scope.

(** ** Prefixes *)

Record GdpPrefix : Set := mkPrefix { network : Z; prefix_len : Z }.
#[export] Instance GdpPrefix_eq_dec : EqDecision GdpPrefix.
Proof. solve_decision. Defined.
#[export] Instance GdpPrefix_countable : countable.Countable GdpPrefix :=
  countable.inj_countable' (λ p, (network p, prefix_len p)) (λ '(a, n), mkPrefix a n) ltac:(by intros []).

Definition route_prefix_mask (n : Z) : Z :=
  if n =? 0 then 0 else Z.shiftl 0xffffffffffffffff (64 - n) mod 2 ^ 64.

(** [PrefixLengthError] and [RouteTableFull] carry no data: [None]. *)
Definition prefix_new (address n : Z) : option GdpPrefix :=
  if 64 <? n then None
  else Some {| network := Z.land address (route_prefix_mask n); prefix_len := n |}.

Definition contains (self : GdpPrefix) (address : Z) : bool :=
  Z.land address (route_prefix_mask (prefix_len self)) =? network self.

Definition default_route : GdpPrefix := {| network := 0; prefix_len := 0 |}.

(** ** Routes *)

Record Route : Set := mkRoute {
  rt_prefix : GdpPrefix;
  via_router : Z;
  preferred_until : option Z;
  expires_at : option Z }.
#[export] Instance Route_eq_dec : EqDecision Route.
Proof. solve_decision. Defined.

Definition route_new (prefix : GdpPrefix) (via : Z) : Route :=
  {| rt_prefix := prefix; via_router := via; preferred_until := None; expires_at := None |}.
Definition route_new_default (via : Z) : Route := route_new default_route via.
Definition is_default (self : Route) : bool := prefix_len (rt_prefix self) =? 0.
Definition is_expired (self : Route) (now : Z) : bool :=
  match expires_at self with Some e => e <? now | None => false end.

(** ** The table: [routes] has one slot per unit of capacity *)

Record RouteTable : Set := mkTable { routes : list (option Route); table_len : Z }.

Definition table_new (N : nat) : RouteTable := {| routes := replicate N None; table_len := 0 |}.

(** Write [r] in the first free slot. *)
Fixpoint fill_first (r : Route) (slots : list (option Route)) : option (list (option Route)) :=
  match slots with
  | [] => None
  | None :: rest => Some (Some r :: rest)
  | Some q :: rest => cons (Some q) <$> fill_first r rest
  end.

(** [add]: the table and whether there was room. *)
Definition table_add (r : Route) (self : RouteTable) : RouteTable * option unit :=
  match fill_first r (routes self) with
  | Some slots => (mkTable slots (table_len self + 1), Some tt)
  | None => (self, None)
  end.

(** Clear the first slot that holds a route for [p]. *)
Fixpoint take_first (p : GdpPrefix) (slots : list (option Route)) : option (list (option Route) * Route) :=
  match slots with
  | [] => None
  | s :: rest =>
      let next := '(rest, r) ← take_first p rest; Some (s :: rest, r) in
      match s with
      | Some q => if bool_decide (rt_prefix q = p) then Some (None :: rest, q) else next
      | None => next
      end
  end.

Definition table_remove (p : GdpPrefix) (self : RouteTable) : RouteTable * option Route :=
  match take_first p (routes self) with
  | Some (slots, r) => (mkTable slots (table_len self - 1), Some r)
  | None => (self, None)
  end.

Definition remove_default_route (self : RouteTable) : RouteTable * option Route :=
  table_remove default_route self.

Definition add_default_route (via : Z) (self : RouteTable) : RouteTable * option (option Route) :=
  let '(self, old) := remove_default_route self in
  match table_add (route_new_default via) self with
  | (self, Some _) => (self, Some old)
  | (self, None) =>
      match old with
      | Some old => ((table_add old self).1, None)
      | None => (self, None)
      end
  end.

(** [self.routes.iter().flatten()] *)
Definition table_entries (self : RouteTable) : list Route := omap id (routes self).

Definition get_default_route (self : RouteTable) : option Route :=
  snd <$> list_find (λ r, is_default r = true) (table_entries self).

Definition lookup_step (destination now : Z) (best : option Route) (route : Route) : option Route :=
  if is_expired route now || negb (contains (rt_prefix route) destination) then best
  else match best with
  | None => Some route
  | Some current => if prefix_len (rt_prefix current) <? prefix_len (rt_prefix route) then Some route else best
  end.

Definition table_lookup (self : RouteTable) (destination now : Z) : option Z :=
  via_router <$> fold_left (lookup_step destination now) (table_entries self) None.

Definition min_step (a : option Z) (b : Z) : option Z :=
  Some (match a with Some a => Z.min a b | None => b end).
Definition next_expiry (self : RouteTable) : option Z :=
  fold_left min_step (omap expires_at (table_entries self)) None.

Definition slot_expired (now : Z) (s : option Route) : bool :=
  match s with Some r => is_expired r now | None => false end.
Definition prune_expired (now : Z) (self : RouteTable) : RouteTable * Z :=
  let removed := len (filter (λ s, slot_expired now s = true) (routes self)) in
  (mkTable ((λ s, if slot_expired now s then None else s) <$> routes self) (table_len self - removed), removed).

(** ** Prefixes as leading bits *)

Lemma route_prefix_mask_bit n i :
  0 ≤ n ≤ 64 → 0 ≤ i → Z.testbit (route_prefix_mask n) i = (64 - n <=? i) && (i <? 64).
Proof.
  intros Hn Hi. unfold route_prefix_mask. destruct (Z.eqb_spec n 0) as [-> |]; [rewrite Z.bits_0; lia |].
  change 0xffffffffffffffff with (Z.ones 64).
  destruct (Z.ltb_spec i 64); [| rewrite Z.mod_pow2_bits_high by lia; lia].
  rewrite Z.mod_pow2_bits_low, Z.shiftl_spec by lia.
  destruct (Z.leb_spec (64 - n) i); [rewrite Z.ones_spec_low by lia; lia |].
  rewrite Z.testbit_neg_r by lia. lia.
Qed.

(** Masking keeps the [n] leading bits. *)
Lemma land_route_mask a n :
  u64 a → 0 ≤ n ≤ 64 → Z.land a (route_prefix_mask n) = a / 2 ^ (64 - n) * 2 ^ (64 - n).
Proof.
  intros Ha Hn. rewrite <- Z.shiftr_div_pow2, <- Z.shiftl_mul_pow2 by lia.
  apply Z.bits_inj'. intros i Hi. rewrite Z.land_spec, route_prefix_mask_bit, Z.shiftl_spec by lia.
  destruct (Z.ltb_spec i (64 - n)).
  { rewrite (Z.testbit_neg_r _ (i - _)) by lia. replace (64 - n <=? i) with false by lia. apply andb_false_r. }
  rewrite Z.shiftr_spec by lia. replace (i - (64 - n) + (64 - n)) with i by lia.
  destruct (Z.ltb_spec i 64); [by replace (64 - n <=? i) with true by lia; rewrite andb_true_r |].
  rewrite andb_false_r, andb_false_r. symmetry. rewrite <- (Z.mod_small a (2 ^ 64)) by (unfold u64 in Ha; lia).
  by apply Z.mod_pow2_bits_high.
Qed.

(** Prefixes as the constructor makes them. *)
Definition wf_prefix (p : GdpPrefix) : Prop :=
  ∃ a n, u64 a ∧ 0 ≤ n ∧ prefix_new a n = Some p.

Lemma prefix_new_Some a n p : prefix_new a n = Some p →
  n ≤ 64 ∧ p = mkPrefix (Z.land a (route_prefix_mask n)) n.
Proof. unfold prefix_new. destruct (Z.ltb_spec 64 n); [done |]. by intros [= <-]. Qed.

Lemma contains_spec a n p d :
  u64 a → u64 d → 0 ≤ n → prefix_new a n = Some p →
  contains p d = (d / 2 ^ (64 - n) =? a / 2 ^ (64 - n)).
Proof.
  intros Ha Hd Hn (Hn' & ->)%prefix_new_Some. unfold contains. cbn [prefix_len network].
  rewrite !land_route_mask by (done || lia). assert (0 < 2 ^ (64 - n)) by (apply Z.pow_pos_nonneg; lia). nia.
Qed.

Lemma wf_prefix_zero p : wf_prefix p → prefix_len p = 0 → p = default_route.
Proof.
  intros (a & n & Ha & Hn & (_ & ->)%prefix_new_Some). cbn. intros ->. by rewrite Z.land_0_r.
Qed.

(** ** Longest-prefix match *)

(** A route the lookup considers. *)
Definition live (destination now : Z) (r : Route) : Prop :=
  is_expired r now = false ∧ contains (rt_prefix r) destination = true.
#[export] Instance live_dec d now r : Decision (live d now r).
Proof. unfold live. apply _. Defined.

(** [r] is the first of the longest live routes of [l]. *)
Definition best_route (d now : Z) (l : list Route) (r : Route) : Prop :=
  ∃ l1 l2, l = l1 ++ r :: l2 ∧ live d now r ∧
    Forall (λ q, live d now q → prefix_len (rt_prefix q) < prefix_len (rt_prefix r)) l1 ∧
    Forall (λ q, live d now q → prefix_len (rt_prefix q) ≤ prefix_len (rt_prefix r)) l2.

Lemma lookup_step_eq d now best r :
  lookup_step d now best r =
  if decide (live d now r) then
    match best with
    | Some c => if prefix_len (rt_prefix c) <? prefix_len (rt_prefix r) then Some r else Some c
    | None => Some r
    end
  else best.
Proof.
  unfold lookup_step. case_decide as Hl.
  - destruct Hl as [-> ->]. by destruct best.
  - destruct (is_expired r now) eqn:E1; [done |]. destruct (contains (rt_prefix r) d) eqn:E2; [| done].
    by destruct Hl.
Qed.

Lemma lookup_fold d now l :
  match fold_left (lookup_step d now) l None with
  | Some r => best_route d now l r
  | None => Forall (λ q, ¬ live d now q) l
  end.
Proof.
  induction l as [| q l IH] using rev_ind; [constructor |].
  rewrite fold_left_app. cbn. rewrite lookup_step_eq.
  destruct (fold_left _ l None) as [r |]; case_decide as Hq.
  - destruct IH as (l1 & l2 & -> & Hr & H1 & H2). destruct (Z.ltb_spec (prefix_len (rt_prefix r)) (prefix_len (rt_prefix q))).
    + exists (l1 ++ r :: l2), []. split; [done |]. split; [done |]. split; [| constructor].
      apply Forall_app. split; [| constructor; [done |]]; eapply Forall_impl; [exact H1 | | exact H2 |]; cbn;
        intros x Hx Hl; specialize (Hx Hl); lia.
    + exists l1, (l2 ++ [q]). rewrite <- app_assoc. split; [done |]. split; [done |]. split; [done |].
      apply Forall_app. split; [done |]. by constructor.
  - destruct IH as (l1 & l2 & -> & Hr & H1 & H2). exists l1, (l2 ++ [q]). rewrite <- app_assoc.
    split; [done |]. split; [done |]. split; [done |]. apply Forall_app. split; [done |]. by constructor.
  - exists l, []. split; [done |]. split; [done |]. split; [| constructor].
    eapply Forall_impl; [exact IH |]. cbn. intros x Hn Hl. by destruct Hn.
  - apply Forall_app. split; [done |]. by constructor.
Qed.

(** ** The slots *)

Definition used_slots (slots : list (option Route)) : Z := len (omap id slots).

Record table_ok (t : RouteTable) : Prop := {
  to_len : table_len t = used_slots (routes t);
  to_prefix : Forall (λ r, wf_prefix (rt_prefix r)) (table_entries t) }.

Lemma fill_first_Some r slots slots' :
  fill_first r slots = Some slots' →
  ∃ pre post, slots = (Some <$> pre) ++ None :: post ∧ slots' = (Some <$> pre) ++ Some r :: post.
Proof.
  revert slots'. induction slots as [| [q |] slots IH]; intros slots' H; [done | |].
  - cbn in H. destruct (fill_first r slots) as [s |] eqn:E; [| done]. injection H as <-.
    destruct (IH s eq_refl) as (pre & post & -> & ->). by exists (q :: pre), post.
  - injection H as <-. by exists [], slots.
Qed.
Lemma fill_first_None r slots : fill_first r slots = None → used_slots slots = len slots.
Proof.
  unfold used_slots. induction slots as [| [q |] slots IH]; intros H; [done | | done].
  cbn in H. destruct (fill_first r slots); [done |]. cbn. rewrite !len_cons. by rewrite IH.
Qed.

Lemma take_first_Some p slots slots' r :
  take_first p slots = Some (slots', r) →
  rt_prefix r = p ∧ ∃ pre post, slots = pre ++ Some r :: post ∧ slots' = pre ++ None :: post ∧
    Forall (λ q, rt_prefix q ≠ p) (omap id pre).
Proof.
  revert slots'. induction slots as [| s slots IH]; intros slots' H; [done |]. cbn in H.
  assert (Hnext : (match s with Some q => rt_prefix q ≠ p | None => True end) →
    ('(rest, r) ← take_first p slots; Some (s :: rest, r)) = Some (slots', r) →
    rt_prefix r = p ∧ ∃ pre post, s :: slots = pre ++ Some r :: post ∧ slots' = pre ++ None :: post ∧
      Forall (λ q, rt_prefix q ≠ p) (omap id pre)).
  { intros Hs H'. destruct (take_first p slots) as [[rest r'] |]; [| done]. cbn in H'. injection H' as <- ->.
    destruct (IH rest eq_refl) as (Hr & pre & post & -> & -> & Hf). split; [done |].
    exists (s :: pre), post. split; [done |]. split; [done |]. destruct s; [| done]. by constructor. }
  destruct s as [q |]; [| by apply Hnext]. case_bool_decide as Hq; [| by apply Hnext].
  injection H as <- <-. split; [done |]. exists [], slots. by split_and!.
Qed.
Lemma take_first_None p slots :
  take_first p slots = None → Forall (λ q, rt_prefix q ≠ p) (omap id slots).
Proof.
  induction slots as [| [q |] slots IH]; cbn; [constructor | |].
  - case_bool_decide as Hq; [done |]. destruct (take_first p slots) as [[] |]; [done |]. intros _. constructor; auto.
  - destruct (take_first p slots) as [[] |]; [done |]. auto.
Qed.

Lemma omap_Some_map {A} (l : list A) : omap id (Some <$> l) = l.
Proof. induction l; cbn; [done | by f_equal]. Qed.

Lemma used_slots_app l k : used_slots (l ++ k) = used_slots l + used_slots k.
Proof. unfold used_slots. rewrite omap_app. apply len_app. Qed.
Lemma used_slots_cons s l : used_slots (s :: l) = (if s then 1 else 0) + used_slots l.
Proof. unfold used_slots. destruct s; cbn; rewrite ?len_cons; lia. Qed.
Lemma used_slots_le l : 0 ≤ used_slots l ≤ len l.
Proof.
  induction l as [| s l IH]; [done |]. rewrite used_slots_cons, len_cons. destruct s; lia.
Qed.

(** What an operation may do: keep the capacity, the count and the
    prefixes. *)
Definition keeps_table (t t' : RouteTable) : Prop :=
  len (routes t') = len (routes t) ∧ table_ok t'.

Ltac slots_eq := unfold table_entries; cbn [routes]; rewrite ?omap_app; cbn [omap list_omap id]; rewrite ?omap_app.

Lemma table_add_ok t r :
  table_ok t → wf_prefix (rt_prefix r) →
  match table_add r t with
  | (t', Some _) => keeps_table t t' ∧ table_len t' = table_len t + 1 ∧
      ∃ l1 l2, table_entries t = l1 ++ l2 ∧ table_entries t' = l1 ++ r :: l2
  | (t', None) => t' = t ∧ table_len t = len (routes t)
  end.
Proof.
  intros [Hl Hp] Hr. unfold table_add. destruct (fill_first r (routes t)) as [slots |] eqn:E.
  - apply fill_first_Some in E as (pre & post & Ht & ->). unfold table_entries in Hp. rewrite Ht in *.
    rewrite omap_app in Hp. cbn in Hp. apply Forall_app in Hp as [Hp1 Hp2]. rewrite used_slots_app, used_slots_cons in Hl.
    split; [split |].
    + cbn. by rewrite Ht, !len_app, !len_cons.
    + split; cbn [routes table_len].
      * rewrite used_slots_app, used_slots_cons. lia.
      * slots_eq. apply Forall_app. split; [done |]. by constructor.
    + split; [done |]. exists pre, (omap id post). unfold table_entries. rewrite Ht. cbn [routes].
      rewrite !omap_app, !omap_Some_map. done.
  - split; [done |]. by rewrite Hl, (fill_first_None _ _ E).
Qed.

Lemma table_remove_ok t p :
  table_ok t →
  match table_remove p t with
  | (t', Some r) => keeps_table t t' ∧ table_len t' = table_len t - 1 ∧ rt_prefix r = p ∧
      ∃ l1 l2, table_entries t = l1 ++ r :: l2 ∧ table_entries t' = l1 ++ l2 ∧
        Forall (λ q, rt_prefix q ≠ p) l1
  | (t', None) => t' = t ∧ Forall (λ q, rt_prefix q ≠ p) (table_entries t)
  end.
Proof.
  intros [Hl Hp]. unfold table_remove. destruct (take_first p (routes t)) as [[slots r] |] eqn:E.
  - apply take_first_Some in E as (Hr & pre & post & Ht & -> & Hf). unfold table_entries in Hp. rewrite Ht in *.
    rewrite omap_app in Hp. cbn in Hp. apply Forall_app in Hp as [Hp1 Hp2]. apply Forall_cons in Hp2 as [_ Hp2].
    rewrite used_slots_app, used_slots_cons in Hl. split; [split |].
    + cbn. by rewrite Ht, !len_app, !len_cons.
    + split; cbn [routes table_len].
      * rewrite used_slots_app, used_slots_cons. lia.
      * slots_eq. by apply Forall_app.
    + split; [done |]. split; [done |]. exists (omap id pre), (omap id post). unfold table_entries. rewrite Ht.
      cbn [routes]. rewrite !omap_app. done.
  - split; [done |]. by apply take_first_None.
Qed.

Lemma prune_ok t now :
  table_ok t →
  let '(t', n) := prune_expired now t in
  keeps_table t t' ∧ table_len t' = table_len t - n ∧
  table_entries t' = filter (λ r, is_expired r now = false) (table_entries t).
Proof.
  intros [Hl Hp]. unfold prune_expired. cbv zeta.
  assert (He : omap id ((λ s, if slot_expired now s then None else s) <$> routes t) =
    filter (λ r, is_expired r now = false) (omap id (routes t))).
  { clear. induction (routes t) as [| [r |] l IH]; [done | |].
    - change (omap id (Some r :: l)) with (r :: omap id l). rewrite filter_cons, fmap_cons, <- IH.
      cbn [slot_expired]. by destruct (is_expired r now).
    - exact IH. }
  assert (Hn : ∀ l, used_slots ((λ s, if slot_expired now s then None else s) <$> l) =
    used_slots l - len (filter (λ s, slot_expired now s = true) l)).
  { clear. induction l as [| s l IH]; [done |]. rewrite fmap_cons, filter_cons, !used_slots_cons, IH.
    destruct s as [r |]; cbn [slot_expired]; [| done]. destruct (is_expired r now); cbn [decide]; case_decide; try done;
      rewrite ?len_cons; lia. }
  split; [split |].
  - cbn. unfold len. by rewrite length_fmap.
  - split; cbn [routes table_len]; [rewrite Hn; lia |]. unfold table_entries. cbn [routes]. rewrite He.
    apply Forall_forall. intros r [_ Hr]%list_elem_of_filter. by apply (proj1 (Forall_forall _ _) Hp).
  - done.
Qed.

(** ** Reachable tables *)

Inductive table_reachable (N : nat) : RouteTable → Prop :=
  | tr_new : table_reachable N (table_new N)
  | tr_add t r : table_reachable N t → wf_prefix (rt_prefix r) → table_reachable N (table_add r t).1
  | tr_remove t p : table_reachable N t → table_reachable N (table_remove p t).1
  | tr_default t via : table_reachable N t → table_reachable N (add_default_route via t).1
  | tr_prune t now : table_reachable N t → table_reachable N (prune_expired now t).1.

Lemma wf_default : wf_prefix default_route.
Proof. by exists 0, 0. Qed.

Lemma is_default_prefix r : wf_prefix (rt_prefix r) → is_default r = true ↔ rt_prefix r = default_route.
Proof.
  intros Hr. unfold is_default. split; [| by intros ->].
  intros E. apply wf_prefix_zero; [done | lia].
Qed.

(** The default route, as the table is searched. *)
Lemma get_default_None t :
  table_ok t → Forall (λ q, rt_prefix q ≠ default_route) (table_entries t) → get_default_route t = None.
Proof.
  intros [_ Hp] Hf. unfold get_default_route. rewrite fmap_None. apply list_find_None.
  apply Forall_forall. intros q Hq. rewrite Forall_forall in Hp, Hf. rewrite is_default_prefix by by apply Hp.
  by apply Hf.
Qed.
Lemma get_default_first t l1 r l2 :
  table_ok t → table_entries t = l1 ++ r :: l2 → rt_prefix r = default_route →
  Forall (λ q, rt_prefix q ≠ default_route) l1 → get_default_route t = Some r.
Proof.
  intros [_ Hp] He Hr Hf. unfold get_default_route. rewrite He in *.
  apply Forall_app in Hp as [Hp1 Hp2]. apply Forall_cons in Hp2 as [Hpr _].
  assert (Hn : list_find (λ r, is_default r = true) l1 = None).
  { apply list_find_None, Forall_forall. intros q Hq. rewrite Forall_forall in Hp1, Hf.
    rewrite is_default_prefix by by apply Hp1. by apply Hf. }
  rewrite list_find_app_r by done. cbn. rewrite decide_True by by apply is_default_prefix. done.
Qed.

(** [add] after [remove] fills a slot no later than the one that was freed. *)
Lemma fill_after_take p r slots slots' old slots'' :
  take_first p slots = Some (slots', old) → fill_first r slots' = Some slots'' →
  ∃ l1 l2, omap id slots'' = l1 ++ r :: l2 ∧ Forall (λ q, rt_prefix q ≠ p) l1.
Proof.
  intros (_ & pre & post & -> & -> & Hf)%take_first_Some Hfill. clear -Hf Hfill.
  revert slots'' Hfill. induction pre as [| [q |] pre IH]; intros slots'' Hfill.
  - cbn in Hfill. injection Hfill as <-. by exists [], (omap id post).
  - cbn in Hfill. apply Forall_cons in Hf as [Hq Hf]. destruct (fill_first r (pre ++ None :: post)) as [s |]; [| done].
    injection Hfill as <-. destruct (IH Hf s eq_refl) as (l1 & l2 & E & H). exists (q :: l1), l2.
    split; [cbn; by rewrite E | by constructor].
  - cbn in Hfill. injection Hfill as <-. by eexists [], _.
Qed.

Lemma add_default_ok t via :
  table_ok t →
  match add_default_route via t with
  | (t', Some old) => keeps_table t t' ∧ old = get_default_route t ∧
      get_default_route t' = Some (route_new_default via)
  | (t', None) => t' = t ∧ get_default_route t = None ∧ table_len t = len (routes t)
  end.
Proof.
  intros Hok. unfold add_default_route, remove_default_route.
  pose proof (table_remove_ok t default_route Hok) as Hrem.
  destruct (table_remove default_route t) as [t1 [old |]] eqn:Er.
  - destruct Hrem as ([Hlen Hok1] & Hl1 & Hold & l1 & l2 & E1 & E2 & Hf).
    pose proof (table_add_ok t1 (route_new_default via) Hok1 wf_default) as Hadd.
    destruct (table_add (route_new_default via) t1) as [t2 [[] |]] eqn:Ea.
    + destruct Hadd as ([Hlen2 Hok2] & _ & _). split; [split; [lia | done] |].
      split; [symmetry; by eapply get_default_first |].
      unfold table_remove in Er. destruct (take_first _ _) as [[s1 o1] |] eqn:Et; [| done]. injection Er as <- <-.
      unfold table_add in Ea. cbn [routes] in Ea. destruct (fill_first _ s1) as [s2 |] eqn:Ef; [| done]. injection Ea as <-.
      destruct (fill_after_take _ _ _ _ _ _ Et Ef) as (k1 & k2 & Ek & Hk).
      by eapply get_default_first.
    + destruct Hadd as [-> Hfull]. exfalso. pose proof (to_len _ Hok) as Hl. pose proof (used_slots_le (routes t)). lia.
  - destruct Hrem as [-> Hnone]. pose proof (table_add_ok t (route_new_default via) Hok wf_default) as Hadd.
    destruct (table_add (route_new_default via) t) as [t2 [[] |]] eqn:Ea.
    + destruct Hadd as (Hk & _ & k1 & k2 & E1 & E2). split; [done |]. rewrite E1 in Hnone.
      apply Forall_app in Hnone as [Hn1 Hn2].
      split; [symmetry; apply get_default_None; [done |]; rewrite E1; by apply Forall_app |].
      eapply get_default_first; [apply Hk | exact E2 | done | done].
    + destruct Hadd as [-> Hfull]. split; [done |]. split; [by apply get_default_None | done].
Qed.

Lemma table_reachable_ok N t : table_reachable N t → len (routes t) = Z.of_nat N ∧ table_ok t.
Proof.
  induction 1 as [| t r Ht [IHl IHo] Hr | t p Ht [IHl IHo] | t via Ht [IHl IHo] | t now Ht [IHl IHo]].
  - split; [cbn; by rewrite len_replicate |]. assert (E : omap id (replicate N (@None Route)) = []) by by induction N.
    split; unfold used_slots, table_entries; cbn; rewrite E; [done | constructor].
  - pose proof (table_add_ok t r IHo Hr) as H. destruct (table_add r t) as [t' [[] |]]; cbn.
    + destruct H as ([? ?] & _). split; [lia | done].
    + by destruct H as [-> _].
  - pose proof (table_remove_ok t p IHo) as H. destruct (table_remove p t) as [t' [q |]]; cbn.
    + destruct H as ([? ?] & _). split; [lia | done].
    + by destruct H as [-> _].
  - pose proof (add_default_ok t via IHo) as H. destruct (add_default_route via t) as [t' [q |]]; cbn.
    + destruct H as ([? ?] & _). split; [lia | done].
    + by destruct H as [-> _].
  - pose proof (prune_ok t now IHo) as H. destruct (prune_expired now t) as [t' n]; cbn.
    destruct H as ([? ?] & _). split; [lia | done].
Qed.

(** The entries are in the order in which they were added as long as none is removed. *)
Definition filled_table (N : nat) (rs : list Route) : RouteTable := foldl (λ t r, (table_add r t).1) (table_new N) rs.

Lemma fill_first_fresh r (full : list Route) n :
  fill_first r (map Some full ++ replicate n None) =
    match n with O => None | S n => Some (map Some (full ++ [r]) ++ replicate n None) end.
Proof.
  induction full as [| q full IH]; [by destruct n |]. cbn [map app fill_first]. rewrite IH. by destruct n.
Qed.

Lemma omap_id_fresh (full : list Route) n : omap id (map Some full ++ replicate n None) = full.
Proof.
  induction full as [| q full IH]; cbn; [by induction n |]. by rewrite IH.
Qed.

Lemma filled_table_slots N rs :
  routes (filled_table N rs) = map Some (take N rs) ++ replicate (N - length rs) None.
Proof.
  unfold filled_table. induction rs as [| r rs IH] using rev_ind; [by rewrite Nat.sub_0_r, take_nil |].
  rewrite foldl_snoc. set (t := foldl _ _ _) in *. unfold table_add. rewrite IH, fill_first_fresh, length_app. cbn [length].
  destruct (N - length rs)%nat as [| n] eqn:E.
  - cbn [fst]. rewrite IH, take_app_le by lia. by replace (N - (length rs + 1))%nat with 0%nat by lia.
  - cbn [fst routes]. rewrite (take_ge rs), (take_ge (rs ++ [r])) by (rewrite ?length_app; cbn; lia).
    by replace (N - (length rs + 1))%nat with n by lia.
Qed.

(** C13: the lookup is longest-prefix match: it answers with the router of the
    first longest route among those that have not expired and whose prefix
    shares the leading bits of the destination, and with nothing exactly when
    there is none. First is meant in the order of the slots, which is the order of
    insertion in a table from which nothing was removed; a route that is added
    after a removal takes the freed slot and comes before older ones (see
    [tie_not_by_insertion]). *)
Theorem route_lookup_longest N t d now :
  table_reachable N t → u64 d →
  match table_lookup t d now with
  | Some v => ∃ l1 r l2, table_entries t = l1 ++ r :: l2 ∧ via_router r = v ∧ live d now r ∧
      Forall (λ q, live d now q → prefix_len (rt_prefix q) < prefix_len (rt_prefix r)) l1 ∧
      Forall (λ q, live d now q → prefix_len (rt_prefix q) ≤ prefix_len (rt_prefix r)) l2
  | None => Forall (λ q, ¬ live d now q) (table_entries t)
  end ∧
  (∀ q, q ∈ table_entries t → ∃ a, u64 a ∧ prefix_new a (prefix_len (rt_prefix q)) = Some (rt_prefix q) ∧
    contains (rt_prefix q) d = (d / 2 ^ (64 - prefix_len (rt_prefix q)) =? a / 2 ^ (64 - prefix_len (rt_prefix q)))) ∧
  ∀ rs, table_entries (foldl (λ t r, (table_add r t).1) (table_new N) rs) = take N rs.
Proof.
  intros [_ [_ Hp]]%table_reachable_ok Hd. split; [| split].
  - unfold table_lookup. pose proof (lookup_fold d now (table_entries t)) as H.
    destruct (fold_left _ _ _) as [r |]; [| done]. destruct H as (l1 & l2 & H1 & H2 & H3 & H4). by exists l1, r, l2.
  - intros q Hq. rewrite Forall_forall in Hp. destruct (Hp q Hq) as (a & n & Ha & Hn & E).
    pose proof (contains_spec a n _ d Ha Hd Hn E) as Hc. pose proof (prefix_new_Some _ _ _ E) as [_ Eq].
    assert (prefix_len (rt_prefix q) = n) as En by by rewrite Eq. exists a. rewrite En. done.
  - intros rs. fold (filled_table N rs). unfold table_entries. by rewrite filled_table_slots, omap_id_fresh.
Qed.

(** The tie between two routes for the whole address space, through 2 and then 3: they are added
    behind a route for another network, and the one through 3 after that route
    was removed. It takes the freed slot and wins, although 2 was there first. *)
Theorem tie_not_by_insertion :
  let other := mkPrefix 0xaaaa000000000000 16 in
  let t := (table_add (route_new_default 2) (table_add (route_new other 1) (table_new 4)).1).1 in
  let t := (table_add (route_new_default 3) (table_remove other t).1).1 in
  table_lookup t 0x1234000000000000 0 = Some 3 ∧
  table_lookup (filled_table 4 [route_new_default 2; route_new_default 3]) 0x1234000000000000 0 = Some 2.
Proof. split; reflexivity. Qed.

(** The table never exceeds its capacity and its length counts its
    entries; an addition is refused exactly when every slot is taken;
    [add_default_route] installs the default route that is found next, returns
    the one it replaces, and changes nothing when it fails; [prune_expired]
    removes exactly the expired routes. *)
Theorem route_table_bounded N t :
  table_reachable N t →
  table_len t = len (table_entries t) ∧ len (table_entries t) ≤ Z.of_nat N ∧
  (∀ r, (table_add r t).2 = None ↔ len (table_entries t) = Z.of_nat N) ∧
  (∀ via, match add_default_route via t with
     | (t', Some old) => old = get_default_route t ∧ get_default_route t' = Some (route_new_default via)
     | (t', None) => t' = t ∧ get_default_route t = None ∧ len (table_entries t) = Z.of_nat N
     end) ∧
  (∀ now, let '(t', n) := prune_expired now t in
     table_entries t' = filter (λ r, is_expired r now = false) (table_entries t) ∧
     n = len (table_entries t) - len (table_entries t')).
Proof.
  intros [Hl Hok]%table_reachable_ok. pose proof (to_len _ Hok) as Hlen. unfold used_slots in Hlen.
  fold (table_entries t) in Hlen. pose proof (used_slots_le (routes t)) as Hle. unfold used_slots in Hle.
  fold (table_entries t) in Hle. split; [done |]. split; [lia |]. split_and!.
  - intros r. unfold table_add. destruct (fill_first r (routes t)) as [s |] eqn:E; cbn.
    + split; [done |]. intros Hfull. apply fill_first_Some in E as (pre & post & Ht & _). exfalso.
      pose proof (used_slots_le post). unfold table_entries in *. rewrite Ht in Hfull, Hl.
      pose proof (used_slots_app (Some <$> pre) (None :: post)) as Ha. unfold used_slots in Ha. rewrite Ha in Hfull.
      fold (used_slots (None :: post)) in Hfull. rewrite used_slots_cons, omap_Some_map in Hfull.
      rewrite len_app, len_cons in Hl. unfold len at 1 in Hl. rewrite length_fmap in Hl. fold (len pre) in Hl. lia.
    + split; [| done]. intros _. apply fill_first_None in E. unfold used_slots in E. fold (table_entries t) in E. lia.
  - intros via. pose proof (add_default_ok t via Hok) as H. destruct (add_default_route via t) as [t' [old |]].
    + by destruct H as (_ & ? & ?).
    + destruct H as (-> & ? & ?). split_and!; [done | done | lia].
  - intros now. pose proof (prune_ok t now Hok) as H. destruct (prune_expired now t) as [t' n].
    destruct H as ([_ Hok'] & Hn & He). split; [done |]. pose proof (to_len _ Hok') as H'.
    unfold used_slots in H'. fold (table_entries t') in H'. lia.
Qed.

Definition sample_route : Route := mkRoute (mkPrefix 0xaaaa000000000000 16) 10 None (Some 10).
Definition sample_table : RouteTable := (table_add sample_route (add_default_route 20 (table_new 2)).1).1.

Lemma sample_table_reachable : table_reachable 2 sample_table.
Proof.
  apply tr_add; [apply tr_default, tr_new |]. exists 0xaaaa000000000000, 16. split; [ulia |]. split; [lia | reflexivity].
Qed.

Lemma route_lookup_longest_witness :
  table_lookup sample_table 0xaaaa123400000000 5 = Some 10 ∧ table_lookup sample_table 0xaaaa123400000000 11 = Some 20 ∧
  ∃ l1 r l2, table_entries sample_table = l1 ++ r :: l2 ∧ via_router r = 10 ∧ live 0xaaaa123400000000 5 r ∧
      Forall (λ q, live 0xaaaa123400000000 5 q → prefix_len (rt_prefix q) < prefix_len (rt_prefix r)) l1 ∧
      Forall (λ q, live 0xaaaa123400000000 5 q → prefix_len (rt_prefix q) ≤ prefix_len (rt_prefix r)) l2.
Proof.
  split; [reflexivity |]. split; [reflexivity |].
  exact (proj1 (route_lookup_longest 2 sample_table 0xaaaa123400000000 5 sample_table_reachable ltac:(ulia))).
Defined.

Lemma route_table_bounded_witness :
  table_len sample_table = 2 ∧ table_len sample_table = len (table_entries sample_table) ∧
  len (table_entries sample_table) ≤ 2.
Proof.
  split; [reflexivity |]. destruct (route_table_bounded 2 sample_table sample_table_reachable) as (H1 & H2 & _).
  split; [exact H1 | exact H2].
Defined.
