(* ===== verification/RoutingWire.v ===== *)
(** * Dynamic routing: identifiers and wire format
    (src/src/dynamic_routing.rs, src/src/wire/gctl_routing.rs) *)
From stdpp Require Import prelude.
From Stdlib Require Import ZArith Lia ZifyBool.
From S2P Require Import Prelude Routing.
Local Open Scope Z_scope.

(** ** dynamic_routing.rs: [RouterId], [LinkId] and [RouteMetric] wrap an
    integer *)

Definition router_id_new (value : Z) : res Z := fail_if (value =? 0) InvalidField;; Ok value.
Definition link_id_new (value : Z) : res Z := fail_if (value =? 0) InvalidField;; Ok value.

Inductive RouteOrigin : Set := Connected | Learned | Static | Escape.
#[export] Instance RouteOrigin_eq_dec : EqDecision RouteOrigin.
Proof. solve_decision. Defined.

Definition origin_to_wire (self : RouteOrigin) : Z :=
  match self with Connected => 0 | Learned => 1 | Static => 2 | Escape => 3 end.
Definition origin_from_wire (value : Z) : res RouteOrigin :=
  if value =? 0 then Ok Connected
  else if value =? 1 then Ok Learned
  else if value =? 2 then Ok Static
  else if value =? 3 then Ok Escape
  else Err InvalidField.
Definition administrative_preference (self : RouteOrigin) : Z :=
  match self with Connected => 0 | Static => 10 | Learned => 100 | Escape => 255 end.

Definition DEFAULT_LINK : Z := 100.
Definition metric_saturating_add (self other : Z) : Z := saturating_add 32 self other.

(** ** gctl_routing.rs *)

Definition GCTL_ROUTER_HELLO : Z := 0x40.
Definition GCTL_ROUTER_HELLO_ACK : Z := 0x41.
Definition GCTL_ROUTE_ADVERTISE : Z := 0x42.
Definition GCTL_ROUTE_WITHDRAW : Z := 0x43.
Definition GCTL_ROUTING_VERSION : Z := 1.

Record RouterHello : Set := mkHello {
  rh_router_id : Z; rh_link_id : Z; rh_hold_time_ms : Z; rh_metric : Z }.
Record RouteAdvertise : Set := mkAdv {
  ra_advertiser : Z; ra_prefix : GdpPrefix; ra_origin : RouteOrigin; ra_metric : Z }.
Record RouteWithdraw : Set := mkWdr { rw_advertiser : Z; rw_prefix : GdpPrefix }.
#[export] Instance RouteAdvertise_eq_dec : EqDecision RouteAdvertise.
Proof. solve_decision. Defined.
#[export] Instance RouteWithdraw_eq_dec : EqDecision RouteWithdraw.
Proof. solve_decision. Defined.

Inductive RoutingGctlBody : Set :=
  | BHello (hello : RouterHello) | BHelloAck (hello : RouterHello)
  | BAdvertise (route : RouteAdvertise) | BWithdraw (route : RouteWithdraw).

Record RoutingGctlMessage : Set := mkRouting { rm_transaction_id : Z; rm_body : RoutingGctlBody }.

Definition router_hello (tid : Z) (h : RouterHello) : RoutingGctlMessage := mkRouting tid (BHello h).
Definition router_hello_ack (tid : Z) (h : RouterHello) : RoutingGctlMessage := mkRouting tid (BHelloAck h).
Definition route_advertise (tid : Z) (r : RouteAdvertise) : RoutingGctlMessage := mkRouting tid (BAdvertise r).
Definition route_withdraw (tid : Z) (r : RouteWithdraw) : RoutingGctlMessage := mkRouting tid (BWithdraw r).

(** Every octet of the 24 of a body is written once, in this order. *)
Definition encode_hello (h : RouterHello) : list Z :=
  to_be 8 (rh_router_id h) ++ to_be 8 (rh_link_id h) ++ to_be 4 (rh_hold_time_ms h) ++ to_be 4 (rh_metric h).
Definition encode_route_advertise (r : RouteAdvertise) : list Z :=
  to_be 8 (ra_advertiser r) ++ to_be 8 (network (ra_prefix r)) ++ [prefix_len (ra_prefix r)] ++
  [origin_to_wire (ra_origin r)] ++ [0; 0] ++ to_be 4 (ra_metric r).
Definition encode_route_withdraw (r : RouteWithdraw) : list Z :=
  to_be 8 (rw_advertiser r) ++ to_be 8 (network (rw_prefix r)) ++ [prefix_len (rw_prefix r)] ++ zeros 7.

Definition routing_encode (self : RoutingGctlMessage) : list Z :=
  let '(message_type, body) :=
    match rm_body self with
    | BHello h => (GCTL_ROUTER_HELLO, encode_hello h)
    | BHelloAck h => (GCTL_ROUTER_HELLO_ACK, encode_hello h)
    | BAdvertise r => (GCTL_ROUTE_ADVERTISE, encode_route_advertise r)
    | BWithdraw r => (GCTL_ROUTE_WITHDRAW, encode_route_withdraw r)
    end in
  [GCTL_ROUTING_VERSION; message_type; 0; 0] ++ to_be 4 (rm_transaction_id self) ++ body.

Definition decode_hello (body : list Z) : res RouterHello :=
  fail_if (negb (len body =? 24)) InvalidLength;;
  b ← get_slice body 0 8; r ← from_be_bytes 8 b; router_id ← router_id_new r;
  b ← get_slice body 8 16; l ← from_be_bytes 8 b; link_id ← link_id_new l;
  b ← get_slice body 16 20; hold ← from_be_bytes 4 b;
  b ← get_slice body 20 24; metric ← from_be_bytes 4 b;
  Ok (mkHello router_id link_id hold metric).

(** The advertiser and the canonical prefix both route bodies begin with. *)
Definition decode_route_prefix (body : list Z) : res (Z * GdpPrefix) :=
  b ← get_slice body 0 8; a ← from_be_bytes 8 b; advertiser ← router_id_new a;
  b ← get_slice body 8 16; net ← from_be_bytes 8 b;
  n ← get_index body 16;
  prefix ← ok_or (prefix_new net n) InvalidField;
  fail_if (negb (network prefix =? net)) NonCanonical;;
  Ok (advertiser, prefix).

Definition decode_route_advertise (body : list Z) : res RouteAdvertise :=
  fail_if (negb (len body =? 24)) InvalidLength;;
  b18 ← get_index body 18; b19 ← get_index body 19;
  fail_if (negb (b18 =? 0) || negb (b19 =? 0)) InvalidField;;
  '(advertiser, prefix) ← decode_route_prefix body;
  o ← get_index body 17; origin ← origin_from_wire o;
  b ← get_slice body 20 24; metric ← from_be_bytes 4 b;
  Ok (mkAdv advertiser prefix origin metric).

Definition decode_route_withdraw (body : list Z) : res RouteWithdraw :=
  fail_if (negb (len body =? 24)) InvalidLength;;
  tail ← get_slice body 17 24;
  fail_if (negb (all_zero tail)) InvalidField;;
  '(advertiser, prefix) ← decode_route_prefix body;
  Ok (mkWdr advertiser prefix).

Definition routing_decode (buf : list Z) : res RoutingGctlMessage :=
  fail_if (negb (len buf =? 32)) InvalidLength;;
  b0 ← get_index buf 0;
  fail_if (negb (b0 =? GCTL_ROUTING_VERSION)) Unsupported;;
  b2 ← get_index buf 2; b3 ← get_index buf 3;
  fail_if (negb (b2 =? 0) || negb (b3 =? 0)) InvalidField;;
  t ← get_slice buf 4 8; tid ← from_be_bytes 4 t;
  ty ← get_index buf 1;
  rest ← get_slice buf 8 (len buf);
  body ←
    (if ty =? GCTL_ROUTER_HELLO then BHello <$> decode_hello rest
     else if ty =? GCTL_ROUTER_HELLO_ACK then BHelloAck <$> decode_hello rest
     else if ty =? GCTL_ROUTE_ADVERTISE then BAdvertise <$> decode_route_advertise rest
     else if ty =? GCTL_ROUTE_WITHDRAW then BWithdraw <$> decode_route_withdraw rest
     else Err Unsupported);
  Ok (mkRouting tid body).

(** ** Lemmas *)

Definition wf_hello (h : RouterHello) : Prop :=
  u64 (rh_router_id h) ∧ rh_router_id h ≠ 0 ∧ u64 (rh_link_id h) ∧ rh_link_id h ≠ 0 ∧
  u32 (rh_hold_time_ms h) ∧ u32 (rh_metric h).
Definition wf_body (b : RoutingGctlBody) : Prop :=
  match b with
  | BHello h | BHelloAck h => wf_hello h
  | BAdvertise r => u64 (ra_advertiser r) ∧ ra_advertiser r ≠ 0 ∧ wf_prefix (ra_prefix r) ∧ u32 (ra_metric r)
  | BWithdraw r => u64 (rw_advertiser r) ∧ rw_advertiser r ≠ 0 ∧ wf_prefix (rw_prefix r)
  end.
(** Messages the constructors and the field types admit. *)
Definition wf_routing (m : RoutingGctlMessage) : Prop := u32 (rm_transaction_id m) ∧ wf_body (rm_body m).

Lemma origin_from_to_wire o : origin_from_wire (origin_to_wire o) = Ok o.
Proof. by destruct o. Qed.
Lemma origin_to_from_wire v o : origin_from_wire v = Ok o → origin_to_wire o = v.
Proof. unfold origin_from_wire. repeat case_match; try done; intros [= <-]; cbn; lia. Qed.

Lemma prefix_fields p : wf_prefix p → u64 (network p) ∧ 0 ≤ prefix_len p ≤ 64 ∧ prefix_new (network p) (prefix_len p) = Some p.
Proof.
  intros (a & n & Ha & Hn & E). pose proof (prefix_new_Some _ _ _ E) as [Hn64 ->]. cbn [network prefix_len].
  assert (Hl : 0 ≤ Z.land a (route_prefix_mask n) < 2 ^ 64).
  { rewrite land_route_mask by (done || lia). assert (0 < 2 ^ (64 - n)) by (apply Z.pow_pos_nonneg; lia).
    pose proof (Z.mul_div_le a (2 ^ (64 - n))). assert (0 ≤ a / 2 ^ (64 - n)) by (apply Z.div_pos; unfold u64 in Ha; lia).
    unfold u64 in Ha. nia. }
  split; [exact Hl |]. split; [lia |]. unfold prefix_new. replace (64 <? n) with false by lia.
  by rewrite <- Z.land_assoc, Z.land_diag.
Qed.

Lemma prefix_new_canonical net n p :
  u64 net → 0 ≤ n → prefix_new net n = Some p → network p = net → wf_prefix p ∧ prefix_len p = n.
Proof. intros Hn H0 E <-. split; [by exists (network p), n |]. by apply prefix_new_Some in E as [_ ->]. Qed.


(** Reading a field back gives the octets it was read from. *)
Lemma read_be n (body l : list Z) a b v :
  bytes body → get_slice body a b = Ok l → from_be_bytes n l = Ok v →
  b = a + Z.of_nat n ∧ slice body a b = to_be n v ∧ 0 ≤ v < 256 ^ Z.of_nat n.
Proof.
  intros Hb (H1 & H2 & H3 & ->)%get_slice_Ok H. unfold from_be_bytes in H.
  destruct (Z.eqb_spec (len (slice body a b)) (Z.of_nat n)) as [Hl |]; [| done]. injection H as <-.
  assert (Hs : bytes (slice body a b)) by by apply bytes_slice.
  split; [rewrite len_slice in Hl by lia; lia |]. split.
  - assert (length (slice body a b) = n) as <- by (unfold len in Hl; lia). symmetry. by apply to_be_from_be.
  - pose proof (from_be_range _ Hs) as Hr. by rewrite Hl in Hr.
Qed.
Lemma read_octet (body : list Z) i v :
  bytes body → get_index body i = Ok v → slice body i (i + 1) = [v] ∧ u8 v.
Proof.
  intros Hb H. split; [by apply slice_index | by eapply get_index_bytes].
Qed.

(** Open a reader that succeeded into its reads. *)
Ltac reads H :=
  repeat match type of H with
  | mbind _ (fail_if _ _) = Ok _ =>
      let g := fresh "Hg" in apply bind_Ok in H as (? & [g _]%fail_if_Ok & H); cbn beta in H
  | mbind _ _ = Ok _ =>
      let x := fresh "x" in let r := fresh "Hr" in apply bind_Ok in H as (x & r & H); cbn beta in H
  end.

(** Collect what [get_slice] and [from_be_bytes] read. *)
Ltac collect Hb :=
  repeat match goal with
  | H1 : get_slice ?body ?a ?b = Ok ?l, H2 : from_be_bytes ?n ?l = Ok ?v |- _ =>
      let E := fresh "Es" in let R := fresh "Rg" in
      destruct (read_be n body l a b v Hb H1 H2) as (_ & E & R); clear H1 H2
  | H : get_index ?body ?i = Ok ?v |- _ =>
      let E := fresh "Es" in let R := fresh "Rg" in
      destruct (read_octet body i v Hb H) as [E R]; clear H
  end;
  change (256 ^ Z.of_nat 8) with 0x10000000000000000 in *; change (256 ^ Z.of_nat 4) with 0x100000000 in *.

Lemma id_new_Ok v r : (fail_if (v =? 0) InvalidField;; Ok v) = Ok r ↔ r = v ∧ v ≠ 0.
Proof. destruct (Z.eqb_spec v 0); cbn; naive_solver. Qed.

Lemma router_id_new_nz v : v ≠ 0 → router_id_new v = Ok v.
Proof. intros. unfold router_id_new, fail_if. by replace (v =? 0) with false by lia. Qed.
Lemma link_id_new_nz v : v ≠ 0 → link_id_new v = Ok v.
Proof. exact (router_id_new_nz v). Qed.

(** Steps of a reader whose fields include identifiers. *)
Ltac id_step := first [ read_step
  | rewrite router_id_new_nz by done; rewrite bind_Ok_l | rewrite link_id_new_nz by done; rewrite bind_Ok_l ].

Lemma body_split3 (body : list Z) a b c d : 0 ≤ a ≤ b → b ≤ c → c ≤ d →
  slice body a d = slice body a b ++ slice body b c ++ slice body c d.
Proof. intros. rewrite (slice_split body a b d), (slice_split body b c d) by lia. done. Qed.

Lemma decode_hello_encode h : wf_hello h → decode_hello (encode_hello h) = Ok h.
Proof.
  intros (H1 & H2 & H3 & H4 & H5 & H6). unfold decode_hello, encode_hello.
  repeat id_step. by destruct h.
Qed.

Lemma decode_hello_inv body h :
  bytes body → decode_hello body = Ok h → body = encode_hello h ∧ wf_hello h.
Proof.
  intros Hb H. unfold decode_hello in H. reads H. apply Ok_inj in H as <-.
  match goal with H : router_id_new _ = Ok _ |- _ => apply id_new_Ok in H as [-> ?] end.
  match goal with H : link_id_new _ = Ok _ |- _ => apply id_new_Ok in H as [-> ?] end.
  collect Hb. unfold encode_hello, wf_hello. cbn [rh_router_id rh_link_id rh_hold_time_ms rh_metric].
  repeat match goal with H : slice body _ _ = _ |- _ => rewrite <- H; clear H end.
  split; [| by split_and!]. assert (len body = 24) by lia.
  rewrite <- body_split3, <- slice_split, slice_full by lia. done.
Qed.

(** The start of a route body. *)
Lemma decode_route_prefix_inv body a p :
  bytes body → decode_route_prefix body = Ok (a, p) →
  slice body 0 8 = to_be 8 a ∧ slice body 8 16 = to_be 8 (network p) ∧ slice body 16 17 = [prefix_len p] ∧
  u64 a ∧ a ≠ 0 ∧ wf_prefix p.
Proof.
  intros Hb H. unfold decode_route_prefix in H. reads H. apply Ok_inj in H as [-> ->]%pair_inv.
  match goal with H : router_id_new _ = Ok _ |- _ => apply id_new_Ok in H as [-> ?] end.
  collect Hb. match goal with H : ok_or _ _ = Ok _ |- _ => apply ok_or_Ok in H end.
  match goal with H : prefix_new ?net ?n = _ |- _ =>
    assert (network p = net) as E by lia;
    destruct (prefix_new_canonical net n p) as [Hw Hl]; [unfold u64; done | ulia | done | done |] end.
  rewrite E, Hl. split_and!; unfold u64; done.
Qed.

Lemma decode_route_prefix_encode a p rest :
  u64 a → a ≠ 0 → wf_prefix p →
  decode_route_prefix (to_be 8 a ++ to_be 8 (network p) ++ [prefix_len p] ++ rest) = Ok (a, p).
Proof.
  intros Ha H0 Hp. destruct (prefix_fields p Hp) as (Hn & Hl & E). unfold decode_route_prefix.
  pose proof (len_nonneg rest). repeat id_step.
  rewrite E. cbn [ok_or]. rewrite bind_Ok_l. by read_step.
Qed.

Lemma decode_advertise_encode r : wf_body (BAdvertise r) → decode_route_advertise (encode_route_advertise r) = Ok r.
Proof.
  intros (H1 & H2 & H3 & H4). unfold decode_route_advertise, encode_route_advertise.
  repeat read_step. rewrite decode_route_prefix_encode, bind_Ok_l by done. repeat read_step.
  rewrite origin_from_to_wire, bind_Ok_l. repeat read_step. by destruct r.
Qed.

Lemma decode_withdraw_encode r : wf_body (BWithdraw r) → decode_route_withdraw (encode_route_withdraw r) = Ok r.
Proof.
  intros (H1 & H2 & H3). unfold decode_route_withdraw, encode_route_withdraw.
  repeat read_step. change (all_zero (zeros 7)) with true. repeat read_step.
  rewrite decode_route_prefix_encode, bind_Ok_l by done. by destruct r.
Qed.

(** The reads that follow a route's advertiser and prefix. *)
Ltac route_reads Hb H :=
  reads H;
  match goal with x : Z * GdpPrefix |- _ => destruct x as [a p] end;
  reads H; apply Ok_inj in H as <-;
  match goal with H' : decode_route_prefix _ = Ok _ |- _ =>
    apply (decode_route_prefix_inv _ _ _ Hb) in H' as (E1 & E2 & E3 & ? & ? & ?) end.

Lemma decode_advertise_inv body r :
  bytes body → decode_route_advertise body = Ok r → body = encode_route_advertise r ∧ wf_body (BAdvertise r).
Proof.
  intros Hb H. unfold decode_route_advertise in H. route_reads Hb H.
  match goal with H : origin_from_wire _ = Ok _ |- _ => apply origin_to_from_wire in H as Ho end.
  collect Hb. assert (len body = 24) by lia.
  split; [| by split_and!]. unfold encode_route_advertise. cbn [ra_advertiser ra_prefix ra_origin ra_metric].
  assert (slice body 18 20 = [0; 0]) as E4.
  { rewrite (slice_split body 18 19 20) by lia. change (slice body 18 (18 + 1) ++ slice body 19 (19 + 1) = [0; 0]).
    match goal with H1 : slice body 18 _ = _, H2 : slice body 19 _ = _ |- _ => rewrite H1, H2 end.
    cbn [app]. f_equal; [lia | f_equal; lia]. }
  match goal with H : slice body 17 _ = _ |- _ => rewrite Ho, <- H end.
  match goal with H : slice body 20 24 = _ |- _ => rewrite <- H end.
  rewrite <- E1, <- E2, <- E3, <- E4. change (17 + 1) with 18.
  rewrite <- !slice_split, slice_full by lia. done.
Qed.

Lemma decode_withdraw_inv body r :
  bytes body → decode_route_withdraw body = Ok r → body = encode_route_withdraw r ∧ wf_body (BWithdraw r).
Proof.
  intros Hb H. unfold decode_route_withdraw in H. route_reads Hb H.
  assert (len body = 24) by lia. split; [| by split_and!].
  match goal with H : get_slice _ 17 24 = _ |- _ => apply get_slice_Ok in H as (_ & _ & _ & ->) end.
  match goal with H : negb (all_zero _) = false |- _ => apply negb_false_iff, all_zero_spec in H as E4 end.
  unfold encode_route_withdraw. cbn [rw_advertiser rw_prefix].
  replace (len (slice body 17 24)) with 7 in E4 by (rewrite len_slice; lia).
  rewrite <- E1, <- E2, <- E3, <- E4. rewrite <- !slice_split, slice_full by lia. done.
Qed.

Lemma no_panic_origin v : no_panic (origin_from_wire v).
Proof. unfold origin_from_wire. repeat case_match; done. Qed.
Lemma no_panic_id v : no_panic (router_id_new v) ∧ no_panic (link_id_new v).
Proof. unfold router_id_new, link_id_new. by destruct (v =? 0). Qed.

(** One step of a reader whose reads stay in the buffer. *)
Ltac np_step :=
  lazymatch goal with
  | |- no_panic (mbind _ (fail_if _ _)) => apply no_panic_bind; [apply no_panic_fail_if | intros _ [? _]%fail_if_Ok]
  | |- no_panic (mbind _ (get_slice ?l ?a ?b)) => rewrite (get_slice_eq l a b) by len_goal; rewrite bind_Ok_l
  | |- no_panic (mbind _ (from_be_bytes ?n ?l)) => rewrite (from_be_bytes_eq n l) by len_goal; rewrite bind_Ok_l
  | |- no_panic (mbind _ (get_index _ _)) => apply no_panic_bind; [apply no_panic_get_index; len_goal | intros ? _]
  | |- no_panic (mbind _ _) => apply no_panic_bind; [| intros ? _]
  | |- no_panic (origin_from_wire _) => apply no_panic_origin
  | |- no_panic (router_id_new _) => apply no_panic_id
  | |- no_panic (link_id_new _) => apply no_panic_id
  | |- no_panic (if _ then _ else _) => case_match
  | |- no_panic (let '_ := ?x in _) => destruct x
  | |- no_panic _ => auto with nopanic; fail
  end.

Lemma no_panic_bodies body :
  no_panic (decode_hello body) ∧ no_panic (decode_route_advertise body) ∧ no_panic (decode_route_withdraw body).
Proof.
  unfold decode_hello, decode_route_advertise, decode_route_withdraw, decode_route_prefix.
  split_and!; repeat np_step.
Qed.

Lemma no_panic_routing_decode buf : no_panic (routing_decode buf).
Proof.
  unfold routing_decode. repeat np_step; apply no_panic_fmap, no_panic_bodies.
Qed.

Lemma fmap_Ok {A B} (f : A → B) (m : res A) b : f <$> m = Ok b → ∃ a, m = Ok a ∧ b = f a.
Proof. destruct m; cbn; naive_solver. Qed.

Lemma len_encode_bodies h r w :
  len (encode_hello h) = 24 ∧ len (encode_route_advertise r) = 24 ∧ len (encode_route_withdraw w) = 24.
Proof. unfold encode_hello, encode_route_advertise, encode_route_withdraw. split_and!; len_goal. Qed.

Lemma routing_decode_encode m : wf_routing m → routing_decode (routing_encode m) = Ok m.
Proof.
  destruct m as [tid b]. intros [Ht Hb]. cbn in Ht, Hb. unfold routing_decode, routing_encode. cbn [rm_transaction_id rm_body].
  destruct b as [h | h | r | w]; cbn [wf_body] in Hb;
    [destruct (len_encode_bodies h (mkAdv 0 default_route Static 0) (mkWdr 0 default_route)) as [Hl _]
    | destruct (len_encode_bodies h (mkAdv 0 default_route Static 0) (mkWdr 0 default_route)) as [Hl _]
    | destruct (len_encode_bodies (mkHello 0 0 0 0) r (mkWdr 0 default_route)) as (_ & Hl & _)
    | destruct (len_encode_bodies (mkHello 0 0 0 0) (mkAdv 0 default_route Static 0) w) as (_ & _ & Hl)];
    repeat read_step; cbn [Z.eqb Pos.eqb GCTL_ROUTER_HELLO GCTL_ROUTER_HELLO_ACK GCTL_ROUTE_ADVERTISE GCTL_ROUTE_WITHDRAW];
    rewrite ?decode_hello_encode, ?decode_advertise_encode, ?decode_withdraw_encode by done; done.
Qed.

Lemma decode_body_inv ty body b :
  bytes body →
  (if ty =? GCTL_ROUTER_HELLO then BHello <$> decode_hello body
   else if ty =? GCTL_ROUTER_HELLO_ACK then BHelloAck <$> decode_hello body
   else if ty =? GCTL_ROUTE_ADVERTISE then BAdvertise <$> decode_route_advertise body
   else if ty =? GCTL_ROUTE_WITHDRAW then BWithdraw <$> decode_route_withdraw body
   else Err Unsupported) = Ok b →
  wf_body b ∧ match b with
    | BHello h => ty = GCTL_ROUTER_HELLO ∧ body = encode_hello h
    | BHelloAck h => ty = GCTL_ROUTER_HELLO_ACK ∧ body = encode_hello h
    | BAdvertise r => ty = GCTL_ROUTE_ADVERTISE ∧ body = encode_route_advertise r
    | BWithdraw r => ty = GCTL_ROUTE_WITHDRAW ∧ body = encode_route_withdraw r
    end.
Proof.
  intros Hb H. repeat case_match; try done; apply fmap_Ok in H as (x & H & ?); simplify_eq/=;
  first [apply (decode_hello_inv _ _ Hb) in H as [-> ?] | apply (decode_advertise_inv _ _ Hb) in H as [-> ?]
        | apply (decode_withdraw_inv _ _ Hb) in H as [-> ?]]; (split; [done | split; [lia | done]]).
Qed.

Lemma routing_decode_inv buf m :
  bytes buf → routing_decode buf = Ok m → routing_encode m = buf ∧ wf_routing m.
Proof.
  intros Hb H. unfold routing_decode in H. reads H. apply Ok_inj in H as <-.
  match goal with H : get_slice buf 8 _ = Ok _ |- _ => apply get_slice_Ok in H as (_ & _ & _ & ->) end.
  match goal with H : _ = Ok ?b |- _ =>
    is_var b; apply (decode_body_inv _ _ b (bytes_slice _ _ _ Hb)) in H as [Hw Hc] end.
  collect Hb. split; [| by split].
  match goal with |- routing_encode (mkRouting ?t ?b) = _ =>
    assert (routing_encode (mkRouting t b) = slice buf 0 1 ++ slice buf 1 2 ++ slice buf 2 3 ++ slice buf 3 4 ++
      slice buf 4 8 ++ slice buf 8 (len buf)) as ->
  end.
  - change (slice buf 0 1) with (slice buf 0 (0 + 1)). change (slice buf 1 2) with (slice buf 1 (1 + 1)).
    change (slice buf 2 3) with (slice buf 2 (2 + 1)). change (slice buf 3 4) with (slice buf 3 (3 + 1)).
    repeat match goal with H : slice buf _ _ = _ |- _ => rewrite H; clear H end.
    unfold routing_encode, GCTL_ROUTING_VERSION in *. cbn [rm_body rm_transaction_id].
    case_match; destruct Hc as [-> ->]; cbn [app]; repeat (f_equal; try lia).
  - rewrite <- !slice_split, slice_full by lia. done.
Qed.

(** The routing messages of GCTL: decoding never panics, whatever the
    octets, and it accepts exactly the canonical encodings — a buffer decodes
    to a message iff the message is one the constructors admit and encodes to
    that very buffer, so messages survive the round trip and no two buffers
    mean the same message. *)
Theorem routing_gctl_roundtrip buf m :
  bytes buf →
  no_panic (routing_decode buf) ∧
  (routing_decode buf = Ok m ↔ wf_routing m ∧ routing_encode m = buf).
Proof.
  intros Hb. split; [apply no_panic_routing_decode |]. split.
  - intros H. apply routing_decode_inv in H as [? ?]; done.
  - intros [Hw <-]. by apply routing_decode_encode.
Qed.

Definition example_advertise : RoutingGctlMessage :=
  route_advertise 7 (mkAdv 5 (mkPrefix 0x0102000000000000 16) Learned 300).

Lemma routing_gctl_roundtrip_witness :
  routing_decode (routing_encode example_advertise) = Ok example_advertise ∧ wf_routing example_advertise.
Proof.
  destruct (routing_gctl_roundtrip (routing_encode example_advertise) example_advertise) as [_ [H _]];
    [vm_compute; repeat constructor; done |].
  assert (E : routing_decode (routing_encode example_advertise) = Ok example_advertise) by by vm_compute.
  split; [exact E | by apply H].
Defined.
