(* ===== verification/Rib.v ===== *)
(** * The routing information base (src/src/router_rib.rs)

    Candidate routes by prefix, the choice of the best one, and what a router
    tells a neighbour. *)
From stdpp Require Import prelude gmap sorting.
From Stdlib Require Import ZArith Lia ZifyBool.
From S2P Require Import Prelude BTree Routing RoutingWire.
Local Open Scope Z_scope.

(** [#[derive(PartialOrd, Ord)]] on [GdpPrefix]: network, then length. *)
Definition prefix_le (p q : GdpPrefix) : Prop := lex_le (network p, prefix_len p) (network q, prefix_len q).
#[export] Instance prefix_le_dec : RelDecision prefix_le.
Proof. intros p q. unfold prefix_le. apply _. Defined.
#[export] Instance prefix_le_total : Total prefix_le.
Proof. intros p q. apply (total lex_le). Qed.
#[export] Instance prefix_le_trans : Transitive prefix_le.
Proof. intros p q r. unfold prefix_le. apply transitivity. Qed.
#[export] Instance prefix_le_antisym : AntiSymm (=) prefix_le.
Proof. intros [] [] H1 H2. pose proof (anti_symm (R := (=)) lex_le _ _ H1 H2). by simplify_eq/=. Qed.
#[export] Instance prefix_key_order : KeyOrder GdpPrefix := {| ord_le := prefix_le |}.

(** ** Routes *)

Record RibRoute : Set := mkRib {
  rr_prefix : GdpPrefix; rr_port : Z; rr_origin : RouteOrigin; rr_metric : Z; rr_learned_from : option Z }.
Record SelectedRoute : Set := mkSel {
  sr_prefix : GdpPrefix; sr_port : Z; sr_origin : RouteOrigin; sr_metric : Z; sr_learned_from : option Z }.
Inductive RouteUpdate : Set := Advertise (a : RouteAdvertise) | Withdraw (w : RouteWithdraw).
#[export] Instance RibRoute_eq_dec : EqDecision RibRoute.
Proof. solve_decision. Defined.
#[export] Instance SelectedRoute_eq_dec : EqDecision SelectedRoute.
Proof. solve_decision. Defined.

Definition selected_from (r : RibRoute) : SelectedRoute :=
  mkSel (rr_prefix r) (rr_port r) (rr_origin r) (rr_metric r) (rr_learned_from r).

Definition route_is_advertisable_to (route : SelectedRoute) (neighbor : Z) : bool :=
  match sr_origin route with
  | Connected => true
  | Learned => negb (bool_decide (sr_learned_from route = Some neighbor))
  | Static | Escape => false
  end.

Definition route_better (candidate current : RibRoute) : bool :=
  let cp := administrative_preference (rr_origin candidate) in
  let kp := administrative_preference (rr_origin current) in
  if negb (cp =? kp) then cp <? kp
  else if negb (rr_metric candidate =? rr_metric current) then rr_metric candidate <? rr_metric current
  else match rr_learned_from candidate, rr_learned_from current with
  | Some a, Some b => a <? b
  | None, Some _ => true
  | _, _ => false
  end.

(** ** The base *)

Record RouterRib : Set := mkRouterRib { local_router_id : Z; rib_routes : list RibRoute }.

Definition rib_new (id : Z) : RouterRib := mkRouterRib id [].

(** [if let Some(existing) = iter_mut().find(p) { *existing = x } else { push(x) }] *)
Fixpoint upsert {A} (p : A → bool) (x : A) (l : list A) : list A :=
  match l with
  | [] => [x]
  | y :: l => if p y then x :: l else y :: upsert p x l
  end.

Definition set_routes (self : RouterRib) (l : list RibRoute) : RouterRib := mkRouterRib (local_router_id self) l.

(** The route for [p] that [from] announced. *)
Definition learned_for (p : GdpPrefix) (from : Z) (r : RibRoute) : bool :=
  bool_decide (rr_prefix r = p) && bool_decide (rr_origin r = Learned) &&
  bool_decide (rr_learned_from r = Some from).

Definition upsert_local (route : RibRoute) (self : RouterRib) : RouterRib :=
  set_routes self (upsert (λ e, bool_decide (rr_prefix e = rr_prefix route) &&
    bool_decide (rr_origin e = rr_origin route) && bool_decide (rr_learned_from e = None)) route (rib_routes self)).

Definition add_connected (p : GdpPrefix) (port : Z) (self : RouterRib) : RouterRib :=
  upsert_local (mkRib p port Connected 0 None) self.
Definition add_static (p : GdpPrefix) (port metric : Z) (self : RouterRib) : RouterRib :=
  upsert_local (mkRib p port Static metric None) self.

Definition receive_advertisement (from port : Z) (a : RouteAdvertise) : st RouterRib unit := λ self,
  if bool_decide (from = local_router_id self) || negb (bool_decide (ra_advertiser a = from))
     || match ra_origin a with Static | Escape => true | _ => false end
  then (self, Err InvalidField)
  else
    let route := mkRib (ra_prefix a) port Learned (ra_metric a) (Some from) in
    (set_routes self (upsert (learned_for (rr_prefix route) from) route (rib_routes self)), Ok tt).

Definition receive_withdrawal (from : Z) (w : RouteWithdraw) : st RouterRib bool := λ self,
  if bool_decide (from = local_router_id self) || negb (bool_decide (rw_advertiser w = from))
  then (self, Err InvalidField)
  else
    let before := len (rib_routes self) in
    let kept := filter (λ r, learned_for (rw_prefix w) from r = false) (rib_routes self) in
    (set_routes self kept, Ok (negb (len kept =? before))).

(** A learned route of [neighbor], whatever its prefix. *)
Definition learned_by (neighbor : Z) (r : RibRoute) : bool :=
  bool_decide (rr_origin r = Learned) && bool_decide (rr_learned_from r = Some neighbor).

Definition remove_learned_from (neighbor : Z) (self : RouterRib) : RouterRib * list GdpPrefix :=
  (set_routes self (filter (λ r, learned_by neighbor r = false) (rib_routes self)),
   btree_set (rr_prefix <$> filter (λ r, learned_by neighbor r = true) (rib_routes self))).

(** ** Selection *)

Definition win_step (winners : gmap GdpPrefix RibRoute) (route : RibRoute) : gmap GdpPrefix RibRoute :=
  match winners !! rr_prefix route with
  | None => <[rr_prefix route := route]> winners
  | Some current => if route_better route current then <[rr_prefix route := route]> winners else winners
  end.

Definition selected_routes (self : RouterRib) : list SelectedRoute :=
  selected_from <$> (btree (fold_left win_step (rib_routes self) ∅)).*2.

Definition learned_fib (self : RouterRib) : list SelectedRoute :=
  filter (λ r, sr_origin r = Learned) (selected_routes self).

Definition reduce_better (current candidate : RibRoute) : RibRoute :=
  if route_better candidate current then candidate else current.

Definition selected_for_prefix (self : RouterRib) (p : GdpPrefix) : option SelectedRoute :=
  selected_from <$>
  match filter (λ r, rr_prefix r = p) (rib_routes self) with
  | [] => None
  | r :: l => Some (fold_left reduce_better l r)
  end.

(** ** Announcements *)

Definition advertisement (self : RouterRib) (route : SelectedRoute) (outgoing : Z) : RouteAdvertise :=
  mkAdv (local_router_id self) (sr_prefix route) (sr_origin route) (metric_saturating_add (sr_metric route) outgoing).

Definition advertisements_for (self : RouterRib) (neighbor outgoing : Z) : list RouteAdvertise :=
  (λ r, advertisement self r outgoing) <$>
    filter (λ r, route_is_advertisable_to r neighbor = true) (selected_routes self).

Definition update_for (self : RouterRib) (neighbor outgoing : Z) (p : GdpPrefix) : RouteUpdate :=
  match selected_for_prefix self p with
  | Some route =>
      if route_is_advertisable_to route neighbor then Advertise (advertisement self route outgoing)
      else Withdraw (mkWdr (local_router_id self) p)
  | None => Withdraw (mkWdr (local_router_id self) p)
  end.

Definition updates_for (self : RouterRib) (neighbor outgoing : Z) (changed : list GdpPrefix) : list RouteUpdate :=
  update_for self neighbor outgoing <$> btree_set changed.

(** ** The order of preference *)

Lemma better_irrefl r : route_better r r = false.
Proof. unfold route_better. rewrite !Z.eqb_refl. cbn. destruct (rr_learned_from r); lia. Qed.

Lemma better_trans a b c : route_better a b = true → route_better b c = true → route_better a c = true.
Proof.
  unfold route_better. cbv zeta.
  destruct (rr_learned_from a), (rr_learned_from b), (rr_learned_from c); intros H1 H2;
    repeat case_match; try done; lia.
Qed.

(** Routes that are no better than a third one are worse than what beats it. *)
Lemma better_weak a b c : route_better a b = true → route_better c b = false → route_better a c = true.
Proof.
  unfold route_better. cbv zeta.
  destruct (rr_learned_from a), (rr_learned_from b), (rr_learned_from c); intros H1 H2;
    repeat case_match; try done; lia.
Qed.

(** [r] is the first of the best routes of [l]. *)
Definition best_of (l : list RibRoute) (r : RibRoute) : Prop :=
  ∃ l1 l2, l = l1 ++ r :: l2 ∧ Forall (λ x, route_better r x = true) l1 ∧ Forall (λ x, route_better x r = false) l2.

Lemma best_of_elem l r : best_of l r → r ∈ l ∧ Forall (λ x, route_better x r = false) l.
Proof.
  intros (l1 & l2 & -> & H1 & H2). split; [apply elem_of_app; right; left |].
  apply Forall_app. split; [| constructor; [apply better_irrefl | done]].
  eapply Forall_impl; [exact H1 |]. cbn. intros x Hx. apply not_true_is_false. intros Hy.
  pose proof (better_trans _ _ _ Hx Hy) as Hxx. by rewrite better_irrefl in Hxx.
Qed.

Lemma reduce_best l r : best_of (r :: l) (fold_left reduce_better l r).
Proof.
  induction l as [| q l IH] using rev_ind; [by exists [], [] |].
  rewrite fold_left_app. cbn. destruct IH as (l1 & l2 & E & H1 & H2).
  set (b := fold_left reduce_better l r) in *. unfold reduce_better.
  replace (r :: l ++ [q]) with ((r :: l) ++ [q]) by done. rewrite E.
  destruct (route_better q b) eqn:Hq.
  - exists (l1 ++ b :: l2), []. split; [done |]. split; [| constructor].
    apply Forall_app. split; [| constructor; [done |]].
    + eapply Forall_impl; [exact H1 |]. cbn. intros x Hx. by eapply better_trans.
    + eapply Forall_impl; [exact H2 |]. cbn. intros x Hx. by eapply better_weak.
  - exists l1, (l2 ++ [q]). rewrite <- app_assoc. split; [done |]. split; [done |].
    apply Forall_app. split; [done |]. by constructor.
Qed.

(** The first of the best is unique. *)
Lemma best_unique l r r' : best_of l r → best_of l r' → r = r'.
Proof.
  intros (l1 & l2 & -> & H1 & H2) (k1 & k2 & E & K1 & K2).
  assert (Hlt : ∀ l1 l2 k1 k2 (r r' : RibRoute), (length l1 < length k1)%nat → l1 ++ r :: l2 = k1 ++ r' :: k2 →
    Forall (λ x, route_better r' x = true) k1 → Forall (λ x, route_better x r = false) l2 → False).
  { clear. intros l1 l2 k1 k2 r r' Hlen E K1 H2. assert (r ∈ k1) as Hr.
    { apply list_elem_of_lookup. exists (length l1). rewrite <- (lookup_app_l k1 (r' :: k2)) by done. rewrite <- E.
      by rewrite lookup_app_r, Nat.sub_diag by lia. }
    assert (r' ∈ l2) as Hr'.
    { assert ((l1 ++ r :: l2) !! length k1 = Some r') as Hl by (rewrite E, lookup_app_r, Nat.sub_diag by lia; done).
      rewrite lookup_app_r in Hl by lia. destruct (length k1 - length l1)%nat as [| n] eqn:En; [lia |].
      cbn in Hl. by apply list_elem_of_lookup_2 in Hl. }
    rewrite Forall_forall in K1, H2. specialize (K1 r Hr). specialize (H2 r' Hr'). congruence. }
  destruct (lt_eq_lt_dec (length l1) (length k1)) as [[H | H] | H].
  - by destruct (Hlt l1 l2 k1 k2 r r').
  - by apply app_inj_1 in E as [_ [= -> _]].
  - by destruct (Hlt k1 k2 l1 l2 r' r).
Qed.

(** ** Selection *)

Definition routes_for (self : RouterRib) (p : GdpPrefix) : list RibRoute :=
  filter (λ r, rr_prefix r = p) (rib_routes self).

Lemma winners_lookup l p :
  fold_left win_step l ∅ !! p =
  match filter (λ r, rr_prefix r = p) l with [] => None | r :: l' => Some (fold_left reduce_better l' r) end.
Proof.
  induction l as [| q l IH] using rev_ind; [done |].
  rewrite fold_left_app, filter_app. cbn [fold_left]. rewrite filter_cons, filter_nil.
  unfold win_step at 1. destruct (decide (rr_prefix q = p)) as [-> | Hp].
  - rewrite IH. destruct (filter _ l) as [| r l'] eqn:El; cbn [app].
    + apply lookup_insert_eq.
    + rewrite fold_left_app. cbn [fold_left]. set (b := fold_left reduce_better l' r) in *. unfold reduce_better.
      destruct (route_better q _); [apply lookup_insert_eq | exact IH].
  - rewrite app_nil_r, <- IH. repeat case_match; try done; by rewrite lookup_insert_ne.
Qed.

Lemma winners_best self p r :
  fold_left win_step (rib_routes self) ∅ !! p = Some r ↔ best_of (routes_for self p) r.
Proof.
  rewrite winners_lookup. fold (routes_for self p). destruct (routes_for self p) as [| q l] eqn:El.
  - split; [done |]. intros (l1 & l2 & E & _). by destruct l1.
  - split; [intros [= <-]; apply reduce_best |]. intros Hr. f_equal. eapply best_unique; [apply reduce_best | done].
Qed.

Lemma winner_prefix self p r : fold_left win_step (rib_routes self) ∅ !! p = Some r → rr_prefix r = p.
Proof. intros [[Hr _]%list_elem_of_filter _]%winners_best%best_of_elem. done. Qed.

Lemma elem_of_selected self s :
  s ∈ selected_routes self ↔ ∃ r, best_of (routes_for self (sr_prefix s)) r ∧ s = selected_from r.
Proof.
  unfold selected_routes. rewrite list_elem_of_fmap. split.
  - intros (r & -> & ([p r'] & -> & Hr%elem_of_btree)%list_elem_of_fmap). exists r'. split; [| done]. cbn.
    by rewrite (winner_prefix _ _ _ Hr), <- winners_best.
  - intros (r & Hr & Es). exists r. split; [done |]. apply list_elem_of_fmap. exists (sr_prefix s, r).
    split; [done |]. by apply elem_of_btree, winners_best.
Qed.

Lemma selected_for_prefix_spec self p s :
  selected_for_prefix self p = Some s ↔ s ∈ selected_routes self ∧ sr_prefix s = p.
Proof.
  unfold selected_for_prefix. rewrite elem_of_selected, fmap_Some.
  pose proof (winners_lookup (rib_routes self) p) as Hw. rewrite <- Hw. clear Hw. split.
  - intros (r & Hr & ->). pose proof (winner_prefix _ _ _ Hr) as Ep. cbn. rewrite Ep.
    split; [| done]. exists r. by rewrite <- winners_best.
  - intros [(r & Hr & ->) <-]. exists r. by rewrite winners_best.
Qed.

Lemma selected_prefixes self :
  sr_prefix <$> selected_routes self = btree_keys (fold_left win_step (rib_routes self) ∅).
Proof.
  unfold selected_routes, btree_keys. rewrite <- !list_fmap_compose. apply list_fmap_ext.
  intros i [p r] Hi%list_elem_of_lookup_2%elem_of_btree. cbn. by apply winner_prefix in Hi.
Qed.

(** ** Keeping a neighbour informed *)

(** What a router announces to [neighbor] for [p]. *)
Definition announced (self : RouterRib) (neighbor outgoing : Z) (p : GdpPrefix) : option RouteAdvertise :=
  match update_for self neighbor outgoing p with Advertise a => Some a | Withdraw _ => None end.

(** What [self] has learned from [from] about [p]. *)
Definition view (self : RouterRib) (from : Z) (p : GdpPrefix) : list RibRoute :=
  filter (λ r, learned_for p from r = true) (rib_routes self).

Definition learned_route (from port : Z) (a : RouteAdvertise) : RibRoute :=
  mkRib (ra_prefix a) port Learned (ra_metric a) (Some from).

Definition receive_update (from port : Z) (u : RouteUpdate) : st RouterRib unit :=
  match u with
  | Advertise a => receive_advertisement from port a
  | Withdraw w => receive_withdrawal from w;; mret tt
  end.
Fixpoint receive_updates (from port : Z) (l : list RouteUpdate) : st RouterRib unit :=
  match l with
  | [] => mret tt
  | u :: l => receive_update from port u;; receive_updates from port l
  end.

Lemma announced_Some self n m p a :
  announced self n m p = Some a ↔
  ∃ s, selected_for_prefix self p = Some s ∧ route_is_advertisable_to s n = true ∧ a = advertisement self s m.
Proof.
  unfold announced, update_for. destruct (selected_for_prefix self p) as [s |]; [| by split; [| intros (? & ? & _)]].
  destruct (route_is_advertisable_to s n) eqn:E; split.
  - intros [= <-]. by exists s.
  - by intros (s' & [= <-] & _ & ->).
  - done.
  - intros (s' & [= <-] & H & _). congruence.
Qed.

Lemma announced_shape self n m p a :
  announced self n m p = Some a →
  ra_advertiser a = local_router_id self ∧ ra_prefix a = p ∧ (ra_origin a = Connected ∨ ra_origin a = Learned).
Proof.
  intros (s & [_ Hp]%selected_for_prefix_spec & Hs & ->)%announced_Some. cbn. split; [done |]. split; [done |].
  unfold route_is_advertisable_to in Hs. destruct (sr_origin s); [by left | by right | done..].
Qed.

Lemma elem_of_advertisements self n m a :
  a ∈ advertisements_for self n m ↔ announced self n m (ra_prefix a) = Some a.
Proof.
  unfold advertisements_for. rewrite list_elem_of_fmap, announced_Some. split.
  - intros (s & -> & [Hs Hin]%list_elem_of_filter). exists s. cbn. split; [| done]. by apply selected_for_prefix_spec.
  - intros (s & [Hin Hp]%selected_for_prefix_spec & Hs & E). exists s. split; [done |]. by apply list_elem_of_filter.
Qed.

Lemma learned_for_learned p from r : learned_for p from r = true → rr_prefix r = p ∧ learned_by from r = true.
Proof.
  unfold learned_for, learned_by. intros [[? ?]%andb_true_iff ?]%andb_true_iff. split; [by eapply bool_decide_eq_true |].
  by apply andb_true_iff.
Qed.
Lemma learned_for_prefix p q from r : learned_for p from r = true → p ≠ q → learned_for q from r = false.
Proof.
  intros [<- _]%learned_for_learned Hq. unfold learned_for. by rewrite (bool_decide_eq_false_2 _ Hq).
Qed.
Lemma learned_for_route p from port a : ra_prefix a = p → learned_for p from (learned_route from port a) = true.
Proof. intros <-. unfold learned_for. cbn. by rewrite !bool_decide_eq_true_2. Qed.

Lemma filter_nil_iff {A} (P : A → Prop) `{∀ x, Decision (P x)} l : filter P l = [] ↔ ∀ x, x ∈ l → ¬ P x.
Proof.
  split.
  - intros E x Hx HP. assert (x ∈ filter P l) as Hf by by apply list_elem_of_filter. rewrite E in Hf. by apply elem_of_nil in Hf.
  - intros Hn. destruct (filter P l) as [| x k] eqn:E; [done |].
    assert (x ∈ filter P l) as [HP Hx]%list_elem_of_filter by (rewrite E; left). by destruct (Hn x).
Qed.

(** [upsert] on a list where at most one element matches. *)
Lemma upsert_filter_in {A} (p : A → bool) x l :
  p x = true → (length (filter (λ y, p y = true) l) ≤ 1)%nat → filter (λ y, p y = true) (upsert p x l) = [x].
Proof.
  intros Hx. induction l as [| y l IH]; intros Hl; cbn [upsert].
  - by rewrite filter_cons_True.
  - destruct (p y) eqn:Hy.
    + rewrite filter_cons_True in Hl by done. rewrite filter_cons_True by done. cbn [length] in Hl. f_equal.
      apply length_zero_iff_nil. lia.
    + rewrite filter_cons_False in Hl by congruence. rewrite filter_cons_False by congruence. auto.
Qed.
Lemma upsert_filter_out {A} (p q : A → bool) x l :
  q x = false → (∀ y, p y = true → q y = false) →
  filter (λ y, q y = true) (upsert p x l) = filter (λ y, q y = true) l.
Proof.
  intros Hx Hpq. induction l as [| y l IH]; cbn [upsert].
  - by rewrite filter_cons_False by congruence.
  - destruct (p y) eqn:Hy.
    + rewrite !filter_cons_False; [done | rewrite Hpq by done; done | congruence].
    + rewrite !filter_cons, IH. done.
Qed.

(** The routes of [self] that [from] has no part in. *)
Definition other_routes (self : RouterRib) (from : Z) : list RibRoute :=
  filter (λ r, negb (learned_by from r) = true) (rib_routes self).

(** One update, when the peer holds at most one route for its prefix. *)
Lemma receive_update_effect from port self p u expected :
  from ≠ local_router_id self → (length (view self from p) ≤ 1)%nat →
  match u with
  | Advertise a => ra_advertiser a = from ∧ ra_prefix a = p ∧ (ra_origin a = Connected ∨ ra_origin a = Learned) ∧
      expected = [learned_route from port a]
  | Withdraw w => w = mkWdr from p ∧ expected = []
  end →
  ∃ self', receive_update from port u self = (self', Ok tt) ∧
    local_router_id self' = local_router_id self ∧ other_routes self' from = other_routes self from ∧
    ∀ q, view self' from q = if decide (q = p) then expected else view self from q.
Proof.
  intros Hid Hlen Hu. destruct u as [a | w]; cbn [receive_update].
  - destruct Hu as (Ha & Hp & Ho & ->). unfold receive_advertisement.
    rewrite (bool_decide_eq_false_2 _ Hid), (bool_decide_eq_true_2 _ Ha). cbn [negb orb].
    replace (match ra_origin a with Static | Escape => true | _ => false end) with false by by destruct Ho as [-> | ->].
    eexists. split; [reflexivity |]. cbn [local_router_id set_routes rr_prefix]. split; [done |].
    fold (learned_route from port a). rewrite Hp. split.
    + unfold other_routes. cbn [rib_routes set_routes]. apply (upsert_filter_out _ (λ r, negb (learned_by from r))).
      * pose proof (learned_for_learned _ _ _ (learned_for_route p from port a Hp)) as [_ ->]. done.
      * intros y [_ ->]%learned_for_learned. done.
    + intros q. unfold view. cbn [rib_routes set_routes]. case_decide as Hq; subst.
      * apply upsert_filter_in; [by apply learned_for_route | done].
      * apply upsert_filter_out; [eapply learned_for_prefix; [by apply learned_for_route | done] |].
        intros y Hy. by eapply learned_for_prefix.
  - destruct Hu as (-> & ->). unfold receive_withdrawal. cbn [rw_advertiser rw_prefix].
    unfold mbind, st_bind. rewrite (bool_decide_eq_false_2 _ Hid), bool_decide_eq_true_2 by done. cbn [negb orb].
    eexists. split; [reflexivity |]. cbn [local_router_id set_routes]. split; [done |]. split.
    + unfold other_routes. cbn [rib_routes set_routes]. rewrite list_filter_filter. apply list_filter_iff. intros r.
      split; [by intros [? _] |]. intros Hr. split; [done |]. apply not_true_is_false. intros [_ Hl]%learned_for_learned.
      by rewrite Hl in Hr.
    + intros q. unfold view. cbn [rib_routes set_routes]. rewrite list_filter_filter. case_decide as Hq; subst.
      * apply filter_nil_iff. intros r _ [? ?]. congruence.
      * apply list_filter_iff. intros r. split; [by intros [? _] |]. intros Hr. split; [done |].
        by eapply learned_for_prefix.
Qed.

Lemma receive_updates_effect from port ps f self :
  NoDup ps → from ≠ local_router_id self →
  (∀ p, p ∈ ps → (length (view self from p) ≤ 1)%nat) →
  (∀ p, p ∈ ps → match f p with
    | Advertise a => ra_advertiser a = from ∧ ra_prefix a = p ∧ (ra_origin a = Connected ∨ ra_origin a = Learned)
    | Withdraw w => w = mkWdr from p
    end) →
  ∃ self', receive_updates from port (f <$> ps) self = (self', Ok tt) ∧
    local_router_id self' = local_router_id self ∧ other_routes self' from = other_routes self from ∧
    ∀ q, view self' from q =
      if decide (q ∈ ps) then match f q with Advertise a => [learned_route from port a] | Withdraw _ => [] end
      else view self from q.
Proof.
  intros Hnd. revert self. induction Hnd as [| p ps Hp Hnd IH]; intros self Hid Hlen Hf.
  { by exists self. }
  destruct (receive_update_effect from port self p (f p)
    match f p with Advertise a => [learned_route from port a] | Withdraw _ => [] end) as (s1 & E1 & Hid1 & Ho1 & Hv1).
  { done. }
  { apply Hlen, list_elem_of_here. }
  { pose proof (Hf p (list_elem_of_here _ _)). destruct (f p); naive_solver. }
  destruct (IH s1) as (s2 & E2 & Hid2 & Ho2 & Hv2).
  { by rewrite Hid1. }
  { intros q Hq. rewrite Hv1. case_decide; [by subst |]. by apply Hlen, list_elem_of_further. }
  { intros q Hq. by apply Hf, list_elem_of_further. }
  exists s2. split_and!; [| congruence.. |].
  - rewrite fmap_cons. cbn [receive_updates]. rewrite (st_bind_Ok_l _ _ _ _ _ E1). exact E2.
  - intros q. rewrite Hv2, Hv1. destruct (decide (q ∈ ps)) as [Hq | Hq].
    + by rewrite decide_True by by apply list_elem_of_further.
    + case_decide as Hqp; [subst; by rewrite decide_True by apply list_elem_of_here |].
      by rewrite decide_False by (intros [|]%elem_of_cons; done).
Qed.

(** ** Well-formed bases *)

Definition route_key (r : RibRoute) : GdpPrefix * RouteOrigin * option Z := (rr_prefix r, rr_origin r, rr_learned_from r).

(** A candidate is local and has no neighbour, or learned from another router. *)
Definition route_ok (self : Z) (r : RibRoute) : Prop :=
  match rr_origin r, rr_learned_from r with
  | Connected, None | Static, None => True
  | Learned, Some n => n ≠ self
  | _, _ => False
  end.

Record rib_ok (r : RouterRib) : Prop := {
  ro_keys : NoDup (route_key <$> rib_routes r);
  ro_routes : Forall (route_ok (local_router_id r)) (rib_routes r) }.

Lemma upsert_ok self (p : RibRoute → bool) x :
  rib_ok self → route_ok (local_router_id self) x → (∀ y, p y = true ↔ route_key y = route_key x) →
  rib_ok (set_routes self (upsert p x (rib_routes self))).
Proof.
  intros [Hn Hr] Hx Hp. split; cbn [rib_routes set_routes local_router_id].
  - clear Hr. assert (Hin : ∀ k l, k ∈ route_key <$> upsert p x l → k = route_key x ∨ k ∈ route_key <$> l).
    { intros k l. induction l as [| y l IH]; cbn [upsert]; [by intros [|]%elem_of_cons; [left | right] |].
      destruct (p y); rewrite !fmap_cons, !elem_of_cons; tauto. }
    induction (rib_routes self) as [| y l IH]; cbn [upsert]; [apply NoDup_singleton |].
    rewrite fmap_cons in Hn. apply NoDup_cons in Hn as [Hy Hn]. destruct (p y) eqn:Ey; rewrite fmap_cons; apply NoDup_cons.
    + apply Hp in Ey. by rewrite <- Ey.
    + split; [| auto]. intros [E | Hk]%Hin; [| done]. apply Hp in E. congruence.
  - clear Hn. induction (rib_routes self) as [| y l IH]; cbn [upsert]; [by constructor |].
    apply Forall_cons in Hr as [Hy Hr]. destruct (p y); constructor; auto.
Qed.

Lemma filter_ok self (P : RibRoute → Prop) `{∀ r, Decision (P r)} :
  rib_ok self → rib_ok (set_routes self (filter P (rib_routes self))).
Proof.
  intros [Hn Hr]. split; cbn [rib_routes set_routes local_router_id].
  - eapply sublist_NoDup; [exact Hn |]. clear. induction (rib_routes self) as [| y l IH]; [constructor |].
    rewrite filter_cons. case_decide; by constructor.
  - rewrite Forall_forall in *. intros r [_ ?]%list_elem_of_filter. auto.
Qed.

Lemma learned_for_key p from y : learned_for p from y = true ↔ route_key y = (p, Learned, Some from).
Proof.
  unfold learned_for, route_key. rewrite !andb_true_iff, !bool_decide_eq_true. split.
  - by intros [[-> ->] ->].
  - by intros [= -> -> ->].
Qed.

Inductive rib_reachable (id : Z) : RouterRib → Prop :=
  | rr_new : rib_reachable id (rib_new id)
  | rr_connected r p port : rib_reachable id r → rib_reachable id (add_connected p port r)
  | rr_static r p port m : rib_reachable id r → rib_reachable id (add_static p port m r)
  | rr_adv r from port a : rib_reachable id r → rib_reachable id (receive_advertisement from port a r).1
  | rr_wdr r from w : rib_reachable id r → rib_reachable id (receive_withdrawal from w r).1
  | rr_remove r n : rib_reachable id r → rib_reachable id (remove_learned_from n r).1.

Lemma upsert_local_ok r x :
  rib_ok r → rr_learned_from x = None → rr_origin x = Connected ∨ rr_origin x = Static → rib_ok (upsert_local x r).
Proof.
  intros Hr Hx Ho. apply upsert_ok; [done | |].
  - unfold route_ok. rewrite Hx. by destruct Ho as [-> | ->].
  - intros y. rewrite !andb_true_iff, !bool_decide_eq_true. unfold route_key. rewrite Hx. split.
    + by intros [[-> ->] ->].
    + by intros [= -> -> ->].
Qed.

Lemma rib_reachable_ok id r : rib_reachable id r → local_router_id r = id ∧ rib_ok r.
Proof.
  induction 1 as [| r p port _ [E IH] | r p port m _ [E IH] | r from port a _ [E IH] | r from w _ [E IH] | r n _ [E IH]].
  - split; [done |]. split; constructor.
  - split; [done |]. apply upsert_local_ok; [done.. | by left].
  - split; [done |]. apply upsert_local_ok; [done.. | by right].
  - unfold receive_advertisement. destruct (_ || _) eqn:Hg; [done |]. split; [done |]. cbn [fst].
    apply upsert_ok; [done | |].
    + cbn. apply orb_false_iff in Hg as [[Hg _]%orb_false_iff _]. by apply bool_decide_eq_false in Hg.
    + intros y. apply learned_for_key.
  - unfold receive_withdrawal. destruct (_ || _) eqn:Hg; [done |]. split; [done |]. by apply filter_ok.
  - split; [done |]. by apply filter_ok.
Qed.

(** ** Properties *)

(** The selection of [selected_routes] and that of [selected_for_prefix]
    are the same: one route per prefix, in increasing prefix order, and for
    each prefix the first candidate that no other candidate of that prefix
    beats in administrative preference, then metric, then announcing router. *)
Theorem rib_selection_agree self :
  (∀ p s, selected_for_prefix self p = Some s ↔ s ∈ selected_routes self ∧ sr_prefix s = p) ∧
  (∀ s, s ∈ selected_routes self → ∃ l1 r l2,
     filter (λ r, rr_prefix r = sr_prefix s) (rib_routes self) = l1 ++ r :: l2 ∧ s = selected_from r ∧
     Forall (λ x, route_better r x = true) l1 ∧ Forall (λ x, route_better x r = false) l2) ∧
  (∀ r, r ∈ rib_routes self → rr_prefix r ∈ sr_prefix <$> selected_routes self) ∧
  NoDup (sr_prefix <$> selected_routes self) ∧ StronglySorted ord_le (sr_prefix <$> selected_routes self).
Proof.
  split; [apply selected_for_prefix_spec |]. split; [| split; [| rewrite selected_prefixes; split]].
  - intros s (r & (l1 & l2 & El & H1 & H2) & ->)%elem_of_selected. by exists l1, r, l2.
  - intros r Hr. rewrite selected_prefixes, elem_of_btree_keys, winners_lookup.
    destruct (filter _ _) as [| q l] eqn:E; [| by eexists].
    exfalso. assert (r ∈ filter (λ q, rr_prefix q = rr_prefix r) (rib_routes self)) as Hin
      by by apply list_elem_of_filter.
    rewrite E in Hin. by apply elem_of_nil in Hin.
  - apply btree_keys_nodup.
  - apply btree_keys_sorted.
Qed.

(** The routing table of a router that only takes what its operations
    admit: every learned candidate names a neighbour other than the router
    itself, every local one names none, and a prefix has at most one candidate
    per origin and neighbour; removing a neighbour removes exactly its
    candidates and reports their prefixes. *)
Theorem rib_well_formed id self :
  rib_reachable id self →
  Forall (route_ok id) (rib_routes self) ∧
  NoDup ((λ r, (rr_prefix r, rr_origin r, rr_learned_from r)) <$> rib_routes self) ∧
  (∀ n, let '(self', changed) := remove_learned_from n self in
    (∀ r, r ∈ rib_routes self' ↔ r ∈ rib_routes self ∧ rr_learned_from r ≠ Some n) ∧
    (∀ p, p ∈ changed ↔ ∃ r, r ∈ rib_routes self ∧ rr_prefix r = p ∧ rr_learned_from r = Some n) ∧
    NoDup changed).
Proof.
  intros Hr. destruct (rib_reachable_ok _ _ Hr) as [E [Hk Ho]]. rewrite E in Ho. split; [done |]. split; [done |].
  intros n. cbn. assert (Hl : ∀ r, r ∈ rib_routes self → learned_by n r = true ↔ rr_learned_from r = Some n).
  { intros r Hin. rewrite Forall_forall in Ho. specialize (Ho r Hin). unfold route_ok in Ho. unfold learned_by.
    rewrite andb_true_iff, !bool_decide_eq_true. destruct (rr_origin r), (rr_learned_from r); naive_solver. }
  split_and!.
  - intros r. cbn [rib_routes set_routes]. rewrite list_elem_of_filter. split.
    + intros [Hf Hin]. split; [done |]. rewrite <- (Hl r Hin). congruence.
    + intros [Hin Hf]. split; [| done]. apply not_true_is_false. by rewrite (Hl r Hin).
  - intros p. rewrite elem_of_btree_set, list_elem_of_fmap. split.
    + intros (r & -> & [Hf Hin]%list_elem_of_filter). exists r. by rewrite <- (Hl r Hin).
    + intros (r & Hin & <- & Hf). exists r. split; [done |]. apply list_elem_of_filter. by rewrite (Hl r Hin).
  - apply NoDup_btree_set.
Qed.

(** C14: announcements keep a neighbour in step.  If what the neighbour has
    learned from a router is what the router announces, and the router's base
    changes, then the updates for any list that includes the prefixes whose
    announcement changed are all accepted and bring the neighbour back in
    step, without touching its other routes; and nothing announced was
    learned from that neighbour. *)
Theorem rib_neighbor_sync before after peer port n m changed :
  local_router_id before = local_router_id after → local_router_id after ≠ local_router_id peer →
  let from := local_router_id after in
  let in_step r peer := ∀ p, view peer from p =
    match announced r n m p with Some a => [learned_route from port a] | None => [] end in
  in_step before peer →
  (∀ p, announced before n m p ≠ announced after n m p → p ∈ changed) →
  (∃ peer', receive_updates from port (updates_for after n m changed) peer = (peer', Ok tt) ∧
    in_step after peer' ∧ other_routes peer' from = other_routes peer from) ∧
  (∀ a, a ∈ advertisements_for after n m ↔ announced after n m (ra_prefix a) = Some a) ∧
  (∀ p s, selected_for_prefix after p = Some s → sr_learned_from s = Some n → sr_origin s = Learned →
    announced after n m p = None).
Proof.
  intros Hid Hne from in_step Hstep Hch. split; [| split].
  - destruct (receive_updates_effect from port (btree_set changed) (update_for after n m) peer)
      as (peer' & E & _ & Ho & Hv).
    + apply NoDup_btree_set.
    + done.
    + intros p _. rewrite Hstep. destruct (announced before n m p); cbn; lia.
    + intros p _. pose proof (announced_shape after n m p) as Hs. unfold announced in Hs.
      unfold update_for in *. destruct (selected_for_prefix after p) as [s |]; [| done].
      destruct (route_is_advertisable_to s n); [| done]. by apply Hs.
    + exists peer'. split; [exact E |]. split; [| done]. intros p. rewrite Hv, Hstep.
      assert (Hr : match update_for after n m p with Advertise a => [learned_route from port a] | Withdraw _ => [] end =
        match announced after n m p with Some a => [learned_route from port a] | None => [] end)
        by (unfold announced; by destruct (update_for after n m p)).
      rewrite Hr. case_decide as Hp; [done |].
      destruct (decide (announced before n m p = announced after n m p)) as [-> | Hd]; [done |].
      destruct Hp. by apply elem_of_btree_set, Hch.
  - apply elem_of_advertisements.
  - intros p s Hs Hl Ho. unfold announced, update_for. rewrite Hs. unfold route_is_advertisable_to.
    by rewrite Ho, (bool_decide_eq_true_2 _ Hl).
Qed.

Definition lan : GdpPrefix := mkPrefix 0x0102000000000000 16.
Definition sample_rib : RouterRib :=
  (receive_advertisement 3 4 (mkAdv 3 lan Connected 100) (add_static lan 1 5 (rib_new 1))).1.

Lemma rib_well_formed_witness :
  len (rib_routes sample_rib) = 2 ∧ Forall (route_ok 1) (rib_routes sample_rib) ∧
  (remove_learned_from 3 sample_rib).2 = [lan].
Proof.
  assert (Hr : rib_reachable 1 sample_rib) by apply rr_adv, rr_static, rr_new.
  split; [vm_compute; reflexivity |].
  split; [exact (proj1 (rib_well_formed 1 sample_rib Hr)) | vm_compute; reflexivity].
Defined.

Lemma rib_neighbor_sync_witness :
  ∃ peer', receive_updates 1 9 (updates_for (add_connected lan 7 (rib_new 1)) 2 100 [lan]) (rib_new 2) = (peer', Ok tt) ∧
    view peer' 1 lan = [mkRib lan 9 Learned 100 (Some 1)].
Proof.
  destruct (rib_neighbor_sync (rib_new 1) (add_connected lan 7 (rib_new 1)) (rib_new 2) 9 2 100 [lan])
    as [(peer' & E & Hv & _) _].
  - reflexivity.
  - vm_compute. discriminate.
  - intros p. reflexivity.
  - intros p Hp. destruct (decide (p = lan)) as [-> |]; [apply list_elem_of_here |]. destruct Hp.
    unfold announced, update_for, selected_for_prefix. cbn [rib_routes add_connected upsert_local set_routes upsert rib_new].
    rewrite filter_cons. cbn [rr_prefix]. by rewrite decide_False by congruence.
  - exists peer'. split; [exact E |]. exact (Hv lan).
Defined.
