(* ===== verification/Adjacency.v ===== *)
(** * Router adjacencies (src/src/router_adjacency.rs)

    A router's view of the one neighbour on a link: who it is and whether it
    has been heard of within its hold time. *)
From stdpp Require Import prelude sorting.
From Stdlib Require Import ZArith Lia ZifyBool.
From S2P Require Import Prelude Time RoutingWire.
Local Open Scope Z_scope.

Inductive NeighborState : Set := NDown | NUp.
#[export] Instance NeighborState_eq_dec : EqDecision NeighborState.
Proof. solve_decision. Defined.

Record RouterNeighbor : Set := mkNeighbor {
  rn_router_id : Z; rn_remote_link_id : Z; rn_metric : Z; rn_hold_time_ms : Z; rn_last_seen : Z; rn_state : NeighborState }.

Record RouterAdjacency : Set := mkAdjacency {
  ad_router_id : Z; ad_link_id : Z; ad_metric : Z; ad_hold_time_ms : Z; ad_neighbor : option RouterNeighbor }.

Definition adjacency_new (id link metric hold : Z) : res RouterAdjacency :=
  fail_if (hold =? 0) InvalidField;;
  Ok (mkAdjacency id link metric hold None).

Definition adjacency_state (self : RouterAdjacency) : NeighborState :=
  match ad_neighbor self with Some n => rn_state n | None => NDown end.

Definition set_neighbor (n : option RouterNeighbor) (self : RouterAdjacency) : RouterAdjacency :=
  mkAdjacency (ad_router_id self) (ad_link_id self) (ad_metric self) (ad_hold_time_ms self) n.

Definition local_hello (self : RouterAdjacency) : RouterHello :=
  mkHello (ad_router_id self) (ad_link_id self) (ad_hold_time_ms self) (ad_metric self).
Definition hello (self : RouterAdjacency) (tid : Z) : RoutingGctlMessage := router_hello tid (local_hello self).

Definition accept_peer (now : Z) (peer : RouterHello) : st RouterAdjacency unit :=
  self ← gets id;
  guard_st ((rh_router_id peer =? ad_router_id self) || (rh_hold_time_ms peer =? 0)) InvalidField;;
  modify (set_neighbor (Some (mkNeighbor (rh_router_id peer) (rh_link_id peer) (rh_metric peer) (rh_hold_time_ms peer) now NUp))).

Definition adjacency_receive (now : Z) (message : RoutingGctlMessage) : st RouterAdjacency (option RoutingGctlMessage) :=
  match rm_body message with
  | BHello peer =>
      accept_peer now peer;;
      self ← gets id;
      mret (Some (router_hello_ack (rm_transaction_id message) (local_hello self)))
  | BHelloAck peer => accept_peer now peer;; mret None
  | BAdvertise _ | BWithdraw _ => lift (Err Unsupported)
  end.

Definition expire (now : Z) (self : RouterAdjacency) : RouterAdjacency * bool :=
  match ad_neighbor self with
  | None => (self, false)
  | Some n =>
      if bool_decide (rn_state n = NDown) then (self, false)
      else if rn_hold_time_ms n <=? Instant.saturating_duration_since now (rn_last_seen n) then
        (set_neighbor (Some (mkNeighbor (rn_router_id n) (rn_remote_link_id n) (rn_metric n) (rn_hold_time_ms n)
           (rn_last_seen n) NDown)) self, true)
      else (self, false)
  end.

(** ** Histories of a link *)

(** What happens to an adjacency: a message arrives, or the clock is
    checked. *)
Inductive adj_event : Set := Heard (now : Z) (m : RoutingGctlMessage) | Checked (now : Z).
Definition adj_step (self : RouterAdjacency) (e : adj_event) : RouterAdjacency :=
  match e with Heard now m => (adjacency_receive now m self).1 | Checked now => (expire now self).1 end.
Definition event_time (e : adj_event) : Z := match e with Heard t _ | Checked t => t end.

(** The hello an event carries, when the adjacency accepts it. *)
Definition accepted_hello (self : Z) (e : adj_event) : option (Z * RouterHello) :=
  match e with
  | Heard now m =>
      match rm_body m with
      | BHello h | BHelloAck h =>
          if (rh_router_id h =? self) || (rh_hold_time_ms h =? 0) then None else Some (now, h)
      | _ => None
      end
  | Checked _ => None
  end.
Definition last_hello (self : Z) (es : list adj_event) : option (Z * RouterHello) := last (omap (accepted_hello self) es).

Lemma accept_peer_eq now peer self :
  accept_peer now peer self =
  if (rh_router_id peer =? ad_router_id self) || (rh_hold_time_ms peer =? 0) then (self, Err InvalidField)
  else (set_neighbor (Some (mkNeighbor (rh_router_id peer) (rh_link_id peer) (rh_metric peer) (rh_hold_time_ms peer) now NUp)) self, Ok tt).
Proof. unfold accept_peer, mbind, st_bind, gets, guard_st, lift, modify. cbn. by destruct (_ || _). Qed.

Lemma receive_state now m self :
  (adjacency_receive now m self).1 =
  match accepted_hello (ad_router_id self) (Heard now m) with
  | Some (t, h) => set_neighbor (Some (mkNeighbor (rh_router_id h) (rh_link_id h) (rh_metric h) (rh_hold_time_ms h) t NUp)) self
  | None => self
  end.
Proof.
  unfold adjacency_receive, accepted_hello. destruct (rm_body m) as [h | h | |]; [| | done..];
    unfold mbind, st_bind; rewrite accept_peer_eq; by destruct (_ || _).
Qed.

(** What the neighbour slot says about the last accepted hello. *)
Definition hears (self : RouterAdjacency) (h : option (Z * RouterHello)) : Prop :=
  match h, ad_neighbor self with
  | None, None => True
  | Some (t, h), Some n => rn_router_id n = rh_router_id h ∧ rn_remote_link_id n = rh_link_id h ∧
      rn_metric n = rh_metric h ∧ rn_hold_time_ms n = rh_hold_time_ms h ∧ rn_last_seen n = t
  | _, _ => False
  end.

Lemma last_hello_snoc self es e :
  last_hello self (es ++ [e]) = match accepted_hello self e with Some x => Some x | None => last_hello self es end.
Proof.
  unfold last_hello. rewrite omap_app. cbn. destruct (accepted_hello self e) as [x |].
  - apply last_snoc.
  - by rewrite app_nil_r.
Qed.

Lemma step_hears self es e :
  hears self (last_hello (ad_router_id self) es) →
  hears (adj_step self e) (last_hello (ad_router_id self) (es ++ [e])) ∧
  ad_router_id (adj_step self e) = ad_router_id self.
Proof.
  intros H. rewrite last_hello_snoc. destruct e as [now m | now]; cbn [adj_step].
  - rewrite receive_state. by destruct (accepted_hello _ _) as [[t h] |].
  - cbn [accepted_hello]. unfold expire. destruct (ad_neighbor self) as [n |] eqn:En; [| done].
    case_bool_decide; [done |]. destruct (_ <=? _); [| done]. split; [| done]. unfold hears in *. rewrite En in H. done.
Qed.

(** A neighbour that is Down has been silent for its hold time. *)
Definition silent (self : RouterAdjacency) (now : Z) : Prop :=
  match ad_neighbor self with
  | Some n => rn_state n = NDown → rn_hold_time_ms n ≤ now - rn_last_seen n
  | None => True
  end.

Lemma step_silent self t e :
  silent self t → t ≤ event_time e → (∀ n, ad_neighbor self = Some n → rn_last_seen n ≤ t) →
  silent (adj_step self e) (event_time e) ∧
  (∀ n, ad_neighbor (adj_step self e) = Some n → rn_last_seen n ≤ event_time e).
Proof.
  intros Hs Ht Hl. unfold silent in *. destruct e as [now m | now]; cbn [adj_step event_time] in *.
  - rewrite receive_state. destruct (accepted_hello _ _) as [[t' h] |] eqn:Ea.
    + assert (t' = now) as -> by (cbn in Ea; repeat case_match; congruence). cbn. split; [done |]. intros n [= <-]. done.
    + split; [| intros n Hn%Hl; lia]. destruct (ad_neighbor self) as [n |]; [| done]. intros Hd. specialize (Hs Hd). lia.
  - unfold expire. destruct (ad_neighbor self) as [n |] eqn:En; [| by cbn; rewrite En]. specialize (Hl n eq_refl).
    case_bool_decide as Hd; [cbn; rewrite En; split; [intros; specialize (Hs Hd); lia | intros ? [= <-]; lia] |].
    destruct (Z.leb_spec (rn_hold_time_ms n) (Instant.saturating_duration_since now (rn_last_seen n))); cbn.
    + split; [| intros ? [= <-]; cbn; lia]. intros _. unfold Instant.saturating_duration_since, saturating_sub in *. lia.
    + rewrite En. split; [done |]. intros ? [= <-]. lia.
Qed.

Lemma steps_state id link metric hold es t :
  Sorted Z.le (event_time <$> es ++ [Checked t]) → 
  let a := foldl adj_step (mkAdjacency id link metric hold None) es in
  ad_router_id a = id ∧ hears a (last_hello id es) ∧ silent a t ∧ (∀ n, ad_neighbor a = Some n → rn_last_seen n ≤ t).
Proof.
  revert t. induction es as [| e es IH] using rev_ind; intros t Hsort; [by cbn |].
  assert (Hs : Sorted Z.le (event_time <$> es ++ [Checked (event_time e)]) ∧ event_time e ≤ t).
  { rewrite !fmap_app in *. cbn in *. apply Sorted_StronglySorted in Hsort; [| intros ???; lia].
    rewrite <- app_assoc in Hsort. split.
    - apply StronglySorted_Sorted. revert Hsort. generalize (event_time <$> es). intros l. induction l as [| x l IHl]; intros H; cbn in *.
      + by repeat constructor.
      + apply StronglySorted_inv in H as [H1 H2]. constructor; [auto |]. apply Forall_app in H2 as [H2 H3].
        apply Forall_app. split; [done |]. apply Forall_cons in H3 as [H3 _]. by constructor.
    - revert Hsort. generalize (event_time <$> es). intros l. induction l as [| x l IHl]; intros H; cbn in *.
      + apply StronglySorted_inv in H as [_ H]. by apply Forall_cons in H as [? _].
      + apply StronglySorted_inv in H as [H _]. auto. }
  destruct Hs as [Hs Ht]. specialize (IH _ Hs). cbv zeta in *. rewrite foldl_snoc.
  set (a := foldl adj_step _ es) in *. destruct IH as (Hid & Hh & Hsil & Hlast).
  rewrite <- Hid in Hh. destruct (step_hears _ _ e Hh) as [H1 H2]. rewrite Hid in H1, H2.
  destruct (step_silent a (event_time e) e Hsil ltac:(lia) Hlast) as [H3 H4].
  split; [done |]. split; [done |]. split.
  - unfold silent in *. destruct (ad_neighbor (adj_step a e)) as [n |]; [| done]. intros Hd. specialize (H3 Hd). lia.
  - intros n Hn. specialize (H4 n Hn). lia.
Qed.

(** An adjacency is Up exactly while its neighbour is heard.  For events
    in the order of time, once the clock has been checked at [now] the
    adjacency is Up iff the last hello it accepted came less than the
    announced hold time ago, and the neighbour it reports is the one that
    hello names. *)
Theorem adjacency_up_iff_heard id link metric hold es now :
  Sorted Z.le (event_time <$> es ++ [Checked now]) →
  let a := foldl adj_step (mkAdjacency id link metric hold None) (es ++ [Checked now]) in
  (adjacency_state a = NUp ↔
     ∃ t h, last_hello id es = Some (t, h) ∧ now - t < rh_hold_time_ms h) ∧
  (∀ n, ad_neighbor a = Some n → ∃ t h, last_hello id es = Some (t, h) ∧ rn_router_id n = rh_router_id h ∧
     rn_remote_link_id n = rh_link_id h ∧ rn_metric n = rh_metric h ∧ rn_router_id n ≠ id).
Proof.
  intros Hsort. destruct (steps_state id link metric hold es now Hsort) as (Hid & Hh & Hsil & Hl). cbv zeta in *.
  rewrite foldl_snoc. set (a := foldl adj_step _ es) in *. cbn [adj_step].
  assert (Hne : ∀ t h, last_hello id es = Some (t, h) → rh_router_id h ≠ id).
  { intros t h H. unfold last_hello in H. apply last_Some_elem_of, list_elem_of_omap in H as (e & _ & He).
    unfold accepted_hello in He. repeat case_match; simplify_eq/=; lia. }
  assert (Hn : ∀ n, ad_neighbor (expire now a).1 = Some n → ∃ n0, ad_neighbor a = Some n0 ∧ rn_router_id n = rn_router_id n0 ∧
    rn_remote_link_id n = rn_remote_link_id n0 ∧ rn_metric n = rn_metric n0).
  { intros n. unfold expire. destruct (ad_neighbor a) as [n0 |] eqn:E0; [| by cbn; rewrite E0].
    case_bool_decide; [cbn; rewrite E0; intros [= <-]; by exists n0 |]. destruct (_ <=? _); cbn; [| rewrite E0]; intros [= <-]; by exists n0. }
  split.
  - unfold adjacency_state, expire, hears, silent in *. destruct (ad_neighbor a) as [n |] eqn:En.
    + destruct (last_hello id es) as [[t h] |]; [| done]. destruct Hh as (_ & _ & _ & Hhold & Hseen). specialize (Hl n eq_refl).
      case_bool_decide as Hd.
      * cbn; rewrite En, Hd. specialize (Hsil Hd). split; [done |]. intros (t' & h' & [= <- <-] & Hlt). lia.
      * unfold Instant.saturating_duration_since, saturating_sub. destruct (Z.leb_spec (rn_hold_time_ms n) (Z.max 0 (now - rn_last_seen n))); cbn.
        -- split; [done |]. intros (t' & h' & [= <- <-] & Hlt). unfold last_hello in *.
           assert (rh_hold_time_ms h ≤ 0 ∨ rh_hold_time_ms h ≤ now - t) by lia. exfalso. lia.
        -- rewrite En. split; [| by destruct (rn_state n)]. intros _. exists t, h. split; [done |]. lia.
    + cbn; rewrite En. destruct (last_hello id es) as [[t h] |]; [done |]. split; [done |]. by intros (t & h & [=] & _).
  - intros n (n0 & H0 & E1 & E2 & E3)%Hn. unfold hears in Hh. rewrite H0 in Hh.
    destruct (last_hello id es) as [[t h] |] eqn:El; [| done]. destruct Hh as (F1 & F2 & F3 & _). exists t, h.
    split; [done |]. rewrite E1, E2, E3. split_and!; try done. rewrite F1. by eapply Hne.
Qed.

Lemma adjacency_up_iff_heard_witness :
  let es := [Heard 5 (router_hello 1 (mkHello 2 9 10 100))] in
  let a := foldl adj_step (mkAdjacency 1 8 100 10 None) (es ++ [Checked 14]) in
  adjacency_state a = NUp ∧ adjacency_state (expire 15 a).1 = NDown.
Proof.
  split; [| reflexivity].
  refine (proj2 (proj1 (adjacency_up_iff_heard 1 8 100 10 [Heard 5 (router_hello 1 (mkHello 2 9 10 100))] 14 _)) _).
  - repeat constructor; cbn; lia.
  - exists 5, (mkHello 2 9 10 100). split; [reflexivity | cbn; lia].
Defined.
