(* ===== verification/Egress.v ===== *)
(** * The egress scheduler of a router (src/src/egress_scheduler.rs)

    One queue per flow, served in turn, in front of one link. *)
From stdpp Require Import prelude gmap.
From Stdlib Require Import ZArith Lia.
From S2P Require Import Prelude GdpWire Dlp DlpLink.
Local Open Scope Z_scope.

Record EgressFlowId : Set := mkFlow { ef_source : Z; ef_destination : Z; ef_transport : Z }.
#[export] Instance EgressFlowId_eq_dec : EqDecision EgressFlowId.
Proof. solve_decision. Defined.
#[export] Instance EgressFlowId_countable : Countable EgressFlowId :=
  inj_countable' (λ f, (ef_source f, ef_destination f, ef_transport f)) (λ '(s, d, t), mkFlow s d t) ltac:(by intros []).

Record FlowQueue : Set := mkFlowQ { fq_packets : list GdpPacket; fq_scheduled : bool }.

Record RouterEgressScheduler : Set := mkSched {
  flows : gmap EgressFlowId FlowQueue; ready : list EgressFlowId; queued_packets : Z }.

Definition sched_new : RouterEgressScheduler := mkSched ∅ [] 0.

Definition enqueue (flow : EgressFlowId) (packet : GdpPacket) (s : RouterEgressScheduler) : RouterEgressScheduler :=
  let entry := default (mkFlowQ [] false) (flows s !! flow) in
  mkSched (<[flow := mkFlowQ (fq_packets entry ++ [packet]) true]> (flows s))
    (if fq_scheduled entry then ready s else ready s ++ [flow]) (queued_packets s + 1).

(** Take the next packet of a ready flow, which is no longer scheduled. *)
Definition pop_packet (flow : EgressFlowId) (s : RouterEgressScheduler) : res (RouterEgressScheduler * GdpPacket) :=
  q ← expect (flows s !! flow);
  match fq_packets q with
  | [] => Panic
  | p :: rest => Ok (mkSched (<[flow := mkFlowQ rest false]> (flows s)) (ready s) (queued_packets s), p)
  end.

(** After a packet was handed over: back of the line, or out of the map. *)
Definition reschedule (flow : EgressFlowId) (s : RouterEgressScheduler) : res RouterEgressScheduler :=
  q ← expect (flows s !! flow);
  n ← expect (checked_sub (queued_packets s) 1);
  Ok (match fq_packets q with
      | [] => mkSched (delete flow (flows s)) (ready s) n
      | _ :: _ => mkSched (<[flow := mkFlowQ (fq_packets q) true]> (flows s)) (ready s ++ [flow]) n
      end).

(** One turn of the loop: [false] when no flow is ready. *)
Definition schedule_one : st (RouterEgressScheduler * DlpLink) bool := λ '(s, link),
  match ready s with
  | [] => ((s, link), Ok false)
  | flow :: rest =>
      let s := mkSched (flows s) rest (queued_packets s) in
      match pop_packet flow s with
      | Ok (s, packet) =>
          match link_queue_data_packet packet link with
          | (link, Ok _) =>
              match reschedule flow s with
              | Ok s => ((s, link), Ok true)
              | Err e => ((s, link), Err e)
              | Panic => ((s, link), Panic)
              end
          | (link, Err e) => ((s, link), Err e)
          | (link, Panic) => ((s, link), Panic)
          end
      | Err e => ((s, link), Err e)
      | Panic => ((s, link), Panic)
      end
  end.

(** [while admitted < capacity]: [room] is [capacity - admitted]. *)
Fixpoint round_loop (room : nat) (admitted : Z) : st (RouterEgressScheduler * DlpLink) Z :=
  match room with
  | O => mret admitted
  | S room => more ← schedule_one; if (more : bool) then round_loop room (admitted + 1) else mret admitted
  end.

Definition round_capacity (mode : VcMode) : nat := match mode with Two => 1 | Four => 3 end.

Definition schedule_round : st (RouterEgressScheduler * DlpLink) Z := λ s,
  if negb (queued_data_flits (lk_endpoint s.2) =? 0) then (s, Err InvalidState)
  else round_loop (round_capacity (vc_mode (lk_endpoint s.2))) 0 s.

(** ** Consistent schedulers *)

Definition backlog (m : gmap EgressFlowId FlowQueue) : Z := map_fold (λ _ q n, len (fq_packets q) + n) 0 m.

(** Every flow in the map waits for its turn, once, with work to do. *)
Record sched_ok (s : RouterEgressScheduler) : Prop := {
  so_nodup : NoDup (ready s);
  so_ready : ∀ f, f ∈ ready s ↔ is_Some (flows s !! f);
  so_flow : ∀ f q, flows s !! f = Some q → fq_scheduled q = true ∧ fq_packets q ≠ [];
  so_count : queued_packets s = backlog (flows s) }.

Definition packets_of (s : RouterEgressScheduler) (f : EgressFlowId) : list GdpPacket :=
  match flows s !! f with Some q => fq_packets q | None => [] end.

Lemma backlog_insert m f q :
  backlog (<[f := q]> m) = len (fq_packets q) + backlog (delete f m).
Proof.
  unfold backlog. rewrite <- insert_delete_eq. rewrite map_fold_insert_L; [done | intros; lia | apply lookup_delete_eq].
Qed.
Lemma backlog_delete m f q : m !! f = Some q → backlog m = len (fq_packets q) + backlog (delete f m).
Proof. intros H. rewrite <- backlog_insert. by rewrite insert_id. Qed.
Lemma backlog_nonneg m : 0 ≤ backlog m.
Proof.
  induction m as [| f q m Hf IH] using map_ind; [done |]. rewrite backlog_insert, delete_id by done.
  pose proof (len_nonneg (fq_packets q)). lia.
Qed.

Lemma packets_ready s f : sched_ok s → f ∈ ready s ↔ packets_of s f ≠ [].
Proof.
  intros [_ Hr Hf _]. rewrite Hr. unfold packets_of. destruct (flows s !! f) as [q |] eqn:E.
  - split; [intros _; by eapply Hf | by eexists].
  - split; [by intros [] | done].
Qed.

Lemma enqueue_ok s f p :
  sched_ok s → sched_ok (enqueue f p s) ∧
  (∀ g, packets_of (enqueue f p s) g = if decide (g = f) then packets_of s f ++ [p] else packets_of s g) ∧
  ready (enqueue f p s) = if decide (f ∈ ready s) then ready s else ready s ++ [f].
Proof.
  intros [Hn Hr Hf Hc]. unfold enqueue, packets_of. cbv zeta. cbn [flows ready queued_packets].
  assert (Es : fq_scheduled (default (mkFlowQ [] false) (flows s !! f)) = bool_decide (f ∈ ready s)).
  { destruct (flows s !! f) as [q |] eqn:E; cbn.
    - rewrite bool_decide_eq_true_2 by (by apply Hr; eexists). by eapply Hf.
    - rewrite bool_decide_eq_false_2; [done |]. rewrite Hr, E. by intros []. }
  rewrite Es. split; [split |]; cbn [flows ready queued_packets].
  - case_bool_decide as Hin; [done |]. apply NoDup_app. split; [done |]. split; [| apply NoDup_singleton].
    by intros g Hg ->%list_elem_of_singleton.
  - intros g. rewrite lookup_insert_is_Some. case_bool_decide as Hin.
    + rewrite Hr. apply Hr in Hin. destruct (decide (f = g)) as [-> |]; naive_solver.
    + rewrite elem_of_app, list_elem_of_singleton, Hr. destruct (decide (f = g)); naive_solver.
  - intros g q. rewrite lookup_insert_Some. intros [[-> <-] | [? Hq]]; [| by eapply Hf]. cbn. split; [done |].
    by destruct (fq_packets _).
  - rewrite backlog_insert. cbn. rewrite len_app, len_cons, len_nil, Hc. destruct (flows s !! f) as [q |] eqn:E; cbn.
    + rewrite (backlog_delete _ _ _ E). lia.
    + rewrite delete_id by done. rewrite len_nil. lia.
  - split; [| by case_bool_decide; case_decide]. intros g. destruct (decide (g = f)) as [-> | Hg].
    + rewrite lookup_insert_eq. cbn. by destruct (flows s !! f).
    + by rewrite lookup_insert_ne.
Qed.

(** A turn that succeeds hands over the oldest packet of the flow whose turn
    it is. *)
Lemma schedule_one_spec s link f rest :
  sched_ok s → ready s = f :: rest →
  ∃ p ps, packets_of s f = p :: ps ∧
  match link_queue_data_packet p link with
  | (link', Ok _) => ∃ s', schedule_one (s, link) = ((s', link'), Ok true) ∧ sched_ok s' ∧
      ready s' = (if decide (ps = []) then rest else rest ++ [f]) ∧
      ∀ g, packets_of s' g = if decide (g = f) then ps else packets_of s g
  | (link', Err e) => schedule_one (s, link) =
      ((mkSched (<[f := mkFlowQ ps false]> (flows s)) rest (queued_packets s), link'), Err e)
  | (_, Panic) => True
  end.
Proof.
  intros [Hn Hr Hf Hc] Er. assert (is_Some (flows s !! f)) as [[pk sch] Hq] by (apply Hr; rewrite Er; left).
  pose proof (Hf f _ Hq) as [_ Hne]. cbn in Hne. destruct pk as [| p ps]; [done |].
  exists p, ps. unfold packets_of at 1. rewrite Hq. split; [done |]. unfold schedule_one. rewrite Er.
  unfold pop_packet. cbn [flows ready queued_packets]. rewrite Hq. cbn [expect]. rewrite bind_Ok_l. cbn [fq_packets].
  destruct (link_queue_data_packet p link) as [link' [n | e |]]; [| done | done].
  unfold reschedule. cbn [flows ready queued_packets]. rewrite lookup_insert_eq. cbn [expect]. rewrite bind_Ok_l. cbn [fq_packets].
  pose proof (backlog_delete _ _ _ Hq) as Hb. cbn in Hb. rewrite len_cons in Hb.
  pose proof (backlog_nonneg (delete f (flows s))). pose proof (len_nonneg ps).
  unfold checked_sub. replace (1 <=? queued_packets s) with true by lia. cbn [expect]. rewrite bind_Ok_l.
  rewrite Er in Hn. apply NoDup_cons in Hn as [Hnf Hn]. eexists. split; [reflexivity |].
  destruct ps as [| p2 ps].
  - split; [split; cbn [flows ready queued_packets] | split; [done |]].
    + done.
    + intros g. rewrite delete_insert_eq, lookup_delete_is_Some. rewrite <- Hr, Er, elem_of_cons. split.
      * intros Hg. split; [by intros -> | by right].
      * by intros [? [-> |]].
    + intros g q. rewrite delete_insert_eq, lookup_delete_Some. intros [_ Hg]. by eapply Hf.
    + rewrite delete_insert_eq, len_nil in *. lia.
    + intros g. unfold packets_of. cbn [flows]. rewrite delete_insert_eq. case_decide as Hg.
      * subst. by rewrite lookup_delete_eq.
      * by rewrite lookup_delete_ne.
  - rewrite insert_insert_eq. split; [split; cbn [flows ready queued_packets] | split; [done |]].
    + apply NoDup_app. split; [done |]. split; [| apply NoDup_singleton]. by intros g Hg ->%list_elem_of_singleton.
    + intros g. rewrite lookup_insert_is_Some, elem_of_app, list_elem_of_singleton, <- Hr, Er, elem_of_cons.
      destruct (decide (f = g)); naive_solver.
    + intros g q. rewrite lookup_insert_Some. intros [[-> <-] | [? Hg]]; [done | by eapply Hf].
    + rewrite backlog_insert. cbn [fq_packets]. lia.
    + intros g. unfold packets_of. cbn [flows]. case_decide as Hg.
      * subst. by rewrite lookup_insert_eq.
      * by rewrite lookup_insert_ne.
Qed.

(** ** Rounds *)

Fixpoint queue_all (ps : list GdpPacket) : st DlpLink unit :=
  match ps with
  | [] => mret tt
  | p :: ps => link_queue_data_packet p;; queue_all ps
  end.

(** The packets of flow [f] in a list of flows and packets. *)
Definition sent_for (f : EgressFlowId) (sent : list (EgressFlowId * GdpPacket)) : list GdpPacket :=
  snd <$> filter (λ x, x.1 = f) sent.

Lemma sent_for_cons f g p sent :
  sent_for f ((g, p) :: sent) = if decide (g = f) then p :: sent_for f sent else sent_for f sent.
Proof. unfold sent_for. rewrite filter_cons. cbn [fst]. by case_decide. Qed.

(** What [room] turns do. *)
Record round_effect (room : nat) (s s' : RouterEgressScheduler) (sent : list (EgressFlowId * GdpPacket)) : Prop := {
  re_ok : sched_ok s';
  re_order : ∀ f, packets_of s f = sent_for f sent ++ packets_of s' f;
  re_first : take room (ready s) `prefix_of` sent.*1;
  re_rest : drop room (ready s) `prefix_of` ready s';
  re_max : (length sent ≤ room)%nat;
  re_idle : (length sent < room)%nat → ready s' = [] }.

Lemma round_loop_spec room admitted s link s' link' n :
  sched_ok s → round_loop room admitted (s, link) = ((s', link'), Ok n) →
  ∃ sent, n = admitted + len sent ∧ queue_all sent.*2 link = (link', Ok tt) ∧ round_effect room s s' sent.
Proof.
  revert admitted s link. induction room as [| room IH]; intros admitted s link Hok H.
  - cbn in H. injection H as <- <- <-. exists []. split; [rewrite len_nil; lia |]. split; [done |].
    split; [done | done | apply prefix_nil | done | done | cbn; lia].
  - cbn [round_loop] in H. apply st_bind_Ok in H as ([s1 link1] & more & H1 & H2).
    destruct (ready s) as [| f rest] eqn:Er.
    + unfold schedule_one in H1. rewrite Er in H1. injection H1 as <- <- <-. cbn in H2. injection H2 as <- <- <-.
      exists []. split; [rewrite len_nil; lia |]. split; [done |].
      split; [done | done | by rewrite Er | by rewrite Er, drop_nil | cbn; lia | done].
    + destruct (schedule_one_spec s link f rest Hok Er) as (p & ps & Hp & Hone).
      destruct (link_queue_data_packet p link) as [link2 [k | e |]] eqn:El.
      * destruct Hone as (s2 & E & Hok2 & Er2 & Hps). rewrite E in H1. injection H1 as <- <- <-.
        destruct (IH _ _ _ Hok2 H2) as (sent & -> & Hq & [R1 R2 R3 R4 R5 R6]).
        exists ((f, p) :: sent). split; [rewrite len_cons; lia |]. split.
        { rewrite fmap_cons. cbn [queue_all snd]. by rewrite (st_bind_Ok_l _ _ _ _ _ El). }
        split; [done | | | | cbn; lia | cbn; intros; apply R6; lia].
        -- intros g. rewrite sent_for_cons. specialize (R2 g). rewrite Hps in R2.
           destruct (decide (g = f)) as [-> | Hg].
           ++ rewrite decide_True by done. cbn [app]. by rewrite <- R2.
           ++ by rewrite decide_False by congruence.
        -- rewrite Er, fmap_cons. cbn [take fst]. apply prefix_cons. etrans; [| exact R3]. rewrite Er2.
           case_decide; [done |]. rewrite take_app. apply prefix_app_r. done.
        -- rewrite Er. cbn [drop]. etrans; [| exact R4]. rewrite Er2. case_decide; [done |]. rewrite drop_app. by apply prefix_app_r.
      * rewrite Hone in H1. discriminate.
      * unfold schedule_one in H1. rewrite Er in H1. unfold pop_packet in H1. cbn [flows ready queued_packets] in H1.
        unfold packets_of in Hp. destruct (flows s !! f) as [q |]; [| done]. cbn [expect] in H1. rewrite bind_Ok_l, Hp, El in H1.
        discriminate.
Qed.

Lemma round_loop_error room admitted s link s' link' e :
  sched_ok s → round_loop room admitted (s, link) = ((s', link'), Err e) →
  ∃ sent s1 link1 f p ps rest, round_effect (length sent) s s1 sent ∧ (length sent < room)%nat ∧
    queue_all sent.*2 link = (link1, Ok tt) ∧ ready s1 = f :: rest ∧ packets_of s1 f = p :: ps ∧
    link_queue_data_packet p link1 = (link', Err e) ∧
    s' = mkSched (<[f := mkFlowQ ps false]> (flows s1)) rest (queued_packets s1).
Proof.
  revert admitted s link. induction room as [| room IH]; intros admitted s link Hok H; [done |].
  cbn [round_loop] in H. unfold mbind, st_bind in H.
  destruct (ready s) as [| f rest] eqn:Er.
  { unfold schedule_one in H. by rewrite Er in H. }
  destruct (schedule_one_spec s link f rest Hok Er) as (p & ps & Hp & Hone).
  destruct (link_queue_data_packet p link) as [link2 [k | e' |]] eqn:El.
  - destruct Hone as (s2 & E & Hok2 & Er2 & Hps). rewrite E in H.
    destruct (IH _ _ _ Hok2 H) as (sent & s1 & link1 & f1 & p1 & ps1 & rest1 & [R1 R2 R3 R4 R5 R6] & Hlt & Hq & Hx).
    exists ((f, p) :: sent), s1, link1, f1, p1, ps1, rest1. split; [| split; [cbn; lia | split; [| done]]].
    + split; [done | | | | done | cbn; lia].
      * intros g. rewrite sent_for_cons. specialize (R2 g). rewrite Hps in R2. destruct (decide (g = f)) as [-> | Hg].
        -- rewrite decide_True by done. cbn [app]. by rewrite <- R2.
        -- by rewrite decide_False by congruence.
      * rewrite Er, fmap_cons. cbn [length take fst]. apply prefix_cons. etrans; [| exact R3]. rewrite Er2.
        case_decide; [done |]. rewrite take_app. by apply prefix_app_r.
      * rewrite Er. cbn [length drop]. etrans; [| exact R4]. rewrite Er2. case_decide; [done |]. rewrite drop_app. by apply prefix_app_r.
    + rewrite fmap_cons. cbn [queue_all snd]. by rewrite (st_bind_Ok_l _ _ _ _ _ El).
  - rewrite Hone in H. injection H as <- <- <-. exists [], s, link, f, p, ps, rest.
    split; [| cbn; split_and!; try done; lia].
    split; [done | done | apply prefix_nil | done | done | cbn; lia].
  - unfold schedule_one in H. rewrite Er in H. unfold pop_packet in H. cbn [flows ready queued_packets] in H.
    unfold packets_of in Hp. destruct (flows s !! f) as [q |]; [| done]. cbn [expect] in H. rewrite bind_Ok_l, Hp, El in H.
    discriminate.
Qed.

(** Schedulers whose rounds all succeeded. *)
Inductive sched_reachable : RouterEgressScheduler → Prop :=
  | sr_new : sched_reachable sched_new
  | sr_enqueue s f p : sched_reachable s → sched_reachable (enqueue f p s)
  | sr_round s link s' link' n : sched_reachable s → schedule_round (s, link) = ((s', link'), Ok n) → sched_reachable s'.

Lemma schedule_round_effect s link s' link' n :
  sched_ok s → schedule_round (s, link) = ((s', link'), Ok n) →
  ∃ sent, n = len sent ∧ queue_all sent.*2 link = (link', Ok tt) ∧
    round_effect (round_capacity (vc_mode (lk_endpoint link))) s s' sent.
Proof.
  intros Hok H. unfold schedule_round in H. cbn [snd] in H. destruct (negb _); [done |].
  by apply round_loop_spec in H as (sent & -> & ? & ?); [exists sent |].
Qed.

Lemma sched_reachable_ok s : sched_reachable s → sched_ok s.
Proof.
  induction 1 as [| s f p _ IH | s link s' link' n _ IH H].
  - split; cbn; [constructor | | done | done]. intros f. rewrite elem_of_nil. split; [done | by intros []].
  - by apply enqueue_ok.
  - by destruct (schedule_round_effect _ _ _ _ _ IH H) as (sent & _ & _ & []).
Qed.

(** C15: fair rounds.  A round that succeeds hands the link, in this order, one
    packet for each of the first flows in line, as many as the link has data
    lanes; the flows behind them move up by that number, so a flow waits at
    most its place in line divided by the number of lanes rounds.  Within a
    flow no packet is lost, repeated or reordered, the counter is the number
    of packets left, and a round shorter than the capacity leaves nothing. *)
Theorem egress_round_fair s link s' link' n :
  sched_reachable s → schedule_round (s, link) = ((s', link'), Ok n) →
  let capacity := round_capacity (vc_mode (lk_endpoint link)) in
  ∃ sent, n = len sent ∧ queue_all sent.*2 link = (link', Ok tt) ∧
    (length sent ≤ capacity)%nat ∧
    take capacity (ready s) `prefix_of` sent.*1 ∧ drop capacity (ready s) `prefix_of` ready s' ∧
    (∀ f, packets_of s f = sent_for f sent ++ packets_of s' f) ∧
    (∀ f, f ∈ ready s' ↔ packets_of s' f ≠ []) ∧ NoDup (ready s') ∧
    queued_packets s' = backlog (flows s') ∧
    ((length sent < capacity)%nat → flows s' = ∅).
Proof.
  intros Hok%sched_reachable_ok H capacity. destruct (schedule_round_effect _ _ _ _ _ Hok H) as (sent & Hn & Hq & [R1 R2 R3 R4 R5 R6]).
  exists sent. split_and!; try done.
  - intros f. by apply packets_ready.
  - apply R1.
  - apply R1.
  - intros Hlt%R6. apply map_empty. intros f. apply eq_None_not_Some. intros Hf. apply (so_ready _ R1) in Hf.
    rewrite Hlt in Hf. by apply elem_of_nil in Hf.
Qed.

(** A round that the link refuses loses a packet and strands its flow: the
    packet taken for the refused call is dropped, the rest of the flow is no
    longer in line, and the counter still includes both.  Later rounds on a
    healthy link admit nothing, although packets are queued. *)
Theorem egress_refused_round_strands f p q link :
  lk_state link ≠ Up → queued_data_flits (lk_endpoint link) = 0 →
  ∃ s', schedule_round (enqueue f q (enqueue f p sched_new), link) = ((s', link), Err LinkDown) ∧
    packets_of s' f = [q] ∧ queued_packets s' = 2 ∧
    ∀ link2, queued_data_flits (lk_endpoint link2) = 0 → schedule_round (s', link2) = ((s', link2), Ok 0).
Proof.
  intros Hdown Hq. set (s := enqueue f q (enqueue f p sched_new)).
  assert (Hp : packets_of s f = [p; q]).
  { unfold s, packets_of, enqueue. cbn [flows sched_new]. by rewrite !lookup_insert_eq. }
  assert (Hs : sched_ok s ∧ ready s = [f] ∧ queued_packets s = 2).
  { split; [apply sched_reachable_ok; repeat constructor |]. unfold s, enqueue. cbn [flows ready queued_packets sched_new].
    rewrite lookup_empty. cbn. by rewrite lookup_insert_eq. }
  destruct Hs as (Hok & Er & Hc).
  assert (El : link_queue_data_packet p link = (link, Err LinkDown)).
  { unfold link_queue_data_packet, when_up, mbind, st_bind, gets, lift, require_up. cbn. by rewrite bool_decide_eq_false_2. }
  destruct (schedule_one_spec s link f [] Hok Er) as (p' & ps & Eps & Hone). rewrite Hp in Eps. injection Eps as <- <-.
  rewrite El in Hone. eexists. split.
  - unfold schedule_round. cbn [snd]. rewrite Hq. cbn [Z.eqb negb].
    assert (Er2 : ∀ k, round_loop (S k) 0 (s, link) = ((mkSched (<[f := mkFlowQ [q] false]> (flows s)) [] (queued_packets s), link), Err LinkDown)).
    { intros k. cbn [round_loop]. unfold mbind, st_bind. by rewrite Hone. }
    destruct (vc_mode (lk_endpoint link)); apply Er2.
  - split; [unfold packets_of; cbn [flows]; by rewrite lookup_insert_eq |]. split; [done |].
    intros link2 Hq2. unfold schedule_round. cbn [snd]. rewrite Hq2. cbn [Z.eqb negb].
    by destruct (vc_mode (lk_endpoint link2)).
Qed.

Definition fresh_link : DlpLink :=
  match link_new sample_config with Ok l => l | _ => mkLink sample_endpoint Down 0 end.
Definition ready_link : DlpLink := (complete_recovery (begin_recovery fresh_link).1).1.
Definition sample_gdp : GdpPacket :=
  mkPacket (header_global Gts Ctrl32 64 1 2) (zeros 32).
Definition flow_a : EgressFlowId := mkFlow 1 2 0.
Definition flow_b : EgressFlowId := mkFlow 1 3 0.
Definition sample_sched : RouterEgressScheduler :=
  enqueue flow_b sample_gdp (enqueue flow_a sample_gdp (enqueue flow_a sample_gdp sched_new)).

Lemma egress_round_fair_witness :
  (schedule_round (sample_sched, ready_link)).2 = Ok 3 ∧
  ∃ sent, len sent = 3 ∧ take 3 (ready sample_sched) `prefix_of` sent.*1 ∧ sent_for flow_a sent = [sample_gdp; sample_gdp].
Proof.
  assert (Hr : sched_reachable sample_sched) by repeat constructor.
  assert (E : schedule_round (sample_sched, ready_link) =
    (((schedule_round (sample_sched, ready_link)).1.1, (schedule_round (sample_sched, ready_link)).1.2), Ok 3))
    by (vm_compute; reflexivity).
  split; [exact (f_equal snd E) |].
  destruct (egress_round_fair _ _ _ _ _ Hr E) as (sent & Hn & _ & _ & Hf & _ & Ho & _).
  exists sent. split; [symmetry; exact Hn |]. split; [exact Hf |].
  assert (Hz : packets_of (schedule_round (sample_sched, ready_link)).1.1 flow_a = []) by (vm_compute; reflexivity).
  specialize (Ho flow_a). rewrite Hz, app_nil_r in Ho. rewrite <- Ho. vm_compute. reflexivity.
Defined.

Lemma egress_refused_round_strands_witness :
  ∃ s', (schedule_round (enqueue flow_a sample_gdp (enqueue flow_a sample_gdp sched_new), fresh_link)).1.1 = s' ∧
    packets_of s' flow_a = [sample_gdp] ∧ schedule_round (s', ready_link) = ((s', ready_link), Ok 0).
Proof.
  destruct (egress_refused_round_strands flow_a sample_gdp sample_gdp fresh_link) as (s' & E & Hp & _ & H).
  - vm_compute. discriminate.
  - vm_compute. reflexivity.
  - exists s'. rewrite E. split; [reflexivity |]. split; [exact Hp |]. apply H. vm_compute. reflexivity.
Defined.
