(* ===== verification/Storage.v ===== *)
(** * Caller-owned storage (src/src/storage.rs)

    A ring buffer, a packet queue over one byte arena and a pool of message
    slots.  Slot indices and counts are [nat]; byte offsets and lengths are
    [Z], as for every buffer of the development. *)
From stdpp Require Import prelude.
From Stdlib Require Import ZArith Lia ZifyBool ZifyNat.
From S2P Require Import Prelude.
Local Open Scope Z_scope.

(** [l[i]] and [l[i] = x] for a slot index: out of range they panic. *)
Definition at_slot {A} (l : list A) (i : nat) : res A := expect (l !! i).
Definition put_slot {A} (l : list A) (i : nat) (x : A) : res (list A) :=
  if decide (i < length l)%nat then Ok (<[i := x]> l) else Panic.
(** [a % b] *)
Definition rem_or_panic (a b : nat) : res nat :=
  if decide (b = 0%nat) then Panic else Ok (a mod b)%nat.

(** ** RingBuffer *)

Record RingBuffer (T : Type) : Type := mkRing { rb_storage : list T; rb_head : nat; rb_len : nat }.
Arguments mkRing {T}. Arguments rb_storage {T}. Arguments rb_head {T}. Arguments rb_len {T}.

Section ring.
Context {T : Type}.
Implicit Types b : RingBuffer T.

Definition rb_new (storage : list T) : RingBuffer T := mkRing storage 0 0.
Definition rb_capacity b : nat := length (rb_storage b).
Definition rb_free b : nat := rb_capacity b - rb_len b.
Definition rb_clear b : RingBuffer T := mkRing (rb_storage b) 0 0.

Definition rb_push_back (value : T) : st (RingBuffer T) unit := λ b,
  if bool_decide (rb_len b = length (rb_storage b)) || bool_decide (rb_storage b = []) then (b, Err BufferFull)
  else
    match (idx ← rem_or_panic (rb_head b + rb_len b) (length (rb_storage b)); put_slot (rb_storage b) idx value) with
    | Ok s => (mkRing s (rb_head b) (S (rb_len b)), Ok tt)
    | Err e => (b, Err e)
    | Panic => (b, Panic)
    end.

Definition rb_pop_front : st (RingBuffer T) (option T) := λ b,
  if bool_decide (rb_len b = 0%nat) then (b, Ok None)
  else
    match (v ← at_slot (rb_storage b) (rb_head b);
           h ← rem_or_panic (S (rb_head b)) (length (rb_storage b)); Ok (v, h)) with
    | Ok (v, h) =>
        let n := (rb_len b - 1)%nat in
        (mkRing (rb_storage b) (if bool_decide (n = 0%nat) then 0%nat else h) n, Ok (Some v))
    | Err e => (b, Err e)
    | Panic => (b, Panic)
    end.

Definition rb_front b : res (option T) :=
  if bool_decide (rb_len b = 0%nat) then Ok None else Some <$> at_slot (rb_storage b) (rb_head b).

End ring.

(** ** PacketBuffer *)

Record PacketMetadata (M : Type) : Type := mkMeta { pm_meta : option M; pm_offset : Z; pm_len : Z }.
Arguments mkMeta {M}. Arguments pm_meta {M}. Arguments pm_offset {M}. Arguments pm_len {M}.
Definition PacketMetadata_EMPTY {M} : PacketMetadata M := mkMeta None 0 0.
Definition pm_is_used {M} (s : PacketMetadata M) : bool := bool_decide (is_Some (pm_meta s)).

Record PacketBuffer (M : Type) : Type := mkPackets {
  pb_metadata : list (PacketMetadata M); pb_payload : list Z; pb_head : nat; pb_len : nat; pb_used_bytes : Z }.
Arguments mkPackets {M}. Arguments pb_metadata {M}. Arguments pb_payload {M}.
Arguments pb_head {M}. Arguments pb_len {M}. Arguments pb_used_bytes {M}.

Section packets.
Context {M : Type}.
Implicit Types b : PacketBuffer M.

Definition pb_new (metadata : list (PacketMetadata M)) (payload : list Z) : PacketBuffer M :=
  mkPackets ((λ _, PacketMetadata_EMPTY) <$> metadata) payload 0 0 0.
Definition free_payload_bytes b : Z := saturating_sub (len (pb_payload b)) (pb_used_bytes b).

Definition meta_index b (logical : nat) : res nat := rem_or_panic (pb_head b + logical) (length (pb_metadata b)).

Definition allocation_offset b (length_ : Z) : res (option Z) :=
  if len (pb_payload b) <? length_ then Ok None
  else if bool_decide (pb_len b = 0%nat) then Ok (Some 0)
  else
    first ← at_slot (pb_metadata b) (pb_head b);
    i ← meta_index b (pb_len b - 1);
    last ← at_slot (pb_metadata b) i;
    let first_off := pm_offset first in
    let last_end := pm_offset last + pm_len last in
    if first_off <=? last_end then
      if length_ <=? saturating_sub (len (pb_payload b)) last_end then Ok (Some last_end)
      else if length_ <=? first_off then Ok (Some 0)
      else Ok None
    else if length_ <=? saturating_sub first_off last_end then Ok (Some last_end)
    else Ok None.

Definition pb_enqueue (meta : M) (data : list Z) : st (PacketBuffer M) unit := λ b,
  if bool_decide (pb_metadata b = []) || bool_decide (pb_len b = length (pb_metadata b)) then (b, Err BufferFull)
  else
    match
      o ← allocation_offset b (len data);
      offset ← ok_or o BufferFull;
      idx ← meta_index b (pb_len b);
      payload ← copy_at (pb_payload b) offset data;
      metadata ← put_slot (pb_metadata b) idx (mkMeta (Some meta) offset (len data));
      Ok (mkPackets metadata payload (pb_head b) (S (pb_len b)) (pb_used_bytes b + len data))
    with
    | Ok b' => (b', Ok tt)
    | Err e => (b, Err e)
    | Panic => (b, Panic)
    end.

Definition pb_peek b : res (option (M * list Z)) :=
  if bool_decide (pb_len b = 0%nat) then Ok None
  else
    slot ← at_slot (pb_metadata b) (pb_head b);
    match pm_meta slot with
    | None => Ok None
    | Some meta => d ← get_slice (pb_payload b) (pm_offset slot) (pm_offset slot + pm_len slot); Ok (Some (meta, d))
    end.

(** Forget the oldest slot. *)
Definition pb_release b (slot : PacketMetadata M) : res (PacketBuffer M) :=
  metadata ← put_slot (pb_metadata b) (pb_head b) PacketMetadata_EMPTY;
  head ← rem_or_panic (S (pb_head b)) (length (pb_metadata b));
  let n := (pb_len b - 1)%nat in
  Ok (mkPackets metadata (pb_payload b) (if bool_decide (n = 0%nat) then 0%nat else head) n
        (saturating_sub (pb_used_bytes b) (pm_len slot))).

(** The caller's buffer is returned with the result. *)
Definition dequeue_into (out : list Z) : st (PacketBuffer M) (option (M * Z) * list Z) := λ b,
  if bool_decide (pb_len b = 0%nat) then (b, Ok (None, out))
  else
    match
      slot ← at_slot (pb_metadata b) (pb_head b);
      meta ← ok_or (pm_meta slot) InvalidState;
      fail_if (len out <? pm_len slot) BufferFull;;
      d ← get_slice (pb_payload b) (pm_offset slot) (pm_offset slot + pm_len slot);
      out ← copy_at out 0 d;
      b' ← pb_release b slot;
      Ok (b', (Some (meta, pm_len slot), out))
    with
    | Ok (b', r) => (b', Ok r)
    | Err e => (b, Err e)
    | Panic => (b, Panic)
    end.

Definition drop_front : st (PacketBuffer M) (option M) := λ b,
  if bool_decide (pb_len b = 0%nat) then (b, Ok None)
  else
    match at_slot (pb_metadata b) (pb_head b) with
    | Ok slot =>
        match pm_meta slot with
        | None => (b, Ok None)
        | Some meta =>
            match pb_release b slot with
            | Ok b' => (b', Ok (Some meta))
            | Err e => (b, Err e)
            | Panic => (b, Panic)
            end
        end
    | Err e => (b, Err e)
    | Panic => (b, Panic)
    end.

Definition pb_clear b : PacketBuffer M := mkPackets ((λ _, PacketMetadata_EMPTY) <$> pb_metadata b) (pb_payload b) 0 0 0.

End packets.

(** ** MessagePool *)

Record MessageSlot (M : Type) : Type := mkSlot { ms_meta : option M; ms_len : Z }.
Arguments mkSlot {M}. Arguments ms_meta {M}. Arguments ms_len {M}.
Definition MessageSlot_EMPTY {M} : MessageSlot M := mkSlot None 0.
Definition ms_is_used {M} (s : MessageSlot M) : bool := bool_decide (is_Some (ms_meta s)).

Record MessagePool (M : Type) : Type := mkPool { mp_slots : list (MessageSlot M); mp_bytes : list Z; mp_slot_size : Z }.
Arguments mkPool {M}. Arguments mp_slots {M}. Arguments mp_bytes {M}. Arguments mp_slot_size {M}.

Section pool.
Context {M : Type}.
Implicit Types p : MessagePool M.

Definition mp_new (slots : list (MessageSlot M)) (bytes : list Z) : res (MessagePool M) :=
  fail_if (bool_decide (slots = []) || (len bytes <? len slots)) InvalidLength;;
  let slot_size := len bytes / len slots in
  fail_if (slot_size =? 0) InvalidLength;;
  Ok (mkPool ((λ _, MessageSlot_EMPTY) <$> slots) bytes slot_size).

Definition mp_capacity p : Z := len (mp_slots p).
Definition mp_used p : Z := len (filter (λ s, is_Some (ms_meta s)) (mp_slots p)).
Definition mp_free p : Z := saturating_sub (mp_capacity p) (mp_used p).

(** The first free slot. *)
Definition mp_position p : option nat := fst <$> list_find (λ s, ms_meta s = None) (mp_slots p).

Definition mp_insert (meta : M) (data : list Z) : st (MessagePool M) nat := λ p,
  if mp_slot_size p <? len data then (p, Err MessageTooLarge)
  else match mp_position p with
  | None => (p, Err BufferFull)
  | Some idx =>
      match
        bytes ← copy_at (mp_bytes p) (Z.of_nat idx * mp_slot_size p) data;
        slots ← put_slot (mp_slots p) idx (mkSlot (Some meta) (len data));
        Ok (mkPool slots bytes (mp_slot_size p))
      with
      | Ok p' => (p', Ok idx)
      | Err e => (p, Err e)
      | Panic => (p, Panic)
      end
  end.

Definition mp_get p (idx : nat) : res (option (M * list Z)) :=
  match mp_slots p !! idx with
  | None => Ok None
  | Some slot =>
      match ms_meta slot with
      | None => Ok None
      | Some meta =>
          let start := Z.of_nat idx * mp_slot_size p in
          d ← get_slice (mp_bytes p) start (start + ms_len slot); Ok (Some (meta, d))
      end
  end.

Definition mp_meta p (idx : nat) : option M := slot ← mp_slots p !! idx; ms_meta slot.

Definition mp_set_meta (idx : nat) (meta : M) : st (MessagePool M) unit := λ p,
  match mp_slots p !! idx with
  | None => (p, Err InvalidField)
  | Some slot =>
      if bool_decide (ms_meta slot = None) then (p, Err InvalidState)
      else (mkPool (<[idx := mkSlot (Some meta) (ms_len slot)]> (mp_slots p)) (mp_bytes p) (mp_slot_size p), Ok tt)
  end.

Definition mp_release (idx : nat) p : MessagePool M :=
  mkPool (<[idx := MessageSlot_EMPTY]> (mp_slots p)) (mp_bytes p) (mp_slot_size p).

Definition mp_remove_into (idx : nat) (out : list Z) : st (MessagePool M) (M * Z * list Z) := λ p,
  match
    slot ← ok_or (mp_slots p !! idx) InvalidField;
    meta ← ok_or (ms_meta slot) InvalidState;
    fail_if (len out <? ms_len slot) BufferFull;;
    let start := Z.of_nat idx * mp_slot_size p in
    d ← get_slice (mp_bytes p) start (start + ms_len slot);
    out ← copy_at out 0 d;
    Ok (meta, ms_len slot, out)
  with
  | Ok r => (mp_release idx p, Ok r)
  | Err e => (p, Err e)
  | Panic => (p, Panic)
  end.

Definition mp_remove (idx : nat) : st (MessagePool M) M := λ p,
  match (slot ← ok_or (mp_slots p !! idx) InvalidField; ok_or (ms_meta slot) InvalidState) with
  | Ok meta => (mp_release idx p, Ok meta)
  | Err e => (p, Err e)
  | Panic => (p, Panic)
  end.

Definition mp_clear p : MessagePool M := mkPool ((λ _, MessageSlot_EMPTY) <$> mp_slots p) (mp_bytes p) (mp_slot_size p).

Definition mp_find p (predicate : M → bool) : option nat :=
  fst <$> list_find (λ s, (match ms_meta s with Some m => predicate m | None => false end) = true) (mp_slots p).

(** What [for_each] visits, in order. *)
Definition mp_entries p : list (nat * M) :=
  omap (λ '(i, s), m ← ms_meta s; Some (i, m)) (imap pair (mp_slots p)).

End pool.

(** ** Circular slots

    [live h n l]: the [n] slots from [h], wrapping around. *)
Definition live {A} (h n : nat) (l : list A) : list A := take n (drop h l ++ take h l).

Section live.
Context {A : Type}.
Implicit Types l : list A.

Lemma wrap_index (h i L : nat) : (h < L → i < L → (h + i) mod L = if decide (h + i < L) then h + i else h + i - L)%nat.
Proof.
  intros Hh Hi. case_decide; [by rewrite Nat.mod_small |].
  rewrite <- (Nat.mod_small (h + i - L) L) by lia. replace (h + i)%nat with (h + i - L + 1 * L)%nat at 1 by lia.
  by rewrite Nat.Div0.mod_add.
Qed.

Lemma live_lookup h n l i :
  (h < length l)%nat → (n ≤ length l)%nat →
  live h n l !! i = if decide (i < n)%nat then l !! ((h + i) mod length l)%nat else None.
Proof.
  intros Hh Hn. unfold live. case_decide as Hi; [| by rewrite lookup_take_ge by lia].
  rewrite lookup_take_lt, wrap_index by lia. case_decide.
  - rewrite lookup_app_l by (rewrite length_drop; lia). by rewrite lookup_drop.
  - rewrite lookup_app_r by (rewrite length_drop; lia). rewrite length_drop, lookup_take_lt by lia. f_equal. lia.
Qed.

Lemma length_live h n l : (h < length l)%nat → (n ≤ length l)%nat → length (live h n l) = n.
Proof. intros. unfold live. rewrite length_take, length_app, length_drop, length_take. lia. Qed.

Lemma live_0 h l : live h 0 l = [].
Proof. done. Qed.

Lemma wrap_lt (a L : nat) : (0 < L → a mod L < L)%nat.
Proof. intros. apply Nat.mod_upper_bound. lia. Qed.

Lemma wrap_inj (h i j L : nat) : (h < L → i < L → j < L → (h + i) mod L = (h + j) mod L → i = j)%nat.
Proof. intros Hh Hi Hj. rewrite !wrap_index by lia. repeat case_decide; lia. Qed.

(** Writing the slot after the last one. *)
Lemma live_snoc h n l x :
  (h < length l)%nat → (n < length l)%nat →
  live h (S n) (<[((h + n) mod length l)%nat := x]> l) = live h n l ++ [x].
Proof.
  intros Hh Hn. apply list_eq. intros i. rewrite live_lookup by (rewrite length_insert; lia).
  rewrite length_insert. destruct (decide (i < n)%nat).
  - rewrite decide_True, lookup_app_l by (rewrite ?length_live; lia). rewrite live_lookup, decide_True by lia.
    apply list_lookup_insert_ne. intros E%wrap_inj; lia.
  - rewrite lookup_app_r by (rewrite length_live; lia). rewrite length_live by lia.
    destruct (decide (i = n)) as [-> |].
    + rewrite decide_True, Nat.sub_diag by lia. apply list_lookup_insert_eq, wrap_lt. lia.
    + rewrite decide_False by lia. symmetry. apply lookup_ge_None. cbn. lia.
Qed.

(** Dropping the first one, whatever is left in its slot. *)
Lemma live_cons h n l x l' :
  (h < length l)%nat → (S n ≤ length l)%nat → l !! h = Some x → length l' = length l →
  (∀ i, i ≠ h → l' !! i = l !! i) →
  live h (S n) l = x :: live (S h mod length l)%nat n l'.
Proof.
  intros Hh Hn Hx Hl Hl'. apply list_eq. intros i. rewrite live_lookup by lia. destruct i as [| i].
  - rewrite decide_True, Nat.add_0_r, Nat.mod_small by lia. done.
  - cbn [lookup list_lookup]. pose proof (wrap_lt (S h) (length l) ltac:(lia)).
    rewrite live_lookup, Hl by lia. destruct (decide (i < n)%nat).
    + rewrite !decide_True by lia. rewrite Nat.Div0.add_mod_idemp_l. replace (h + S i)%nat with (S h + i)%nat by lia.
      rewrite Hl'; [done |]. replace (S h + i)%nat with (h + S i)%nat by lia. rewrite wrap_index by lia.
      case_decide; lia.
    + by rewrite !decide_False by lia.
Qed.

(** The last slot. *)
Lemma live_last h n l :
  (h < length l)%nat → (S n ≤ length l)%nat → last (live h (S n) l) = l !! ((h + n) mod length l)%nat.
Proof.
  intros Hh Hn. rewrite last_lookup, length_live by lia. cbn [pred]. rewrite live_lookup, decide_True by lia. done.
Qed.
Lemma live_head h n l :
  (h < length l)%nat → (S n ≤ length l)%nat → head (live h (S n) l) = l !! h.
Proof.
  intros Hh Hn. rewrite head_lookup, live_lookup, decide_True, Nat.add_0_r, Nat.mod_small by lia. done.
Qed.
End live.

Lemma rem_or_panic_eq a b : b ≠ 0%nat → rem_or_panic a b = Ok (a mod b)%nat.
Proof. intros. unfold rem_or_panic. by rewrite decide_False. Qed.
Lemma put_slot_eq {A} (l : list A) i x : (i < length l)%nat → put_slot l i x = Ok (<[i := x]> l).
Proof. intros. unfold put_slot. by rewrite decide_True. Qed.
Lemma at_slot_eq {A} (l : list A) i x : l !! i = Some x → at_slot l i = Ok x.
Proof. unfold at_slot. by intros ->. Qed.

(** ** The ring buffer is a bounded queue *)

Definition rb_ok {T} (b : RingBuffer T) : Prop :=
  (rb_len b ≤ length (rb_storage b))%nat ∧ (rb_head b < length (rb_storage b) ∨ rb_head b = 0)%nat ∧
  (rb_len b = 0 → rb_head b = 0)%nat.
Definition rb_queue {T} (b : RingBuffer T) : list T := live (rb_head b) (rb_len b) (rb_storage b).

Inductive ring_reachable {T} (storage : list T) : RingBuffer T → Prop :=
  | ring_new : ring_reachable storage (rb_new storage)
  | ring_push b v : ring_reachable storage b → ring_reachable storage (rb_push_back v b).1
  | ring_pop b : ring_reachable storage b → ring_reachable storage (rb_pop_front b).1
  | ring_clear b : ring_reachable storage b → ring_reachable storage (rb_clear b).

Lemma rb_push_spec {T} (b : RingBuffer T) v :
  rb_ok b →
  if decide (rb_len b < length (rb_storage b))%nat
  then ∃ b', rb_push_back v b = (b', Ok tt) ∧ rb_ok b' ∧ rb_queue b' = rb_queue b ++ [v] ∧
    length (rb_storage b') = length (rb_storage b)
  else rb_push_back v b = (b, Err BufferFull).
Proof.
  intros (Hl & Hh & H0). unfold rb_push_back. destruct b as [s h n]. cbn [rb_storage rb_head rb_len] in *. case_decide.
  - rewrite !bool_decide_eq_false_2 by (first [lia | destruct s; cbn in *; [lia | done]]). cbn [orb].
    rewrite rem_or_panic_eq, bind_Ok_l, put_slot_eq by (first [lia | apply wrap_lt; lia]).
    eexists. split; [reflexivity |]. unfold rb_ok, rb_queue. cbn [rb_storage rb_head rb_len]. rewrite length_insert.
    split; [split_and!; lia |]. split; [apply live_snoc; lia | done].
  - by rewrite (bool_decide_eq_true_2 (n = length s)) by lia.
Qed.

Lemma rb_pop_spec {T} (b : RingBuffer T) :
  rb_ok b →
  match rb_queue b with
  | [] => rb_pop_front b = (b, Ok None) ∧ rb_front b = Ok None
  | v :: q => rb_front b = Ok (Some v) ∧ ∃ b', rb_pop_front b = (b', Ok (Some v)) ∧ rb_ok b' ∧ rb_queue b' = q ∧
      length (rb_storage b') = length (rb_storage b)
  end.
Proof.
  intros (Hl & Hh & H0). unfold rb_pop_front, rb_front, rb_queue. destruct b as [s h n]. cbn [rb_storage rb_head rb_len] in *.
  destruct n as [| n]; [by rewrite live_0 |].
  assert (Hlt : (h < length s)%nat) by lia. destruct (lookup_lt_is_Some_2 s h Hlt) as [v Hv].
  rewrite (live_cons h n s v s) by (done || lia). rewrite !bool_decide_eq_false_2 by lia.
  rewrite (at_slot_eq _ _ _ Hv). split; [done |]. rewrite !bind_Ok_l, rem_or_panic_eq by lia. rewrite bind_Ok_l.
  cbn [Nat.sub]. rewrite Nat.sub_0_r. eexists. split; [reflexivity |]. unfold rb_ok. cbn [rb_storage rb_head rb_len].
  pose proof (wrap_lt (S h) (length s) ltac:(lia)). split_and!; try case_bool_decide; subst; try lia; done.
Qed.

Lemma ring_reachable_ok {T} storage (b : RingBuffer T) :
  ring_reachable storage b → rb_ok b ∧ length (rb_storage b) = length storage.
Proof.
  induction 1 as [| b v _ [IH El] | b _ [IH El] | b _ [IH El]].
  - unfold rb_ok. cbn. lia.
  - pose proof (rb_push_spec b v IH) as H. case_decide; [| by rewrite H].
    destruct H as (b' & -> & Hok & _ & E). cbn. split; [done | congruence].
  - pose proof (rb_pop_spec b IH) as H. destruct (rb_queue b); [by destruct H as [-> _] |].
    destruct H as (_ & b' & -> & Hok & _ & E). cbn. split; [done | congruence].
  - unfold rb_ok. cbn. lia.
Qed.

(** ** The packet queue

    Where the payloads lie: [chain lo hi l] orders them in one run of the
    arena between [lo] and [hi]. *)
Definition pm_end {M} (s : PacketMetadata M) : Z := pm_offset s + pm_len s.

Fixpoint chain {M} (lo hi : Z) (l : list (PacketMetadata M)) : Prop :=
  match l with
  | [] => lo ≤ hi
  | s :: l => lo ≤ pm_offset s ∧ 0 ≤ pm_len s ∧ chain (pm_end s) hi l
  end.

(** The payloads lie in one run, or in a run up to the end of the arena
    followed by one from its start that stays in front of the oldest. *)
Definition layout {M} (cap : Z) (l : list (PacketMetadata M)) : Prop :=
  chain 0 cap l ∨
  ∃ s l1 t l2, l = (s :: l1) ++ (t :: l2) ∧ 0 < pm_len t ∧
    0 ≤ pm_offset s ∧ chain (pm_offset s) cap (s :: l1) ∧ chain 0 (pm_offset s) (t :: l2).

Definition pb_live {M} (b : PacketBuffer M) : list (PacketMetadata M) := live (pb_head b) (pb_len b) (pb_metadata b).
Definition sum_len {M} (l : list (PacketMetadata M)) : Z := foldr (λ s n, pm_len s + n) 0 l.

Record pb_ok {M} (b : PacketBuffer M) : Prop := {
  po_len : (pb_len b ≤ length (pb_metadata b))%nat;
  po_head : (pb_head b < length (pb_metadata b) ∨ pb_head b = 0)%nat;
  po_meta : Forall (λ s, is_Some (pm_meta s)) (pb_live b);
  po_layout : layout (len (pb_payload b)) (pb_live b);
  po_used : pb_used_bytes b = sum_len (pb_live b) }.

(** The packets in the queue, oldest first. *)
Definition packet_of {M} (payload : list Z) (s : PacketMetadata M) : option (M * list Z) :=
  m ← pm_meta s; Some (m, slice payload (pm_offset s) (pm_end s)).
Definition pb_queue {M} (b : PacketBuffer M) : list (M * list Z) := omap (packet_of (pb_payload b)) (pb_live b).

(** The newest payload ends exactly where the oldest one begins, with payload
    in the buffer: the state the offset search takes for an arena in one run. *)
Definition gap_closed {M} (b : PacketBuffer M) : Prop :=
  ∃ s t, head (pb_live b) = Some s ∧ last (pb_live b) = Some t ∧ pm_end t = pm_offset s ∧ pb_used_bytes b ≠ 0.

Section packet_lemmas.
Context {M : Type}.
Implicit Types (l : list (PacketMetadata M)) (s t : PacketMetadata M) (b : PacketBuffer M).

Lemma chain_le lo hi l : chain lo hi l → lo ≤ hi.
Proof. revert lo. induction l as [| s l IH]; intros lo; cbn; [done |]. intros (? & ? & H%IH). unfold pm_end in H. lia. Qed.
Lemma chain_weaken lo lo' hi hi' l : lo' ≤ lo → hi ≤ hi' → chain lo hi l → chain lo' hi' l.
Proof.
  revert lo lo'. induction l as [| s l IH]; intros lo lo' Hlo Hhi; cbn; [lia |].
  intros (? & ? & H). split_and!; [lia.. |]. eapply (IH (pm_end s)); [lia | done | done].
Qed.
Lemma chain_app lo hi l k : chain lo hi (l ++ k) ↔ ∃ mid, chain lo mid l ∧ chain mid hi k.
Proof.
  revert lo. induction l as [| s l IH]; intros lo; cbn.
  - split; [intros H; exists lo; split; [lia | done] |]. intros (mid & ? & H). eapply chain_weaken; [| | exact H]; lia.
  - rewrite IH. naive_solver.
Qed.
Lemma chain_snoc lo hi l t : chain lo hi (l ++ [t]) ↔ chain lo (pm_offset t) l ∧ 0 ≤ pm_len t ∧ pm_end t ≤ hi.
Proof.
  rewrite chain_app. split.
  - intros (mid & H1 & H2 & H3 & H4). cbn in H4. split; [| done]. eapply chain_weaken; [| exact H2 | exact H1]. lia.
  - intros (H1 & H2 & H3). exists (pm_offset t). cbn. split_and!; try done; lia.
Qed.
Lemma chain_bounds lo hi l : chain lo hi l → Forall (λ s, lo ≤ pm_offset s ∧ 0 ≤ pm_len s ∧ pm_end s ≤ hi) l.
Proof.
  revert lo. induction l as [| s l IH]; intros lo; [constructor |]. intros (H1 & H2 & H3). pose proof (chain_le _ _ _ H3).
  constructor; [lia |]. eapply Forall_impl; [exact (IH _ H3) |]. cbn. unfold pm_end in *. lia.
Qed.
Lemma sum_len_cons s l : sum_len (s :: l) = pm_len s + sum_len l.
Proof. done. Qed.
Lemma chain_sum lo hi l : chain lo hi l → 0 ≤ sum_len l ≤ hi - lo.
Proof.
  revert lo. induction l as [| s l IH]; intros lo; [cbn; lia |].
  intros (H1 & H2 & H3%IH). rewrite sum_len_cons. unfold pm_end in *. lia.
Qed.
Lemma sum_len_app l k : sum_len (l ++ k) = sum_len l + sum_len k.
Proof. induction l as [| s l IH]; [done |]. cbn [app]. rewrite !sum_len_cons, IH. lia. Qed.

Lemma layout_bounds cap l : layout cap l → Forall (λ s, 0 ≤ pm_offset s ∧ 0 ≤ pm_len s ∧ pm_end s ≤ cap) l.
Proof.
  intros [H | (s & l1 & t & l2 & -> & Ht & H0 & H1 & H2)]; [by apply chain_bounds in H |].
  pose proof (chain_le _ _ _ H1). apply chain_bounds in H1, H2. apply Forall_app. split.
  - eapply Forall_impl; [exact H1 |]. cbn. lia.
  - eapply Forall_impl; [exact H2 |]. cbn. lia.
Qed.

Lemma layout_sum cap l : layout cap l → 0 ≤ sum_len l.
Proof.
  intros Hb%layout_bounds. induction Hb as [| x l Hx _ IH]; [done |]. rewrite sum_len_cons. lia.
Qed.

(** Removing the oldest packet. *)
Lemma layout_tail cap s l : layout cap (s :: l) → layout cap l.
Proof.
  intros [(H1 & H2 & H3) | (s' & l1 & t & l2 & E & Ht & H0 & (H1 & H2 & H3) & H4)].
  - left. eapply chain_weaken; [| | exact H3]; unfold pm_end in *; lia.
  - injection E as <- ->. destruct l1 as [| s1 l1].
    + left. cbn in H3. eapply chain_weaken; [| | exact H4]; unfold pm_end in *; lia.
    + right. exists s1, l1, t, l2. pose proof H3 as (H5 & H6 & H7).
      split; [done |]. split; [done |]. split; [unfold pm_end in *; lia |]. split.
      * split; [lia | done].
      * eapply chain_weaken; [| | exact H4]; unfold pm_end in *; lia.
Qed.

(** A payload written where no live one lies. *)
Lemma slice_splice_disjoint {A} (buf src : list A) (a b o : Z) :
  0 ≤ o → o + len src ≤ len buf → 0 ≤ a → a ≤ b → b ≤ o ∨ o + len src ≤ a →
  slice (splice buf o src) a b = slice buf a b.
Proof.
  intros Ho Hl Ha Hab Hd. pose proof (len_nonneg src). unfold splice.
  assert (Ht : len (take (Z.to_nat o) buf) = o) by (rewrite len_take; lia). destruct Hd as [Hd | Hd].
  - rewrite slice_app_l by (rewrite ?Ht; lia). unfold slice.
    rewrite <- (take_drop (Z.to_nat o) buf) at 2. rewrite drop_app_le by (unfold len in Ht; lia).
    rewrite take_app_le; [done |]. rewrite length_drop. unfold len in Ht. lia.
  - rewrite !slice_app_r by (rewrite ?Ht; lia). rewrite Ht. unfold slice. rewrite drop_drop. f_equal; [lia |]. f_equal. lia.
Qed.
Lemma slice_splice_same {A} (buf src : list A) (o : Z) :
  0 ≤ o → o + len src ≤ len buf → slice (splice buf o src) o (o + len src) = src.
Proof.
  intros Ho Hl. pose proof (len_nonneg src). unfold splice.
  assert (Ht : len (take (Z.to_nat o) buf) = o) by (rewrite len_take; lia).
  rewrite slice_app_r by (rewrite Ht; lia). rewrite Ht, slice_app_l by lia. apply slice_full; lia.
Qed.

(** ** Allocation *)

(** [n] bytes at [o] reach no live payload, and leave the layout valid. *)
Definition fits (cap : Z) l (o n : Z) : Prop :=
  0 ≤ o ∧ o + n ≤ cap ∧ Forall (λ s, pm_end s ≤ o ∨ o + n ≤ pm_offset s) l ∧
  ∀ m, layout cap (l ++ [mkMeta m o n]).

Lemma fits_empty cap n : 0 ≤ n ≤ cap → fits cap [] 0 n.
Proof. intros. split_and!; [lia | lia | constructor |]. intros m. left. cbn. unfold pm_end. cbn. lia. Qed.

(** What the offset search finds when the arena is in one run. *)
Lemma fits_run cap s l t n :
  head (l ++ [t]) = Some s → chain 0 cap (l ++ [t]) → 0 ≤ n → pm_end t + n ≤ cap → fits cap (l ++ [t]) (pm_end t) n.
Proof.
  intros Hs Hc Hn Hf. pose proof Hc as (Hl & Ht & Hte)%chain_snoc.
  pose proof (chain_bounds _ _ _ Hc) as Hb. apply Forall_app in Hb as [_ Hb]. apply Forall_cons in Hb as [Hb _].
  split_and!; [unfold pm_end in *; lia | lia | |].
  - apply Forall_app. split; [| constructor; [by left | constructor]].
    eapply Forall_impl; [exact (chain_bounds _ _ _ Hl) |]. cbn. unfold pm_end in *. lia.
  - intros m. left. apply chain_snoc. cbn. split; [| unfold pm_end in *; cbn; lia].
    apply chain_snoc. split_and!; [done | done | lia].
Qed.

(** The start of the arena, in front of the oldest payload. *)
Lemma fits_wrap cap s l n :
  chain 0 cap (s :: l) → 0 < n ≤ pm_offset s → fits cap (s :: l) 0 n.
Proof.
  intros Hc Hn. pose proof (chain_bounds _ _ _ Hc) as Hb. destruct Hc as (H1 & H2 & H3).
  pose proof (chain_le _ _ _ H3). split_and!; [lia | unfold pm_end in *; lia | |].
  - constructor; [lia |]. eapply Forall_impl; [exact (chain_bounds _ _ _ H3) |]. cbn. unfold pm_end in *. lia.
  - intros m. right. exists s, l, (mkMeta m 0 n), []. split; [done |]. cbn [pm_len]. split; [lia |]. split; [lia |].
    split; [split_and!; [lia | done | done] |]. cbn. unfold pm_end. cbn. lia.
Qed.

(** The gap between the two runs. *)
Lemma fits_gap cap s l1 l2 t n :
  0 ≤ pm_offset s → chain (pm_offset s) cap (s :: l1) → chain 0 (pm_offset s) (l2 ++ [t]) →
  (∃ q k, l2 ++ [t] = q :: k ∧ 0 < pm_len q) →
  0 ≤ n → pm_end t + n ≤ pm_offset s → fits cap ((s :: l1) ++ (l2 ++ [t])) (pm_end t) n.
Proof.
  intros H0 H1 H2 (q & k & Eq & Hq) Hn Hf. pose proof (chain_bounds _ _ _ H1) as Hb1. pose proof (chain_bounds _ _ _ H2) as Hb2.
  pose proof H2 as (Hl & Ht & Hte)%chain_snoc. pose proof (chain_le _ _ _ H1).
  apply Forall_app in Hb2 as [_ Hb2]. apply Forall_cons in Hb2 as [Hb2 _].
  split_and!; [unfold pm_end in *; lia | lia | |].
  - apply Forall_app. split; [eapply Forall_impl; [exact Hb1 |]; cbn; lia |].
    apply Forall_app. split; [| constructor; [by left | constructor]].
    eapply Forall_impl; [exact (chain_bounds _ _ _ Hl) |]. cbn. unfold pm_end in *. lia.
  - intros m. right. exists s, l1, q, (k ++ [mkMeta m (pm_end t) n]). split.
    + rewrite <- app_assoc, Eq. done.
    + split; [done |]. split; [done |]. split; [done |]. change (chain 0 (pm_offset s) ((q :: k) ++ [mkMeta m (pm_end t) n])).
      rewrite <- Eq. apply chain_snoc. cbn. split; [| unfold pm_end in *; cbn; lia].
      apply chain_snoc. split_and!; [done | done | lia].
Qed.
End packet_lemmas.

(** The offset search, on the first and the last live slot. *)
Definition search (cap : Z) (first_off last_end n : Z) : option Z :=
  if first_off <=? last_end then
    if n <=? saturating_sub cap last_end then Some last_end else if n <=? first_off then Some 0 else None
  else if n <=? saturating_sub first_off last_end then Some last_end else None.

Lemma search_fits {M} cap (l : list (PacketMetadata M)) s t n o :
  layout cap l → head l = Some s → last l = Some t → 0 ≤ n →
  (pm_end t ≠ pm_offset s ∨ sum_len l = 0) →
  search cap (pm_offset s) (pm_end t) n = Some o → fits cap l o n.
Proof.
  intros Hl Hs Ht Hn Hg. unfold search. pose proof (layout_bounds _ _ Hl) as Hb.
  apply last_Some in Ht as [k ->]. destruct Hl as [Hc | (s' & l1 & q & l2 & E & Hq & H0 & H1 & H2)].
  - pose proof (chain_bounds _ _ _ Hc) as Hcb. apply Forall_app in Hcb as [_ Hcb]. apply Forall_cons in Hcb as [Hcb _].
    assert (Hle : pm_offset s ≤ pm_end t).
    { destruct k as [| s' k]; cbn in Hs; injection Hs as <-; [unfold pm_end; lia |].
      destruct Hc as (? & ? & Hc). apply chain_le in Hc as ?. apply chain_bounds in Hc.
      apply Forall_app in Hc as [_ Hc]. apply Forall_cons in Hc as [Hc _]. unfold pm_end in *. lia. }
    replace (pm_offset s <=? pm_end t) with true by lia. destruct (Z.leb_spec n (saturating_sub cap (pm_end t))).
    + intros [= <-]. eapply fits_run; [exact Hs | done | done | unfold saturating_sub in *; lia].
    + destruct (Z.leb_spec n (pm_offset s)); [| done]. intros [= <-].
      destruct (k ++ [t]) as [| s' k'] eqn:E; [by destruct k |]. cbn in Hs. injection Hs as ->.
      apply fits_wrap; [done |]. unfold saturating_sub in *. lia.
  - assert (s' = s) as -> by (rewrite E in Hs; cbn in Hs; congruence).
    assert (Ek : ∃ k2, q :: l2 = k2 ++ [t]).
    { destruct (exists_last (l := q :: l2)) as (k2 & t' & E2); [done |]. rewrite E2, app_assoc in E.
      apply app_inj_tail in E as [_ ->]. by exists k2. }
    destruct Ek as [k2 E2]. rewrite E2 in H2, E. rewrite app_assoc in E. apply app_inj_tail in E as [-> _].
    pose proof (chain_bounds _ _ _ H2) as Hb2. apply Forall_app in Hb2 as [_ Hb2]. apply Forall_cons in Hb2 as [Hb2 _].
    assert (Hne : pm_end t ≠ pm_offset s).
    { destruct Hg as [|Hg]; [done |]. rewrite <- app_assoc, sum_len_app in Hg.
      apply chain_sum in H1. apply chain_sum in H2 as H2s. rewrite <- E2 in Hg, H2. rewrite !sum_len_cons in *.
      destruct H2 as (_ & _ & H2%chain_sum). lia. }
    replace (pm_offset s <=? pm_end t) with false by lia.
    destruct (Z.leb_spec n (saturating_sub (pm_offset s) (pm_end t))); [| done]. intros [= <-].
    rewrite <- app_assoc. apply fits_gap; try done; [| unfold saturating_sub in *; lia]. exists q, l2. by rewrite E2.
Qed.

Section packet_queue.
Context {M : Type}.
Implicit Types (b : PacketBuffer M) (l : list (PacketMetadata M)).

Lemma queue_splice payload l (d : list Z) o :
  0 ≤ o → o + len d ≤ len payload → Forall (λ s, 0 ≤ pm_offset s ∧ 0 ≤ pm_len s ∧ pm_end s ≤ len payload) l →
  Forall (λ s, pm_end s ≤ o ∨ o + len d ≤ pm_offset s) l →
  omap (packet_of (splice payload o d)) l = omap (packet_of payload) l.
Proof.
  intros Ho Hl Hb Hd. induction l as [| s l IH]; [done |].
  apply Forall_cons in Hb as [Hs Hb]. apply Forall_cons in Hd as [Hds Hd].
  assert (E : packet_of (splice payload o d) s = packet_of payload s)
    by (unfold packet_of; by rewrite slice_splice_disjoint by (unfold pm_end in *; lia)).
  cbn [omap list_omap]. by rewrite E, IH.
Qed.

Lemma pb_search b n :
  pb_ok b → pb_len b ≠ 0%nat → 0 ≤ n ≤ len (pb_payload b) →
  ∃ s t, head (pb_live b) = Some s ∧ last (pb_live b) = Some t ∧
    allocation_offset b n = Ok (search (len (pb_payload b)) (pm_offset s) (pm_end t) n).
Proof.
  intros [Hlen Hhead _ _ _] Hne Hn. destruct b as [ms payload h k u]. unfold pb_live, allocation_offset, meta_index in *.
  cbn [pb_metadata pb_payload pb_head pb_len] in *. destruct k as [| k]; [done |].
  assert (Hh : (h < length ms)%nat) by lia. destruct (lookup_lt_is_Some_2 ms h Hh) as [s Hs].
  destruct (lookup_lt_is_Some_2 ms ((h + k) mod length ms)) as [t Ht]; [apply wrap_lt; lia |].
  exists s, t. rewrite live_head, live_last by lia. split; [done |]. split; [done |].
  replace (len payload <? n) with false by lia. rewrite bool_decide_eq_false_2 by lia.
  rewrite (at_slot_eq _ _ _ Hs), bind_Ok_l. cbn [Nat.sub]. rewrite Nat.sub_0_r, rem_or_panic_eq, bind_Ok_l by lia.
  rewrite (at_slot_eq _ _ _ Ht), bind_Ok_l. unfold search, pm_end. repeat case_match; done.
Qed.

(** Where an accepted payload goes. *)
Lemma allocation_spec b n :
  pb_ok b → ¬ gap_closed b → 0 ≤ n →
  match allocation_offset b n with
  | Ok (Some o) => fits (len (pb_payload b)) (pb_live b) o n
  | Ok None => True
  | _ => False
  end.
Proof.
  intros Hok Hgap Hn. destruct (Z.ltb_spec (len (pb_payload b)) n) as [Hbig | Hfit].
  { unfold allocation_offset. replace (len (pb_payload b) <? n) with true by lia. done. }
  destruct (decide (pb_len b = 0%nat)) as [H0 | H0].
  - unfold allocation_offset. replace (len (pb_payload b) <? n) with false by lia.
    rewrite bool_decide_eq_true_2 by done. unfold pb_live. rewrite H0. apply fits_empty. lia.
  - destruct (pb_search b n Hok H0) as (s & t & Hs & Ht & ->); [lia |].
    destruct (search _ _ _ _) as [o |] eqn:E; [| done]. eapply search_fits; try done; [apply Hok |].
    destruct (decide (pm_end t = pm_offset s)) as [Eg |]; [| by left]. right.
    destruct (decide (pb_used_bytes b = 0)) as [Eu |]; [by rewrite <- (po_used _ Hok) |].
    destruct Hgap. by exists s, t.
Qed.

Lemma pb_enqueue_spec b m d :
  pb_ok b → ¬ gap_closed b →
  match pb_enqueue m d b with
  | (b', Ok _) => pb_ok b' ∧ pb_queue b' = pb_queue b ++ [(m, d)] ∧
      length (pb_metadata b') = length (pb_metadata b) ∧ len (pb_payload b') = len (pb_payload b)
  | (b', Err e) => b' = b ∧ e = BufferFull
  | (_, Panic) => False
  end.
Proof.
  intros Hok Hgap. unfold pb_enqueue. destruct (_ || _) eqn:Hg; [done |].
  apply orb_false_iff in Hg as [_ Hfull%bool_decide_eq_false].
  pose proof (allocation_spec b (len d) Hok Hgap (len_nonneg d)) as Ha.
  destruct (allocation_offset b (len d)) as [[o |] | |]; [| done..]. destruct Ha as (Ho & Hol & Hd & Hlay).
  pose proof Hok as [Hlen Hhead Hmeta Hlayout Hused]. pose proof (layout_bounds _ _ Hlayout) as Hb.
  assert (Hh : (pb_head b < length (pb_metadata b))%nat) by lia.
  rewrite bind_Ok_l. cbn [ok_or]. rewrite bind_Ok_l. unfold meta_index. rewrite rem_or_panic_eq, bind_Ok_l by lia.
  rewrite copy_at_eq, bind_Ok_l by lia. rewrite put_slot_eq, bind_Ok_l by (apply wrap_lt; lia).
  assert (El : live (pb_head b) (S (pb_len b)) (<[((pb_head b + pb_len b) mod length (pb_metadata b))%nat :=
      mkMeta (Some m) o (len d)]> (pb_metadata b)) = pb_live b ++ [mkMeta (Some m) o (len d)])
    by (apply live_snoc; lia).
  cbn [pb_metadata pb_payload]. rewrite length_insert, len_splice by lia. split; [| split; [| done]].
  - split; unfold pb_live; cbn [pb_metadata pb_payload pb_head pb_len pb_used_bytes];
      rewrite ?length_insert, ?El, ?len_splice by lia; try lia.
    + apply Forall_app. split; [done |]. by repeat constructor.
    + apply Hlay.
    + rewrite sum_len_app, Hused. cbn. lia.
  - unfold pb_queue, pb_live. cbn [pb_metadata pb_payload pb_head pb_len]. rewrite El, omap_app, queue_splice by done.
    cbn. unfold packet_of. cbn. unfold pm_end. cbn. by rewrite slice_splice_same by lia.
Qed.

(** The oldest packet, and what remains once its slot is released. *)
Lemma pb_front_spec b :
  pb_ok b →
  match pb_queue b with
  | [] => pb_len b = 0%nat
  | (m, d) :: q => ∃ slot b', pb_len b ≠ 0%nat ∧ at_slot (pb_metadata b) (pb_head b) = Ok slot ∧ pm_meta slot = Some m ∧
      get_slice (pb_payload b) (pm_offset slot) (pm_offset slot + pm_len slot) = Ok d ∧ pm_len slot = len d ∧
      pb_release b slot = Ok b' ∧ pb_ok b' ∧ pb_queue b' = q ∧
      length (pb_metadata b') = length (pb_metadata b) ∧ pb_payload b' = pb_payload b
  end.
Proof.
  intros Hok. pose proof Hok as [Hlen Hhead Hmeta Hlayout Hused]. destruct (pb_len b) as [| k] eqn:Ek.
  { unfold pb_queue, pb_live. by rewrite Ek. }
  assert (Hh : (pb_head b < length (pb_metadata b))%nat) by lia.
  destruct (lookup_lt_is_Some_2 _ _ Hh) as [slot Hs].
  assert (El : pb_live b = slot :: live (S (pb_head b) mod length (pb_metadata b)) k
      (<[pb_head b := PacketMetadata_EMPTY]> (pb_metadata b))).
  { unfold pb_live. rewrite Ek. apply live_cons; try done; [apply length_insert |]. intros i Hi.
    by apply list_lookup_insert_ne. }
  unfold pb_queue. rewrite El in *. apply Forall_cons in Hmeta as [[m Hm] Hmeta].
  pose proof (layout_bounds _ _ Hlayout) as Hb. apply Forall_cons in Hb as [Hb _].
  cbn [omap list_omap]. unfold packet_of at 1. rewrite Hm. cbn [mbind option_bind].
  assert (Er : ∃ b', pb_release b slot = Ok b' ∧
    pb_live b' = live (S (pb_head b) mod length (pb_metadata b)) k (<[pb_head b := PacketMetadata_EMPTY]> (pb_metadata b)) ∧
    pb_payload b' = pb_payload b ∧ length (pb_metadata b') = length (pb_metadata b) ∧ pb_len b' = k ∧
    (pb_head b' < length (pb_metadata b) ∨ pb_head b' = 0)%nat ∧
    pb_used_bytes b' = saturating_sub (pb_used_bytes b) (pm_len slot)).
  { unfold pb_release. rewrite put_slot_eq, bind_Ok_l, rem_or_panic_eq, bind_Ok_l by lia. rewrite Ek. cbn [Nat.sub].
    rewrite Nat.sub_0_r. eexists. split; [reflexivity |]. unfold pb_live.
    cbn [pb_metadata pb_payload pb_head pb_len pb_used_bytes]. pose proof (wrap_lt (S (pb_head b)) (length (pb_metadata b)) ltac:(lia)).
    split; [| split_and!; try done; [apply length_insert | case_bool_decide; lia]].
    case_bool_decide; [| done]. subst k. done. }
  destruct Er as (b' & Er & El' & Ep & Em & Ek' & Eh & Eu). exists slot, b'.
  split; [lia |]. split; [by apply at_slot_eq |]. split; [done |].
  split; [apply get_slice_eq; unfold pm_end in *; lia |].
  split; [rewrite len_slice; unfold pm_end in *; lia |]. split; [done |].
  split; [| split; [by rewrite El', Ep | by split]].
  split; rewrite ?El', ?Ep, ?Em, ?Ek', ?Eu; try done; try lia.
  - by eapply layout_tail.
  - rewrite sum_len_cons in Hused. unfold saturating_sub. pose proof (layout_tail _ _ _ Hlayout) as Ht.
    pose proof (layout_sum _ _ Ht). lia.
Qed.
End packet_queue.

(** Buffers whose callers never enqueue while the gap is closed. *)
Inductive packets_reachable {M} (slots : nat) (arena : Z) : PacketBuffer M → Prop :=
  | pk_new metadata payload : length metadata = slots → len payload = arena →
      packets_reachable slots arena (pb_new metadata payload)
  | pk_enqueue b m d : packets_reachable slots arena b → ¬ gap_closed b → packets_reachable slots arena (pb_enqueue m d b).1
  | pk_dequeue b out : packets_reachable slots arena b → packets_reachable slots arena (dequeue_into out b).1
  | pk_drop b : packets_reachable slots arena b → packets_reachable slots arena (drop_front b).1
  | pk_clear b : packets_reachable slots arena b → packets_reachable slots arena (pb_clear b).

Lemma pb_fresh_ok {M} (ms : list (PacketMetadata M)) payload : pb_ok (mkPackets ms payload 0 0 0).
Proof.
  split; unfold pb_live; cbn [pb_metadata pb_payload pb_head pb_len pb_used_bytes]; rewrite ?live_0; try lia.
  - constructor.
  - left. cbn. apply len_nonneg.
  - done.
Qed.

Lemma dequeue_spec {M} (b : PacketBuffer M) out :
  pb_ok b →
  match pb_queue b with
  | [] => dequeue_into out b = (b, Ok (None, out)) ∧ drop_front b = (b, Ok None) ∧ pb_peek b = Ok None
  | (m, d) :: q => pb_peek b = Ok (Some (m, d)) ∧
      ∃ b', pb_ok b' ∧ pb_queue b' = q ∧ length (pb_metadata b') = length (pb_metadata b) ∧ pb_payload b' = pb_payload b ∧
      drop_front b = (b', Ok (Some m)) ∧
      dequeue_into out b = if len out <? len d then (b, Err BufferFull)
        else (b', Ok (Some (m, len d), d ++ drop (Z.to_nat (len d)) out))
  end.
Proof.
  intros Hok. pose proof (pb_front_spec b Hok) as H. unfold dequeue_into, drop_front, pb_peek.
  destruct (pb_queue b) as [| [m d] q]; [by rewrite (bool_decide_eq_true_2 _ H) |].
  destruct H as (slot & b' & Hne & Hs & Hm & Hd & Hl & Hr & Hok' & Hq & Em & Ep).
  rewrite (bool_decide_eq_false_2 _ Hne), Hs, !bind_Ok_l, Hm, Hd. split; [done |]. exists b'. rewrite Hr, Hl.
  split_and!; try done. cbn [ok_or]. rewrite bind_Ok_l.
  destruct (Z.ltb_spec (len out) (len d)); [done |]. cbn [fail_if]. rewrite !bind_Ok_l, copy_at_0 by lia. by rewrite !bind_Ok_l.
Qed.

Lemma packets_reachable_ok {M} slots arena (b : PacketBuffer M) :
  packets_reachable slots arena b → pb_ok b ∧ length (pb_metadata b) = slots ∧ len (pb_payload b) = arena.
Proof.
  induction 1 as [ms payload <- <- | b m d _ (IH & <- & <-) Hg | b out _ (IH & <- & <-) | b _ (IH & <- & <-) | b _ (IH & <- & <-)].
  - split; [apply pb_fresh_ok |]. cbn. by rewrite length_fmap.
  - pose proof (pb_enqueue_spec b m d IH Hg) as H. destruct (pb_enqueue m d b) as [b' [| |]]; cbn; [by destruct H as (? & _ & ? & ?) | | done].
    by destruct H as [-> _].
  - pose proof (dequeue_spec b out IH) as H. destruct (pb_queue b) as [| [m d] q]; [by destruct H as [-> _] |].
    destruct H as (_ & b' & Hok & _ & Em & Ep & _ & ->). destruct (len out <? len d); cbn; [done |]. by rewrite Em, Ep.
  - pose proof (dequeue_spec b [] IH) as H. destruct (pb_queue b) as [| [m d] q]; [by destruct H as (_ & -> & _) |].
    destruct H as (_ & b' & Hok & _ & Em & Ep & -> & _). cbn. by rewrite Em, Ep.
  - split; [apply pb_fresh_ok |]. cbn. by rewrite length_fmap.
Qed.

(** The ring buffer is a FIFO queue bounded by its storage: a push is
    refused exactly when as many elements wait as there are slots, and
    otherwise appends; a pop returns the oldest element; nothing panics. *)
Theorem ring_buffer_fifo {T} (storage : list T) b :
  ring_reachable storage b →
  length (rb_queue b) = rb_len b ∧ (rb_len b ≤ length storage)%nat ∧
  (∀ v, match rb_push_back v b with
    | (b', Ok _) => (rb_len b < length storage)%nat ∧ rb_queue b' = rb_queue b ++ [v]
    | (b', r) => rb_len b = length storage ∧ b' = b ∧ r = Err BufferFull
    end) ∧
  match rb_queue b with
  | [] => rb_pop_front b = (b, Ok None) ∧ rb_front b = Ok None
  | v :: q => rb_front b = Ok (Some v) ∧ (rb_pop_front b).2 = Ok (Some v) ∧ rb_queue (rb_pop_front b).1 = q
  end.
Proof.
  intros [Hok El]%ring_reachable_ok. pose proof Hok as (Hl & Hh & _). split; [| split; [lia | split]].
  - unfold rb_queue. destruct (rb_storage b) as [| x s] eqn:Es.
    + cbn [length] in Hl. replace (rb_len b) with 0%nat by lia. done.
    + apply length_live; cbn [length] in *; lia.
  - intros v. pose proof (rb_push_spec b v Hok) as H. case_decide.
    + destruct H as (b' & -> & _ & Hq & _). split; [lia | done].
    + rewrite H. split_and!; [lia | done | done].
  - pose proof (rb_pop_spec b Hok) as H. destruct (rb_queue b); [done |].
    destruct H as (Hf & b' & -> & _ & Hq & _). done.
Qed.

(** C16: the packet buffer is a FIFO queue of packets: as long as nothing is
    enqueued while the newest payload ends exactly where the oldest begins, an
    accepted packet is appended and every packet keeps its bytes, a refused
    one changes nothing, a dequeue hands out the oldest packet intact, and no
    call panics. *)
Theorem packet_buffer_fifo {M} slots arena (b : PacketBuffer M) :
  packets_reachable slots arena b →
  (∀ m d, ¬ gap_closed b → match pb_enqueue m d b with
    | (b', Ok _) => pb_queue b' = pb_queue b ++ [(m, d)]
    | (b', r) => b' = b ∧ r = Err BufferFull
    end) ∧
  (∀ out, match pb_queue b with
    | [] => dequeue_into out b = (b, Ok (None, out)) ∧ drop_front b = (b, Ok None) ∧ pb_peek b = Ok None
    | (m, d) :: q => pb_peek b = Ok (Some (m, d)) ∧ (drop_front b).2 = Ok (Some m) ∧ pb_queue (drop_front b).1 = q ∧
        if len out <? len d then dequeue_into out b = (b, Err BufferFull)
        else (dequeue_into out b).2 = Ok (Some (m, len d), d ++ drop (Z.to_nat (len d)) out) ∧
          pb_queue (dequeue_into out b).1 = q
    end).
Proof.
  intros (Hok & _ & _)%packets_reachable_ok. split.
  - intros m d Hg. pose proof (pb_enqueue_spec b m d Hok Hg) as H.
    destruct (pb_enqueue m d b) as [b' [| |]]; [by destruct H as (_ & ? & _) | by destruct H as [-> ->] | done].
  - intros out. pose proof (dequeue_spec b out Hok) as H. destruct (pb_queue b) as [| [m d] q]; [done |].
    destruct H as (Hp & b' & _ & Hq & _ & _ & -> & ->). split; [done |]. split; [done |]. split; [done |].
    by destruct (len out <? len d).
Qed.

(** The packet buffer corrupts a waiting packet once the gap is closed.
    After two packets fill the arena, the oldest leaves and a third takes its
    place, the arena is full; yet a fourth packet is accepted, and the packet
    next in line comes out with the fourth one's bytes. *)
Theorem packet_buffer_overwrites :
  let b0 : PacketBuffer Z := pb_new (replicate 4 PacketMetadata_EMPTY) (zeros 8) in
  let b1 := (pb_enqueue 2 [2; 2; 2; 2] (pb_enqueue 1 [1; 1; 1; 1] b0).1).1 in
  let b2 := (pb_enqueue 3 [3; 3; 3; 3] (drop_front b1).1).1 in
  pb_peek b2 = Ok (Some (2, [2; 2; 2; 2])) ∧ gap_closed b2 ∧ pb_used_bytes b2 = len (pb_payload b2) ∧
  (pb_enqueue 4 [4; 4; 4; 4] b2).2 = Ok tt ∧
  pb_peek (pb_enqueue 4 [4; 4; 4; 4] b2).1 = Ok (Some (2, [4; 4; 4; 4])).
Proof.
  split; [vm_compute; reflexivity |]. split; [| vm_compute; done].
  eexists _, _. split; [vm_compute; reflexivity |]. split; [vm_compute; reflexivity |]. vm_compute. done.
Qed.

(** ** The message pool is a bounded map from slots to messages *)

Record pool_ok {M} (p : MessagePool M) : Prop := {
  lo_size : 0 < mp_slot_size p;
  lo_arena : len (mp_slots p) * mp_slot_size p ≤ len (mp_bytes p);
  lo_slots : Forall (λ s, 0 ≤ ms_len s ≤ mp_slot_size p) (mp_slots p) }.

(** The message in slot [i]. *)
Definition pool_view {M} (p : MessagePool M) (i : nat) : option (M * list Z) :=
  s ← mp_slots p !! i; m ← ms_meta s;
  let start := Z.of_nat i * mp_slot_size p in Some (m, slice (mp_bytes p) start (start + ms_len s)).

Section pool_lemmas.
Context {M : Type}.
Implicit Types p : MessagePool M.

Lemma pool_slot p i s :
  pool_ok p → mp_slots p !! i = Some s →
  let start := Z.of_nat i * mp_slot_size p in
  0 ≤ start ∧ 0 ≤ ms_len s ≤ mp_slot_size p ∧ start + mp_slot_size p ≤ len (mp_bytes p).
Proof.
  intros [Hs Ha Hl] Hi. cbv zeta. pose proof (Forall_lookup_1 _ _ _ _ Hl Hi) as Hsl. cbn in Hsl.
  apply lookup_lt_Some in Hi. split; [nia |]. split; [done |]. unfold len in Ha at 1. nia.
Qed.

Lemma mp_get_view p i : pool_ok p → mp_get p i = Ok (pool_view p i).
Proof.
  intros Hok. unfold mp_get, pool_view. destruct (mp_slots p !! i) as [s |] eqn:Es; cbn; [| done].
  destruct (ms_meta s) as [m |]; cbn; [| done]. pose proof (pool_slot p i s Hok Es). cbv zeta in *.
  by rewrite get_slice_eq by lia.
Qed.

Lemma mp_meta_view p i : mp_meta p i = fst <$> pool_view p i.
Proof.
  unfold mp_meta, pool_view. destruct (mp_slots p !! i) as [s |]; cbn; [| done]. by destruct (ms_meta s).
Qed.

Lemma mp_release_spec p i :
  pool_ok p → pool_ok (mp_release i p) ∧
  ∀ j, pool_view (mp_release i p) j = if decide (j = i) then None else pool_view p j.
Proof.
  intros Hok. pose proof Hok as [Hs Ha Hl]. split.
  - split; cbn [mp_release mp_slots mp_bytes mp_slot_size]; [done | |].
    + unfold len in *. by rewrite length_insert.
    + apply Forall_insert; [done |]. cbn. lia.
  - intros j. unfold pool_view. cbn [mp_release mp_slots mp_bytes mp_slot_size]. case_decide as Hj.
    + subst. destruct (decide (i < length (mp_slots p))%nat).
      * by rewrite list_lookup_insert_eq.
      * by rewrite lookup_ge_None_2 by (rewrite length_insert; lia).
    + by rewrite list_lookup_insert_ne.
Qed.

Lemma mp_position_spec p :
  match mp_position p with
  | Some i => ∃ s, mp_slots p !! i = Some s ∧ ms_meta s = None
  | None => ∀ i s, mp_slots p !! i = Some s → ms_meta s ≠ None
  end.
Proof.
  unfold mp_position. destruct (list_find _ _) as [[i s] |] eqn:E; cbn.
  - apply list_find_Some in E as (H1 & H2 & _). by exists s.
  - apply list_find_None in E. intros i s Hi. by apply (Forall_lookup_1 _ _ _ _ E Hi).
Qed.

Lemma pool_insert_spec p m d :
  pool_ok p →
  match mp_insert m d p with
  | (p', Ok i) => pool_ok p' ∧ pool_view p i = None ∧ (i < length (mp_slots p))%nat ∧ len d ≤ mp_slot_size p ∧
      mp_slot_size p' = mp_slot_size p ∧ length (mp_slots p') = length (mp_slots p) ∧
      (∀ j, pool_view p' j = if decide (j = i) then Some (m, d) else pool_view p j)
  | (p', Err e) => p' = p ∧ (e = MessageTooLarge ∧ mp_slot_size p < len d ∨
      e = BufferFull ∧ ∀ i, (i < length (mp_slots p))%nat → is_Some (pool_view p i))
  | (_, Panic) => False
  end.
Proof.
  intros Hok. pose proof Hok as [Hs Ha Hl]. unfold mp_insert. destruct (Z.ltb_spec (mp_slot_size p) (len d)) as [Hbig |].
  { split; [done |]. by left. }
  pose proof (mp_position_spec p) as Hpos. destruct (mp_position p) as [i |].
  - destruct Hpos as (s & Hi & Hfree). pose proof (pool_slot p i s Hok Hi) as Hsl. cbv zeta in Hsl.
    apply lookup_lt_Some in Hi as Hlt. pose proof (len_nonneg d).
    rewrite copy_at_eq, bind_Ok_l, put_slot_eq, bind_Ok_l by lia. cbn [mp_slots mp_bytes mp_slot_size].
    split; [| split; [| split; [done |]; split; [done |]; split; [done |]; split; [apply length_insert |]]].
    + split; cbn [mp_slots mp_bytes mp_slot_size]; [done | |].
      * rewrite len_splice by lia. unfold len in *. by rewrite length_insert.
      * apply Forall_insert; [done |]. cbn. lia.
    + unfold pool_view. rewrite Hi. cbn. by rewrite Hfree.
    + intros j. unfold pool_view. cbn [mp_slots mp_bytes mp_slot_size]. case_decide as Hj.
      * subst j. rewrite list_lookup_insert_eq by done. cbn. by rewrite slice_splice_same by lia.
      * rewrite list_lookup_insert_ne by done. destruct (mp_slots p !! j) as [t |] eqn:Et; cbn; [| done].
        destruct (ms_meta t); cbn; [| done]. pose proof (pool_slot p j t Hok Et) as Ht. cbv zeta in Ht.
        rewrite slice_splice_disjoint; [done | lia | lia | lia | lia |].
        destruct (decide (j < i)%nat); [left | right]; nia.
  - split; [done |]. right. split; [done |]. intros i Hi. destruct (lookup_lt_is_Some_2 _ _ Hi) as [s Es].
    unfold pool_view. rewrite Es. cbn. specialize (Hpos i s Es). destruct (ms_meta s); [by eexists | done].
Qed.

Lemma pool_remove_into_spec p i out :
  pool_ok p →
  match pool_view p i with
  | Some (m, d) => mp_remove_into i out p =
      if len out <? len d then (p, Err BufferFull)
      else (mp_release i p, Ok (m, len d, d ++ drop (Z.to_nat (len d)) out))
  | None => ∃ e, mp_remove_into i out p = (p, Err e)
  end.
Proof.
  intros Hok. unfold mp_remove_into, pool_view. destruct (mp_slots p !! i) as [s |] eqn:Es; cbn; [| by eexists].
  destruct (ms_meta s) as [m |]; cbn; [| by eexists]. pose proof (pool_slot p i s Hok Es) as Hsl. cbv zeta in Hsl.
  assert (El : len (slice (mp_bytes p) (Z.of_nat i * mp_slot_size p) (Z.of_nat i * mp_slot_size p + ms_len s)) = ms_len s)
    by (rewrite len_slice; lia). rewrite El.
  destruct (Z.ltb_spec (len out) (ms_len s)); [done |]. cbn [fail_if]. rewrite bind_Ok_l, get_slice_eq, bind_Ok_l by lia.
  rewrite copy_at_0 by lia. by rewrite bind_Ok_l, El.
Qed.

Lemma pool_remove_spec p i :
  match pool_view p i with
  | Some (m, d) => mp_remove i p = (mp_release i p, Ok m)
  | None => ∃ e, mp_remove i p = (p, Err e)
  end.
Proof.
  unfold mp_remove, pool_view. destruct (mp_slots p !! i) as [s |]; cbn; [| by eexists].
  destruct (ms_meta s); cbn; [done | by eexists].
Qed.

Lemma pool_set_meta_spec p i m :
  pool_ok p →
  match pool_view p i with
  | Some (_, d) => ∃ p', mp_set_meta i m p = (p', Ok tt) ∧ pool_ok p' ∧ mp_slot_size p' = mp_slot_size p ∧
      length (mp_slots p') = length (mp_slots p) ∧
      ∀ j, pool_view p' j = if decide (j = i) then Some (m, d) else pool_view p j
  | None => ∃ e, mp_set_meta i m p = (p, Err e)
  end.
Proof.
  intros [Hs Ha Hl]. unfold mp_set_meta. unfold pool_view at 1. destruct (mp_slots p !! i) as [s |] eqn:Es; cbn [mbind option_bind]; [| by eexists].
  destruct (ms_meta s) as [m0 |] eqn:Em; cbn [mbind option_bind]; [| by eexists]. rewrite bool_decide_eq_false_2 by done.
  eexists. split; [reflexivity |]. cbn [mp_slots mp_bytes mp_slot_size]. split; [| split; [done |]; split; [apply length_insert |]].
  - split; cbn [mp_slots mp_bytes mp_slot_size]; [done | |].
    + unfold len in *. by rewrite length_insert.
    + apply Forall_insert; [done |]. cbn. exact (Forall_lookup_1 _ _ _ _ Hl Es).
  - intros j. unfold pool_view. cbn [mp_slots mp_bytes mp_slot_size]. case_decide as Hj.
    + subst. rewrite list_lookup_insert_eq by by eapply lookup_lt_Some. done.
    + by rewrite list_lookup_insert_ne.
Qed.

Lemma pool_new_ok slots bytes p : mp_new slots bytes = Ok p →
  pool_ok p ∧ length (mp_slots p) = length slots ∧ mp_slot_size p = len bytes / len slots ∧ ∀ i, pool_view p i = None.
Proof.
  unfold mp_new. intros H. apply bind_Ok in H as (? & [Hg _]%fail_if_Ok & H). apply bind_Ok in H as (? & [Hz _]%fail_if_Ok & H).
  apply Ok_inj in H as <-. apply orb_false_iff in Hg as [Hne%bool_decide_eq_false Hl].
  assert (0 < len slots) by (unfold len; destruct slots; [done | cbn; lia]).
  split; [| split; [apply length_fmap | split; [done |]]].
  - split; cbn [mp_slots mp_bytes mp_slot_size].
    + pose proof (Z.div_pos (len bytes) (len slots)). lia.
    + assert (len ((λ _, @MessageSlot_EMPTY M) <$> slots) = len slots) as -> by (unfold len; by rewrite length_fmap).
      pose proof (Z.mul_div_le (len bytes) (len slots)). lia.
    + apply Forall_fmap, Forall_true. intros ?. cbn. pose proof (Z.div_pos (len bytes) (len slots)). lia.
  - intros i. unfold pool_view. cbn [mp_slots]. rewrite list_lookup_fmap. by destruct (slots !! i).
Qed.
End pool_lemmas.

Inductive pool_reachable {M} (n : nat) (size : Z) : MessagePool M → Prop :=
  | pl_new slots bytes p : mp_new slots bytes = Ok p → length slots = n → len bytes / len slots = size → pool_reachable n size p
  | pl_insert p m d : pool_reachable n size p → pool_reachable n size (mp_insert m d p).1
  | pl_set p i m : pool_reachable n size p → pool_reachable n size (mp_set_meta i m p).1
  | pl_remove p i : pool_reachable n size p → pool_reachable n size (mp_remove i p).1
  | pl_remove_into p i out : pool_reachable n size p → pool_reachable n size (mp_remove_into i out p).1
  | pl_clear p : pool_reachable n size p → pool_reachable n size (mp_clear p).

Lemma mp_clear_ok {M} (p : MessagePool M) : pool_ok p → pool_ok (mp_clear p).
Proof.
  intros [Hs Ha _]. split; cbn [mp_clear mp_slots mp_bytes mp_slot_size]; [done | |].
  - unfold len in *. by rewrite length_fmap.
  - apply Forall_fmap, Forall_true. intros ?. cbn. lia.
Qed.

Lemma pool_reachable_ok {M} n size (p : MessagePool M) :
  pool_reachable n size p → pool_ok p ∧ length (mp_slots p) = n ∧ mp_slot_size p = size.
Proof.
  induction 1 as [slots bytes p (H & El & Es & _)%pool_new_ok <- <- | p m d _ (IH & <- & <-) | p i m _ (IH & <- & <-)
    | p i _ (IH & <- & <-) | p i out _ (IH & <- & <-) | p _ (IH & <- & <-)].
  - done.
  - pose proof (pool_insert_spec p m d IH) as H. destruct (mp_insert m d p) as [p' [| |]]; cbn; [| by destruct H as [-> _] | done].
    by destruct H as (? & _ & _ & _ & ? & ? & _).
  - pose proof (pool_set_meta_spec p i m IH) as H. destruct (pool_view p i) as [[? d] |].
    + destruct H as (p' & -> & ? & ? & ? & _). done.
    + by destruct H as (e & ->).
  - pose proof (pool_remove_spec p i) as H. destruct (pool_view p i) as [[? d] |]; [| by destruct H as (e & ->)].
    rewrite H. split; [by apply mp_release_spec |]. cbn. by rewrite length_insert.
  - pose proof (pool_remove_into_spec p i out IH) as H. destruct (pool_view p i) as [[? d] |]; [| by destruct H as (e & ->)].
    rewrite H. destruct (_ <? _); [done |]. split; [by apply mp_release_spec |]. cbn. by rewrite length_insert.
  - split; [by apply mp_clear_ok |]. cbn. by rewrite length_fmap.
Qed.

(** The message pool keeps its promise: a message that fits a slot is
    refused only when every slot is taken, an accepted one is read back intact
    from the slot it was given until that slot is released, no operation
    disturbs another slot, and none panics. *)
Theorem message_pool_isolated {M} n size (p : MessagePool M) :
  pool_reachable n size p →
  (∀ i, mp_get p i = Ok (pool_view p i)) ∧
  (∀ m d, match mp_insert m d p with
    | (p', Ok i) => (i < n)%nat ∧ mp_get p i = Ok None ∧ len d ≤ size ∧
        ∀ j, mp_get p' j = if decide (j = i) then Ok (Some (m, d)) else mp_get p j
    | (p', Err e) => p' = p ∧ (e = MessageTooLarge ∧ size < len d ∨
        e = BufferFull ∧ ∀ i, (i < n)%nat → mp_get p i ≠ Ok None)
    | (_, Panic) => False
    end) ∧
  (∀ i out, match mp_remove_into i out p with
    | (p', Ok (m, k, out')) => ∃ d, mp_get p i = Ok (Some (m, d)) ∧ k = len d ∧ len out' = len out ∧
        slice out' 0 k = d ∧ ∀ j, mp_get p' j = if decide (j = i) then Ok None else mp_get p j
    | (p', r) => p' = p ∧ r ≠ Panic
    end).
Proof.
  intros (Hok & <- & <-)%pool_reachable_ok. split; [intros; by apply mp_get_view | split].
  - intros m d. pose proof (pool_insert_spec p m d Hok) as H. destruct (mp_insert m d p) as [p' [i | e |]]; [| | done].
    + destruct H as (Hok' & Hi & Hlt & Hd & _ & _ & Hv). split; [done |]. split; [by rewrite mp_get_view, Hi by done |].
      split; [done |]. intros j. rewrite !mp_get_view, Hv by done. by case_decide.
    + destruct H as [-> [[-> ?] | [-> H]]]; (split; [done |]); [by left | right]. split; [done |].
      intros i Hi. rewrite mp_get_view by done. destruct (H i Hi) as [x ->]. done.
  - intros i out. pose proof (pool_remove_into_spec p i out Hok) as H.
    destruct (pool_view p i) as [[m d] |] eqn:Ev; [| by destruct H as (e & ->)].
    rewrite H. destruct (Z.ltb_spec (len out) (len d)); [done |]. exists d. pose proof (len_nonneg d).
    rewrite mp_get_view, Ev by done. split; [done |]. split; [done |]. split; [len_goal |].
    split; [rewrite slice_app_l by lia; by apply slice_full |].
    intros j. destruct (mp_release_spec p i Hok) as [Hok' Hv]. rewrite !mp_get_view, Hv by done. by case_decide.
Qed.

(** ** Witnesses *)

Definition sample_ring : RingBuffer Z := (rb_push_back 3 (rb_pop_front (rb_push_back 2 (rb_push_back 1 (rb_new [0; 0])).1).1).1).1.

Lemma ring_buffer_fifo_witness :
  rb_queue sample_ring = [2; 3] ∧ (rb_pop_front sample_ring).2 = Ok (Some 2) ∧ length (rb_queue sample_ring) = rb_len sample_ring.
Proof.
  assert (Hr : ring_reachable [0; 0] sample_ring) by repeat constructor.
  destruct (ring_buffer_fifo [0; 0] sample_ring Hr) as (Hl & _ & _ & _).
  split; [reflexivity |]. split; [reflexivity | exact Hl].
Defined.

Definition sample_packets : PacketBuffer Z :=
  (pb_enqueue 2 [2; 2] (pb_enqueue 1 [1; 1; 1] (pb_new (replicate 3 PacketMetadata_EMPTY) (zeros 8))).1).1.

Lemma packet_buffer_fifo_witness :
  pb_peek sample_packets = Ok (Some (1, [1; 1; 1])) ∧ pb_queue (drop_front sample_packets).1 = [(2, [2; 2])] ∧
  (drop_front sample_packets).2 = Ok (Some 1).
Proof.
  assert (Hr : packets_reachable 3 8 sample_packets).
  { apply pk_enqueue; [apply pk_enqueue; [apply pk_new; reflexivity |] |].
    - intros (s & t & Hs & _). vm_compute in Hs. discriminate.
    - intros (s & t & Hs & Ht & E & _). vm_compute in Hs, Ht. injection Hs as <-. injection Ht as <-. vm_compute in E. discriminate. }
  destruct (packet_buffer_fifo 3 8 sample_packets Hr) as [_ H].
  destruct (H []) as (Hp & Hd & Hq & _). split; [exact Hp |]. split; [exact Hq | exact Hd].
Defined.

Definition sample_pool : MessagePool Z := mkPool [MessageSlot_EMPTY; MessageSlot_EMPTY] (zeros 16) 8.

Lemma message_pool_isolated_witness :
  (mp_insert 7 [5; 6] sample_pool).2 = Ok 0%nat ∧ mp_get (mp_insert 7 [5; 6] sample_pool).1 0 = Ok (Some (7, [5; 6])) ∧
  mp_get (mp_insert 7 [5; 6] sample_pool).1 1 = mp_get sample_pool 1.
Proof.
  assert (Hr : pool_reachable 2 8 sample_pool)
    by (apply (pl_new _ _ [MessageSlot_EMPTY; MessageSlot_EMPTY] (zeros 16)); reflexivity).
  destruct (message_pool_isolated 2 8 sample_pool Hr) as (_ & H & _). specialize (H 7 [5; 6]).
  split; [reflexivity |]. change (mp_insert 7 [5; 6] sample_pool) with
    ((mp_insert 7 [5; 6] sample_pool).1, @Ok nat 0%nat) in H. cbv iota beta in H. destruct H as (_ & _ & _ & H).
  split; [exact (H 0%nat) | exact (H 1%nat)].
Defined.
