(* ===== verification/Socket.v ===== *)
(** * Socket sets (src/src/socket.rs)

    Sockets in numbered slots, named by handles that carry the slot's
    generation. *)
From stdpp Require Import prelude.
From Stdlib Require Import ZArith Lia ZifyBool ZifyNat.
From S2P Require Import Prelude.
Local Open Scope Z_scope.

Record SocketHandle : Set := mkHandle { h_index : Z; h_generation : Z }.
#[export] Instance SocketHandle_eq_dec : EqDecision SocketHandle.
Proof. solve_decision. Defined.

Record SocketStorage (T : Type) : Type := mkStorage { ss_generation : Z; ss_value : option T }.
Arguments mkStorage {T}. Arguments ss_generation {T}. Arguments ss_value {T}.
Definition SocketStorage_EMPTY {T} : SocketStorage T := mkStorage 1 None.

(** [generation.wrapping_add(1).max(1)] *)
Definition next_generation (g : Z) : Z := Z.max 1 (wrapping_add 16 g 1).

Section sockets.
Context {T : Type}.
Notation storage := (list (SocketStorage T)).
Implicit Types s : storage.

(** [enumerate().find(|(_, s)| s.value.is_none())] *)
Definition free_slot s : option (nat * SocketStorage T) := list_find (λ x, ss_value x = None) s.

Definition socket_len s : Z := len (filter (λ x, is_Some (ss_value x)) s).

Definition fill_slot (i : nat) (slot : SocketStorage T) (value : T) : st storage SocketHandle := λ s,
  if 0xffff <? Z.of_nat i then (s, Err BufferFull)
  else (<[i := mkStorage (ss_generation slot) (Some value)]> s, Ok (mkHandle (as_u16 (Z.of_nat i)) (ss_generation slot))).

Definition socket_add (value : T) : st storage SocketHandle := λ s,
  match free_slot s with
  | None => (s, Err BufferFull)
  | Some (i, slot) => fill_slot i slot value s
  end.

Definition checked_slot (h : SocketHandle) s : res (SocketStorage T) :=
  slot ← ok_or (s !! Z.to_nat (h_index h)) InvalidField;
  fail_if (negb (ss_generation slot =? h_generation h) || negb (bool_decide (is_Some (ss_value slot)))) InvalidState;;
  Ok slot.

Definition socket_get (h : SocketHandle) s : res T :=
  slot ← checked_slot h s; ok_or (ss_value slot) InvalidState.

(** [*set.get_mut(h)? = f(..)] *)
Definition socket_update (h : SocketHandle) (f : T → T) : st storage unit := λ s,
  match (slot ← checked_slot h s; v ← ok_or (ss_value slot) InvalidState; Ok (slot, v)) with
  | Ok (slot, v) => (<[Z.to_nat (h_index h) := mkStorage (ss_generation slot) (Some (f v))]> s, Ok tt)
  | Err e => (s, Err e)
  | Panic => (s, Panic)
  end.

Definition socket_remove (h : SocketHandle) : st storage T := λ s,
  match (slot ← checked_slot h s; v ← ok_or (ss_value slot) InvalidState; Ok (slot, v)) with
  | Ok (slot, v) => (<[Z.to_nat (h_index h) := mkStorage (next_generation (ss_generation slot)) None]> s, Ok v)
  | Err e => (s, Err e)
  | Panic => (s, Panic)
  end.

Definition socket_iter s : list (SocketHandle * T) :=
  omap (λ '(i, slot), v ← ss_value slot; Some (mkHandle (as_u16 (Z.of_nat i)) (ss_generation slot), v)) (imap pair s).
(** [for (h, v) in set.iter_mut() { *v = f(h, v) }] *)
Definition socket_iter_mut (f : SocketHandle → T → T) s : storage :=
  imap (λ i slot, mkStorage (ss_generation slot) (f (mkHandle (as_u16 (Z.of_nat i)) (ss_generation slot)) <$> ss_value slot)) s.
Definition socket_find (predicate : T → bool) s : option SocketHandle :=
  (fst ∘ snd) <$> list_find (λ x, predicate x.2 = true) (socket_iter s).

(** [OwnedSocketSet]: the slots are a vector that grows. *)
Definition owned_add (value : T) : st storage SocketHandle := λ s,
  match free_slot s with
  | Some (i, slot) => fill_slot i slot value s
  | None =>
      if 0xffff <? len s then (s, Err BufferFull)
      else (s ++ [mkStorage (ss_generation (@SocketStorage_EMPTY T)) (Some value)],
            Ok (mkHandle (as_u16 (len s)) (ss_generation (@SocketStorage_EMPTY T))))
  end.

Definition owned_slot (h : SocketHandle) s : res (SocketStorage T * T) :=
  slot ← ok_or (s !! Z.to_nat (h_index h)) InvalidField;
  fail_if (negb (ss_generation slot =? h_generation h)) InvalidState;;
  v ← ok_or (ss_value slot) InvalidState;
  Ok (slot, v).
Definition owned_get (h : SocketHandle) s : res T := '(_, v) ← owned_slot h s; Ok v.
Definition owned_update (h : SocketHandle) (f : T → T) : st storage unit := λ s,
  match owned_slot h s with
  | Ok (slot, v) => (<[Z.to_nat (h_index h) := mkStorage (ss_generation slot) (Some (f v))]> s, Ok tt)
  | Err e => (s, Err e)
  | Panic => (s, Panic)
  end.
Definition owned_remove (h : SocketHandle) : st storage T := λ s,
  match owned_slot h s with
  | Ok (slot, v) => (<[Z.to_nat (h_index h) := mkStorage (next_generation (ss_generation slot)) None]> s, Ok v)
  | Err e => (s, Err e)
  | Panic => (s, Panic)
  end.

(** ** The two sets agree on handles *)

Lemma owned_slot_checked h s :
  owned_slot h s = (slot ← checked_slot h s; v ← ok_or (ss_value slot) InvalidState; Ok (slot, v)).
Proof.
  unfold owned_slot, checked_slot. destruct (s !! _) as [slot |]; cbn [ok_or]; [| done].
  rewrite !bind_Ok_l. destruct (ss_generation slot =? h_generation h); [| done]. cbn [negb orb].
  case_bool_decide as Hv; cbn [negb fail_if]; rewrite !bind_Ok_l; [done |].
  destruct (ss_value slot); [destruct Hv; by eexists | done].
Qed.

(** ** Calls and histories *)

(** A call on a set; [owned] chooses the set that grows. *)
Inductive socket_call : Type := SAdd (v : T) | SUpdate (h : SocketHandle) (f : T → T) | SRemove (h : SocketHandle).
Definition run_call (owned : bool) (c : socket_call) s : storage :=
  match c with
  | SAdd v => (if owned then owned_add v s else socket_add v s).1
  | SUpdate h f => (if owned then owned_update h f s else socket_update h f s).1
  | SRemove h => (if owned then owned_remove h s else socket_remove h s).1
  end.

(** How often a history releases slot [i]. *)
Fixpoint releases (owned : bool) (i : Z) (cs : list socket_call) s : nat :=
  match cs with
  | [] => 0
  | c :: cs =>
      (match c with
       | SRemove h => if bool_decide (h_index h = i) && is_ok (socket_remove h s).2 then 1 else 0
       | _ => 0
       end + releases owned i cs (run_call owned c s))%nat
  end.

(** Slot [i] holds [o] when that is known, with generation [g]. *)
Definition slot_gen s (i : Z) (g : Z) (o : option T) : Prop :=
  ∃ slot, s !! Z.to_nat i = Some slot ∧ ss_generation slot = g ∧ (∀ v, o = Some v → ss_value slot = Some v).

(** What becomes of the value at [h]: only the updates through [h] itself change it. *)
Definition value_step (h : SocketHandle) (v : T) (c : socket_call) : T :=
  match c with SUpdate h' f => if decide (h' = h) then f v else v | _ => v end.
Definition value_after (h : SocketHandle) (cs : list socket_call) (v : T) : T := fold_left (value_step h) cs v.

Lemma owned_remove_eq h s : owned_remove h s = socket_remove h s.
Proof. unfold owned_remove, socket_remove. by rewrite owned_slot_checked. Qed.
Lemma owned_update_eq h f s : owned_update h f s = socket_update h f s.
Proof. unfold owned_update, socket_update. by rewrite owned_slot_checked. Qed.
Lemma owned_get_eq h s : owned_get h s = socket_get h s.
Proof.
  unfold owned_get, socket_get. rewrite owned_slot_checked. destruct (checked_slot h s) as [slot | |]; [| done..].
  rewrite !bind_Ok_l. by destruct (ss_value slot).
Qed.

Lemma free_slot_Some s i slot : free_slot s = Some (i, slot) → s !! i = Some slot ∧ ss_value slot = None.
Proof. intros (H1 & H2 & _)%list_find_Some. done. Qed.

Lemma checked_slot_Ok h s slot :
  checked_slot h s = Ok slot ↔ s !! Z.to_nat (h_index h) = Some slot ∧ ss_generation slot = h_generation h ∧ is_Some (ss_value slot).
Proof.
  unfold checked_slot. destruct (s !! _) as [x |]; cbn; [| naive_solver].
  destruct (Z.eqb_spec (ss_generation x) (h_generation h)); cbn; [| naive_solver].
  case_bool_decide; cbn; naive_solver.
Qed.

Lemma socket_get_Ok h s v :
  socket_get h s = Ok v ↔ s !! Z.to_nat (h_index h) = Some (mkStorage (h_generation h) (Some v)).
Proof.
  unfold socket_get. rewrite bind_Ok. setoid_rewrite checked_slot_Ok. setoid_rewrite ok_or_Ok. split.
  - intros (slot & (Hs & Hg & _) & Hv). rewrite Hs. destruct slot. cbn in *. by subst.
  - intros Hs. eexists. split; [split; [exact Hs | split; [done | by eexists]] | done].
Qed.

(** Iteration meets exactly the values that handles reach. *)
Lemma elem_of_socket_iter s h v : len s ≤ 0x10000 → 0 ≤ h_index h → (h, v) ∈ socket_iter s ↔ socket_get h s = Ok v.
Proof.
  intros Hl Hh. rewrite socket_get_Ok. unfold socket_iter. rewrite list_elem_of_omap. split.
  - intros ([i slot] & (j & (slot' & Hs & [= -> ->])%list_lookup_imap_Some)%list_elem_of_lookup & E).
    destruct (ss_value slot') as [w |] eqn:Ev; [| done]. injection E as <- <-. cbn [h_index h_generation].
    pose proof (lookup_lt_Some _ _ _ Hs). unfold as_u16, len in *. rewrite Z.mod_small by (cbn; lia).
    rewrite Nat2Z.id, Hs. destruct slot'. cbn in *. by subst.
  - intros Hs. exists (Z.to_nat (h_index h), mkStorage (h_generation h) (Some v)). split.
    + apply list_elem_of_lookup. exists (Z.to_nat (h_index h)). rewrite list_lookup_imap, Hs. done.
    + pose proof (lookup_lt_Some _ _ _ Hs). unfold as_u16, len in *. cbn [ss_value ss_generation mbind option_bind].
      rewrite Z.mod_small by (cbn; lia). rewrite Z2Nat.id by done. by destruct h.
Qed.

(** A pass over the set applies [f] to each value at its handle. *)
Lemma socket_get_iter_mut f s h : len s ≤ 0x10000 → 0 ≤ h_index h →
  socket_get h (socket_iter_mut f s) = f h <$> socket_get h s.
Proof.
  intros Hl Hh. unfold socket_get, checked_slot, socket_iter_mut. rewrite list_lookup_imap.
  destruct (s !! Z.to_nat (h_index h)) as [[g o] |] eqn:Hs; cbn [fmap option_fmap option_map ok_or]; [| done].
  rewrite !bind_Ok_l. cbn [ss_generation ss_value]. destruct (Z.eqb_spec g (h_generation h)) as [-> |]; [| done].
  pose proof (lookup_lt_Some _ _ _ Hs). unfold as_u16, len in *. rewrite Z2Nat.id, Z.mod_small by (cbn; lia || done).
  destruct o as [v |]; cbn; [| done]. by destruct h.
Qed.

(** [find] returns a handle of a value that satisfies the predicate, if there is one. *)
Lemma socket_find_exact predicate s : len s ≤ 0x10000 →
  match socket_find predicate s with
  | Some h => ∃ v, socket_get h s = Ok v ∧ predicate v = true
  | None => ∀ h v, 0 ≤ h_index h → socket_get h s = Ok v → predicate v = false
  end.
Proof.
  intros Hl. unfold socket_find. destruct (list_find _ _) as [[i [h v]] |] eqn:E; cbn.
  - apply list_find_Some in E as (Hi & Hp & _). exists v. split; [| done].
    apply elem_of_socket_iter; [done | | by eapply list_elem_of_lookup_2].
    apply list_elem_of_lookup_2 in Hi. unfold socket_iter in Hi. apply list_elem_of_omap in Hi as ([j slot] & _ & Hj).
    destruct (ss_value slot); [| done]. injection Hj as <- _. unfold as_u16. cbn [h_index]. apply Z.mod_pos_bound. done.
  - apply list_find_None in E. rewrite Forall_forall in E. intros h v Hh Hg%elem_of_socket_iter; [| done | done].
    specialize (E _ Hg). cbn in E. by apply not_true_iff_false.
Qed.

Lemma add_slot owned v s i g o :
  0 ≤ i → slot_gen s i g o → slot_gen (run_call owned (SAdd v) s) i g o.
Proof.
  intros Hi (slot & Hs & Hg & Ho). cbn [run_call].
  assert (Hfill : ∀ j x, free_slot s = Some (j, x) → slot_gen (fill_slot j x v s).1 i g o).
  { intros j x [Hj Hv]%free_slot_Some. unfold fill_slot. destruct (_ <? _); cbn; [by exists slot |].
    destruct (decide (j = Z.to_nat i)) as [-> | Hne].
    - rewrite Hs in Hj. injection Hj as ->. eexists. split; [apply list_lookup_insert_eq; by eapply lookup_lt_Some |].
      split; [done |]. intros w Hw. rewrite (Ho w Hw) in Hv. done.
    - exists slot. by rewrite list_lookup_insert_ne. }
  destruct owned; cbn; unfold owned_add, socket_add; destruct (free_slot s) as [[j x] |]; try (by apply Hfill); cbn; [| by exists slot].
  destruct (_ <? _); cbn; [by exists slot |]. exists slot. split; [| done]. by apply lookup_app_l_Some.
Qed.

Lemma update_slot owned h f s i g o :
  0 ≤ i → 0 ≤ h_index h → slot_gen s i g o →
  slot_gen (run_call owned (SUpdate h f) s) i g ((λ v, value_step (mkHandle i g) v (SUpdate h f)) <$> o).
Proof.
  intros Hi Hh (slot & Hs & Hg & Ho). cbn [run_call value_step]. replace (if owned then _ else _) with (socket_update h f s)
    by (destruct owned; [by rewrite owned_update_eq | done]). unfold socket_update.
  assert (Hkeep : (h = mkHandle i g → o = None) → slot_gen s i g ((λ v, if decide (h = mkHandle i g) then f v else v) <$> o)).
  { intros Hne. exists slot. split; [done |]. split; [done |]. intros v (u & -> & Hu)%fmap_Some.
    case_decide as Eh; [by specialize (Hne Eh) |]. subst v. by apply Ho. }
  assert (Hfail : (∀ x, checked_slot h s ≠ Ok x) → slot_gen s i g ((λ v, if decide (h = mkHandle i g) then f v else v) <$> o)).
  { intros Hc. apply Hkeep. intros ->. destruct o as [u |]; [| done]. exfalso. apply (Hc slot), checked_slot_Ok.
    cbn [h_index h_generation]. split; [done |]. split; [done |]. exists u. by apply Ho. }
  destruct (checked_slot h s) as [x | e |] eqn:Ec; [| by apply Hfail..].
  rewrite bind_Ok_l. apply checked_slot_Ok in Ec as (Hx & Hgx & [v Hv]). rewrite Hv. cbn [ok_or]. rewrite bind_Ok_l. cbn [fst].
  destruct (decide (h_index h = i)) as [E | Hne].
  - rewrite E in *. rewrite Hs in Hx. injection Hx as <-. eexists.
    split; [apply list_lookup_insert_eq; by eapply lookup_lt_Some |]. split; [done |].
    intros w (u & -> & Hu)%fmap_Some. rewrite (Ho u eq_refl) in Hv. injection Hv as <-.
    rewrite decide_True in Hu by (destruct h; cbn in *; congruence). by subst w.
  - destruct Hkeep as (slot' & Hs' & Hk); [by intros -> |]. exists slot'. by rewrite list_lookup_insert_ne by lia.
Qed.

Lemma remove_slot owned h s i g o :
  0 ≤ i → 0 ≤ h_index h → slot_gen s i g o →
  if bool_decide (h_index h = i) && is_ok (socket_remove h s).2
  then slot_gen (run_call owned (SRemove h) s) i (next_generation g) None
  else slot_gen (run_call owned (SRemove h) s) i g o.
Proof.
  intros Hi Hh (slot & Hs & Hg & Ho). cbn [run_call]. replace (if owned then _ else _) with (socket_remove h s)
    by (destruct owned; [by rewrite owned_remove_eq | done]). unfold socket_remove.
  destruct (checked_slot h s) as [x | |] eqn:Ec; [| rewrite andb_false_r; by exists slot..]. rewrite bind_Ok_l.
  apply checked_slot_Ok in Ec as (Hx & Hgx & [v Hv]). rewrite Hv. cbn [ok_or]. rewrite bind_Ok_l. cbn [fst snd is_ok].
  rewrite andb_true_r. case_bool_decide as E.
  - rewrite E in *. rewrite Hs in Hx. injection Hx as <-. eexists.
    split; [apply list_lookup_insert_eq; by eapply lookup_lt_Some |]. cbn. by rewrite Hg.
  - exists slot. rewrite list_lookup_insert_ne by lia. done.
Qed.

(** The indices of handles are not negative. *)
Definition call_ok (c : socket_call) : Prop :=
  match c with SRemove h | SUpdate h _ => 0 ≤ h_index h | SAdd _ => True end.

(** A slot whose socket is known, while it is not released *)
Lemma history_value owned i g cs s v :
  0 ≤ i → Forall call_ok cs → slot_gen s i g (Some v) → releases owned i cs s = 0%nat →
  slot_gen (foldl (λ s c, run_call owned c s) s cs) i g (Some (value_after (mkHandle i g) cs v)).
Proof.
  intros Hi Hcs. revert s v. induction Hcs as [| c cs Hc Hcs IH]; intros s v Hs Hr; [done |].
  cbn [foldl releases] in *. unfold value_after in *. cbn [fold_left]. destruct c as [w | h f | h].
  - apply IH; [by apply add_slot | done].
  - apply IH; [by apply (update_slot owned h f s i g (Some v)) | done].
  - pose proof (remove_slot owned h s i g (Some v) Hi Hc Hs) as H. destruct (_ && _); [done |]. by apply IH.
Qed.

(** The generation after the releases *)
Lemma history_gen owned i cs s g :
  0 ≤ i → Forall call_ok cs → slot_gen s i g None →
  slot_gen (foldl (λ s c, run_call owned c s) s cs) i (Nat.iter (releases owned i cs s) next_generation g) None.
Proof.
  intros Hi Hcs. revert s g. induction Hcs as [| c cs Hc Hcs IH]; intros s g Hs; [done |].
  cbn [foldl releases]. destruct c as [v | h f | h].
  - apply IH. by apply add_slot.
  - apply IH. by apply (update_slot owned h f s i g None).
  - pose proof (remove_slot owned h s i g None Hi Hc Hs) as H. destruct (_ && _); [| by apply IH].
    cbn [Nat.add]. rewrite Nat.iter_succ, <- Nat.iter_swap. by apply IH.
Qed.
End sockets.

Lemma next_generation_range g : 1 ≤ g < 0x10000 → next_generation g = if g =? 0xffff then 1 else g + 1.
Proof.
  intros Hg. unfold next_generation, wrapping_add. change (2 ^ 16) with 0x10000.
  destruct (Z.eqb_spec g 0xffff) as [-> |]; [done |]. rewrite Z.mod_small by lia. lia.
Qed.

(** [k] releases move a generation around a cycle of 65535. *)
Lemma iter_generation k g : 1 ≤ g < 0x10000 → Nat.iter k next_generation g = (g - 1 + Z.of_nat k) mod 0xffff + 1.
Proof.
  intros Hg. induction k as [| k IH].
  - change (Nat.iter 0 next_generation g) with g. replace (g - 1 + Z.of_nat 0) with (g - 1) by lia. rewrite Z.mod_small by lia. lia.
  - rewrite Nat.iter_succ, IH. pose proof (Z.mod_pos_bound (g - 1 + Z.of_nat k) 0xffff).
    rewrite next_generation_range by lia. rewrite Nat2Z.inj_succ.
    destruct (Z.eqb_spec ((g - 1 + Z.of_nat k) mod 0xffff + 1) 0xffff) as [E |].
    + replace (g - 1 + Z.succ (Z.of_nat k)) with (g - 1 + Z.of_nat k + 1) by lia. zdiv.
    + zdiv.
Qed.

(** Sets as their owners make them: empty slots, then calls. *)
Definition set_of {T} (owned : bool) (n : nat) (cs : list (@socket_call T)) : list (SocketStorage T) :=
  foldl (λ s c, run_call owned c s) (replicate n SocketStorage_EMPTY) cs.

Definition gens_ok {T} (s : list (SocketStorage T)) : Prop := Forall (λ x, 1 ≤ ss_generation x < 0x10000) s.

Lemma run_call_gens {T} owned (c : @socket_call T) s : gens_ok s → gens_ok (run_call owned c s).
Proof.
  intros Hs. unfold gens_ok in *. assert (Hin : ∀ i x, s !! i = Some x → 1 ≤ ss_generation x < 0x10000)
    by (intros i x; by apply (Forall_lookup_1 _ _ _ _ Hs)).
  destruct c as [v | h f | h]; cbn [run_call].
  - assert (Hf : ∀ j x, free_slot s = Some (j, x) → gens_ok (fill_slot j x v s).1).
    { intros j x [Hj _]%free_slot_Some. unfold fill_slot. destruct (_ <? _); cbn; [done |].
      apply Forall_insert; [done |]. cbn. by eapply Hin. }
    destruct owned; unfold owned_add, socket_add; destruct (free_slot s) as [[j x] |]; try (by apply Hf); cbn; [| done].
    destruct (_ <? _); cbn; [done |]. apply Forall_app. split; [done |]. by repeat constructor.
  - replace (if owned then _ else _) with (socket_update h f s) by (destruct owned; [by rewrite owned_update_eq | done]).
    unfold socket_update. destruct (checked_slot h s) as [x | |] eqn:Ec; [| done..]. rewrite bind_Ok_l.
    apply checked_slot_Ok in Ec as (Hx & _ & [w ->]). cbn. apply Forall_insert; [done |]. cbn. by eapply Hin.
  - replace (if owned then _ else _) with (socket_remove h s) by (destruct owned; [by rewrite owned_remove_eq | done]).
    unfold socket_remove. destruct (checked_slot h s) as [x | |] eqn:Ec; [| done..]. rewrite bind_Ok_l.
    apply checked_slot_Ok in Ec as (Hx & _ & [w ->]). cbn. apply Forall_insert; [done |]. cbn [ss_generation].
    pose proof (Hin _ _ Hx). rewrite next_generation_range by done. destruct (Z.eqb_spec (ss_generation x) 0xffff); lia.
Qed.

Lemma set_of_gens {T} owned n (cs : list (@socket_call T)) : gens_ok (set_of owned n cs).
Proof.
  unfold set_of. assert (Hs : gens_ok (replicate n (@SocketStorage_EMPTY T))) by by apply Forall_replicate.
  revert Hs. generalize (replicate n (@SocketStorage_EMPTY T)). induction cs as [| c cs IH]; intros s Hs; [done |].
  cbn. apply IH. by apply run_call_gens.
Qed.

(** A fresh handle names the slot it was made for. *)
Lemma add_fresh {T} (owned : bool) (v : T) s s1 h :
  gens_ok s → (if owned then owned_add v s else socket_add v s) = (s1, Ok h) →
  0 ≤ h_index h ∧ 1 ≤ h_generation h < 0x10000 ∧ slot_gen s1 (h_index h) (h_generation h) (Some v) ∧ socket_get h s1 = Ok v.
Proof.
  intros Hg H.
  assert (Hend : ∀ i (slot : SocketStorage T), s1 !! i = Some (mkStorage (ss_generation slot) (Some v)) → Z.of_nat i ≤ 0xffff →
    1 ≤ ss_generation slot < 0x10000 → h = mkHandle (as_u16 (Z.of_nat i)) (ss_generation slot) →
    0 ≤ h_index h ∧ 1 ≤ h_generation h < 0x10000 ∧ slot_gen s1 (h_index h) (h_generation h) (Some v) ∧ socket_get h s1 = Ok v).
  { intros i slot Hi Hle Hr ->. cbn [h_index h_generation]. unfold as_u16. rewrite Z.mod_small by lia.
    split; [lia |]. split; [done |]. split.
    - eexists. rewrite Nat2Z.id. split; [exact Hi |]. split; [done |]. by intros ? [= <-].
    - unfold socket_get. assert (Hc : checked_slot (mkHandle (Z.of_nat i) (ss_generation slot)) s1 = Ok (mkStorage (ss_generation slot) (Some v))).
      { apply checked_slot_Ok. cbn [h_index h_generation]. rewrite Nat2Z.id. by split_and!. }
      by rewrite Hc. }
  assert (Hfill : ∀ i slot, free_slot s = Some (i, slot) → fill_slot i slot v s = (s1, Ok h) →
    0 ≤ h_index h ∧ 1 ≤ h_generation h < 0x10000 ∧ slot_gen s1 (h_index h) (h_generation h) (Some v) ∧ socket_get h s1 = Ok v).
  { intros i slot [Hi _]%free_slot_Some Hf. unfold fill_slot in Hf. destruct (Z.ltb_spec 0xffff (Z.of_nat i)); [done |].
    injection Hf as <- <-. apply (Hend i slot); [| lia | | done].
    - apply list_lookup_insert_eq. by eapply lookup_lt_Some.
    - by apply (Forall_lookup_1 _ _ _ _ Hg Hi). }
  destruct owned; unfold owned_add, socket_add in H; destruct (free_slot s) as [[i slot] |]; try by apply (Hfill i slot).
  - destruct (Z.ltb_spec 0xffff (len s)); [done |]. injection H as <- <-. apply (Hend (length s) SocketStorage_EMPTY); try done.
    by rewrite lookup_app_r, Nat.sub_diag by lia.
  - done.
Qed.

(** C17: a handle reaches its own socket until the socket is removed, and is
    refused afterwards: whatever calls follow, as long as its slot has not been
    released the handle yields the value that was added with the updates made
    through this handle, and no others, applied in order, and removing it
    returns that value; once the slot was released it fails with
    [InvalidState], as long as the slot is released fewer than 65535 times. The
    set over caller-provided slots and the one that grows agree. *)
Theorem socket_handle_until_removed {T} (owned : bool) n before after (v : T) s1 h :
  (if owned then owned_add v (set_of owned n before) else socket_add v (set_of owned n before)) = (s1, Ok h) →
  Forall call_ok after →
  let s2 := foldl (λ s c, run_call owned c s) s1 after in
  let k := Z.of_nat (releases owned (h_index h) after s1) in
  let now := fold_left (λ v c, match c with SUpdate h' f => if decide (h' = h) then f v else v | _ => v end) after v in
  socket_get h s1 = Ok v ∧
  (k = 0 → socket_get h s2 = Ok now ∧ (socket_remove h s2).2 = Ok now) ∧
  (0 < k < 65535 → socket_get h s2 = Err InvalidState) ∧
  (∀ g, owned_get g s2 = socket_get g s2).
Proof.
  intros Hadd Hafter s2 k now. destruct (add_fresh owned v _ s1 h (set_of_gens owned n before) Hadd) as (Hi & Hg & Hslot & Hget).
  split; [done |]. split; [| split; [| intros g; apply owned_get_eq]].
  - intros Hk. destruct (history_value owned (h_index h) (h_generation h) after s1 v Hi Hafter Hslot ltac:(lia)) as (slot & Hs & Hgen & Hv).
    specialize (Hv _ eq_refl). fold s2 in Hs. replace (mkHandle (h_index h) (h_generation h)) with h in Hv by by destruct h.
    change (value_after h after v) with now in Hv.
    assert (Hc : checked_slot h s2 = Ok slot) by (apply checked_slot_Ok; split; [done |]; split; [done | by exists now]).
    unfold socket_get, socket_remove. rewrite Hc, !bind_Ok_l, Hv. done.
  - intros Hk. assert (Hnone : slot_gen s1 (h_index h) (h_generation h) None).
    { destruct Hslot as (slot & ? & ? & _). by exists slot. }
    destruct (history_gen owned (h_index h) after s1 _ Hi Hafter Hnone) as (slot & Hs & Hgen & _). fold s2 in Hs.
    rewrite (iter_generation _ _ Hg) in Hgen. fold k in Hgen. unfold socket_get, checked_slot. rewrite Hs. cbn [ok_or]. rewrite bind_Ok_l.
    replace (ss_generation slot =? h_generation h) with false; [done |]. symmetry. apply Z.eqb_neq. rewrite Hgen. intros E. zdiv.
Qed.

(** [n] times: remove the socket of slot 0, whose generation is [g], and put
    [g + 1] in its place. *)
Fixpoint reuse (n : nat) (g : Z) : list (@socket_call Z) :=
  match n with
  | O => []
  | S n => SRemove (mkHandle 0 g) :: SAdd (g + 1) :: reuse n (g + 1)
  end.

(** The generation is 16 bits wide: a slot that is released 65535 times
    comes back to the generation of an old handle, which then reaches a
    different socket. *)
Theorem socket_handle_wraps :
  let h := mkHandle 0 1 in
  let history := reuse (Z.to_nat 65535) 1 in
  socket_add 1 [SocketStorage_EMPTY] = (set_of false 1 [SAdd 1], Ok h) ∧
  socket_get h (set_of false 1 ([SAdd 1] ++ history)) = Ok 65536.
Proof. split; vm_compute; reflexivity. Qed.

(** A socket between two others is found with its update, and refused once it was
    removed and its slot given to another. *)
Lemma socket_handle_until_removed_witness :
  let s1 := set_of false 3 [SAdd 5; SAdd 10] in
  let h := mkHandle 1 1 in
  socket_get h (foldl (λ s c, run_call false c s) s1 [SAdd 20; SUpdate (mkHandle 0 1) Z.succ; SUpdate h Z.succ]) = Ok 11 ∧
  socket_get h (foldl (λ s c, run_call false c s) s1 [SRemove h; SAdd 20]) = Err InvalidState.
Proof.
  assert (E : socket_add 10 (set_of false 3 [SAdd 5]) = (set_of false 3 [SAdd 5; SAdd 10], Ok (mkHandle 1 1))) by reflexivity.
  cbv zeta. split.
  - destruct (socket_handle_until_removed false 3 [SAdd 5] [SAdd 20; SUpdate (mkHandle 0 1) Z.succ; SUpdate (mkHandle 1 1) Z.succ] 10 _ _ E)
      as (_ & H & _); [repeat constructor; done |]. destruct H as [H _]; [reflexivity | exact H].
  - destruct (socket_handle_until_removed false 3 [SAdd 5] [SRemove (mkHandle 1 1); SAdd 20] 10 _ _ E) as (_ & _ & H & _);
      [repeat constructor; done |]. apply H. vm_compute. split; reflexivity.
Defined.
