(* ===== verification/BoundedGts.v ===== *)
(** * The heapless tunnel socket (src/src/bounded_gts.rs)

    [BoundedGtsSocket]: streams in slots of the caller, sent and received
    messages in two [MessagePool]s (Storage) whose slot metadata say to which
    stream and sequence number a message belongs. *)
From stdpp Require Import prelude.
From Stdlib Require Import ZArith Lia.
From S2P Require Import Prelude GdpWire GtsWire Storage.
Local Open Scope Z_scope.

Definition DEFAULT_RTO_MS : Z := 500.

Inductive TunnelRole : Set := Initiator | Responder.
Inductive TunnelState : Set := Connecting | Established | TClosing | TClosed | TReset.
Inductive StreamState : Set := Opening | Open | Closing | Closed | Reset.
Inductive RxDisposition : Set := Pending | Delivered.
#[export] Instance TunnelRole_eq_dec : EqDecision TunnelRole.
Proof. solve_decision. Defined.
#[export] Instance TunnelState_eq_dec : EqDecision TunnelState.
Proof. solve_decision. Defined.
#[export] Instance StreamState_eq_dec : EqDecision StreamState.
Proof. solve_decision. Defined.
#[export] Instance RxDisposition_eq_dec : EqDecision RxDisposition.
Proof. solve_decision. Defined.

Record TxMeta : Set := mkTx { tm_stream_id : Z; tm_sequence : Z; tm_end : bool; tm_sent_at : Z }.
Record RxMeta : Set := mkRx {
  rm_stream_id : Z; rm_sequence : Z; rm_end : bool; rm_disposition : RxDisposition; rm_order : Z }.
#[export] Instance RxMeta_eq_dec : EqDecision RxMeta.
Proof. solve_decision. Defined.

Record StreamCore : Set := mkStream {
  s_id : Z;
  s_profile : StreamProfile;
  s_state : StreamState;
  opened_by_local : bool;
  next_tx_sequence : Z;
  next_expected : Z;
  peer_credit : Z;
  receive_capacity : Z;
  seen_reliable : bool;
  unrel_rx_highest : option Z;
  unrel_tx_sequence : Z;
  local_ended : bool;
  remote_ended : bool }.

(** [BoundedStreamSlot]: one place of the caller's slice *)
Notation BoundedStreamSlot := (option StreamCore).

Record AckState : Set := mkAck { ack_base : Z; receive_bitmap : Z; receive_credit : Z }.
Record SendInfo : Set := mkSendInfo { si_sequence : option Z }.
Record ReceivedMessage : Set := mkReceived { rcv_len : Z; rcv_end : bool }.
Record Retransmit : Set := mkRetransmit { rt_stream_id : Z; rt_sequence : Z; rt_end : bool; rt_data : list Z }.

Record BoundedGtsSocket : Set := mkSocket {
  role : TunnelRole;
  state : TunnelState;
  local_receive_id : Z;
  remote_receive_id : option Z;
  local_reset_id : Z;
  remote_reset_id : option Z;
  css : list Z;
  streams : list BoundedStreamSlot;
  tx : MessagePool TxMeta;
  rx : MessagePool RxMeta;
  next_stream_id : Z;
  next_delivery_order : Z;
  rto_ms : Z }.

Section setters.
Context (s : BoundedGtsSocket).
Definition put_state v := mkSocket (role s) v (local_receive_id s) (remote_receive_id s) (local_reset_id s)
  (remote_reset_id s) (css s) (streams s) (tx s) (rx s) (next_stream_id s) (next_delivery_order s) (rto_ms s).
Definition put_remote receive_id reset_id := mkSocket (role s) (state s) (local_receive_id s) receive_id
  (local_reset_id s) reset_id (css s) (streams s) (tx s) (rx s) (next_stream_id s) (next_delivery_order s) (rto_ms s).
Definition put_streams v := mkSocket (role s) (state s) (local_receive_id s) (remote_receive_id s) (local_reset_id s)
  (remote_reset_id s) (css s) v (tx s) (rx s) (next_stream_id s) (next_delivery_order s) (rto_ms s).
Definition put_tx v := mkSocket (role s) (state s) (local_receive_id s) (remote_receive_id s) (local_reset_id s)
  (remote_reset_id s) (css s) (streams s) v (rx s) (next_stream_id s) (next_delivery_order s) (rto_ms s).
Definition put_rx v := mkSocket (role s) (state s) (local_receive_id s) (remote_receive_id s) (local_reset_id s)
  (remote_reset_id s) (css s) (streams s) (tx s) v (next_stream_id s) (next_delivery_order s) (rto_ms s).
Definition put_next_stream_id v := mkSocket (role s) (state s) (local_receive_id s) (remote_receive_id s)
  (local_reset_id s) (remote_reset_id s) (css s) (streams s) (tx s) (rx s) v (next_delivery_order s) (rto_ms s).
Definition put_order v := mkSocket (role s) (state s) (local_receive_id s) (remote_receive_id s)
  (local_reset_id s) (remote_reset_id s) (css s) (streams s) (tx s) (rx s) (next_stream_id s) v (rto_ms s).
Definition put_rto v := mkSocket (role s) (state s) (local_receive_id s) (remote_receive_id s)
  (local_reset_id s) (remote_reset_id s) (css s) (streams s) (tx s) (rx s) (next_stream_id s) (next_delivery_order s) v.
End setters.

Section stream_setters.
Context (c : StreamCore).
Definition with_tx_sequence sequence credit ended := mkStream (s_id c) (s_profile c) (s_state c) (opened_by_local c)
  sequence (next_expected c) credit (receive_capacity c) (seen_reliable c) (unrel_rx_highest c) (unrel_tx_sequence c)
  ended (remote_ended c).
Definition with_unrel_tx v := mkStream (s_id c) (s_profile c) (s_state c) (opened_by_local c)
  (next_tx_sequence c) (next_expected c) (peer_credit c) (receive_capacity c) (seen_reliable c) (unrel_rx_highest c) v
  (local_ended c) (remote_ended c).
Definition with_unrel_rx v := mkStream (s_id c) (s_profile c) (s_state c) (opened_by_local c)
  (next_tx_sequence c) (next_expected c) (peer_credit c) (receive_capacity c) (seen_reliable c) v (unrel_tx_sequence c)
  (local_ended c) (remote_ended c).
Definition with_peer_credit v := mkStream (s_id c) (s_profile c) (s_state c) (opened_by_local c)
  (next_tx_sequence c) (next_expected c) v (receive_capacity c) (seen_reliable c) (unrel_rx_highest c)
  (unrel_tx_sequence c) (local_ended c) (remote_ended c).
Definition with_seen := mkStream (s_id c) (s_profile c) (s_state c) (opened_by_local c)
  (next_tx_sequence c) (next_expected c) (peer_credit c) (receive_capacity c) true (unrel_rx_highest c)
  (unrel_tx_sequence c) (local_ended c) (remote_ended c).
Definition with_reset := mkStream (s_id c) (s_profile c) Reset (opened_by_local c)
  (next_tx_sequence c) (next_expected c) 0 (receive_capacity c) (seen_reliable c) (unrel_rx_highest c)
  (unrel_tx_sequence c) true true.
(** [next_expected] moves past a message; the last one ends the stream. *)
Definition with_delivered (end_ : bool) := mkStream (s_id c) (s_profile c) (s_state c) (opened_by_local c)
  (next_tx_sequence c) (wrapping_add 32 (next_expected c) 1) (peer_credit c) (receive_capacity c) (seen_reliable c)
  (unrel_rx_highest c) (unrel_tx_sequence c) (local_ended c) (remote_ended c || end_).
End stream_setters.

Notation bst := (st BoundedGtsSocket).

Definition on_tx {A} (m : st (MessagePool TxMeta) A) : bst A := zoom tx (λ p s, put_tx s p) m.
Definition on_rx {A} (m : st (MessagePool RxMeta) A) : bst A := zoom rx (λ p s, put_rx s p) m.

(** ** Construction and the tunnel *)

Definition socket_new (r : TunnelRole) (receive_id reset_id : Z) (selector : list Z) (stream_slots : list BoundedStreamSlot)
    (tx_slots : list (MessageSlot TxMeta)) (tx_bytes : list Z)
    (rx_slots : list (MessageSlot RxMeta)) (rx_bytes : list Z) : res BoundedGtsSocket :=
  fail_if (bool_decide (stream_slots = [])) InvalidLength;;
  txp ← mp_new tx_slots tx_bytes;
  rxp ← mp_new rx_slots rx_bytes;
  Ok {| role := r; state := match r with Initiator => Connecting | Responder => Established end;
        local_receive_id := receive_id; remote_receive_id := None;
        local_reset_id := reset_id; remote_reset_id := None; css := selector;
        streams := (λ _, None) <$> stream_slots; tx := txp; rx := rxp;
        next_stream_id := match r with Initiator => 2 | Responder => 1 end;
        next_delivery_order := 1; rto_ms := DEFAULT_RTO_MS |}.

Definition set_rto_ms (value : Z) : bst unit :=
  guard_st (value =? 0) InvalidField;; modify (λ s, put_rto s value).

Definition establish (receive_id reset_id : Z) : bst unit :=
  s ← gets Datatypes.id;
  guard_st (match state s with Connecting | Established => false | _ => true end) InvalidState;;
  modify (λ s, put_remote s (Some receive_id) (Some reset_id));;
  modify (λ s, put_state s Established).

(** ** Streams *)

(** [s.stream.map(|x| x.id) == Some(id)] *)
Definition has_id (sid : Z) (slot : BoundedStreamSlot) : bool :=
  match slot with Some c => s_id c =? sid | None => false end.

Definition stream_index (s : BoundedGtsSocket) (sid : Z) : res nat :=
  ok_or (fst <$> list_find (λ slot, has_id sid slot = true) (streams s)) UnknownStream.

(** [self.streams[idx].stream], with the index check of the slice *)
Definition slot_at (s : BoundedGtsSocket) (idx : nat) : res BoundedStreamSlot := expect (streams s !! idx).

Definition stream (s : BoundedGtsSocket) (sid : Z) : res StreamCore :=
  idx ← stream_index s sid;
  slot ← slot_at s idx;
  ok_or slot UnknownStream.

(** [*self.streams[idx].stream.as_mut().unwrap() = f(..)] *)
Definition update_at (idx : nat) (f : StreamCore → StreamCore) : bst unit :=
  s ← gets Datatypes.id;
  slot ← lift (slot_at s idx);
  c ← lift (expect slot);
  modify (λ s, put_streams s (<[idx := Some (f c)]> (streams s))).

(** [*self.stream_mut(id)? = f(..)] *)
Definition update_stream (sid : Z) (f : StreamCore → StreamCore) : bst unit :=
  s ← gets Datatypes.id;
  idx ← lift (stream_index s sid);
  slot ← lift (slot_at s idx);
  c ← lift (ok_or slot UnknownStream);
  modify (λ s, put_streams s (<[idx := Some (f c)]> (streams s))).

Definition stream_state (s : BoundedGtsSocket) (sid : Z) : res StreamState := c ← stream s sid; Ok (s_state c).
Definition socket_peer_credit (s : BoundedGtsSocket) (sid : Z) : res Z := c ← stream s sid; Ok (peer_credit c).

Definition alloc_stream_id : bst Z :=
  s ← gets Datatypes.id;
  guard_st (negb (bool_decide (state s = Established))) InvalidState;;
  let id := next_stream_id s in
  guard_st (253 <? id) BufferFull;;
  modify (λ s, put_next_stream_id s (wrapping_add 8 (next_stream_id s) 2));;
  mret id.

Definition new_stream (sid : Z) (profile : StreamProfile) (opened : bool) (capacity credit : Z) : StreamCore :=
  {| s_id := sid; s_profile := profile; s_state := Open; opened_by_local := opened; next_tx_sequence := 0;
     next_expected := 0; peer_credit := if sp_unreliable profile then 0 else credit;
     receive_capacity := if sp_unreliable profile then 0 else capacity; seen_reliable := false;
     unrel_rx_highest := None; unrel_tx_sequence := 0; local_ended := false; remote_ended := false |}.

Definition add_stream (sid : Z) (profile : StreamProfile) (opened : bool) (capacity credit : Z) : bst unit :=
  lift (sp_validate profile);;
  s ← gets Datatypes.id;
  guard_st (existsb (has_id sid) (streams s)) InvalidState;;
  idx ← lift (ok_or (fst <$> list_find (λ slot, slot = None) (streams s)) BufferFull);
  modify (λ s, put_streams s (<[idx := Some (new_stream sid profile opened capacity credit)]> (streams s))).

Definition local_may_send (c : StreamCore) : bool :=
  if opened_by_local c then opener_may_send (sp_direction (s_profile c)) else peer_may_send (sp_direction (s_profile c)).
Definition remote_may_send (c : StreamCore) : bool :=
  if opened_by_local c then peer_may_send (sp_direction (s_profile c)) else opener_may_send (sp_direction (s_profile c)).

Definition fixed_reliable_data_len (p : StreamProfile) : res Z :=
  ok_or (checked_sub (sc_bytes (sp_size_class p)) 14) InvalidLength.
Definition fixed_reliable_end_capacity (p : StreamProfile) : res Z :=
  ok_or (checked_sub (sc_bytes (sp_size_class p)) 16) InvalidLength.
Definition fixed_unreliable_data_len (p : StreamProfile) : res Z :=
  let overhead := if sp_sequenced p then 14 else 10 in
  ok_or (checked_sub (sc_bytes (sp_size_class p)) overhead) InvalidLength.

Definition validate_send_len (p : StreamProfile) (data_len : Z) (end_ : bool) : res unit :=
  if sp_unreliable p then
    fail_if end_ ProfileViolation;;
    if sp_variable p then
      let overhead := if sp_sequenced p then 16 else 12 in
      fail_if (sc_bytes (sp_size_class p) <? data_len + overhead) MessageTooLarge
    else n ← fixed_unreliable_data_len p; fail_if (negb (data_len =? n)) InvalidLength
  else if sp_variable p then fail_if (sc_bytes (sp_size_class p) <? data_len + 16) MessageTooLarge
  else if end_ then n ← fixed_reliable_end_capacity p; fail_if (n <? data_len) MessageTooLarge
  else n ← fixed_reliable_data_len p; fail_if (negb (data_len =? n)) InvalidLength.

(** ** Sending *)

Definition send (sid : Z) (data : list Z) (end_ : bool) (now : Z) : bst SendInfo :=
  s ← gets Datatypes.id;
  idx ← lift (stream_index s sid);
  slot ← lift (slot_at s idx);
  snapshot ← lift (ok_or slot UnknownStream);
  guard_st (negb (bool_decide (s_state snapshot = Open)) || local_ended snapshot) InvalidState;;
  guard_st (negb (local_may_send snapshot)) DirectionViolation;;
  lift (validate_send_len (s_profile snapshot) (len data) end_);;
  if sp_unreliable (s_profile snapshot) then
    if sp_sequenced (s_profile snapshot) then
      let seq := unrel_tx_sequence snapshot in
      update_at idx (λ c, with_unrel_tx c (wrapping_add 32 seq 1));;
      mret (mkSendInfo (Some seq))
    else mret (mkSendInfo None)
  else
    guard_st (peer_credit snapshot =? 0) WouldBlock;;
    let sequence := next_tx_sequence snapshot in
    on_tx (mp_insert (mkTx sid sequence end_ now) data);;
    credit ← lift (sub_or_panic (peer_credit snapshot) 1);
    update_at idx (λ c, with_tx_sequence c (wrapping_add 32 sequence 1) credit (local_ended c || end_));;
    mret (mkSendInfo (Some sequence)).

Definition tx_acked (sequence base bitmap : Z) : bool :=
  if sequence <=? base then true
  else
    let d := wrapping_sub 32 (wrapping_sub 32 sequence base) 1 in
    (d <? 32) && negb (Z.land bitmap (Z.shiftl 1 d) =? 0).

(** [for idx in 0..capacity { if pred(meta(idx)) { remove(idx)?; } }] *)
Fixpoint remove_each {M} (pred : M → bool) (idxs : list nat) : st (MessagePool M) unit :=
  match idxs with
  | [] => mret tt
  | idx :: rest =>
      p ← gets Datatypes.id;
      (match mp_meta p idx with
       | Some meta => if pred meta then mp_remove idx;; mret tt else mret tt
       | None => mret tt
       end);;
      remove_each pred rest
  end.
Definition remove_where {M} (pred : M → bool) : st (MessagePool M) unit :=
  p ← gets Datatypes.id; remove_each pred (seq 0 (length (mp_slots p))).

Definition on_ack (sid : Z) (ack : AckState) : bst unit :=
  s ← gets Datatypes.id;
  c ← lift (stream s sid);
  guard_st (sp_unreliable (s_profile c) || bool_decide (s_state c = Reset)) ProfileViolation;;
  update_stream sid (λ c, with_peer_credit c (receive_credit ack));;
  on_tx (remove_where (λ m, (tm_stream_id m =? sid) && tx_acked (tm_sequence m) (ack_base ack) (receive_bitmap ack))).

Definition due (s : BoundedGtsSocket) (now : Z) (m : TxMeta) : bool :=
  rto_ms s <=? saturating_sub now (tm_sent_at m).

Definition retransmit_due (now : Z) : bst (option Retransmit) :=
  s ← gets Datatypes.id;
  match head (filter (λ e, due s now e.2 = true) (mp_entries (tx s))) with
  | None => mret None
  | Some (idx, meta) =>
      let meta := mkTx (tm_stream_id meta) (tm_sequence meta) (tm_end meta) now in
      on_tx (mp_set_meta idx meta);;
      s ← gets Datatypes.id;
      e ← lift (mp_get (tx s) idx);
      e ← lift (ok_or e InvalidState);
      mret (Some (mkRetransmit (tm_stream_id meta) (tm_sequence meta) (tm_end meta) e.2))
  end.

(** ** Receiving *)

Definition rx_count_for (s : BoundedGtsSocket) (sid : Z) : Z :=
  len (filter (λ e, rm_stream_id e.2 = sid) (mp_entries (rx s))).

(** The bits of the messages that wait out of order. *)
Definition pending_bitmap (s : BoundedGtsSocket) (sid base : Z) : Z :=
  fold_left (λ bitmap (e : nat * RxMeta),
    if (rm_stream_id e.2 =? sid) && bool_decide (rm_disposition e.2 = Pending) then
      let d := wrapping_sub 32 (wrapping_sub 32 (rm_sequence e.2) base) 1 in
      if d <? 32 then Z.lor bitmap (Z.shiftl 1 d) else bitmap
    else bitmap) (mp_entries (rx s)) 0.

Definition ack_state (s : BoundedGtsSocket) (sid : Z) : res (option AckState) :=
  c ← stream s sid;
  if sp_unreliable (s_profile c) || negb (seen_reliable c) then Ok None
  else
    let base := wrapping_sub 32 (next_expected c) 1 in
    let local_free := saturating_sub (receive_capacity c) (rx_count_for s sid) in
    let credit := as_u8 (Z.min (Z.min local_free (mp_free (rx s))) 255) in
    Ok (Some (mkAck base (pending_bitmap s sid base) credit)).

(** [self.next_delivery_order.wrapping_add(1).max(1)] *)
Definition next_order (order : Z) : Z := Z.max (wrapping_add 64 order 1) 1.

Definition is_pending (sid expected : Z) (m : RxMeta) : bool :=
  (rm_stream_id m =? sid) && (rm_sequence m =? expected) && bool_decide (rm_disposition m = Pending).

(** Every turn but the last delivers a message that was pending, so the
    number of slots bounds them; without fuel the call counts as a panic. *)
Fixpoint mark_contiguous_delivered (fuel : nat) (sid : Z) : bst unit :=
  match fuel with
  | O => lift Panic
  | S fuel =>
      s ← gets Datatypes.id;
      c ← lift (stream s sid);
      let expected := next_expected c in
      match mp_find (rx s) (is_pending sid expected) with
      | None => mret tt
      | Some idx =>
          meta ← lift (ok_or (mp_meta (rx s) idx) InvalidState);
          let meta := mkRx (rm_stream_id meta) (rm_sequence meta) (rm_end meta) Delivered (next_delivery_order s) in
          modify (λ s, put_order s (next_order (next_delivery_order s)));;
          on_rx (mp_set_meta idx meta);;
          update_stream sid (λ c, with_delivered c (rm_end meta));;
          mark_contiguous_delivered fuel sid
      end
  end.

Definition receive_unreliable (idx : nat) (snapshot : StreamCore) (sid : Z) (sequence : option Z) (data : list Z)
    : bst (option AckState) :=
  seq ← lift (if sp_sequenced (s_profile snapshot) then ok_or sequence ProfileViolation
              else fail_if (bool_decide (is_Some sequence)) ProfileViolation;; Ok 0);
  if sp_sequenced (s_profile snapshot) &&
     match unrel_rx_highest snapshot with Some highest => seq <=? highest | None => false end then mret None
  else
    (if sp_sequenced (s_profile snapshot) then update_at idx (λ c, with_unrel_rx c (Some seq)) else mret tt);;
    s ← gets Datatypes.id;
    let order := next_delivery_order s in
    modify (λ s, put_order s (next_order order));;
    on_rx (mp_insert (mkRx sid seq false Delivered order) data);;
    mret None.

Definition receive_reliable (idx : nat) (snapshot : StreamCore) (sid seq : Z) (data : list Z) (end_ : bool)
    : bst (option AckState) :=
  s ← gets Datatypes.id;
  if seq <? next_expected snapshot then lift (ack_state s sid)
  else
    let distance := wrapping_sub 32 seq (next_expected snapshot) in
    guard_st (32 <? distance) BufferFull;;
    guard_st (receive_capacity snapshot <=? rx_count_for s sid) BufferFull;;
    if bool_decide (is_Some (mp_find (rx s) (λ m, (rm_stream_id m =? sid) && (rm_sequence m =? seq))))
    then lift (ack_state s sid)
    else
      let delivered := seq =? next_expected snapshot in
      let order := if delivered then next_delivery_order s else 0 in
      (if delivered then modify (λ s, put_order s (next_order (next_delivery_order s))) else mret tt);;
      on_rx (mp_insert (mkRx sid seq end_ (if delivered then Delivered else Pending) order) data);;
      update_at idx (λ c, let c := with_seen c in if delivered then with_delivered c end_ else c);;
      mark_contiguous_delivered (S (length (mp_slots (rx s)))) sid;;
      s ← gets Datatypes.id;
      lift (ack_state s sid).

Definition receive (sid : Z) (sequence : option Z) (data : list Z) (end_ : bool) : bst (option AckState) :=
  s ← gets Datatypes.id;
  idx ← lift (stream_index s sid);
  slot ← lift (slot_at s idx);
  snapshot ← lift (ok_or slot UnknownStream);
  guard_st (match s_state snapshot with Closed | Reset => true | _ => false end || remote_ended snapshot) InvalidState;;
  guard_st (negb (remote_may_send snapshot)) DirectionViolation;;
  lift (validate_send_len (s_profile snapshot) (len data) end_);;
  if sp_unreliable (s_profile snapshot) then receive_unreliable idx snapshot sid sequence data
  else
    seq ← lift (ok_or sequence ProfileViolation);
    receive_reliable idx snapshot sid seq data end_.

(** The delivered message of the stream with the lowest order. *)
Definition best_of (sid : Z) (entries : list (nat * RxMeta)) : option (nat * RxMeta) :=
  fold_left (λ best (e : nat * RxMeta),
    if (rm_stream_id e.2 =? sid) && bool_decide (rm_disposition e.2 = Delivered) then
      if match best with Some b => rm_order e.2 <? rm_order b.2 | None => true end then Some e else best
    else best) entries None.

(** The message and the caller's buffer after the call. *)
Definition recv_into (sid : Z) (out : list Z) : bst (option (ReceivedMessage * list Z)) :=
  s ← gets Datatypes.id;
  lift (stream s sid);;
  match best_of sid (mp_entries (rx s)) with
  | None => mret None
  | Some (idx, meta) =>
      r ← on_rx (mp_remove_into idx out);
      mret (Some (mkReceived r.1.2 (rm_end meta), r.2))
  end.

(** ** Resets *)

Definition reset_stream (sid : Z) : bst unit :=
  s ← gets Datatypes.id;
  idx ← lift (stream_index s sid);
  on_tx (remove_where (λ m, tm_stream_id m =? sid));;
  on_rx (remove_where (λ m, rm_stream_id m =? sid));;
  update_at idx with_reset.

Definition reset (s : BoundedGtsSocket) : BoundedGtsSocket :=
  let s := put_state s TReset in
  let s := put_tx s (mp_clear (tx s)) in
  let s := put_rx s (mp_clear (rx s)) in
  put_streams s (fmap (M := option) with_reset <$> streams s).
