(* ===== verification/BoundedGtsInv.v ===== *)
(** * The heapless tunnel socket: invariant and effects

    What every operation of BoundedGts does to the pools and to the streams,
    and what holds of every socket that calls lead to. *)
From stdpp Require Import prelude.
From Stdlib Require Import ZArith Lia.
From S2P Require Import Prelude GdpWire GtsWire Storage BoundedGts.
Local Open Scope Z_scope.

(** ** Counting slots *)

(** How many of the first [n] slots pass a test. *)
Definition tally (f : nat → bool) (n : nat) : nat := length (filter (λ i, f i = true) (seq 0 n)).

Lemma tally_S f n : tally f (S n) = (tally f n + if f n then 1 else 0)%nat.
Proof.
  unfold tally. rewrite seq_S, filter_app, length_app, filter_cons, filter_nil. cbn [Nat.add].
  destruct (f n) eqn:E; case_decide; cbn [length]; congruence || lia.
Qed.

Lemma tally_ext f g n : (∀ i, (i < n)%nat → f i = g i) → tally f n = tally g n.
Proof.
  induction n as [| n IH]; [done |]. intros H. rewrite !tally_S, IH, H by auto with lia. done.
Qed.

Lemma tally_le f n : (tally f n ≤ n)%nat.
Proof. induction n as [| n IH]; [done |]. rewrite tally_S. destruct (f n); lia. Qed.

(** One slot more passes the test. *)
Lemma tally_change f g i n :
  (i < n)%nat → f i = false → g i = true → (∀ j, j ≠ i → f j = g j) → tally g n = S (tally f n).
Proof.
  intros Hi Hf Hg H. induction n as [| n IH]; [lia |]. rewrite !tally_S.
  destruct (decide (i = n)) as [-> |].
  - rewrite Hf, Hg, (tally_ext f g n) by (intros; apply H; lia). lia.
  - rewrite IH, (H n) by lia. lia.
Qed.

Lemma tally_pos f n i : (i < n)%nat → f i = true → (0 < tally f n)%nat.
Proof.
  intros Hi Hf. induction n as [| n IH]; [lia |]. rewrite tally_S.
  destruct (decide (i = n)) as [-> |]; [rewrite Hf; lia |]. lia.
Qed.

(** ** The entries of a pool *)

Section entries.
Context {M : Type}.
Implicit Types p : MessagePool M.

Definition view_test (P : M → bool) p (i : nat) : bool :=
  match pool_view p i with Some (m, _) => P m | None => false end.

Lemma entries_seq p : mp_entries p = omap (λ i, m ← mp_meta p i; Some (i, m)) (seq 0 (length (mp_slots p))).
Proof.
  unfold mp_entries, mp_meta. induction (mp_slots p) as [| x l IH] using rev_ind; [done |].
  rewrite imap_app, omap_app, length_app, IH. cbn [length].
  replace (length l + 1)%nat with (S (length l)) by lia. rewrite seq_S, omap_app. f_equal.
  - apply list_omap_ext. apply Forall2_same_length_lookup. split; [done |]. intros i a b Ha Hb.
    rewrite Ha in Hb. apply Some_inj in Hb as <-. apply lookup_seq in Ha as [-> Hi]. cbn. by rewrite lookup_app_l by lia.
  - cbn [imap omap list_omap]. rewrite Nat.add_0_l, lookup_app_r, Nat.sub_diag, Nat.add_0_r by lia. done.
Qed.

Lemma elem_of_entries p i m : (i, m) ∈ mp_entries p ↔ mp_meta p i = Some m.
Proof.
  rewrite entries_seq, list_elem_of_omap. split.
  - intros (j & _ & H). destruct (mp_meta p j) as [m' |] eqn:E; [| done]. cbn in H. congruence.
  - intros H. exists i. rewrite H. split; [| done]. apply elem_of_seq. unfold mp_meta in H.
    destruct (mp_slots p !! i) eqn:E; [| done]. apply lookup_lt_Some in E. lia.
Qed.

Lemma view_entry p i m d : pool_view p i = Some (m, d) → (i, m) ∈ mp_entries p.
Proof. intros H. by rewrite elem_of_entries, mp_meta_view, H. Qed.
Lemma entry_view p i m : (i, m) ∈ mp_entries p → ∃ d, pool_view p i = Some (m, d).
Proof.
  rewrite elem_of_entries, mp_meta_view. destruct (pool_view p i) as [[m' d] |]; cbn; [| done].
  intros [= ->]. by exists d.
Qed.
Lemma view_lt p i x : pool_view p i = Some x → (i < length (mp_slots p))%nat.
Proof. unfold pool_view. destruct (mp_slots p !! i) eqn:E; [| done]. by apply lookup_lt_Some in E. Qed.

Lemma count_entries (P : M → bool) (Q : nat * M → Prop) `{∀ e, Decision (Q e)} p :
  (∀ e, Q e ↔ P e.2 = true) → length (filter Q (mp_entries p)) = tally (view_test P p) (length (mp_slots p)).
Proof.
  intros HQ. rewrite entries_seq. unfold tally.
  induction (seq 0 (length (mp_slots p))) as [| i l IH]; [done |]. cbn [omap list_omap].
  rewrite filter_cons, mp_meta_view. assert (Hv : view_test P p i = match pool_view p i with Some (m, _) => P m | None => false end) by done.
  destruct (pool_view p i) as [[m d] |]; cbn [fmap option_fmap option_map mbind option_bind fst].
  - rewrite filter_cons. pose proof (HQ (i, m)) as HQ'. cbn [snd] in HQ'.
    repeat case_decide; cbn [length]; rewrite ?IH; naive_solver.
  - case_decide; [congruence | done].
Qed.

Lemma mp_find_spec p P :
  match mp_find p P with
  | Some i => ∃ m d, pool_view p i = Some (m, d) ∧ P m = true
  | None => ∀ i m d, pool_view p i = Some (m, d) → P m = false
  end.
Proof.
  unfold mp_find. destruct (list_find _ _) as [[i s] |] eqn:E; cbn.
  - apply list_find_Some in E as (Hi & Hp & _). unfold pool_view. rewrite Hi. cbn.
    destruct (ms_meta s) as [m |]; [| done]. by eexists _, _.
  - intros i m d. unfold pool_view. destruct (mp_slots p !! i) as [s |] eqn:Es; cbn; [| done].
    pose proof (proj1 (list_find_None _ _) E) as Hf. rewrite Forall_lookup in Hf. specialize (Hf i s Es). cbn in Hf.
    destruct (ms_meta s) as [m' |]; cbn; [| done]. intros [= -> _]. by destruct (P m).
Qed.

Lemma remove_each_spec (P : M → bool) l p :
  pool_ok p → ∃ p', remove_each P l p = (p', Ok tt) ∧ pool_ok p' ∧ length (mp_slots p') = length (mp_slots p) ∧
    ∀ i, pool_view p' i = if bool_decide (i ∈ l) && view_test P p i then None else pool_view p i.
Proof.
  revert p. induction l as [| j l IH]; intros p Hok; [by exists p |]. cbn [remove_each].
  rewrite (st_bind_Ok_l _ _ p p p) by done. rewrite mp_meta_view.
  assert (Hstep : ∃ p1, (match fst <$> pool_view p j with
       | Some meta => if P meta then mp_remove j;; mret tt else mret tt | None => mret tt end) p = (p1, Ok tt) ∧
     pool_ok p1 ∧ length (mp_slots p1) = length (mp_slots p) ∧
     ∀ i, pool_view p1 i = if bool_decide (i = j) && view_test P p i then None else pool_view p i).
  { pose proof (pool_remove_spec p j) as Hr. destruct (pool_view p j) as [[m d] |] eqn:Ev; cbn in *.
    - destruct (P m) eqn:Ep.
      + exists (mp_release j p). rewrite (st_bind_Ok_l _ _ _ _ _ Hr). split; [done |].
        destruct (mp_release_spec p j Hok) as [Hok' Hv]. split; [done |].
        split; [cbn; by rewrite length_insert |]. intros i. rewrite Hv. unfold view_test.
        case_decide; case_bool_decide; try done. subst. by rewrite Ev, Ep.
      + exists p. split_and!; try done. intros i. unfold view_test. case_bool_decide; [| done]. subst. by rewrite Ev, Ep.
    - exists p. split_and!; try done. intros i. unfold view_test. case_bool_decide; [| done]. subst. by rewrite Ev. }
  destruct Hstep as (p1 & H1 & Hok1 & Hl1 & Hv1). rewrite (st_bind_Ok_l _ _ _ _ _ H1).
  destruct (IH p1 Hok1) as (p' & H2 & Hok2 & Hl2 & Hv2). exists p'. split; [done |]. split; [done |].
  split; [congruence |]. intros i. rewrite Hv2. unfold view_test in *. rewrite !Hv1.
  rewrite (bool_decide_ext (i ∈ j :: l) (i = j ∨ i ∈ l)), bool_decide_or by apply elem_of_cons.
  destruct (bool_decide (i = j)), (bool_decide (i ∈ l)), (pool_view p i) as [[m d] |]; cbn; try done;
    destruct (P m) eqn:Ep; cbn; rewrite ?Ep; done.
Qed.

Lemma remove_where_spec (P : M → bool) p :
  pool_ok p → ∃ p', remove_where P p = (p', Ok tt) ∧ pool_ok p' ∧ length (mp_slots p') = length (mp_slots p) ∧
    ∀ i, pool_view p' i = if view_test P p i then None else pool_view p i.
Proof.
  intros Hok. unfold remove_where. rewrite (st_bind_Ok_l _ _ p p p) by done.
  destruct (remove_each_spec P (seq 0 (length (mp_slots p))) p Hok) as (p' & H & Hok' & Hl & Hv).
  exists p'. split_and!; try done. intros i. rewrite Hv. unfold view_test.
  destruct (pool_view p i) as [[m d] |] eqn:Ev; [| by rewrite andb_false_r].
  apply view_lt in Ev. rewrite bool_decide_eq_true_2; [done |]. apply elem_of_seq. lia.
Qed.
End entries.

(** ** The streams of a socket *)

Lemma stream_index_lt s sid idx : stream_index s sid = Ok idx →
  ∃ c, streams s !! idx = Some (Some c) ∧ s_id c = sid.
Proof.
  unfold stream_index. destruct (list_find _ _) as [[i slot] |] eqn:E; [| done]. intros [= <-].
  apply list_find_Some in E as (Hi & Hp & _). destruct slot as [c |]; [| done]. exists c. cbn in Hp. by apply Z.eqb_eq in Hp.
Qed.

Lemma stream_Ok s sid c : stream s sid = Ok c ↔ ∃ idx, stream_index s sid = Ok idx ∧ streams s !! idx = Some (Some c).
Proof.
  unfold stream, slot_at. split.
  - intros H. apply bind_Ok in H as (idx & Hi & H). exists idx. split; [done |].
    destruct (stream_index_lt _ _ _ Hi) as (c' & Hc & _). rewrite Hc in H |- *. apply Ok_inj in H. by subst.
  - intros (idx & -> & H). cbn. by rewrite H.
Qed.
Lemma stream_id s sid c : stream s sid = Ok c → s_id c = sid.
Proof. intros (idx & Hi & Hc)%stream_Ok. destruct (stream_index_lt _ _ _ Hi) as (c' & Hc' & <-). congruence. Qed.
Lemma stream_no_panic s sid : stream s sid ≠ Panic.
Proof.
  unfold stream, slot_at. destruct (stream_index s sid) as [idx | |] eqn:E; cbn; [| done |].
  - destruct (stream_index_lt _ _ _ E) as (c & -> & _). done.
  - unfold stream_index in E. by destruct (list_find _ _).
Qed.
Lemma stream_index_no_panic s sid : stream_index s sid ≠ Panic.
Proof. unfold stream_index. by destruct (list_find _ _). Qed.

(** Whether a stream is there is read off the slots alone. *)
Lemma stream_streams s s' : streams s' = streams s → ∀ sid, stream s' sid = stream s sid.
Proof. unfold stream, stream_index, slot_at. intros ->. done. Qed.

(** A stream of its slot changes and keeps its identifier. *)
Lemma find_insert_same (l : list BoundedStreamSlot) idx c c' sid :
  l !! idx = Some (Some c) → s_id c' = s_id c →
  fst <$> list_find (λ slot, has_id sid slot = true) (<[idx := Some c']> l) =
  fst <$> list_find (λ slot, has_id sid slot = true) l.
Proof.
  intros Hl Hid. revert idx Hl. induction l as [| x l IH]; intros [| idx] Hl; try done; cbn in *.
  - apply Some_inj in Hl as ->. cbn. rewrite Hid. repeat case_decide; try done. 
  - case_decide; [done |]. specialize (IH idx Hl).
    destruct (list_find _ (<[idx:=Some c']> l)) as [[] |], (list_find _ l) as [[] |]; cbn in *; congruence.
Qed.

Lemma stream_update s idx c c' sid sid' :
  stream_index s sid = Ok idx → streams s !! idx = Some (Some c) → s_id c' = sid →
  stream (put_streams s (<[idx := Some c']> (streams s))) sid' = if sid' =? sid then Ok c' else stream s sid'.
Proof.
  intros Hi Hc Hid. assert (Hid' : s_id c = sid).
  { destruct (stream_index_lt _ _ _ Hi) as (c0 & Hc0 & <-). congruence. }
  assert (Hx : stream_index (put_streams s (<[idx := Some c']> (streams s))) sid' = stream_index s sid').
  { unfold stream_index. cbn. by rewrite (find_insert_same _ _ c) by congruence. }
  assert (Hlt : (idx < length (streams s))%nat) by by apply lookup_lt_Some in Hc.
  unfold stream. rewrite Hx. destruct (Z.eqb_spec sid' sid) as [-> |].
  - rewrite Hi. cbn. unfold slot_at. cbn. by rewrite list_lookup_insert_eq.
  - destruct (stream_index s sid') as [idx' | |] eqn:E; [| done..]. cbn. unfold slot_at. cbn.
    rewrite list_lookup_insert_ne; [done |]. intros <-.
    destruct (stream_index_lt _ _ _ E) as (c1 & H1 & H2). congruence.
Qed.

Lemma update_at_spec s idx c sid f :
  stream_index s sid = Ok idx → streams s !! idx = Some (Some c) →
  update_at idx f s = (put_streams s (<[idx := Some (f c)]> (streams s)), Ok tt).
Proof.
  intros Hi Hc. unfold update_at. rewrite (st_bind_Ok_l _ _ s s s) by done. unfold slot_at. rewrite Hc. done.
Qed.

Lemma update_stream_spec s c sid f :
  stream s sid = Ok c → (∀ c, s_id (f c) = s_id c) →
  ∃ s', update_stream sid f s = (s', Ok tt) ∧ (∃ l, s' = put_streams s l) ∧
    ∀ sid', stream s' sid' = if sid' =? sid then Ok (f c) else stream s sid'.
Proof.
  intros Hs Hf. pose proof (stream_id _ _ _ Hs) as Hid. apply stream_Ok in Hs as (idx & Hi & Hc).
  exists (put_streams s (<[idx := Some (f c)]> (streams s))). split_and!.
  - unfold update_stream. rewrite (st_bind_Ok_l _ _ s s s) by done. rewrite Hi.
    rewrite (st_bind_Ok_l _ _ s s idx) by done. unfold slot_at. rewrite Hc. done.
  - by eexists.
  - intros sid'. eapply stream_update; [done | done |]. rewrite Hf. done.
Qed.

(** ** The invariant *)

Definition rx_view (s : BoundedGtsSocket) : nat → option (RxMeta * list Z) := pool_view (rx s).
Definition tx_view (s : BoundedGtsSocket) : nat → option (TxMeta * list Z) := pool_view (tx s).

Record stream_ok (s : BoundedGtsSocket) (sid : Z) (c : StreamCore) : Prop := {
  so_expected : u32 (next_expected c);
  so_sequence : u32 (next_tx_sequence c);
  so_credit : u8 (peer_credit c);
  so_capacity : u8 (receive_capacity c);
  so_held : sp_unreliable (s_profile c) = false → rx_count_for s sid ≤ receive_capacity c }.

Record bs_inv (s : BoundedGtsSocket) : Prop := {
  bi_tx : pool_ok (tx s);
  bi_rx : pool_ok (rx s);
  bi_streams : ∀ sid c, stream s sid = Ok c → stream_ok s sid c;
  bi_owned : ∀ i m d, rx_view s i = Some (m, d) → ∃ c, stream s (rm_stream_id m) = Ok c;
  bi_owned_tx : ∀ i m d, tx_view s i = Some (m, d) →
    ∃ c, stream s (tm_stream_id m) = Ok c ∧ sp_unreliable (s_profile c) = false }.

Lemma rx_count_tally s sid :
  rx_count_for s sid = Z.of_nat (tally (view_test (λ m, rm_stream_id m =? sid) (rx s)) (length (mp_slots (rx s)))).
Proof.
  unfold rx_count_for, len. rewrite (count_entries (λ m, rm_stream_id m =? sid)); [done |].
  intros [i m]. cbn. by rewrite Z.eqb_eq.
Qed.

(** Nothing that belongs to stream [sid] changed on the receiving side. *)
Record keeps_rx (sid : Z) (s s' : BoundedGtsSocket) : Prop := {
  kr_view : ∀ i m d, rm_stream_id m = sid → rx_view s' i = Some (m, d) ↔ rx_view s i = Some (m, d);
  kr_slots : length (mp_slots (rx s')) = length (mp_slots (rx s)) }.

Lemma keeps_rx_refl sid s s' : rx s' = rx s → keeps_rx sid s s'.
Proof. intros H. split; unfold rx_view; by rewrite H. Qed.

Lemma keeps_rx_count sid s s' : keeps_rx sid s s' → rx_count_for s' sid = rx_count_for s sid.
Proof.
  intros [Hv Hl]. rewrite !rx_count_tally, Hl. f_equal. apply tally_ext. intros i _. unfold view_test.
  destruct (pool_view (rx s') i) as [[m d] |] eqn:E', (pool_view (rx s) i) as [[m1 d1] |] eqn:E; try done.
  - destruct (Z.eqb_spec (rm_stream_id m) sid) as [H |].
    + apply (Hv i m d H) in E'. unfold rx_view in E'. rewrite E in E'. assert (m1 = m) as -> by congruence.
      symmetry. by apply Z.eqb_eq.
    + destruct (Z.eqb_spec (rm_stream_id m1) sid) as [H1 |]; [| done].
      apply (Hv i m1 d1 H1) in E. unfold rx_view in E. rewrite E' in E. congruence.
  - apply Z.eqb_neq. intros H. apply (Hv i m d H) in E'. unfold rx_view in E'. congruence.
  - symmetry. apply Z.eqb_neq. intros H. apply (Hv i m1 d1 H) in E. unfold rx_view in E. congruence.
Qed.

Lemma bs_inv_same s s' : streams s' = streams s → tx s' = tx s → rx s' = rx s → bs_inv s → bs_inv s'.
Proof.
  intros Hs Ht Hr [H1 H2 H3 H4 H5]. pose proof (stream_streams s s' Hs) as Hst.
  split; unfold rx_view, tx_view; rewrite ?Ht, ?Hr; try done.
  - intros sid c Hc. rewrite Hst in Hc. destruct (H3 sid c Hc) as [? ? ? ? Hh]. split; try done.
    intros Hu. unfold rx_count_for. rewrite Hr. by apply Hh.
  - intros i m d Hv. rewrite Hst. by eapply H4.
  - intros i m d Hv. rewrite Hst. by eapply H5.
Qed.

(** One stream changes; its profile and its capacity do not. *)
Lemma bs_inv_update s s' sid c c' :
  bs_inv s → stream s sid = Ok c → tx s' = tx s → rx s' = rx s →
  (∀ sid', stream s' sid' = if sid' =? sid then Ok c' else stream s sid') →
  s_profile c' = s_profile c → receive_capacity c' = receive_capacity c →
  u32 (next_expected c') → u32 (next_tx_sequence c') → u8 (peer_credit c') →
  bs_inv s'.
Proof.
  intros [H1 H2 H3 H4 H5] Hc Ht Hr Hst Hp Hcap Hx Hq Hk.
  split; unfold rx_view, tx_view; rewrite ?Ht, ?Hr; try done.
  - intros sid' c0 H0. rewrite Hst in H0. unfold rx_count_for.
    destruct (Z.eqb_spec sid' sid) as [-> |].
    + apply Ok_inj in H0 as <-. destruct (H3 sid c Hc) as [? ? ? ? Hh]. split; rewrite ?Hcap; try done.
      intros Hu. unfold rx_count_for. rewrite Hr. apply Hh. by rewrite <- Hp.
    + destruct (H3 sid' c0 H0) as [? ? ? ? Hh]. split; try done. intros Hu. unfold rx_count_for. rewrite Hr. by apply Hh.
  - intros i m d Hv. rewrite Hst. case_match; [by eexists | by eapply H4].
  - intros i m d Hv. rewrite Hst. destruct (Z.eqb_spec (tm_stream_id m) sid) as [E |]; [| by eapply H5].
    exists c'. split; [done |]. rewrite Hp. destruct (H5 i m d Hv) as (c1 & H6 & H7). rewrite E in H6. congruence.
Qed.

(** The pools change: what they hold still belongs to streams, and no reliable
    stream holds more than it promised. *)
Lemma bs_inv_pools s s' :
  bs_inv s → (∀ sid, stream s' sid = stream s sid) → pool_ok (tx s') → pool_ok (rx s') →
  (∀ i m d, tx_view s' i = Some (m, d) → ∃ c, stream s (tm_stream_id m) = Ok c ∧ sp_unreliable (s_profile c) = false) →
  (∀ i m d, rx_view s' i = Some (m, d) → ∃ c, stream s (rm_stream_id m) = Ok c) →
  (∀ sid c, stream s sid = Ok c → sp_unreliable (s_profile c) = false → rx_count_for s' sid ≤ receive_capacity c) →
  bs_inv s'.
Proof.
  intros [H1 H2 H3 H4 H5] Hst Ht Hr Hot Hor Hcap. split; try done.
  - intros sid c Hc. rewrite Hst in Hc. destruct (H3 sid c Hc). split; try done. intros Hu. by apply Hcap.
  - intros i m d Hv. rewrite Hst. by eapply Hor.
  - intros i m d Hv. rewrite Hst. by eapply Hot.
Qed.

(** ** Delivering what has become contiguous *)

Definition pendings (s : BoundedGtsSocket) : nat :=
  tally (view_test (λ m, bool_decide (rm_disposition m = Pending)) (rx s)) (length (mp_slots (rx s))).

(** The slot [i] of the receive pool is replaced. *)
Definition rx_set (s s' : BoundedGtsSocket) (i : nat) (e : RxMeta * list Z) : Prop :=
  (∀ j, rx_view s' j = if decide (j = i) then Some e else rx_view s j) ∧
  length (mp_slots (rx s')) = length (mp_slots (rx s)) ∧ pool_ok (rx s').

Definition stream_set (s s' : BoundedGtsSocket) (sid : Z) (c : StreamCore) : Prop :=
  ∀ sid', stream s' sid' = if sid' =? sid then Ok c else stream s sid'.

(** One turn of [mark_contiguous_delivered] that finds the expected message. *)
Record mark_step (sid : Z) (s s' : BoundedGtsSocket) : Prop := {
  ms_step : ∃ c i m d, stream s sid = Ok c ∧ rx_view s i = Some (m, d) ∧ is_pending sid (next_expected c) m = true ∧
    rx_set s s' i (mkRx (rm_stream_id m) (rm_sequence m) (rm_end m) Delivered (next_delivery_order s), d) ∧
    stream_set s s' sid (with_delivered c (rm_end m));
  ms_order : next_delivery_order s' = next_order (next_delivery_order s);
  ms_tx : tx s' = tx s }.

Lemma is_pending_spec sid q m :
  is_pending sid q m = true ↔ rm_stream_id m = sid ∧ rm_sequence m = q ∧ rm_disposition m = Pending.
Proof. unfold is_pending. rewrite !andb_true_iff, !Z.eqb_eq, bool_decide_eq_true. tauto. Qed.

Lemma rx_set_count s s' i m d m' d' sid :
  rx_set s s' i (m', d') → rx_view s i = Some (m, d) → rm_stream_id m' = rm_stream_id m →
  rx_count_for s' sid = rx_count_for s sid.
Proof.
  intros (Hv & Hl & _) Hi Hid. rewrite !rx_count_tally, Hl. f_equal. apply tally_ext. intros j _. unfold view_test.
  change (pool_view (rx s') j) with (rx_view s' j). change (pool_view (rx s) j) with (rx_view s j).
  rewrite Hv. case_decide; [| done]. subst. by rewrite Hi, Hid.
Qed.

Lemma mark_step_pendings sid s s' : mark_step sid s s' → pendings s = S (pendings s').
Proof.
  intros [(c & i & m & d & _ & Hi & Hp & (Hv & Hl & _) & _) _ _]. unfold pendings. rewrite Hl.
  apply is_pending_spec in Hp as (_ & _ & Hp).
  apply (tally_change _ _ i).
  - rewrite <- Hl. apply (view_lt (rx s') i (mkRx (rm_stream_id m) (rm_sequence m) (rm_end m) Delivered (next_delivery_order s), d)).
    change (rx_view s' i = Some (mkRx (rm_stream_id m) (rm_sequence m) (rm_end m) Delivered (next_delivery_order s), d)).
    rewrite Hv. by rewrite decide_True by done.
  - unfold view_test. change (pool_view (rx s') i) with (rx_view s' i). rewrite Hv, decide_True by done. done.
  - unfold view_test. change (pool_view (rx s) i) with (rx_view s i). rewrite Hi. by apply bool_decide_eq_true.
  - intros j Hj. unfold view_test. change (pool_view (rx s') j) with (rx_view s' j). rewrite Hv, decide_False by done. done.
Qed.

Lemma mark_step_inv sid s s' : mark_step sid s s' → bs_inv s → bs_inv s'.
Proof.
  intros [(c & i & m & d & Hc & Hi & Hp & Hset & Hst) _ Htx] Hs. pose proof Hset as (Hv & Hl & Hok).
  pose proof Hs as [H1 H2 H3 H4 H5]. split; rewrite ?Htx; try done.
  - intros sid' c' Hc'. pose proof (rx_set_count s s' i m d _ d sid' Hset Hi eq_refl) as Hn.
    rewrite Hst in Hc'. destruct (Z.eqb_spec sid' sid) as [-> |].
    + apply Ok_inj in Hc' as <-. destruct (H3 sid c Hc). split; try done; rewrite ?Hn; cbn; [ulia | done].
    + destruct (H3 sid' c' Hc'). split; try done. by rewrite Hn.
  - intros j m' d' Hj. rewrite Hst. case_match; [by eexists |]. rewrite Hv in Hj. case_decide; [| by eapply H4].
    injection Hj as <- <-. cbn. by eapply H4.
  - intros j m' d' Hj. unfold tx_view in Hj. rewrite Htx in Hj. destruct (H5 j m' d' Hj) as (c1 & Hc1 & Hu).
    rewrite Hst. destruct (Z.eqb_spec (tm_stream_id m') sid) as [E |]; [| by exists c1].
    eexists. split; [done |]. rewrite E in Hc1. cbn. congruence.
Qed.

(** With fuel for the messages that wait, the loop delivers until the expected
    message is not there. *)
Lemma mark_exec sid fuel s c :
  bs_inv s → stream s sid = Ok c → (pendings s < fuel)%nat →
  ∃ s' k, mark_contiguous_delivered fuel sid s = (s', Ok tt) ∧ nsteps (mark_step sid) k s s' ∧
    (pendings s = k + pendings s')%nat ∧
    ∃ c', stream s' sid = Ok c' ∧ ∀ i m d, rx_view s' i = Some (m, d) → is_pending sid (next_expected c') m = false.
Proof.
  revert s c. induction fuel as [| fuel IH]; intros s c Hs Hc Hf; [lia |]. cbn [mark_contiguous_delivered].
  rewrite (st_bind_Ok_l _ _ s s s) by done. rewrite Hc. rewrite (st_bind_Ok_l _ _ s s c) by done.
  pose proof (mp_find_spec (rx s) (is_pending sid (next_expected c))) as Hfind.
  destruct (mp_find (rx s) (is_pending sid (next_expected c))) as [i |].
  2: { exists s, 0%nat. split; [done |]. split; [constructor |]. split; [lia |]. exists c. split; [done |]. apply Hfind. }
  destruct Hfind as (m & d & Hi & Hp). rewrite mp_meta_view, Hi. cbn [fmap option_fmap option_map fst ok_or].
  rewrite (st_bind_Ok_l _ _ s s m) by done.
  set (m' := mkRx (rm_stream_id m) (rm_sequence m) (rm_end m) Delivered (next_delivery_order s)).
  set (s1 := put_order s (next_order (next_delivery_order s))).
  rewrite (st_bind_Ok_l _ _ s s1 tt) by done.
  pose proof (pool_set_meta_spec (rx s) i m' (bi_rx s Hs)) as Hset. rewrite Hi in Hset.
  destruct Hset as (p' & Hset & Hok' & _ & Hl' & Hv').
  set (s2 := put_rx s1 p').
  rewrite (st_bind_Ok_l _ _ s1 s2 tt).
  2: { unfold on_rx, zoom. change (rx s1) with (rx s). by rewrite Hset. }
  assert (Hc2 : stream s2 sid = Ok c) by done.
  destruct (update_stream_spec s2 c sid (λ c, with_delivered c (rm_end m)) Hc2) as (s3 & H3 & (l & ->) & Hst); [done |].
  change (rm_end m') with (rm_end m). rewrite (st_bind_Ok_l _ _ _ _ _ H3).
  assert (Hstep : mark_step sid s (put_streams s2 l)).
  { split; [| done..]. exists c, i, m, d. split_and!; try done. }
  pose proof (mark_step_pendings _ _ _ Hstep) as Hpend.
  destruct (IH (put_streams s2 l) (with_delivered c (rm_end m))) as (s' & k & H & Hk & Hq & Hend).
  - by eapply mark_step_inv.
  - rewrite Hst. by rewrite Z.eqb_refl.
  - lia.
  - exists s', (S k). split; [done |]. split; [by econstructor |]. split; [lia | done].
Qed.

(** ** The effect of a call *)

Definition rx_slots (s : BoundedGtsSocket) : nat := length (mp_slots (rx s)).

(** The delivery counter has moved at most [b] times. *)
Definition order_moves (b : nat) (s s' : BoundedGtsSocket) : Prop :=
  ∃ k, (k ≤ b)%nat ∧ next_delivery_order s' = Nat.iter k next_order (next_delivery_order s).

(** The receiving half of the stream is as before. *)
Definition quiet (sid : Z) (s s' : BoundedGtsSocket) : Prop :=
  (∀ c, stream s sid = Ok c →
     ∃ c', stream s' sid = Ok c' ∧ s_profile c' = s_profile c ∧ next_expected c' = next_expected c) ∧
  (∀ i m d, rm_stream_id m = sid → rx_view s' i = Some (m, d) ↔ rx_view s i = Some (m, d)).

(** The call keeps the invariant and, outside the streams [T], what is received. *)
Record effect (T : Z → Prop) (s s' : BoundedGtsSocket) : Prop := {
  ef_inv : bs_inv s';
  ef_slots : rx_slots s' = rx_slots s;
  ef_order : order_moves (S (rx_slots s)) s s';
  ef_quiet : ∀ sid, ¬ T sid → quiet sid s s' }.

Definition eff {A} (T : Z → Prop) (s0 : BoundedGtsSocket) (m : bst A) (s : BoundedGtsSocket) : Prop :=
  effect T s0 (m s).1 ∧ (m s).2 ≠ Panic.

Lemma quiet_streams sid s s' :
  rx s' = rx s → (∀ c, stream s sid = Ok c →
     ∃ c', stream s' sid = Ok c' ∧ s_profile c' = s_profile c ∧ next_expected c' = next_expected c) → quiet sid s s'.
Proof. intros Hr H. split; [done |]. unfold rx_view. by rewrite Hr. Qed.

Lemma order_moves_refl b s s' : next_delivery_order s' = next_delivery_order s → order_moves b s s'.
Proof. intros H. exists 0%nat. split; [lia | done]. Qed.

(** The receive pool does not change, and a stream keeps its profile and its
    expected message. *)
Lemma effect_rx_same T s s' :
  bs_inv s' → rx s' = rx s → next_delivery_order s' = next_delivery_order s →
  (∀ sid c, stream s sid = Ok c →
     ∃ c', stream s' sid = Ok c' ∧ s_profile c' = s_profile c ∧ next_expected c' = next_expected c) →
  effect T s s'.
Proof.
  intros Hi Hr Ho Hst. split; [done | unfold rx_slots; by rewrite Hr | by apply order_moves_refl |].
  intros sid _. apply quiet_streams; [done | apply Hst].
Qed.

Lemma effect_same T s s' :
  bs_inv s → streams s' = streams s → tx s' = tx s → rx s' = rx s →
  next_delivery_order s' = next_delivery_order s → effect T s s'.
Proof.
  intros Hi Hs Ht Hr Ho. apply effect_rx_same; try done; [by apply (bs_inv_same s) |].
  intros sid c Hc. exists c. by rewrite (stream_streams s s' Hs).
Qed.
Lemma effect_refl T s : bs_inv s → effect T s s.
Proof. intros Hi. by apply effect_same. Qed.

Lemma eff_get {A} T s0 (f : BoundedGtsSocket → bst A) s : eff T s0 (f s) s → eff T s0 (gets Datatypes.id ≫= f) s.
Proof. done. Qed.
Lemma eff_step {A B} T s0 (m : bst A) (f : A → bst B) s s1 a :
  m s = (s1, Ok a) → eff T s0 (f a) s1 → eff T s0 (m ≫= f) s.
Proof. intros H Hf. unfold eff. by rewrite (st_bind_Ok_l _ _ _ _ _ H). Qed.
Lemma eff_lift {A B} T s0 (m : res A) (f : A → bst B) s :
  m ≠ Panic → effect T s0 s → (∀ a, m = Ok a → eff T s0 (f a) s) → eff T s0 (lift m ≫= f) s.
Proof. intros Hn He Hf. destruct m as [a | e |]; [by apply (Hf a) | by split | done]. Qed.
Lemma eff_guard {B} T s0 b e (f : unit → bst B) s :
  effect T s0 s → (b = false → eff T s0 (f tt) s) → eff T s0 (guard_st b e ≫= f) s.
Proof. intros He Hf. destruct b; [by split | by apply Hf]. Qed.
Lemma eff_done {A} T s0 (m : bst A) s s' r : m s = (s', r) → r ≠ Panic → effect T s0 s' → eff T s0 m s.
Proof. intros H Hr He. unfold eff. by rewrite H. Qed.

(** A stream found by its identifier, with its slot. *)
Lemma eff_lookup {B} T s0 sid (f : nat → StreamCore → bst B) s :
  effect T s0 s → (∀ idx c, stream_index s sid = Ok idx → streams s !! idx = Some (Some c) → stream s sid = Ok c →
     eff T s0 (f idx c) s) →
  eff T s0 (idx ← lift (stream_index s sid); slot ← lift (slot_at s idx);
            c ← lift (ok_or slot UnknownStream); f idx c) s.
Proof.
  intros He Hf. apply eff_lift; [apply stream_index_no_panic | done |]. intros idx Hi.
  destruct (stream_index_lt _ _ _ Hi) as (c & Hc & _). unfold slot_at. rewrite Hc. apply (Hf idx c); [done | done |].
  apply stream_Ok. by exists idx.
Qed.
Lemma eff_stream {B} T s0 sid (f : StreamCore → bst B) s :
  effect T s0 s → (∀ c, stream s sid = Ok c → eff T s0 (f c) s) → eff T s0 (c ← lift (stream s sid); f c) s.
Proof. intros He Hf. apply eff_lift; [apply stream_no_panic | done | done]. Qed.

Lemma sp_validate_no_panic p : sp_validate p ≠ Panic.
Proof. unfold sp_validate. by destruct (_ && _). Qed.
Lemma validate_send_len_no_panic p n e : validate_send_len p n e ≠ Panic.
Proof.
  unfold validate_send_len, fixed_unreliable_data_len, fixed_reliable_end_capacity, fixed_reliable_data_len.
  repeat case_match; match goal with |- ?m ≠ Panic => change (no_panic m) end; eauto with nopanic.
Qed.

(** ** Opening streams *)

Lemma set_rto_eff T s v : bs_inv s → eff T s (set_rto_ms v) s.
Proof. intros Hs. apply eff_guard; [by apply effect_refl |]. intros _. split; [by apply effect_same | done]. Qed.

Lemma establish_eff T s a b : bs_inv s → eff T s (establish a b) s.
Proof.
  intros Hs. apply eff_get, eff_guard; [by apply effect_refl |]. intros _.
  eapply eff_step; [done |]. split; [by apply effect_same | done].
Qed.

Lemma alloc_stream_eff T s : bs_inv s → eff T s alloc_stream_id s.
Proof.
  intros Hs. apply eff_get, eff_guard; [by apply effect_refl |]. intros _. apply eff_guard; [by apply effect_refl |]. intros _.
  eapply eff_step; [done |]. split; [by apply effect_same | done].
Qed.

(** A new stream takes a free slot and hides no other. *)
Lemma find_insert_new (l : list BoundedStreamSlot) idx c sid :
  l !! idx = Some None → existsb (has_id (s_id c)) l = false →
  fst <$> list_find (λ slot, has_id sid slot = true) (<[idx := Some c]> l) =
  if s_id c =? sid then Some idx else fst <$> list_find (λ slot, has_id sid slot = true) l.
Proof.
  revert idx. induction l as [| x l IH]; intros [| idx] Hl Hx; try done; cbn in *; apply orb_false_iff in Hx as [Hx Hxl].
  - apply Some_inj in Hl as ->. cbn. destruct (s_id c =? sid); by case_decide.
  - specialize (IH idx Hl Hxl).
    destruct (Z.eqb_spec (s_id c) sid) as [E |].
    + rewrite E in Hx. rewrite Hx. rewrite decide_False by done.
      destruct (list_find _ (<[idx:=Some c]> l)) as [[] |]; cbn in *; congruence.
    + case_decide; [done |]. destruct (list_find _ (<[idx:=Some c]> l)) as [[] |], (list_find _ l) as [[] |]; cbn in *; congruence.
Qed.

Lemma add_stream_eff T s sid p opened cap credit :
  bs_inv s → u8 cap → u8 credit → eff T s (add_stream sid p opened cap credit) s.
Proof.
  intros Hs Hcap Hcr. unfold add_stream. apply eff_lift; [apply sp_validate_no_panic | by apply effect_refl |]. intros _ _.
  apply eff_get, eff_guard; [by apply effect_refl |]. intros Hnew. apply eff_lift; [by destruct (list_find _ _) | by apply effect_refl |].
  intros idx Hf. destruct (list_find _ _) as [[i slot] |] eqn:E; [| done]. apply Ok_inj in Hf as <-.
  apply list_find_Some in E as (Hi & -> & _). cbn [fst].
  set (c := new_stream sid p opened cap credit). set (s' := put_streams s (<[i:=Some c]> (streams s))).
  assert (Hlt : (i < length (streams s))%nat) by by apply lookup_lt_Some in Hi.
  assert (Hx : ∀ q, stream_index s' q = if sid =? q then Ok i else stream_index s q).
  { intros q. unfold stream_index. cbn. rewrite (find_insert_new _ i c q Hi Hnew). by destruct (_ =? _). }
  assert (Hst : ∀ q, stream s' q = if q =? sid then Ok c else stream s q).
  { intros q. unfold stream. rewrite Hx, (Z.eqb_sym q). destruct (Z.eqb_spec sid q).
    - cbn. unfold slot_at. cbn. by rewrite list_lookup_insert_eq.
    - destruct (stream_index s q) as [j | |] eqn:Ej; [| done..]. cbn. unfold slot_at. cbn.
      destruct (stream_index_lt _ _ _ Ej) as (c1 & H1 & _). rewrite list_lookup_insert_ne; [done | congruence]. }
  assert (Hno : ∀ c0, stream s sid ≠ Ok c0).
  { intros c0 (j & Hj & Hc0)%stream_Ok.
    assert (Ht : existsb (has_id sid) (streams s) = true); [| congruence].
    apply existsb_exists. exists (Some c0). split; [by apply list_elem_of_In, list_elem_of_lookup_2 with j |]. cbn.
    apply Z.eqb_eq. destruct (stream_index_lt _ _ _ Hj) as (c1 & H1 & <-). congruence. }
  eapply eff_done; [done | done |].
  pose proof Hs as [H1 H2 H3 H4 H5]. apply effect_rx_same; [| done | done |].
  - split; try done.
    + intros q c0. rewrite Hst. destruct (Z.eqb_spec q sid) as [-> |].
      * intros [= <-]. split; cbn; try (by destruct (sp_unreliable p); ulia).
        intros Hu. rewrite Hu. rewrite rx_count_tally. rewrite (tally_ext _ (λ _, false)).
        { assert (H0 : ∀ n, tally (λ _, false) n = 0%nat) by (induction n as [| n IH]; [done | rewrite tally_S, IH; done]).
          rewrite H0. ulia. }
        intros j _. change (view_test (λ m, rm_stream_id m =? sid) (rx s) j = false).
        unfold view_test. destruct (pool_view (rx s) j) as [[m d] |] eqn:Ev; [| done].
        apply Z.eqb_neq. intros Hm. destruct (H4 j m d Ev) as (c0 & Hc0). rewrite Hm in Hc0. by apply (Hno c0).
      * intros Hc0. destruct (H3 q c0 Hc0). by split.
    + intros j m d Hv. rewrite Hst. case_match; [by eexists | by eapply H4].
    + intros j m d Hv. rewrite Hst. destruct (Z.eqb_spec (tm_stream_id m) sid) as [Em |]; [| by eapply H5].
      destruct (H5 j m d Hv) as (c0 & Hc0 & _). rewrite Em in Hc0. by destruct (Hno c0).
  - intros q c0 Hc0. exists c0. rewrite Hst. destruct (Z.eqb_spec q sid) as [-> |]; [by destruct (Hno c0) | done].
Qed.

(** ** Sending *)

Lemma bs_inv_tx s p :
  bs_inv s → pool_ok p →
  (∀ i m d, pool_view p i = Some (m, d) → ∃ c, stream s (tm_stream_id m) = Ok c ∧ sp_unreliable (s_profile c) = false) →
  bs_inv (put_tx s p).
Proof.
  intros Hs Hp Ho. apply (bs_inv_pools s); try done; [apply Hs | apply (bi_owned s Hs) |].
  intros sid c Hc. exact (so_held s sid c (bi_streams s Hs sid c Hc)).
Qed.

(** The pool keeps a part of what it held. *)
Lemma bs_inv_tx_less s p :
  bs_inv s → pool_ok p → (∀ i m d, pool_view p i = Some (m, d) → ∃ m0 d0, tx_view s i = Some (m0, d0) ∧ tm_stream_id m0 = tm_stream_id m) →
  bs_inv (put_tx s p).
Proof.
  intros Hs Hp Ho. apply bs_inv_tx; try done. intros i m d Hv. destruct (Ho i m d Hv) as (m0 & d0 & H0 & <-).
  by eapply bi_owned_tx.
Qed.

Lemma bs_inv_slot s idx c c' sid :
  bs_inv s → stream_index s sid = Ok idx → streams s !! idx = Some (Some c) → stream s sid = Ok c → s_id c' = s_id c →
  s_profile c' = s_profile c → receive_capacity c' = receive_capacity c →
  u32 (next_expected c') → u32 (next_tx_sequence c') → u8 (peer_credit c') →
  bs_inv (put_streams s (<[idx := Some c']> (streams s))) ∧
  stream_set s (put_streams s (<[idx := Some c']> (streams s))) sid c'.
Proof.
  intros Hs Hi Hc Hst Hid. intros.
  assert (H6 : stream_set s (put_streams s (<[idx := Some c']> (streams s))) sid c').
  { intros sid'. eapply stream_update; [done | done |]. rewrite Hid. by apply (stream_id s). }
  split; [| done]. by apply (bs_inv_update s _ sid c c').
Qed.

(** The stream [sid] changes, its receiving half does not. *)
Lemma stream_set_quiet s s' sid c c' :
  stream s sid = Ok c → stream_set s s' sid c' → s_profile c' = s_profile c → next_expected c' = next_expected c →
  ∀ q c0, stream s q = Ok c0 → ∃ c1, stream s' q = Ok c1 ∧ s_profile c1 = s_profile c0 ∧ next_expected c1 = next_expected c0.
Proof.
  intros Hc Hst Hp Hn q c0 H0. rewrite Hst. destruct (Z.eqb_spec q sid) as [-> |]; [| by exists c0].
  assert (c0 = c) as -> by congruence. by exists c'.
Qed.

Lemma send_eff T s sid data e now : bs_inv s → eff T s (send sid data e now) s.
Proof.
  intros Hs. apply eff_get, eff_lookup; [by apply effect_refl |]. intros idx c Hi Hc Hst.
  pose proof (bi_streams s Hs sid c Hst) as [Hx Hq Hk Hcap _].
  apply eff_guard; [by apply effect_refl |]. intros _. apply eff_guard; [by apply effect_refl |]. intros _.
  apply eff_lift; [apply validate_send_len_no_panic | by apply effect_refl |]. intros _ _.
  destruct (sp_unreliable (s_profile c)) eqn:Hu.
  - destruct (sp_sequenced (s_profile c)); [| split; [by apply effect_refl | done]].
    eapply eff_step; [by eapply update_at_spec |]. split; [| done]. cbn [fst mret st_ret].
    set (c' := with_unrel_tx c (wrapping_add 32 (unrel_tx_sequence c) 1)).
    destruct (bs_inv_slot s idx c c' sid) as [Hinv Hset]; try done.
    apply effect_rx_same; try done. by apply (stream_set_quiet s _ sid c c').
  - apply eff_guard; [by apply effect_refl |]. intros Hpos%Z.eqb_neq.
    pose proof (pool_insert_spec (tx s) (mkTx sid (next_tx_sequence c) e now) data (bi_tx s Hs)) as Hins.
    destruct (mp_insert _ data (tx s)) as [p' r] eqn:Ep. destruct r as [i | er |]; [| | done].
    2: { destruct Hins as [-> _]. apply (eff_done T s _ s (put_tx s (tx s)) (Err er)); [| done | by apply effect_same].
         apply st_bind_Err_l. unfold on_tx, zoom. by rewrite Ep. }
    destruct Hins as (Hok & _ & _ & _ & _ & _ & Hv).
    assert (H1 : bs_inv (put_tx s p')).
    { apply bs_inv_tx; try done. intros j m d. rewrite Hv. case_decide; [| by eapply bi_owned_tx].
      intros [= <- <-]. by exists c. }
    apply (eff_step T s _ _ s (put_tx s p') i); [unfold on_tx, zoom; by rewrite Ep |].
    unfold sub_or_panic, checked_sub. destruct (Z.leb_spec 1 (peer_credit c)); [| ulia]. apply eff_lift; [done | by apply effect_rx_same; [..| intros q c0 ?; exists c0] |].
    intros k [= <-]. eapply eff_step; [by apply (update_at_spec (put_tx s p') idx c sid) |]. split; [| done]. cbn [fst mret st_ret].
    set (c' := with_tx_sequence c _ _ _).
    destruct (bs_inv_slot (put_tx s p') idx c c' sid) as [Hinv Hset]; try done; [cbn; ulia.. |].
    apply effect_rx_same; try done. by apply (stream_set_quiet s _ sid c c').
Qed.

Lemma on_ack_eff T s sid ack : bs_inv s → u8 (receive_credit ack) → eff T s (on_ack sid ack) s.
Proof.
  intros Hs Hk. apply eff_get, eff_stream; [by apply effect_refl |]. intros c Hc.
  pose proof (bi_streams s Hs sid c Hc) as [Hx Hq _ Hcap _].
  apply eff_guard; [by apply effect_refl |]. intros _.
  destruct (update_stream_spec s c sid (λ c, with_peer_credit c (receive_credit ack)) Hc) as (s1 & H1 & (l & ->) & Hst); [done |].
  apply (eff_step T s _ _ s _ tt H1).
  assert (Hinv : bs_inv (put_streams s l)) by (by eapply (bs_inv_update s _ sid c)).
  destruct (remove_where_spec (λ m, (tm_stream_id m =? sid) && tx_acked (tm_sequence m) (ack_base ack) (receive_bitmap ack)) (tx s) (bi_tx s Hs))
    as (p' & Hr & Hok & _ & Hv).
  eapply eff_done; [unfold on_tx, zoom; change (tx (put_streams s l)) with (tx s); by rewrite Hr | done |].
  assert (Hinv' : bs_inv (put_tx (put_streams s l) p')).
  { apply bs_inv_tx_less; try done. intros i m d. rewrite Hv. case_match; [done |]. intros ?. by exists m, d. }
  apply effect_rx_same; try done. by eapply (stream_set_quiet s _ sid c).
Qed.

(** What is retransmitted: the first message that is due, which is then due again
    after another timeout. *)
Lemma retransmit_spec s now :
  bs_inv s →
  match head (filter (λ e, due s now e.2 = true) (mp_entries (tx s))) with
  | None => retransmit_due now s = (s, Ok None)
  | Some (i, m) => ∃ d p', tx_view s i = Some (m, d) ∧ due s now m = true ∧
      retransmit_due now s = (put_tx s p', Ok (Some (mkRetransmit (tm_stream_id m) (tm_sequence m) (tm_end m) d))) ∧ pool_ok p' ∧
      ∀ j, pool_view p' j = if decide (j = i)
                            then Some (mkTx (tm_stream_id m) (tm_sequence m) (tm_end m) now, d) else tx_view s j
  end.
Proof.
  intros Hs. unfold retransmit_due. rewrite (st_bind_Ok_l _ _ s s s) by done.
  destruct (head _) as [[i m] |] eqn:Eh; [| done].
  apply head_Some_elem_of, list_elem_of_filter in Eh as [Hdue [d Hd]%entry_view].
  pose proof (pool_set_meta_spec (tx s) i (mkTx (tm_stream_id m) (tm_sequence m) (tm_end m) now) (bi_tx s Hs)) as Hset.
  rewrite Hd in Hset. destruct Hset as (p' & Hset & Hok & _ & _ & Hv). exists d, p'. split_and!; try done.
  rewrite (st_bind_Ok_l _ _ s (put_tx s p') tt) by (unfold on_tx, zoom; by rewrite Hset).
  rewrite (st_bind_Ok_l _ _ (put_tx s p') (put_tx s p') (put_tx s p')) by done.
  change (tx (put_tx s p')) with p'. rewrite (mp_get_view p' i Hok), Hv, decide_True by done. done.
Qed.

Lemma retransmit_eff T s now : bs_inv s → eff T s (retransmit_due now) s.
Proof.
  intros Hs. pose proof (retransmit_spec s now Hs) as H.
  destruct (head _) as [[i m] |]; [| eapply eff_done; [done | done | by apply effect_refl]].
  destruct H as (d & p' & Hd & _ & H & Hok & Hv). eapply eff_done; [done | done |].
  apply effect_rx_same; [| done | done | intros q c0 ?; by exists c0].
  apply bs_inv_tx_less; try done. intros j m1 d1. rewrite Hv. case_decide; [| intros ?; by exists m1, d1].
  intros [= <- <-]. subst. by exists m, d.
Qed.

(** ** Consuming *)

Definition deliverable (sid : Z) (m : RxMeta) : Prop := rm_stream_id m = sid ∧ rm_disposition m = Delivered.

Lemma best_of_spec sid l :
  match best_of sid l with
  | Some e => e ∈ l ∧ deliverable sid e.2 ∧ ∀ x, x ∈ l → deliverable sid x.2 → rm_order e.2 ≤ rm_order x.2
  | None => ∀ x, x ∈ l → ¬ deliverable sid x.2
  end.
Proof.
  unfold best_of. induction l as [| x l IH] using rev_ind; [set_solver |]. rewrite fold_left_app. cbn [fold_left].
  revert IH. generalize (fold_left (λ best (e : nat * RxMeta),
    if (rm_stream_id e.2 =? sid) && bool_decide (rm_disposition e.2 = Delivered) then
      if match best with Some b => rm_order e.2 <? rm_order b.2 | None => true end then Some e else best
    else best) l None). intros best IH.
  assert (Hx : deliverable sid x.2 ↔ (rm_stream_id x.2 =? sid) && bool_decide (rm_disposition x.2 = Delivered) = true).
  { unfold deliverable. by rewrite andb_true_iff, Z.eqb_eq, bool_decide_eq_true. }
  destruct ((rm_stream_id x.2 =? sid) && bool_decide (rm_disposition x.2 = Delivered)) eqn:E.
  - destruct best as [b |].
    + destruct IH as (Hb & Hd & Hmin). destruct (Z.ltb_spec (rm_order x.2) (rm_order b.2)).
      * split; [set_solver |]. split; [by apply Hx |]. intros y [Hy | ->%list_elem_of_singleton]%elem_of_app Hyd; [| lia].
        specialize (Hmin y Hy Hyd). lia.
      * split; [set_solver |]. split; [done |]. intros y [Hy | ->%list_elem_of_singleton]%elem_of_app Hyd; [by apply Hmin | lia].
    + split; [set_solver |]. split; [by apply Hx |]. intros y [Hy | ->%list_elem_of_singleton]%elem_of_app Hyd; [| lia].
      by destruct (IH y Hy).
  - destruct best as [b |].
    + destruct IH as (Hb & Hd & Hmin). split; [set_solver |]. split; [done |].
      intros y [Hy | ->%list_elem_of_singleton]%elem_of_app Hyd; [by apply Hmin |]. by apply Hx in Hyd.
    + intros y [Hy | ->%list_elem_of_singleton]%elem_of_app Hyd; [by apply (IH y) |]. by apply Hx in Hyd.
Qed.

Lemma rx_count_le s s' sid :
  rx_slots s' = rx_slots s →
  (∀ i m d, rx_view s' i = Some (m, d) → ∃ m0 d0, rx_view s i = Some (m0, d0) ∧ rm_stream_id m0 = rm_stream_id m) →
  rx_count_for s' sid ≤ rx_count_for s sid.
Proof.
  unfold rx_slots. intros Hl Hv. rewrite !rx_count_tally, Hl. apply inj_le.
  generalize (length (mp_slots (rx s))). intros n. induction n as [| n IH]; [done |]. rewrite !tally_S.
  destruct (view_test _ (rx s') n) eqn:E; [| lia]. unfold view_test in E.
  destruct (pool_view (rx s') n) as [[m d] |] eqn:Ev; [| done]. apply Z.eqb_eq in E.
  destruct (Hv n m d Ev) as (m0 & d0 & H0 & Hid). unfold rx_view in H0.
  assert (view_test (λ m, rm_stream_id m =? sid) (rx s) n = true) as ->; [| lia].
  unfold view_test. rewrite H0. apply Z.eqb_eq. congruence.
Qed.

(** The receive pool keeps a part of what it held. *)
Lemma bs_inv_rx_less s s' :
  bs_inv s → pool_ok (rx s') → tx s' = tx s → streams s' = streams s → rx_slots s' = rx_slots s →
  (∀ i m d, rx_view s' i = Some (m, d) → ∃ m0 d0, rx_view s i = Some (m0, d0) ∧ rm_stream_id m0 = rm_stream_id m) →
  bs_inv s'.
Proof.
  intros Hs Hok Ht Hst Hl Hv. apply (bs_inv_pools s); try done.
  - by apply stream_streams.
  - rewrite Ht. apply Hs.
  - unfold tx_view. rewrite Ht. apply (bi_owned_tx s Hs).
  - intros i m d Hm. destruct (Hv i m d Hm) as (m0 & d0 & H0 & <-). by eapply bi_owned.
  - intros sid c Hc Hu. transitivity (rx_count_for s sid); [by apply rx_count_le |].
    by apply (so_held s sid c (bi_streams s Hs sid c Hc)).
Qed.

(** The message that [recv_into] returns: the delivered one of lowest order. *)
Lemma recv_spec s sid out :
  bs_inv s →
  match best_of sid (mp_entries (rx s)) with
  | None => ∃ r, recv_into sid out s = (s, r) ∧ r ≠ Panic ∧ ∀ x, r ≠ Ok (Some x)
  | Some (i, m) => ∃ d, rx_view s i = Some (m, d) ∧
      ((∃ r, recv_into sid out s = (s, r) ∧ r ≠ Panic ∧ ∀ x, r ≠ Ok (Some x)) ∨
       (recv_into sid out s = (put_rx s (mp_release i (rx s)),
          Ok (Some (mkReceived (len d) (rm_end m), d ++ drop (Z.to_nat (len d)) out)))))
  end.
Proof.
  intros Hs. pose proof (best_of_spec sid (mp_entries (rx s))) as Hb. unfold recv_into.
  rewrite (st_bind_Ok_l _ _ s s s) by done. pose proof (stream_no_panic s sid) as Hn.
  destruct (best_of sid (mp_entries (rx s))) as [[i m] |].
  - destruct Hb as (Hin & _ & _). destruct (entry_view _ _ _ Hin) as (d & Hd). exists d. split; [done |].
    destruct (stream s sid) as [c | e |]; [| left; by exists (Err e) | done].
    rewrite (st_bind_Ok_l _ _ s s c) by done. pose proof (pool_remove_into_spec (rx s) i out (bi_rx s Hs)) as Hr. rewrite Hd in Hr.
    destruct (len out <? len d).
    + left. exists (Err BufferFull). split_and!; try done.
      rewrite (st_bind_Err_l _ _ s (put_rx s (rx s)) BufferFull) by (unfold on_rx, zoom; by rewrite Hr). by destruct s.
    + right. unfold on_rx, zoom, mbind, st_bind. rewrite Hr. done.
  - destruct (stream s sid) as [c | e |]; [| by exists (Err e) | done]. by exists (Ok None).
Qed.

Lemma recv_eff s sid out : bs_inv s → eff (λ q, q = sid) s (recv_into sid out) s.
Proof.
  intros Hs. pose proof (recv_spec s sid out Hs) as H. pose proof (best_of_spec sid (mp_entries (rx s))) as Hb.
  destruct (best_of sid (mp_entries (rx s))) as [[i m] |].
  - destruct Hb as (_ & [Hid _] & _). cbn in Hid.
    destruct H as (d & Hd & [(r & H & Hr & _) | H]); (eapply eff_done; [done | done |]); [by apply effect_refl |].
    destruct (mp_release_spec (rx s) i (bi_rx s Hs)) as [Hok Hv].
    assert (Hl : length (mp_slots (mp_release i (rx s))) = length (mp_slots (rx s))) by (cbn; by rewrite length_insert).
    split; [| done | by apply order_moves_refl |].
    + apply (bs_inv_rx_less s); try done. intros j m1 d1. unfold rx_view. cbn [rx put_rx]. rewrite Hv.
      case_decide; [done |]. intros ?. by exists m1, d1.
    + intros q Hq. split; [intros c0 H0; by exists c0 |]. intros j m1 d1 Hm1. unfold rx_view. cbn [rx put_rx]. rewrite Hv.
      case_decide; [| done]. subst j. split; [done |]. intros Hj. unfold rx_view in Hd. congruence.
  - destruct H as (r & H & Hr & _). eapply eff_done; [done | done | by apply effect_refl].
Qed.

(** ** Resets *)

Lemma view_clear {M} (p : MessagePool M) i : pool_view (mp_clear p) i = None.
Proof. unfold pool_view. cbn. rewrite list_lookup_fmap. by destruct (mp_slots p !! i). Qed.

Lemma reset_stream_eff s sid : bs_inv s → eff (λ q, q = sid) s (reset_stream sid) s.
Proof.
  intros Hs. apply eff_get, eff_lift; [apply stream_index_no_panic | by apply effect_refl |]. intros idx Hi.
  destruct (stream_index_lt _ _ _ Hi) as (c & Hc & Hid).
  assert (Hst : stream s sid = Ok c) by (apply stream_Ok; by exists idx).
  destruct (remove_where_spec (λ m, tm_stream_id m =? sid) (tx s) (bi_tx s Hs)) as (p1 & H1 & Hok1 & Hl1 & Hv1).
  apply (eff_step _ s _ _ s (put_tx s p1) tt); [unfold on_tx, zoom; by rewrite H1 |].
  destruct (remove_where_spec (λ m, rm_stream_id m =? sid) (rx s) (bi_rx s Hs)) as (p2 & H2 & Hok2 & Hl2 & Hv2).
  apply (eff_step _ s _ _ (put_tx s p1) (put_rx (put_tx s p1) p2) tt).
  { unfold on_rx, zoom. change (rx (put_tx s p1)) with (rx s). by rewrite H2. }
  eapply eff_done; [by eapply (update_at_spec _ idx c sid) | done |].
  assert (Ha : bs_inv (put_tx s p1)).
  { apply bs_inv_tx_less; try done. intros i m d. rewrite Hv1. case_match; [done |]. intros ?. by exists m, d. }
  assert (Hb : bs_inv (put_rx (put_tx s p1) p2)).
  { apply (bs_inv_rx_less (put_tx s p1)); try done. intros i m d. unfold rx_view. cbn [rx put_rx put_tx].
    rewrite Hv2. case_match; [done |]. intros ?. by exists m, d. }
  destruct (bi_streams s Hs sid c Hst).
  destruct (bs_inv_slot (put_rx (put_tx s p1) p2) idx c (with_reset c) sid) as [Hinv Hset]; try done.
  split; [done | done | by apply order_moves_refl |]. intros q Hq. split.
  - intros c0 H0. by eapply (stream_set_quiet (put_rx (put_tx s p1) p2) _ sid c).
  - intros i m d Hm. unfold rx_view. cbn [rx put_rx put_streams]. rewrite Hv2. unfold view_test.
    destruct (pool_view (rx s) i) as [[m1 d1] |]; [| done]. destruct (Z.eqb_spec (rm_stream_id m1) sid) as [E |]; [| done].
    split; [done |]. intros [= -> ->]. congruence.
Qed.

Lemma reset_stream_of s sid : stream (reset s) sid = with_reset <$> stream s sid.
Proof.
  unfold stream, stream_index, slot_at, reset. cbn [streams put_streams put_rx put_tx put_state].
  assert (Hf : fst <$> list_find (λ slot, has_id sid slot = true) (fmap (M := option) with_reset <$> streams s) =
               fst <$> list_find (λ slot, has_id sid slot = true) (streams s)).
  { induction (streams s) as [| x l IH]; [done |]. cbn. destruct x as [c |]; cbn.
    - case_decide; [done |]. repeat destruct (list_find _ _) as [[] |]; cbn in *; congruence.
    - rewrite !decide_False by done. repeat destruct (list_find _ _) as [[] |]; cbn in *; congruence. }
  rewrite Hf. destruct (fst <$> list_find _ (streams s)) as [idx |]; [| done]. cbn.
  rewrite list_lookup_fmap. destruct (streams s !! idx) as [[c |] |]; done.
Qed.

Lemma reset_eff s : bs_inv s → effect (λ _, True) s (reset s).
Proof.
  intros Hs. assert (Hv : ∀ i, rx_view (reset s) i = None) by (intros i; apply view_clear).
  split.
  - split.
    + apply mp_clear_ok, Hs.
    + apply mp_clear_ok, Hs.
    + intros sid c Hc. rewrite reset_stream_of in Hc. destruct (stream s sid) as [c0 | |] eqn:E; [| done..].
      apply Ok_inj in Hc as <-. destruct (bi_streams s Hs sid c0 E) as [? ? ? Hcap ?]. split; try done.
      intros _. rewrite rx_count_tally. rewrite (tally_ext _ (λ _, false)).
      { assert (H0 : ∀ n, tally (λ _, false) n = 0%nat) by (induction n as [| n IH]; [done | rewrite tally_S, IH; done]).
        rewrite H0. cbn. ulia. }
      intros i _. unfold view_test. change (pool_view (rx (reset s)) i) with (rx_view (reset s) i). by rewrite Hv.
    + intros i m d Hm. rewrite Hv in Hm. done.
    + intros i m d Hm. unfold tx_view in Hm. cbn in Hm. by rewrite view_clear in Hm.
  - unfold rx_slots. cbn. apply length_fmap.
  - by apply order_moves_refl.
  - intros q Hq. by destruct Hq.
Qed.

(** ** Receiving *)

(** A message of a reliable stream is taken into slot [i]. *)
Record taken (sid seq : Z) (data : list Z) (e : bool) (s s1 : BoundedGtsSocket) : Prop := {
  tk_stream : ∃ c i, stream s sid = Ok c ∧ sp_unreliable (s_profile c) = false ∧
    next_expected c ≤ seq ∧ rx_count_for s sid < receive_capacity c ∧ rx_view s i = None ∧
    (let now := seq =? next_expected c in
     rx_set s s1 i (mkRx sid seq e (if now then Delivered else Pending) (if now then next_delivery_order s else 0), data) ∧
     stream_set s s1 sid (if now then with_delivered (with_seen c) e else with_seen c) ∧
     next_delivery_order s1 = if now then next_order (next_delivery_order s) else next_delivery_order s);
  tk_new : ∀ i m d, rx_view s i = Some (m, d) → rm_stream_id m = sid → rm_sequence m ≠ seq;
  tk_tx : tx s1 = tx s }.

(** What an arriving message does: nothing, at most the counter having moved;
    a message of an unreliable stream is delivered, or only its sequence number
    is noted; a message of a reliable stream is taken and what became contiguous
    is delivered. *)
Inductive arrival (sid : Z) (sequence : option Z) (data : list Z) (e : bool) (s : BoundedGtsSocket) : BoundedGtsSocket → Prop :=
  | arr_nothing s' : streams s' = streams s → tx s' = tx s → rx s' = rx s → order_moves 1 s s' →
      arrival sid sequence data e s s'
  | arr_unreliable c c' s' : stream s sid = Ok c → sp_unreliable (s_profile c) = true →
      stream_set s s' sid c' → (c' = c ∨ ∃ q, c' = with_unrel_rx c (Some q)) → tx s' = tx s → order_moves 1 s s' →
      (rx s' = rx s ∨ ∃ i m, rx_view s i = None ∧ rm_stream_id m = sid ∧ rm_disposition m = Delivered ∧ rx_set s s' i (m, data)) →
      arrival sid sequence data e s s'
  | arr_reliable seq s1 k s' : sequence = Some seq → taken sid seq data e s s1 → nsteps (mark_step sid) k s1 s' →
      (k ≤ rx_slots s)%nat → arrival sid sequence data e s s'.

Lemma pendings_le s : (pendings s ≤ rx_slots s)%nat.
Proof. apply tally_le. Qed.

Lemma rx_set_count_new s s' i m d sid :
  rx_set s s' i (m, d) → rx_view s i = None →
  rx_count_for s' sid = rx_count_for s sid + if rm_stream_id m =? sid then 1 else 0.
Proof.
  intros (Hv & Hl & _) Hi. rewrite !rx_count_tally, Hl.
  assert (Hlt : (i < length (mp_slots (rx s)))%nat).
  { rewrite <- Hl. apply (view_lt (rx s') i (m, d)). change (rx_view s' i = Some (m, d)). by rewrite Hv, decide_True. }
  assert (Hto : view_test (λ m, rm_stream_id m =? sid) (rx s') i = (rm_stream_id m =? sid)).
  { unfold view_test. change (pool_view (rx s') i) with (rx_view s' i). by rewrite Hv, decide_True. }
  assert (Hfrom : view_test (λ m, rm_stream_id m =? sid) (rx s) i = false).
  { unfold view_test. change (pool_view (rx s) i) with (rx_view s i). by rewrite Hi. }
  assert (Hother : ∀ j, j ≠ i → view_test (λ m, rm_stream_id m =? sid) (rx s) j = view_test (λ m, rm_stream_id m =? sid) (rx s') j).
  { intros j Hj. unfold view_test. change (pool_view (rx s') j) with (rx_view s' j). by rewrite Hv, decide_False. }
  destruct (rm_stream_id m =? sid) eqn:E.
  - rewrite (tally_change _ _ i _ Hlt Hfrom Hto Hother). lia.
  - rewrite (tally_ext (view_test (λ m, rm_stream_id m =? sid) (rx s')) (view_test (λ m, rm_stream_id m =? sid) (rx s))); [lia |].
    intros j _. destruct (decide (j = i)) as [-> |]; [congruence | symmetry; by apply Hother].
Qed.

Lemma ack_state_no_panic s sid : ack_state s sid ≠ Panic.
Proof. unfold ack_state. pose proof (stream_no_panic s sid). by destruct (stream s sid); cbn; repeat case_match. Qed.

Lemma order_moves_next b s s' : (1 ≤ b)%nat → next_delivery_order s' = next_order (next_delivery_order s) → order_moves b s s'.
Proof. intros Hb H. by exists 1%nat. Qed.

Lemma taken_inv sid seq data e s s1 : taken sid seq data e s s1 → bs_inv s → bs_inv s1.
Proof.
  intros [(c & i & Hc & Hu & _ & Hcap & Hi & (Hset & Hst & _)) _ Htx] Hs.
  pose proof Hset as (Hv & Hl & Hok). pose proof Hs as [H1 H2 H3 H4 H5].
  pose proof (λ q, rx_set_count_new s s1 i _ data q Hset Hi) as Hn. cbn [rm_stream_id] in Hn.
  destruct (H3 sid c Hc) as [Hx ? ? ? Hh]. split; rewrite ?Htx; try done.
  - intros q c0 H0. rewrite Hst in H0. destruct (Z.eqb_spec q sid) as [-> |].
    + apply Ok_inj in H0 as <-. specialize (Hn sid). rewrite Z.eqb_refl in Hn.
      split; rewrite ?Hn; destruct (seq =? next_expected c); cbn; try done; try ulia.
    + specialize (Hn q). rewrite (proj2 (Z.eqb_neq sid q)) in Hn by done. rewrite Z.add_0_r in Hn.
      destruct (H3 q c0 H0). split; try done. by rewrite Hn.
  - intros j m d Hj. rewrite Hst. destruct (Z.eqb_spec (rm_stream_id m) sid); [by eexists |].
    rewrite Hv in Hj. case_decide; [| by eapply H4]. injection Hj as <- <-. by exists c.
  - intros j m d Hj. unfold tx_view in Hj. rewrite Htx in Hj. destruct (H5 j m d Hj) as (c1 & Hc1 & Hu1).
    rewrite Hst. destruct (Z.eqb_spec (tm_stream_id m) sid) as [E |]; [| by exists c1].
    eexists. split; [done |]. assert (c1 = c) as -> by congruence. by destruct (seq =? next_expected c).
Qed.

(** The insertion into the receive pool, as the receiving code makes it. *)
Lemma insert_cases s m data :
  bs_inv s →
  (∃ e, on_rx (mp_insert m data) s = (s, Err e)) ∨
  (∃ p i, on_rx (mp_insert m data) s = (put_rx s p, Ok i) ∧ rx_view s i = None ∧ rx_set s (put_rx s p) i (m, data)).
Proof.
  intros Hs. pose proof (pool_insert_spec (rx s) m data (bi_rx s Hs)) as H. unfold on_rx, zoom.
  destruct (mp_insert m data (rx s)) as [p' [i | e |]]; [| | done].
  - right. destruct H as (Hok & Hi & _ & _ & _ & Hl & Hv). by exists p', i.
  - left. destruct H as [-> _]. exists e. by destruct s.
Qed.

Lemma receive_unreliable_cases s idx c sid sequence data e :
  bs_inv s → stream_index s sid = Ok idx → streams s !! idx = Some (Some c) → stream s sid = Ok c → sp_unreliable (s_profile c) = true →
  ∃ s' r, receive_unreliable idx c sid sequence data s = (s', r) ∧ r ≠ Panic ∧ arrival sid sequence data e s s'.
Proof.
  intros Hs Hi Hc Hst Hu. unfold receive_unreliable.
  assert (Hnone : ∀ r : res (option AckState), r ≠ Panic → ∃ s' r', (s, r) = (s', r') ∧ r' ≠ Panic ∧ arrival sid sequence data e s s').
  { intros r Hr. exists s, r. split; [done |]. split; [done |]. apply arr_nothing; try done. by apply order_moves_refl. }
  destruct (if sp_sequenced (s_profile c) then _ else _) as [seq | er |] eqn:Eq.
  2: { by apply (Hnone (Err er)). }
  2: { destruct (sp_sequenced (s_profile c)); [by destruct sequence | by case_bool_decide]. }
  rewrite (st_bind_Ok_l _ _ s s seq) by done. destruct (_ && _); [by apply (Hnone (Ok None)) |].
  set (c' := with_unrel_rx c (Some seq)).
  assert (Hmark : ∃ s1, (if sp_sequenced (s_profile c) then update_at idx (λ c, with_unrel_rx c (Some seq)) else mret tt) s = (s1, Ok tt) ∧
    ∃ c1, stream_set s s1 sid c1 ∧ (c1 = c ∨ c1 = c') ∧ bs_inv s1 ∧ tx s1 = tx s ∧ rx s1 = rx s ∧
      next_delivery_order s1 = next_delivery_order s).
  { destruct (sp_sequenced (s_profile c)).
    - eexists. split; [by eapply update_at_spec |]. exists c'. destruct (bi_streams s Hs sid c Hst).
      destruct (bs_inv_slot s idx c c' sid) as [Ha Hb]; try done. split_and!; try done. by right.
    - exists s. split; [done |]. exists c. split_and!; try done; [| by left]. intros q. destruct (Z.eqb_spec q sid); congruence. }
  destruct Hmark as (s1 & H1 & c1 & Hset1 & Hc1 & Hs1 & Ht1 & Hr1 & Ho1). rewrite (st_bind_Ok_l _ _ s s1 tt H1).
  rewrite (st_bind_Ok_l _ _ s1 s1 s1) by done. set (s2 := put_order s1 (next_order (next_delivery_order s1))).
  rewrite (st_bind_Ok_l _ _ s1 s2 tt) by done.
  assert (Hs2 : bs_inv s2) by (by apply (bs_inv_same s1)).
  assert (Hc1' : c1 = c ∨ ∃ q, c1 = with_unrel_rx c (Some q)) by (destruct Hc1; [by left | right; by exists seq]).
  assert (Hset2 : stream_set s s2 sid c1) by exact Hset1.
  destruct (insert_cases s2 (mkRx sid seq false Delivered (next_delivery_order s1)) data Hs2) as [(er & H) | (p & i & H & Hfree & Hset)].
  - rewrite (st_bind_Err_l _ _ _ _ _ H). exists s2, (Err er). split; [done |]. split; [done |].
    apply (arr_unreliable _ _ _ _ _ c c1); try done; [apply order_moves_next; [done | cbn; by rewrite Ho1] | by left].
  - rewrite (st_bind_Ok_l _ _ _ _ _ H). exists (put_rx s2 p), (Ok None). split; [done |]. split; [done |].
    unfold rx_view in Hfree. change (rx s2) with (rx s1) in Hfree. rewrite Hr1 in Hfree.
    apply (arr_unreliable _ _ _ _ _ c c1); try done; [apply order_moves_next; [done | cbn; by rewrite Ho1] |].
    right. exists i, (mkRx sid seq false Delivered (next_delivery_order s1)). split_and!; try done.
    destruct Hset as (Hv & Hl & Hok). split; [| split; [| done]].
    + intros j. rewrite Hv. unfold rx_view. cbn. by rewrite Hr1.
    + rewrite Hl. cbn. by rewrite Hr1.
Qed.

Lemma receive_reliable_cases s idx c sid seq data e :
  bs_inv s → stream_index s sid = Ok idx → streams s !! idx = Some (Some c) → stream s sid = Ok c → sp_unreliable (s_profile c) = false →
  ∃ s' r, receive_reliable idx c sid seq data e s = (s', r) ∧ r ≠ Panic ∧ arrival sid (Some seq) data e s s'.
Proof.
  intros Hs Hi Hc Hst Hu. unfold receive_reliable. rewrite (st_bind_Ok_l _ _ s s s) by done.
  assert (Hnone : ∀ (r : res (option AckState)) s1, streams s1 = streams s → tx s1 = tx s → rx s1 = rx s → order_moves 1 s s1 → r ≠ Panic →
    ∃ s' r', (s1, r) = (s', r') ∧ r' ≠ Panic ∧ arrival sid (Some seq) data e s s').
  { intros r s1 ? ? ? ? Hr. exists s1, r. split; [done |]. split; [done |]. by apply arr_nothing. }
  pose proof (order_moves_refl 1 s s eq_refl) as Ho0.
  destruct (Z.ltb_spec seq (next_expected c)) as [Hlt | Hge]; [apply Hnone; try done; apply ack_state_no_panic |].
  destruct (32 <? wrapping_sub 32 seq (next_expected c)); [by apply (Hnone (Err BufferFull) s) |].
  rewrite (st_bind_Ok_l _ _ s s tt) by done.
  destruct (Z.leb_spec (receive_capacity c) (rx_count_for s sid)) as [Hfull | Hroom]; [by apply (Hnone (Err BufferFull) s) |].
  rewrite (st_bind_Ok_l _ _ s s tt) by done.
  pose proof (mp_find_spec (rx s) (λ m, (rm_stream_id m =? sid) && (rm_sequence m =? seq))) as Hfind.
  destruct (mp_find _ _) as [? |]; [apply Hnone; try done; apply ack_state_no_panic |]. cbn [bool_decide].
  rewrite bool_decide_eq_false_2 by (by intros []).
  set (now := seq =? next_expected c).
  set (s1 := if now then put_order s (next_order (next_delivery_order s)) else s).
  rewrite (st_bind_Ok_l _ _ s s1 tt) by (unfold s1; by destruct now).
  assert (Hs1 : bs_inv s1) by (unfold s1; destruct now; [by apply (bs_inv_same s) | done]).
  assert (Hsame : streams s1 = streams s ∧ tx s1 = tx s ∧ rx s1 = rx s ∧
    next_delivery_order s1 = if now then next_order (next_delivery_order s) else next_delivery_order s) by (unfold s1; by destruct now).
  destruct Hsame as (Es1 & Et1 & Er1 & Eo1).
  set (m := mkRx sid seq e (if now then Delivered else Pending) (if now then next_delivery_order s else 0)).
  destruct (insert_cases s1 m data Hs1) as [(er & H) | (p & i & H & Hfree & Hset)].
  { rewrite (st_bind_Err_l _ _ _ _ _ H). apply Hnone; try done. destruct now; [by apply order_moves_next | by apply order_moves_refl]. }
  rewrite (st_bind_Ok_l _ _ _ _ _ H). set (s2 := put_rx s1 p).
  set (c' := if now then with_delivered (with_seen c) e else with_seen c).
  set (s3 := put_streams s2 (<[idx := Some c']> (streams s2))).
  assert (Es2 : streams s2 = streams s) by done.
  rewrite (st_bind_Ok_l _ _ s2 s3 tt).
  2: { apply (update_at_spec s2 idx c sid); [unfold stream_index; by rewrite Es2 | by rewrite Es2]. }
  assert (Htaken : taken sid seq data e s s3).
  { split; [| | done].
    - exists c, i. unfold rx_view in Hfree. rewrite Er1 in Hfree. do 5 (split; [done |]). split; [| split; [| done]].
      + destruct Hset as (Hv & Hl & Hok). split; [| split; [| done]].
        * intros j. change (rx_view s3 j) with (rx_view (put_rx s1 p) j). rewrite Hv. unfold rx_view. by rewrite Er1.
        * change (rx s3) with (rx (put_rx s1 p)). by rewrite Hl, Er1.
      + intros q. assert (Hq : stream s2 q = stream s q) by (by apply stream_streams).
        unfold s3. rewrite (stream_update s2 idx c c' sid q); [by rewrite Hq | unfold stream_index; by rewrite Es2 | by rewrite Es2 |].
        unfold c'. destruct now; cbn; by apply (stream_id s).
    - intros j m1 d1 Hj Hid Hq. specialize (Hfind j m1 d1 Hj). cbn in Hfind. by rewrite Hid, Hq, !Z.eqb_refl in Hfind. }
  assert (Hs3 : bs_inv s3) by (by eapply taken_inv).
  assert (Hl3 : rx_slots s3 = rx_slots s).
  { destruct (tk_stream _ _ _ _ _ _ Htaken) as (? & ? & _ & _ & _ & _ & _ & ((_ & Hl & _) & _)). exact Hl. }
  assert (Hc3 : ∃ c3, stream s3 sid = Ok c3).
  { destruct (tk_stream _ _ _ _ _ _ Htaken) as (? & ? & _ & _ & _ & _ & _ & (_ & Hset' & _)). eexists. by rewrite Hset', Z.eqb_refl. }
  destruct Hc3 as (c3 & Hc3).
  destruct (mark_exec sid (S (length (mp_slots (rx s)))) s3 c3 Hs3 Hc3) as (s4 & k & Hm & Hsteps & Hk & _).
  { pose proof (pendings_le s3). unfold rx_slots in *. lia. }
  rewrite (st_bind_Ok_l _ _ s3 s4 tt Hm). rewrite (st_bind_Ok_l _ _ s4 s4 s4) by done.
  exists s4, (ack_state s4 sid). split; [done |]. split; [apply ack_state_no_panic |].
  apply (arr_reliable _ _ _ _ _ seq s3 k); try done. pose proof (pendings_le s3). lia.
Qed.

Lemma arrival_cases s sid sequence data e :
  bs_inv s → ∃ s' r, receive sid sequence data e s = (s', r) ∧ r ≠ Panic ∧ arrival sid sequence data e s s'.
Proof.
  intros Hs. unfold receive. rewrite (st_bind_Ok_l _ _ s s s) by done.
  assert (Hnone : ∀ er, ∃ s' r', (s, Err er : res (option AckState)) = (s', r') ∧ r' ≠ Panic ∧ arrival sid sequence data e s s').
  { intros er. exists s, (Err er). split; [done |]. split; [done |]. apply arr_nothing; try done. by apply order_moves_refl. }
  destruct (stream_index s sid) as [idx | er |] eqn:Ei; [| apply (Hnone er) | by destruct (stream_index_no_panic s sid)].
  rewrite (st_bind_Ok_l _ _ s s idx) by done.
  destruct (stream_index_lt _ _ _ Ei) as (c & Hc & _). unfold slot_at. rewrite Hc.
  rewrite (st_bind_Ok_l _ _ s s (Some c)) by done. cbn [ok_or]. rewrite (st_bind_Ok_l _ _ s s c) by done.
  assert (Hst : stream s sid = Ok c) by (apply stream_Ok; by exists idx).
  destruct (_ || remote_ended c); [apply (Hnone InvalidState) |]. rewrite (st_bind_Ok_l _ _ s s tt) by done.
  destruct (negb (remote_may_send c)); [apply (Hnone DirectionViolation) |]. rewrite (st_bind_Ok_l _ _ s s tt) by done.
  pose proof (validate_send_len_no_panic (s_profile c) (len data) e) as Hn.
  destruct (validate_send_len (s_profile c) (len data) e) as [[] | er |]; [| apply (Hnone er) | done].
  rewrite (st_bind_Ok_l _ _ s s tt) by done.
  destruct (sp_unreliable (s_profile c)) eqn:Hu; [by apply receive_unreliable_cases |].
  destruct sequence as [seq |]; [| apply (Hnone ProfileViolation)]. cbn [ok_or]. rewrite (st_bind_Ok_l _ _ s s seq) by done.
  by apply receive_reliable_cases.
Qed.

(** Stream [q] and its messages are as they were. *)
Definition others (q : Z) (s s' : BoundedGtsSocket) : Prop :=
  stream s' q = stream s q ∧
  ∀ i m d, rm_stream_id m = q → rx_view s' i = Some (m, d) ↔ rx_view s i = Some (m, d).

Lemma others_trans q s1 s2 s3 : others q s1 s2 → others q s2 s3 → others q s1 s3.
Proof. intros [H1 H2] [H3 H4]. split; [congruence |]. intros i m d Hm. by rewrite H4, H2. Qed.
Lemma others_quiet q s s' : others q s s' → quiet q s s'.
Proof. intros [H1 H2]. split; [| done]. intros c Hc. exists c. by rewrite H1. Qed.

(** A slot of another stream is written. *)
Lemma rx_set_others q s s' i m d :
  rm_stream_id m ≠ q → (∀ m0 d0, rx_view s i = Some (m0, d0) → rm_stream_id m0 ≠ q) → rx_set s s' i (m, d) →
  ∀ j m1 d1, rm_stream_id m1 = q → rx_view s' j = Some (m1, d1) ↔ rx_view s j = Some (m1, d1).
Proof.
  intros Hm Hold (Hv & _ & _) j m1 d1 H1. rewrite Hv. case_decide; [| done]. subst j. split.
  - intros [= -> ->]. done.
  - intros H. by destruct (Hold m1 d1 H).
Qed.

Lemma mark_step_others sid q s s' : mark_step sid s s' → q ≠ sid → others q s s'.
Proof.
  intros [(c & i & m & d & Hc & Hi & (Hm & _)%is_pending_spec & Hset & Hst) _ _] Hq. split.
  - rewrite Hst. by rewrite (proj2 (Z.eqb_neq q sid)).
  - eapply (rx_set_others q s s' i); [| | exact Hset]; cbn; [congruence |]. intros m0 d0 H0. congruence.
Qed.

Lemma mark_steps sid k s s' :
  nsteps (mark_step sid) k s s' → bs_inv s →
  bs_inv s' ∧ rx_slots s' = rx_slots s ∧ tx s' = tx s ∧
  next_delivery_order s' = Nat.iter k next_order (next_delivery_order s) ∧ ∀ q, q ≠ sid → others q s s'.
Proof.
  intros H Hs. induction H as [s | k s s1 s' Hstep _ IH]; [by split_and! |].
  destruct (IH (mark_step_inv _ _ _ Hstep Hs)) as (Hi & Hl & Ht & Ho & Hq). split; [done |].
  destruct (Hstep) as [(c & i & m & d & _ & _ & _ & (_ & Hl1 & _) & _) Ho1 Ht1].
  split; [unfold rx_slots in *; congruence |]. split; [congruence |].
  split; [by rewrite Ho, Ho1, <- Nat.iter_succ_r |]. intros q Hne. eapply others_trans; [by eapply mark_step_others | by apply Hq].
Qed.

Lemma taken_others sid seq data e s s1 q : taken sid seq data e s s1 → q ≠ sid → others q s s1.
Proof.
  intros [(c & i & _ & _ & _ & _ & Hi & (Hset & Hst & _)) _ _] Hq. split; [rewrite Hst; by rewrite (proj2 (Z.eqb_neq q sid)) |].
  eapply (rx_set_others q s s1 i); [| | exact Hset]; cbn; [congruence |]. intros m0 d0 H0. congruence.
Qed.

Lemma arrival_effect sid sequence data e s s' :
  arrival sid sequence data e s s' → bs_inv s → effect (λ q, q = sid) s s'.
Proof.
  intros H Hs. destruct H as [s' Hst Ht Hr (k & Hk & Ho) | c c' s' Hc Hu Hset Hc' Ht (k & Hk & Ho) Hr | seq s1 k s' -> Htk Hsteps Hk].
  - split; [by apply (bs_inv_same s) | unfold rx_slots; by rewrite Hr | exists k; split; [lia | done] |].
    intros q _. apply quiet_streams; [done |]. intros c0 H0. exists c0. by rewrite (stream_streams s s' Hst).
  - assert (Hfields : s_profile c' = s_profile c ∧ next_expected c' = next_expected c ∧ receive_capacity c' = receive_capacity c ∧
      next_tx_sequence c' = next_tx_sequence c ∧ peer_credit c' = peer_credit c) by (destruct Hc' as [-> | (q & ->)]; done).
    destruct Hfields as (Hp & Hne & Hcap & Hnt & Hpc). destruct (bi_streams s Hs sid c Hc) as [? ? ? ? _].
    assert (Hother : ∀ q, q ≠ sid → stream s' q = stream s q).
    { intros q Hq. rewrite Hset. by rewrite (proj2 (Z.eqb_neq q sid)). }
    destruct Hr as [Hr | (i & m & Hi & Hm & Hd & Hrx)].
    + split; [| unfold rx_slots; by rewrite Hr | exists k; split; [lia | done] |].
      * apply (bs_inv_update s s' sid c c'); rewrite ?Hp, ?Hne, ?Hcap, ?Hnt, ?Hpc; done.
      * intros q Hq. apply others_quiet. split; [by apply Hother |]. unfold rx_view. by rewrite Hr.
    + pose proof Hrx as (Hv & Hl & Hok). split; [| done | exists k; split; [lia | done] |].
      * pose proof (λ q, rx_set_count_new s s' i m data q Hrx Hi) as Hn.
        pose proof Hs as [H1 H2 H3 H4 H5]. split; rewrite ?Ht; try done.
        -- intros q c0 H0. destruct (decide (q = sid)) as [-> | Hq].
           ++ rewrite Hset, Z.eqb_refl in H0. apply Ok_inj in H0 as <-.
              split; rewrite ?Hp, ?Hne, ?Hcap, ?Hnt, ?Hpc; try done. congruence.
           ++ rewrite Hother in H0 by done. destruct (H3 q c0 H0). split; try done.
              specialize (Hn q). rewrite (proj2 (Z.eqb_neq (rm_stream_id m) q)), Z.add_0_r in Hn by congruence. by rewrite Hn.
        -- intros j m1 d1 Hj. rewrite Hset. destruct (Z.eqb_spec (rm_stream_id m1) sid); [by eexists |].
           rewrite Hv in Hj. case_decide; [| by eapply H4]. injection Hj as <- <-. done.
        -- intros j m1 d1 Hj. unfold tx_view in Hj. rewrite Ht in Hj. destruct (H5 j m1 d1 Hj) as (c1 & Hc1 & Hu1).
           rewrite Hset. destruct (Z.eqb_spec (tm_stream_id m1) sid) as [E |]; [| by exists c1].
           exists c'. split; [done |]. rewrite Hp. congruence.
      * intros q Hq. apply others_quiet. split; [by apply Hother |].
        eapply (rx_set_others q s s' i m); [congruence | | exact Hrx]. intros m0 d0 H0. congruence.
  - destruct (mark_steps _ _ _ _ Hsteps (taken_inv _ _ _ _ _ _ Htk Hs)) as (Hi & Hl & _ & Ho & Hq).
    destruct (tk_stream _ _ _ _ _ _ Htk) as (c & i & _ & _ & _ & _ & _ & ((_ & Hl1 & _) & _ & Ho1)).
    split; [done | unfold rx_slots in *; congruence | |].
    + rewrite Ho1 in Ho. destruct (seq =? next_expected c); [exists (S k) | exists k]; (split; [lia |]); [| done].
      rewrite Ho. symmetry. apply Nat.iter_succ_r.
    + intros q Hne. apply others_quiet. eapply others_trans; [by eapply taken_others | by apply Hq].
Qed.

Lemma receive_eff s sid sequence data e : bs_inv s → eff (λ q, q = sid) s (receive sid sequence data e) s.
Proof.
  intros Hs. destruct (arrival_cases s sid sequence data e Hs) as (s' & r & H & Hr & Ha).
  eapply eff_done; [done | done | by eapply arrival_effect].
Qed.

(** ** Every call *)

Inductive bcall : Set :=
  | BSetRto (value : Z) | BEstablish (receive_id reset_id : Z) | BAlloc
  | BAdd (sid : Z) (profile : StreamProfile) (opened : bool) (capacity credit : Z)
  | BSend (sid : Z) (data : list Z) (e : bool) (now : Z) | BOnAck (sid : Z) (ack : AckState) | BRetransmit (now : Z)
  | BReceive (sid : Z) (sequence : option Z) (data : list Z) (e : bool) | BRecv (sid : Z) (out : list Z)
  | BResetStream (sid : Z) | BReset.

Definition bcall_ok (c : bcall) : Prop :=
  match c with
  | BAdd _ _ _ capacity credit => u8 capacity ∧ u8 credit
  | BOnAck _ ack => u8 (receive_credit ack)
  | _ => True
  end.

(** The call on the socket; its value is not looked at here. *)
Definition run_bcall (c : bcall) : bst unit :=
  match c with
  | BSetRto v => set_rto_ms v
  | BEstablish a b => establish a b
  | BAlloc => alloc_stream_id;; mret tt
  | BAdd sid p o cap k => add_stream sid p o cap k
  | BSend sid d e now => send sid d e now;; mret tt
  | BOnAck sid a => on_ack sid a
  | BRetransmit now => retransmit_due now;; mret tt
  | BReceive sid q d e => receive sid q d e;; mret tt
  | BRecv sid out => recv_into sid out;; mret tt
  | BResetStream sid => reset_stream sid
  | BReset => modify reset
  end.

(** The stream whose received messages the call may change. *)
Definition touches (c : bcall) (q : Z) : Prop :=
  match c with BReceive sid _ _ _ | BRecv sid _ | BResetStream sid => q = sid | BReset => True | _ => False end.

Lemma eff_drop {A} T s0 (m : bst A) s : eff T s0 m s → eff T s0 (m;; mret tt) s.
Proof. unfold eff, mbind, st_bind. intros [H1 H2]. by destruct (m s) as [s' [| |]]. Qed.

Lemma run_bcall_eff c s : bs_inv s → bcall_ok c → eff (touches c) s (run_bcall c) s.
Proof.
  intros Hs Hc. destruct c; cbn [run_bcall touches] in *; try apply eff_drop.
  - by apply set_rto_eff.
  - by apply establish_eff.
  - by apply alloc_stream_eff.
  - destruct Hc. by apply add_stream_eff.
  - by apply send_eff.
  - by apply on_ack_eff.
  - by apply retransmit_eff.
  - by apply receive_eff.
  - by apply recv_eff.
  - by apply reset_stream_eff.
  - split; [by apply reset_eff | done].
Qed.

Inductive bs_reachable : BoundedGtsSocket → Prop :=
  | br_new r a b c ss ts tb rs rb s : socket_new r a b c ss ts tb rs rb = Ok s → bs_reachable s
  | br_call c s : bs_reachable s → bcall_ok c → bs_reachable (run_bcall c s).1.

Lemma new_inv r a b c ss ts tb rs rb s :
  socket_new r a b c ss ts tb rs rb = Ok s →
  bs_inv s ∧ (∀ sid, stream s sid = Err UnknownStream) ∧ next_delivery_order s = 1 ∧ rx_slots s = length rs ∧
  (∀ i, rx_view s i = None) ∧ ∀ i, tx_view s i = None.
Proof.
  unfold socket_new. intros H. apply bind_Ok in H as (? & _ & H). apply bind_Ok in H as (txp & (Ht & _ & _ & Htv)%pool_new_ok & H).
  apply bind_Ok in H as (rxp & (Hr & Hl & _ & Hrv)%pool_new_ok & H). apply Ok_inj in H as <-.
  assert (Hno : ∀ sid, stream {| role := r; state := match r with Initiator => Connecting | Responder => Established end;
        local_receive_id := a; remote_receive_id := None; local_reset_id := b; remote_reset_id := None; css := c;
        streams := (λ _, None) <$> ss; tx := txp; rx := rxp; next_stream_id := match r with Initiator => 2 | Responder => 1 end;
        next_delivery_order := 1; rto_ms := DEFAULT_RTO_MS |} sid = Err UnknownStream).
  { intros sid. unfold stream, stream_index. cbn.
    assert (list_find (λ slot : option StreamCore, has_id sid slot = true) ((λ _, None) <$> ss) = None) as ->; [| done].
    apply list_find_None, Forall_fmap, Forall_true. done. }
  split_and!; try done. split; try done.
  - intros sid c0. by rewrite Hno.
  - intros i m d Hv. unfold rx_view in Hv. cbn in Hv. by rewrite Hrv in Hv.
  - intros i m d Hv. unfold tx_view in Hv. cbn in Hv. by rewrite Htv in Hv.
Qed.

Lemma bs_reachable_inv s : bs_reachable s → bs_inv s.
Proof.
  induction 1 as [r a b c ss ts tb rs rb s H | c s _ IH Hc]; [by eapply new_inv |].
  by destruct (run_bcall_eff c s IH Hc) as [[H _ _ _] _].
Qed.

(** C28: a heapless socket is safe: in every state that calls lead to, no call
    panics, and every loop ends; the pools hold only messages of streams the
    socket has, those to be resent only of reliable ones; and a reliable stream
    never holds more messages than the capacity it was opened with. *)
Theorem bounded_socket_safe s c :
  bs_reachable s → bcall_ok c →
  (run_bcall c s).2 ≠ Panic ∧
  (∀ i m d, mp_get (rx s) i = Ok (Some (m, d)) → ∃ k, stream s (rm_stream_id m) = Ok k) ∧
  (∀ i m d, mp_get (tx s) i = Ok (Some (m, d)) → ∃ k, stream s (tm_stream_id m) = Ok k ∧ sp_unreliable (s_profile k) = false) ∧
  (∀ sid k, stream s sid = Ok k → sp_unreliable (s_profile k) = false → rx_count_for s sid ≤ receive_capacity k ≤ 255).
Proof.
  intros Hs%bs_reachable_inv Hc. split; [by apply run_bcall_eff |]. split; [| split].
  - intros i m d. rewrite mp_get_view by apply Hs. intros [= H]. by eapply bi_owned.
  - intros i m d. rewrite mp_get_view by apply Hs. intros [= H]. by eapply bi_owned_tx.
  - intros sid k Hk Hu. destruct (bi_streams s Hs sid k Hk) as [_ _ _ Hcap Hh]. split; [by apply Hh | ulia].
Qed.

(** A socket with four slots each way and one open stream *)
Definition small_socket : res BoundedGtsSocket :=
  socket_new Initiator 1 2 (replicate 16 1) [None; None] (replicate 4 MessageSlot_EMPTY) (zeros 512)
    (replicate 4 MessageSlot_EMPTY) (zeros 512).
Definition open_socket : BoundedGtsSocket :=
  match small_socket with
  | Ok s => (run_bcall (BAdd 0 (reliable_variable Msg128 Bidirectional) true 4 4) (run_bcall (BEstablish 10 11) s).1).1
  | _ => reset (mkSocket Initiator TReset 0 None 0 None [] [] (mkPool [] [] 1) (mkPool [] [] 1) 0 0 0)
  end.
Lemma open_socket_reachable : bs_reachable open_socket.
Proof.
  assert (H : ∃ s, small_socket = Ok s) by (eexists; vm_compute; reflexivity). destruct H as [s Hs].
  unfold open_socket. rewrite Hs. apply br_call; [apply br_call; [by eapply br_new | done] |]. by vm_compute.
Qed.

Lemma bounded_socket_safe_witness :
  (run_bcall (BReceive 0 (Some 1) [7] false) open_socket).2 ≠ Panic.
Proof. exact (proj1 (bounded_socket_safe open_socket (BReceive 0 (Some 1) [7] false) open_socket_reachable I)). Defined.
