(* ===== verification/BoundedGtsSystem.v ===== *)
(** * Two heapless sockets over a network

    One reliable stream between a sending and a receiving [BoundedGtsSocket]
    (BoundedGts), over a network that loses, repeats and reorders the messages
    it carries. *)
From stdpp Require Import prelude.
From Stdlib Require Import ZArith Lia.
From S2P Require Import Prelude GdpWire GtsWire Storage BoundedGts BoundedGtsInv.
Local Open Scope Z_scope.

(** ** The system *)

Record bsys : Set := mkSys {
  sy_sender : BoundedGtsSocket;
  sy_receiver : BoundedGtsSocket;
  sy_sent : list (list Z * bool);          (* accepted by [send], in order *)
  sy_wire : list (Z * list Z * bool);      (* every message put on the wire so far *)
  sy_consumed : list (list Z * bool) }.    (* handed out by [recv_into] *)

Section system.
Context (sid : Z).

(** What [send] and [retransmit_due] put on the wire of the stream. *)
Definition sent_now (data : list Z) (e : bool) (r : res SendInfo) : list (Z * list Z * bool) :=
  match r with Ok (mkSendInfo (Some q)) => [(q, data, e)] | _ => [] end.
Definition resent_now (r : res (option Retransmit)) : list (Z * list Z * bool) :=
  match r with
  | Ok (Some t) => if rt_stream_id t =? sid then [(rt_sequence t, rt_data t, rt_end t)] else []
  | _ => []
  end.
Definition consumed_now (r : res (option (ReceivedMessage * list Z))) : list (list Z * bool) :=
  match r with Ok (Some (m, out)) => [(slice out 0 (rcv_len m), rcv_end m)] | _ => [] end.

(** The sender sends, takes acknowledgements (of any content) and resends; any
    message that was ever on the wire may arrive, at any time and any number of
    times; the receiver consumes, and makes any other call on its streams. *)
Inductive bstep (s : bsys) : bsys → Prop :=
  | bs_send data e now : bstep s
      (let '(a, r) := send sid data e now (sy_sender s) in
       mkSys a (sy_receiver s) (sy_sent s ++ (if is_ok r then [(data, e)] else []))
         (sy_wire s ++ sent_now data e r) (sy_consumed s))
  | bs_ack k ack : u8 (receive_credit ack) →
      bstep s (mkSys (on_ack k ack (sy_sender s)).1 (sy_receiver s) (sy_sent s) (sy_wire s) (sy_consumed s))
  | bs_resend now : bstep s
      (let '(a, r) := retransmit_due now (sy_sender s) in
       mkSys a (sy_receiver s) (sy_sent s) (sy_wire s ++ resent_now r) (sy_consumed s))
  | bs_deliver q data e : (q, data, e) ∈ sy_wire s →
      bstep s (mkSys (sy_sender s) (receive sid (Some q) data e (sy_receiver s)).1 (sy_sent s) (sy_wire s) (sy_consumed s))
  | bs_recv out : bstep s
      (let '(b, r) := recv_into sid out (sy_receiver s) in
       mkSys (sy_sender s) b (sy_sent s) (sy_wire s) (sy_consumed s ++ consumed_now r))
  | bs_other c : bcall_ok c → ¬ touches c sid →
      bstep s (mkSys (sy_sender s) (run_bcall c (sy_receiver s)).1 (sy_sent s) (sy_wire s) (sy_consumed s)).

(** Two sockets on which the stream was just opened. *)
Record starts (a b : BoundedGtsSocket) : Prop := {
  st_a : bs_reachable a;
  st_b : bs_reachable b;
  st_sender : ∃ c, stream a sid = Ok c ∧ sp_unreliable (s_profile c) = false ∧ next_tx_sequence c = 0;
  st_tx : ∀ i m d, tx_view a i = Some (m, d) → tm_stream_id m ≠ sid;
  st_receiver : ∃ c, stream b sid = Ok c ∧ sp_unreliable (s_profile c) = false ∧ next_expected c = 0;
  st_rx : ∀ i m d, rx_view b i = Some (m, d) → rm_stream_id m ≠ sid }.

(** ** The receiver *)

Section receiver.
Context (msgs : list (list Z * bool)) (Hmsgs : len msgs < 2 ^ 32).

(** The message of the stream in slot [i] *)
Definition held (s : BoundedGtsSocket) (i : nat) (m : RxMeta) (d : list Z) : Prop :=
  rx_view s i = Some (m, d) ∧ rm_stream_id m = sid.

(** Message [k] is the next to be consumed. *)
Record rcv (k : Z) (s : BoundedGtsSocket) : Prop := {
  rc_stream : ∃ c, stream s sid = Ok c ∧ sp_unreliable (s_profile c) = false ∧ 0 ≤ k ≤ next_expected c ≤ len msgs ∧
    (∀ i m d, held s i m d → match rm_disposition m with
       | Delivered => k ≤ rm_sequence m < next_expected c
       | Pending => next_expected c ≤ rm_sequence m
       end) ∧
    (∀ q, k ≤ q < next_expected c → ∃ i m d, held s i m d ∧ rm_sequence m = q ∧ rm_disposition m = Delivered);
  rc_genuine : ∀ i m d, held s i m d → 0 ≤ rm_sequence m ∧ msgs !! Z.to_nat (rm_sequence m) = Some (d, rm_end m);
  rc_unique : ∀ i j m m' d d', held s i m d → held s j m' d' → rm_sequence m = rm_sequence m' → i = j;
  rc_before : ∀ i m d, held s i m d → rm_disposition m = Delivered → rm_order m < next_delivery_order s;
  rc_order : ∀ i j m m' d d', held s i m d → held s j m' d' → rm_disposition m = Delivered → rm_disposition m' = Delivered →
    rm_sequence m < rm_sequence m' → rm_order m < rm_order m' }.

(** Calls on other streams do not disturb it. *)
Lemma rcv_quiet k s s' :
  rcv k s → quiet sid s s' → next_delivery_order s ≤ next_delivery_order s' → rcv k s'.
Proof.
  intros [(c & Hc & Hu & Hk & Hseq & Hall) Hg Hun Hb Ho] [Hst Hv] Hle.
  assert (Hh : ∀ i m d, held s' i m d ↔ held s i m d).
  { intros i m d. unfold held. split; intros [H1 H2]; (split; [| done]); by apply (Hv i m d H2). }
  destruct (Hst c Hc) as (c' & Hc' & Hp & Hn). split.
  - exists c'. rewrite Hp, Hn. split_and!; try done; try lia.
    + intros i m d H. apply (Hseq i m d). by apply Hh.
    + intros q Hq. destruct (Hall q Hq) as (i & m & d & H & H'). exists i, m, d. split; [by apply Hh | done].
  - intros i m d H. apply (Hg i m d). by apply Hh.
  - intros i j m m' d d' H H'. apply (Hun i j m m' d d'); by apply Hh.
  - intros i m d H Hd. specialize (Hb i m d (proj1 (Hh _ _ _) H) Hd). lia.
  - intros i j m m' d d' H H'. apply (Ho i j m m' d d'); by apply Hh.
Qed.

(** The expected message is delivered into its slot. *)
Lemma rcv_deliver k s s' c c' i q e d o :
  rcv k s → stream s sid = Ok c → q = next_expected c → stream s' sid = Ok c' →
  s_profile c' = s_profile c → next_expected c' = wrapping_add 32 q 1 →
  (∀ j, rx_view s' j = if decide (j = i) then Some (mkRx sid q e Delivered o, d) else rx_view s j) →
  (∀ j m0 d0, held s j m0 d0 → rm_sequence m0 = q → j = i) →
  (∀ m0 d0, held s i m0 d0 → rm_sequence m0 = q) →
  0 ≤ q → msgs !! Z.to_nat q = Some (d, e) → o = next_delivery_order s → next_delivery_order s' = o + 1 → rcv k s'.
Proof.
  intros [(c0 & Hc0 & Hu & Hk & Hseq & Hall) Hg Hun Hb Ho] Hc Eq Hc' Hp Hn Hv Hfree Hmine Hq Hm -> Hord.
  assert (c0 = c) as -> by congruence.
  assert (Hlt : q < len msgs) by (apply lookup_lt_Some in Hm; unfold len; lia).
  assert (Hn' : next_expected c' = q + 1) by (rewrite Hn; ulia).
  assert (Hh : ∀ j m0 d0, held s' j m0 d0 →
     j = i ∧ m0 = mkRx sid q e Delivered (next_delivery_order s) ∧ d0 = d ∨ j ≠ i ∧ held s j m0 d0 ∧ rm_sequence m0 ≠ q).
  { intros j m0 d0 [H1 H2]. rewrite Hv in H1. case_decide; [left; by injection H1 as <- <- | right].
    split; [done |]. split; [done |]. intros Hs. by apply (Hfree j m0 d0) in Hs. }
  assert (Hi : held s' i (mkRx sid q e Delivered (next_delivery_order s)) d) by (split; [by rewrite Hv, decide_True | done]).
  split.
  - exists c'. rewrite Hp, Hn'. split_and!; try done; try lia.
    + intros j m0 d0 [(-> & -> & ->) | (Hj & H & Hs)]%Hh; [cbn; lia |]. specialize (Hseq j m0 d0 H).
      destruct (rm_disposition m0); lia.
    + intros q0 Hq0. destruct (decide (q0 = q)) as [-> |]; [by eexists _, _, _ |].
      destruct (Hall q0) as (j & m0 & d0 & H & Hs & Hd); [lia |]. exists j, m0, d0. split; [| done].
      destruct H as [H1 H2]. split; [| done]. rewrite Hv. case_decide; [| done]. subst j. specialize (Hmine m0 d0 (conj H1 H2)). lia.
  - intros j m0 d0 [(-> & -> & ->) | (Hj & H & Hs)]%Hh; [done | by eapply Hg].
  - intros j1 j2 m1 m2 d1 d2 [(-> & -> & ->) | (Hj1 & H1 & Hs1)]%Hh [(-> & -> & ->) | (Hj2 & H2 & Hs2)]%Hh; cbn; try congruence.
    by eapply Hun.
  - intros j m0 d0 [(-> & -> & ->) | (Hj & H & Hs)]%Hh Hd; [cbn; lia |]. specialize (Hb j m0 d0 H Hd). lia.
  - intros j1 j2 m1 m2 d1 d2 [(-> & -> & ->) | (Hj1 & H1 & Hs1)]%Hh [(-> & -> & ->) | (Hj2 & H2 & Hs2)]%Hh Hd1 Hd2; cbn; try lia.
    + specialize (Hseq j2 m2 d2 H2). rewrite Hd2 in Hseq. cbn in *. lia.
    + intros _. by apply (Hb j1 m1 d1).
    + by eapply Ho.
Qed.

Lemma next_order_S o : 0 ≤ o → o + 1 < 2 ^ 64 → next_order o = o + 1.
Proof. intros. unfold next_order. ulia. Qed.

Lemma mark_rcv k s s' :
  mark_step sid s s' → rcv k s → 0 ≤ next_delivery_order s → next_delivery_order s + 1 < 2 ^ 64 → rcv k s'.
Proof.
  intros [(c & i & m & d & Hc & Hi & (Hid & Hq & Hd)%is_pending_spec & (Hv & _) & Hst) Ho _] Hr H0 Hb.
  destruct (rc_genuine k s Hr i m d (conj Hi Hid)) as [Hpos Hm]. rewrite Hid in Hv.
  eapply (rcv_deliver k s s' c (with_delivered c (rm_end m)) i (rm_sequence m) (rm_end m) d (next_delivery_order s)); try done.
  - by rewrite Hst, Z.eqb_refl.
  - by rewrite Hq.
  - intros j m0 d0 H Hs. by eapply (rc_unique k s Hr j i m0 m d0 d H (conj Hi Hid)).
  - intros m0 d0 [H _]. congruence.
  - rewrite Ho. by apply next_order_S.
Qed.

Lemma taken_rcv k s s' q d e :
  taken sid q d e s s' → rcv k s → 0 ≤ q → msgs !! Z.to_nat q = Some (d, e) →
  0 ≤ next_delivery_order s → next_delivery_order s + 1 < 2 ^ 64 → rcv k s'.
Proof.
  intros [(c & i & Hc & Hu & Hge & _ & Hfree & ((Hv & _) & Hst & Ho)) Hnew _] Hr Hq Hm H0 Hb.
  assert (Hst' := Hst sid). rewrite Z.eqb_refl in Hst'.
  destruct (Z.eqb_spec q (next_expected c)) as [Eq |].
  - eapply (rcv_deliver k s s' c _ i q e d (next_delivery_order s)); try done.
    + cbn. by rewrite Eq.
    + intros j m0 d0 [H1 H2] Hs. by destruct (Hnew j m0 d0 H1 H2).
    + intros m0 d0 [H1 _]. congruence.
    + rewrite Ho. by apply next_order_S.
  - destruct Hr as [(c0 & Hc0 & Hu0 & Hk & Hseq & Hall) Hg Hun Hbf Hor]. assert (c0 = c) as -> by congruence.
    assert (Hh : ∀ j m0 d0, held s' j m0 d0 → j = i ∧ m0 = mkRx sid q e Pending 0 ∧ d0 = d ∨ j ≠ i ∧ held s j m0 d0).
    { intros j m0 d0 [H1 H2]. rewrite Hv in H1. case_decide; [left; by injection H1 as <- <- | by right]. }
    assert (Hh' : ∀ j m0 d0, held s j m0 d0 → held s' j m0 d0).
    { intros j m0 d0 [H1 H2]. split; [| done]. rewrite Hv. case_decide; [congruence | done]. }
    split.
    + eexists. split; [done |]. cbn. split_and!; try done; try lia.
      * intros j m0 d0 [(-> & -> & ->) | (Hj & H)]%Hh; [cbn; lia | by apply (Hseq j m0 d0)].
      * intros q0 Hq0. destruct (Hall q0 Hq0) as (j & m0 & d0 & H & H'). exists j, m0, d0. split; [by apply Hh' | done].
    + intros j m0 d0 [(-> & -> & ->) | (Hj & H)]%Hh; [done | by eapply Hg].
    + intros j1 j2 m1 m2 d1 d2 [(-> & -> & ->) | (Hj1 & H1)]%Hh [(-> & -> & ->) | (Hj2 & H2)]%Hh; cbn; try done.
      * intros Hs. destruct H2 as [H2 H2']. by destruct (Hnew j2 m2 d2 H2 H2').
      * intros Hs. destruct H1 as [H1 H1']. by destruct (Hnew j1 m1 d1 H1 H1').
      * by eapply Hun.
    + intros j m0 d0 [(-> & -> & ->) | (Hj & H)]%Hh Hd; [done |]. rewrite Ho. by eapply Hbf.
    + intros j1 j2 m1 m2 d1 d2 [(-> & -> & ->) | (Hj1 & H1)]%Hh [(-> & -> & ->) | (Hj2 & H2)]%Hh Hd1 Hd2; cbn; try done.
      by eapply Hor.
Qed.

Lemma iter_order k o : 0 ≤ o → o + Z.of_nat k < 2 ^ 64 → Nat.iter k next_order o = o + Z.of_nat k.
Proof.
  intros H0. induction k as [| k IH]; intros Hb; [cbn; lia |].
  change (Nat.iter (S k) next_order o) with (next_order (Nat.iter k next_order o)). rewrite IH by lia. rewrite next_order_S; lia.
Qed.

Lemma order_bound b s s' :
  order_moves b s s' → 0 ≤ next_delivery_order s → next_delivery_order s + Z.of_nat b < 2 ^ 64 →
  next_delivery_order s ≤ next_delivery_order s' ≤ next_delivery_order s + Z.of_nat b.
Proof. intros (k & Hk & ->) H0 Hb. rewrite iter_order; lia. Qed.

Lemma marks_rcv k n s s' :
  nsteps (mark_step sid) n s s' → rcv k s → 0 ≤ next_delivery_order s → next_delivery_order s + Z.of_nat n < 2 ^ 64 → rcv k s'.
Proof.
  intros H Hr H0 Hb. induction H as [s | n s s1 s' Hstep _ IH]; [done |].
  assert (Ho : next_delivery_order s1 = next_delivery_order s + 1)
    by (rewrite (ms_order _ _ _ Hstep); apply next_order_S; lia).
  apply IH; [eapply mark_rcv; [done | done | lia | lia] | lia | lia].
Qed.

(** A genuine message may arrive at any time. *)
Lemma arrival_rcv k s s' q d e :
  arrival sid (Some q) d e s s' → bs_inv s → rcv k s → 0 ≤ q → msgs !! Z.to_nat q = Some (d, e) →
  0 ≤ next_delivery_order s → next_delivery_order s + Z.of_nat (S (rx_slots s)) < 2 ^ 64 → rcv k s'.
Proof.
  intros H Hs Hr Hq Hm H0 Hb. destruct H as [s' Hst Ht Hrx Ho | c c' s' Hc Hu _ _ _ _ _ | seq s1 n s' [= <-] Htk Hsteps Hn].
  - apply (rcv_quiet k s); [done | | apply order_bound in Ho; lia].
    apply quiet_streams; [done |]. intros c Hc. exists c. by rewrite (stream_streams s s' Hst).
  - destruct (rc_stream k s Hr) as (c0 & Hc0 & Hu0 & _). congruence.
  - assert (Ho : next_delivery_order s ≤ next_delivery_order s1 ≤ next_delivery_order s + 1).
    { destruct (tk_stream _ _ _ _ _ _ Htk) as (c & i & _ & _ & _ & _ & _ & (_ & _ & Ho)). rewrite Ho.
      destruct (q =? next_expected c); [rewrite next_order_S; lia | lia]. }
    eapply marks_rcv; [done | eapply taken_rcv; try done; lia | lia | lia].
Qed.

(** What is consumed is the message that was due. *)
Lemma recv_rcv k s out :
  bs_inv s → rcv k s →
  let '(s', r) := recv_into sid out s in
  next_delivery_order s' = next_delivery_order s ∧
  match consumed_now r with
  | [] => rcv k s'
  | [x] => rcv (k + 1) s' ∧ msgs !! Z.to_nat k = Some x
  | _ => False
  end.
Proof.
  intros Hs Hr. pose proof (recv_spec s sid out Hs) as H. pose proof (best_of_spec sid (mp_entries (rx s))) as Hbest.
  destruct (best_of sid (mp_entries (rx s))) as [[i m] |].
  2: { destruct H as (r & -> & _ & Hno). split; [done |]. destruct r as [[x |] | |]; [by destruct (Hno x) | done..]. }
  destruct H as (d & Hi & [(r & -> & _ & Hno) | ->]).
  { split; [done |]. destruct r as [[x |] | |]; [by destruct (Hno x) | done..]. }
  split; [done |]. cbn [consumed_now rcv_len rcv_end]. destruct Hbest as (_ & [Hid Hd] & Hmin). cbn in Hid, Hd, Hmin.
  destruct (rc_stream k s Hr) as (c & Hc & Hu & Hk & Hseq & Hall).
  assert (Hheld : held s i m d) by done. pose proof (Hseq i m d Hheld) as Hsm. rewrite Hd in Hsm.
  assert (Hfirst : rm_sequence m = k).
  { destruct (decide (rm_sequence m = k)) as [| Hne]; [done |]. destruct (Hall k) as (j & m0 & d0 & Hj & Hs0 & Hd0); [lia |].
    pose proof (rc_order k s Hr j i m0 m d0 d Hj Hheld Hd0 Hd). destruct Hj as [Hj1 Hj2].
    specialize (Hmin (j, m0) (view_entry _ _ _ _ Hj1) (conj Hj2 Hd0)). cbn in Hmin. lia. }
  destruct (rc_genuine k s Hr i m d Hheld) as [_ Hm]. rewrite Hfirst in Hm.
  assert (Hout : slice (d ++ drop (Z.to_nat (len d)) out) 0 (len d) = d).
  { pose proof (len_nonneg d). rewrite slice_app_l by lia. by apply slice_full. }
  rewrite Hout. split; [| done].
  destruct (mp_release_spec (rx s) i (bi_rx s Hs)) as [_ Hv].
  assert (Hh : ∀ j m0 d0, held (put_rx s (mp_release i (rx s))) j m0 d0 ↔ j ≠ i ∧ held s j m0 d0).
  { intros j m0 d0. unfold held, rx_view. cbn. rewrite Hv. case_decide; naive_solver. }
  split.
  - exists c. split_and!; try done; try lia.
    + intros j m0 d0 [Hj H0]%Hh. specialize (Hseq j m0 d0 H0). destruct (rm_disposition m0); [done |].
      assert (rm_sequence m0 ≠ k); [| lia]. intros E. apply Hj. eapply (rc_unique k s Hr); [done | exact Hheld | congruence].
    + intros q Hq. destruct (Hall q) as (j & m0 & d0 & H0 & Hs0 & Hd0); [lia |]. exists j, m0, d0. split; [| done].
      apply Hh. split; [| done]. intros ->. destruct H0 as [H0 _]. assert (m0 = m) as -> by congruence. lia.
  - intros j m0 d0 [_ H0]%Hh. exact (rc_genuine k s Hr j m0 d0 H0).
  - intros j1 j2 m1 m2 d1 d2 [_ H1]%Hh [_ H2]%Hh. exact (rc_unique k s Hr j1 j2 m1 m2 d1 d2 H1 H2).
  - intros j m0 d0 [_ H0]%Hh. exact (rc_before k s Hr j m0 d0 H0).
  - intros j1 j2 m1 m2 d1 d2 [_ H1]%Hh [_ H2]%Hh. exact (rc_order k s Hr j1 j2 m1 m2 d1 d2 H1 H2).
Qed.
End receiver.

Lemma rcv_mono msgs more k s : rcv msgs k s → rcv (msgs ++ more) k s.
Proof.
  intros [(c & Hc & Hu & Hk & Hseq & Hall) Hg Hun Hb Ho]. split; try done.
  - exists c. pose proof (len_nonneg more). split_and!; try done; try lia. rewrite len_app. lia.
  - intros i m d H. destruct (Hg i m d H) as [Hp Hm]. split; [done |]. by apply lookup_app_l_Some.
Qed.

(** ** The sender *)

(** The messages of the stream that wait to be acknowledged are those sent. *)
Record snd (msgs : list (list Z * bool)) (s : BoundedGtsSocket) : Prop := {
  sn_stream : ∃ c, stream s sid = Ok c ∧ sp_unreliable (s_profile c) = false ∧ next_tx_sequence c = len msgs mod 2 ^ 32;
  sn_held : ∀ i m d, tx_view s i = Some (m, d) → tm_stream_id m = sid →
    0 ≤ tm_sequence m ∧ msgs !! Z.to_nat (tm_sequence m) = Some (d, tm_end m) }.

Lemma snd_less msgs s s' :
  snd msgs s → (∀ c, stream s sid = Ok c →
    ∃ c', stream s' sid = Ok c' ∧ s_profile c' = s_profile c ∧ next_tx_sequence c' = next_tx_sequence c) →
  (∀ i m d, tx_view s' i = Some (m, d) → tm_stream_id m = sid →
    ∃ m0, tx_view s i = Some (m0, d) ∧ tm_stream_id m0 = sid ∧ tm_sequence m0 = tm_sequence m ∧ tm_end m0 = tm_end m) →
  snd msgs s'.
Proof.
  intros [(c & Hc & Hu & Hn) Hh] Hst Hv. destruct (Hst c Hc) as (c' & Hc' & Hp & Hn'). split.
  - exists c'. by rewrite Hp, Hn'.
  - intros i m d Hi Hid. destruct (Hv i m d Hi Hid) as (m0 & H0 & Hid0 & <- & <-). by apply (Hh i m0 d).
Qed.

Lemma ack_snd msgs s k ack : bs_inv s → snd msgs s → snd msgs (on_ack k ack s).1.
Proof.
  intros Hs Hsn. assert (Hid : snd msgs s) by done. unfold on_ack. rewrite (st_bind_Ok_l _ _ s s s) by done.
  destruct (stream s k) as [c | |] eqn:Ec; [| done..]. rewrite (st_bind_Ok_l _ _ s s c) by done.
  destruct (_ || _); [done |]. rewrite (st_bind_Ok_l _ _ s s tt) by done.
  destruct (update_stream_spec s c k (λ c, with_peer_credit c (receive_credit ack)) Ec) as (s1 & H1 & (l & ->) & Hst); [done |].
  rewrite (st_bind_Ok_l _ _ _ _ _ H1).
  destruct (remove_where_spec (λ m, (tm_stream_id m =? k) && tx_acked (tm_sequence m) (ack_base ack) (receive_bitmap ack)) (tx s) (bi_tx s Hs))
    as (p' & Hr & _ & _ & Hv).
  unfold on_tx, zoom. change (tx (put_streams s l)) with (tx s). rewrite Hr. cbn [fst].
  apply (snd_less msgs s); [done | |].
  - intros c0 H0. change (stream (put_tx (put_streams s l) p') sid) with (stream (put_streams s l) sid). rewrite Hst.
    destruct (Z.eqb_spec sid k) as [-> |]; [| by exists c0]. assert (c0 = c) as -> by congruence. by eexists.
  - intros i m d. unfold tx_view at 1. cbn. rewrite Hv. case_match; [done |]. intros H0 Hm. by exists m.
Qed.

Lemma resend_snd msgs s now :
  bs_inv s → snd msgs s → let '(s', r) := retransmit_due now s in
  snd msgs s' ∧ ∀ q d e, (q, d, e) ∈ resent_now r → 0 ≤ q ∧ msgs !! Z.to_nat q = Some (d, e).
Proof.
  intros Hs Hsn. pose proof (retransmit_spec s now Hs) as H. destruct (head _) as [[i m] |].
  2: { rewrite H. split; [done | set_solver]. }
  destruct H as (d & p' & Hd & _ & -> & _ & Hv). split.
  - apply (snd_less msgs s); [done | intros c Hc; by exists c |]. intros j m0 d0. unfold tx_view at 1. cbn. rewrite Hv.
    case_decide; [| intros H0 Hm; by exists m0]. subst j. intros [= <- <-]. cbn. intros Hm. by exists m.
  - intros q d0 e. cbn. destruct (Z.eqb_spec (tm_stream_id m) sid) as [E |]; [| set_solver].
    intros [= -> -> ->]%list_elem_of_singleton. by apply (sn_held msgs s Hsn i m d).
Qed.

(** A message that is accepted gets the next sequence number. *)
Lemma send_snd msgs s data e now :
  bs_inv s → snd msgs s → len msgs < 2 ^ 32 →
  let '(s', r) := send sid data e now s in
  snd (msgs ++ (if is_ok r then [(data, e)] else [])) s' ∧
  ∀ q d e', (q, d, e') ∈ sent_now data e r → q = len msgs ∧ d = data ∧ e' = e ∧ is_ok r = true.
Proof.
  intros Hs Hsn Hlen. pose proof (sn_stream msgs s Hsn) as (c & Hc & Hu & Hn).
  assert (Hfail : ∀ er, snd (msgs ++ (if is_ok (@Err SendInfo er) then [(data, e)] else [])) s ∧
    ∀ q d e', (q, d, e') ∈ sent_now data e (@Err SendInfo er) → q = len msgs ∧ d = data ∧ e' = e ∧ is_ok (@Err SendInfo er) = true)
    by (intros er; cbn; rewrite app_nil_r; split; [done | set_solver]).
  unfold send. rewrite (st_bind_Ok_l _ _ s s s) by done.
  pose proof (proj1 (stream_Ok s sid c) Hc) as (idx & Hi & Hslot). rewrite Hi. rewrite (st_bind_Ok_l _ _ s s idx) by done.
  unfold slot_at. rewrite Hslot. rewrite (st_bind_Ok_l _ _ s s (Some c)) by done. cbn [ok_or]. rewrite (st_bind_Ok_l _ _ s s c) by done.
  destruct (_ || _); [apply (Hfail InvalidState) |]. rewrite (st_bind_Ok_l _ _ s s tt) by done.
  destruct (negb _); [apply (Hfail DirectionViolation) |]. rewrite (st_bind_Ok_l _ _ s s tt) by done.
  pose proof (validate_send_len_no_panic (s_profile c) (len data) e) as Hnp.
  destruct (validate_send_len _ _ _) as [[] | er |]; [| apply (Hfail er) | done]. rewrite (st_bind_Ok_l _ _ s s tt) by done.
  rewrite Hu. destruct (Z.eqb_spec (peer_credit c) 0); [apply (Hfail WouldBlock) |]. rewrite (st_bind_Ok_l _ _ s s tt) by done.
  rewrite Hn, Z.mod_small by (pose proof (len_nonneg msgs); lia).
  pose proof (pool_insert_spec (tx s) (mkTx sid (len msgs) e now) data (bi_tx s Hs)) as Hins.
  destruct (mp_insert _ data (tx s)) as [p' [i | er |]] eqn:Ep; [| | done].
  2: { destruct Hins as [-> _]. rewrite (st_bind_Err_l _ _ s s er) by (unfold on_tx, zoom; rewrite Ep; by destruct s). apply (Hfail er). }
  destruct Hins as (_ & _ & _ & _ & _ & _ & Hv).
  rewrite (st_bind_Ok_l _ _ s (put_tx s p') i) by (unfold on_tx, zoom; by rewrite Ep).
  destruct (bi_streams s Hs sid c Hc) as [_ _ Hk _ _]. unfold sub_or_panic, checked_sub.
  destruct (Z.leb_spec 1 (peer_credit c)); [| ulia]. rewrite (st_bind_Ok_l _ _ (put_tx s p') (put_tx s p') (peer_credit c - 1)) by done.
  set (c' := λ c, with_tx_sequence c (wrapping_add 32 (len msgs) 1) (peer_credit c - 1) (local_ended c || e)).
  match goal with |- context [update_at idx ?f] => 
    rewrite (st_bind_Ok_l _ _ _ _ _ (update_at_spec (put_tx s p') idx c sid f Hi Hslot)) end.
  cbn [mret st_ret is_ok sent_now]. split; [split |].
  - eexists. split.
    + rewrite (stream_update (put_tx s p') idx c _ sid sid); [by rewrite Z.eqb_refl | done | done |]. cbn. by apply (stream_id s).
    + split; [done |]. cbn. rewrite len_app. unfold wrapping_add. cbn. f_equal.
  - intros j m d. unfold tx_view. cbn. rewrite Hv. case_decide.
    + intros [= <- <-] _. cbn. pose proof (len_nonneg msgs). split; [done |]. unfold len. by rewrite Nat2Z.id, list_lookup_middle.
    + intros Hj Hid. destruct (sn_held msgs s Hsn j m d Hj Hid). split; [done |]. by apply lookup_app_l_Some.
  - intros q d e' [= -> -> ->]%list_elem_of_singleton. done.
Qed.

(** ** Both ends *)

Record sys_inv (slots : nat) (bound : Z) (s : bsys) : Prop := {
  si_sender : bs_inv (sy_sender s);
  si_receiver : bs_inv (sy_receiver s);
  si_slots : rx_slots (sy_receiver s) = slots;
  si_order : 0 ≤ next_delivery_order (sy_receiver s) ≤ bound;
  si_snd : snd (sy_sent s) (sy_sender s);
  si_wire : ∀ q d e, (q, d, e) ∈ sy_wire s → 0 ≤ q ∧ sy_sent s !! Z.to_nat q = Some (d, e);
  si_rcv : rcv (sy_sent s) (len (sy_consumed s)) (sy_receiver s);
  si_consumed : sy_consumed s = take (length (sy_consumed s)) (sy_sent s) }.

Lemma reachable_order s : bs_reachable s → 1 ≤ next_delivery_order s.
Proof.
  induction 1 as [r a b c ss ts tb rs rb s H | c s Hs IH Hc]; [by apply new_inv in H as (_ & _ & -> & _) |].
  destruct (run_bcall_eff c s (bs_reachable_inv s Hs) Hc) as [[_ _ (k & _ & ->) _] _]. destruct k as [| k]; [done |].
  change (Nat.iter (S k) next_order (next_delivery_order s)) with (next_order (Nat.iter k next_order (next_delivery_order s))).
  unfold next_order. lia.
Qed.

Lemma starts_inv a b :
  starts a b → sys_inv (rx_slots b) (next_delivery_order b) (mkSys a b [] [] []).
Proof.
  intros [Ha%bs_reachable_inv Hb' (c & Hc & Hu & Hn) Ht (c' & Hc' & Hu' & Hn') Hr].
  pose proof (reachable_order b Hb') as H. apply bs_reachable_inv in Hb' as Hb.
  assert (Hno : ∀ i m d, ¬ held b i m d) by (intros i m d [H1 H2]; by apply (Hr i m d)).
  split; cbn [sy_sender sy_receiver sy_sent sy_wire sy_consumed]; try done; try lia.
  - split; [exists c; by rewrite Hn |]. intros i m d Hi Hid. by destruct (Ht i m d Hi).
  - intros q d e Hin. set_solver.
  - split; try (intros; exfalso; by eapply Hno).
    exists c'. rewrite Hn'. split_and!; try done; [intros i m d Hh; by destruct (Hno i m d) | intros q Hq; rewrite len_nil in Hq; lia].
Qed.

(** The consumed messages as the sender's list grows. *)
Lemma consumed_mono (l more c : list (list Z * bool)) :
  c = take (length c) l → c = take (length c) (l ++ more).
Proof.
  intros H. rewrite take_app_le; [done |]. rewrite H at 1. rewrite length_take. lia.
Qed.

Lemma step_inv slots bound s s' :
  bstep s s' → sys_inv slots bound s → len (sy_sent s') < 2 ^ 32 → bound + Z.of_nat (S slots) < 2 ^ 64 →
  sys_inv slots (bound + Z.of_nat (S slots)) s'.
Proof.
  intros Hstep Hinv Hlen Hb. pose proof Hinv as [Hs Hr Hsl Ho Hsn Hw Hrc Hcon].
  assert (Hob : 0 ≤ next_delivery_order (sy_receiver s) ≤ bound + Z.of_nat (S slots)) by lia.
  destruct Hstep as [data e now | k ack Hack | now | q data e Hin | out | c Hc Ht].
  - pose proof (send_eff (λ _, False) (sy_sender s) sid data e now Hs) as [[Hs' _ _ _] _].
    pose proof (send_snd (sy_sent s) (sy_sender s) data e now Hs Hsn) as Hsend.
    destruct (send sid data e now (sy_sender s)) as [a r].
    cbn [sy_sender sy_receiver sy_sent sy_wire sy_consumed fst] in *. rewrite len_app in Hlen.
    pose proof (len_nonneg (if is_ok r then [(data, e)] else [])).
    destruct Hsend as [Hsn' Hq]; [lia |]. split; cbn [sy_sender sy_receiver sy_sent sy_wire sy_consumed]; try done.
    + intros q d e' [Hin | Hin]%elem_of_app.
      * destruct (Hw q d e' Hin). split; [done |]. by apply lookup_app_l_Some.
      * destruct (Hq q d e' Hin) as (-> & -> & -> & ->). pose proof (len_nonneg (sy_sent s)). split; [done |].
        unfold len. by rewrite Nat2Z.id, list_lookup_middle.
    + by apply rcv_mono.
    + by apply consumed_mono.
  - pose proof (on_ack_eff (λ _, False) (sy_sender s) k ack Hs Hack) as [[Hs' _ _ _] _].
    split; cbn [sy_sender sy_receiver sy_sent sy_wire sy_consumed]; try done. by apply ack_snd.
  - pose proof (retransmit_eff (λ _, False) (sy_sender s) now Hs) as [[Hs' _ _ _] _].
    pose proof (resend_snd (sy_sent s) (sy_sender s) now Hs Hsn) as Hre.
    destruct (retransmit_due now (sy_sender s)) as [a r]. cbn [sy_sender sy_receiver sy_sent sy_wire sy_consumed fst] in *.
    destruct Hre as [Hsn' Hq]. split; cbn [sy_sender sy_receiver sy_sent sy_wire sy_consumed]; try done.
    intros q d e [Hin | Hin]%elem_of_app; [by apply Hw | by apply Hq].
  - destruct (Hw q data e Hin) as [Hq Hm].
    destruct (arrival_cases (sy_receiver s) sid (Some q) data e Hr) as (b & r & Hrec & _ & Harr).
    destruct (arrival_effect _ _ _ _ _ _ Harr Hr) as [Hr' Hsl' Hord _]. rewrite Hrec.
    cbn [sy_sender sy_receiver sy_sent sy_wire sy_consumed fst] in *. rewrite Hsl in Hord.
    apply order_bound in Hord; [| lia..].
    split; cbn [sy_sender sy_receiver sy_sent sy_wire sy_consumed]; try done; [congruence | lia |].
    eapply arrival_rcv; try done; [lia |]. rewrite Hsl. lia.
  - pose proof (recv_eff (sy_receiver s) sid out Hr) as [[Hr' Hsl' _ _] _].
    pose proof (recv_rcv (sy_sent s) (len (sy_consumed s)) (sy_receiver s) out Hr Hrc) as Hrecv.
    destruct (recv_into sid out (sy_receiver s)) as [b r]. cbn [sy_sender sy_receiver sy_sent sy_wire sy_consumed fst] in *.
    destruct Hrecv as [Hord Hrecv].
    destruct (consumed_now r) as [| x [| ? ?]]; [rewrite app_nil_r | | done].
    + split; cbn [sy_sender sy_receiver sy_sent sy_wire sy_consumed]; try done; [congruence | lia].
    + destruct Hrecv as [Hrc' Hx]. split; cbn [sy_sender sy_receiver sy_sent sy_wire sy_consumed]; try done; [congruence | lia | |].
      * by rewrite len_snoc.
      * rewrite length_app, Nat.add_1_r. unfold len in Hx. rewrite Nat2Z.id in Hx. rewrite (take_S_r _ _ x Hx). by rewrite <- Hcon.
  - destruct (run_bcall_eff c (sy_receiver s) Hr Hc) as [[Hr' Hsl' Hord Hq] _]. rewrite Hsl in Hord. apply order_bound in Hord; [| lia..].
    split; cbn [sy_sender sy_receiver sy_sent sy_wire sy_consumed]; try done; [congruence | lia |].
    eapply rcv_quiet; [done | by apply Hq | lia].
Qed.

Lemma sent_grows s s' : bstep s s' → len (sy_sent s) ≤ len (sy_sent s').
Proof.
  intros H. destruct H; try done.
  - destruct (send sid data e now (sy_sender s)). cbn. rewrite len_app. pose proof (len_nonneg (if is_ok r then [(data, e)] else [])). lia.
  - by destruct (retransmit_due now (sy_sender s)).
  - by destruct (recv_into sid out (sy_receiver s)).
Qed.

Lemma steps_inv n slots bound s s' :
  nsteps bstep n s s' → sys_inv slots bound s → len (sy_sent s') < 2 ^ 32 → bound + Z.of_nat n * Z.of_nat (S slots) < 2 ^ 64 →
  sys_inv slots (bound + Z.of_nat n * Z.of_nat (S slots)) s'.
Proof.
  intros H. revert bound. induction H as [s | n s s1 s' Hstep Hsteps IH]; intros bound Hinv Hlen Hb.
  - by rewrite Z.mul_0_l, Z.add_0_r.
  - assert (Hmono : len (sy_sent s1) ≤ len (sy_sent s')).
    { clear -Hsteps. induction Hsteps as [| ? ? ? ? H1 _ IH]; [done |]. apply sent_grows in H1. lia. }
    replace (bound + Z.of_nat (S n) * Z.of_nat (S slots)) with ((bound + Z.of_nat (S slots)) + Z.of_nat n * Z.of_nat (S slots)) in * by lia.
    apply IH; [| done | done]. apply (step_inv slots bound s); try done; lia.
Qed.
End system.

(** C27: two heapless sockets deliver a reliable stream in order: whatever the
    network loses, repeats or reorders, whatever the acknowledgements say, and
    whatever else happens on the receiver's other streams, what has been consumed
    is a prefix of what was sent, each message once and intact. The stream carries
    fewer than 2^32 messages, and the history is short enough for the 64-bit
    delivery counter. *)
Theorem bounded_stream_in_order sid a b n s :
  starts sid a b → nsteps (bstep sid) n (mkSys a b [] [] []) s →
  len (sy_sent s) < 2 ^ 32 →
  next_delivery_order b + Z.of_nat n * Z.of_nat (S (rx_slots b)) < 2 ^ 64 →
  sy_consumed s `prefix_of` sy_sent s.
Proof.
  intros Hst Hsteps Hlen Hb. pose proof (starts_inv sid a b Hst) as Hinv. pose proof (si_consumed _ _ _ _ (steps_inv sid n _ _ _ _ Hsteps Hinv Hlen Hb)) as ->.
  apply prefix_take.
Qed.

(** ** A run with a loss: message 1 arrives first, and message 0 is resent *)

Lemma no_entries {M} (p : MessagePool M) : mp_entries p = [] → ∀ i m d, pool_view p i = Some (m, d) → False.
Proof. intros H i m d Hv%view_entry. rewrite H in Hv. set_solver. Qed.

Lemma open_socket_starts : starts 0 open_socket open_socket.
Proof.
  assert (H1 : ∀ i m d, tx_view open_socket i = Some (m, d) → False) by (apply no_entries; by vm_compute).
  assert (H2 : ∀ i m d, rx_view open_socket i = Some (m, d) → False) by (apply no_entries; by vm_compute).
  split; try apply open_socket_reachable.
  - eexists. split; [vm_compute; reflexivity |]. by split.
  - intros i m d H. by destruct (H1 i m d).
  - eexists. split; [vm_compute; reflexivity |]. by split.
  - intros i m d H. by destruct (H2 i m d).
Qed.

Definition did_send (data : list Z) (e : bool) (now : Z) (s : bsys) : bsys :=
  let '(a, r) := send 0 data e now (sy_sender s) in
  mkSys a (sy_receiver s) (sy_sent s ++ (if is_ok r then [(data, e)] else [])) (sy_wire s ++ sent_now data e r) (sy_consumed s).
Definition did_deliver (q : Z) (data : list Z) (e : bool) (s : bsys) : bsys :=
  mkSys (sy_sender s) (receive 0 (Some q) data e (sy_receiver s)).1 (sy_sent s) (sy_wire s) (sy_consumed s).
Definition did_recv (out : list Z) (s : bsys) : bsys :=
  let '(b, r) := recv_into 0 out (sy_receiver s) in
  mkSys (sy_sender s) b (sy_sent s) (sy_wire s) (sy_consumed s ++ consumed_now r).

Lemma did_send_step data e now s : bstep 0 s (did_send data e now s).
Proof. exact (bs_send 0 s data e now). Qed.
Lemma did_deliver_step q data e s : (q, data, e) ∈ sy_wire s → bstep 0 s (did_deliver q data e s).
Proof. exact (bs_deliver 0 s q data e). Qed.
Lemma did_recv_step out s : bstep 0 s (did_recv out s).
Proof. exact (bs_recv 0 s out). Qed.

Definition two_sent (s : bsys) : bsys := did_send [8] true 0 (did_send [7] false 0 s).
Definition two_received (s : bsys) : bsys :=
  did_recv (zeros 4) (did_recv (zeros 4) (did_deliver 0 [7] false (did_deliver 1 [8] true (two_sent s)))).

Lemma two_run s :
  (1, [8], true) ∈ sy_wire (two_sent s) → (0, [7], false) ∈ sy_wire (two_sent s) → nsteps (bstep 0) 6 s (two_received s).
Proof.
  intros H1 H0. eapply nsteps_l; [apply did_send_step |]. eapply nsteps_l; [apply did_send_step |].
  eapply nsteps_l; [by apply (did_deliver_step 1 [8] true) |]. eapply nsteps_l; [by apply (did_deliver_step 0 [7] false) |].
  eapply nsteps_l; [apply did_recv_step |]. eapply nsteps_l; [apply did_recv_step |]. apply nsteps_O.
Qed.

Definition start : bsys := mkSys open_socket open_socket [] [] [].

Lemma bounded_stream_in_order_witness :
  sy_consumed (two_received start) = [([7], false); ([8], true)] ∧
  sy_consumed (two_received start) `prefix_of` sy_sent (two_received start).
Proof.
  split; [by vm_compute |].
  assert (Hw : sy_wire (two_sent start) = [(0, [7], false); (1, [8], true)]) by by vm_compute.
  apply (bounded_stream_in_order 0 open_socket open_socket 6 (two_received start) open_socket_starts).
  - apply two_run; rewrite Hw; set_solver.
  - by vm_compute.
  - by vm_compute.
Defined.

(** ** An acknowledgement that covers what never arrived *)

Definition socket_of {A} (m : bst A) (s : BoundedGtsSocket) : BoundedGtsSocket := (m s).1.

(** Message 1 arrives before message 0 ever did: the acknowledgement it causes
    names [2^32 - 1] as the last message received in order, and the sender, which
    compares sequence numbers with [<=], drops every message it still holds. *)
Theorem bounded_ack_before_first :
  let sender := socket_of (send 0 [8] false 0) (socket_of (send 0 [7] false 0) open_socket) in
  let '(receiver, r) := receive 0 (Some 1) [8] false open_socket in
  r = Ok (Some (mkAck 4294967295 2 3)) ∧
  (∃ d, mp_get (tx sender) 0 = Ok (Some (mkTx 0 0 false 0, d)) ∧ d = [7]) ∧
  on_ack 0 (mkAck 4294967295 2 3) sender = (socket_of (on_ack 0 (mkAck 4294967295 2 3)) sender, Ok tt) ∧
  (∀ now, (retransmit_due now (socket_of (on_ack 0 (mkAck 4294967295 2 3)) sender)).2 = Ok None) ∧
  (recv_into 0 (zeros 4) receiver).2 = Ok None.
Proof.
  split; [by vm_compute |]. split; [eexists; split; [vm_compute; reflexivity | done] |]. split; [by vm_compute |].
  split; [| by vm_compute]. intros now. set (s := socket_of _ _). assert (H : mp_entries (tx s) = []) by by vm_compute.
  unfold retransmit_due. rewrite (st_bind_Ok_l _ _ s s s) by done. by rewrite H.
Qed.
