(* ===== verification/EndpointCore.v ===== *)
(** * The endpoint (src/src/endpoint/core.rs, src/src/endpoint/link_api.rs)

    One [EndpointCore] joins the link endpoint of Dlp.v with the tunnels of
    GtsStream.v: link credit by GCTL CREDIT, address assignment (client and
    authority side), GTS tunnel and stream operations, dispatch of received
    packets, retransmission, and [DirectLink], the loop that moves flits
    between two endpoints. *)
From stdpp Require Import prelude gmap.
From Stdlib Require Import ZArith Lia.
From S2P Require Import Prelude BTree Css GdpWire Gctl GtsWire GtsCodec Reliable GtsStream Dlp.
Local Open Scope Z_scope.

Definition LINK_LOCAL_PREFIX : Z := 0xfe80000000000000.
Definition LINK_LOCAL_SUFFIX_MASK : Z := 0x0000ffffffffffff.
Definition BOOTSTRAP_ADDRESS : Z := LINK_LOCAL_PREFIX.

Definition make_link_local (suffix : Z) : res Z :=
  let suffix := Z.land suffix LINK_LOCAL_SUFFIX_MASK in
  fail_if (suffix =? 0) InvalidField;;
  Ok (Z.lor LINK_LOCAL_PREFIX suffix).

(** ** Configuration *)

Record ListenerConfig : Set := mkListener { receive_slots : Z }.
Definition ListenerConfig_default : ListenerConfig := {| receive_slots := 32 |}.

Record EndpointConfig : Set := mkEpConfig {
  ec_rx_buffer_flits : Z;
  ec_vc_mode : VcMode;
  ec_gts_receive_slots : Z;
  ec_local_context_prefix : option Z;
  ec_prefer_local_gdp : bool;
  ec_credit_update_threshold : Z;
  ec_control_window_flits : Z;
  ec_gdp_wire : GdpWireConfig }.

Definition ep_config_new (rx_buffer_flits : Z) : EndpointConfig :=
  {| ec_rx_buffer_flits := rx_buffer_flits; ec_vc_mode := Two; ec_gts_receive_slots := 32;
     ec_local_context_prefix := None; ec_prefer_local_gdp := false;
     ec_credit_update_threshold := 1; ec_control_window_flits := 32;
     ec_gdp_wire := GdpWireConfig_default |}.

Definition ep_config_validate (self : EndpointConfig) : res EndpointConfig :=
  fail_if ((ec_rx_buffer_flits self =? 0) || (ec_gts_receive_slots self =? 0)
           || (ec_control_window_flits self =? 0) || (ec_credit_update_threshold self =? 0))
    InvalidField;;
  Ok self.

(** ** Address assignment state *)

Inductive AddressState : Set :=
  | Static
  | LinkLocalOnly
  | Soliciting (transaction_id : Z)
  | Offered (transaction_id router candidate : Z)
  | Assigned (address router lifetime : Z)
  | Rejected (reason retry_delay : Z).
#[export] Instance AddressState_eq_dec : EqDecision AddressState.
Proof. solve_decision. Defined.

Record AddressAuthorityConfig : Set := mkAuthConfig {
  aa_prefix : Z;
  aa_prefix_len : Z;
  aa_lifetime : Z;
  aa_preference : Z;
  aa_capabilities : Z }.

Definition authority_config_new (prefix prefix_len lifetime : Z) : res AddressAuthorityConfig :=
  p ← normalize_prefix prefix prefix_len;
  Ok {| aa_prefix := p; aa_prefix_len := prefix_len; aa_lifetime := lifetime;
        aa_preference := 0; aa_capabilities := 0 |}.

Record PendingAuthorityOffer : Set := mkPendingAuth { po_client : Z; po_candidate : Z }.

Record AddressAuthority : Set := mkAuthority {
  au_config : AddressAuthorityConfig;
  next_host : Z;
  au_pending : gmap Z PendingAuthorityOffer;
  leases : gmap Z Z }.

Definition authority_new (config : AddressAuthorityConfig) : AddressAuthority :=
  {| au_config := config; next_host := 1; au_pending := ∅; leases := ∅ |}.

Definition candidate_in_use (self : AddressAuthority) (candidate : Z) : bool :=
  bool_decide (is_Some (leases self !! candidate)) ||
  bool_decide (map_Exists (λ _ p, po_candidate p = candidate) (au_pending self)).

Definition set_next_host (self : AddressAuthority) (n : Z) : AddressAuthority :=
  mkAuthority (au_config self) n (au_pending self) (leases self).

(** [(self.next_host + 1) & host_mask], with zero replaced by one *)
Definition advance_host (host_mask : Z) : st AddressAuthority unit :=
  a ← gets Datatypes.id;
  sum ← lift (add_or_panic 64 (next_host a) 1);
  let n := Z.land sum host_mask in
  modify (λ a, set_next_host a (if n =? 0 then 1 else n)).

(** The [for _ in 0..attempts] loop, [attempts] being the first argument. *)
Fixpoint allocate_loop (attempts : nat) (host_mask router : Z) : st AddressAuthority Z :=
  match attempts with
  | O => lift (Err BufferFull)
  | S attempts =>
      a ← gets Datatypes.id;
      let host := Z.land (next_host a) host_mask in
      advance_host host_mask;;
      if host =? 0 then allocate_loop attempts host_mask router
      else
        let candidate := Z.lor (aa_prefix (au_config a)) host in
        if negb (candidate =? router) && negb (candidate_in_use a candidate)
        then mret candidate
        else allocate_loop attempts host_mask router
  end.

Definition allocate_candidate (router : Z) : st AddressAuthority Z :=
  a ← gets Datatypes.id;
  host_bits ← lift (sub_or_panic 64 (aa_prefix_len (au_config a)));
  (** [1u64 << host_bits] *)
  lift (if 64 <=? host_bits then Panic else Ok tt);;
  let host_mask := 2 ^ host_bits - 1 in
  let attempts := Z.max (Z.min host_mask 65535) 1 in
  allocate_loop (Z.to_nat attempts) host_mask router.

Record PendingClientOffer : Set := mkClientOffer {
  pc_transaction_id : Z; pc_source : Z; pc_offer : AddressOfferBody }.

(** ** The endpoint *)

#[export] Instance ServiceSelector_countable : Countable ServiceSelector :=
  inj_countable' sel mkSelector (λ s, match s with mkSelector _ => eq_refl end).

Record TunnelRecord : Set := mkRecord { peer : Z; tunnel : GtsTunnel }.

Record EndpointCore : Set := mkCore {
  config : EndpointConfig;
  primary_address : Z;
  link_local_address : Z;
  address_state : AddressState;
  router_address : option Z;
  pending_client_offer : option PendingClientOffer;
  authority : option AddressAuthority;
  next_claim_nonce : Z;
  dlp : DlpEndpoint;
  peer_link_local : option Z;
  credit_request_pending : bool;
  next_control_transaction_id : Z;
  listeners : gmap ServiceSelector ListenerConfig;
  tunnels : gmap Z TunnelRecord;
  accepted : list Z;
  next_tunnel : Z;
  next_reset : Z;
  echo_replies : gmap Z (list Z);
  gctl_inbox : list (Z * GctlMessage);
  last_rx_address_form : option AddressForm }.

Section setters.
Context (s : EndpointCore).
Definition set_config v := mkCore v (primary_address s) (link_local_address s) (address_state s)
  (router_address s) (pending_client_offer s) (authority s) (next_claim_nonce s) (dlp s)
  (peer_link_local s) (credit_request_pending s) (next_control_transaction_id s) (listeners s)
  (tunnels s) (accepted s) (next_tunnel s) (next_reset s) (echo_replies s) (gctl_inbox s)
  (last_rx_address_form s).
Definition set_primary v := mkCore (config s) v (link_local_address s) (address_state s)
  (router_address s) (pending_client_offer s) (authority s) (next_claim_nonce s) (dlp s)
  (peer_link_local s) (credit_request_pending s) (next_control_transaction_id s) (listeners s)
  (tunnels s) (accepted s) (next_tunnel s) (next_reset s) (echo_replies s) (gctl_inbox s)
  (last_rx_address_form s).
Definition set_state v := mkCore (config s) (primary_address s) (link_local_address s) v
  (router_address s) (pending_client_offer s) (authority s) (next_claim_nonce s) (dlp s)
  (peer_link_local s) (credit_request_pending s) (next_control_transaction_id s) (listeners s)
  (tunnels s) (accepted s) (next_tunnel s) (next_reset s) (echo_replies s) (gctl_inbox s)
  (last_rx_address_form s).
Definition set_router v := mkCore (config s) (primary_address s) (link_local_address s)
  (address_state s) v (pending_client_offer s) (authority s) (next_claim_nonce s) (dlp s)
  (peer_link_local s) (credit_request_pending s) (next_control_transaction_id s) (listeners s)
  (tunnels s) (accepted s) (next_tunnel s) (next_reset s) (echo_replies s) (gctl_inbox s)
  (last_rx_address_form s).
Definition set_offer v := mkCore (config s) (primary_address s) (link_local_address s)
  (address_state s) (router_address s) v (authority s) (next_claim_nonce s) (dlp s) (peer_link_local
  s) (credit_request_pending s) (next_control_transaction_id s) (listeners s) (tunnels s) (accepted
  s) (next_tunnel s) (next_reset s) (echo_replies s) (gctl_inbox s) (last_rx_address_form s).
Definition set_authority v := mkCore (config s) (primary_address s) (link_local_address s)
  (address_state s) (router_address s) (pending_client_offer s) v (next_claim_nonce s) (dlp s)
  (peer_link_local s) (credit_request_pending s) (next_control_transaction_id s) (listeners s)
  (tunnels s) (accepted s) (next_tunnel s) (next_reset s) (echo_replies s) (gctl_inbox s)
  (last_rx_address_form s).
Definition set_nonce v := mkCore (config s) (primary_address s) (link_local_address s)
  (address_state s) (router_address s) (pending_client_offer s) (authority s) v (dlp s)
  (peer_link_local s) (credit_request_pending s) (next_control_transaction_id s) (listeners s)
  (tunnels s) (accepted s) (next_tunnel s) (next_reset s) (echo_replies s) (gctl_inbox s)
  (last_rx_address_form s).
Definition set_dlp v := mkCore (config s) (primary_address s) (link_local_address s) (address_state
  s) (router_address s) (pending_client_offer s) (authority s) (next_claim_nonce s) v
  (peer_link_local s) (credit_request_pending s) (next_control_transaction_id s) (listeners s)
  (tunnels s) (accepted s) (next_tunnel s) (next_reset s) (echo_replies s) (gctl_inbox s)
  (last_rx_address_form s).
Definition set_peer v := mkCore (config s) (primary_address s) (link_local_address s) (address_state
  s) (router_address s) (pending_client_offer s) (authority s) (next_claim_nonce s) (dlp s) v
  (credit_request_pending s) (next_control_transaction_id s) (listeners s) (tunnels s) (accepted s)
  (next_tunnel s) (next_reset s) (echo_replies s) (gctl_inbox s) (last_rx_address_form s).
Definition set_request_pending v := mkCore (config s) (primary_address s) (link_local_address s)
  (address_state s) (router_address s) (pending_client_offer s) (authority s) (next_claim_nonce s)
  (dlp s) (peer_link_local s) v (next_control_transaction_id s) (listeners s) (tunnels s) (accepted
  s) (next_tunnel s) (next_reset s) (echo_replies s) (gctl_inbox s) (last_rx_address_form s).
Definition set_control_id v := mkCore (config s) (primary_address s) (link_local_address s)
  (address_state s) (router_address s) (pending_client_offer s) (authority s) (next_claim_nonce s)
  (dlp s) (peer_link_local s) (credit_request_pending s) v (listeners s) (tunnels s) (accepted s)
  (next_tunnel s) (next_reset s) (echo_replies s) (gctl_inbox s) (last_rx_address_form s).
Definition set_listeners v := mkCore (config s) (primary_address s) (link_local_address s)
  (address_state s) (router_address s) (pending_client_offer s) (authority s) (next_claim_nonce s)
  (dlp s) (peer_link_local s) (credit_request_pending s) (next_control_transaction_id s) v (tunnels
  s) (accepted s) (next_tunnel s) (next_reset s) (echo_replies s) (gctl_inbox s)
  (last_rx_address_form s).
Definition set_tunnels v := mkCore (config s) (primary_address s) (link_local_address s)
  (address_state s) (router_address s) (pending_client_offer s) (authority s) (next_claim_nonce s)
  (dlp s) (peer_link_local s) (credit_request_pending s) (next_control_transaction_id s) (listeners
  s) v (accepted s) (next_tunnel s) (next_reset s) (echo_replies s) (gctl_inbox s)
  (last_rx_address_form s).
Definition set_accepted v := mkCore (config s) (primary_address s) (link_local_address s)
  (address_state s) (router_address s) (pending_client_offer s) (authority s) (next_claim_nonce s)
  (dlp s) (peer_link_local s) (credit_request_pending s) (next_control_transaction_id s) (listeners
  s) (tunnels s) v (next_tunnel s) (next_reset s) (echo_replies s) (gctl_inbox s)
  (last_rx_address_form s).
Definition set_ids t r := mkCore (config s) (primary_address s) (link_local_address s)
  (address_state s) (router_address s) (pending_client_offer s) (authority s) (next_claim_nonce s)
  (dlp s) (peer_link_local s) (credit_request_pending s) (next_control_transaction_id s) (listeners
  s) (tunnels s) (accepted s) t r (echo_replies s) (gctl_inbox s) (last_rx_address_form s).
Definition set_echo v := mkCore (config s) (primary_address s) (link_local_address s) (address_state
  s) (router_address s) (pending_client_offer s) (authority s) (next_claim_nonce s) (dlp s)
  (peer_link_local s) (credit_request_pending s) (next_control_transaction_id s) (listeners s)
  (tunnels s) (accepted s) (next_tunnel s) (next_reset s) v (gctl_inbox s) (last_rx_address_form s).
Definition set_inbox v := mkCore (config s) (primary_address s) (link_local_address s)
  (address_state s) (router_address s) (pending_client_offer s) (authority s) (next_claim_nonce s)
  (dlp s) (peer_link_local s) (credit_request_pending s) (next_control_transaction_id s) (listeners
  s) (tunnels s) (accepted s) (next_tunnel s) (next_reset s) (echo_replies s) v
  (last_rx_address_form s).
Definition set_form v := mkCore (config s) (primary_address s) (link_local_address s) (address_state
  s) (router_address s) (pending_client_offer s) (authority s) (next_claim_nonce s) (dlp s)
  (peer_link_local s) (credit_request_pending s) (next_control_transaction_id s) (listeners s)
  (tunnels s) (accepted s) (next_tunnel s) (next_reset s) (echo_replies s) (gctl_inbox s) v.
End setters.

Definition ep_build (primary link_local : Z) (state : AddressState) (cfg : EndpointConfig)
    : res EndpointCore :=
  let local_prefix := clear_low16 (default 0 (ec_local_context_prefix cfg)) in
  dlp_cfg ← config_new (ec_rx_buffer_flits cfg) (ec_vc_mode cfg);
  d ← endpoint_new {| dc_gdp := ec_gdp_wire cfg; dc_local_prefix := local_prefix;
                      dc_vc_mode := dc_vc_mode dlp_cfg;
                      dc_rx_buffer_flits := dc_rx_buffer_flits dlp_cfg;
                      dc_control_window_flits := ec_control_window_flits cfg |};
  Ok {| config := cfg; primary_address := primary; link_local_address := link_local;
        address_state := state; router_address := None; pending_client_offer := None;
        authority := None; next_claim_nonce := 1; dlp := d; peer_link_local := None;
        credit_request_pending := false; next_control_transaction_id := 0x80000000;
        listeners := ∅; tunnels := ∅; accepted := []; next_tunnel := 1; next_reset := 0x10000001;
        echo_replies := ∅; gctl_inbox := []; last_rx_address_form := None |}.

Definition ep_new (address : Z) (cfg : EndpointConfig) : res EndpointCore :=
  cfg ← ep_config_validate cfg;
  let suffix := Z.land address LINK_LOCAL_SUFFIX_MASK in
  link_local ← make_link_local (if suffix =? 0 then 1 else suffix);
  ep_build address link_local Static cfg.

Definition ep_unconfigured (link_local_suffix : Z) (cfg : EndpointConfig) : res EndpointCore :=
  cfg ← ep_config_validate cfg;
  link_local ← make_link_local link_local_suffix;
  ep_build link_local link_local LinkLocalOnly cfg.

(** Calls on the parts of the state. *)
Definition on_dlp {A} (m : st DlpEndpoint A) : st EndpointCore A :=
  zoom dlp (λ d s, set_dlp s d) m.
Definition on_authority {A} (m : st AddressAuthority A) : st EndpointCore A := λ s,
  match authority s with
  | Some a => let '(a, r) := m a in (set_authority s (Some a), r)
  | None => (s, Panic)
  end.
(** [self.tunnels.get_mut(&h).ok_or(UnknownTunnel)?], then a call on the
    record's tunnel; [m] is given the record's peer. *)
Definition on_tunnel {A} (h : Z) (m : Z → st GtsTunnel A) : st EndpointCore A := λ s,
  match tunnels s !! h with
  | None => (s, Err UnknownTunnel)
  | Some rec =>
      let '(t, r) := m (peer rec) (tunnel rec) in
      (set_tunnels s (<[h := mkRecord (peer rec) t]> (tunnels s)), r)
  end.

Definition enable_address_authority (cfg : AddressAuthorityConfig) (s : EndpointCore) : EndpointCore :=
  set_authority s (Some (authority_new cfg)).

(** [x.wrapping_add(1).max(1)] *)
Definition next_u (w x : Z) : Z := Z.max (wrapping_add w x 1) 1.

Definition next_control_transaction : st EndpointCore Z :=
  i ← gets next_control_transaction_id;
  modify (λ s, set_control_id s (next_u 32 (next_control_transaction_id s)));;
  mret i.

Definition alloc_tunnel : st EndpointCore (Z * Z) :=
  s ← gets Datatypes.id;
  modify (λ s, set_ids s (next_u 32 (next_tunnel s)) (next_u 32 (next_reset s)));;
  mret (next_tunnel s, next_reset s).

Definition listen (css : ServiceSelector) (cfg : ListenerConfig) (s : EndpointCore) : EndpointCore :=
  set_listeners s (<[css := cfg]> (listeners s)).

Definition accept (s : EndpointCore) : EndpointCore * option Z :=
  match accepted s with
  | [] => (s, None)
  | h :: rest => (set_accepted s rest, Some h)
  end.

Definition tunnel_state (h : Z) (s : EndpointCore) : res TunnelState :=
  rec ← ok_or (tunnels s !! h) UnknownTunnel; Ok (tstate (tunnel rec)).
Definition get_stream (h sid : Z) (s : EndpointCore) : res GtsStream :=
  rec ← ok_or (tunnels s !! h) UnknownTunnel; ok_or (streams (tunnel rec) !! sid) UnknownStream.
Definition ep_stream_state (h sid : Z) (s : EndpointCore) : res StreamState :=
  x ← get_stream h sid s; Ok (state x).
Definition ep_stream_peer_credit (h sid : Z) (s : EndpointCore) : res (option Z) :=
  x ← get_stream h sid s; Ok (stream_peer_credit x).

Definition local_gts_credit (s : EndpointCore) (p : StreamProfile) (local_is_opener : bool) : Z :=
  if sp_unreliable p then 0
  else
    let receives := if local_is_opener then peer_may_send (sp_direction p)
                    else opener_may_send (sp_direction p) in
    if receives then ec_gts_receive_slots (config s) else 0.

Definition make_gdp_header (s : EndpointCore) (packet_type : GdpType) (class : SizeClass)
    (source destination : Z) : res GdpHeader :=
  let global := Ok (header_global packet_type class 64 source destination) in
  if ec_prefer_local_gdp (config s) && negb (destination =? BOOTSTRAP_ADDRESS) then
    match ec_local_context_prefix (config s) with
    | Some prefix =>
        let prefix := clear_low16 prefix in
        if (clear_low16 source =? prefix) && (clear_low16 destination =? prefix)
        then header_local packet_type class 15 prefix (as_u16 source) (as_u16 destination)
        else global
    | None => global
    end
  else global.

Definition send_gctl_from (source remote : Z) (msg : GctlMessage) (class : option SizeClass)
    : st EndpointCore unit :=
  class ← lift (match class with Some c => Ok c | None => recommended_size_class msg end);
  payload ← lift (encode_exact msg (sc_bytes class));
  s ← gets Datatypes.id;
  h ← lift (make_gdp_header s GdpWire.Gctl class source remote);
  p ← lift (packet_new h payload);
  on_dlp (queue_control_packet p);;
  mret tt.

Definition send_gctl (remote : Z) (msg : GctlMessage) (class : SizeClass) : st EndpointCore unit :=
  source ← gets primary_address;
  send_gctl_from source remote msg (Some class).

Definition send_gts (remote : Z) (packet : GtsPacket) (profile : option StreamProfile)
    : st EndpointCore unit :=
  class ← lift (choose_size_class packet profile);
  s ← gets Datatypes.id;
  let source := primary_address s in
  payload ← lift (encode_packet packet (mkContext 0 class source remote) profile);
  h ← lift (make_gdp_header s GdpWire.Gts class source remote);
  p ← lift (packet_new h payload);
  on_dlp (queue_data_packet p);;
  mret tt.

(** ** Link receive credit *)

Definition advertise_link_credit (force : bool) : st EndpointCore unit :=
  s ← gets Datatypes.id;
  match peer_link_local s with
  | None => mret tt
  | Some p =>
      let grant := grantable_data_credit (dlp s) in
      if grant =? 0 then mret tt
      else if negb force && (grant <? ec_credit_update_threshold (config s)) then mret tt
      else
        tx ← next_control_transaction;
        send_gctl_from (link_local_address s) p (Gctl.credit tx grant) None;;
        on_dlp (note_data_credit_granted grant)
  end.

Definition on_link_attached (peer_link_local : Z) : st EndpointCore unit :=
  modify (λ s, set_peer s (Some peer_link_local));;
  advertise_link_credit true.

(** [n.min(u32::MAX as usize) as u32] *)
Definition clamp_u32 (n : Z) : Z := as_u32 (Z.min n 0xffffffff).

Definition maybe_request_link_credit : st EndpointCore unit :=
  s ← gets Datatypes.id;
  let queued := queued_data_flits (dlp s) in
  if (queued =? 0) || negb (data_tx_credit (dlp s) =? 0) || credit_request_pending s then mret tt
  else
    match peer_link_local s with
    | None => mret tt
    | Some p =>
        tx ← next_control_transaction;
        send_gctl_from (link_local_address s) p
          (credit_request tx (Z.max (clamp_u32 queued) 1)) None;;
        modify (λ s, set_request_pending s true)
    end.

(** ** Discovery and address assignment *)

Definition solicit_router (transaction_id : Z) : st EndpointCore unit :=
  s ← gets Datatypes.id;
  guard_st (bool_decide (address_state s = Static)) InvalidState;;
  modify (λ s, set_state s (Soliciting transaction_id));;
  send_gctl_from (link_local_address s) BOOTSTRAP_ADDRESS
    (solicit transaction_id ServiceType_ROUTER Link) None.

(** the block that borrows [self.authority] in [handle_router_solicit] *)
Definition make_offer (src provider transaction_id : Z)
    : st AddressAuthority (AdvertiseBody * AddressOfferBody) :=
  candidate ← allocate_candidate provider;
  a ← gets Datatypes.id;
  modify (λ a, mkAuthority (au_config a) (next_host a)
                 (<[transaction_id := mkPendingAuth src candidate]> (au_pending a)) (leases a));;
  let c := au_config a in
  mret (mkAdvertise ServiceType_ROUTER (aa_preference c) provider (aa_lifetime c) (aa_capabilities c),
        mkAddressOffer provider (aa_prefix c) (aa_prefix_len c) candidate (aa_lifetime c)).

Definition handle_router_solicit (src : Z) (msg : GctlMessage) : st EndpointCore bool :=
  body ← lift (parse_solicit msg);
  if negb (so_service_type body =? ServiceType_ROUTER) then mret false
  else
    s ← gets Datatypes.id;
    match authority s with
    | None => mret false
    | Some _ =>
        '(adv, offer) ← on_authority (make_offer src (primary_address s) (gm_transaction_id msg));
        send_gctl_from (link_local_address s) src (advertise (gm_transaction_id msg) adv) None;;
        m ← lift (address_offer (gm_transaction_id msg) offer);
        send_gctl_from (link_local_address s) src m None;;
        mret true
    end.

Definition handle_address_offer (src : Z) (msg : GctlMessage) : st EndpointCore unit :=
  offer ← lift (parse_address_offer msg);
  s ← gets Datatypes.id;
  let tid := gm_transaction_id msg in
  guard_st (negb (bool_decide (address_state s = Soliciting tid))) InvalidState;;
  m ← lift (address_matches_prefix (of_candidate offer) (of_prefix offer) (of_prefix_len offer));
  guard_st (negb m) InvalidField;;
  modify (λ s, set_router s (Some (of_router offer)));;
  modify (λ s, set_offer s (Some (mkClientOffer tid src offer)));;
  modify (λ s, set_state s (Offered tid (of_router offer) (of_candidate offer)));;
  let nonce := next_claim_nonce s in
  modify (λ s, set_nonce s (next_u 64 (next_claim_nonce s)));;
  send_gctl_from (link_local_address s) src
    (address_claim tid (mkAddressClaim (of_candidate offer) nonce)) None.

(** [authority.pending.remove(&tid)] and [authority.leases.insert(candidate, src)] *)
Definition settle_claim (tid src : Z) : st AddressAuthority AddressAckBody :=
  a ← gets Datatypes.id;
  p ← lift (ok_or (au_pending a !! tid) InvalidState);
  modify (λ a, mkAuthority (au_config a) (next_host a) (delete tid (au_pending a))
                 (<[po_candidate p := src]> (leases a)));;
  mret (mkAddressAck (po_candidate p) (aa_lifetime (au_config a))).

Definition claim_valid (a : AddressAuthority) (tid src candidate : Z) : bool :=
  match au_pending a !! tid with
  | Some p => (po_client p =? src) && (po_candidate p =? candidate)
  | None => false
  end.

Definition handle_address_claim (src : Z) (msg : GctlMessage) : st EndpointCore bool :=
  claim ← lift (parse_address_claim msg);
  s ← gets Datatypes.id;
  let tid := gm_transaction_id msg in
  match authority s with
  | None => mret false
  | Some a =>
      if claim_valid a tid src (cl_candidate claim) then
        ack ← on_authority (settle_claim tid src);
        send_gctl_from (link_local_address s) src (address_ack tid ack) None;;
        mret true
      else
        send_gctl_from (link_local_address s) src
          (address_nak tid (mkAddressNak (cl_candidate claim) 1 1)) None;;
        mret true
  end.

Definition handle_address_ack (msg : GctlMessage) : st EndpointCore unit :=
  ack ← lift (parse_address_ack msg);
  s ← gets Datatypes.id;
  p ← lift (ok_or (pending_client_offer s) InvalidState);
  let offer := pc_offer p in
  guard_st (negb (pc_transaction_id p =? gm_transaction_id msg)
            || negb (of_candidate offer =? ak_candidate ack)) InvalidField;;
  modify (λ s, set_primary s (ak_candidate ack));;
  modify (λ s, set_router s (Some (of_router offer)));;
  modify (λ s, set_state s (Assigned (ak_candidate ack) (of_router offer) (ak_lifetime ack)));;
  (if of_prefix_len offer =? 48 then
     let prefix := clear_low16 (of_prefix offer) in
     modify (λ s, let c := config s in set_config s
               (mkEpConfig (ec_rx_buffer_flits c) (ec_vc_mode c) (ec_gts_receive_slots c) (Some prefix)
                  (ec_prefer_local_gdp c) (ec_credit_update_threshold c) (ec_control_window_flits c)
                  (ec_gdp_wire c)));;
     on_dlp (modify (set_local_prefix prefix))
   else mret tt);;
  modify (λ s, set_offer s None).

Definition handle_address_nak (msg : GctlMessage) : st EndpointCore unit :=
  nak ← lift (parse_address_nak msg);
  modify (λ s, set_state s (Rejected (nk_reason nak) (nk_retry_delay nak)));;
  modify (λ s, set_offer s None).

(** ** Tunnel and stream operations of the application *)

Definition ep_connect (remote : Z) (css : ServiceSelector) (p : StreamProfile) : st EndpointCore Z :=
  lift (sp_validate p);;
  '(local, reset) ← alloc_tunnel;
  s ← gets Datatypes.id;
  let credit := local_gts_credit s p true in
  t ← lift (tunnel_initiator local reset css p credit);
  modify (λ s, set_tunnels s (<[local := mkRecord remote t]> (tunnels s)));;
  send_gts remote (Connect local reset p credit css) None;;
  mret local.

Definition ep_open_stream (h : Z) (p : StreamProfile) : st EndpointCore Z :=
  lift (sp_validate p);;
  s ← gets Datatypes.id;
  let configured_credit := ec_gts_receive_slots (config s) in
  '(pr, sid, credit, remote) ← on_tunnel h (λ pr,
    sid ← alloc_stream_id;
    let receives := if sp_unreliable p then false else peer_may_send (sp_direction p) in
    let credit := if receives then configured_credit else 0 in
    add_stream sid p true credit 0;;
    on_stream sid (modify mark_opening);;
    t ← gets Datatypes.id;
    remote ← lift (remote_id t);
    mret (pr, sid, credit, remote));
  send_gts pr (StreamOpen remote sid p credit) None;;
  mret sid.

Definition send_inner (h sid : Z) (data : list Z) (end_ : bool) (now : Z) : st EndpointCore unit :=
  '(pr, p, packet) ← on_tunnel h (λ pr,
    t ← gets Datatypes.id;
    guard_st (negb (bool_decide (tstate t = Established))) InvalidState;;
    remote ← lift (remote_id t);
    '(p, packet) ← on_stream sid (
      x ← gets Datatypes.id;
      packet ← send_packet remote data end_ now;
      mret (profile x, packet));
    mret (pr, p, packet));
  send_gts pr packet (Some p).

Definition ep_send (h sid : Z) (data : list Z) (now : Z) : st EndpointCore unit :=
  send_inner h sid data false now.
Definition ep_send_end (h sid : Z) (data : list Z) (now : Z) : st EndpointCore unit :=
  send_inner h sid data true now.

Definition ep_recv (h sid : Z) : st EndpointCore (option (list Z)) :=
  '(pr, p, message, ack) ← on_tunnel h (λ pr,
    t ← gets Datatypes.id;
    remote ← lift (remote_id t);
    on_stream sid (
      x ← gets Datatypes.id;
      message ← recv;
      x' ← gets Datatypes.id;
      let ack := match message with Some _ => receive_credit_ack remote x' | None => None end in
      mret (pr, profile x, message, ack)));
  match ack with
  | Some ack => send_gts pr ack (Some p)
  | None => mret tt
  end;;
  mret message.

Definition ep_reset_stream (h sid reason : Z) : st EndpointCore unit :=
  '(pr, remote) ← on_tunnel h (λ pr,
    on_stream sid (modify stream_reset);;
    t ← gets Datatypes.id;
    remote ← lift (remote_id t);
    mret (pr, remote));
  send_gts pr (StreamReset remote sid reason false) None.

Definition ep_close_stream (h sid : Z) : st EndpointCore unit :=
  '(pr, remote) ← on_tunnel h (λ pr,
    on_stream sid (
      x ← gets Datatypes.id;
      guard_st (negb (bool_decide (state x = Open) || bool_decide (state x = Closing))) InvalidState;;
      modify (λ x, with_state x Closing));;
    t ← gets Datatypes.id;
    remote ← lift (remote_id t);
    mret (pr, remote));
  send_gts pr (StreamClose remote sid 0 false) None.

(** [streams.values().any(|s| !matches!(s.state, Closed | Reset))] *)
Definition any_live (t : GtsTunnel) : bool :=
  bool_decide (map_Exists (λ _ s, finished s = false) (streams t)).

Definition with_tstate (t : GtsTunnel) (v : TunnelState) : GtsTunnel :=
  mkTunnel (role t) v (local_receive_id t) (remote_receive_id t) (local_reset_id t)
    (remote_reset_id t) (GtsStream.css t) (streams t) (next_stream_id t).

Definition ep_close_tunnel (h : Z) : st EndpointCore unit :=
  '(pr, remote) ← on_tunnel h (λ pr,
    t ← gets Datatypes.id;
    guard_st (any_live t) InvalidState;;
    modify (λ t, with_tstate t TunnelClosing);;
    remote ← lift (remote_id t);
    mret (pr, remote));
  send_gts pr (TunnelClose remote false) None.

Definition ep_reset_tunnel (h reason : Z) : st EndpointCore unit :=
  '(pr, remote, reset) ← on_tunnel h (λ pr,
    t ← gets Datatypes.id;
    remote ← lift (remote_id t);
    reset ← lift (ok_or (remote_reset_id t) InvalidState);
    modify tunnel_reset;;
    mret (pr, remote, reset));
  send_gts pr (Reset remote reset reason) None.

Definition send_echo (remote transaction_id : Z) (body : list Z) (class : SizeClass)
    : st EndpointCore unit :=
  send_gctl remote (gctl_new EchoRequest transaction_id body) class.

Definition take_echo_reply (transaction_id : Z) (s : EndpointCore) : EndpointCore * option (list Z) :=
  (set_echo s (delete transaction_id (echo_replies s)), echo_replies s !! transaction_id).

Definition take_gctl (s : EndpointCore) : EndpointCore * option (Z * GctlMessage) :=
  match gctl_inbox s with
  | [] => (s, None)
  | x :: rest => (set_inbox s rest, Some x)
  end.

(** ** Received packets *)

Definition accepts_destination (s : EndpointCore) (destination : Z) : bool :=
  (destination =? primary_address s) || (destination =? link_local_address s)
  || (destination =? BOOTSTRAP_ADDRESS).

Definition push_inbox (src : Z) (msg : GctlMessage) : st EndpointCore unit :=
  modify (λ s, set_inbox s (gctl_inbox s ++ [(src, msg)])).

Definition handle_credit_request (src : Z) (msg : GctlMessage) : st EndpointCore unit :=
  requested ← lift (parse_credit_request msg);
  s ← gets Datatypes.id;
  let available := grantable_data_credit (dlp s) in
  let grant := if requested =? 0 then available else Z.min available requested in
  if 0 <? grant then
    let p := default src (peer_link_local s) in
    send_gctl_from (link_local_address s) p (Gctl.credit (gm_transaction_id msg) grant) None;;
    on_dlp (note_data_credit_granted grant)
  else mret tt.

Definition handle_credit (msg : GctlMessage) : st EndpointCore unit :=
  granted ← lift (parse_credit msg);
  on_dlp (modify (grant_data_tx_credit granted));;
  modify (λ s, set_request_pending s false).

Definition handle_advertise (src : Z) (msg : GctlMessage) : st EndpointCore unit :=
  a ← lift (parse_advertise msg);
  s ← gets Datatypes.id;
  (if (av_service_type a =? ServiceType_ROUTER)
      && bool_decide (address_state s = Soliciting (gm_transaction_id msg))
   then modify (λ s, set_router s (Some (av_provider a))) else mret tt);;
  push_inbox src msg.

Definition handle_gctl (src : Z) (packet : GdpPacket) : st EndpointCore unit :=
  msg ← lift (gctl_decode (pkt_payload packet));
  match gm_type msg with
  | CreditRequest => handle_credit_request src msg
  | Gctl.Credit => handle_credit msg
  | EchoRequest =>
      reply ← lift (echo_reply msg);
      s ← gets Datatypes.id;
      send_gctl_from (primary_address s) src reply (Some (hdr_size_class (pkt_header packet)))
  | EchoReply => modify (λ s, set_echo s (<[gm_transaction_id msg := gm_body msg]> (echo_replies s)))
  | Solicit =>
      b ← handle_router_solicit src msg;
      if (b : bool) then mret tt else push_inbox src msg
  | Advertise => handle_advertise src msg
  | AddressOffer => handle_address_offer src msg
  | AddressClaim =>
      b ← handle_address_claim src msg;
      if (b : bool) then mret tt else push_inbox src msg
  | AddressAck => handle_address_ack msg
  | AddressNak => handle_address_nak msg
  | _ => push_inbox src msg
  end.

Definition stream_scoped (ty : GtsType) : bool :=
  match ty with
  | TData | TDataEnd | TDatagram | TAck | TStreamClose | TStreamCloseAck | TStreamReset
  | TStreamResetAck => true
  | _ => false
  end.

Definition gts_profile_for (s : EndpointCore) (payload : list Z) : res (option StreamProfile) :=
  fail_if (len payload =? 0) InvalidLength;;
  b0 ← get_index payload 0;
  ty ← gts_type_from_wire (Z.land b0 0xf);
  if negb (stream_scoped ty) then Ok None
  else
    fail_if (len payload <? 6) InvalidLength;;
    w ← get_slice payload 1 5;
    local ← from_be_bytes 4 w;
    sid ← get_index payload 5;
    x ← get_stream local sid s;
    Ok (Some (profile x)).

Definition remote_stream_id_valid (r : TunnelRole) (sid : Z) : bool :=
  if sid =? 0 then false
  else match r with Initiator => sid mod 2 =? 1 | Responder => sid mod 2 =? 0 end.

Definition handle_connect (src local_tunnel reset_id : Z) (p : StreamProfile) (peer_credit : Z)
    (css : ServiceSelector) : st EndpointCore unit :=
  s ← gets Datatypes.id;
  listener ← lift (ok_or (listeners s !! css) UnknownService);
  '(local, reset) ← alloc_tunnel;
  let local_credit := if sp_unreliable p then 0
                      else if opener_may_send (sp_direction p) then receive_slots listener else 0 in
  t ← lift (tunnel_responder local reset local_tunnel reset_id css p local_credit peer_credit);
  modify (λ s, set_tunnels s (<[local := mkRecord src t]> (tunnels s)));;
  modify (λ s, set_accepted s (accepted s ++ [local]));;
  send_gts src (ConnectAck local_tunnel local reset 0 local_credit) None.

Definition handle_connect_ack (tid remote reset status credit : Z) : st EndpointCore unit :=
  guard_st (negb (status =? 0)) UnknownService;;
  on_tunnel tid (λ _,
    t ← gets Datatypes.id;
    x ← lift (ok_or (streams t !! 0) UnknownStream);
    guard_st (sp_unreliable (profile x) && negb (credit =? 0)) ProfileViolation;;
    establish_initiator remote reset credit).

Definition handle_stream_open (tid sid : Z) (p : StreamProfile) (peer_credit : Z)
    : st EndpointCore unit :=
  s ← gets Datatypes.id;
  let configured_credit := ec_gts_receive_slots (config s) in
  '(pr, remote, credit) ← on_tunnel tid (λ pr,
    t ← gets Datatypes.id;
    guard_st (negb (remote_stream_id_valid (role t) sid)) ProfileViolation;;
    guard_st (sp_unreliable p && negb (peer_credit =? 0)) ProfileViolation;;
    let credit := if sp_unreliable p then 0
                  else if opener_may_send (sp_direction p) then configured_credit else 0 in
    add_stream sid p false credit peer_credit;;
    t ← gets Datatypes.id;
    remote ← lift (remote_id t);
    mret (pr, remote, credit));
  send_gts pr (StreamAck remote sid 0 credit) None.

Definition handle_stream_ack (tid sid status credit : Z) : st EndpointCore unit :=
  guard_st (negb (status =? 0)) ProfileViolation;;
  on_tunnel tid (λ _, on_stream sid (
    x ← gets Datatypes.id;
    guard_st (sp_unreliable (profile x) && negb (credit =? 0)) ProfileViolation;;
    apply_open_ack credit)).

(** [Data] *)
Definition handle_data (size_class : SizeClass) (tid sid : Z) (packet : GtsPacket)
    : st EndpointCore unit :=
  '(pr, remote, ack, p) ← on_tunnel tid (λ pr,
    '(p, ack) ← on_stream sid (
      x ← gets Datatypes.id;
      lift (validate_incoming x size_class packet);;
      ack ← receive_packet packet;
      mret (profile x, ack));
    t ← gets Datatypes.id;
    remote ← lift (remote_id t);
    mret (pr, remote, ack, p));
  match ack with
  | Some (Ack _ sid base bitmap credit) => send_gts pr (Ack remote sid base bitmap credit) (Some p)
  | _ => mret tt
  end.

(** [StreamClose] with [ack: false] *)
Definition handle_stream_close (size_class : SizeClass) (tid sid final_sequence : Z)
    : st EndpointCore unit :=
  '(pr, remote) ← on_tunnel tid (λ pr,
    on_stream sid (
      x ← gets Datatypes.id;
      lift (validate_incoming x size_class (StreamClose tid sid final_sequence false));;
      modify (λ x, with_state x Closed));;
    t ← gets Datatypes.id;
    remote ← lift (remote_id t);
    mret (pr, remote));
  send_gts pr (StreamClose remote sid final_sequence true) None.

Definition handle_tunnel_close (tid : Z) : st EndpointCore unit :=
  '(pr, remote) ← on_tunnel tid (λ pr,
    t ← gets Datatypes.id;
    guard_st (any_live t) InvalidState;;
    modify (λ t, with_tstate t TunnelClosed);;
    remote ← lift (remote_id t);
    mret (pr, remote));
  send_gts pr (TunnelClose remote true) None.

Definition handle_gts_packet (src : Z) (size_class : SizeClass) (g : GtsPacket) : st EndpointCore unit :=
  match g with
  | Connect tid reset p credit css => handle_connect src tid reset p credit css
  | ConnectAck tid remote reset status credit => handle_connect_ack tid remote reset status credit
  | StreamOpen tid sid p credit => handle_stream_open tid sid p credit
  | StreamAck tid sid status credit => handle_stream_ack tid sid status credit
  | Data tid sid _ _ _ => handle_data size_class tid sid g
  | Datagram tid sid _ _ => on_tunnel tid (λ _, on_stream sid (
      x ← gets Datatypes.id;
      lift (validate_incoming x size_class g);;
      receive_packet g;;
      mret tt))
  | Ack tid sid base bitmap credit => on_tunnel tid (λ _, on_stream sid (
      x ← gets Datatypes.id;
      lift (validate_incoming x size_class g);;
      on_ack base bitmap credit))
  | StreamClose tid sid final_sequence false => handle_stream_close size_class tid sid final_sequence
  | StreamClose tid sid _ true => on_tunnel tid (λ _, on_stream sid (
      x ← gets Datatypes.id;
      lift (validate_incoming x size_class g);;
      modify (λ x, with_state x Closed)))
  | StreamReset tid sid reason false =>
      '(pr, remote) ← on_tunnel tid (λ pr,
        on_stream sid (modify stream_reset);;
        t ← gets Datatypes.id;
        remote ← lift (remote_id t);
        mret (pr, remote));
      send_gts pr (StreamReset remote sid reason true) None
  | StreamReset tid sid _ true => on_tunnel tid (λ _, on_stream sid (modify stream_reset))
  | TunnelClose tid false => handle_tunnel_close tid
  | TunnelClose tid true => on_tunnel tid (λ _, modify (λ t, with_tstate t TunnelClosed))
  | Reset tid reset_id _ => on_tunnel tid (λ _,
      t ← gets Datatypes.id;
      guard_st (negb (reset_id =? local_reset_id t)) InvalidField;;
      modify tunnel_reset)
  end.

Definition handle_gts (src : Z) (packet : GdpPacket) : st EndpointCore unit :=
  s ← gets Datatypes.id;
  let h := pkt_header packet in
  p ← lift (gts_profile_for s (pkt_payload packet));
  let ctx := mkContext (hdr_version h) (hdr_size_class h) src (primary_address s) in
  g ← lift (decode_packet (pkt_payload packet) ctx p);
  handle_gts_packet src (hdr_size_class h) g.

Definition handle_gdp (packet : GdpPacket) (now : Z) : st EndpointCore unit :=
  let h := pkt_header packet in
  s ← gets Datatypes.id;
  guard_st (negb (accepts_destination s (hdr_destination h))) InvalidField;;
  modify (λ s, set_form s (Some (addr_form (hdr_addresses h))));;
  let src := hdr_source h in
  match hdr_packet_type h with
  | GdpWire.Gctl => handle_gctl src packet
  | GdpWire.Gts =>
      guard_st (hdr_destination h =? BOOTSTRAP_ADDRESS) InvalidField;;
      handle_gts src packet
  | Reserved _ => lift (Err Unsupported)
  end.

Definition poll_tx_flit : st EndpointCore (option Flit) :=
  maybe_request_link_credit;; on_dlp poll_tx.
Definition ep_poll_tx_frame : st EndpointCore (option GnetFrame) :=
  maybe_request_link_credit;; on_dlp poll_tx_frame.

Definition receive_flit (flit : Flit) (now : Z) : st EndpointCore bool :=
  p ← on_dlp (receive flit);
  match p with
  | Some packet => handle_gdp packet now;; advertise_link_credit false;; mret true
  | None => mret false
  end.

Definition ep_receive_frame (frame : GnetFrame) (now : Z) : st EndpointCore bool :=
  packet ← on_dlp (receive_frame frame);
  handle_gdp packet now;;
  advertise_link_credit false;;
  mret true.

(** ** Retransmission *)

Definition tick_stream (remote now : Z) (acc : GtsTunnel * list (StreamProfile * GtsPacket)) (sid : Z)
    : GtsTunnel * list (StreamProfile * GtsPacket) :=
  let '(t, out) := acc in
  match streams t !! sid with
  | Some x =>
      let '(x', pkts) := retransmit_due remote now x in
      (with_streams t (<[sid := x']> (streams t)) (next_stream_id t), out ++ ((λ p, (profile x, p)) <$> pkts))
  | None => (t, out)
  end.

Definition tick_streams (remote now : Z) : st GtsTunnel (list (StreamProfile * GtsPacket)) := λ t,
  let '(t, out) := fold_left (tick_stream remote now) (btree_keys (streams t)) (t, []) in (t, Ok out).

Definition tick_tunnel (now : Z) (pr : Z) : st GtsTunnel (list (Z * StreamProfile * GtsPacket)) :=
  t ← gets Datatypes.id;
  if negb (bool_decide (tstate t = Established)) then mret []
  else
    remote ← lift (remote_id t);
    out ← tick_streams remote now;
    mret ((λ x, (pr, x.1, x.2)) <$> out).

Fixpoint tick_tunnels (now : Z) (hs : list Z) : st EndpointCore (list (Z * StreamProfile * GtsPacket)) :=
  match hs with
  | [] => mret []
  | h :: hs =>
      out ← on_tunnel h (tick_tunnel now);
      rest ← tick_tunnels now hs;
      mret (out ++ rest)
  end.

Fixpoint send_pending (l : list (Z * StreamProfile * GtsPacket)) : st EndpointCore unit :=
  match l with
  | [] => mret tt
  | (pr, p, pkt) :: l => send_gts pr pkt (Some p);; send_pending l
  end.

Definition ep_tick (now : Z) : st EndpointCore Z :=
  s ← gets Datatypes.id;
  out ← tick_tunnels now (btree_keys (tunnels s));
  send_pending out;;
  mret (len out).

(** ** The managed link (endpoint/link_api.rs) *)

Definition link_attached (peer_link_local peer_control_window_flits : Z) : st EndpointCore unit :=
  guard_st (peer_control_window_flits =? 0) InvalidField;;
  on_dlp (modify (set_link_up true));;
  on_dlp (modify (grant_control_tx_credit peer_control_window_flits));;
  on_link_attached peer_link_local.

Definition bind_managed_link_peer (peer_link_local peer_control_window_flits : Z) : st EndpointCore unit :=
  guard_st (peer_control_window_flits =? 0) InvalidField;;
  modify (λ s, set_peer s (Some peer_link_local));;
  modify (λ s, set_request_pending s false);;
  on_dlp (modify (grant_control_tx_credit peer_control_window_flits));;
  advertise_link_credit true.

(** A call whose error the caller handles. *)
Definition attempt {S A B} (m : st S A) (k : res A → st S B) : st S B := λ s,
  match m s with
  | (s, Panic) => (s, Panic)
  | (s, r) => k r s
  end.

Definition retry_managed_link_credit_request : st EndpointCore unit :=
  modify (λ s, set_request_pending s false);;
  s ← gets Datatypes.id;
  let queued := queued_data_flits (dlp s) in
  let credit := data_tx_credit (dlp s) in
  if (queued =? 0) || (queued <=? credit) then mret tt
  else
    match peer_link_local s with
    | None => mret tt
    | Some p =>
        let requested := clamp_u32 (saturating_sub queued credit) in
        tx ← next_control_transaction;
        attempt (send_gctl_from (link_local_address s) p (credit_request tx (Z.max requested 1)) None)
          (λ r, if is_ok r then modify (λ s, set_request_pending s true) else mret tt)
    end.

Definition validate_managed_credit_grant (s : EndpointCore) (packet : GdpPacket) (peer_limit : Z)
    : res unit :=
  if negb (bool_decide (hdr_packet_type (pkt_header packet) = GdpWire.Gctl)) then Ok tt
  else
    msg ← gctl_decode (pkt_payload packet);
    if negb (bool_decide (gm_type msg = Gctl.Credit)) then Ok tt
    else
      grant ← parse_credit msg;
      fail_if (grant =? 0) InvalidField;;
      let remaining := saturating_sub peer_limit (data_tx_credit (dlp s)) in
      fail_if (remaining <? grant) CreditViolation.

Definition handle_managed (packet : GdpPacket) (now peer_credit_limit : Z) : st EndpointCore bool :=
  s ← gets Datatypes.id;
  lift (validate_managed_credit_grant s packet peer_credit_limit);;
  handle_gdp packet now;;
  advertise_link_credit false;;
  mret true.

Definition receive_managed_flit (flit : Flit) (now peer_credit_limit : Z) : st EndpointCore bool :=
  p ← on_dlp (receive flit);
  match p with
  | Some packet => handle_managed packet now peer_credit_limit
  | None => mret false
  end.

Definition receive_managed_frame (frame : GnetFrame) (now peer_credit_limit : Z) : st EndpointCore bool :=
  packet ← on_dlp (receive_frame frame);
  handle_managed packet now peer_credit_limit.

Definition link_detached (s : EndpointCore) : EndpointCore :=
  set_dlp (set_request_pending (set_peer s None) false) (set_link_up false (dlp s)).

(** ** [DirectLink]: two endpoints and the loop between them *)

Record DirectLink : Set := mkDirect { attached : bool; end_a : EndpointCore; end_b : EndpointCore }.

Definition on_a {A} (m : st EndpointCore A) : st DirectLink A :=
  zoom end_a (λ e s, mkDirect (attached s) e (end_b s)) m.
Definition on_b {A} (m : st EndpointCore A) : st DirectLink A :=
  zoom end_b (λ e s, mkDirect (attached s) (end_a s) e) m.

Definition direct_attach : st DirectLink unit :=
  s ← gets Datatypes.id;
  if attached s then mret tt
  else
    on_a (on_dlp (modify (grant_control_tx_credit (control_window_flits (dlp (end_b s))))));;
    on_b (on_dlp (modify (grant_control_tx_credit (control_window_flits (dlp (end_a s))))));;
    on_a (on_link_attached (link_local_address (end_b s)));;
    on_b (on_link_attached (link_local_address (end_a s)));;
    modify (λ s, mkDirect true (end_a s) (end_b s)).

(** one direction of the loop body: [from] is polled, [to] receives *)
Definition pump_side (from to : ∀ A, st EndpointCore A → st DirectLink A) (now : Z) : st DirectLink bool :=
  attempt (from _ poll_tx_flit) (λ r,
    match r with
    | Ok (Some f) =>
        to _ (receive_flit f now);;
        (if is_control (fl_vcid f) then from _ (on_dlp (modify (grant_control_tx_credit 1))) else mret tt);;
        mret true
    | Ok None | Err NoCredit => mret false
    | Err e => lift (Err e)
    | Panic => lift Panic
    end).

Fixpoint pump_loop (fuel : nat) (now max_flits moved : Z) : st DirectLink Z :=
  match fuel with
  | O => lift Panic
  | S fuel =>
      guard_st (max_flits <=? moved) BufferFull;;
      p ← pump_side (@on_a) (@on_b) now;
      q ← pump_side (@on_b) (@on_a) now;
      let moved := moved + Z.b2z p + Z.b2z q in
      if p || q then pump_loop fuel now max_flits moved else mret moved
  end.

Definition pump (now max_flits : Z) : st DirectLink Z :=
  direct_attach;;
  pump_loop (S (Z.to_nat max_flits)) now max_flits 0.
