(* ===== verification/EndpointAuth.v ===== *)
(** * The address authority (src/src/endpoint/core.rs)

    What the candidate search of [AddressAuthority] finds, and the invariant
    that keeps every address promised or leased to one client only. *)
From stdpp Require Import prelude gmap.
From Stdlib Require Import ZArith Lia.
From S2P Require Import Prelude BTree Css GdpWire Gctl GtsWire GtsCodec Reliable GtsStream Dlp EndpointCore.
Local Open Scope Z_scope.

(** ** The pool *)

Definition host_mask (c : AddressAuthorityConfig) : Z := 2 ^ (64 - aa_prefix_len c) - 1.

Definition pool_address (c : AddressAuthorityConfig) (host : Z) : Z := Z.lor (aa_prefix c) host.

Definition in_pool (c : AddressAuthorityConfig) (address : Z) : Prop :=
  ∃ host, 0 < host ≤ host_mask c ∧ address = pool_address c host.

(** A configuration as [AddressAuthorityConfig::new] makes it. *)
Record auth_config_ok (c : AddressAuthorityConfig) : Prop := {
  ac_len : aa_prefix_len c ∈ [16; 32; 48; 56];
  ac_prefix : normalize_prefix (aa_prefix c) (aa_prefix_len c) = Ok (aa_prefix c);
  ac_range : u64 (aa_prefix c) }.

(** Promised to a client, or leased. *)
Definition promised (a : AddressAuthority) (address : Z) : Prop :=
  ∃ tid p, au_pending a !! tid = Some p ∧ po_candidate p = address.

Definition free (a : AddressAuthority) (router address : Z) : Prop :=
  address ≠ router ∧ leases a !! address = None ∧ ¬ promised a address.

Record authority_wf (a : AddressAuthority) : Prop := {
  aw_config : auth_config_ok (au_config a);
  aw_next : 0 < next_host a ≤ host_mask (au_config a);
  aw_pending : ∀ tid p, au_pending a !! tid = Some p → in_pool (au_config a) (po_candidate p);
  aw_leases : ∀ address client, leases a !! address = Some client → in_pool (au_config a) address;
  (** no address is promised in two transactions *)
  aw_unique : ∀ t1 t2 p1 p2, au_pending a !! t1 = Some p1 → au_pending a !! t2 = Some p2 →
    po_candidate p1 = po_candidate p2 → t1 = t2;
  (** no promised address is leased *)
  aw_fresh : ∀ tid p, au_pending a !! tid = Some p → leases a !! po_candidate p = None }.

Lemma host_mask_cases c : auth_config_ok c →
  host_mask c = 2 ^ 48 - 1 ∨ host_mask c = 2 ^ 32 - 1 ∨ host_mask c = 65535 ∨ host_mask c = 255.
Proof.
  intros [Hl _ _]. unfold host_mask. set_unfold in Hl.
  destruct Hl as [-> | [-> | [-> | [-> | []]]]]; vm_compute; tauto.
Qed.

Lemma host_mask_range c : auth_config_ok c → 255 ≤ host_mask c < 2 ^ 48.
Proof. intros [-> | [-> | [-> | ->]]]%host_mask_cases; lia. Qed.

Lemma land_u64 p x : u64 p → u64 (Z.land p x).
Proof.
  intros Hp. assert (H : Z.land p x = Z.land p x mod 2 ^ 64).
  { rewrite <- Z.land_ones by lia. rewrite <- Z.land_assoc, (Z.land_comm x), Z.land_assoc.
    rewrite Z.land_ones by lia. by rewrite (Z.mod_small p) by ulia. }
  rewrite H. pose proof (Z.mod_pos_bound (Z.land p x) (2 ^ 64)). ulia.
Qed.

Lemma auth_config_new_ok prefix n lifetime c :
  u64 prefix → authority_config_new prefix n lifetime = Ok c → auth_config_ok c.
Proof.
  unfold authority_config_new, normalize_prefix, prefix_mask. intros Hp (p & Hn & <-%Ok_inj)%bind_Ok.
  destruct (_ || _) eqn:E; [| done]. rewrite bind_Ok_l in Hn. apply Ok_inj in Hn. subst p.
  split; cbn [aa_prefix aa_prefix_len].
  - set_unfold. lia.
  - unfold normalize_prefix, prefix_mask. rewrite E, bind_Ok_l. f_equal.
    by rewrite <- Z.land_assoc, Z.land_diag.
  - by apply land_u64.
Qed.

(** ** The search *)

(** The [i]-th host the search looks at from [x]. *)
Definition visit (mask x i : Z) : Z := (x - 1 + i) mod mask + 1.

Lemma visit_range mask x i : 0 < mask → 0 < visit mask x i ≤ mask.
Proof. intros. unfold visit. pose proof (Z.mod_pos_bound (x - 1 + i) mask). lia. Qed.

Lemma visit_0 mask x : 0 < x ≤ mask → visit mask x 0 = x.
Proof. intros. unfold visit. rewrite Z.mod_small; lia. Qed.

Lemma visit_step mask x i : 0 < mask → visit mask (visit mask x 1) i = visit mask x (i + 1).
Proof.
  intros. unfold visit. rewrite Z.add_simpl_r, Z.add_mod_idemp_l by lia. f_equal. f_equal. lia.
Qed.

(** The search visits every host of the pool within [mask] steps. *)
Lemma visit_all mask x h : 0 < mask → 0 < h ≤ mask → ∃ i, 0 ≤ i < mask ∧ visit mask x i = h.
Proof.
  intros Hm Hh. exists ((h - x) mod mask). split; [by apply Z.mod_pos_bound |].
  unfold visit. rewrite Z.add_mod_idemp_r by lia. replace (x - 1 + (h - x)) with (h - 1) by lia.
  rewrite Z.mod_small; lia.
Qed.

Lemma candidate_in_use_spec a c :
  candidate_in_use a c = false ↔ leases a !! c = None ∧ ¬ promised a c.
Proof.
  unfold candidate_in_use, promised. rewrite orb_false_iff, !bool_decide_eq_false.
  rewrite <- not_eq_None_Some. split; intros [H1 H2]; (split; [destruct (leases a !! c); naive_solver |]).
  - intros (t & p & Hp & Hc). apply H2. by exists t, p.
  - intros (t & p & Hp & Hc). apply H2. by exists t, p.
Qed.

Lemma land_mask k x : 0 ≤ k → Z.land x (2 ^ k - 1) = x mod 2 ^ k.
Proof. intros. rewrite Z.sub_1_r, <- Z.ones_equiv. by apply Z.land_ones. Qed.

Lemma advance_host_eq a :
  authority_wf a →
  advance_host (host_mask (au_config a)) a =
    (set_next_host a (visit (host_mask (au_config a)) (next_host a) 1), Ok tt).
Proof.
  intros Ha. pose proof (aw_next _ Ha) as Hn. pose proof (host_mask_range _ (aw_config _ Ha)) as Hm.
  unfold advance_host, mbind, st_bind, gets, lift, modify. cbn [Datatypes.id].
  unfold add_or_panic, checked_add. replace (next_host a + 1 <? 2 ^ 64) with true by lia. cbn [expect].
  f_equal. f_equal. set (k := 64 - aa_prefix_len (au_config a)).
  assert (Hk : 0 ≤ k).
  { pose proof (ac_len _ (aw_config _ Ha)) as Hl. set_unfold in Hl. unfold k. lia. }
  change (host_mask (au_config a)) with (2 ^ k - 1) in *. rewrite land_mask by done. unfold visit.
  destruct (decide (next_host a = 2 ^ k - 1)) as [-> | Hne].
  - replace (2 ^ k - 1 + 1) with (2 ^ k) by lia. rewrite Z.mod_same by lia. cbn [Z.eqb].
    replace (2 ^ k - 1 - 1 + 1) with (2 ^ k - 1) by lia. rewrite Z.mod_same by lia. done.
  - rewrite (Z.mod_small (next_host a + 1)) by lia. replace (next_host a + 1 =? 0) with false by lia.
    rewrite Z.mod_small by lia. lia.
Qed.

Lemma set_next_wf a n : authority_wf a → 0 < n ≤ host_mask (au_config a) → authority_wf (set_next_host a n).
Proof. intros [] Hn. by split. Qed.

Lemma allocate_step n router a :
  authority_wf a →
  let mask := host_mask (au_config a) in
  let a' := set_next_host a (visit mask (next_host a) 1) in
  let c := pool_address (au_config a) (next_host a) in
  allocate_loop (S n) mask router a =
    if negb (c =? router) && negb (candidate_in_use a c) then (a', Ok c)
    else allocate_loop n mask router a'.
Proof.
  intros Ha mask a' c. pose proof (aw_next _ Ha) as Hn. cbn [allocate_loop].
  rewrite (st_bind_Ok_l _ _ a a a) by done. cbv zeta.
  rewrite (st_bind_Ok_l _ _ a a' tt) by by apply advance_host_eq.
  assert (Hh : Z.land (next_host a) mask = next_host a).
  { unfold mask, host_mask. rewrite land_mask; [apply Z.mod_small; unfold host_mask in Hn; lia |].
    pose proof (ac_len _ (aw_config _ Ha)) as Hl. set_unfold in Hl. lia. }
  rewrite Hh. replace (next_host a =? 0) with false by lia. fold (pool_address (au_config a) (next_host a)).
  fold c. by destruct (_ && _).
Qed.

Lemma free_spec a router c :
  negb (c =? router) && negb (candidate_in_use a c) = true ↔ free a router c.
Proof.
  unfold free. rewrite andb_true_iff, !negb_true_iff, candidate_in_use_spec, Z.eqb_neq. tauto.
Qed.

Lemma free_set_next a n router c : free (set_next_host a n) router c ↔ free a router c.
Proof. done. Qed.

(** What [allocate_loop] returns: the first free candidate, or the proof that
    all [n] hosts it looked at are taken. *)
Lemma allocate_loop_spec n router a :
  authority_wf a →
  let mask := host_mask (au_config a) in
  let cand i := pool_address (au_config a) (visit mask (next_host a) i) in
  match allocate_loop n mask router a with
  | (a', Ok c) => ∃ i, 0 ≤ i < Z.of_nat n ∧ c = cand i ∧ free a router c ∧
      a' = set_next_host a (visit mask (next_host a) (i + 1)) ∧
      ∀ j, 0 ≤ j < i → ¬ free a router (cand j)
  | (a', Err e) => e = BufferFull ∧ (∃ i, a' = set_next_host a (visit mask (next_host a) i)) ∧
      ∀ j, 0 ≤ j < Z.of_nat n → ¬ free a router (cand j)
  | (_, Panic) => False
  end.
Proof.
  revert a. induction n as [| n IH]; intros a Ha mask cand.
  { split; [done |]. split; [| lia]. exists 0. unfold mask. rewrite visit_0 by apply Ha. by destruct a. }
  pose proof (aw_next _ Ha) as Hn. pose proof (host_mask_range _ (aw_config _ Ha)) as Hm. fold mask in Hn, Hm.
  unfold mask. rewrite allocate_step by done. fold mask.
  assert (H0 : cand 0 = pool_address (au_config a) (next_host a)) by (unfold cand; by rewrite visit_0).
  rewrite <- H0. destruct (negb _ && negb _) eqn:Ef.
  { apply free_spec in Ef. exists 0. split_and!; try done; lia. }
  assert (Hnf : ¬ free a router (cand 0)) by (rewrite <- free_spec; congruence).
  set (a1 := set_next_host a (visit mask (next_host a) 1)).
  assert (Ha1 : authority_wf a1) by (apply set_next_wf; [done |]; apply visit_range; lia).
  assert (Hc : ∀ i, pool_address (au_config a1) (visit mask (next_host a1) i) = cand (i + 1)).
  { intros i. unfold cand. cbn [a1 set_next_host au_config next_host]. by rewrite visit_step by lia. }
  specialize (IH a1 Ha1). cbv zeta in IH. change (host_mask (au_config a1)) with mask in IH.
  assert (Hall : ∀ m, (∀ j, 0 ≤ j < m → ¬ free a1 router (pool_address (au_config a1) (visit mask (next_host a1) j))) →
    ∀ j, 0 ≤ j < m + 1 → ¬ free a router (cand j)).
  { intros m H j Hj. destruct (decide (j = 0)) as [-> |]; [done |].
    specialize (H (j - 1) ltac:(lia)). rewrite Hc in H. by replace (j - 1 + 1) with j in H by lia. }
  destruct (allocate_loop n mask router a1) as [a' [c | e |]]; [| | done].
  - destruct IH as (i & Hi & -> & Hf & -> & H). rewrite Hc in *. exists (i + 1).
    split; [lia |]. split; [done |]. split; [done |]. split; [| by apply Hall].
    cbn [a1 set_next_host next_host]. by rewrite visit_step by lia.
  - destruct IH as (-> & (i & ->) & H). split; [done |]. split.
    + exists (i + 1). cbn [a1 set_next_host next_host]. by rewrite visit_step by lia.
    + intros j Hj. apply (Hall (Z.of_nat n)); [done | lia].
Qed.

(** The whole call: the loop bound is [min(host_mask, 65535)]. *)
Lemma allocate_candidate_eq router a :
  authority_wf a →
  allocate_candidate router a =
    allocate_loop (Z.to_nat (Z.min (host_mask (au_config a)) 65535)) (host_mask (au_config a)) router a.
Proof.
  intros Ha. pose proof (host_mask_range _ (aw_config _ Ha)) as Hm.
  pose proof (ac_len _ (aw_config _ Ha)) as Hl. set_unfold in Hl.
  unfold allocate_candidate. rewrite (st_bind_Ok_l _ _ a a a) by done.
  rewrite (st_bind_Ok_l _ _ a a (64 - aa_prefix_len (au_config a))).
  2: { unfold lift, sub_or_panic, checked_sub. by replace (_ <=? 64) with true by lia. }
  rewrite (st_bind_Ok_l _ _ a a tt).
  2: { unfold lift. by replace (64 <=? _) with false by lia. }
  cbv zeta. change (2 ^ (64 - aa_prefix_len (au_config a)) - 1) with (host_mask (au_config a)).
  by rewrite Z.max_l by lia.
Qed.

Lemma pool_address_matches c host :
  auth_config_ok c → 0 < host ≤ host_mask c →
  address_matches_prefix (pool_address c host) (aa_prefix c) (aa_prefix_len c) = Ok true.
Proof.
  intros Hc Hh. unfold host_mask in Hh.
  assert (Hz : ∀ n, n ∈ [16; 32; 48; 56] → host ≤ 2 ^ (64 - n) - 1 →
    Z.land host (Z.shiftl 0xffffffffffffffff (64 - n) mod 2 ^ 64) = 0).
  { intros n Hn Hb. assert (Hm : Z.shiftl 0xffffffffffffffff (64 - n) mod 2 ^ 64 = 2 ^ 64 - 2 ^ (64 - n)).
    { set_unfold in Hn. destruct Hn as [-> | [-> | [-> | [-> | []]]]]; reflexivity. }
    rewrite Hm. assert (H64 : 0 ≤ 64 - n < 64) by (set_unfold in Hn; lia).
    apply Z.bits_inj'. intros i Hi. rewrite Z.land_spec, Z.bits_0.
    destruct (Z.ltb_spec i (64 - n)).
    - replace (2 ^ 64 - 2 ^ (64 - n)) with (2 ^ (64 - n) * (2 ^ n - 1)).
      2: { rewrite Z.mul_sub_distr_l, <- Z.pow_add_r by lia. do 2 f_equal; lia. }
      rewrite Z.mul_comm, Z.mul_pow2_bits_low by lia. apply andb_false_r.
    - rewrite (Z.bits_above_log2 host); [done | lia |]. destruct (decide (host = 0)) as [-> |]; [cbn; lia |].
      apply Z.log2_lt_pow2; [lia |]. assert (2 ^ (64 - n) ≤ 2 ^ i) by (apply Z.pow_le_mono_r; lia). lia. }
  destruct Hc as [Hl Hp _]. unfold normalize_prefix in Hp. unfold address_matches_prefix.
  unfold prefix_mask in *. destruct (_ || _) eqn:E; [| done]. rewrite !bind_Ok_l in *.
  unfold pool_address. rewrite Z.land_lor_distr_l, Hz, Z.lor_0_r by (done || lia).
  by rewrite Z.eqb_refl.
Qed.

(** ** The operations keep the invariant *)

Lemma authority_new_wf c : auth_config_ok c → authority_wf (authority_new c).
Proof.
  intros Hc. pose proof (host_mask_range c Hc).
  split; cbn; try done; try lia; intros; by rewrite lookup_empty in *.
Qed.

Definition offer_pending (a : AddressAuthority) (tid src c : Z) : AddressAuthority :=
  mkAuthority (au_config a) (next_host a) (<[tid := mkPendingAuth src c]> (au_pending a)) (leases a).

Lemma offer_pending_wf a router tid src c :
  authority_wf a → free a router c → in_pool (au_config a) c → authority_wf (offer_pending a tid src c).
Proof.
  intros [] (_ & Hl & Hp) Hpool.
  assert (Hne : ∀ t p, au_pending a !! t = Some p → po_candidate p ≠ c).
  { intros t p Ht Hc. apply Hp. by exists t, p. }
  split; cbn; try done.
  - intros t p [[<- <-] | [_ Ht]]%lookup_insert_Some; [done | by eapply aw_pending0].
  - intros t1 t2 p1 p2 H1 H2 E.
    apply lookup_insert_Some in H1 as [[<- <-] | [? H1]]; apply lookup_insert_Some in H2 as [[<- <-] | [? H2]];
      cbn in E; [done | | | by eapply aw_unique0]; exfalso; by eapply Hne.
  - intros t p [[<- <-] | [_ Ht]]%lookup_insert_Some; [done | by eapply aw_fresh0].
Qed.

(** What an offer announces. *)
Definition offer_for (c : AddressAuthorityConfig) (provider candidate : Z) : AddressOfferBody :=
  mkAddressOffer provider (aa_prefix c) (aa_prefix_len c) candidate (aa_lifetime c).

Lemma make_offer_spec src provider tid a :
  authority_wf a →
  match make_offer src provider tid a with
  | (a', Ok (_, offer)) => ∃ n c, free a provider c ∧ in_pool (au_config a) c ∧ 0 < n ≤ host_mask (au_config a) ∧
      a' = offer_pending (set_next_host a n) tid src c ∧ offer = offer_for (au_config a) provider c
  | (a', Err e) => e = BufferFull ∧ ∃ n, 0 < n ≤ host_mask (au_config a) ∧ a' = set_next_host a n
  | (_, Panic) => False
  end.
Proof.
  intros Ha. pose proof (host_mask_range _ (aw_config _ Ha)) as Hm.
  unfold make_offer, mbind, st_bind. rewrite allocate_candidate_eq by done.
  pose proof (allocate_loop_spec (Z.to_nat (Z.min (host_mask (au_config a)) 65535)) provider a Ha) as H.
  cbv zeta in H. destruct (allocate_loop _ _ _ _) as [a' [c | e |]]; [| | done]; cbn.
  - destruct H as (i & Hi & -> & Hf & -> & _). do 2 eexists. split; [exact Hf |].
    split; [| split; [| done]]; [eexists; split; [| done] |]; apply visit_range; lia.
  - destruct H as (-> & (i & ->) & _). split; [done |]. eexists. split; [| done]. apply visit_range. lia.
Qed.

Lemma make_offer_wf src provider tid a :
  authority_wf a → authority_wf (make_offer src provider tid a).1 ∧
  res_sat (λ x, offer_ok x.2) (make_offer src provider tid a).2.
Proof.
  intros Ha. pose proof (make_offer_spec src provider tid a Ha) as H.
  destruct (make_offer _ _ _ _) as [a' [[adv offer] | e |]]; [| | done].
  - destruct H as (n & c & Hf & Hp & Hn & -> & ->). split.
    + apply (offer_pending_wf _ provider); [by apply set_next_wf | done | done].
    + cbn. split; cbn; [apply (aw_config _ Ha) |]. destruct Hp as (h & Hh & ->).
      apply pool_address_matches; [apply Ha | done].
  - destruct H as (-> & n & Hn & ->). split; [by apply set_next_wf | done].
Qed.

(** ... when the search succeeds. *)
Lemma make_offer_Ok src provider tid a a1 cand :
  authority_wf a → allocate_candidate provider a = (a1, Ok cand) →
  free a provider cand ∧ in_pool (au_config a) cand ∧ authority_wf a1 ∧ leases a1 = leases a ∧
  au_config a1 = au_config a ∧
  make_offer src provider tid a =
    (offer_pending a1 tid src cand,
     Ok (mkAdvertise ServiceType_ROUTER (aa_preference (au_config a)) provider (aa_lifetime (au_config a))
           (aa_capabilities (au_config a)), offer_for (au_config a) provider cand)).
Proof.
  intros Ha Hal. pose proof (host_mask_range _ (aw_config _ Ha)) as Hm.
  pose proof (allocate_candidate_eq provider a Ha) as E. rewrite Hal in E.
  pose proof (allocate_loop_spec (Z.to_nat (Z.min (host_mask (au_config a)) 65535)) provider a Ha) as Hs.
  cbv zeta in Hs. rewrite <- E in Hs. destruct Hs as (i & _ & -> & Hf & -> & _).
  pose proof (visit_range (host_mask (au_config a)) (next_host a)) as Hv.
  split; [done |]. split; [eexists; split; [| done]; apply Hv; lia |].
  split; [apply set_next_wf; [done | apply Hv; lia] |]. do 2 (split; [done |]).
  unfold make_offer. by rewrite (st_bind_Ok_l _ _ _ _ _ Hal).
Qed.

Definition settled (a : AddressAuthority) (tid src : Z) (p : PendingAuthorityOffer) : AddressAuthority :=
  mkAuthority (au_config a) (next_host a) (delete tid (au_pending a)) (<[po_candidate p := src]> (leases a)).

Lemma settle_claim_eq tid src a :
  settle_claim tid src a =
    match au_pending a !! tid with
    | Some p => (settled a tid src p, Ok (mkAddressAck (po_candidate p) (aa_lifetime (au_config a))))
    | None => (a, Err InvalidState)
    end.
Proof. unfold settle_claim, mbind, st_bind, gets, lift, modify. cbn [Datatypes.id]. by destruct (au_pending a !! tid). Qed.

Lemma settle_claim_wf tid src a : authority_wf a → authority_wf (settle_claim tid src a).1.
Proof.
  intros Ha. rewrite settle_claim_eq. destruct (au_pending a !! tid) as [p |] eqn:Ep; [| done].
  destruct Ha. split; cbn; try done.
  - intros t q [_ Hq]%lookup_delete_Some. by eapply aw_pending0.
  - intros c cl [[<- _] | [_ H]]%lookup_insert_Some; [by eapply aw_pending0 | by eapply aw_leases0].
  - intros t1 t2 p1 p2 [_ H1]%lookup_delete_Some [_ H2]%lookup_delete_Some. by eapply aw_unique0.
  - intros t q [Hne Hq]%lookup_delete_Some. rewrite lookup_insert_ne; [by eapply aw_fresh0 |].
    intros E. apply Hne. by eapply aw_unique0.
Qed.

(** A lease is never withdrawn or handed to another client. *)
Lemma settle_claim_leases tid src a address client :
  authority_wf a → leases a !! address = Some client →
  leases (settle_claim tid src a).1 !! address = Some client.
Proof.
  intros Ha Hl. rewrite settle_claim_eq. destruct (au_pending a !! tid) as [p |] eqn:Ep; [| done].
  cbn. rewrite lookup_insert_ne; [done |]. intros <-. pose proof (aw_fresh _ Ha _ _ Ep). congruence.
Qed.

(** ** Every run of the authority

    What may happen to the promises and leases: the search moves on, an address
    that is free is promised to a client, and an open promise becomes a lease of
    the client it was made to. *)
Inductive lease_step : AddressAuthority → AddressAuthority → Prop :=
  | ls_search a n : 0 < n ≤ host_mask (au_config a) → lease_step a (set_next_host a n)
  | ls_offer a router tid client c : free a router c → in_pool (au_config a) c → lease_step a (offer_pending a tid client c)
  | ls_grant a tid p : au_pending a !! tid = Some p → lease_step a (settled a tid (po_client p) p).

Lemma lease_step_wf a a' : lease_step a a' → authority_wf a → authority_wf a'.
Proof.
  intros [b n Hn | b router tid client c Hf Hp | b tid p Hp] Ha.
  - by apply set_next_wf.
  - by eapply offer_pending_wf.
  - pose proof (settle_claim_wf tid (po_client p) b Ha) as H. by rewrite settle_claim_eq, Hp in H.
Qed.

Lemma lease_step_leases a a' address client :
  lease_step a a' → authority_wf a → leases a !! address = Some client → leases a' !! address = Some client.
Proof.
  intros [b n Hn | b router tid cl c Hf Hp | b tid p Hp] Ha Hl; [done.. |].
  pose proof (settle_claim_leases tid (po_client p) b address client Ha Hl) as H. by rewrite settle_claim_eq, Hp in H.
Qed.

Lemma lease_run_wf a a' : rtc lease_step a a' → authority_wf a → authority_wf a'.
Proof. induction 1; [done |]. eauto using lease_step_wf. Qed.

Lemma lease_run_leases a a' address client :
  rtc lease_step a a' → authority_wf a → leases a !! address = Some client → leases a' !! address = Some client.
Proof. induction 1; [done |]. eauto using lease_step_wf, lease_step_leases. Qed.

(** Every new lease was promised to its client before. *)
Lemma lease_run_promised a a' address client :
  rtc lease_step a a' → leases a' !! address = Some client →
  leases a !! address = Some client ∨
  ∃ b tid, rtc lease_step a b ∧ rtc lease_step b a' ∧ au_pending b !! tid = Some (mkPendingAuth client address).
Proof.
  intros H Hl. induction H as [| a b c Hab Hbc IH]; [by left |].
  destruct (IH Hl) as [Hb | (d & tid & Hbd & Hdc & Hp)].
  2: { right. exists d, tid. split; [by eapply rtc_l |]. done. }
  inversion Hab as [b0 n Hn | b0 router tid cl x Hf Hp | b0 tid p Hp]; subst; [by left.. |].
  cbn in Hb. apply lookup_insert_Some in Hb as [[<- <-] | [_ Hb]]; [| by left].
  right. exists a, tid. split; [done |]. split; [by eapply rtc_l |]. rewrite Hp. by destruct p.
Qed.

(** The two operations the endpoint performs on its authority *)
Lemma make_offer_run src provider tid a : authority_wf a → rtc lease_step a (make_offer src provider tid a).1.
Proof.
  intros Ha. pose proof (make_offer_spec src provider tid a Ha) as H.
  destruct (make_offer _ _ _ _) as [a' [[adv offer] | e |]]; [| | done]; cbn.
  - destruct H as (n & c & Hf & Hp & Hn & -> & _).
    eapply rtc_l; [by apply (ls_search a n) |]. apply rtc_once. by apply (ls_offer _ provider).
  - destruct H as (_ & n & Hn & ->). by apply rtc_once, ls_search.
Qed.
Lemma settle_claim_run tid src c a : claim_valid a tid src c = true → rtc lease_step a (settle_claim tid src a).1.
Proof.
  unfold claim_valid. rewrite settle_claim_eq. destruct (au_pending a !! tid) as [p |] eqn:Ep; [| done].
  intros [<-%Z.eqb_eq _]%andb_true_iff. by apply rtc_once, ls_grant.
Qed.

(** ** Configurations made without [AddressAuthorityConfig::new]

    The fields are public. The prefix length decides whether the search panics;
    the promises and leases are in order for the configurations of [new]. *)
Record authority_safe (a : AddressAuthority) : Prop := {
  as_len : 1 ≤ aa_prefix_len (au_config a) ≤ 64;
  as_next : 0 ≤ next_host a ≤ 2 ^ 63;
  as_wf : auth_config_ok (au_config a) → authority_wf a }.

Lemma authority_new_safe c : 1 ≤ aa_prefix_len c ≤ 64 → authority_safe (authority_new c).
Proof. intros Hc. split; [done | cbn; lia | by apply authority_new_wf]. Qed.

Lemma advance_host_safe mask a :
  0 ≤ mask < 2 ^ 63 → 0 ≤ next_host a ≤ 2 ^ 63 →
  ∃ n, 0 ≤ n ≤ 2 ^ 63 ∧ advance_host mask a = (set_next_host a n, Ok tt).
Proof.
  intros Hm Hn. unfold advance_host, mbind, st_bind, gets, lift, modify, Datatypes.id.
  unfold add_or_panic, checked_add. replace (next_host a + 1 <? 2 ^ 64) with true by lia. cbn [expect].
  eexists. split; [| done]. destruct (_ =? 0); [lia |].
  assert (0 ≤ Z.land (next_host a + 1) mask) by (apply Z.land_nonneg; lia).
  assert (Z.land (next_host a + 1) mask ≤ mask); [| lia].
  apply Z.ldiff_le; [lia |]. apply Z.bits_inj'. intros i Hi.
  rewrite Z.ldiff_spec, Z.land_spec, Z.bits_0. destruct (Z.testbit mask i); by rewrite ?andb_false_r.
Qed.

Lemma allocate_loop_safe n mask router a :
  0 ≤ mask < 2 ^ 63 → 0 ≤ next_host a ≤ 2 ^ 63 →
  ∃ k r, 0 ≤ k ≤ 2 ^ 63 ∧ r ≠ Panic ∧ allocate_loop n mask router a = (set_next_host a k, r).
Proof.
  intros Hm. revert a. induction n as [| n IH]; intros a Hn.
  { exists (next_host a), (Err BufferFull). split; [done |]. split; [done |]. by destruct a. }
  cbn [allocate_loop]. rewrite (st_bind_Ok_l _ _ a a a) by done. cbv zeta.
  destruct (advance_host_safe mask a Hm Hn) as (k & Hk & E). rewrite (st_bind_Ok_l _ _ _ _ _ E).
  assert (Hrec : ∃ k' r, 0 ≤ k' ≤ 2 ^ 63 ∧ r ≠ Panic ∧ allocate_loop n mask router (set_next_host a k) = (set_next_host a k', r)).
  { by apply (IH (set_next_host a k)). }
  destruct (_ =? 0); [done |]. destruct (_ && _); [| done]. exists k. by eexists (Ok _).
Qed.

Lemma allocate_candidate_safe router a :
  authority_safe a → ∃ k r, 0 ≤ k ≤ 2 ^ 63 ∧ r ≠ Panic ∧ allocate_candidate router a = (set_next_host a k, r).
Proof.
  intros [Hl Hn _]. unfold allocate_candidate. rewrite (st_bind_Ok_l _ _ a a a) by done.
  rewrite (st_bind_Ok_l _ _ a a (64 - aa_prefix_len (au_config a))).
  2: { unfold lift, sub_or_panic, checked_sub. by replace (_ <=? 64) with true by lia. }
  rewrite (st_bind_Ok_l _ _ a a tt).
  2: { unfold lift. by replace (64 <=? _) with false by lia. }
  apply allocate_loop_safe; [| done].
  pose proof (Z.pow_pos_nonneg 2 (64 - aa_prefix_len (au_config a)) ltac:(lia) ltac:(lia)).
  pose proof (Z.pow_le_mono_r 2 (64 - aa_prefix_len (au_config a)) 63 ltac:(lia) ltac:(lia)). lia.
Qed.

Lemma make_offer_safe src provider tid a :
  authority_safe a → authority_safe (make_offer src provider tid a).1 ∧ (make_offer src provider tid a).2 ≠ Panic.
Proof.
  intros Ha. destruct (allocate_candidate_safe provider a Ha) as (k & r & Hk & Hr & E).
  assert (Hwf : auth_config_ok (au_config a) → authority_wf (make_offer src provider tid a).1).
  { intros Hc. by apply make_offer_wf, as_wf. }
  unfold make_offer in *. destruct r as [c | e |]; [| | done].
  - rewrite (st_bind_Ok_l _ _ _ _ _ E) in *. cbn in *. split; [| done]. split; [apply Ha | done | done].
  - unfold mbind, st_bind in *. rewrite E in *. cbn in *. split; [| done]. split; [apply Ha | done | done].
Qed.

Lemma settle_claim_safe tid src a :
  authority_safe a → authority_safe (settle_claim tid src a).1 ∧ (settle_claim tid src a).2 ≠ Panic.
Proof.
  intros [Hl Hn Hw]. assert (Hwf : auth_config_ok (au_config a) → authority_wf (settle_claim tid src a).1).
  { intros Hc. by apply settle_claim_wf, Hw. }
  rewrite settle_claim_eq in *. destruct (au_pending a !! tid) as [p |]; cbn in *; (split; [| done]); by split.
Qed.

(** With any other prefix length the first search panics: the number of host bits
    is 64 or more, or below zero. *)
Lemma allocate_candidate_panics router c :
  aa_prefix_len c ≤ 0 ∨ 64 < aa_prefix_len c → (allocate_candidate router (authority_new c)).2 = Panic.
Proof.
  intros Hc. unfold allocate_candidate, mbind, st_bind, gets, lift, Datatypes.id, sub_or_panic, checked_sub.
  cbn [authority_new au_config]. destruct (Z.leb_spec (aa_prefix_len c) 64) as [Hl |]; [| done]. cbn [expect].
  by replace (64 <=? 64 - aa_prefix_len c) with true by lia.
Qed.

(** ** Properties *)

(** The candidate search is exact: it returns an address of the pool that
    is not the router's and neither promised nor leased; in a pool of at most
    65535 hosts it fails only when every address of the pool is taken. *)
Theorem address_search_exact a router :
  authority_wf a →
  match allocate_candidate router a with
  | (a', Ok c) => authority_wf a' ∧ free a router c ∧ in_pool (au_config a) c ∧
      address_matches_prefix c (aa_prefix (au_config a)) (aa_prefix_len (au_config a)) = Ok true
  | (a', Err e) => authority_wf a' ∧ e = BufferFull ∧
      (host_mask (au_config a) ≤ 65535 → ∀ c, in_pool (au_config a) c → ¬ free a router c)
  | (_, Panic) => False
  end.
Proof.
  intros Ha. pose proof (host_mask_range _ (aw_config _ Ha)) as Hm. rewrite allocate_candidate_eq by done.
  pose proof (allocate_loop_spec (Z.to_nat (Z.min (host_mask (au_config a)) 65535)) router a Ha) as H.
  cbv zeta in H. destruct (allocate_loop _ _ _ _) as [a' [c | e |]]; [| | done].
  - destruct H as (i & _ & -> & Hf & -> & _).
    pose proof (visit_range (host_mask (au_config a)) (next_host a)) as Hv.
    split; [apply set_next_wf; [done | apply Hv; lia] |]. split; [done |].
    split; [eexists; split; [| done]; apply Hv; lia | apply pool_address_matches; [apply Ha | apply Hv; lia]].
  - destruct H as (-> & (i & ->) & H).
    split; [apply set_next_wf; [done | apply visit_range; lia] |]. split; [done |].
    intros Hs c (h & Hh & ->). destruct (visit_all (host_mask (au_config a)) (next_host a) h) as (j & Hj & <-); [lia.. |].
    apply H. lia.
Qed.

(** A /56 pool with two steps taken: client 9 holds the first address. *)
Definition sample_auth_config : AddressAuthorityConfig := mkAuthConfig 0x0102030400000000 56 600 0 0.
Definition sample_authority : AddressAuthority := Eval vm_compute in
  (settle_claim 7 9 (make_offer 9 0x0102030400000001 7 (authority_new sample_auth_config)).1).1.

Lemma sample_auth_config_ok : auth_config_ok sample_auth_config.
Proof. by apply (auth_config_new_ok 0x0102030400000000 56 600). Qed.

Lemma sample_authority_wf : authority_wf sample_authority.
Proof. exact (settle_claim_wf 7 9 _ (proj1 (make_offer_wf 9 0x0102030400000001 7 _ (authority_new_wf _ sample_auth_config_ok)))). Qed.

Lemma address_search_exact_witness :
  match allocate_candidate 0x0102030400000001 sample_authority with
  | (a', Ok c) => authority_wf a' ∧ free sample_authority 0x0102030400000001 c ∧
      in_pool (au_config sample_authority) c ∧
      address_matches_prefix c (aa_prefix (au_config sample_authority)) (aa_prefix_len (au_config sample_authority)) = Ok true
  | (a', Err e) => authority_wf a' ∧ e = BufferFull ∧
      (host_mask (au_config sample_authority) ≤ 65535 →
       ∀ c, in_pool (au_config sample_authority) c → ¬ free sample_authority 0x0102030400000001 c)
  | (_, Panic) => False
  end.
Proof.
  exact (address_search_exact sample_authority 0x0102030400000001 sample_authority_wf).
Defined.
