(* ===== verification/EndpointInv.v ===== *)
(** * Well-formedness of the endpoint and absence of panics

    The invariant of [EndpointCore]'s state, and for every operation of
    EndpointCore.v that it keeps the invariant whatever it returns and does
    not panic ([sound]).  The layers are those of the state: the link
    endpoint, one stream, one tunnel, the address authority, the endpoint. *)
From stdpp Require Import prelude gmap.
From Stdlib Require Import ZArith Lia.
From S2P Require Import Prelude BTree Css GdpWire Gctl GtsWire GtsCodec GtsCodecSound NoPanic Reliable GtsStream Dlp EndpointCore EndpointAuth.
Local Open Scope Z_scope.

Create HintDb sound discriminated.
#[export] Hint Resolve sound_err sound_guard sound_gets : sound.

(** One step through a method: the first call by a lemma of the database. *)
Ltac sound_step :=
  eapply sound_bind; [solve [eauto with sound] | intros ? ?]; cbv beta in *.

(** ** The link endpoint *)

(** A packet handed up by the link. *)
Definition packet_good (p : GdpPacket) : Prop :=
  wf_header (pkt_header p) ∧ bytes (pkt_payload p).

Lemma packet_decode_sat bs cfg lp :
  bytes bs → u64 lp → res_sat packet_good (packet_decode bs cfg lp).
Proof.
  intros Hb Hl. pose proof (packet_decode_safe bs cfg lp Hb Hl) as H.
  destruct (packet_decode bs cfg lp); cbn; [| done | done]. split; apply H.
Qed.

Lemma queue_packet_sound tr vcid p : 0 ≤ vcid → sound dlp_inv (λ _, True) (queue_packet_on tr vcid p).
Proof.
  intros Hv. apply sound_intro; [by apply queue_packet_preserves |]. intros s Hs.
  rewrite queue_packet_on_eq. unfold lane_guards.
  pose proof (packet_encode_no_panic p (cfg s)) as He.
  repeat (destruct (_ : bool); cbn [fail_if mbind res_bind]; [done |]); try done.
  repeat match goal with |- context [fail_if ?b _] => destruct b; cbn [fail_if mbind res_bind]; [done |] end.
  by destruct (packet_encode p (cfg s)).
Qed.

Lemma queue_control_sound p : sound dlp_inv (λ _, True) (queue_control_packet p).
Proof. by apply queue_packet_sound. Qed.

Lemma choose_vc_sound : sound dlp_inv (λ vc, 0 ≤ vc) choose_data_vc.
Proof.
  intros s Hs. split; [by apply choose_data_vc_preserves |]. cbn. pose proof (di_vc s Hs). lia.
Qed.

Lemma queue_data_sound p : sound dlp_inv (λ _, True) (queue_data_packet p).
Proof. eapply sound_bind; [apply choose_vc_sound |]. intros vc Hvc. by apply queue_packet_sound. Qed.

Lemma note_granted_sound n : 0 ≤ n → sound dlp_inv (λ _, True) (note_data_credit_granted n).
Proof.
  intros Hn. apply sound_intro; [by apply note_granted_preserves |]. intros s Hs.
  rewrite note_granted_eq by done. by destruct (_ <? _).
Qed.

Lemma poll_tx_frame_sound : sound dlp_inv (λ _, True) poll_tx_frame.
Proof.
  apply sound_intro; [apply poll_tx_frame_preserves |]. intros s Hs.
  unfold poll_tx_frame, mbind, st_bind, gets, guard_st, lift, mret, st_ret. cbn [Datatypes.id].
  destruct (negb (link_up s)); cbn [fail_if]; [done |].
  assert (Hp : ∀ tr vcs q c, queue_ok vcs tr q → u32 c → (pop_sendable_frame (q, c)).2 ≠ Panic).
  { intros tr vcs q c Hq Hc. destruct (pop_sendable_frame (q, c)) as [[q' c'] r] eqn:E.
    by apply (pop_sendable_ok vcs tr) in E as (_ & _ & _ & ? & _). }
  pose proof (Hp TControl _ _ _ (di_control_q s Hs) (proj2 (di_credit s Hs))) as Hc.
  unfold Dlp.on_control, zoom. destruct (pop_sendable_frame (control_tx_queue s, control_tx_credit s))
    as [[q c] r] eqn:E. cbn [snd] in Hc. destruct r as [[f |] | e |]; try done.
  pose proof (Hp TrData _ _ _ (di_data_q s Hs) (proj1 (di_credit s Hs))) as Hd.
  unfold Dlp.on_data, zoom. cbn [set_control_tx data_tx_queue data_tx_credit].
  destruct (pop_sendable_frame (data_tx_queue s, data_tx_credit s)) as [[q2 c2] r2] eqn:E2.
  cbn [snd] in Hd. destruct r2 as [[f |] | e |]; try done. cbn. by destruct (queues_empty _).
Qed.

(** A flit the link may carry. *)
Definition flit_ok (f : Flit) : Prop := 0 ≤ fl_vcid f < 4.

Lemma burst_flits_ok s room :
  dlp_inv s → 0 ≤ room →
  len (burst_flits s room) = burst_control s room + burst_data s room ∧ Forall flit_ok (burst_flits s room).
Proof.
  intros Hs Hr. pose proof (burst_bounds s room Hs Hr) as Hb. pose proof (vc_count_range s).
  destruct Hs as [_ _ _ _ _ _ _ _ Hcq Hdq _]. unfold burst_flits.
  destruct (emit_many_ok _ _ (Z.to_nat (burst_control s room)) _ Hcq) as (_ & Lc & _ & Fc);
    [unfold queued_control_flits in *; lia |].
  destruct (emit_many_ok _ _ (Z.to_nat (burst_data s room)) _ Hdq) as (_ & Ld & _ & Fd);
    [unfold queued_data_flits in *; lia |]. split; [rewrite len_app; unfold len; lia |].
  apply Forall_app. split; [eapply Forall_impl; [exact Fc |] | eapply Forall_impl; [exact Fd |]];
    unfold flit_ok; intros f [? _]; lia.
Qed.

Lemma poll_tx_burst_sound out :
  sound dlp_inv (λ x, len x.1 = len out ∧ 0 ≤ x.2 ≤ len out ∧ Forall flit_ok (take (Z.to_nat x.2) x.1))
    (poll_tx_burst out).
Proof.
  intros s Hs. split; [by apply poll_tx_burst_preserves |]. pose proof (len_nonneg out).
  destruct (link_up s) eqn:El.
  - rewrite poll_tx_burst_eq by done. destruct (_ =? 0); [split; [done |]; split; [cbn; lia | constructor] |]. cbv zeta.
    pose proof (burst_bounds s (len out) Hs (len_nonneg out)) as Hb.
    destruct (burst_flits_ok s (len out) Hs (len_nonneg out)) as [Hl Hf]. cbn [snd].
    destruct (negb _); cbn [res_sat fst snd].
    + split; [rewrite len_app, Hl; unfold len in *; rewrite length_drop; lia |]. split; [lia |].
      rewrite <- Hl, length_len, take_app_length. done.
    + destruct (queues_empty s); [| done]. cbn. split; [done |]. split; [lia | constructor].
  - unfold poll_tx_burst, mbind, st_bind, gets, guard_st, lift. cbn [Datatypes.id].
    by rewrite El.
Qed.

Lemma poll_tx_sound : sound dlp_inv (λ o, ∀ f, o = Some f → flit_ok f) poll_tx.
Proof.
  unfold poll_tx. set (one := [_]).
  eapply sound_bind; [apply poll_tx_burst_sound |]. intros [out n] (Hl & Hn & Hf). cbn [fst snd] in *.
  change (len one) with 1 in *. destruct (Z.eqb_spec n 0); [by apply sound_ret |].
  destruct (Z.eqb_spec n 1) as [-> |]; [| lia].
  eapply (sound_bind _ flit_ok); [| intros; apply sound_ret; by intros ? <-%Some_inj].
  apply sound_lift, res_sat_intro; [apply no_panic_get_index; lia |].
  intros f [_ H]%get_index_Ok. rewrite Forall_forall in Hf. apply Hf.
  apply list_elem_of_lookup. exists 0%nat. by rewrite lookup_take_lt by lia.
Qed.

Lemma receive_sound flit :
  flit_ok flit → sound dlp_inv (λ o, ∀ p, o = Some p → packet_good p) (receive flit).
Proof.
  intros Hv s Hs. split; [by apply receive_preserves |].
  destruct (slot_exists s flit Hs Hv) as (slot & d & Hslot & Hd & Hok).
  rewrite (receive_cases s flit slot d) by (done || apply Hv).
  destruct (negb (link_up s)); [done |].
  destruct (Z.leb_spec (vc_count s) (fl_vcid flit)) as [| Hc]; [done |].
  destruct d; [done |]. destruct (is_data _ && _); [done |].
  pose proof (segment_for_ok s flit slot Hc Hok) as (_ & _ & _ & _ & _ & _ & Hb).
  unfold accept_flit. destruct (_ <? _); [done |]. cbv zeta.
  set (bs := take _ _).
  assert (Hbs : bytes bs).
  { apply Forall_take. cbn [seg_push rs_bytes]. apply bytes_app. split; [done | apply bytes_to_be]. }
  pose proof (packet_decode_sat bs (cfg s) (local_prefix s) Hbs (di_prefix s Hs)) as Hp.
  destruct (packet_decode bs _ _); cbn in *; try done. by intros ? <-%Some_inj.
Qed.

(** A frame of the device boundary: its octets and its size are those of the
    Rust types. *)
Definition frame_ok (f : GnetFrame) : Prop :=
  0 ≤ gf_vcid f < 4 ∧ flit_len (gf_bytes f) < 2 ^ 32 ∧ bytes (gf_bytes f).

Lemma receive_frame_sound fr : frame_ok fr → sound dlp_inv packet_good (receive_frame fr).
Proof.
  intros (Hv & Hl & Hb) s Hs. split; [apply receive_frame_preserves; done || lia |].
  rewrite receive_frame_eq by (done || lia).
  pose proof (packet_decode_sat _ (cfg s) (local_prefix s) Hb (di_prefix s Hs)) as Hp.
  assert (Hg : ∀ tr vc, lane_guards s tr vc ≠ Panic).
  { intros tr vc. apply no_panic_bind; [auto with nopanic |]. intros _ _.
    apply no_panic_bind; [auto with nopanic |]. intros _ _.
    apply no_panic_bind; auto with nopanic. }
  specialize (Hg (gf_traffic fr) (gf_vcid fr)). destruct (lane_guards _ _ _); try done. cbv zeta.
  destruct (bool_decide _); [destruct (_ <? _); [done |] |]; done.
Qed.

#[export] Hint Resolve queue_control_sound queue_data_sound poll_tx_sound poll_tx_frame_sound
  receive_sound receive_frame_sound : sound.

(** ** One stream *)

Record stream_wf (sid : Z) (s : GtsStream) : Prop := {
  sw_id : id s = sid;
  sw_profile : sp_validate (profile s) = Ok (profile s);
  (** a reliable stream has both halves of the window, an unreliable one none *)
  sw_tx : is_Some (reliable_tx s) ↔ sp_unreliable (profile s) = false;
  sw_rx : is_Some (reliable_rx s) ↔ sp_unreliable (profile s) = false }.

(** ... and a fixed profile: no call changes it. *)
Definition stream_is (sid : Z) (p : StreamProfile) (s : GtsStream) : Prop :=
  stream_wf sid s ∧ profile s = p.

Lemma stream_is_ext sid p s s' :
  id s' = id s → profile s' = profile s →
  (is_Some (reliable_tx s') ↔ is_Some (reliable_tx s)) →
  (is_Some (reliable_rx s') ↔ is_Some (reliable_rx s)) →
  stream_is sid p s → stream_is sid p s'.
Proof.
  intros Hi Hp Ht Hr [[] <-]. split; [| done]. split; rewrite ?Hi, ?Hp, ?Ht, ?Hr; done.
Qed.

(** A call that is sound for every profile is sound. *)
Lemma sound_any_profile {A} sid (Q : A → Prop) (m : st GtsStream A) :
  (∀ p, sound (stream_is sid p) Q m) → sound (stream_wf sid) Q m.
Proof. intros Hm s Hs. destruct (Hm (profile s) s) as [[? _] ?]; done. Qed.

Lemma stream_new_sat sid p o lc pc : res_sat (stream_wf sid) (stream_new sid p o lc pc).
Proof.
  unfold stream_new. destruct (sp_validate p) as [p' | |] eqn:E; [| done |].
  - cbn. split; cbn; [done | | destruct (sp_unreliable p); naive_solver..].
    unfold sp_validate in *. by destruct (fail_if _ _).
  - unfold sp_validate in E. by destruct (_ && _).
Qed.

(** A field update that leaves identity, profile and window halves. *)
Ltac stream_update :=
  try case_match; try assumption;
  match goal with H : stream_is ?sid ?p ?s |- stream_is ?sid ?p _ =>
    apply (stream_is_ext sid p s); [done | done | | | exact H]; cbn; rewrite ?fmap_is_Some; naive_solver
  end.
Ltac stream_modify := apply sound_modify; intros ? ?; stream_update.

Lemma validate_send_no_panic s n e : no_panic (validate_send_len s n e).
Proof.
  unfold validate_send_len, fixed_unreliable_data_len, fixed_reliable_end_capacity, fixed_reliable_data_len.
  repeat case_match; auto with nopanic.
Qed.

Lemma validate_incoming_no_panic s c p : no_panic (validate_incoming s c p).
Proof.
  unfold validate_incoming, fixed_unreliable_data_len, fixed_reliable_end_capacity, fixed_reliable_data_len.
  apply no_panic_bind; [auto with nopanic |]. intros _ _. destruct p; auto with nopanic.
  all: repeat (apply no_panic_bind; [auto with nopanic | intros _ _]); repeat case_match; auto 6 with nopanic.
Qed.

Lemma on_tx_sound {A} sid p (m : st ReliableTx A) :
  sp_unreliable p = false → (∀ t, (m t).2 ≠ Panic) → sound (stream_is sid p) (λ _, True) (on_tx m).
Proof.
  intros Hu Hm s Hs. unfold sound_at, on_tx. destruct Hs as [Hw Hp].
  destruct (proj2 (sw_tx _ _ Hw)) as [t Ht]; [by rewrite Hp |]. rewrite Ht.
  specialize (Hm t). destruct (m t) as [t' r]. cbn in *. split; [| by apply res_sat_no_panic].
  apply (stream_is_ext sid p s); [done | done | | | done]; cbn; rewrite ?Ht; naive_solver.
Qed.

Lemma on_rx_sound {A} sid p (m : st ReliableRx A) :
  sp_unreliable p = false → (∀ t, (m t).2 ≠ Panic) → sound (stream_is sid p) (λ _, True) (on_rx m).
Proof.
  intros Hu Hm s Hs. unfold sound_at, on_rx. destruct Hs as [Hw Hp].
  destruct (proj2 (sw_rx _ _ Hw)) as [t Ht]; [by rewrite Hp |]. rewrite Ht.
  specialize (Hm t). destruct (m t) as [t' r]. cbn in *. split; [| by apply res_sat_no_panic].
  apply (stream_is_ext sid p s); [done | done | | | done]; cbn; rewrite ?Ht; naive_solver.
Qed.

Lemma rtx_queue_no_panic d e now t : (rtx_queue d e now t).2 ≠ Panic.
Proof. unfold rtx_queue, mbind, st_bind, gets, guard_st, lift. by destruct (_ =? 0). Qed.

Lemma rrx_receive_no_panic seq d t : (rrx_receive seq d t).2 ≠ Panic.
Proof.
  unfold rrx_receive, mbind, st_bind, gets, guard_st, lift, modify, mret, st_ret. cbn [Datatypes.id].
  destruct (_ <? _); [done |]. destruct (_ =? _); [by destruct (_ <=? _) |]. by destruct (_ || _).
Qed.

Lemma send_packet_sound sid tid data end_ now :
  sound (stream_wf sid) packet_ok (send_packet tid data end_ now).
Proof.
  apply sound_any_profile. intros p. apply sound_get_any. intros s [Hw Hp].
  do 3 sound_step. rewrite Hp.
  eapply (sound_bind _ (λ _, True)); [apply sound_lift, res_sat_no_panic, validate_send_no_panic |].
  intros _ _. destruct (sp_unreliable p) eqn:Hu.
  - destruct (sp_sequenced p); [| by apply sound_ret].
    eapply sound_bind; [stream_modify |]. intros. by apply sound_ret.
  - eapply sound_bind; [apply on_tx_sound; [done |]; intros; apply rtx_queue_no_panic |]. intros seq _.
    eapply sound_bind; [stream_modify |]. intros. by apply sound_ret.
Qed.

Lemma receive_packet_sound sid packet : sound (stream_wf sid) (λ _, True) (receive_packet packet).
Proof.
  apply sound_any_profile. intros p. apply sound_get_any. intros s [Hw Hp].
  do 2 sound_step. rewrite Hp. destruct packet; auto with sound.
  - destruct (sp_unreliable p) eqn:Hu; [auto with sound |]. sound_step.
    eapply sound_bind; [apply on_rx_sound; [done |]; intros; apply rrx_receive_no_panic |]. intros _ _.
    eapply sound_bind; [stream_modify |]. intros _ _.
    eapply sound_bind; [by apply on_rx_sound |]. intros. by apply sound_ret.
  - destruct (sp_unreliable p); [| auto with sound]. sound_step.
    destruct (sp_sequenced p).
    + eapply sound_bind; [apply sound_lift, res_sat_ok_or |]. intros q _.
      destruct (match _ with Some _ => _ | None => _ end); [by apply sound_ret |].
      eapply sound_bind; [stream_modify |]. intros _ _.
      eapply sound_bind; [stream_modify |]. intros. by apply sound_ret.
    + eapply sound_bind; [stream_modify |]. intros. by apply sound_ret.
Qed.

Lemma on_ack_sound sid base bm c : sound (stream_wf sid) (λ _, True) (on_ack base bm c).
Proof.
  apply sound_any_profile. intros p. apply sound_get. intros s [Hw Hp].
  apply (sound_at_bind _ (λ b, bool_decide (state s = SReset) || sp_unreliable (profile s) = false)).
  { split; [done |]. apply res_sat_fail_if. }
  intros _ Hg. apply orb_false_iff in Hg as [_ Hu].
  destruct (proj2 (sw_tx _ _ Hw) Hu) as [t Ht]. rewrite Ht. cbn [ok_or].
  eapply (sound_bind _ (λ _, True)); [by apply sound_lift |]. intros t' _.
  apply sound_modify. intros s' [Hw' Hp']. apply (stream_is_ext sid p s'); [done | done | | done |]; [| done].
  cbn. split; [| naive_solver]. intros _. apply (sw_tx _ _ Hw'). by rewrite Hp', <- Hp.
Qed.

Lemma recv_sound sid : sound (stream_wf sid) (λ _, True) recv.
Proof.
  apply sound_any_profile. intros p. apply sound_get_any. intros s [Hw Hp]. rewrite Hp.
  destruct (sp_unreliable p) eqn:Hu.
  - destruct (unrel_delivered s); [by apply sound_ret |].
    eapply sound_bind; [stream_modify |]. intros. by apply sound_ret.
  - apply on_rx_sound; [done |]. intros t. by destruct (rrx_recv t).
Qed.

Lemma apply_open_ack_sound sid c : sound (stream_wf sid) (λ _, True) (apply_open_ack c).
Proof.
  apply sound_any_profile. intros p. apply sound_get_any. intros s _. sound_step. stream_modify.
Qed.

Lemma stream_modify_sound sid f :
  (∀ p s, stream_is sid p s → stream_is sid p (f s)) → sound (stream_wf sid) (λ _, True) (modify f).
Proof. intros Hf. apply sound_any_profile. intros p. apply sound_modify. auto. Qed.

Lemma stream_reset_sound sid : sound (stream_wf sid) (λ _, True) (modify stream_reset).
Proof. apply stream_modify_sound. intros p s ?. stream_update. Qed.
Lemma stream_state_sound sid v : sound (stream_wf sid) (λ _, True) (modify (λ s, with_state s v)).
Proof. apply stream_modify_sound. intros p s ?. stream_update. Qed.
Lemma mark_opening_sound sid : sound (stream_wf sid) (λ _, True) (modify mark_opening).
Proof. apply stream_modify_sound. intros p s ?. stream_update. Qed.

Lemma validate_incoming_sound sid c p :
  sound (stream_wf sid) (λ _, True) (x ← gets Datatypes.id; lift (validate_incoming x c p)).
Proof.
  apply sound_get_any. intros x _. apply sound_lift, res_sat_no_panic, validate_incoming_no_panic.
Qed.

#[export] Hint Resolve send_packet_sound receive_packet_sound on_ack_sound recv_sound
  apply_open_ack_sound stream_reset_sound stream_state_sound mark_opening_sound : sound.

(** ** One tunnel *)

Record tunnel_wf (h : Z) (t : GtsTunnel) : Prop := {
  tw_id : local_receive_id t = h;
  tw_zero : is_Some (streams t !! 0);
  tw_remote : tstate t = Established → is_Some (remote_receive_id t) ∧ is_Some (remote_reset_id t);
  tw_streams : map_Forall stream_wf (streams t) }.

Lemma initiator_sat h r css p c : res_sat (tunnel_wf h) (tunnel_initiator h r css p c).
Proof.
  unfold tunnel_initiator. eapply res_sat_bind; [apply (stream_new_sat 0) |]. intros s Hs.
  split; cbn; [done | by rewrite lookup_singleton_eq | by eauto | by apply map_Forall_singleton].
Qed.

Lemma responder_sat h r rr rx css p c q : res_sat (tunnel_wf h) (tunnel_responder h r rr rx css p c q).
Proof.
  unfold tunnel_responder. eapply res_sat_bind; [apply (stream_new_sat 0) |]. intros s Hs.
  split; cbn; [done | by rewrite lookup_singleton_eq | by eauto | by apply map_Forall_singleton].
Qed.

Lemma with_streams_wf h t sid s next :
  tunnel_wf h t → stream_wf sid s → tunnel_wf h (with_streams t (<[sid := s]> (streams t)) next).
Proof.
  intros [] Hs. split; cbn; try done; [| by apply map_Forall_insert_2].
  destruct (decide (sid = 0)) as [-> |]; [by rewrite lookup_insert_eq |]. by rewrite lookup_insert_ne.
Qed.

Lemma on_stream_sound {A} h sid (Q : A → Prop) (m : st GtsStream A) :
  sound (stream_wf sid) Q m → sound (tunnel_wf h) Q (on_stream sid m).
Proof.
  intros Hm t Ht. unfold sound_at, on_stream. destruct (streams t !! sid) as [s |] eqn:Es; [| done].
  destruct (Hm s) as [H1 H2]; [by apply (tw_streams _ _ Ht) |]. destruct (m s) as [s' r]. cbn in *.
  split; [| done]. by apply with_streams_wf.
Qed.

Lemma remote_id_sound h t : sound (tunnel_wf h) (λ _, True) (lift (remote_id t)).
Proof. apply sound_lift, res_sat_no_panic. unfold remote_id. auto with nopanic. Qed.

Lemma alloc_stream_id_sound h : sound (tunnel_wf h) (λ _, True) alloc_stream_id.
Proof.
  apply sound_get_any. intros t _. do 2 sound_step.
  eapply sound_bind; [apply sound_modify; intros t' []; by split |]. intros. by apply sound_ret.
Qed.

Lemma add_stream_sound h sid p o c q : sound (tunnel_wf h) (λ _, True) (add_stream sid p o c q).
Proof.
  apply sound_get_any. intros t _. sound_step.
  eapply sound_bind; [apply sound_lift, (stream_new_sat sid) |]. intros s Hs.
  apply sound_modify. intros t' Ht'. by apply with_streams_wf.
Qed.

Lemma establish_sound h rr rx c : sound (tunnel_wf h) (λ _, True) (establish_initiator rr rx c).
Proof.
  apply sound_get. intros t Ht.
  apply (sound_at_bind _ (λ _, True)); [by split; [| by destruct (negb _)] |]. intros _ _.
  eapply sound_bind; [apply sound_modify; intros t' []; split; cbn; try done; eauto |]. intros _ _ t' Ht'.
  destruct (tw_zero _ _ Ht) as [s Es]. rewrite Es. cbn [expect].
  unfold sound_at, mbind, st_bind, lift, modify. cbn. split; [| done]. apply with_streams_wf; [done |].
  pose proof (tw_streams _ _ Ht _ _ Es) as [].
  split; cbn; rewrite ?fmap_is_Some; done.
Qed.

Lemma tunnel_reset_wf h t : tunnel_wf h t → tunnel_wf h (tunnel_reset t).
Proof.
  intros []. split; cbn; try done; [by rewrite lookup_fmap, fmap_is_Some |].
  intros sid s Hs. rewrite lookup_fmap in Hs. apply fmap_Some in Hs as (x & Hx & ->).
  specialize (tw_streams0 _ _ Hx). destruct tw_streams0.
  split; cbn; rewrite ?fmap_is_Some; done.
Qed.

Lemma tunnel_reset_sound h : sound (tunnel_wf h) (λ _, True) (modify tunnel_reset).
Proof. apply sound_modify. intros. by apply tunnel_reset_wf. Qed.

Lemma with_tstate_sound h v : v ≠ Established → sound (tunnel_wf h) (λ _, True) (modify (λ t, with_tstate t v)).
Proof. intros Hv. apply sound_modify. intros t []. by split. Qed.

Lemma tick_stream_wf h remote now acc sid :
  tunnel_wf h acc.1 → Forall (λ x, packet_ok x.2) acc.2 →
  tunnel_wf h (tick_stream remote now acc sid).1 ∧ Forall (λ x, packet_ok x.2) (tick_stream remote now acc sid).2.
Proof.
  destruct acc as [t out]. cbn. intros Ht Ho. destruct (streams t !! sid) as [s |] eqn:Es; [| done].
  pose proof (tw_streams _ _ Ht _ _ Es) as Hs. unfold retransmit_due.
  destruct (reliable_tx s) as [tx |] eqn:Etx.
  - destruct (rtx_due now tx) as [tx' l]. cbn. split.
    + apply with_streams_wf; [done |]. destruct Hs. split; cbn; try done. rewrite Etx in sw_tx0. naive_solver.
    + apply Forall_app. split; [done |]. apply Forall_forall. intros x (y & -> & Hy)%list_elem_of_fmap.
      apply list_elem_of_fmap in Hy as ([[q d] e] & -> & _). done.
  - cbn. rewrite app_nil_r. split; [| done]. by apply with_streams_wf.
Qed.

Lemma tick_fold_wf h remote now sids acc :
  tunnel_wf h acc.1 → Forall (λ x, packet_ok x.2) acc.2 →
  tunnel_wf h (fold_left (tick_stream remote now) sids acc).1 ∧
  Forall (λ x, packet_ok x.2) (fold_left (tick_stream remote now) sids acc).2.
Proof.
  revert acc. induction sids as [| sid sids IH]; intros acc Ht Ho; [done |]. cbn [fold_left].
  destruct (tick_stream_wf h remote now acc sid Ht Ho). by apply IH.
Qed.

Lemma tick_tunnel_sound h now pr :
  sound (tunnel_wf h) (Forall (λ x, packet_ok x.2)) (tick_tunnel now pr).
Proof.
  apply sound_get_any. intros t _. destruct (negb _); [by apply sound_ret, Forall_nil |].
  eapply sound_bind; [apply remote_id_sound |]. intros remote _.
  eapply (sound_bind _ (Forall (λ x, packet_ok x.2))).
  - intros t' Ht'. unfold sound_at, tick_streams.
    destruct (tick_fold_wf h remote now (btree_keys (streams t')) (t', [])) as [H1 H2]; [done | by cbn |].
    by destruct (fold_left _ _ _) as [t'' out].
  - intros out Ho. apply sound_ret, Forall_forall. intros x (y & -> & Hy)%list_elem_of_fmap. cbn.
    rewrite Forall_forall in Ho. by apply Ho.
Qed.

#[export] Hint Resolve on_stream_sound remote_id_sound alloc_stream_id_sound add_stream_sound
  establish_sound tunnel_reset_sound with_tstate_sound tick_tunnel_sound : sound.

(** ** The endpoint *)

Record ep_inv (s : EndpointCore) : Prop := {
  ei_dlp : dlp_inv (dlp s);
  (** every tunnel is filed under its receive id *)
  ei_tunnels : map_Forall (λ h r, tunnel_wf h (tunnel r)) (tunnels s);
  ei_authority : ∀ a, authority s = Some a → authority_safe a;
  (** the offer that is being claimed lies in the network it names *)
  ei_offer : ∀ p, pending_client_offer s = Some p → offer_ok (pc_offer p) ∧ u64 (of_prefix (pc_offer p)) }.

(** A field update outside the invariant. *)
Ltac ep_modify := apply sound_modify; intros ? []; by split.

Lemma on_dlp_sound {A} (Q : A → Prop) (m : st DlpEndpoint A) :
  sound dlp_inv Q m → sound ep_inv Q (on_dlp m).
Proof. apply sound_zoom; [intros; by apply ei_dlp | intros ? ? [] ?; by split]. Qed.

Lemma on_tunnel_sound {A} h (Q : A → Prop) (m : Z → st GtsTunnel A) :
  (∀ pr, sound (tunnel_wf h) Q (m pr)) → sound ep_inv Q (on_tunnel h m).
Proof.
  intros Hm s Hs. unfold sound_at, on_tunnel. destruct (tunnels s !! h) as [r |] eqn:Er; [| done].
  destruct (Hm (peer r) (tunnel r)) as [H1 H2]; [by apply (ei_tunnels _ Hs h r) |].
  destruct (m (peer r) (tunnel r)) as [t x]. cbn in *. split; [| done].
  destruct Hs. split; cbn; try done. by apply map_Forall_insert_2.
Qed.

Lemma set_tunnel_inv s h r : ep_inv s → tunnel_wf h (tunnel r) → ep_inv (set_tunnels s (<[h := r]> (tunnels s))).
Proof. intros [] Hr. split; cbn; try done. by apply map_Forall_insert_2. Qed.

Lemma on_authority_sound {A} (Q : A → Prop) (m : st AddressAuthority A) s :
  ep_inv s → is_Some (authority s) → sound authority_safe Q m → sound_at ep_inv Q (on_authority m) s.
Proof.
  intros Hs [a Ha] Hm. unfold sound_at, on_authority. rewrite Ha.
  destruct (Hm a) as [H1 H2]; [by apply (ei_authority _ Hs) |]. destruct (m a) as [a' r]. cbn in *.
  split; [| done]. destruct Hs. split; cbn; try done. by intros ? <-%Some_inj.
Qed.

#[export] Hint Resolve on_dlp_sound : sound.

Lemma no_panic_recommended m : no_panic (recommended_size_class m).
Proof. unfold recommended_size_class. auto with nopanic. Qed.

Lemma no_panic_make_header s t c a b : no_panic (make_gdp_header s t c a b).
Proof.
  unfold make_gdp_header, header_local. repeat case_match; try apply no_panic_Ok.
Qed.

Lemma no_panic_packet_new h p : no_panic (packet_new h p).
Proof. unfold packet_new. auto with nopanic. Qed.

(** The result of a pure call, when nothing is needed of it. *)
Ltac pure_step H := eapply (sound_bind _ (λ _, True)); [apply sound_lift, res_sat_no_panic, H | intros ? _].

Lemma send_gctl_from_sound a b m c : sound ep_inv (λ _, True) (send_gctl_from a b m c).
Proof.
  unfold send_gctl_from.
  eapply (sound_bind _ (λ _, True)).
  { apply sound_lift, res_sat_no_panic. destruct c; [apply no_panic_Ok | apply no_panic_recommended]. }
  intros class _. pure_step no_panic_encode_exact. apply sound_get_any. intros s _.
  pure_step no_panic_make_header. pure_step no_panic_packet_new. sound_step. by apply sound_ret.
Qed.

Lemma send_gctl_sound b m c : sound ep_inv (λ _, True) (send_gctl b m c).
Proof. unfold send_gctl. sound_step. apply send_gctl_from_sound. Qed.

Lemma send_gts_sound b p prof : packet_ok p → sound ep_inv (λ _, True) (send_gts b p prof).
Proof.
  intros Hp. unfold send_gts. pure_step (choose_size_class_no_panic p prof Hp).
  apply sound_get_any. intros s _. cbv zeta.
  match goal with |- context [encode_packet p ?ctx prof] => pure_step (encode_packet_no_panic p ctx prof Hp) end.
  pure_step no_panic_make_header. pure_step no_panic_packet_new. sound_step. by apply sound_ret.
Qed.

Lemma next_control_sound : sound ep_inv (λ _, True) next_control_transaction.
Proof. unfold next_control_transaction. sound_step. eapply sound_bind; [ep_modify |]. intros. by apply sound_ret. Qed.

Lemma alloc_tunnel_sound : sound ep_inv (λ _, True) alloc_tunnel.
Proof.
  apply sound_get_any. intros s _. eapply sound_bind; [ep_modify |]. intros. by apply sound_ret.
Qed.

#[export] Hint Resolve send_gctl_from_sound send_gctl_sound send_gts_sound next_control_sound
  alloc_tunnel_sound : sound.

Lemma grantable_nonneg d : dlp_inv d → 0 ≤ grantable_data_credit d.
Proof. intros _. unfold grantable_data_credit. ulia. Qed.

Lemma advertise_sound force : sound ep_inv (λ _, True) (advertise_link_credit force).
Proof.
  apply sound_get_any. intros s Hs. destruct (peer_link_local s); [| by apply sound_ret]. cbv zeta.
  destruct (_ =? 0); [by apply sound_ret |]. destruct (_ && _); [by apply sound_ret |].
  do 2 sound_step. apply on_dlp_sound, note_granted_sound, grantable_nonneg, Hs.
Qed.

Lemma grant_data_sound n : 0 ≤ n → sound dlp_inv (λ _, True) (modify (grant_data_tx_credit n)).
Proof. intros Hn. apply sound_modify. intros. by apply grant_data_inv. Qed.
Lemma grant_control_sound n : 0 ≤ n → sound dlp_inv (λ _, True) (modify (grant_control_tx_credit n)).
Proof. intros Hn. apply sound_modify. intros. by apply grant_control_inv. Qed.
Lemma set_link_up_sound up : sound dlp_inv (λ _, True) (modify (set_link_up up)).
Proof. apply sound_modify. intros. by apply set_link_up_inv. Qed.
Lemma set_prefix_sound p : u64 p → sound dlp_inv (λ _, True) (modify (set_local_prefix p)).
Proof. intros Hp. apply sound_modify. intros. by apply set_prefix_inv. Qed.

#[export] Hint Resolve advertise_sound grant_data_sound grant_control_sound set_link_up_sound
  set_prefix_sound : sound.

Lemma on_link_attached_sound p : sound ep_inv (λ _, True) (on_link_attached p).
Proof. unfold on_link_attached. eapply sound_bind; [ep_modify |]. intros. apply advertise_sound. Qed.

Lemma maybe_request_sound : sound ep_inv (λ _, True) maybe_request_link_credit.
Proof.
  apply sound_get_any. intros s _. cbv zeta. destruct (_ || _); [by apply sound_ret |].
  destruct (peer_link_local s); [| by apply sound_ret]. do 2 sound_step. ep_modify.
Qed.

Lemma solicit_router_sound tid : sound ep_inv (λ _, True) (solicit_router tid).
Proof.
  apply sound_get_any. intros s _. sound_step. eapply sound_bind; [ep_modify |]. intros.
  apply send_gctl_from_sound.
Qed.

(** *** GCTL handlers *)

(** A decoded message: its body is octets. *)
Definition msg_good (m : GctlMessage) : Prop := bytes (gm_body m).

Lemma gctl_decode_sat buf : bytes buf → res_sat msg_good (gctl_decode buf).
Proof.
  intros Hb. apply res_sat_intro; [apply no_panic_gctl_decode |]. intros m H. unfold gctl_decode in H.
  repeat match type of H with mbind _ _ = Ok _ =>
    let x := fresh "x" in let E := fresh "E" in apply bind_Ok in H as (x & E & H) end.
  apply Ok_inj in H. subst m. unfold msg_good. cbn [gm_body].
  match goal with E : get_slice buf 8 _ = Ok ?x |- bytes ?x => apply get_slice_Ok in E as (_ & _ & _ & ->) end.
  by apply bytes_slice.
Qed.

Lemma typed_body_bytes m ty n b : msg_good m → typed_body m ty n = Ok b → bytes b.
Proof.
  intros Hm H. unfold typed_body in H.
  repeat match type of H with mbind _ _ = Ok _ =>
    let x := fresh "x" in let E := fresh "E" in apply bind_Ok in H as (x & E & H) end.
  apply get_slice_Ok in H as (_ & _ & _ & ->). by apply bytes_slice.
Qed.

(** [parse] dispatches to the parser of the message's type. *)
Ltac parse_np m E :=
  apply res_sat_intro;
  [let H := fresh in pose proof (no_panic_parse m) as H; unfold parse in H; rewrite E in H;
   intros Hx; rewrite Hx in H; by apply H |].

Lemma parse_solicit_sat m : gm_type m = Solicit → res_sat (λ _, True) (parse_solicit m).
Proof. intros E. parse_np m E. done. Qed.
Lemma parse_advertise_sat m : gm_type m = Advertise → res_sat (λ _, True) (parse_advertise m).
Proof. intros E. parse_np m E. done. Qed.
Lemma parse_claim_sat m : gm_type m = AddressClaim → res_sat (λ _, True) (parse_address_claim m).
Proof. intros E. parse_np m E. done. Qed.
Lemma parse_ack_sat m : gm_type m = AddressAck → res_sat (λ _, True) (parse_address_ack m).
Proof. intros E. parse_np m E. done. Qed.
Lemma parse_nak_sat m : gm_type m = AddressNak → res_sat (λ _, True) (parse_address_nak m).
Proof. intros E. parse_np m E. done. Qed.

Lemma from_be_bytes_range n l x : bytes l → from_be_bytes n l = Ok x → 0 ≤ x < 2 ^ (8 * Z.of_nat n).
Proof.
  intros Hl H. unfold from_be_bytes in H. destruct (len l =? Z.of_nat n) eqn:E; [| done].
  apply Ok_inj in H. subst x. pose proof (from_be_range l Hl) as Hr. apply Z.eqb_eq in E.
  rewrite E in Hr. by rewrite Z.pow_mul_r by lia.
Qed.

Lemma parse_credit_sat m : msg_good m → gm_type m = Gctl.Credit → res_sat u32 (parse_credit m).
Proof.
  intros Hm E. parse_np m E. intros n (b & Hb & (x & Hx & <-%Ok_inj)%bind_Ok)%bind_Ok.
  apply from_be_bytes_range in Hx; [exact Hx |]. by eapply typed_body_bytes.
Qed.
Lemma parse_credit_request_sat m : msg_good m → gm_type m = CreditRequest → res_sat u32 (parse_credit_request m).
Proof.
  intros Hm E. parse_np m E. intros n (b & Hb & (x & Hx & <-%Ok_inj)%bind_Ok)%bind_Ok.
  apply from_be_bytes_range in Hx; [exact Hx |]. by eapply typed_body_bytes.
Qed.

Lemma parse_offer_sat m :
  msg_good m → gm_type m = AddressOffer → res_sat (λ b, offer_ok b ∧ u64 (of_prefix b)) (parse_address_offer m).
Proof.
  intros Hm E. parse_np m E. intros b Hb. split; [by apply (parse_address_offer_ok m) |].
  unfold parse_address_offer in Hb.
  repeat match type of Hb with mbind _ _ = Ok _ =>
    let x := fresh "x" in let E := fresh "E" in apply bind_Ok in Hb as (x & E & Hb) end.
  apply Ok_inj in Hb. subst b. cbn [of_prefix].
  match goal with E1 : get_slice ?l 8 16 = Ok ?p, E2 : from_be_bytes 8 ?p = Ok ?v |- u64 ?v =>
    apply get_slice_Ok in E1 as (_ & _ & _ & ->); apply from_be_bytes_range in E2;
      [exact E2 | apply bytes_slice; by eapply typed_body_bytes] end.
Qed.

Lemma handle_credit_request_sound src m :
  msg_good m → gm_type m = CreditRequest → sound ep_inv (λ _, True) (handle_credit_request src m).
Proof.
  intros Hm E. unfold handle_credit_request.
  eapply sound_bind; [apply sound_lift, parse_credit_request_sat; done |]. intros n Hn.
  apply sound_get_any. intros s Hs. cbv zeta. set (grant := if n =? 0 then _ else _).
  destruct (Z.ltb_spec 0 grant); [| by apply sound_ret]. sound_step. apply on_dlp_sound, note_granted_sound. lia.
Qed.

Lemma handle_credit_sound m :
  msg_good m → gm_type m = Gctl.Credit → sound ep_inv (λ _, True) (handle_credit m).
Proof.
  intros Hm E. unfold handle_credit.
  eapply sound_bind; [apply sound_lift, parse_credit_sat; done |]. intros n Hn.
  eapply sound_bind; [apply on_dlp_sound, grant_data_sound; ulia |]. intros _ _. ep_modify.
Qed.

Lemma push_inbox_sound src m : sound ep_inv (λ _, True) (push_inbox src m).
Proof. ep_modify. Qed.

Lemma handle_advertise_sound src m :
  gm_type m = Advertise → sound ep_inv (λ _, True) (handle_advertise src m).
Proof.
  intros E. unfold handle_advertise. eapply sound_bind; [by apply sound_lift, parse_advertise_sat |]. intros a _.
  apply sound_get_any. intros s _.
  eapply (sound_bind _ (λ _, True)); [destruct (_ && _); [ep_modify | by apply sound_ret] |]. intros _ _.
  apply push_inbox_sound.
Qed.

Lemma address_offer_sat tid b : res_sat (λ _, True) (address_offer tid b).
Proof.
  apply res_sat_no_panic. unfold address_offer, normalize_prefix, address_matches_prefix.
  apply no_panic_bind; [apply no_panic_bind; [apply no_panic_prefix_mask | auto with nopanic] |]. intros n _.
  apply no_panic_bind; [auto with nopanic |]. intros _ _.
  apply no_panic_bind; [apply no_panic_bind; [apply no_panic_prefix_mask | auto with nopanic] |]. intros b' _.
  auto with nopanic.
Qed.

Lemma make_offer_sound src p tid : sound authority_safe (λ _, True) (make_offer src p tid).
Proof. intros a Ha. destruct (make_offer_safe src p tid a Ha) as [H1 H2]. split; [done |]. by apply res_sat_no_panic. Qed.

Lemma handle_router_solicit_sound src m :
  gm_type m = Solicit → sound ep_inv (λ _, True) (handle_router_solicit src m).
Proof.
  intros E. unfold handle_router_solicit. eapply sound_bind; [by apply sound_lift, parse_solicit_sat |].
  intros b _. destruct (negb _); [by apply sound_ret |].
  apply sound_get. intros s Hs. destruct (authority s) as [a |] eqn:Ea; [| by apply sound_ret].
  eapply sound_at_bind; [apply on_authority_sound; [done | by rewrite Ea | apply make_offer_sound] |].
  intros [adv offer] _. sound_step.
  eapply sound_bind; [apply sound_lift, address_offer_sat |]. intros om _. sound_step. by apply sound_ret.
Qed.

Lemma handle_address_offer_sound src m :
  msg_good m → gm_type m = AddressOffer → sound ep_inv (λ _, True) (handle_address_offer src m).
Proof.
  intros Hm E. unfold handle_address_offer.
  eapply sound_bind; [by apply sound_lift, parse_offer_sat |]. intros o [Ho Hp].
  apply sound_get_any. intros s _. cbv zeta. sound_step.
  eapply (sound_bind _ (λ _, True)).
  { apply sound_lift. destruct Ho as [_ ->]. done. }
  intros b _. sound_step.
  eapply sound_bind; [ep_modify |]. intros _ _.
  eapply sound_bind; [apply sound_modify; intros ? []; split; try done; cbn; by intros ? <-%Some_inj |]. intros _ _.
  eapply sound_bind; [ep_modify |]. intros _ _.
  eapply sound_bind; [ep_modify |]. intros _ _. apply send_gctl_from_sound.
Qed.

Lemma claim_valid_Some a tid src c : claim_valid a tid src c = true → is_Some (au_pending a !! tid).
Proof. unfold claim_valid. destruct (au_pending a !! tid); [by eauto | done]. Qed.

Lemma settle_claim_sound tid src : sound authority_safe (λ _, True) (settle_claim tid src).
Proof. intros a Ha. destruct (settle_claim_safe tid src a Ha) as [H1 H2]. split; [done |]. by apply res_sat_no_panic. Qed.

Lemma handle_address_claim_sound src m :
  gm_type m = AddressClaim → sound ep_inv (λ _, True) (handle_address_claim src m).
Proof.
  intros E. unfold handle_address_claim. eapply sound_bind; [by apply sound_lift, parse_claim_sat |].
  intros c _. apply sound_get. intros s Hs. cbv zeta. destruct (authority s) as [a |] eqn:Ea; [| by apply sound_ret].
  destruct (claim_valid _ _ _ _).
  - eapply sound_at_bind; [apply on_authority_sound; [done | by rewrite Ea | apply settle_claim_sound] |].
    intros ack _. sound_step. by apply sound_ret.
  - assert (H : sound ep_inv (λ _, True) (send_gctl_from (link_local_address s) src
      (address_nak (gm_transaction_id m) (mkAddressNak (cl_candidate c) 1 1)) None;; mret true)).
    { sound_step. by apply sound_ret. }
    by apply H.
Qed.

Lemma handle_address_ack_sound m :
  gm_type m = AddressAck → sound ep_inv (λ _, True) (handle_address_ack m).
Proof.
  intros E. unfold handle_address_ack. eapply sound_bind; [by apply sound_lift, parse_ack_sat |]. intros a _.
  apply sound_get_any. intros s Hs.
  eapply sound_bind; [apply sound_lift, res_sat_ok_or |]. intros p Hp. cbv zeta. sound_step.
  eapply sound_bind; [ep_modify |]. intros _ _. eapply sound_bind; [ep_modify |]. intros _ _.
  eapply sound_bind; [ep_modify |]. intros _ _.
  eapply (sound_bind _ (λ _, True)).
  - destruct (_ =? 48); [| by apply sound_ret]. eapply sound_bind; [ep_modify |]. intros _ _.
    apply on_dlp_sound, set_prefix_sound, clear_low16_u64. by apply (ei_offer _ Hs).
  - intros _ _. apply sound_modify. intros ? []. by split.
Qed.

Lemma handle_address_nak_sound m :
  gm_type m = AddressNak → sound ep_inv (λ _, True) (handle_address_nak m).
Proof.
  intros E. unfold handle_address_nak. eapply sound_bind; [by apply sound_lift, parse_nak_sat |]. intros n _.
  eapply sound_bind; [ep_modify |]. intros _ _. ep_modify.
Qed.

Lemma handle_gctl_sound src p : packet_good p → sound ep_inv (λ _, True) (handle_gctl src p).
Proof.
  intros [_ Hb]. unfold handle_gctl. eapply sound_bind; [by apply sound_lift, gctl_decode_sat |]. intros m Hm.
  destruct (gm_type m) eqn:E; try apply push_inbox_sound.
  - eapply sound_bind; [by apply handle_router_solicit_sound |]. intros [] _; [by apply sound_ret | apply push_inbox_sound].
  - by apply handle_advertise_sound.
  - by apply handle_credit_request_sound.
  - by apply handle_credit_sound.
  - by apply handle_address_offer_sound.
  - eapply sound_bind; [by apply handle_address_claim_sound |]. intros [] _; [by apply sound_ret | apply push_inbox_sound].
  - by apply handle_address_ack_sound.
  - by apply handle_address_nak_sound.
  - eapply (sound_bind _ (λ _, True)).
    { apply sound_lift, res_sat_no_panic. unfold echo_reply. auto with nopanic. }
    intros reply _. apply sound_get_any. intros s _. apply send_gctl_from_sound.
  - ep_modify.
Qed.

(** *** Tunnel and stream operations *)

Lemma sp_validate_sat p : res_sat (λ _, True) (sp_validate p).
Proof. apply res_sat_no_panic. unfold sp_validate. auto with nopanic. Qed.

Lemma ep_connect_sound remote css p : wf_selector css → sound ep_inv (λ _, True) (ep_connect remote css p).
Proof.
  intros Hc. unfold ep_connect. eapply sound_bind; [apply sound_lift, sp_validate_sat |]. intros _ _.
  eapply sound_bind; [apply alloc_tunnel_sound |]. intros [local reset] _.
  apply sound_get_any. intros s _. cbv zeta.
  eapply sound_bind; [apply sound_lift, (initiator_sat local) |]. intros t Ht.
  eapply sound_bind; [apply sound_modify; intros; by apply set_tunnel_inv |]. intros _ _.
  eapply sound_bind; [by apply send_gts_sound |]. intros. by apply sound_ret.
Qed.

(** The tail shared by the operations that touch a tunnel and then send. *)
Lemma tunnel_then_sound {A B} h (Q : A → Prop) (m : Z → st GtsTunnel A) (k : A → st EndpointCore B) R :
  (∀ pr, sound (tunnel_wf h) Q (m pr)) → (∀ a, Q a → sound ep_inv R (k a)) →
  sound ep_inv R (on_tunnel h m ≫= k).
Proof. intros Hm Hk. eapply sound_bind; [by apply on_tunnel_sound | done]. Qed.

(** [remote ← remote_id; ret (pr, remote)] *)
Lemma remote_tail_sound {A} h (f : Z → A) (Q : A → Prop) :
  (∀ r, Q (f r)) → sound (tunnel_wf h) Q (t ← gets Datatypes.id; r ← lift (remote_id t); mret (f r)).
Proof.
  intros Hf. apply sound_get_any. intros t _. eapply sound_bind; [apply remote_id_sound |].
  intros. by apply sound_ret.
Qed.

Lemma ep_open_stream_sound h p : sound ep_inv (λ _, True) (ep_open_stream h p).
Proof.
  unfold ep_open_stream. eapply sound_bind; [apply sound_lift, sp_validate_sat |]. intros _ _.
  apply sound_get_any. intros s _. cbv zeta. apply (tunnel_then_sound h (λ _, True)).
  - intros pr. sound_step. sound_step. sound_step. by apply (remote_tail_sound h (λ r, (pr, a, _, r))).
  - intros [[[pr sid] credit] remote] _. eapply sound_bind; [by apply send_gts_sound |]. intros. by apply sound_ret.
Qed.

Lemma send_inner_sound h sid data e now : sound ep_inv (λ _, True) (send_inner h sid data e now).
Proof.
  apply (tunnel_then_sound h (λ x, packet_ok x.2)).
  - intros pr. apply sound_get_any. intros t _. sound_step.
    eapply sound_bind; [apply remote_id_sound |]. intros remote _.
    eapply (sound_bind _ (λ x, packet_ok x.2)).
    + apply on_stream_sound, sound_get_any. intros x _. eapply sound_bind; [apply send_packet_sound |].
      intros pk Hpk. by apply sound_ret.
    + intros [p pk] Hpk. by apply sound_ret.
  - intros [[pr p] pk] Hpk. by apply send_gts_sound.
Qed.

Lemma receive_credit_ack_ok remote x a : receive_credit_ack remote x = Some a → packet_ok a.
Proof.
  unfold receive_credit_ack, ack_packet. destruct (_ || _); [done |].
  intros (rx & _ & ([[b m] c] & _ & [= <-])%bind_Some)%bind_Some. done.
Qed.

Lemma ep_recv_sound h sid : sound ep_inv (λ _, True) (ep_recv h sid).
Proof.
  apply (tunnel_then_sound h (λ x, ∀ a, x.2 = Some a → packet_ok a)).
  - intros pr. apply sound_get_any. intros t _. eapply sound_bind; [apply remote_id_sound |]. intros remote _.
    apply on_stream_sound, sound_get_any. intros x _. eapply sound_bind; [apply recv_sound |]. intros msg _.
    apply sound_get_any. intros x' _. apply sound_ret. cbn. destruct msg; [apply receive_credit_ack_ok | done].
  - intros [[[pr p] msg] ack] Hack. cbn in Hack. eapply (sound_bind _ (λ _, True)); [| intros; by apply sound_ret].
    destruct ack; [apply send_gts_sound; by apply Hack | by apply sound_ret].
Qed.

Lemma ep_reset_stream_sound h sid r : sound ep_inv (λ _, True) (ep_reset_stream h sid r).
Proof.
  apply (tunnel_then_sound h (λ _, True)).
  - intros pr. sound_step. by apply (remote_tail_sound h (λ r, (pr, r))).
  - intros [pr remote] _. by apply send_gts_sound.
Qed.

Lemma ep_close_stream_sound h sid : sound ep_inv (λ _, True) (ep_close_stream h sid).
Proof.
  apply (tunnel_then_sound h (λ _, True)).
  - intros pr. eapply (sound_bind _ (λ _, True)).
    + apply on_stream_sound, sound_get_any. intros x _. sound_step. apply stream_state_sound.
    + intros _ _. by apply (remote_tail_sound h (λ r, (pr, r))).
  - intros [pr remote] _. by apply send_gts_sound.
Qed.

Lemma close_tunnel_part h v (pr : Z) :
  v ≠ Established → sound (tunnel_wf h) (λ _, True) (
    t ← gets Datatypes.id; guard_st (any_live t) InvalidState;;
    modify (λ t, with_tstate t v);; remote ← lift (remote_id t); mret (pr, remote)).
Proof.
  intros Hv. apply sound_get_any. intros t _. do 3 sound_step. by apply sound_ret.
Qed.

Lemma ep_close_tunnel_sound h : sound ep_inv (λ _, True) (ep_close_tunnel h).
Proof.
  apply (tunnel_then_sound h (λ _, True)); [intros pr; by apply close_tunnel_part |].
  intros [pr remote] _. by apply send_gts_sound.
Qed.

Lemma ep_reset_tunnel_sound h r : sound ep_inv (λ _, True) (ep_reset_tunnel h r).
Proof.
  apply (tunnel_then_sound h (λ _, True)).
  - intros pr. apply sound_get_any. intros t _. sound_step.
    eapply sound_bind; [apply sound_lift, res_sat_ok_or |]. intros x _. sound_step. by apply sound_ret.
  - intros [[pr remote] x] _. by apply send_gts_sound.
Qed.

(** *** GTS handlers *)

Lemma get_stream_sat h sid s : res_sat (λ _, True) (get_stream h sid s).
Proof. apply res_sat_no_panic. unfold get_stream. auto with nopanic. Qed.

Lemma gts_type_no_panic v : no_panic (gts_type_from_wire v).
Proof.
  unfold gts_type_from_wire. pose proof (Z.land_ones v 4 ltac:(lia)) as H. change (Z.ones 4) with 0xf in H.
  rewrite H. pose proof (Z.mod_pos_bound v (2 ^ 4) ltac:(lia)) as Hr. generalize dependent (v mod 2 ^ 4).
  intros x _ Hx. assert (Hc : x ∈ [0; 1; 2; 3; 4; 5; 6; 7; 8; 9; 10; 11; 12; 13; 14; 15]) by (set_unfold; lia).
  set_unfold in Hc. repeat destruct Hc as [-> | Hc]; done.
Qed.

Lemma gts_profile_sat s payload : res_sat (λ _, True) (gts_profile_for s payload).
Proof.
  unfold gts_profile_for. eapply res_sat_bind; [apply res_sat_fail_if |]. intros [] H0. lens.
  eapply (res_sat_bind (λ _, True)); [apply res_sat_no_panic, no_panic_get_index; lia |]. intros b _.
  eapply (res_sat_bind (λ _, True)); [apply res_sat_no_panic, gts_type_no_panic |]. intros ty _.
  destruct (negb _); [done |]. eapply res_sat_bind; [apply res_sat_fail_if |]. intros [] H6. cbv beta in H6.
  rewrite get_slice_eq, bind_Ok_l by lia.
  eapply (res_sat_bind (λ _, True)); [apply res_sat_no_panic, no_panic_from_be_bytes; len_goal |]. intros l _.
  eapply (res_sat_bind (λ _, True)); [apply res_sat_no_panic, no_panic_get_index; lia |]. intros sid _.
  eapply res_sat_bind; [apply get_stream_sat |]. done.
Qed.

Lemma handle_connect_sound src tid rid p c css : sound ep_inv (λ _, True) (handle_connect src tid rid p c css).
Proof.
  apply sound_get_any. intros s _. eapply sound_bind; [apply sound_lift, res_sat_ok_or |]. intros l _.
  eapply sound_bind; [apply alloc_tunnel_sound |]. intros [local reset] _. cbv zeta.
  eapply sound_bind; [apply sound_lift, (responder_sat local) |]. intros t Ht.
  eapply sound_bind; [apply sound_modify; intros; by apply set_tunnel_inv |]. intros _ _.
  eapply sound_bind; [ep_modify |]. intros _ _. by apply send_gts_sound.
Qed.

Lemma handle_connect_ack_sound tid r x st c : sound ep_inv (λ _, True) (handle_connect_ack tid r x st c).
Proof.
  unfold handle_connect_ack. sound_step. apply on_tunnel_sound. intros pr. apply sound_get_any. intros t _.
  eapply sound_bind; [apply sound_lift, res_sat_ok_or |]. intros y _. sound_step. apply establish_sound.
Qed.

Lemma handle_stream_open_sound tid sid p c : sound ep_inv (λ _, True) (handle_stream_open tid sid p c).
Proof.
  apply sound_get_any. intros s _. cbv zeta. apply (tunnel_then_sound tid (λ _, True)).
  - intros pr. apply sound_get_any. intros t _. do 3 sound_step. by apply (remote_tail_sound tid (λ r, (pr, r, _))).
  - intros [[pr remote] cr] _. by apply send_gts_sound.
Qed.

Lemma handle_stream_ack_sound tid sid st c : sound ep_inv (λ _, True) (handle_stream_ack tid sid st c).
Proof.
  unfold handle_stream_ack. sound_step. apply on_tunnel_sound. intros pr. apply on_stream_sound, sound_get_any.
  intros x _. sound_step. apply apply_open_ack_sound.
Qed.

(** [validate_incoming] followed by a call on the stream *)
Lemma validated_sound {A} sid c p (m : GtsStream → st GtsStream A) Q :
  (∀ x, sound (stream_wf sid) Q (m x)) →
  sound (stream_wf sid) Q (x ← gets Datatypes.id; lift (validate_incoming x c p);; m x).
Proof.
  intros Hm. apply sound_get_any. intros x _.
  eapply (sound_bind _ (λ _, True)); [apply sound_lift, res_sat_no_panic, validate_incoming_no_panic | done].
Qed.

Lemma handle_data_sound c tid sid p : sound ep_inv (λ _, True) (handle_data c tid sid p).
Proof.
  apply (tunnel_then_sound tid (λ _, True)).
  - intros pr. eapply (sound_bind _ (λ _, True)).
    + apply on_stream_sound, validated_sound. intros x. eapply sound_bind; [apply receive_packet_sound |].
      intros. by apply sound_ret.
    + intros [p' ack] _. by apply (remote_tail_sound tid (λ r, (pr, r, ack, p'))).
  - intros [[[pr remote] ack] p'] _. destruct ack as [[] |]; try (by apply sound_ret). by apply send_gts_sound.
Qed.

Lemma handle_gts_packet_sound src c g : sound ep_inv (λ _, True) (handle_gts_packet src c g).
Proof.
  destruct g; cbn [handle_gts_packet].
  - apply handle_connect_sound.
  - apply handle_connect_ack_sound.
  - apply handle_stream_open_sound.
  - apply handle_stream_ack_sound.
  - apply handle_data_sound.
  - apply on_tunnel_sound. intros pr. apply on_stream_sound, validated_sound. intros x. apply on_ack_sound.
  - apply on_tunnel_sound. intros pr. apply on_stream_sound, validated_sound. intros x. sound_step. by apply sound_ret.
  - destruct ack.
    + apply on_tunnel_sound. intros pr. apply on_stream_sound, validated_sound. intros x. apply stream_state_sound.
    + apply (tunnel_then_sound tunnel_id (λ _, True)).
      * intros pr. eapply (sound_bind _ (λ _, True)).
        { apply on_stream_sound, validated_sound. intros x. apply stream_state_sound. }
        intros _ _. by apply (remote_tail_sound tunnel_id (λ r, (pr, r))).
      * intros [pr remote] _. by apply send_gts_sound.
  - destruct ack; [apply on_tunnel_sound; intros pr; by apply with_tstate_sound |].
    apply (tunnel_then_sound tunnel_id (λ _, True)); [intros pr; by apply close_tunnel_part |].
    intros [pr remote] _. by apply send_gts_sound.
  - apply on_tunnel_sound. intros pr. apply sound_get_any. intros t _. sound_step. apply tunnel_reset_sound.
  - destruct ack; [apply on_tunnel_sound; intros pr; apply on_stream_sound, stream_reset_sound |].
    apply (tunnel_then_sound tunnel_id (λ _, True)).
    + intros pr. sound_step. by apply (remote_tail_sound tunnel_id (λ r, (pr, r))).
    + intros [pr remote] _. by apply send_gts_sound.
Qed.

(** *** Received packets, polling, retransmission *)

Lemma handle_gts_sound src p : packet_good p → sound ep_inv (λ _, True) (handle_gts src p).
Proof.
  intros [_ Hb]. apply sound_get_any. intros s _. cbv zeta.
  eapply sound_bind; [apply sound_lift, gts_profile_sat |]. intros prof _.
  eapply (sound_bind _ (λ _, True)); [by apply sound_lift, res_sat_no_panic, gts_decode_no_panic |].
  intros g _. apply handle_gts_packet_sound.
Qed.

Lemma handle_gdp_sound p now : packet_good p → sound ep_inv (λ _, True) (handle_gdp p now).
Proof.
  intros Hp. unfold handle_gdp. cbv zeta. apply sound_get_any. intros s _. sound_step.
  eapply sound_bind; [ep_modify |]. intros _ _. destruct (hdr_packet_type _).
  - by apply handle_gctl_sound.
  - sound_step. by apply handle_gts_sound.
  - auto with sound.
Qed.

Lemma poll_tx_flit_sound : sound ep_inv (λ o, ∀ f, o = Some f → flit_ok f) poll_tx_flit.
Proof. eapply sound_bind; [apply maybe_request_sound |]. intros. apply on_dlp_sound, poll_tx_sound. Qed.
Lemma ep_poll_tx_frame_sound : sound ep_inv (λ _, True) ep_poll_tx_frame.
Proof. eapply sound_bind; [apply maybe_request_sound |]. intros. apply on_dlp_sound, poll_tx_frame_sound. Qed.

Lemma after_packet_sound p now :
  packet_good p → sound ep_inv (λ _, True) (handle_gdp p now;; advertise_link_credit false;; mret true).
Proof.
  intros Hp. eapply sound_bind; [by apply handle_gdp_sound |]. intros _ _. sound_step. by apply sound_ret.
Qed.

Lemma receive_flit_sound f now : flit_ok f → sound ep_inv (λ _, True) (receive_flit f now).
Proof.
  intros Hf. eapply sound_bind; [by apply on_dlp_sound, receive_sound |]. intros [p |] Hp; [| by apply sound_ret].
  apply after_packet_sound. by apply Hp.
Qed.

Lemma ep_receive_frame_sound f now : frame_ok f → sound ep_inv (λ _, True) (ep_receive_frame f now).
Proof.
  intros Hf. eapply sound_bind; [by apply on_dlp_sound, receive_frame_sound |]. intros p Hp.
  by apply after_packet_sound.
Qed.

Lemma validate_managed_sat s p l :
  packet_good p → res_sat (λ _, True) (validate_managed_credit_grant s p l).
Proof.
  intros [_ Hb]. unfold validate_managed_credit_grant. destruct (negb _); [done |].
  eapply res_sat_bind; [by apply gctl_decode_sat |]. intros m Hm.
  destruct (negb _) eqn:E; [done |]. apply negb_false_iff, bool_decide_eq_true in E.
  eapply res_sat_bind; [by apply parse_credit_sat |]. intros n _.
  apply res_sat_no_panic. auto with nopanic.
Qed.

Lemma handle_managed_sound p now l : packet_good p → sound ep_inv (λ _, True) (handle_managed p now l).
Proof.
  intros Hp. apply sound_get_any. intros s _.
  eapply sound_bind; [by apply sound_lift, validate_managed_sat |]. intros _ _. by apply after_packet_sound.
Qed.

Lemma receive_managed_flit_sound f now l : flit_ok f → sound ep_inv (λ _, True) (receive_managed_flit f now l).
Proof.
  intros Hf. eapply sound_bind; [by apply on_dlp_sound, receive_sound |]. intros [p |] Hp; [| by apply sound_ret].
  apply handle_managed_sound. by apply Hp.
Qed.

Lemma receive_managed_frame_sound f now l : frame_ok f → sound ep_inv (λ _, True) (receive_managed_frame f now l).
Proof.
  intros Hf. eapply sound_bind; [by apply on_dlp_sound, receive_frame_sound |]. intros p Hp.
  by apply handle_managed_sound.
Qed.

Definition pending_ok (x : Z * StreamProfile * GtsPacket) : Prop := packet_ok x.2.

Lemma tick_tunnels_sound now hs : sound ep_inv (Forall pending_ok) (tick_tunnels now hs).
Proof.
  induction hs as [| h hs IH]; [by apply sound_ret, Forall_nil |]. cbn [tick_tunnels].
  apply (tunnel_then_sound h (Forall pending_ok)); [intros pr; apply tick_tunnel_sound |]. intros out Ho.
  eapply sound_bind; [exact IH |]. intros rest Hr. apply sound_ret, Forall_app. by split.
Qed.

Lemma send_pending_sound l : Forall pending_ok l → sound ep_inv (λ _, True) (send_pending l).
Proof.
  induction 1 as [| [[pr p] k] l Hk _ IH]; [by apply sound_ret |]. cbn [send_pending].
  eapply sound_bind; [by apply send_gts_sound |]. by intros.
Qed.

Lemma ep_tick_sound now : sound ep_inv (λ _, True) (ep_tick now).
Proof.
  apply sound_get_any. intros s _. eapply sound_bind; [apply tick_tunnels_sound |]. intros out Ho.
  eapply sound_bind; [by apply send_pending_sound |]. intros. by apply sound_ret.
Qed.

(** *** The link *)

Lemma link_attached_sound p w : 0 ≤ w → sound ep_inv (λ _, True) (link_attached p w).
Proof.
  intros Hw. unfold link_attached. sound_step.
  eapply sound_bind; [apply on_dlp_sound, set_link_up_sound |]. intros _ _.
  eapply sound_bind; [by apply on_dlp_sound, grant_control_sound |]. intros _ _. apply on_link_attached_sound.
Qed.

Lemma bind_managed_sound p w : 0 ≤ w → sound ep_inv (λ _, True) (bind_managed_link_peer p w).
Proof.
  intros Hw. unfold bind_managed_link_peer. sound_step. eapply sound_bind; [ep_modify |]. intros _ _.
  eapply sound_bind; [ep_modify |]. intros _ _.
  eapply sound_bind; [by apply on_dlp_sound, grant_control_sound |]. intros _ _. apply advertise_sound.
Qed.

Lemma attempt_sound {S A B} (P : S → Prop) (Q : A → Prop) (R : B → Prop) (m : st S A) k :
  sound P Q m → (∀ a, Q a → sound P R (k (Ok a))) → (∀ e, sound P R (k (Err e))) → sound P R (attempt m k).
Proof.
  intros Hm Hk He s Hs. unfold sound_at, attempt. destruct (Hm s Hs) as [H1 H2].
  destruct (m s) as [s' [a | e |]]; cbn in *; [by apply Hk | by apply He | done].
Qed.

Lemma retry_managed_sound : sound ep_inv (λ _, True) retry_managed_link_credit_request.
Proof.
  eapply sound_bind; [ep_modify |]. intros _ _. apply sound_get_any. intros s _. cbv zeta.
  destruct (_ || _); [by apply sound_ret |]. destruct (peer_link_local s); [| by apply sound_ret].
  sound_step. eapply attempt_sound; [apply send_gctl_from_sound | intros ? _; ep_modify | intros; by apply sound_ret].
Qed.

Lemma link_detached_inv s : ep_inv s → ep_inv (link_detached s).
Proof. intros []. split; cbn; try done. by apply (set_link_up_inv false). Qed.

(** *** Construction *)

Lemma ep_build_inv primary ll st cfg s :
  u32 (ec_rx_buffer_flits cfg) → (∀ p, ec_local_context_prefix cfg = Some p → u64 p) →
  ep_build primary ll st cfg = Ok s → ep_inv s.
Proof.
  intros Hb Hp (dc & Hdc & (d & Hd & <-%Ok_inj)%bind_Ok)%bind_Ok.
  unfold config_new in Hdc. apply bind_Ok in Hdc as ([] & _ & <-%Ok_inj). cbn in Hd.
  split; cbn; [| apply map_Forall_empty | done | done].
  eapply endpoint_new_inv; [| | exact Hd]; cbn; [done |]. apply clear_low16_u64.
  destruct (ec_local_context_prefix cfg); cbn; [by apply Hp | ulia].
Qed.

(** ** The calls on an endpoint *)

(** Every public operation of the endpoint that changes its state, with the
    arguments of the call. *)
Inductive ep_call : Set :=
  | CEnableAuthority (c : AddressAuthorityConfig) | CListen (css : ServiceSelector) (c : ListenerConfig)
  | CAccept | CTakeEcho (tid : Z) | CTakeGctl
  | CSolicit (tid : Z) | CSendGctl (remote : Z) (m : GctlMessage) (c : SizeClass)
  | CEcho (remote tid : Z) (body : list Z) (c : SizeClass)
  | CConnect (remote : Z) (css : ServiceSelector) (p : StreamProfile) | COpenStream (h : Z) (p : StreamProfile)
  | CSend (h sid : Z) (data : list Z) (end_ : bool) (now : Z) | CRecv (h sid : Z)
  | CResetStream (h sid reason : Z) | CCloseStream (h sid : Z) | CCloseTunnel (h : Z)
  | CResetTunnel (h reason : Z)
  | CPollFlit | CPollTxFrame | CReceiveFlit (f : Flit) (now : Z) | CReceiveGnetFrame (f : GnetFrame) (now : Z)
  | CTick (now : Z)
  | CLinkAttached (p w : Z) | CBindManaged (p w : Z) | CRetryManaged | CLinkDetached
  | CManagedFlit (f : Flit) (now limit : Z) | CManagedFrame (f : GnetFrame) (now limit : Z)
  | CGrantControl (n : Z).

(** The arguments are in the ranges of their types. The fields of an authority
    configuration are public: it need not come from [AddressAuthorityConfig::new], but its
    prefix length must be 1 to 64 (with any other a received SOLICIT panics:
    [solicit_panics] of EndpointSafety). *)
Definition ep_call_ok (c : ep_call) : Prop :=
  match c with
  | CEnableAuthority c => 1 ≤ aa_prefix_len c ≤ 64
  | CConnect _ css _ => wf_selector css
  | CReceiveFlit f _ | CManagedFlit f _ _ => flit_ok f
  | CReceiveGnetFrame f _ | CManagedFrame f _ _ => frame_ok f
  | CLinkAttached _ w | CBindManaged _ w => u32 w
  | CGrantControl n => u32 n
  | _ => True
  end.

(** The outcome with the value forgotten. *)
Definition outcome {S A} (m : st S A) : st S unit := m;; mret tt.
Definition pure_call {S} (f : S → S) : st S unit := modify f.

Definition run_ep (c : ep_call) : st EndpointCore unit :=
  match c with
  | CEnableAuthority c => pure_call (enable_address_authority c)
  | CListen css c => pure_call (listen css c)
  | CAccept => pure_call (λ s, (accept s).1)
  | CTakeEcho tid => pure_call (λ s, (take_echo_reply tid s).1)
  | CTakeGctl => pure_call (λ s, (take_gctl s).1)
  | CSolicit tid => solicit_router tid
  | CSendGctl remote m c => send_gctl remote m c
  | CEcho remote tid body c => send_echo remote tid body c
  | CConnect remote css p => outcome (ep_connect remote css p)
  | COpenStream h p => outcome (ep_open_stream h p)
  | CSend h sid data e now => send_inner h sid data e now
  | CRecv h sid => outcome (ep_recv h sid)
  | CResetStream h sid r => ep_reset_stream h sid r
  | CCloseStream h sid => ep_close_stream h sid
  | CCloseTunnel h => ep_close_tunnel h
  | CResetTunnel h r => ep_reset_tunnel h r
  | CPollFlit => outcome poll_tx_flit
  | CPollTxFrame => outcome ep_poll_tx_frame
  | CReceiveFlit f now => outcome (receive_flit f now)
  | CReceiveGnetFrame f now => outcome (ep_receive_frame f now)
  | CTick now => outcome (ep_tick now)
  | CLinkAttached p w => link_attached p w
  | CBindManaged p w => bind_managed_link_peer p w
  | CRetryManaged => retry_managed_link_credit_request
  | CLinkDetached => pure_call link_detached
  | CManagedFlit f now l => outcome (receive_managed_flit f now l)
  | CManagedFrame f now l => outcome (receive_managed_frame f now l)
  | CGrantControl n => on_dlp (modify (grant_control_tx_credit n))
  end.

Lemma outcome_sound {S A} (P : S → Prop) (Q : A → Prop) (m : st S A) :
  sound P Q m → sound P (λ _, True) (outcome m).
Proof. intros Hm. eapply sound_bind; [exact Hm |]. intros. by apply sound_ret. Qed.

Lemma run_ep_sound c : ep_call_ok c → sound ep_inv (λ _, True) (run_ep c).
Proof.
  intros Hc. destruct c; cbn [run_ep ep_call_ok] in *; unfold pure_call.
  - apply sound_modify. intros s []. split; cbn; try done. intros ? <-%Some_inj. by apply authority_new_safe.
  - ep_modify.
  - apply sound_modify. intros s []. unfold accept. destruct (accepted s); by split.
  - ep_modify.
  - apply sound_modify. intros s []. unfold take_gctl. destruct (gctl_inbox s); by split.
  - apply solicit_router_sound.
  - apply send_gctl_sound.
  - apply send_gctl_sound.
  - by eapply outcome_sound, ep_connect_sound.
  - eapply outcome_sound, ep_open_stream_sound.
  - apply send_inner_sound.
  - eapply outcome_sound, ep_recv_sound.
  - apply ep_reset_stream_sound.
  - apply ep_close_stream_sound.
  - apply ep_close_tunnel_sound.
  - apply ep_reset_tunnel_sound.
  - eapply outcome_sound, poll_tx_flit_sound.
  - eapply outcome_sound, ep_poll_tx_frame_sound.
  - by eapply outcome_sound, receive_flit_sound.
  - by eapply outcome_sound, ep_receive_frame_sound.
  - eapply outcome_sound, ep_tick_sound.
  - apply link_attached_sound, Hc.
  - apply bind_managed_sound, Hc.
  - apply retry_managed_sound.
  - apply sound_modify. intros. by apply link_detached_inv.
  - by eapply outcome_sound, receive_managed_flit_sound.
  - by eapply outcome_sound, receive_managed_frame_sound.
  - apply on_dlp_sound, grant_control_sound, Hc.
Qed.

Inductive ep_reachable : EndpointCore → Prop :=
  | er_new address cfg s :
      u32 (ec_rx_buffer_flits cfg) → (∀ p, ec_local_context_prefix cfg = Some p → u64 p) →
      ep_new address cfg = Ok s → ep_reachable s
  | er_unconfigured suffix cfg s :
      u32 (ec_rx_buffer_flits cfg) → (∀ p, ec_local_context_prefix cfg = Some p → u64 p) →
      ep_unconfigured suffix cfg = Ok s → ep_reachable s
  | er_call s c : ep_reachable s → ep_call_ok c → ep_reachable (run_ep c s).1.

Lemma ep_reachable_inv s : ep_reachable s → ep_inv s.
Proof.
  induction 1 as [a cfg s Hb Hp Hn | sfx cfg s Hb Hp Hn | s c _ IH Hc].
  - unfold ep_new in Hn. apply bind_Ok in Hn as (cfg' & Hv & Hn). apply bind_Ok in Hn as (ll & _ & Hn).
    unfold ep_config_validate in Hv. apply bind_Ok in Hv as ([] & _ & <-%Ok_inj). by eapply ep_build_inv.
  - unfold ep_unconfigured in Hn. apply bind_Ok in Hn as (cfg' & Hv & Hn). apply bind_Ok in Hn as (ll & _ & Hn).
    unfold ep_config_validate in Hv. apply bind_Ok in Hv as ([] & _ & <-%Ok_inj). by eapply ep_build_inv.
  - by apply (run_ep_sound c Hc s IH).
Qed.
