(* ===== verification/EndpointSafety.v ===== *)
(** * Safety of the endpoint

    The theorems over all runs of an endpoint: well-formedness, absence of
    panics, the credit ceiling of managed links, and the termination of
    [DirectLink::pump]. *)
From stdpp Require Import prelude gmap.
From Stdlib Require Import ZArith Lia.
From S2P Require Import Prelude BTree Css GdpWire Gctl GtsWire GtsCodec GtsCodecSound NoPanic Reliable GtsStream Dlp EndpointCore EndpointAuth EndpointInv.
Local Open Scope Z_scope.

(** ** Two endpoints and the pump *)

Definition pair_ok (l : DirectLink) : Prop := ep_inv (end_a l) ∧ ep_inv (end_b l).

Lemma on_a_sound A (Q : A → Prop) (m : st EndpointCore A) : sound ep_inv Q m → sound pair_ok Q (on_a m).
Proof. apply sound_zoom; [by intros s [] | by intros s e [] ?]. Qed.
Lemma on_b_sound A (Q : A → Prop) (m : st EndpointCore A) : sound ep_inv Q m → sound pair_ok Q (on_b m).
Proof. apply sound_zoom; [by intros s [] | by intros s e [] ?]. Qed.

Lemma pump_side_sound (from to : ∀ A, st EndpointCore A → st DirectLink A) now :
  (∀ A (Q : A → Prop) m, sound ep_inv Q m → sound pair_ok Q (from A m)) →
  (∀ A (Q : A → Prop) m, sound ep_inv Q m → sound pair_ok Q (to A m)) →
  sound pair_ok (λ _, True) (pump_side from to now).
Proof.
  intros Hf Ht. eapply attempt_sound; [apply Hf, poll_tx_flit_sound | |].
  - intros [f |] Hok; [| by apply sound_ret].
    eapply sound_bind; [apply Ht, receive_flit_sound; by apply Hok |]. intros _ _.
    eapply (sound_bind _ (λ _, True)); [| intros; by apply sound_ret].
    destruct (is_control _); [apply Hf, on_dlp_sound, grant_control_sound; lia | by apply sound_ret].
  - intros e. destruct e; try apply sound_err. by apply sound_ret.
Qed.

(** The loop ends before its fuel does, having moved at most one flit more
    than its bound. *)
Lemma pump_loop_sound fuel now max_flits moved :
  0 ≤ moved → moved ≤ max_flits + 1 → max_flits - moved < Z.of_nat fuel → (1 ≤ fuel)%nat →
  sound pair_ok (λ n, moved ≤ n ≤ max_flits + 1) (pump_loop fuel now max_flits moved).
Proof.
  revert moved. induction fuel as [| fuel IH]; intros moved H0 H1 Hf Hone; [lia |]. cbn [pump_loop].
  eapply sound_bind; [apply sound_guard |]. intros [] Hg. cbv beta in Hg.
  eapply sound_bind; [apply pump_side_sound; [apply on_a_sound | apply on_b_sound] |]. intros p _.
  eapply sound_bind; [apply pump_side_sound; [apply on_b_sound | apply on_a_sound] |]. intros q _. cbv zeta.
  destruct (p || q) eqn:E.
  - eapply sound_mono; [apply IH | cbv beta]; destruct p, q; cbn [Z.b2z] in *; try done; lia.
  - apply sound_ret. destruct p, q; cbn [Z.b2z] in *; try done. lia.
Qed.

Lemma sound_at_get {S B} (P : S → Prop) (R : B → Prop) (f : S → st S B) s :
  sound_at P R (f s) s → sound_at P R (gets Datatypes.id ≫= f) s.
Proof. done. Qed.

Lemma direct_attach_sound l :
  pair_ok l → 0 ≤ control_window_flits (dlp (end_a l)) → 0 ≤ control_window_flits (dlp (end_b l)) →
  sound_at pair_ok (λ _, True) direct_attach l.
Proof.
  intros Hl Ha Hb. unfold direct_attach. apply sound_at_get.
  destruct (attached l); [by apply sound_ret |].
  eapply sound_at_bind; [apply on_a_sound; [apply on_dlp_sound, grant_control_sound; lia | done] |]. intros _ _.
  eapply sound_bind; [apply on_b_sound, on_dlp_sound, grant_control_sound; lia |]. intros _ _.
  eapply sound_bind; [apply on_a_sound, on_link_attached_sound |]. intros _ _.
  eapply sound_bind; [apply on_b_sound, on_link_attached_sound |]. intros _ _.
  apply sound_modify. by intros ? [].
Qed.

(** ** The sender's credit balance

    Everything an endpoint does on a received packet leaves the balance
    alone, except a GCTL CREDIT. *)
Definition balance (s : EndpointCore) : Z := data_tx_credit (dlp s).
Definition balance_is (c : Z) (s : EndpointCore) : Prop := balance s = c.

Lemma keeps_on_dlp {A} c (m : st DlpEndpoint A) :
  preserves (λ d, data_tx_credit d = c) m → preserves (balance_is c) (on_dlp m).
Proof.
  intros Hm s Hs. unfold on_dlp, zoom. specialize (Hm (dlp s) Hs). by destruct (m (dlp s)).
Qed.
Lemma keeps_on_tunnel {A} c h (m : Z → st GtsTunnel A) : preserves (balance_is c) (on_tunnel h m).
Proof. intros s Hs. unfold on_tunnel. destruct (_ !! h); [| done]. by destruct (m _ _). Qed.
Lemma keeps_on_authority {A} c (m : st AddressAuthority A) : preserves (balance_is c) (on_authority m).
Proof. intros s Hs. unfold on_authority. destruct (authority s); [| done]. by destruct (m _). Qed.
Lemma keeps_modify c f : (∀ s, dlp (f s) = dlp s) → preserves (balance_is c) (modify f).
Proof. intros Hf s Hs. unfold balance_is, balance, modify. cbn. by rewrite Hf. Qed.

Lemma balance_queue c tr vcid p : preserves (λ d, data_tx_credit d = c) (queue_packet_on tr vcid p).
Proof.
  intros d Hd. rewrite queue_packet_on_eq. destruct (lane_guards _ _ _); [| done..].
  destruct (packet_encode _ _); [| done..]. by destruct tr.
Qed.

Create HintDb keeps discriminated.
#[export] Hint Resolve keeps_on_tunnel keeps_on_authority balance_queue preserves_lift preserves_guard
  preserves_gets preserves_ret : keeps.

(** One step of a walk through a method whose every step keeps a property, for which
    [leaf] solves the calls. *)
Ltac walk_step leaf :=
  lazymatch goal with
  | |- preserves _ (_ ≫= _) => apply preserves_bind; [| intros]
  | |- preserves _ (if ?b then _ else _) => destruct b
  | |- preserves _ (match ?x with _ => _ end) => destruct x
  | |- preserves _ (let '(_, _) := ?x in _) => destruct x
  | |- _ => leaf
  end.
Ltac keep_leaf := first [apply keeps_modify; intros; done | solve [auto with keeps]].
Ltac keep_step := walk_step keep_leaf.
Ltac keep := cbv zeta; repeat (cbv beta zeta; keep_step).

Lemma keeps_send_gctl c a b m k : preserves (balance_is c) (send_gctl_from a b m k).
Proof. unfold send_gctl_from. repeat keep_step. apply keeps_on_dlp, balance_queue. Qed.
Lemma keeps_choose_vc c : preserves (λ d, data_tx_credit d = c) choose_data_vc.
Proof. by intros d Hd. Qed.
Lemma keeps_send_gts c b p prof : preserves (balance_is c) (send_gts b p prof).
Proof.
  unfold send_gts. repeat keep_step. apply keeps_on_dlp, preserves_bind; [apply keeps_choose_vc |].
  intros. apply balance_queue.
Qed.
Lemma balance_note c n : preserves (balance_is c) (on_dlp (note_data_credit_granted n)).
Proof.
  apply keeps_on_dlp. intros d Hd. unfold note_data_credit_granted, mbind, st_bind, gets, guard_st, lift, modify.
  by destruct (fail_if _ _).
Qed.
Lemma keeps_set_prefix c p : preserves (balance_is c) (on_dlp (modify (set_local_prefix p))).
Proof. apply keeps_on_dlp. by intros d Hd. Qed.
Lemma keeps_next_control c : preserves (balance_is c) next_control_transaction.
Proof. unfold next_control_transaction. keep. Qed.
#[export] Hint Resolve keeps_send_gctl keeps_send_gts balance_note keeps_set_prefix keeps_next_control : keeps.

Lemma keeps_advertise c force : preserves (balance_is c) (advertise_link_credit force).
Proof. unfold advertise_link_credit. keep. Qed.
Lemma keeps_inbox c src m : preserves (balance_is c) (push_inbox src m).
Proof. unfold push_inbox. keep. Qed.
Lemma keeps_solicit c src m : preserves (balance_is c) (handle_router_solicit src m).
Proof. unfold handle_router_solicit. keep. Qed.
Lemma keeps_claim c src m : preserves (balance_is c) (handle_address_claim src m).
Proof. unfold handle_address_claim. keep. Qed.
#[export] Hint Resolve keeps_advertise keeps_inbox keeps_solicit keeps_claim : keeps.

Lemma keeps_handlers c src m :
  preserves (balance_is c) (handle_credit_request src m) ∧ preserves (balance_is c) (handle_advertise src m) ∧
  preserves (balance_is c) (handle_address_offer src m) ∧ preserves (balance_is c) (handle_address_ack m) ∧
  preserves (balance_is c) (handle_address_nak m).
Proof.
  unfold handle_credit_request, handle_advertise, handle_address_offer, handle_address_ack, handle_address_nak.
  split_and!; keep.
Qed.

(** What a received GCTL packet does to the balance. *)
Definition balance_after (payload : list Z) (before after : Z) : Prop :=
  after = before ∨
  ∃ m n, gctl_decode payload = Ok m ∧ gm_type m = Gctl.Credit ∧ parse_credit m = Ok n ∧
         after = saturating_add 32 before n.

Lemma handle_gctl_balance src p s :
  balance_after (pkt_payload p) (balance s) (balance (handle_gctl src p s).1).
Proof.
  assert (Hk : ∀ k : st EndpointCore unit, preserves (balance_is (balance s)) k →
    balance_after (pkt_payload p) (balance s) (balance (k s).1)).
  { intros k Hk. left. by apply Hk. }
  destruct (gctl_decode (pkt_payload p)) as [m | |] eqn:Em;
    [| left; unfold handle_gctl, mbind, st_bind, lift; by rewrite Em..].
  unfold handle_gctl. rewrite (st_bind_Ok_l _ _ s s m) by (unfold lift; by rewrite Em).
  destruct (keeps_handlers (balance s) src m) as (H1 & H2 & H3 & H4 & H5).
  destruct (gm_type m) eqn:Et; try (apply Hk; solve [auto with keeps | keep]).
  unfold handle_credit, mbind, st_bind, lift.
  destruct (parse_credit m) as [n | |] eqn:En; [right; by exists m, n | by left..].
Qed.

Lemma keeps_gts c src p : preserves (balance_is c) (handle_gts src p).
Proof.
  assert (Hp : ∀ sc g, preserves (balance_is c) (handle_gts_packet src sc g)).
  { intros sc g. destruct g; cbn [handle_gts_packet];
      unfold handle_connect, handle_connect_ack, handle_stream_open, handle_stream_ack, handle_data,
        handle_stream_close, handle_tunnel_close, alloc_tunnel; keep. }
  unfold handle_gts. repeat keep_step.
Qed.

Lemma handle_gdp_eq p now s :
  handle_gdp p now s =
    let h := pkt_header p in
    let s1 := set_form s (Some (addr_form (hdr_addresses h))) in
    if negb (accepts_destination s (hdr_destination h)) then (s, Err InvalidField)
    else match hdr_packet_type h with
         | GdpWire.Gctl => handle_gctl (hdr_source h) p s1
         | GdpWire.Gts => if hdr_destination h =? BOOTSTRAP_ADDRESS then (s1, Err InvalidField)
                          else handle_gts (hdr_source h) p s1
         | Reserved _ => (s1, Err Unsupported)
         end.
Proof.
  unfold handle_gdp. cbv zeta. rewrite (st_bind_Ok_l _ _ s s s) by done.
  destruct (negb _); [done |]. rewrite (st_bind_Ok_l _ _ s s tt) by done.
  erewrite st_bind_Ok_l by done. destruct (hdr_packet_type _); [done | | done]. by destruct (_ =? _).
Qed.

Lemma handle_gdp_balance p now s :
  balance (handle_gdp p now s).1 = balance s ∨
  (hdr_packet_type (pkt_header p) = GdpWire.Gctl ∧
   balance_after (pkt_payload p) (balance s) (balance (handle_gdp p now s).1)).
Proof.
  rewrite handle_gdp_eq. cbv zeta. destruct (negb _); [by left |].
  set (s1 := set_form s _). change (balance s) with (balance s1).
  destruct (hdr_packet_type _) eqn:Et; [right; split; [done | apply handle_gctl_balance] | | by left].
  left. destruct (_ =? _); [done |]. by apply keeps_gts.
Qed.

(** A packet the managed check lets through does not lift the balance over
    the limit. *)
Lemma handle_managed_ceiling p now limit s :
  balance s ≤ limit → limit < 2 ^ 32 → balance (handle_managed p now limit s).1 ≤ limit.
Proof.
  intros Hs Hl. unfold handle_managed. rewrite (st_bind_Ok_l _ _ s s s) by done.
  destruct (validate_managed_credit_grant s p limit) as [[] | |] eqn:Ev;
    [| unfold mbind, st_bind, lift; done..].
  rewrite (st_bind_Ok_l _ _ s s tt) by done.
  assert (Hg : balance (handle_gdp p now s).1 ≤ limit).
  { destruct (handle_gdp_balance p now s) as [-> | [Ht [-> | (m & n & Hm & Hc & Hn & ->)]]]; [done.. |].
    unfold validate_managed_credit_grant in Ev. rewrite Ht, bool_decide_eq_true_2 in Ev by done. cbn [negb] in Ev.
    rewrite Hm, bind_Ok_l, bool_decide_eq_true_2 in Ev by done. cbn [negb] in Ev. rewrite Hn, bind_Ok_l in Ev.
    apply bind_Ok in Ev as ([] & Hz & [Hr _]%fail_if_Ok). unfold balance in *. unfold saturating_sub in Hr. ulia. }
  unfold mbind, st_bind. destruct (handle_gdp p now s) as [s1 [[] | |]]; [| done..]. cbn [fst] in Hg.
  destruct (advertise_link_credit false s1) as [s2 r] eqn:Ea.
  assert (H2 : balance s2 = balance s1) by (pose proof (keeps_advertise (balance s1) false s1 eq_refl) as H; by rewrite Ea in H).
  destruct r; cbn; lia.
Qed.

Lemma receive_keeps_credit f d :
  dlp_inv d → flit_ok f → data_tx_credit (receive f d).1 = data_tx_credit d.
Proof.
  intros Hd Hf. destruct (slot_exists d f Hd Hf) as (slot & b & Hslot & Hb & Hok).
  rewrite (receive_cases d f slot b) by (done || apply Hf).
  destruct (negb _); [done |]. destruct (_ <=? _); [done |]. destruct b; [done |].
  destruct (_ && _); [done |]. unfold accept_flit, charge. cbv zeta.
  destruct (is_data (fl_vcid f)); (destruct (_ <? _); [done |]); by destruct (packet_decode _ _ _).
Qed.

Lemma receive_frame_keeps_credit fr d :
  dlp_inv d → frame_ok fr → data_tx_credit (receive_frame fr d).1 = data_tx_credit d.
Proof.
  intros Hd (Hv & Hl & _). rewrite receive_frame_eq by (done || lia).
  destruct (lane_guards _ _ _); [| done..]. cbv zeta. destruct (bool_decide _); [| done]. by destruct (_ <? _).
Qed.

Lemma receive_managed_flit_ceiling f now limit s :
  ep_inv s → flit_ok f → balance s ≤ limit → limit < 2 ^ 32 → balance (receive_managed_flit f now limit s).1 ≤ limit.
Proof.
  intros Hs Hf Hb Hl. unfold receive_managed_flit, mbind, st_bind, on_dlp, zoom.
  pose proof (receive_keeps_credit f (dlp s) (ei_dlp _ Hs) Hf) as Hk. unfold balance in *.
  destruct (receive f (dlp s)) as [d [[p |] | |]]; cbn [fst] in Hk; try (cbn; lia).
  apply handle_managed_ceiling; [unfold balance; cbn; lia | lia].
Qed.

Lemma receive_managed_frame_ceiling fr now limit s :
  ep_inv s → frame_ok fr → balance s ≤ limit → limit < 2 ^ 32 → balance (receive_managed_frame fr now limit s).1 ≤ limit.
Proof.
  intros Hs Hf Hb Hl. unfold receive_managed_frame, mbind, st_bind, on_dlp, zoom.
  pose proof (receive_frame_keeps_credit fr (dlp s) (ei_dlp _ Hs) Hf) as Hk. unfold balance in *.
  destruct (receive_frame fr (dlp s)) as [d [p | |]]; cbn [fst] in Hk; try (cbn; lia).
  apply handle_managed_ceiling; [unfold balance; cbn; lia | lia].
Qed.

(** ** An authority outside the range *)

Lemma solicit_panics src tid config s :
  aa_prefix_len config ≤ 0 ∨ 64 < aa_prefix_len config →
  (handle_router_solicit src (solicit tid ServiceType_ROUTER Link) (enable_address_authority config s)).2 = Panic.
Proof.
  intros Hl. unfold handle_router_solicit.
  rewrite (st_bind_Ok_l _ _ _ (enable_address_authority config s) (mkSolicit ServiceType_ROUTER Link)) by reflexivity.
  change (negb (so_service_type (mkSolicit ServiceType_ROUTER Link) =? ServiceType_ROUTER)) with false. cbn iota.
  rewrite (st_bind_Ok_l _ _ _ (enable_address_authority config s) (enable_address_authority config s)) by reflexivity.
  cbn [enable_address_authority set_authority authority primary_address].
  set (s1 := set_authority s (Some (authority_new config))).
  assert (Hm : (on_authority (make_offer src (primary_address s) tid) s1).2 = Panic).
  { pose proof (allocate_candidate_panics (primary_address s) config Hl) as Hp.
    unfold on_authority. cbn [s1 set_authority authority].
    assert (Ho : (make_offer src (primary_address s) tid (authority_new config)).2 = Panic).
    { unfold make_offer, mbind, st_bind. destruct (allocate_candidate _ _) as [a r]. cbn in Hp. by subst r. }
    destruct (make_offer _ _ _ _) as [a r]. exact Ho. }
  change (gm_transaction_id (solicit tid ServiceType_ROUTER Link)) with tid.
  change (enable_address_authority config s) with s1. unfold mbind, st_bind.
  destruct (on_authority _ s1) as [s2 r]. cbn in Hm. by subst r.
Qed.

(** ** Theorems *)

(** C18: no call on an endpoint panics: whatever sequence of calls, flits and
    frames led to the state, every operation (receiving arbitrary flits and
    frames included) returns a value or an error. One argument is restricted: an
    address authority is enabled with a prefix length from 1 to 64, as
    [AddressAuthorityConfig::new] ensures but its public fields do not; with
    any other length the next SOLICIT does panic, as the second part says. *)
Theorem endpoint_never_panics s c :
  ep_reachable s → ep_call_ok c →
  (run_ep c s).2 ≠ Panic ∧
  ∀ config src tid, aa_prefix_len config ≤ 0 ∨ 64 < aa_prefix_len config →
    (handle_router_solicit src (solicit tid ServiceType_ROUTER Link) (enable_address_authority config s)).2 = Panic.
Proof.
  intros Hs%ep_reachable_inv Hc. split; [apply res_sat_no_panic; by apply (run_ep_sound c Hc s Hs) |].
  intros config src tid Hl. by apply solicit_panics.
Qed.

(** C19: the state of every reachable endpoint is well formed: link credit
    never exceeds the receive buffer, every tunnel is filed under its own
    receive id and has its stream 0, an established tunnel knows its peer, and
    every stream is filed under its own id, has a valid profile, and has a
    reliable window exactly when the profile is reliable; an address offer the
    endpoint is claiming lies in the network it names; and an authority with
    a configuration that [AddressAuthorityConfig::new] makes has every promised and
    leased address in its pool, none promised twice and none promised that is
    leased. *)
Theorem endpoint_well_formed s :
  ep_reachable s →
  data_credit_outstanding (dlp s) + data_rx_in_use (dlp s) ≤ rx_buffer_flits (dlp s) ∧
  (∀ h r, tunnels s !! h = Some r →
    local_receive_id (tunnel r) = h ∧ is_Some (streams (tunnel r) !! 0) ∧
    (tstate (tunnel r) = Established → is_Some (remote_receive_id (tunnel r)) ∧ is_Some (remote_reset_id (tunnel r))) ∧
    ∀ sid x, streams (tunnel r) !! sid = Some x →
      id x = sid ∧ sp_validate (profile x) = Ok (profile x) ∧
      (is_Some (reliable_tx x) ↔ sp_unreliable (profile x) = false) ∧
      (is_Some (reliable_rx x) ↔ sp_unreliable (profile x) = false)) ∧
  (∀ p, pending_client_offer s = Some p →
    address_matches_prefix (of_candidate (pc_offer p)) (of_prefix (pc_offer p)) (of_prefix_len (pc_offer p)) = Ok true) ∧
  (∀ a, authority s = Some a → auth_config_ok (au_config a) →
    (∀ tid p, au_pending a !! tid = Some p → in_pool (au_config a) (po_candidate p) ∧ leases a !! po_candidate p = None) ∧
    (∀ t1 t2 p1 p2, au_pending a !! t1 = Some p1 → au_pending a !! t2 = Some p2 →
       po_candidate p1 = po_candidate p2 → t1 = t2) ∧
    (∀ address client, leases a !! address = Some client → in_pool (au_config a) address)).
Proof.
  intros [Hd Ht Ha Ho]%ep_reachable_inv. split; [apply Hd |]. split; [| split].
  - intros h r Hr. destruct (Ht _ _ Hr) as [Hi Hz Hrem Hstr]. do 3 (split; [done |]). intros sid x Hx.
    by destruct (Hstr _ _ Hx).
  - intros p Hp. by destruct (Ho p Hp) as [[_ Hm] _].
  - intros a Ea Hc. destruct (as_wf _ (Ha a Ea) Hc) as [_ _ Hp Hl Hu Hf]. split; [| split; [exact Hu | exact Hl]].
    intros tid p Et. split; [by eapply Hp | by eapply Hf].
Qed.

(** C20: the credit ceiling of a managed link: receiving any flit or frame
    through the managed entry points never lifts the sender's credit balance
    over the negotiated limit, however many CREDIT messages the peer sends. *)
Theorem managed_credit_ceiling s now limit f fr :
  ep_reachable s → 0 ≤ limit < 2 ^ 32 → data_tx_credit (dlp s) ≤ limit → flit_ok f → frame_ok fr →
  data_tx_credit (dlp (receive_managed_flit f now limit s).1) ≤ limit ∧
  data_tx_credit (dlp (receive_managed_frame fr now limit s).1) ≤ limit.
Proof.
  intros Hs%ep_reachable_inv [_ Hl] Hb Hf Hfr.
  split; [by apply receive_managed_flit_ceiling | by apply receive_managed_frame_ceiling].
Qed.

(** C21: [DirectLink::pump] terminates: between endpoints reached by any calls
    it returns within its flit bound, without a panic, having moved at most
    one flit more than the bound, and leaves both ends well formed. *)
Theorem pump_terminates l now max_flits :
  ep_reachable (end_a l) → ep_reachable (end_b l) →
  u32 (control_window_flits (dlp (end_a l))) → u32 (control_window_flits (dlp (end_b l))) → 0 ≤ max_flits →
  match pump now max_flits l with
  | (l', Ok n) => 0 ≤ n ≤ max_flits + 1 ∧ pair_ok l'
  | (l', Err _) => pair_ok l'
  | (_, Panic) => False
  end.
Proof.
  intros Ha%ep_reachable_inv Hb%ep_reachable_inv [Hwa _] [Hwb _] Hm.
  assert (H : sound_at pair_ok (λ n, 0 ≤ n ≤ max_flits + 1) (pump now max_flits) l).
  { eapply sound_at_bind; [by apply direct_attach_sound |]. intros _ _. apply pump_loop_sound; lia. }
  destruct H as [H1 H2]. by destruct (pump now max_flits l) as [l' [n | |]].
Qed.

(** ** Witnesses *)

Definition sample_cfg : EndpointConfig := ep_config_new 64.
Definition sample_css : ServiceSelector := mkSelector (replicate 16 9).

(** An endpoint with a tunnel it has opened. *)
Definition sample_core : res EndpointCore :=
  s ← ep_new 0x0102030400000001 sample_cfg;
  Ok (run_ep (CConnect 0x0102030400000002 sample_css sample_profile) s).1.

Lemma sample_core_reachable s : sample_core = Ok s → ep_reachable s.
Proof.
  intros (s0 & H0 & <-%Ok_inj)%bind_Ok. apply er_call.
  - apply (er_new 0x0102030400000001 sample_cfg); [cbn; ulia | done | done].
  - split; [done | repeat constructor; ulia].
Qed.

Lemma sample_core_Ok : is_ok sample_core = true.
Proof. vm_compute. done. Qed.

Lemma endpoint_never_panics_witness :
  match sample_core with Ok s => (run_ep (CReceiveFlit (mkFlit 1 0xffffffff) 0) s).2 ≠ Panic | _ => False end.
Proof.
  pose proof sample_core_Ok as H. destruct sample_core as [s | |] eqn:E; [| done..].
  apply (endpoint_never_panics s (CReceiveFlit (mkFlit 1 0xffffffff) 0)); [by apply sample_core_reachable |].
  cbn. unfold flit_ok. cbn. lia.
Defined.

Lemma endpoint_well_formed_witness :
  match sample_core with
  | Ok s => data_credit_outstanding (dlp s) + data_rx_in_use (dlp s) ≤ rx_buffer_flits (dlp s) ∧
            is_Some (tunnels s !! 1) ∧ ∀ r, tunnels s !! 1 = Some r → is_Some (streams (tunnel r) !! 0)
  | _ => False
  end.
Proof.
  pose proof sample_core_Ok as H.
  assert (Ht : match sample_core with Ok s => is_Some (tunnels s !! 1) | _ => False end)
    by (vm_compute; eauto).
  destruct sample_core as [s | |] eqn:E; [| done..].
  destruct (endpoint_well_formed s) as (Hb & Htun & _); [by apply sample_core_reachable |].
  split; [exact Hb |]. split; [done |]. intros r Hr. by destruct (Htun 1 r Hr) as (_ & H0 & _).
Defined.

Lemma managed_credit_ceiling_witness :
  match sample_core with
  | Ok s => data_tx_credit (dlp (receive_managed_flit (mkFlit 0 7) 0 100 s).1) ≤ 100 ∧
            data_tx_credit (dlp (receive_managed_frame (mkFrame 0 TControl [1; 2]) 0 100 s).1) ≤ 100
  | _ => False
  end.
Proof.
  pose proof sample_core_Ok as H.
  assert (Hc : match sample_core with Ok s => data_tx_credit (dlp s) =? 0 | _ => false end = true)
    by (vm_compute; done).
  destruct sample_core as [s | |] eqn:E; [| done..].
  apply (managed_credit_ceiling s 0 100 (mkFlit 0 7) (mkFrame 0 TControl [1; 2])); [by apply sample_core_reachable | lia.. | |].
  - unfold flit_ok. cbn. lia.
  - split; [cbn; lia |]. split; [vm_compute; done | repeat constructor; ulia].
Defined.

Lemma pump_terminates_witness :
  match ep_new 0x0102030400000001 sample_cfg, ep_new 0x0102030400000002 sample_cfg with
  | Ok a, Ok b =>
      match pump 0 100 (mkDirect false a b) with
      | (l', Ok n) => 0 ≤ n ≤ 101 ∧ pair_ok l'
      | (l', Err _) => pair_ok l'
      | (_, Panic) => False
      end
  | _, _ => False
  end.
Proof.
  assert (Hw : ∀ x, match ep_new x sample_cfg with
    | Ok s => u32 (control_window_flits (dlp s)) | Err _ => True | Panic => True end).
  { intros x. destruct (ep_new x sample_cfg) as [s | |] eqn:E; [| done..].
    unfold ep_new in E. apply bind_Ok in E as (c & Hc & E). apply Ok_inj in Hc. subst c.
    apply bind_Ok in E as (ll & _ & E). apply Ok_inj in E. subst s. cbn. ulia. }
  pose proof (Hw 0x0102030400000001) as Ha. pose proof (Hw 0x0102030400000002) as Hb. clear Hw.
  destruct (ep_new 0x0102030400000001 sample_cfg) as [a | |] eqn:Ea; [| vm_compute in Ea; discriminate Ea..].
  destruct (ep_new 0x0102030400000002 sample_cfg) as [b | |] eqn:Eb; [| vm_compute in Eb; discriminate Eb..].
  apply (pump_terminates (mkDirect false a b) 0 100); [| | exact Ha | exact Hb | lia].
  - apply (er_new 0x0102030400000001 sample_cfg); [cbn; ulia | done | done].
  - apply (er_new 0x0102030400000002 sample_cfg); [cbn; ulia | done | done].
Defined.
