(* ===== verification/EndpointLease.v ===== *)
(** * Leases of the address authority (src/src/endpoint/core.rs)

    Every call on an endpoint does to its address authority what the steps of
    EndpointAuth allow. An address is leased to nobody but the client it was
    offered to, whatever packets arrive and whatever calls are made. *)
From stdpp Require Import prelude gmap.
From Stdlib Require Import ZArith Lia.
From S2P Require Import Prelude BTree Css GdpWire Gctl GtsWire GtsCodec GtsStream Dlp EndpointCore EndpointAuth EndpointInv EndpointSafety.
Local Open Scope Z_scope.

(** ** What a call does to the authority *)

Section runs.
Context (a0 : AddressAuthority) (Ha0 : authority_wf a0).

(** The endpoint has an authority that steps lead to from [a0]. *)
Definition leads_from (s : EndpointCore) : Prop := ∃ a, authority s = Some a ∧ rtc lease_step a0 a.

Lemma leads_modify f : (∀ s, authority (f s) = authority s) → preserves leads_from (modify f).
Proof. intros Hf s (a & Ha & Hr). exists a. split; [by rewrite <- Ha; apply Hf | done]. Qed.
Lemma leads_on_dlp {A} (m : st DlpEndpoint A) : preserves leads_from (on_dlp m).
Proof. intros s Hs. unfold on_dlp, zoom. by destruct (m (dlp s)). Qed.
Lemma leads_on_tunnel {A} h (m : Z → st GtsTunnel A) : preserves leads_from (on_tunnel h m).
Proof. intros s Hs. unfold on_tunnel. destruct (_ !! h); [| done]. by destruct (m _ _). Qed.
Lemma leads_attempt {A B} (m : st EndpointCore A) (k : res A → st EndpointCore B) :
  preserves leads_from m → (∀ r, preserves leads_from (k r)) → preserves leads_from (attempt m k).
Proof.
  intros Hm Hk s Hs. specialize (Hm s Hs). unfold attempt. destruct (m s) as [s' [x | e |]]; [by apply Hk.. | done].
Qed.

(** The state that is read is the one the rest starts from. *)
Lemma leads_get {B} (f : EndpointCore → st EndpointCore B) :
  (∀ s, leads_from s → leads_from (f s s).1) → preserves leads_from (gets Datatypes.id ≫= f).
Proof. intros Hf s Hs. by apply Hf. Qed.

(** An operation on the authority that makes steps where it is called *)
Lemma leads_on_authority {A} (m : st AddressAuthority A) s :
  leads_from s → (∀ a, authority s = Some a → authority_wf a → rtc lease_step a (m a).1) →
  leads_from (on_authority m s).1.
Proof.
  intros (a & Ea & Hr) Hm. unfold on_authority. rewrite Ea. specialize (Hm a Ea (lease_run_wf _ _ Hr Ha0)).
  destruct (m a) as [a' r]. exists a'. split; [done |]. by etrans.
Qed.
End runs.

Create HintDb leads discriminated.
#[export] Hint Resolve leads_on_dlp leads_on_tunnel leads_attempt preserves_lift preserves_guard
  preserves_gets preserves_ret : leads.

Ltac lead_leaf := first [apply leads_modify; intros; done | solve [auto with leads]].
Ltac lead := cbv zeta; repeat (cbv beta zeta; walk_step lead_leaf).

Section calls.
Context (a0 : AddressAuthority) (Ha0 : authority_wf a0).
Local Notation keep m := (preserves (leads_from a0) m).

Lemma leads_send_gctl x y m k : keep (send_gctl_from x y m k).
Proof. unfold send_gctl_from. lead. Qed.
Lemma leads_send_gts r p prof : keep (send_gts r p prof).
Proof. unfold send_gts. lead. Qed.
Lemma leads_next_control : keep next_control_transaction.
Proof. unfold next_control_transaction. lead. Qed.
Lemma leads_inbox src m : keep (push_inbox src m).
Proof. unfold push_inbox. lead. Qed.
Lemma leads_alloc_tunnel : keep alloc_tunnel.
Proof. unfold alloc_tunnel. lead. Qed.
#[local] Hint Resolve leads_send_gctl leads_send_gts leads_next_control leads_inbox leads_alloc_tunnel : leads.

Lemma leads_advertise force : keep (advertise_link_credit force).
Proof. unfold advertise_link_credit. lead. Qed.
Lemma leads_maybe_request : keep maybe_request_link_credit.
Proof. unfold maybe_request_link_credit. lead. Qed.
#[local] Hint Resolve leads_advertise leads_maybe_request : leads.
Lemma leads_attached p : keep (on_link_attached p).
Proof. unfold on_link_attached. lead. Qed.
#[local] Hint Resolve leads_attached : leads.

(** *** The handlers *)

(** A SOLICIT promises an address. *)
Lemma leads_solicit src m : keep (handle_router_solicit src m).
Proof.
  unfold handle_router_solicit. apply preserves_bind; [auto with leads |]. intros b.
  destruct (negb _); [auto with leads |]. apply leads_get. intros s Hs.
  destruct (authority s) as [a |] eqn:Ea; [| done].
  assert (Hm : leads_from a0 (on_authority (make_offer src (primary_address s) (gm_transaction_id m)) s).1).
  { apply leads_on_authority; [done.. |]. intros a' _ Hwf. by apply make_offer_run. }
  assert (Hk : ∀ x : AdvertiseBody * AddressOfferBody, keep (let '(adv, offer) := x in
    send_gctl_from (link_local_address s) src (advertise (gm_transaction_id m) adv) None;;
    o ← lift (address_offer (gm_transaction_id m) offer);
    send_gctl_from (link_local_address s) src o None;;
    mret true)) by (intros []; lead).
  cbv [mbind st_bind]. destruct (on_authority _ s) as [s' [x | e |]]; [| done..]. by apply (Hk x).
Qed.

(** A CLAIM turns the promise it names into a lease of the client that got it. *)
Lemma leads_claim src m : keep (handle_address_claim src m).
Proof.
  unfold handle_address_claim. apply preserves_bind; [auto with leads |]. intros c.
  apply leads_get. intros s Hs. cbv zeta. destruct (authority s) as [a |] eqn:Ea; [| done].
  destruct (claim_valid _ _ _ _) eqn:Ev.
  - assert (Hm : leads_from a0 (on_authority (settle_claim (gm_transaction_id m) src) s).1).
    { apply leads_on_authority; [done.. |]. intros a' Ea' _. rewrite Ea in Ea'. injection Ea' as <-.
      by eapply settle_claim_run. }
    assert (Hk : ∀ ack, keep (send_gctl_from (link_local_address s) src (address_ack (gm_transaction_id m) ack) None;; mret true))
      by (intros ack; lead).
    cbv [mbind st_bind]. destruct (on_authority _ s) as [s' [x | e |]]; [| done..]. by apply (Hk x).
  - assert (Hk : keep (send_gctl_from (link_local_address s) src
      (address_nak (gm_transaction_id m) (mkAddressNak (cl_candidate c) 1 1)) None;; mret true)) by lead.
    by apply Hk.
Qed.
#[local] Hint Resolve leads_solicit leads_claim : leads.

Lemma leads_gctl src p : keep (handle_gctl src p).
Proof.
  unfold handle_gctl. apply preserves_bind; [auto with leads |]. intros m. destruct (gm_type m);
    unfold handle_credit_request, handle_credit, handle_advertise, handle_address_offer, handle_address_ack, handle_address_nak; lead.
Qed.
Lemma leads_gts src p : keep (handle_gts src p).
Proof.
  assert (Hp : ∀ sc g, keep (handle_gts_packet src sc g)).
  { intros sc g. destruct g; cbn [handle_gts_packet];
      unfold handle_connect, handle_connect_ack, handle_stream_open, handle_stream_ack, handle_data,
        handle_stream_close, handle_tunnel_close; lead. }
  unfold handle_gts. repeat walk_step lead_leaf.
Qed.
#[local] Hint Resolve leads_gctl leads_gts : leads.

Lemma leads_gdp p now : keep (handle_gdp p now).
Proof. unfold handle_gdp. lead. Qed.
Lemma leads_managed p now limit : keep (handle_managed p now limit).
Proof. pose proof leads_gdp. unfold handle_managed. lead. Qed.
#[local] Hint Resolve leads_gdp leads_managed : leads.

Lemma leads_tick_tunnels now hs : keep (tick_tunnels now hs).
Proof. induction hs; cbn [tick_tunnels]; lead. Qed.
Lemma leads_send_pending l : keep (send_pending l).
Proof. induction l as [| [[]]]; cbn [send_pending]; lead. Qed.
#[local] Hint Resolve leads_tick_tunnels leads_send_pending : leads.

(** Any call but one that installs another authority *)
Definition keeps_authority (c : ep_call) : Prop := match c with CEnableAuthority _ => False | _ => True end.

Lemma leads_run c : keeps_authority c → keep (run_ep c).
Proof.
  intros Hc. destruct c; try done; cbn [run_ep]; unfold outcome, pure_call, solicit_router, send_echo, send_gctl, ep_connect,
    ep_open_stream, send_inner, ep_recv, ep_reset_stream, ep_close_stream, ep_close_tunnel, ep_reset_tunnel, poll_tx_flit,
    ep_poll_tx_frame, receive_flit, ep_receive_frame, ep_tick, link_attached, bind_managed_link_peer,
    retry_managed_link_credit_request, receive_managed_flit, receive_managed_frame; lead.
  - apply leads_modify. intros s. unfold accept. by destruct (accepted s).
  - apply leads_modify. intros s. unfold take_gctl. by destruct (gctl_inbox s).
  - apply leads_attempt; [auto with leads | intros r; destruct (is_ok r); lead].
Qed.
End calls.

(** A claim that names no open offer made to its source leaves the authority as it is. *)
Lemma claim_refused src m claim a s :
  authority s = Some a → parse_address_claim m = Ok claim →
  au_pending a !! gm_transaction_id m ≠ Some (mkPendingAuth src (cl_candidate claim)) →
  authority (handle_address_claim src m s).1 = Some a.
Proof.
  intros Ea Hm Hp. unfold handle_address_claim. rewrite (st_bind_Ok_l _ _ s s claim) by (unfold lift; by rewrite Hm).
  rewrite (st_bind_Ok_l _ _ s s s) by done. cbv zeta. rewrite Ea. unfold claim_valid.
  assert (Hk : preserves (λ s, authority s = Some a) (send_gctl_from (link_local_address s) src
    (address_nak (gm_transaction_id m) (mkAddressNak (cl_candidate claim) 1 1)) None;; mret true)).
  { assert (Hd : ∀ A (m : st DlpEndpoint A), preserves (λ s, authority s = Some a) (on_dlp m)).
    { intros A m' s' Hs'. unfold on_dlp, zoom. by destruct (m' (dlp s')). }
    unfold send_gctl_from. repeat walk_step ltac:(first [apply Hd | solve [auto with preserves]]). }
  destruct (au_pending a !! gm_transaction_id m) as [[cl ca] |]; [| by apply Hk].
  destruct (_ && _) eqn:E; [| by apply Hk]. exfalso. apply Hp.
  cbn [po_client po_candidate] in E. apply andb_true_iff in E as [->%Z.eqb_eq ->%Z.eqb_eq]. done.
Qed.

(** The calls between two states *)
Definition endpoint_call (s s' : EndpointCore) : Prop :=
  ∃ c, ep_call_ok c ∧ keeps_authority c ∧ s' = (run_ep c s).1.

Lemma calls_lead a s s' : authority_wf a → rtc endpoint_call s s' → leads_from a s → leads_from a s'.
Proof.
  intros Ha. induction 1 as [| s1 s2 s3 (c & _ & Hc & ->) _ IH]; [done |]. intros Hs. apply IH. by apply leads_run.
Qed.

(** C22: address exclusivity: an endpoint with an authority whose configuration
    [AddressAuthorityConfig::new] makes, and any calls and any received flits and
    frames after it was set up, other than the installation of another authority: no
    address is promised in two open transactions, no promised address is
    leased, every one lies in the pool; a lease once granted stays with its
    client, and a new lease belongs to the client to which the address had been
    promised; a claim by another client, or for another address than the one
    promised in its transaction, changes nothing. *)
Theorem address_leases_exclusive s s' a :
  ep_reachable s → authority s = Some a → auth_config_ok (au_config a) → rtc endpoint_call s s' →
  ∃ a', authority s' = Some a' ∧
    (∀ t1 t2 p1 p2, au_pending a' !! t1 = Some p1 → au_pending a' !! t2 = Some p2 →
       po_candidate p1 = po_candidate p2 → t1 = t2) ∧
    (∀ t p, au_pending a' !! t = Some p →
       leases a' !! po_candidate p = None ∧ in_pool (au_config a') (po_candidate p)) ∧
    (∀ address client, leases a !! address = Some client → leases a' !! address = Some client) ∧
    (∀ address client, leases a' !! address = Some client → in_pool (au_config a') address ∧
       (leases a !! address = Some client ∨
        ∃ b tid, rtc lease_step a b ∧ rtc lease_step b a' ∧ au_pending b !! tid = Some (mkPendingAuth client address))) ∧
    (∀ src m claim, parse_address_claim m = Ok claim →
       au_pending a' !! gm_transaction_id m ≠ Some (mkPendingAuth src (cl_candidate claim)) →
       authority (handle_address_claim src m s').1 = Some a').
Proof.
  intros Hs Ea Hc Hrun. assert (Ha : authority_wf a).
  { apply (as_wf a); [| done]. by apply (ei_authority s (ep_reachable_inv s Hs)). }
  destruct (calls_lead a s s' Ha Hrun) as (a' & Ea' & Hr); [by exists a |]. exists a'. split; [done |].
  pose proof (lease_run_wf _ _ Hr Ha) as [_ _ Hp Hl Hu Hf].
  split; [done |]. split; [by eauto |]. split; [intros address client; by apply lease_run_leases |]. split.
  - intros address client Hx. split; [by eapply Hl | by apply lease_run_promised].
  - intros src m claim Hm Hn. by eapply claim_refused.
Qed.

(** Node 9 asks an endpoint with an authority for an address and claims it; a claim
    of node 10 follows. *)
Definition control_frame (src : Z) (m : GctlMessage) : GnetFrame :=
  match encode_exact m 32 with
  | Ok payload =>
      match packet_encode (mkPacket (header_global GdpWire.Gctl Ctrl32 64 src BOOTSTRAP_ADDRESS) payload) GdpWireConfig_default with
      | Ok bs => mkFrame 0 TControl bs
      | _ => mkFrame 0 TControl []
      end
  | _ => mkFrame 0 TControl []
  end.
Definition lease_calls : list ep_call := Eval vm_compute in
  [CReceiveGnetFrame (control_frame 9 (solicit 7 ServiceType_ROUTER Link)) 0;
   CReceiveGnetFrame (control_frame 9 (address_claim 7 (mkAddressClaim 0x0102030400000002 1))) 0;
   CReceiveGnetFrame (control_frame 10 (address_claim 7 (mkAddressClaim 0x0102030400000002 1))) 0].
Definition run_calls (cs : list ep_call) (s : EndpointCore) : EndpointCore := fold_left (λ s c, (run_ep c s).1) cs s.
Definition authority_core : res EndpointCore :=
  s ← ep_new 0x0102030400000001 sample_cfg;
  Ok (run_calls [CEnableAuthority sample_auth_config; CLinkAttached 9 32] s).

Lemma run_calls_reachable cs s : Forall ep_call_ok cs → ep_reachable s → ep_reachable (run_calls cs s).
Proof. intros Hc. revert s. induction Hc as [| c cs Hc _ IH]; intros s Hs; [done |]. apply IH. by apply er_call. Qed.
Lemma run_calls_history cs s : Forall (λ c, ep_call_ok c ∧ keeps_authority c) cs → rtc endpoint_call s (run_calls cs s).
Proof.
  intros Hc. revert s. induction Hc as [| c cs [Hc Hk] _ IH]; intros s; [done |]. eapply rtc_l; [| apply IH]. by exists c.
Qed.

Lemma authority_core_reachable s : authority_core = Ok s → ep_reachable s.
Proof.
  intros (s0 & H0 & <-%Ok_inj)%bind_Ok. apply run_calls_reachable.
  - repeat constructor; cbn; ulia.
  - apply (er_new 0x0102030400000001 sample_cfg); [cbn; ulia | done | done].
Qed.

Lemma address_leases_exclusive_witness :
  match authority_core with
  | Ok s => ∃ a', authority (run_calls lease_calls s) = Some a' ∧ leases a' !! 0x0102030400000002 = Some 9 ∧
      ∃ b tid, au_pending b !! tid = Some (mkPendingAuth 9 0x0102030400000002)
  | _ => False
  end.
Proof.
  assert (Hk : match authority_core with
    | Ok s => match authority s with Some a => a = authority_new sample_auth_config | None => False end ∧
        match authority (run_calls lease_calls s) with Some a => leases a !! 0x0102030400000002 = Some 9 | None => False end
    | _ => False end) by (vm_compute; done).
  destruct authority_core as [s | |] eqn:E; [| done..]. destruct Hk as [Ha Hl].
  destruct (authority s) as [a |] eqn:Ea; [subst a | destruct Ha].
  destruct (address_leases_exclusive s (run_calls lease_calls s) (authority_new sample_auth_config))
    as (a' & Ea' & _ & _ & _ & Hnew & _).
  - by apply authority_core_reachable.
  - done.
  - apply sample_auth_config_ok.
  - apply run_calls_history. repeat apply Forall_cons_2; [.. | apply Forall_nil_2]; (split; [| done]);
      unfold ep_call_ok, frame_ok; (split; [cbn; lia |]); (split; [reflexivity |]);
      apply (bool_decide_unpack (bytes _)); vm_compute; exact I.
  - exists a'. split; [done |]. rewrite Ea' in Hl. split; [done |].
    destruct (Hnew _ _ Hl) as [_ [H | (b & tid & _ & _ & H)]]; [discriminate H | by exists b, tid].
Defined.
