(* ===== verification/EndpointFlow.v ===== *)
(** * Address assignment from end to end

    A client without an address and a router with an address authority: the
    messages one side queues, encoded and decoded again, drive the other side
    until the client holds an address the router has leased to it. *)
From stdpp Require Import prelude gmap.
From Stdlib Require Import ZArith Lia.
From S2P Require Import Prelude BTree Css GdpWire Gctl GtsWire GtsCodec Reliable GtsStream Dlp EndpointCore EndpointAuth.
Local Open Scope Z_scope.

(** ** What a queued control message is at the other end *)

Definition push_control (s : EndpointCore) (f : TxFrame) : EndpointCore :=
  set_dlp s (set_control_tx (dlp s) (control_tx_credit (dlp s)) (control_tx_queue (dlp s) ++ [f])).

(** A received packet that carries the control message [c] of transaction
    [tid]. *)
Definition carries (p : GdpPacket) (src dst tid : Z) (c : Control) : Prop :=
  hdr_packet_type (pkt_header p) = GdpWire.Gctl ∧ hdr_source (pkt_header p) = src ∧
  hdr_destination (pkt_header p) = dst ∧
  ∃ m, gctl_decode (pkt_payload p) = Ok m ∧ gm_transaction_id m = tid ∧ parse m = Ok c.

(** [s'] has queued the control packets [ps] behind those of [s]; a peer with
    the same wire configuration decodes exactly these. *)
Definition emits (s s' : EndpointCore) (ps : list GdpPacket) : Prop :=
  ∃ fs, control_tx_queue (dlp s') = control_tx_queue (dlp s) ++ fs ∧
    Forall2 (λ f p, ∀ lp, packet_decode (tx_bytes f) (cfg (dlp s)) lp = Ok p) fs ps.

(** The link is up and packets use the global address form. *)
Definition plain (s : EndpointCore) : Prop :=
  link_up (dlp s) = true ∧ ec_prefer_local_gdp (config s) = false.

Lemma build_len tid c m : build tid c = Ok m → gctl_encoded_len m ≤ 40.
Proof.
  intros H. destruct c as [n | n | [] | [] | [] | [] | [] | [] | [] | []]; cbn [build] in H;
    [.. | apply address_offer_Ok in H as [_ ->] | | |]; try (apply Ok_inj in H; subst m); by vm_compute.
Qed.

Lemma recommended_Ok m : gctl_encoded_len m ≤ 40 →
  ∃ c, recommended_size_class m = Ok c ∧ gctl_encoded_len m ≤ sc_bytes c.
Proof.
  intros H. unfold recommended_size_class.
  destruct (smallest_for (gctl_encoded_len m)) as [c |] eqn:E.
  - exists c. split; [done |]. apply find_some in E as [_ E]. by apply Z.leb_le in E.
  - exfalso. pose proof (find_none _ _ E Ctrl64 ltac:(cbn; tauto)) as Hn.
    apply Z.leb_gt in Hn. change (sc_bytes Ctrl64) with 64 in Hn. lia.
Qed.

Lemma send_control s src dst tid c m :
  plain s → u64 src → u64 dst → wf_control c → u32 tid → build tid c = Ok m →
  ∃ f p, send_gctl_from src dst m None s = (push_control s f, Ok tt) ∧
    (∀ lp, packet_decode (tx_bytes f) (cfg (dlp s)) lp = Ok p) ∧ carries p src dst tid c.
Proof.
  intros [Hup Hpl] Hs Hd Hc Ht Hm. destruct (build_wf _ _ _ Hc Ht Hm) as [Hwf Htid].
  destruct (recommended_Ok m (build_len _ _ _ Hm)) as (k & Hk & Hlen).
  destruct (encode_exact_ok m (sc_bytes k)) as [He Hl]; [apply Hwf | done |].
  set (h := header_global GdpWire.Gctl k 64 src dst). set (p := mkPacket h (gctl_wire m (sc_bytes k))).
  assert (Hh : wf_header h) by (repeat split; try done; cbn; ulia).
  pose proof (packet_encode_ok p (cfg (dlp s)) Hh Hl) as Hw.
  set (w := header_wire (pkt_header p) (cfg (dlp s)) ++ pkt_payload p) in *.
  exists (mkTx 0 TControl w 0), p. split; [| split].
  - unfold send_gctl_from.
    rewrite (st_bind_Ok_l _ _ s s k) by (unfold lift; by rewrite Hk).
    rewrite (st_bind_Ok_l _ _ s s (gctl_wire m (sc_bytes k))) by (unfold lift; by rewrite He).
    rewrite (st_bind_Ok_l _ _ s s s) by done.
    rewrite (st_bind_Ok_l _ _ s s h) by (unfold lift, make_gdp_header; by rewrite Hpl).
    rewrite (st_bind_Ok_l _ _ s s p) by (unfold lift, packet_new; by rewrite Hl, Z.eqb_refl).
    rewrite (st_bind_Ok_l _ _ s (push_control s (mkTx 0 TControl w 0)) (flit_len w)); [done |].
    unfold on_dlp, zoom, queue_control_packet. rewrite queue_packet_on_eq. unfold lane_guards.
    rewrite Hup. replace (vc_count (dlp s) <=? Vcid_CONTROL) with false
      by (unfold vc_count; by destruct (vc_mode (dlp s))). cbn [negb fail_if mbind res_bind].
    cbn. by rewrite Hw.
  - intros lp. destruct (packet_roundtrip p (cfg (dlp s)) lp Hh) as (w' & Hw' & _ & Hd'); [done.. |].
    rewrite Hw in Hw'. apply Ok_inj in Hw'. by subst w'.
  - repeat split; try done. exists (pad_body m (sc_bytes k - gctl_encoded_len m)).
    split; [by apply gctl_decode_wire |]. split; [done |]. apply (parse_pad tid); [done.. | lia].
Qed.

Lemma emits_one s f p :
  (∀ lp, packet_decode (tx_bytes f) (cfg (dlp s)) lp = Ok p) → emits s (push_control s f) [p].
Proof. intros H. exists [f]. split; [done |]. by constructor. Qed.

Lemma plain_push s f : plain s → plain (push_control s f).
Proof. done. Qed.

(** ** What the handlers do with a carried message *)

Lemma parse_inv m c :
  parse m = Ok c →
  match c with
  | CSolicit b => gm_type m = Solicit ∧ parse_solicit m = Ok b
  | CAdvertise b => gm_type m = Advertise ∧ parse_advertise m = Ok b
  | CAddressOffer b => gm_type m = AddressOffer ∧ parse_address_offer m = Ok b
  | CAddressClaim b => gm_type m = AddressClaim ∧ parse_address_claim m = Ok b
  | CAddressAck b => gm_type m = AddressAck ∧ parse_address_ack m = Ok b
  | CAddressNak b => gm_type m = AddressNak ∧ parse_address_nak m = Ok b
  | _ => True
  end.
Proof.
  unfold parse. intros H. destruct (gm_type m); try done;
    lazymatch type of H with fmap _ ?p = _ => destruct p eqn:E; cbn in H; try done; apply Ok_inj in H; by subst c end.
Qed.

Definition with_form (s : EndpointCore) (p : GdpPacket) : EndpointCore :=
  set_form s (Some (addr_form (hdr_addresses (pkt_header p)))).

(** [handle_gdp] of an accepted control packet is [handle_gctl]. *)
Lemma handle_gdp_gctl s p src dst tid c now :
  carries p src dst tid c → accepts_destination s dst = true →
  handle_gdp p now s = handle_gctl src p (with_form s p).
Proof.
  intros (Ht & Hs & Hd & _) Ha. unfold handle_gdp. cbv zeta. rewrite (st_bind_Ok_l _ _ s s s) by done.
  rewrite Hd, Ha. rewrite (st_bind_Ok_l _ _ s s tt) by done. erewrite st_bind_Ok_l by done. by rewrite Ht, Hs.
Qed.

(** The two halves of one control message: what [send_gctl_from] queued is
    what the other side's [handle_gctl] decodes. *)
Lemma handle_gctl_decoded s p src m :
  gctl_decode (pkt_payload p) = Ok m →
  handle_gctl src p s =
    match gm_type m with
    | Solicit => (b ← handle_router_solicit src m; if (b : bool) then mret tt else push_inbox src m) s
    | Advertise => handle_advertise src m s
    | AddressOffer => handle_address_offer src m s
    | AddressClaim => (b ← handle_address_claim src m; if (b : bool) then mret tt else push_inbox src m) s
    | AddressAck => handle_address_ack m s
    | _ => handle_gctl src p s
    end.
Proof.
  intros Hm. unfold handle_gctl. rewrite (st_bind_Ok_l _ _ s s m) by (unfold lift; by rewrite Hm).
  by destruct (gm_type m).
Qed.

Lemma lor_u64 x y : u64 x → u64 y → u64 (Z.lor x y).
Proof.
  intros Hx Hy. assert (H : Z.lor x y = Z.lor x y mod 2 ^ 64).
  { rewrite <- Z.land_ones, Z.land_lor_distr_l, !Z.land_ones by lia. by rewrite !Z.mod_small by ulia. }
  rewrite H. pose proof (Z.mod_pos_bound (Z.lor x y) (2 ^ 64)). ulia.
Qed.

Lemma in_pool_u64 c x : auth_config_ok c → in_pool c x → u64 x.
Proof.
  intros Hc (h & Hh & ->). apply lor_u64; [apply Hc |]. pose proof (host_mask_range c Hc). ulia.
Qed.

(** *** Router: SOLICIT *)

(** Ranges of what an authority announces. *)
Definition auth_ranges (c : AddressAuthorityConfig) : Prop :=
  u8 (aa_preference c) ∧ u32 (aa_lifetime c) ∧ u32 (aa_capabilities c).

Lemma router_answers r p src dst tid a a1 cand now :
  plain r → authority r = Some a → authority_wf a → auth_ranges (au_config a) →
  u64 (primary_address r) → u64 (link_local_address r) → u64 src → u32 tid →
  carries p src dst tid (CSolicit (mkSolicit ServiceType_ROUTER Link)) → accepts_destination r dst = true →
  allocate_candidate (primary_address r) a = (a1, Ok cand) →
  ∃ r' p2 p3 adv,
    handle_gdp p now r = (r', Ok tt) ∧ emits r r' [p2; p3] ∧
    carries p2 (link_local_address r) src tid (CAdvertise adv) ∧ av_provider adv = primary_address r ∧
    carries p3 (link_local_address r) src tid (CAddressOffer (offer_for (au_config a) (primary_address r) cand)) ∧
    plain r' ∧ link_local_address r' = link_local_address r ∧ primary_address r' = primary_address r ∧
    cfg (dlp r') = cfg (dlp r) ∧ authority r' = Some (offer_pending a1 tid src cand).
Proof.
  intros Hpl Ha Hwf (Hpref & Hlife & Hcap) Hprim Hll Hsrc Ht Hc Hacc Hal.
  rewrite (handle_gdp_gctl r p src dst tid _ now Hc Hacc). destruct Hc as (_ & _ & _ & m & Hm & Htid & Hp).
  apply parse_inv in Hp as [Hty Hp]. rewrite (handle_gctl_decoded _ _ _ m Hm), Hty.
  set (r0 := with_form r p).
  destruct (make_offer_Ok src _ tid a a1 cand Hwf Hal) as (Hf & Hpool & Hwf1 & _ & Hcfg & Hmo).
  set (adv := mkAdvertise _ _ _ _ _) in Hmo. set (offer := offer_for _ _ _) in *.
  set (r1 := set_authority r0 (Some (offer_pending a1 tid src cand))).
  assert (Hoffer : offer_ok offer).
  { split; [apply (aw_config _ Hwf) |]. destruct Hpool as (h & Hh & ->). by apply pool_address_matches; [apply Hwf |]. }
  assert (Hlen : u8 (aa_prefix_len (au_config a))).
  { pose proof (ac_len _ (aw_config _ Hwf)) as H. set_unfold in H. ulia. }
  destruct (send_control r1 (link_local_address r) src tid (CAdvertise adv) (advertise tid adv) Hpl Hll Hsrc)
    as (f2 & p2 & Hs2 & Hd2 & Hc2); [by split_and! | done | done |].
  set (r2 := push_control r1 f2) in *.
  destruct (address_offer tid offer) as [om | |] eqn:Eo;
    [| exfalso; by rewrite (proj2 (address_offer_Ok tid offer _) (conj Hoffer eq_refl)) in Eo..].
  destruct (send_control r2 (link_local_address r) src tid (CAddressOffer offer) om Hpl Hll Hsrc)
    as (f3 & p3 & Hs3 & Hd3 & Hc3);
    [split_and!; try done; [apply (aw_config _ Hwf) | by apply (in_pool_u64 (au_config a)); [apply Hwf |]] | done | exact Eo |].
  exists (push_control r2 f3), p2, p3, adv. split; [| split_and!; try done].
  - rewrite (st_bind_Ok_l _ _ r0 (push_control r2 f3) true); [done |]. unfold handle_router_solicit.
    rewrite (st_bind_Ok_l _ _ r0 r0 (mkSolicit ServiceType_ROUTER Link)) by (unfold lift; by rewrite Hp).
    change (negb _) with false. cbv iota. rewrite (st_bind_Ok_l _ _ r0 r0 r0) by done.
    change (authority r0) with (authority r). rewrite Ha, Htid.
    rewrite (st_bind_Ok_l _ _ r0 r1 (adv, offer)).
    2: { unfold on_authority. change (authority r0) with (authority r). rewrite Ha.
         change (primary_address r0) with (primary_address r). by rewrite Hmo. }
    rewrite (st_bind_Ok_l _ _ r1 r2 tt) by exact Hs2.
    rewrite (st_bind_Ok_l _ _ r2 r2 om) by (unfold lift; by rewrite Eo).
    rewrite (st_bind_Ok_l _ _ r2 (push_control r2 f3) tt) by exact Hs3. done.
  - exists [f2; f3]. split; [cbn; by rewrite <- app_assoc |]. by repeat constructor.
Qed.

(** *** Client: ADVERTISE, OFFER *)

Lemma client_advertise c p src dst tid adv now :
  address_state c = Soliciting tid → carries p src dst tid (CAdvertise adv) → accepts_destination c dst = true →
  ∃ c', handle_gdp p now c = (c', Ok tt) ∧ dlp c' = dlp c ∧ config c' = config c ∧
    address_state c' = Soliciting tid ∧ link_local_address c' = link_local_address c ∧
    primary_address c' = primary_address c ∧ next_claim_nonce c' = next_claim_nonce c.
Proof.
  intros Hst Hc Hacc. rewrite (handle_gdp_gctl c p src dst tid _ now Hc Hacc).
  destruct Hc as (_ & _ & _ & m & Hm & Htid & Hp). apply parse_inv in Hp as [Hty Hp].
  rewrite (handle_gctl_decoded _ _ _ m Hm), Hty. set (c0 := with_form c p).
  unfold handle_advertise. rewrite (st_bind_Ok_l _ _ c0 c0 adv) by (unfold lift; by rewrite Hp).
  rewrite (st_bind_Ok_l _ _ c0 c0 c0) by done. destruct (_ && _); by eexists.
Qed.

Lemma client_offer c p src dst tid offer now :
  plain c → address_state c = Soliciting tid → u64 (link_local_address c) → u64 src → u32 tid →
  u64 (next_claim_nonce c) → offer_ok offer → u64 (of_candidate offer) →
  carries p src dst tid (CAddressOffer offer) → accepts_destination c dst = true →
  ∃ c' p4, handle_gdp p now c = (c', Ok tt) ∧ emits c c' [p4] ∧
    carries p4 (link_local_address c) src tid (CAddressClaim (mkAddressClaim (of_candidate offer) (next_claim_nonce c))) ∧
    plain c' ∧ cfg (dlp c') = cfg (dlp c) ∧ link_local_address c' = link_local_address c ∧
    pending_client_offer c' = Some (mkClientOffer tid src offer) ∧
    address_state c' = Offered tid (of_router offer) (of_candidate offer).
Proof.
  intros Hpl Hst Hll Hsrc Ht Hnonce Hok Hcand Hc Hacc. rewrite (handle_gdp_gctl c p src dst tid _ now Hc Hacc).
  destruct Hc as (_ & _ & _ & m & Hm & Htid & Hp). apply parse_inv in Hp as [Hty Hp].
  rewrite (handle_gctl_decoded _ _ _ m Hm), Hty. set (c0 := with_form c p).
  set (c1 := set_nonce (set_state (set_offer (set_router c0 (Some (of_router offer)))
    (Some (mkClientOffer tid src offer))) (Offered tid (of_router offer) (of_candidate offer)))
    (next_u 64 (next_claim_nonce c))).
  set (claim := mkAddressClaim (of_candidate offer) (next_claim_nonce c)).
  destruct (send_control c1 (link_local_address c) src tid (CAddressClaim claim) (address_claim tid claim) Hpl Hll Hsrc)
    as (f & p4 & Hs & Hd & Hc4); [done.. |].
  exists (push_control c1 f), p4. split; [| split; [exact (emits_one c1 f p4 Hd) | done]].
  unfold handle_address_offer. rewrite (st_bind_Ok_l _ _ c0 c0 offer) by (unfold lift; by rewrite Hp).
  rewrite (st_bind_Ok_l _ _ c0 c0 c0) by done. cbv zeta. change (address_state c0) with (address_state c).
  rewrite Hst, Htid, bool_decide_eq_true_2 by done. rewrite (st_bind_Ok_l _ _ c0 c0 tt) by done.
  rewrite (st_bind_Ok_l _ _ c0 c0 true) by (unfold lift; by rewrite (proj2 Hok)).
  exact Hs.
Qed.

(** *** Router: CLAIM; client: ACK *)

Lemma router_acks r p src dst tid a cand nonce now :
  plain r → authority r = Some a → authority_wf a → u32 (aa_lifetime (au_config a)) →
  u64 (link_local_address r) → u64 src → u32 tid →
  au_pending a !! tid = Some (mkPendingAuth src cand) →
  carries p src dst tid (CAddressClaim (mkAddressClaim cand nonce)) → accepts_destination r dst = true →
  ∃ r' p5, handle_gdp p now r = (r', Ok tt) ∧ emits r r' [p5] ∧
    carries p5 (link_local_address r) src tid (CAddressAck (mkAddressAck cand (aa_lifetime (au_config a)))) ∧
    authority r' = Some (settled a tid src (mkPendingAuth src cand)).
Proof.
  intros Hpl Ha Hwf Hlife Hll Hsrc Ht Hpend Hc Hacc. rewrite (handle_gdp_gctl r p src dst tid _ now Hc Hacc).
  destruct Hc as (_ & _ & _ & m & Hm & Htid & Hp). apply parse_inv in Hp as [Hty Hp].
  rewrite (handle_gctl_decoded _ _ _ m Hm), Hty. set (r0 := with_form r p).
  set (r1 := set_authority r0 (Some (settled a tid src (mkPendingAuth src cand)))).
  set (ack := mkAddressAck cand (aa_lifetime (au_config a))).
  destruct (send_control r1 (link_local_address r) src tid (CAddressAck ack) (address_ack tid ack) Hpl Hll Hsrc)
    as (f & p5 & Hs & Hd & Hc5); [split; [| done] | done | done |].
  { apply (in_pool_u64 (au_config a)); [apply Hwf | by apply (aw_pending _ Hwf tid _ Hpend)]. }
  exists (push_control r1 f), p5. split; [| split; [exact (emits_one r1 f p5 Hd) | done]].
  rewrite (st_bind_Ok_l _ _ r0 (push_control r1 f) true); [done |]. unfold handle_address_claim.
  rewrite (st_bind_Ok_l _ _ r0 r0 (mkAddressClaim cand nonce)) by (unfold lift; by rewrite Hp).
  rewrite (st_bind_Ok_l _ _ r0 r0 r0) by done. cbv zeta. change (authority r0) with (authority r).
  rewrite Ha, Htid. unfold claim_valid. rewrite Hpend. cbn [po_client po_candidate cl_candidate].
  rewrite !Z.eqb_refl. cbn [andb].
  rewrite (st_bind_Ok_l _ _ r0 r1 ack).
  2: { unfold on_authority. change (authority r0) with (authority r). by rewrite Ha, settle_claim_eq, Hpend. }
  rewrite (st_bind_Ok_l _ _ r1 (push_control r1 f) tt) by exact Hs. done.
Qed.

Lemma client_assigned c p src dst tid offer lifetime now :
  pending_client_offer c = Some (mkClientOffer tid src offer) →
  carries p src dst tid (CAddressAck (mkAddressAck (of_candidate offer) lifetime)) → accepts_destination c dst = true →
  ∃ c', handle_gdp p now c = (c', Ok tt) ∧ primary_address c' = of_candidate offer ∧
    router_address c' = Some (of_router offer) ∧
    address_state c' = Assigned (of_candidate offer) (of_router offer) lifetime ∧
    pending_client_offer c' = None ∧
    (of_prefix_len offer = 48 → local_prefix (dlp c') = clear_low16 (clear_low16 (of_prefix offer))).
Proof.
  intros Hpend Hc Hacc. rewrite (handle_gdp_gctl c p src dst tid _ now Hc Hacc).
  destruct Hc as (_ & _ & _ & m & Hm & Htid & Hp). apply parse_inv in Hp as [Hty Hp].
  rewrite (handle_gctl_decoded _ _ _ m Hm), Hty. set (c0 := with_form c p).
  unfold handle_address_ack.
  rewrite (st_bind_Ok_l _ _ c0 c0 (mkAddressAck (of_candidate offer) lifetime)) by (unfold lift; by rewrite Hp).
  rewrite (st_bind_Ok_l _ _ c0 c0 c0) by done.
  rewrite (st_bind_Ok_l _ _ c0 c0 (mkClientOffer tid src offer))
    by (unfold lift; change (pending_client_offer c0) with (pending_client_offer c); by rewrite Hpend).
  cbn [pc_offer pc_transaction_id]. rewrite Htid. cbn [ak_candidate]. rewrite !Z.eqb_refl.
  rewrite (st_bind_Ok_l _ _ c0 c0 tt) by done. cbn [of_prefix_len].
  destruct (Z.eqb_spec (of_prefix_len offer) 48); (eexists; split; [reflexivity |]); by split_and!.
Qed.

Lemma accepts_link_local s : accepts_destination s (link_local_address s) = true.
Proof. unfold accepts_destination. rewrite Z.eqb_refl, orb_true_r. done. Qed.
Lemma accepts_bootstrap s : accepts_destination s BOOTSTRAP_ADDRESS = true.
Proof. unfold accepts_destination. rewrite Z.eqb_refl, orb_true_r. done. Qed.

Lemma client_solicits c tid :
  plain c → address_state c ≠ Static → u64 (link_local_address c) → u32 tid →
  ∃ c' p1, solicit_router tid c = (c', Ok tt) ∧ emits c c' [p1] ∧
    carries p1 (link_local_address c) BOOTSTRAP_ADDRESS tid (CSolicit (mkSolicit ServiceType_ROUTER Link)) ∧
    plain c' ∧ address_state c' = Soliciting tid ∧ link_local_address c' = link_local_address c ∧
    cfg (dlp c') = cfg (dlp c) ∧ next_claim_nonce c' = next_claim_nonce c.
Proof.
  intros Hpl Hst Hll Ht. set (c1 := set_state c (Soliciting tid)).
  destruct (send_control c1 (link_local_address c) BOOTSTRAP_ADDRESS tid
    (CSolicit (mkSolicit ServiceType_ROUTER Link)) (solicit tid ServiceType_ROUTER Link) Hpl Hll)
    as (f & p1 & Hs & Hd & Hc); [by vm_compute | by vm_compute | done | done |].
  exists (push_control c1 f), p1. split; [| split; [exact (emits_one c1 f p1 Hd) | done]].
  unfold solicit_router. rewrite (st_bind_Ok_l _ _ c c c) by done.
  rewrite bool_decide_eq_false_2 by done. rewrite (st_bind_Ok_l _ _ c c tt) by done. exact Hs.
Qed.

(** ** The theorem *)

(** C23: address assignment completes: when a client without a static address
    solicits a router whose authority finds a free candidate, the five packets
    the two sides queue for each other, decoded and handled in turn, leave the
    client assigned to that candidate and the router holding the lease for the
    client; no other lease changes. *)
Theorem address_assignment_completes c r a a1 cand tid now :
  plain c → address_state c ≠ Static → u64 (link_local_address c) → u64 (next_claim_nonce c) → u32 tid →
  plain r → authority r = Some a → authority_wf a → auth_ranges (au_config a) →
  u64 (primary_address r) → u64 (link_local_address r) →
  allocate_candidate (primary_address r) a = (a1, Ok cand) →
  ∃ c1 c2 c3 c4 r1 r2 p1 p2 p3 p4 p5,
    (solicit_router tid c = (c1, Ok tt) ∧ emits c c1 [p1]) ∧
    (handle_gdp p1 now r = (r1, Ok tt) ∧ emits r r1 [p2; p3]) ∧
    handle_gdp p2 now c1 = (c2, Ok tt) ∧
    (handle_gdp p3 now c2 = (c3, Ok tt) ∧ emits c2 c3 [p4]) ∧
    (handle_gdp p4 now r1 = (r2, Ok tt) ∧ emits r1 r2 [p5]) ∧
    handle_gdp p5 now c3 = (c4, Ok tt) ∧
    address_state c4 = Assigned cand (primary_address r) (aa_lifetime (au_config a)) ∧
    primary_address c4 = cand ∧ router_address c4 = Some (primary_address r) ∧
    free a (primary_address r) cand ∧
    (leases <$> authority r2) = Some (<[cand := link_local_address c]> (leases a)).
Proof.
  intros Hpc Hst Hllc Hnonce Ht Hpr Ha Hwf Hrng Hprim Hllr Hal.
  destruct (client_solicits c tid Hpc Hst Hllc Ht) as (c1 & p1 & Hs1 & He1 & Hc1 & Hpl1 & Hst1 & Hl1 & Hg1 & Hn1).
  destruct (router_answers r p1 _ _ tid a a1 cand now Hpr Ha Hwf Hrng Hprim Hllr Hllc Ht Hc1 (accepts_bootstrap r) Hal)
    as (r1 & p2 & p3 & adv & Hs2 & He2 & Hc2 & _ & Hc3 & Hplr1 & Hlr1 & _ & Hgr1 & Har1).
  destruct (make_offer_Ok (link_local_address c) _ tid a a1 cand Hwf Hal) as (Hf & Hpool & Hwf1 & Hls1 & Hcfg1 & _).
  assert (Hcand : u64 cand) by (apply (in_pool_u64 (au_config a)); [apply Hwf | done]).
  rewrite <- Hl1 in Hc2, Hc3.
  destruct (client_advertise c1 p2 _ _ tid adv now Hst1 Hc2 (accepts_link_local c1))
    as (c2 & Hs3 & Hd2 & Hcf2 & Hst2 & Hl2 & _ & Hn2).
  set (offer := offer_for (au_config a) (primary_address r) cand) in *.
  assert (Hok : offer_ok offer).
  { split; [apply (aw_config _ Hwf) |]. destruct Hpool as (h & Hh & ->). by apply pool_address_matches; [apply Hwf |]. }
  assert (Hpl2 : plain c2) by (unfold plain; by rewrite Hd2, Hcf2).
  rewrite <- Hl2 in Hc3.
  assert (Hllc2 : u64 (link_local_address c2)) by (by rewrite Hl2, Hl1).
  assert (Hnonce2 : u64 (next_claim_nonce c2)) by (by rewrite Hn2, Hn1).
  destruct (client_offer c2 p3 _ _ tid offer now Hpl2 Hst2 Hllc2 Hllr Ht Hnonce2 Hok Hcand Hc3 (accepts_link_local c2))
    as (c3 & p4 & Hs4 & He4 & Hc4 & _ & _ & Hl3 & Hpend & _).
  rewrite Hl2, Hl1 in Hc4. rewrite <- Hlr1 in Hc4.
  set (a2 := offer_pending a1 tid (link_local_address c) cand) in *.
  assert (Hwf2 : authority_wf a2).
  { pose proof (make_offer_wf (link_local_address c) (primary_address r) tid a Hwf) as [H _].
    destruct (make_offer_Ok (link_local_address c) _ tid a a1 cand Hwf Hal) as (_ & _ & _ & _ & _ & E).
    by rewrite E in H. }
  assert (Hlife2 : u32 (aa_lifetime (au_config a2))) by (cbn; rewrite Hcfg1; apply Hrng).
  assert (Hllr1 : u64 (link_local_address r1)) by (by rewrite Hlr1).
  assert (Hpend2 : au_pending a2 !! tid = Some (mkPendingAuth (link_local_address c) cand))
    by (cbn; by rewrite lookup_insert_eq).
  destruct (router_acks r1 p4 _ _ tid a2 cand (next_claim_nonce c2) now Hplr1 Har1 Hwf2 Hlife2 Hllr1 Hllc Ht Hpend2 Hc4
    (accepts_link_local r1)) as (r2 & p5 & Hs5 & He5 & Hc5 & Har2).
  change (aa_lifetime (au_config a2)) with (aa_lifetime (au_config a1)) in Hc5. rewrite Hcfg1 in Hc5.
  rewrite Hlr1, <- Hl1, <- Hl2, <- Hl3 in Hc5.
  destruct (client_assigned c3 p5 (link_local_address r) _ tid offer (aa_lifetime (au_config a)) now Hpend Hc5
    (accepts_link_local c3)) as (c4 & Hs6 & Hp4 & Hr4 & Hst4 & _ & _).
  exists c1, c2, c3, c4, r1, r2, p1, p2, p3, p4, p5. split_and!; try done.
  rewrite Har2. cbn. by rewrite Hls1.
Qed.

(** ** Witness *)

Lemma address_assignment_completes_witness :
  match ep_unconfigured 5 (ep_config_new 64), ep_new 0x0102030400000001 (ep_config_new 64) with
  | Ok c, Ok r0 => ∃ c4 r2,
      address_state c4 = Assigned 0x0102030400000002 0x0102030400000001 600 ∧
      (leases <$> authority r2) = Some {[ 0x0102030400000002 := link_local_address c ]}
  | _, _ => False
  end.
Proof.
  set (a := authority_new sample_auth_config).
  assert (Hwf : authority_wf a) by apply authority_new_wf, sample_auth_config_ok.
  assert (Hal : (allocate_candidate 0x0102030400000001 a).2 = Ok 0x0102030400000002) by (vm_compute; done).
  destruct (allocate_candidate 0x0102030400000001 a) as [a1 o] eqn:Ea. cbn in Hal. subst o.
  set (c := ep_unconfigured 5 (ep_config_new 64)). set (r := ep_new 0x0102030400000001 (ep_config_new 64)).
  assert (Hc : ∃ s, c = Ok s ∧ link_up (dlp s) = true ∧ ec_prefer_local_gdp (config s) = false ∧
    address_state s = LinkLocalOnly ∧ link_local_address s = 0xfe80000000000005 ∧ next_claim_nonce s = 1)
    by (eexists; vm_compute; done).
  assert (Hr : ∃ s, r = Ok s ∧ link_up (dlp s) = true ∧ ec_prefer_local_gdp (config s) = false ∧
    primary_address s = 0x0102030400000001 ∧ link_local_address s = 0xfe80030400000001)
    by (eexists; vm_compute; done).
  destruct Hc as (sc & -> & Hup & Hpl & Hst & Hll & Hn), Hr as (sr & -> & Hup' & Hpl' & Hpr & Hll').
  destruct (address_assignment_completes sc (enable_address_authority sample_auth_config sr) a a1
    0x0102030400000002 7 0) as (c1 & c2 & c3 & c4 & r1 & r2 & p1 & p2 & p3 & p4 & p5 & H).
  - done.
  - by rewrite Hst.
  - rewrite Hll. ulia.
  - rewrite Hn. ulia.
  - ulia.
  - done.
  - done.
  - done.
  - repeat split; vm_compute; done.
  - cbn. rewrite Hpr. ulia.
  - cbn. rewrite Hll'. ulia.
  - cbn. by rewrite Hpr.
  - cbn in H. rewrite Hpr in H. destruct H as (_ & _ & _ & _ & _ & _ & H1 & _ & _ & _ & H2).
    exists c4, r2. split; [exact H1 |]. by rewrite H2.
Defined.
