(* ===== verification/EndpointData.v ===== *)
(** * Data from endpoint to endpoint

    Two endpoints, one of which listens for a service: the packets each side
    queues, encoded and decoded again, drive the other. Proved: a tunnel comes
    up, and every message of a conversation over its first stream reaches the
    application at the other side, in order, and is acknowledged. *)
From stdpp Require Import prelude gmap.
From Stdlib Require Import ZArith Lia.
From S2P Require Import Prelude BTree Css GdpWire GtsWire GtsCodec GtsCodecSound Reliable GtsStream Dlp EndpointCore EndpointFlow.
Local Open Scope Z_scope.

(** ** What a queued GTS packet is at the other end *)

(** The stream a packet is about, in the packet and in its first octets. *)
Definition stream_ids (g : GtsPacket) : option (Z * Z) :=
  match g with
  | Data tid sid _ _ _ | Datagram tid sid _ _ | Ack tid sid _ _ _
  | StreamClose tid sid _ _ | StreamReset tid sid _ _ => Some (tid, sid)
  | _ => None
  end.
Definition lower_ids (l : GtsLowerPacket) : option (Z * Z) :=
  match l with
  | LData tid sid _ _ _ | LDatagram tid sid _ | LAck tid sid _ _ _ _
  | LStreamClose tid sid _ _ | LStreamReset tid sid _ _ _ => Some (tid, sid)
  | _ => None
  end.

(** The profile the receiver looks up before it decodes *)
Definition profile_of (s : EndpointCore) (ids : option (Z * Z)) : res (option StreamProfile) :=
  match ids with
  | Some (tid, sid) => x ← get_stream tid sid s; Ok (Some (profile x))
  | None => Ok None
  end.

Lemma interpret_ids buf ctx prof off lower p meta :
  interpret_lower buf ctx prof off lower = Ok (p, meta) → stream_ids p = lower_ids lower.
Proof.
  intros Hi. destruct lower; cbn [interpret_lower] in Hi;
    repeat match type of Hi with
    | mbind _ _ = Ok _ => apply bind_Ok in Hi as (? & _ & Hi); cbv beta in Hi
    | match ?x with pair _ _ => _ end = Ok _ => destruct x; cbv beta zeta in Hi
    | (let _ := _ in _) = Ok _ => cbv zeta in Hi
    | Ok _ = Ok _ => apply Ok_inj, pair_inv in Hi as [<- _]
    end; done.
Qed.

Lemma profile_for_ids s ty tid sid rest :
  stream_scoped ty = true → u32 tid →
  gts_profile_for s ([gts_type_to_wire ty] ++ to_be 4 tid ++ [sid] ++ rest) = profile_of s (Some (tid, sid)).
Proof.
  intros Hty Ht. unfold gts_profile_for. set (buf := _ ++ _).
  assert (Hl : 6 ≤ len buf) by (subst buf; len_goal).
  assert (E0 : get_index buf 0 = Ok (gts_type_to_wire ty)) by done.
  assert (E5 : get_index buf 5 = Ok sid).
  { subst buf. rewrite !get_index_app_r by len_goal. reflexivity. }
  assert (E1 : get_slice buf 1 5 = Ok (to_be 4 tid)).
  { rewrite get_slice_eq by lia. by f_equal. }
  pass_guard. rewrite E0, bind_Ok_l.
  assert (Et : gts_type_from_wire (Z.land (gts_type_to_wire ty) 0xf) = Ok ty) by by destruct ty.
  rewrite Et, bind_Ok_l, Hty. cbn [negb]. pass_guard. rewrite E1, bind_Ok_l, from_be_bytes_eq, bind_Ok_l by len_goal.
  rewrite E5, bind_Ok_l, from_be_to_be by (unfold u32 in Ht; lia). reflexivity.
Qed.

Lemma profile_for_lower s l rest :
  wf_lower l → gts_profile_for s (lower_bytes l ++ rest) = profile_of s (lower_ids l).
Proof.
  intros Hwf. destruct (lower_ids l) as [[tid sid] |] eqn:E.
  - destruct l; try done; cbn in E, Hwf; injection E as -> ->; destruct_and? Hwf; unfold lower_bytes;
      rewrite <- ?app_assoc; apply profile_for_ids; try done; by try destruct end_; try destruct ack.
  - unfold gts_profile_for, lower_bytes. rewrite <- app_assoc.
    assert (Hn : ∀ (b : Z) (k : list Z), len ([b] ++ k) =? 0 = false) by (intros; apply Z.eqb_neq; len_goal).
    rewrite Hn. cbn [fail_if]. rewrite bind_Ok_l. change (get_index (?b ++ ?k) 0) with (get_index b 0).
    destruct l as [| | | | | | | | ? [] | |]; done.
Qed.

Lemma gts_profile_for_decoded s w ctx prof g :
  bytes w → decode_packet w ctx prof = Ok g → gts_profile_for s w = profile_of s (stream_ids g).
Proof.
  intros Hb Hd. unfold decode_packet in Hd.
  destruct (decode_with_inv (H := handwritten_codec) _ _ _ _ Hb Hd) as (lower & meta & _ & Hwf & Hs & Hle & Hi & _).
  rewrite (interpret_ids _ _ _ _ _ _ _ Hi).
  rewrite <- (slice_full w 0 (len w)), (slice_split w 0 (len (lower_bytes lower)) (len w)), Hs by (lens; lia).
  by apply profile_for_lower.
Qed.

(** ** Sending *)

(** What [queue_data_packet] leaves. *)
Definition push_data (s : EndpointCore) (f : TxFrame) : EndpointCore :=
  let d := (choose_data_vc (dlp s)).1 in
  set_dlp s (set_data_tx d (data_tx_credit d) (data_tx_queue d ++ [f])).

(** [s'] has queued the data packets [ps] behind those of [s]; a peer with the
    same wire configuration decodes exactly these. *)
Definition sends (s s' : EndpointCore) (ps : list GdpPacket) : Prop :=
  ∃ fs, data_tx_queue (dlp s') = data_tx_queue (dlp s) ++ fs ∧
    Forall2 (λ f p, ∀ lp, packet_decode (tx_bytes f) (cfg (dlp s)) lp = Ok p) fs ps.

Record ready (s : EndpointCore) : Prop := {
  rd_plain : plain s;
  rd_vc : 1 ≤ next_data_vc (dlp s) < vc_count (dlp s);
  rd_address : u64 (primary_address s) }.

(** A received packet that carries the GTS packet [g]. *)
Record bears (p : GdpPacket) (src dst : Z) (g : GtsPacket) (prof : option StreamProfile) : Prop := {
  be_type : hdr_packet_type (pkt_header p) = GdpWire.Gts;
  be_source : hdr_source (pkt_header p) = src;
  be_destination : hdr_destination (pkt_header p) = dst;
  be_bytes : bytes (pkt_payload p);
  be_fits : fits g prof (hdr_size_class (pkt_header p));
  be_decodes : decode_packet (pkt_payload p)
    (mkContext (hdr_version (pkt_header p)) (hdr_size_class (pkt_header p)) src dst) prof = Ok g }.

(** A packet as an endpoint puts it on the link, for the endpoint [dst]. *)
Record outbound (p : GdpPacket) (src dst : Z) : Prop := {
  ob_addresses : hdr_addresses (pkt_header p) = Global dst src;
  ob_hops : hdr_hop_limit (pkt_header p) = 64;
  ob_header : wf_header (pkt_header p);
  ob_payload : len (pkt_payload p) = sc_bytes (hdr_size_class (pkt_header p)) }.
Definition posted (p : GdpPacket) (src dst : Z) (g : GtsPacket) (prof : option StreamProfile) : Prop :=
  bears p src dst g prof ∧ outbound p src dst.

(** [p'] is [p] after any number of hops. *)
Definition arrives (p p' : GdpPacket) : Prop := ∃ h, p' = mkPacket (set_hop (pkt_header p) h) (pkt_payload p).
Lemma arrives_bears p p' src dst g prof : arrives p p' → bears p src dst g prof → bears p' src dst g prof.
Proof. intros [h ->] []. by split. Qed.
Lemma arrives_refl p : arrives p p.
Proof. exists (hdr_hop_limit (pkt_header p)). by destruct p as [[] ?]. Qed.

Lemma sends_one s f p :
  (∀ lp, packet_decode (tx_bytes f) (cfg (dlp s)) lp = Ok p) → sends s (push_data s f) [p].
Proof. intros H. exists [f]. split; [done |]. by constructor. Qed.

Lemma sends_none s s' : data_tx_queue (dlp s') = data_tx_queue (dlp s) → sends s s' [].
Proof. intros E. exists []. split; [by rewrite app_nil_r | constructor]. Qed.

Lemma ready_push s f : ready s → ready (push_data s f).
Proof.
  intros [Hp Hv Ha]. split; [exact Hp | | exact Ha]. cbn. unfold vc_count in *. cbn.
  destruct (Z.leb_spec (vc_mode_count (vc_mode (dlp s))) (next_data_vc (dlp s) + 1)); lia.
Qed.

Lemma send_gts_ok s dst g prof d :
  ready s → u64 dst → wf_packet g → admissible g prof → fits g prof d →
  ∃ f p, send_gts dst g prof s = (push_data s f, Ok tt) ∧
    (∀ lp, packet_decode (tx_bytes f) (cfg (dlp s)) lp = Ok p) ∧ posted p (primary_address s) dst g prof.
Proof.
  intros [[Hup Hpl] Hvc Ha] Hd Hwf Hadm Hfit.
  destruct (fits_choose _ _ _ Hfit) as (c & Hc & _). pose proof (choose_fits _ _ _ Hc) as Hcf.
  set (ctx := mkContext 0 c (primary_address s) dst).
  destruct (proj1 (is_ok_ex (encode_packet g ctx prof))) as [w Hw].
  { unfold encode_packet. by apply (encode_iff_fits (H := handwritten_codec)). }
  destruct (encode_with_Ok (H := handwritten_codec) _ _ _ _ Hwf Hw) as (plan & Hfr & _ & Ew).
  assert (Hl : len w = sc_bytes c) by (rewrite Ew; apply (len_plan_frame ctx plan), Hfr).
  assert (Hb : bytes w) by (rewrite Ew; apply (bytes_plan_frame ctx plan), Hfr).
  assert (Hdec : decode_packet w ctx prof = Ok g).
  { rewrite Ew. unfold decode_packet. by apply (decode_plan_frame (H := handwritten_codec)). }
  set (h := header_global GdpWire.Gts c 64 (primary_address s) dst). set (p := mkPacket h w).
  assert (Hh : wf_header h) by (repeat split; try done; cbn; ulia).
  pose proof (packet_encode_ok p (cfg (dlp s)) Hh Hl) as Hpe.
  set (bs := header_wire (pkt_header p) (cfg (dlp s)) ++ pkt_payload p) in *.
  exists (mkTx (next_data_vc (dlp s)) TrData bs 0), p. split; [| split; [| split; by split]].
  - unfold send_gts.
    rewrite (st_bind_Ok_l _ _ s s c) by (unfold lift; by rewrite Hc).
    rewrite (st_bind_Ok_l _ _ s s s) by done. cbv zeta.
    rewrite (st_bind_Ok_l _ _ s s w) by (unfold lift; fold ctx; by rewrite Hw).
    rewrite (st_bind_Ok_l _ _ s s h) by (unfold lift, make_gdp_header; by rewrite Hpl).
    rewrite (st_bind_Ok_l _ _ s s p) by (unfold lift, packet_new; by rewrite Hl, Z.eqb_refl).
    rewrite (st_bind_Ok_l _ _ s (push_data s (mkTx (next_data_vc (dlp s)) TrData bs 0)) (flit_len bs)); [done |].
    unfold on_dlp, zoom, queue_data_packet.
    rewrite (st_bind_Ok_l _ choose_data_vc (dlp s) (choose_data_vc (dlp s)).1 (next_data_vc (dlp s))) by done.
    rewrite queue_packet_on_eq. unfold lane_guards. change (link_up (choose_data_vc (dlp s)).1) with (link_up (dlp s)).
    change (vc_count (choose_data_vc (dlp s)).1) with (vc_count (dlp s)).
    rewrite Hup. replace (vc_count (dlp s) <=? next_data_vc (dlp s)) with false by lia.
    replace (is_control (next_data_vc (dlp s))) with false by (unfold is_control, Vcid_CONTROL; lia).
    change (cfg (choose_data_vc (dlp s)).1) with (cfg (dlp s)). cbn. by rewrite Hpe.
  - intros lp. destruct (packet_roundtrip p (cfg (dlp s)) lp Hh) as (w' & Hw' & _ & Hd'); [done.. |].
    rewrite Hpe in Hw'. apply Ok_inj in Hw'. by subst w'.
Qed.

(** ** Receiving *)

Lemma handle_gdp_gts s p src dst g prof now :
  bears p src dst g prof → dst = primary_address s → dst ≠ BOOTSTRAP_ADDRESS →
  profile_of s (stream_ids g) = Ok prof →
  handle_gdp p now s = handle_gts_packet src (hdr_size_class (pkt_header p)) g (with_form s p).
Proof.
  intros [Ht Hs Hd Hb _ Hg] -> Hnb Hp. unfold handle_gdp. cbv zeta. rewrite (st_bind_Ok_l _ _ s s s) by done.
  rewrite Hd. unfold accepts_destination. rewrite Z.eqb_refl. cbn [orb negb].
  rewrite (st_bind_Ok_l _ _ s s tt) by done. rewrite (st_bind_Ok_l _ _ s (with_form s p) tt) by done. rewrite Ht.
  rewrite (proj2 (Z.eqb_neq _ _) Hnb). rewrite (st_bind_Ok_l _ _ (with_form s p) (with_form s p) tt) by done. rewrite Hs.
  unfold handle_gts. rewrite (st_bind_Ok_l _ _ (with_form s p) (with_form s p) (with_form s p)) by done. cbv zeta.
  rewrite (st_bind_Ok_l _ _ (with_form s p) (with_form s p) prof).
  2: { unfold lift. by rewrite (gts_profile_for_decoded (with_form s p) _ _ _ _ Hb Hg), <- Hp. }
  rewrite (st_bind_Ok_l _ _ (with_form s p) (with_form s p) g) by (unfold lift; exact (f_equal _ Hg)). done.
Qed.

Lemma ready_form s p : ready s → ready (with_form s p).
Proof. intros []. by split. Qed.

(** ** One side of a stream *)

(** The first stream of a tunnel, live, with its two halves. *)
Record flow (x : GtsStream) (prof : StreamProfile) (opened : bool) (tx : ReliableTx) (rx : ReliableRx) : Prop := {
  fl_id : id x = 0;
  fl_profile : profile x = prof;
  fl_state : state x = Open;
  fl_opened : opened_by_local x = opened;
  fl_local : local_ended x = false;
  fl_remote : remote_ended x = false;
  fl_tx : reliable_tx x = Some tx;
  fl_rx : reliable_rx x = Some rx }.

Definition may_send (prof : StreamProfile) (opened : bool) : bool :=
  if opened then opener_may_send (sp_direction prof) else peer_may_send (sp_direction prof).
(** The length of [data] suits the profile. *)
Definition sendable (prof : StreamProfile) (data : list Z) : Prop :=
  ∀ x, profile x = prof → validate_send_len x (len data) false = Ok tt.

(** What both sides agree on and does not change. *)
Record channel : Set := mkChannel {
  ch_own : Z; ch_other : Z; ch_here : Z; ch_there : Z; ch_profile : StreamProfile; ch_opened : bool }.
Definition far (c : channel) : channel :=
  mkChannel (ch_other c) (ch_own c) (ch_there c) (ch_here c) (ch_profile c) (negb (ch_opened c)).

Record channel_ok (c : channel) : Prop := {
  co_own : u64 (ch_own c); co_other : u64 (ch_other c);
  co_here : u32 (ch_here c); co_there : u32 (ch_there c);
  co_own_boot : ch_own c ≠ BOOTSTRAP_ADDRESS; co_other_boot : ch_other c ≠ BOOTSTRAP_ADDRESS;
  co_profile : sp_validate (ch_profile c) = Ok (ch_profile c);
  co_reliable : sp_unreliable (ch_profile c) = false }.

Lemma far_ok c : channel_ok c → channel_ok (far c).
Proof. intros []. by split. Qed.
Lemma far_far c : far (far c) = c.
Proof. destruct c. unfold far. cbn. by rewrite negb_involutive. Qed.

(** Endpoint [s] has its end of the channel, with sender [tx] and receiver [rx]. *)
Record side (c : channel) (s : EndpointCore) (tx : ReliableTx) (rx : ReliableRx) : Prop := {
  si_ready : ready s;
  si_own : primary_address s = ch_own c;
  si_stream : ∃ t x, tunnels s !! ch_here c = Some (mkRecord (ch_other c) t) ∧ tstate t = Established ∧
    remote_receive_id t = Some (ch_there c) ∧ streams t !! 0 = Some x ∧
    flow x (ch_profile c) (ch_opened c) tx rx }.

Definition put_stream (s : EndpointCore) (h pr : Z) (t : GtsTunnel) (x : GtsStream) : EndpointCore :=
  set_tunnels s (<[h := mkRecord pr (with_streams t (<[0 := x]> (streams t)) (next_stream_id t))]> (tunnels s)).

Lemma on_tunnel_eq {A} s h pr t (m : Z → st GtsTunnel A) t' r :
  tunnels s !! h = Some (mkRecord pr t) → m pr t = (t', r) →
  on_tunnel h m s = (set_tunnels s (<[h := mkRecord pr t']> (tunnels s)), r).
Proof. intros E Em. unfold on_tunnel. rewrite E. cbn [peer tunnel]. by rewrite Em. Qed.

Lemma on_stream_eq {A} t x (m : st GtsStream A) x' r :
  streams t !! 0 = Some x → m x = (x', r) →
  on_stream 0 m t = (with_streams t (<[0 := x']> (streams t)) (next_stream_id t), r).
Proof. intros E Em. unfold on_stream. rewrite E. by rewrite Em. Qed.

Lemma side_put c s t x tx rx :
  ready s → primary_address s = ch_own c → tstate t = Established → remote_receive_id t = Some (ch_there c) →
  flow x (ch_profile c) (ch_opened c) tx rx → side c (put_stream s (ch_here c) (ch_other c) t x) tx rx.
Proof.
  intros [Hp Hv Ha] Ho Ht Hr Hf. split; [by split | exact Ho |]. exists (with_streams t (<[0 := x]> (streams t)) (next_stream_id t)), x.
  cbn. rewrite !lookup_insert_eq. split_and!; done.
Qed.

Lemma side_push c s tx rx f : side c s tx rx → side c (push_data s f) tx rx.
Proof. intros [Hr Ho Hs]. split; [by apply ready_push | exact Ho | exact Hs]. Qed.
Lemma side_form c s tx rx p : side c s tx rx → side c (with_form s p) tx rx.
Proof. intros [Hr Ho Hs]. split; [by apply ready_form | exact Ho | exact Hs]. Qed.

(** A packet for this end is decoded with the profile of its stream. *)
Lemma side_profile c s tx rx : side c s tx rx → profile_of s (Some (ch_here c, 0)) = Ok (Some (ch_profile c)).
Proof.
  intros [_ _ (t & x & Ht & _ & _ & Hx & Hf)]. unfold profile_of, get_stream. rewrite Ht. cbn [ok_or]. rewrite bind_Ok_l.
  cbn [tunnel]. rewrite Hx. cbn [ok_or]. by rewrite bind_Ok_l, (fl_profile _ _ _ _ _ Hf).
Qed.

Lemma side_handles c s tx rx p g now :
  channel_ok c → side c s tx rx → bears p (ch_other c) (ch_own c) g (Some (ch_profile c)) →
  stream_ids g = Some (ch_here c, 0) →
  handle_gdp p now s = handle_gts_packet (ch_other c) (hdr_size_class (pkt_header p)) g (with_form s p).
Proof.
  intros Hc Hs Hp Hi. apply (handle_gdp_gts s p _ _ _ _ now Hp); [symmetry; apply Hs | apply Hc |].
  rewrite Hi. by eapply side_profile.
Qed.

(** ** The operations on one side *)

Definition queued (tx : ReliableTx) (data : list Z) (now : Z) : ReliableTx :=
  mkRtx (wrapping_add 32 (next_sequence tx) 1) (peer_credit tx - 1)
    (<[next_sequence tx := mkPending data false now]> (outstanding tx)) (rto_ms tx).

Lemma rtx_queue_eq tx data now :
  peer_credit tx ≠ 0 → rtx_queue data false now tx = (queued tx data now, Ok (next_sequence tx)).
Proof.
  intros H. unfold rtx_queue. rewrite (st_bind_Ok_l _ _ tx tx tx) by done.
  rewrite (proj2 (Z.eqb_neq _ _) H). by rewrite (st_bind_Ok_l _ _ tx tx tt) by done.
Qed.

Lemma side_send c s tx rx data now :
  channel_ok c → side c s tx rx → may_send (ch_profile c) (ch_opened c) = true → sendable (ch_profile c) data →
  bytes data → peer_credit tx ≠ 0 → u32 (next_sequence tx) →
  ∃ s' p, ep_send (ch_here c) 0 data now s = (s', Ok tt) ∧ sends s s' [p] ∧
    posted p (ch_own c) (ch_other c) (Data (ch_there c) 0 (next_sequence tx) data false) (Some (ch_profile c)) ∧
    side c s' (queued tx data now) rx.
Proof.
  intros Hc [Hr Ho (t & x & Ht & Hst & Hrm & Hx & [Eid Epr Est Eop El Er Etx Erx])] Hmay Hlen Hb Hcr Hsq.
  set (x' := with_tx x (Some (queued tx data now))). set (g := Data (ch_there c) 0 (next_sequence tx) data false).
  assert (Hsend : send_packet (ch_there c) data false now x = (x', Ok g)).
  { rewrite send_packet_eq, Est, El, (Hlen x Epr), Epr, (co_reliable c Hc), Etx, rtx_queue_eq by done.
    unfold local_may_send. rewrite Eop, Epr. unfold may_send in Hmay. rewrite Hmay. unfold g. by rewrite <- Eid. }
  assert (Hfit : payload_fits (profile x) (Data (ch_there c) (id x) (next_sequence tx) data false)).
  { apply data_payload_fits; [split; [rewrite Epr; apply Hc | rewrite Eid; ulia] | apply Hc | done | done
      | rewrite Epr; apply Hc | by apply Hlen]. }
  rewrite Epr, Eid in Hfit. fold g in Hfit. destruct Hfit as (Hwf & Hadm & Hfit).
  set (s1 := put_stream s (ch_here c) (ch_other c) t x').
  assert (Hs1 : side c s1 (queued tx data now) rx) by (apply side_put; try done; split; done).
  destruct (send_gts_ok s1 (ch_other c) g _ _ (si_ready _ _ _ _ Hs1) (co_other c Hc) Hwf Hadm Hfit) as (f & p & Hg & Hd & Hp).
  rewrite (si_own _ _ _ _ Hs1) in Hp. exists (push_data s1 f), p.
  split; [| split; [exact (sends_one s1 f p Hd) | split; [exact Hp | by apply side_push]]].
  unfold ep_send, send_inner. rewrite (st_bind_Ok_l _ _ s s1 (ch_other c, ch_profile c, g)); [exact Hg |].
  eapply on_tunnel_eq; [exact Ht |]. rewrite (st_bind_Ok_l _ _ t t t) by done. rewrite Hst, bool_decide_eq_true_2 by done.
  rewrite (st_bind_Ok_l _ _ t t tt) by done.
  rewrite (st_bind_Ok_l _ _ t t (ch_there c)) by (unfold lift, remote_id; by rewrite Hrm).
  rewrite (st_bind_Ok_l _ _ t (with_streams t (<[0 := x']> (streams t)) (next_stream_id t)) (ch_profile c, g)); [done |].
  eapply on_stream_eq; [exact Hx |]. rewrite (st_bind_Ok_l _ _ x x x) by done.
  rewrite (st_bind_Ok_l _ _ x x' g) by exact Hsend. by rewrite Epr.
Qed.

(** An acknowledgement fits a frame. *)
Lemma ack_sendable rx tid prof base bm k :
  u32 tid → rrx_ack rx = Some (base, bm, k) →
  let g := Ack tid 0 base bm k in wf_packet g ∧ admissible g prof ∧ fits g prof Ctrl32.
Proof.
  intros Ht Hack. destruct (ack_range _ _ _ _ Hack) as [Hb Hm].
  assert (Hk : u8 k).
  { unfold rrx_ack in Hack. destruct (seen_any rx); [| done]. cbn [negb] in Hack. injection Hack as _ _ <-. apply credit_u8. }
  cbn. split_and!; try done; try ulia. exists 20. by split_and!.
Qed.

Lemma receive_data_eq x prof o tx rx rx' tid q data b :
  flow x prof o tx rx → sp_unreliable prof = false → may_send prof (negb o) = true →
  rrx_receive q data rx = (rx', Ok b) →
  receive_packet (Data tid 0 q data false) x = (with_rx x (Some rx'), Ok (ack_packet tid 0 (rrx_ack rx'))).
Proof.
  intros [Eid Epr Est Eop El Er Etx Erx] Hu Hmay Hrx.
  assert (Hrem : remote_may_send x (opened_by_local x) = true).
  { unfold remote_may_send. rewrite Eop, Epr. unfold may_send in Hmay. by destruct o. }
  unfold receive_packet. rewrite (st_bind_Ok_l _ _ x x x) by done. unfold finished. rewrite Est. cbn [bool_decide].
  rewrite (st_bind_Ok_l _ _ x x tt) by done. rewrite Hrem. rewrite (st_bind_Ok_l _ _ x x tt) by done.
  rewrite Epr, Hu, Eid, Er. rewrite (st_bind_Ok_l _ _ x x tt) by done.
  rewrite (st_bind_Ok_l _ _ x (with_rx x (Some rx')) b) by (unfold on_rx; by rewrite Erx, Hrx).
  rewrite (st_bind_Ok_l _ _ (with_rx x (Some rx')) (with_rx x (Some rx')) tt) by done.
  by rewrite (st_bind_Ok_l _ _ (with_rx x (Some rx')) (with_rx x (Some rx')) rx') by done.
Qed.

(** A stream that could have sent to [x]. *)
Definition counterpart (x : GtsStream) : GtsStream :=
  mkStream (id x) (profile x) Open (negb (opened_by_local x)) None None 0 None [] false false.

Lemma data_admitted x prof o tx rx tid q data cl :
  flow x prof o tx rx → may_send prof (negb o) = true → fits (Data tid 0 q data false) (Some prof) cl →
  validate_incoming x cl (Data tid 0 q data false) = Ok tt.
Proof.
  intros [Eid Epr Est Eop El Er Etx Erx] Hmay Hfit. apply (fits_accepted (counterpart x)).
  - split_and!; try done. cbn. by rewrite negb_involutive.
  - unfold local_may_send. cbn. rewrite Epr, Eop. exact Hmay.
  - unfold finished. by rewrite Est.
  - cbn. by rewrite Epr.
  - exact Er.
Qed.

Lemma flow_rx x prof o tx rx rx' : flow x prof o tx rx → flow (with_rx x (Some rx')) prof o tx rx'.
Proof. intros []. by split. Qed.
Lemma flow_tx x prof o tx tx' rx : flow x prof o tx rx → flow (with_tx x (Some tx')) prof o tx' rx.
Proof. intros []. by split. Qed.

(** A side with a new receiver sends what the receiver acknowledges. *)
Lemma side_acknowledges c s t x tx rx rx' base bm k :
  channel_ok c → ready s → primary_address s = ch_own c → tstate t = Established →
  remote_receive_id t = Some (ch_there c) → flow x (ch_profile c) (ch_opened c) tx rx →
  rrx_ack rx' = Some (base, bm, k) →
  let s1 := put_stream s (ch_here c) (ch_other c) t (with_rx x (Some rx')) in
  ∃ s' a, send_gts (ch_other c) (Ack (ch_there c) 0 base bm k) (Some (ch_profile c)) s1 = (s', Ok tt) ∧ sends s s' [a] ∧
    posted a (ch_own c) (ch_other c) (Ack (ch_there c) 0 base bm k) (Some (ch_profile c)) ∧ side c s' tx rx'.
Proof.
  intros Hc Hr Ho Hst Hrm Hf Hack s1.
  assert (Hs1 : side c s1 tx rx') by (apply side_put; try done; by apply (flow_rx _ _ _ _ rx)).
  destruct (ack_sendable rx' (ch_there c) (Some (ch_profile c)) base bm k (co_there c Hc) Hack) as (Hwf & Hadm & Hfit).
  destruct (send_gts_ok s1 (ch_other c) _ _ _ (si_ready _ _ _ _ Hs1) (co_other c Hc) Hwf Hadm Hfit) as (f & a & Hg & Hd & Ha).
  rewrite (si_own _ _ _ _ Hs1) in Ha. exists (push_data s1 f), a.
  split; [exact Hg | split; [exact (sends_one s1 f a Hd) | split; [exact Ha | by apply side_push]]].
Qed.

Lemma side_data c s tx rx rx' p q data b base bm k now :
  channel_ok c → side c s tx rx → may_send (ch_profile c) (negb (ch_opened c)) = true →
  bears p (ch_other c) (ch_own c) (Data (ch_here c) 0 q data false) (Some (ch_profile c)) →
  rrx_receive q data rx = (rx', Ok b) → rrx_ack rx' = Some (base, bm, k) →
  ∃ s' a, handle_gdp p now s = (s', Ok tt) ∧ sends s s' [a] ∧
    posted a (ch_own c) (ch_other c) (Ack (ch_there c) 0 base bm k) (Some (ch_profile c)) ∧ side c s' tx rx'.
Proof.
  intros Hc Hs Hmay Hp Hrx Hack. rewrite (side_handles c s tx rx p _ now Hc Hs Hp eq_refl).
  destruct (side_form c s tx rx p Hs) as [Hr Ho (t & x & Ht & Hst & Hrm & Hx & Hf)]. set (s0 := with_form s p) in *.
  destruct (side_acknowledges c s0 t x tx rx rx' base bm k Hc Hr Ho Hst Hrm Hf Hack) as (s' & a & Hg & Hsn & Ha & Hs').
  set (x' := with_rx x (Some rx')) in *. set (s1 := put_stream s0 (ch_here c) (ch_other c) t x') in *.
  exists s', a. split; [| split; [exact Hsn | split; [exact Ha | exact Hs']]].
  cbn [handle_gts_packet]. unfold handle_data.
  rewrite (st_bind_Ok_l _ _ s0 s1 (ch_other c, ch_there c, Some (Ack (ch_here c) 0 base bm k), ch_profile c)); [exact Hg |].
  eapply on_tunnel_eq; [exact Ht |]. set (t' := with_streams t (<[0 := x']> (streams t)) (next_stream_id t)).
  rewrite (st_bind_Ok_l _ _ t t' (ch_profile c, Some (Ack (ch_here c) 0 base bm k))).
  - rewrite (st_bind_Ok_l _ _ t' t' t') by done.
    by rewrite (st_bind_Ok_l _ _ t' t' (ch_there c)) by (unfold lift, remote_id; cbn; by rewrite Hrm).
  - eapply on_stream_eq; [exact Hx |]. rewrite (st_bind_Ok_l _ _ x x x) by done.
    rewrite (st_bind_Ok_l _ _ x x tt).
    2: { unfold lift. f_equal. apply (data_admitted x (ch_profile c) (ch_opened c) tx rx); [exact Hf | exact Hmay | exact (be_fits _ _ _ _ _ Hp)]. }
    rewrite (st_bind_Ok_l _ _ x x' (ack_packet (ch_here c) 0 (rrx_ack rx'))).
    + rewrite Hack. cbn. by rewrite (fl_profile _ _ _ _ _ Hf).
    + apply (receive_data_eq x (ch_profile c) (ch_opened c) tx rx rx' _ _ _ b); [exact Hf | apply Hc | exact Hmay | exact Hrx].
Qed.

Lemma side_ack c s tx rx p base bm k now :
  channel_ok c → side c s tx rx →
  bears p (ch_other c) (ch_own c) (Ack (ch_here c) 0 base bm k) (Some (ch_profile c)) →
  ∃ s', handle_gdp p now s = (s', Ok tt) ∧ sends s s' [] ∧ side c s' (rtx_on_ack base bm k tx) rx.
Proof.
  intros Hc Hs Hp. rewrite (side_handles c s tx rx p _ now Hc Hs Hp eq_refl).
  destruct (side_form c s tx rx p Hs) as [Hr Ho (t & x & Ht & Hst & Hrm & Hx & Hf)]. set (s0 := with_form s p) in *.
  set (x' := with_tx x (Some (rtx_on_ack base bm k tx))). exists (put_stream s0 (ch_here c) (ch_other c) t x').
  split; [| split; [by apply sends_none | apply side_put; try done; by apply (flow_tx _ _ _ tx)]].
  cbn [handle_gts_packet]. eapply on_tunnel_eq; [exact Ht |]. eapply on_stream_eq; [exact Hx |].
  rewrite (st_bind_Ok_l _ _ x x x) by done. destruct Hf as [Eid Epr Est Eop El Er Etx Erx].
  assert (Hfin : finished x = false) by (unfold finished; by rewrite Est).
  rewrite (st_bind_Ok_l _ _ x x tt).
  2: { unfold lift, validate_incoming. cbv zeta. by rewrite Hfin, Epr, (co_reliable c Hc). }
  unfold on_ack. rewrite (st_bind_Ok_l _ _ x x x) by done. rewrite Est, Epr, (co_reliable c Hc).
  rewrite (st_bind_Ok_l _ _ x x tt) by done.
  by rewrite (st_bind_Ok_l _ _ x x tx) by (unfold lift; by rewrite Etx).
Qed.

Lemma side_recv c s tx rx rx' data base bm k :
  channel_ok c → side c s tx rx → rrx_recv rx = (rx', Some data) → rrx_ack rx' = Some (base, bm, k) →
  ∃ s' a, ep_recv (ch_here c) 0 s = (s', Ok (Some data)) ∧ sends s s' [a] ∧
    posted a (ch_own c) (ch_other c) (Ack (ch_there c) 0 base bm k) (Some (ch_profile c)) ∧ side c s' tx rx'.
Proof.
  intros Hc [Hr Ho (t & x & Ht & Hst & Hrm & Hx & Hf)] Hrx Hack.
  destruct (side_acknowledges c s t x tx rx rx' base bm k Hc Hr Ho Hst Hrm Hf Hack) as (s' & a & Hg & Hsn & Ha & Hs').
  set (x' := with_rx x (Some rx')) in *. set (s1 := put_stream s (ch_here c) (ch_other c) t x') in *.
  exists s', a. split; [| split; [exact Hsn | split; [exact Ha | exact Hs']]].
  unfold ep_recv.
  rewrite (st_bind_Ok_l _ _ s s1 (ch_other c, ch_profile c, Some data, Some (Ack (ch_there c) 0 base bm k))).
  { by rewrite (st_bind_Ok_l _ _ s1 s' tt) by exact Hg. }
  eapply on_tunnel_eq; [exact Ht |]. rewrite (st_bind_Ok_l _ _ t t t) by done.
  rewrite (st_bind_Ok_l _ _ t t (ch_there c)) by (unfold lift, remote_id; by rewrite Hrm).
  eapply on_stream_eq; [exact Hx |]. rewrite (st_bind_Ok_l _ _ x x x) by done. destruct Hf as [Eid Epr Est Eop El Er Etx Erx].
  rewrite (st_bind_Ok_l _ _ x x' (Some data)).
  2: { unfold recv. rewrite (st_bind_Ok_l _ _ x x x) by done. rewrite Epr, (co_reliable c Hc). unfold on_rx. by rewrite Erx, Hrx. }
  rewrite (st_bind_Ok_l _ _ x' x' x') by done. unfold receive_credit_ack. cbn. rewrite Epr, (co_reliable c Hc), Est, Hack, Eid. done.
Qed.

(** ** Bringing a tunnel up *)

Lemma css_len css w : Css.encode css = Ok w → len w ≤ 17.
Proof.
  unfold Css.encode. intros (n & Hn & H)%bind_Ok. apply bind_Ok in H as ([out m] & He & <-%Ok_inj).
  unfold Css.encode_into in He. unfold encoded_len in Hn. destruct (canonical_wire css) as [v | |]; [| done..].
  rewrite bind_Ok_l in He. apply bind_Ok in He as (u & _ & He). apply bind_Ok in He as (o & _ & He).
  apply Ok_inj, pair_inv in He as [_ <-]. rewrite len_take. pose proof (len_nonneg o). destruct v; cbn [css_wire_len]; lia.
Qed.

Lemma connect_sendable tid reset sp credit css :
  u32 tid → u32 reset → u8 credit → wf_selector css → sel css ≠ zeros 16 →
  sp_validate sp = Ok sp → sp_unreliable sp = false →
  let g := Connect tid reset sp credit css in wf_packet g ∧ admissible g None ∧ fits g None Ctrl64.
Proof.
  intros Ht Hr Hc Hw Hz Hv Hu. split; [by split_and! |]. split; [cbn; by rewrite Hu |].
  destruct (css_encode_decode css [] Hw Hz) as (w & Ew & _). exists (1 + 4 + 4 + 2 + 1 + len w + 4).
  cbn [minimum_len]. rewrite Ew, bind_Ok_l. pose proof (css_len _ _ Ew). change (sc_bytes Ctrl64) with 64. split_and!; [done | lia | done].
Qed.

Lemma connect_ack_sendable tid tid' reset credit :
  u32 tid → u32 tid' → u32 reset → u8 credit →
  let g := ConnectAck tid tid' reset 0 credit in wf_packet g ∧ admissible g None ∧ fits g None Ctrl32.
Proof. intros. cbn. split_and!; try done; try ulia. eexists. by split_and!. Qed.

Lemma stream_new_flow sp opened lc pc :
  sp_validate sp = Ok sp → sp_unreliable sp = false →
  ∃ x, stream_new 0 sp opened lc pc = Ok x ∧ flow x sp opened (rtx_new pc) (rrx_new (Z.max lc 1)).
Proof. intros Hv Hu. eexists. unfold stream_new. rewrite Hv, bind_Ok_l, Hu. split; [reflexivity |]. by split. Qed.

(** The end of the opener before the answer. *)
Record opening (c : channel) (s : EndpointCore) (tx : ReliableTx) (rx : ReliableRx) : Prop := {
  op_ready : ready s;
  op_own : primary_address s = ch_own c;
  op_stream : ∃ t x, tunnels s !! ch_here c = Some (mkRecord (ch_other c) t) ∧ tstate t = Connecting ∧
    streams t !! 0 = Some x ∧ flow x (ch_profile c) (ch_opened c) tx rx }.

Lemma alloc_tunnel_eq s :
  alloc_tunnel s = (set_ids s (next_u 32 (next_tunnel s)) (next_u 32 (next_reset s)), Ok (next_tunnel s, next_reset s)).
Proof. done. Qed.

(** The ranges [connect] relies on *)
Record fresh_ids (s : EndpointCore) : Prop := {
  fi_tunnel : u32 (next_tunnel s); fi_reset : u32 (next_reset s) }.

Lemma connect_sends c s css :
  channel_ok c → ready s → fresh_ids s → primary_address s = ch_own c → ch_here c = next_tunnel s → ch_opened c = true →
  u8 (ec_gts_receive_slots (config s)) → wf_selector css → sel css ≠ zeros 16 →
  let k := local_gts_credit s (ch_profile c) true in
  ∃ s' p, ep_connect (ch_other c) css (ch_profile c) s = (s', Ok (ch_here c)) ∧ sends s s' [p] ∧
    posted p (ch_own c) (ch_other c) (Connect (ch_here c) (next_reset s) (ch_profile c) k css) None ∧
    opening c s' (rtx_new 0) (rrx_new (Z.max k 1)).
Proof.
  intros Hc Hr [Hft Hfr] Ho Hh Hop Hslots Hw Hz k.
  assert (Hk : u8 k) by (unfold k, local_gts_credit; repeat case_match; done || ulia).
  destruct (connect_sendable (ch_here c) (next_reset s) (ch_profile c) k css) as (Hwf & Hadm & Hfit); try done; [apply Hc.. |].
  destruct (stream_new_flow (ch_profile c) true k 0 (co_profile c Hc) (co_reliable c Hc)) as (x & Ex & Hf).
  set (s0 := set_ids s (next_u 32 (next_tunnel s)) (next_u 32 (next_reset s))).
  set (t := mkTunnel Initiator Connecting (ch_here c) None (next_reset s) None css {[0 := x]} 2).
  set (s1 := set_tunnels s0 (<[ch_here c := mkRecord (ch_other c) t]> (tunnels s0))).
  assert (Hr1 : ready s1) by (destruct Hr; by split).
  destruct (send_gts_ok s1 (ch_other c) _ _ _ Hr1 (co_other c Hc) Hwf Hadm Hfit) as (f & p & Hg & Hd & Hp).
  change (primary_address s1) with (primary_address s) in Hp. rewrite Ho in Hp. exists (push_data s1 f), p.
  split; [| split; [exact (sends_one s1 f p Hd) | split; [exact Hp |]]].
  - unfold ep_connect. rewrite (st_bind_Ok_l _ _ s s (ch_profile c)) by (unfold lift; by rewrite (co_profile c Hc)).
    rewrite (st_bind_Ok_l _ _ s s0 (next_tunnel s, next_reset s)) by done. rewrite <- Hh.
    rewrite (st_bind_Ok_l _ _ s0 s0 s0) by done. cbv zeta. change (local_gts_credit s0 (ch_profile c) true) with k.
    rewrite (st_bind_Ok_l _ _ s0 s0 t) by (unfold lift, tunnel_initiator; by rewrite Ex).
    rewrite (st_bind_Ok_l _ _ s0 s1 tt) by done.
    by rewrite (st_bind_Ok_l _ _ s1 (push_data s1 f) tt) by exact Hg.
  - split; [by apply ready_push | exact Ho |]. exists t, x. cbn. rewrite Hop, lookup_insert_eq. by split_and!.
Qed.

Lemma accept_connects c s p rt pk css lst now :
  channel_ok c → ready s → fresh_ids s → primary_address s = ch_own c → ch_here c = next_tunnel s → ch_opened c = false →
  listeners s !! css = Some lst → u8 (receive_slots lst) →
  bears p (ch_other c) (ch_own c) (Connect (ch_there c) rt (ch_profile c) pk css) None →
  let k := if opener_may_send (sp_direction (ch_profile c)) then receive_slots lst else 0 in
  ∃ s' a, handle_gdp p now s = (s', Ok tt) ∧ sends s s' [a] ∧
    posted a (ch_own c) (ch_other c) (ConnectAck (ch_there c) (ch_here c) (next_reset s) 0 k) None ∧
    side c s' (rtx_new pk) (rrx_new (Z.max k 1)) ∧ accepted s' = accepted s ++ [ch_here c].
Proof.
  intros Hc Hr [Hft Hfr] Ho Hh Hop Hl Hslots Hp k.
  rewrite (handle_gdp_gts s p _ _ _ _ now Hp); [| by rewrite Ho | apply Hc | done].
  set (s0 := with_form s p). assert (Hk : u8 k) by (unfold k; case_match; [done | ulia]).
  destruct (connect_ack_sendable (ch_there c) (ch_here c) (next_reset s) k) as (Hwf & Hadm & Hfit); try done; [apply Hc.. |].
  destruct (stream_new_flow (ch_profile c) false k pk (co_profile c Hc) (co_reliable c Hc)) as (x & Ex & Hf).
  set (s1 := set_ids s0 (next_u 32 (next_tunnel s)) (next_u 32 (next_reset s))).
  set (t := mkTunnel Responder Established (ch_here c) (Some (ch_there c)) (next_reset s) (Some rt) css {[0 := x]} 1).
  set (s2 := set_tunnels s1 (<[ch_here c := mkRecord (ch_other c) t]> (tunnels s1))).
  set (s3 := set_accepted s2 (accepted s ++ [ch_here c])).
  assert (Hr3 : ready s3) by (destruct Hr; by split).
  destruct (send_gts_ok s3 (ch_other c) _ _ _ Hr3 (co_other c Hc) Hwf Hadm Hfit) as (f & a & Hg & Hd & Ha).
  change (primary_address s3) with (primary_address s) in Ha. rewrite Ho in Ha. exists (push_data s3 f), a.
  split; [| split; [exact (sends_one s3 f a Hd) | split; [exact Ha | split; [| done]]]].
  - cbn [handle_gts_packet]. unfold handle_connect. rewrite (st_bind_Ok_l _ _ s0 s0 s0) by done.
    rewrite (st_bind_Ok_l _ _ s0 s0 lst) by (unfold lift; change (listeners s0) with (listeners s); by rewrite Hl).
    rewrite (st_bind_Ok_l _ _ s0 s1 (next_tunnel s, next_reset s)) by done. rewrite <- Hh. cbv zeta.
    rewrite (co_reliable c Hc). change (if opener_may_send _ then receive_slots lst else 0) with k.
    rewrite (st_bind_Ok_l _ _ s1 s1 t) by (unfold lift, tunnel_responder; by rewrite Ex).
    rewrite (st_bind_Ok_l _ _ s1 s2 tt) by done. rewrite (st_bind_Ok_l _ _ s2 s3 tt) by done. exact Hg.
  - apply side_push. split; [done | exact Ho |]. exists t, x. cbn. rewrite Hop, lookup_insert_eq. by split_and!.
Qed.

Lemma connect_completes c s tx rx p rt k now :
  channel_ok c → opening c s tx rx →
  bears p (ch_other c) (ch_own c) (ConnectAck (ch_here c) (ch_there c) rt 0 k) None →
  ∃ s', handle_gdp p now s = (s', Ok tt) ∧ sends s s' [] ∧ side c s' (rtx_set_credit k tx) rx.
Proof.
  intros Hc [Hr Ho (t & x & Ht & Hst & Hx & Hf)] Hp.
  rewrite (handle_gdp_gts s p _ _ _ _ now Hp); [| by rewrite Ho | apply Hc | done].
  set (s0 := with_form s p). set (x' := with_tx x (Some (rtx_set_credit k tx))).
  set (t1 := mkTunnel (role t) Established (local_receive_id t) (Some (ch_there c)) (local_reset_id t) (Some rt)
    (GtsStream.css t) (streams t) (next_stream_id t)).
  exists (put_stream s0 (ch_here c) (ch_other c) t1 x').
  split; [| split; [by apply sends_none | apply side_put; [by apply ready_form | done.. | by apply (flow_tx _ _ _ tx)]]].
  cbn [handle_gts_packet]. unfold handle_connect_ack. rewrite (st_bind_Ok_l _ _ s0 s0 tt) by done.
  eapply on_tunnel_eq; [exact Ht |]. rewrite (st_bind_Ok_l _ _ t t t) by done.
  rewrite (st_bind_Ok_l _ _ t t x) by (unfold lift; by rewrite Hx).
  rewrite (fl_profile _ _ _ _ _ Hf), (co_reliable c Hc). rewrite (st_bind_Ok_l _ _ t t tt) by done.
  unfold establish_initiator. rewrite (st_bind_Ok_l _ _ t t t) by done. rewrite Hst, bool_decide_eq_true_2 by done.
  rewrite (st_bind_Ok_l _ _ t t tt) by done. rewrite (st_bind_Ok_l _ _ t t1 tt) by done.
  rewrite (st_bind_Ok_l _ _ t1 t1 x) by (unfold lift, t1; cbn; by rewrite Hx).
  unfold modify. by rewrite (fl_tx _ _ _ _ _ Hf).
Qed.

(** ** One message *)

(** A sender with nothing outstanding and credit to go on, after [k] messages. *)
Record tx_idle (may : bool) (tx : ReliableTx) (k : Z) : Prop := {
  ti_next : next_sequence tx = k;
  ti_credit : may = true → 1 ≤ peer_credit tx;
  ti_out : outstanding tx = ∅ }.
(** A receiver whose application has taken all [k] messages. *)
Record rx_idle (rx : ReliableRx) (k : Z) : Prop := {
  ri_next : next_expected rx = k;
  ri_pending : pending rx = ∅;
  ri_delivered : delivered rx = [];
  ri_capacity : 1 ≤ capacity rx }.

Definition holding (rx : ReliableRx) (k : Z) (queue : list (list Z)) : ReliableRx :=
  mkRrx k ∅ queue (capacity rx) true.

Lemma idle_receive rx k data :
  rx_idle rx k → 0 ≤ k → k + 1 < 2 ^ 32 → rrx_receive k data rx = (holding rx (k + 1) [data], Ok true).
Proof.
  intros [En Ep Ed Hc] Hk Hk'. unfold rrx_receive. rewrite (st_bind_Ok_l _ _ rx rx rx) by done.
  rewrite En, Z.ltb_irrefl, Z.eqb_refl. unfold used at 1. rewrite Ep, Ed, map_size_empty.
  replace (capacity rx <=? Z.of_nat 0 + len []) with false by (change (len []) with 0; lia).
  rewrite (st_bind_Ok_l _ _ rx rx tt) by done. rewrite (st_bind_Ok_l _ _ rx (holding rx (k + 1) [data]) tt); [done |].
  unfold modify, holding. rewrite Ep, Ed, map_size_empty, En. cbn [drain app]. do 2 f_equal.
  unfold wrapping_add. apply Z.mod_small. lia.
Qed.

Lemma holding_ack rx k queue :
  0 ≤ k → k + 1 < 2 ^ 32 →
  rrx_ack (holding rx (k + 1) queue) = Some (k, 0, credit (holding rx (k + 1) queue)).
Proof.
  intros. unfold rrx_ack. cbn [seen_any holding negb]. do 2 f_equal. f_equal.
  cbn [next_expected holding]. unfold wrapping_sub. replace (k + 1 - 1) with k by lia. apply Z.mod_small. lia.
Qed.

Lemma ack_clears tx k c :
  (∀ q, is_Some (outstanding tx !! q) → q = k) → rtx_on_ack k 0 c tx = mkRtx (next_sequence tx) c ∅ (rto_ms tx).
Proof.
  intros H. unfold rtx_on_ack. f_equal. apply map_eq. intros q. rewrite lookup_empty. apply map_lookup_filter_None. right. intros p Hq Ha.
  rewrite (H q) in Ha by by eexists. cbn in Ha. unfold acked in Ha. by rewrite Z.leb_refl in Ha.
Qed.

(** What the network between two endpoints must do, one way: [way p p'] when
    [p], posted at one end, comes out as [p'] at the other. *)
Definition connects (way : GdpPacket → GdpPacket → Prop) (src dst : Z) : Prop :=
  ∀ p, outbound p src dst → ∃ p', way p p' ∧ arrives p p'.

Lemma connects_posted way src dst p g prof :
  connects way src dst → posted p src dst g prof → ∃ p', way p p' ∧ bears p' src dst g prof.
Proof. intros Hw [Hb Ho]. destruct (Hw p Ho) as (p' & Hp & Ha). exists p'. split; [done | by eapply arrives_bears]. Qed.

(** A message from the side of [c] to the far side, with all it causes *)
Lemma exchange there back c S R txS rxS txR rxR k data now :
  connects there (ch_own c) (ch_other c) → connects back (ch_other c) (ch_own c) →
  channel_ok c → side c S txS rxS → side (far c) R txR rxR →
  may_send (ch_profile c) (ch_opened c) = true → tx_idle true txS k → rx_idle rxR k →
  sendable (ch_profile c) data → bytes data → 0 ≤ k → k + 1 < 2 ^ 32 →
  ∃ S1 S2 S3 R1 R2 p a1 a2 p' a1' a2' txS' rxR',
    (ep_send (ch_here c) 0 data now S = (S1, Ok tt) ∧ sends S S1 [p]) ∧
    (there p p' ∧ handle_gdp p' now R = (R1, Ok tt) ∧ sends R R1 [a1]) ∧
    (back a1 a1' ∧ handle_gdp a1' now S1 = (S2, Ok tt) ∧ sends S1 S2 []) ∧
    (ep_recv (ch_there c) 0 R1 = (R2, Ok (Some data)) ∧ sends R1 R2 [a2]) ∧
    (back a2 a2' ∧ handle_gdp a2' now S2 = (S3, Ok tt) ∧ sends S2 S3 []) ∧
    side c S3 txS' rxS ∧ tx_idle true txS' (k + 1) ∧ side (far c) R2 txR rxR' ∧ rx_idle rxR' (k + 1).
Proof.
  intros Hto Hfro Hc HS HR Hmay [En Hcr Eo] Hrx Hlen Hb Hk Hk'. specialize (Hcr eq_refl).
  pose proof (far_ok c Hc) as Hfc.
  destruct (side_send c S txS rxS data now Hc HS Hmay Hlen Hb) as (S1 & p & E1 & N1 & Hp & HS1); [lia | rewrite En; ulia |].
  destruct (connects_posted _ _ _ _ _ _ Hto Hp) as (p' & W1 & Hp').
  rewrite En in Hp'. set (rx1 := holding rxR (k + 1) [data]). set (rx2 := holding rxR (k + 1) []).
  destruct (side_data (far c) R txR rxR rx1 p' k data true k 0 (credit rx1) now Hfc HR) as (R1 & a1 & E2 & N2 & Ha1 & HR1);
    [cbn; by rewrite negb_involutive | exact Hp' | by apply idle_receive | by apply holding_ack |].
  destruct (connects_posted _ _ _ _ _ _ Hfro Ha1) as (a1' & W2 & Ha1').
  destruct (side_ack c S1 _ _ a1' k 0 (credit rx1) now Hc HS1 Ha1') as (S2 & E3 & N3 & HS2).
  destruct (side_recv (far c) R1 txR rx1 rx2 data k 0 (credit rx2) Hfc HR1) as (R2 & a2 & E4 & N4 & Ha2 & HR2);
    [done | by apply holding_ack |].
  destruct (connects_posted _ _ _ _ _ _ Hfro Ha2) as (a2' & W3 & Ha2').
  destruct (side_ack c S2 _ _ a2' k 0 (credit rx2) now Hc HS2 Ha2') as (S3 & E5 & N5 & HS3).
  exists S1, S2, S3, R1, R2, p, a1, a2, p', a1', a2'.
  exists (rtx_on_ack k 0 (credit rx2) (rtx_on_ack k 0 (credit rx1) (queued txS data now))), rx2.
  split; [exact (conj E1 N1) |]. split; [exact (conj W1 (conj E2 N2)) |]. split; [exact (conj W2 (conj E3 N3)) |].
  split; [exact (conj E4 N4) |]. split; [exact (conj W3 (conj E5 N5)) |]. split; [exact HS3 |]. split; [| split; [exact HR2 |]].
  - rewrite (ack_clears (queued txS data now)).
    + rewrite ack_clears by (intros q [v Hv]; cbn in Hv; by rewrite lookup_empty in Hv). split; cbn; [| | done].
      * unfold wrapping_add. rewrite En. apply Z.mod_small. lia.
      * intros _. unfold credit, used, saturating_sub, rx2, holding. cbn [capacity pending delivered].
        rewrite map_size_empty. change (len []) with 0. destruct Hrx. lia.
    + intros q [v Hv]. cbn in Hv. rewrite Eo, En in Hv. by apply lookup_singleton_Some in Hv as [-> _].
  - destruct Hrx. by split.
Qed.

(** ** Two endpoints and the packets between them *)

(** [true] is the side that opens the tunnel. *)
Record pair : Set := mkPair { at_a : EndpointCore; at_b : EndpointCore; to_a : list GdpPacket; to_b : list GdpPacket }.

Definition core (w : bool) (n : pair) : EndpointCore := if w then at_a n else at_b n.
Definition inbox (w : bool) (n : pair) : list GdpPacket := if w then to_a n else to_b n.
(** The endpoint of [w] goes to [s] and has sent [ps]. *)
Definition moved (w : bool) (n : pair) (s : EndpointCore) (ps : list GdpPacket) : pair :=
  if w then mkPair s (at_b n) (to_a n) (to_b n ++ ps) else mkPair (at_a n) s (to_a n ++ ps) (to_b n).
Definition with_inbox (w : bool) (n : pair) (l : list GdpPacket) : pair :=
  if w then mkPair (at_a n) (at_b n) l (to_b n) else mkPair (at_a n) (at_b n) (to_a n) l.

(** What the applications see *)
Inductive event : Set :=
  | Opened (w : bool) (h : Z) | Took (w : bool) (h : Z) | Sent (w : bool) (data : list Z) | Got (w : bool) (data : list Z).

Definition end_of (w : bool) (c : channel) : channel := if w then c else far c.
Lemma end_of_other w c : end_of (negb w) c = far (end_of w c).
Proof. destruct w; [done |]. symmetry. apply far_far. Qed.
Lemma end_of_ok w c : channel_ok c → channel_ok (end_of w c).
Proof. destruct w; [done | apply far_ok]. Qed.
Lemma end_of_profile w c : ch_profile (end_of w c) = ch_profile c.
Proof. by destruct w. Qed.

Section network.
(** [carry w p p']: what side [w] posted as [p] comes out at the other side as [p']. *)
Context (carry : bool → GdpPacket → GdpPacket → Prop).

Inductive step : pair → list event → pair → Prop :=
  | step_connect w remote css p h s ps n :
      ep_connect remote css p (core w n) = (s, Ok h) → sends (core w n) s ps → step n [Opened w h] (moved w n s ps)
  | step_accept w h s n : accept (core w n) = (s, Some h) → step n [Took w h] (moved w n s [])
  | step_send w h data now s ps n :
      ep_send h 0 data now (core w n) = (s, Ok tt) → sends (core w n) s ps → step n [Sent w data] (moved w n s ps)
  | step_recv w h data s ps n :
      ep_recv h 0 (core w n) = (s, Ok (Some data)) → sends (core w n) s ps → step n [Got w data] (moved w n s ps)
  | step_deliver w p p' rest now s ps n :
      inbox w n = p :: rest → carry (negb w) p p' → handle_gdp p' now (core w n) = (s, Ok tt) → sends (core w n) s ps →
      step n [] (moved w (with_inbox w n rest) s ps).

Inductive steps : pair → list event → pair → Prop :=
  | steps_done n : steps n [] n
  | steps_more n es n' es' n'' : step n es n' → steps n' es' n'' → steps n (es ++ es') n''.

Lemma steps_app n es n' es' n'' : steps n es n' → steps n' es' n'' → steps n (es ++ es') n''.
Proof.
  induction 1 as [| n es0 n1 es1 n2 H _ IH]; intros; [done |]. rewrite <- app_assoc. eapply steps_more; [exact H | by apply IH].
Qed.

(** Nothing is in flight; side [w] has sent [k w] messages, all of them taken
    and acknowledged. *)
Definition quiet (c : channel) (n : pair) (k : bool → Z) : Prop :=
  ∀ w, inbox w n = [] ∧ ∃ tx rx, side (end_of w c) (core w n) tx rx ∧
    tx_idle (may_send (ch_profile c) (ch_opened (end_of w c))) tx (k w) ∧ rx_idle rx (k (negb w)).

Definition bump (k : bool → Z) (w : bool) : bool → Z := λ v, if Bool.eqb v w then k v + 1 else k v.
Lemma bump_same k w : bump k w w = k w + 1.
Proof. unfold bump. by rewrite eqb_reflx. Qed.
Lemma bump_other k w : bump k w (negb w) = k (negb w).
Proof. unfold bump. by destruct w. Qed.

(** Whatever one side posts for the other reaches it. *)
Definition joined (c : channel) : Prop := ∀ w, connects (carry w) (ch_own (end_of w c)) (ch_other (end_of w c)).

(** The pair after the five moves of [exchange] *)
Lemma quiet_message c n k w data (now : Z) :
  joined c → channel_ok c → quiet c n k → may_send (ch_profile c) (ch_opened (end_of w c)) = true →
  sendable (ch_profile c) data → bytes data → 0 ≤ k w → k w + 1 < 2 ^ 32 →
  ∃ n', steps n [Sent w data; Got (negb w) data] n' ∧ quiet c n' (bump k w).
Proof.
  intros Hj Hc Hq Hmay Hlen Hb Hk Hk'. destruct (Hq w) as (Ei & txS & rxS & HS & HtS & HrS).
  destruct (Hq (negb w)) as (Ei' & txR & rxR & HR & HtR & HrR). rewrite negb_involutive in HrR.
  rewrite end_of_other in HR, HtR. rewrite Hmay in HtS.
  rewrite <- (end_of_profile w c) in Hmay, Hlen.
  pose proof (Hj (negb w)) as Hback. rewrite end_of_other in Hback.
  destruct (exchange (carry w) (carry (negb w)) (end_of w c) _ _ txS rxS txR rxR (k w) data now (Hj w) Hback (end_of_ok w c Hc)
      HS HR Hmay HtS HrR Hlen Hb Hk Hk')
    as (S1 & S2 & S3 & R1 & R2 & p & a1 & a2 & p' & a1' & a2' & txS' & rxR' & [E1 N1] & (W1 & E2 & N2) & (W2 & E3 & N3) & [E4 N4] &
      (W3 & E5 & N5) & HS3 & HtS' & HR2 & HrR').
  exists (moved w (moved (negb w) n R2 []) S3 []). split.
  - change [Sent w data; Got (negb w) data] with ([Sent w data] ++ [] ++ [] ++ [Got (negb w) data] ++ [] ++ []).
    destruct n as [A B qa qb]. destruct w; cbn in Ei, Ei', E1, N1, E2, N2, E4, N4; subst qa qb.
    + eapply steps_more; [apply (step_send true (ch_here c) data now S1 [p]); [exact E1 | exact N1] |].
      eapply steps_more; [apply (step_deliver false p p' [] now R1 [a1]); [reflexivity | exact W1 | exact E2 | exact N2] |].
      eapply steps_more; [apply (step_deliver true a1 a1' [] now S2 []); [reflexivity | exact W2 | exact E3 | exact N3] |].
      eapply steps_more; [apply (step_recv false (ch_there c) data R2 [a2]); [exact E4 | exact N4] |].
      eapply steps_more; [apply (step_deliver true a2 a2' [] now S3 []); [reflexivity | exact W3 | exact E5 | exact N5] |]. apply steps_done.
    + eapply steps_more; [apply (step_send false (ch_there c) data now S1 [p]); [exact E1 | exact N1] |].
      eapply steps_more; [apply (step_deliver true p p' [] now R1 [a1]); [reflexivity | exact W1 | exact E2 | exact N2] |].
      eapply steps_more; [apply (step_deliver false a1 a1' [] now S2 []); [reflexivity | exact W2 | exact E3 | exact N3] |].
      eapply steps_more; [apply (step_recv true (ch_here c) data R2 [a2]); [exact E4 | exact N4] |].
      eapply steps_more; [apply (step_deliver false a2 a2' [] now S3 []); [reflexivity | exact W3 | exact E5 | exact N5] |]. apply steps_done.
  - rewrite <- (end_of_profile w c) in HtR. intros v. assert (Hv : v = w ∨ v = negb w) by (destruct v, w; auto). destruct Hv as [-> | ->].
    + split; [destruct w; cbn in Ei |- *; by rewrite ?app_nil_r |].
      exists txS', rxS. rewrite bump_same, bump_other, <- (end_of_profile w c), Hmay.
      split; [destruct w; exact HS3 | split; [exact HtS' | exact HrS]].
    + split; [destruct w; cbn in Ei' |- *; by rewrite ?app_nil_r |].
      exists txR, rxR'. rewrite negb_involutive, bump_same, bump_other, end_of_other, <- (end_of_profile w c).
      split; [destruct w; exact HR2 | split; [exact HtR | exact HrR']].
Qed.

(** ** Setting up *)

(** What both sides need before the first message. *)
Record can_talk (A B : EndpointCore) (css : ServiceSelector) (prof : StreamProfile) : Prop := {
  ct_ready : ready A ∧ ready B;
  ct_ids : fresh_ids A ∧ fresh_ids B;
  ct_boot : primary_address A ≠ BOOTSTRAP_ADDRESS ∧ primary_address B ≠ BOOTSTRAP_ADDRESS;
  ct_profile : sp_validate prof = Ok prof;
  ct_reliable : sp_unreliable prof = false;
  ct_css : wf_selector css ∧ sel css ≠ zeros 16;
  ct_slots : 1 ≤ ec_gts_receive_slots (config A) ≤ 255;
  ct_listener : ∃ lst, listeners B !! css = Some lst ∧ 1 ≤ receive_slots lst ≤ 255;
  ct_accepted : accepted B = [] }.

(** The channel that [ep_connect] opens *)
Definition channel_between (A B : EndpointCore) (prof : StreamProfile) : channel :=
  mkChannel (primary_address A) (primary_address B) (next_tunnel A) (next_tunnel B) prof true.

Lemma channel_between_ok A B css prof : can_talk A B css prof → channel_ok (channel_between A B prof).
Proof. intros [[[] []] [[] []] [] Hv Hu _ _ _ _]. by split. Qed.

Lemma side_accept c s tx rx h rest :
  side c s tx rx → accepted s = h :: rest → accept s = (set_accepted s rest, Some h) ∧ side c (set_accepted s rest) tx rx.
Proof. intros [[] Ho Hs] E. unfold accept. rewrite E. split; [done |]. by split. Qed.

Lemma new_halves (may : bool) pk k : (may = true → 1 ≤ pk) → tx_idle may (rtx_new pk) 0 ∧ rx_idle (rrx_new (Z.max k 1)) 0.
Proof. intros H. split; split; cbn; [done | exact H | done | done | done | done | lia]. Qed.

Lemma tunnel_comes_up A B css prof (now : Z) :
  joined (channel_between A B prof) → can_talk A B css prof →
  ∃ n, steps (mkPair A B [] []) [Opened true (next_tunnel A); Took false (next_tunnel B)] n ∧
    quiet (channel_between A B prof) n (λ _, 0).
Proof.
  intros Hj Ht. pose proof (channel_between_ok _ _ _ _ Ht) as Hc. destruct Ht as [[HrA HrB] [HiA HiB] _ Hv Hu [Hw Hz] Hs (lst & Hl & Hls) Hacc].
  set (c := channel_between A B prof) in *. pose proof (far_ok c Hc) as Hfc. set (k := local_gts_credit A prof true).
  destruct (connect_sends c A css Hc HrA HiA eq_refl eq_refl eq_refl ltac:(ulia) Hw Hz) as (A1 & p & E1 & N1 & Hp & HA1).
  destruct (connects_posted _ _ _ _ _ _ (Hj true) Hp) as (p' & W1 & Hp').
  set (kb := if opener_may_send (sp_direction prof) then receive_slots lst else 0).
  destruct (accept_connects (far c) B p' (next_reset A) k css lst now Hfc HrB HiB eq_refl eq_refl eq_refl Hl ltac:(ulia) Hp')
    as (B1 & a & E2 & N2 & Ha & HB1 & Eacc). rewrite Hacc in Eacc.
  destruct (connects_posted _ _ _ _ _ _ (Hj false) Ha) as (a' & W2 & Ha').
  destruct (connect_completes c A1 _ _ a' (next_reset B) kb now Hc HA1 Ha') as (A2 & E3 & N3 & HA2).
  destruct (side_accept _ _ _ _ _ _ HB1 Eacc) as [E4 HB2].
  exists (mkPair A2 (set_accepted B1 []) [] []). split.
  - change [Opened true (next_tunnel A); Took false (next_tunnel B)]
      with ([Opened true (next_tunnel A)] ++ [] ++ [] ++ [Took false (next_tunnel B)] ++ []).
    eapply steps_more; [apply (step_connect true (ch_other c) css prof (ch_here c) A1 [p]); [exact E1 | exact N1] |].
    eapply steps_more; [apply (step_deliver false p p' [] now B1 [a]); [reflexivity | exact W1 | exact E2 | exact N2] |].
    eapply steps_more; [apply (step_deliver true a a' [] now A2 []); [reflexivity | exact W2 | exact E3 | exact N3] |].
    eapply steps_more; [apply (step_accept false (next_tunnel B) (set_accepted B1 [])); exact E4 |]. apply steps_done.
  - assert (Hka : peer_may_send (sp_direction prof) = true → 1 ≤ k).
    { unfold k, local_gts_credit. rewrite Hu. intros ->. lia. }
    assert (Hkb : opener_may_send (sp_direction prof) = true → 1 ≤ kb) by (unfold kb; intros ->; lia).
    intros [].
    + split; [done |]. exists (rtx_set_credit kb (rtx_new 0)), (rrx_new (Z.max k 1)). split; [exact HA2 |].
      split; [split; [done | exact Hkb | done] | exact (proj2 (new_halves true kb k Hkb)) || apply (new_halves false 0 k); done].
    + split; [done |]. exists (rtx_new k), (rrx_new (Z.max kb 1)). split; [exact HB2 |].
      apply (new_halves (peer_may_send (sp_direction prof))). exact Hka.
Qed.

(** ** A conversation *)

Definition sent_by (w : bool) (msgs : list (bool * list Z)) : Z := len (filter (λ m, m.1 = w) msgs).
Definition said (m : bool * list Z) : list event := [Sent m.1 m.2; Got (negb m.1) m.2].

Lemma sent_by_cons w m msgs : sent_by w (m :: msgs) = (if Bool.eqb w m.1 then 1 else 0) + sent_by w msgs.
Proof.
  unfold sent_by. rewrite filter_cons. destruct m as [v d]. cbn [fst].
  destruct (decide _); destruct v, w; try done; rewrite ?len_cons; cbn [Bool.eqb]; lia.
Qed.
Lemma sent_by_range w msgs : 0 ≤ sent_by w msgs.
Proof. apply len_nonneg. Qed.

Lemma conversation_quiet c (now : Z) msgs : ∀ n k,
  joined c → channel_ok c → ch_opened c = true → quiet c n k → (∀ w, 0 ≤ k w ∧ k w + sent_by w msgs < 2 ^ 32) →
  Forall (λ m, may_send (ch_profile c) m.1 = true ∧ sendable (ch_profile c) m.2 ∧ bytes m.2) msgs →
  ∃ n', steps n (msgs ≫= said) n' ∧ quiet c n' (λ w, k w + sent_by w msgs).
Proof.
  induction msgs as [| [w data] msgs IH]; intros n k Hj Hc Ho Hq Hk Hm.
  - exists n. split; [apply steps_done |]. intros w. destruct (Hq w) as (Ei & tx & rx & Hs & Htx & Hrx).
    split; [done |]. exists tx, rx. change (sent_by ?w []) with 0. rewrite !Z.add_0_r. by split_and!.
  - apply Forall_cons in Hm as [(Hmay & Hlen & Hb) Hm]. cbn [fst snd] in Hmay, Hlen, Hb.
    assert (Hmay' : may_send (ch_profile c) (ch_opened (end_of w c)) = true) by (destruct w; cbn; by rewrite Ho).
    pose proof (Hk w) as [Hk0 Hk1]. rewrite sent_by_cons in Hk1. cbn [fst] in Hk1. rewrite eqb_reflx in Hk1.
    pose proof (sent_by_range w msgs).
    destruct (quiet_message c n k w data now Hj Hc Hq Hmay' Hlen Hb Hk0 ltac:(lia)) as (n1 & Hs1 & Hq1).
    destruct (IH n1 (bump k w) Hj Hc Ho Hq1) as (n2 & Hs2 & Hq2); [| done |].
    { intros v. specialize (Hk v). rewrite sent_by_cons in Hk. cbn [fst] in Hk. unfold bump. revert Hk. destruct (Bool.eqb v w); lia. }
    exists n2. split; [exact (steps_app _ _ _ _ _ Hs1 Hs2) |]. intros v. destruct (Hq2 v) as (Ei & tx & rx & Hs & Htx & Hrx).
    split; [exact Ei |]. exists tx, rx. rewrite !sent_by_cons. cbn [fst].
    assert (Hb' : ∀ u, bump k w u + sent_by u msgs = k u + ((if Bool.eqb u w then 1 else 0) + sent_by u msgs))
      by (intros u; unfold bump; destruct (Bool.eqb u w); lia).
    rewrite !Hb' in *. by split_and!.
Qed.

(** The stream of side [w] has sent [k] messages, all of them acknowledged. *)
Definition all_acknowledged (h : Z) (s : EndpointCore) (k : Z) : Prop :=
  ∃ x tx, get_stream h 0 s = Ok x ∧ reliable_tx x = Some tx ∧ next_sequence tx = k ∧ outstanding tx = ∅.

Lemma side_acknowledged c s tx rx may k : side c s tx rx → tx_idle may tx k → all_acknowledged (ch_here c) s k.
Proof.
  intros [_ _ (t & x & Ht & _ & _ & Hx & Hf)] [En _ Eo]. exists x, tx. unfold get_stream. rewrite Ht. cbn [ok_or].
  rewrite bind_Ok_l. cbn [tunnel]. rewrite Hx. split; [done |]. split; [apply Hf | done].
Qed.

Lemma conversation_over A B css prof (now : Z) msgs :
  joined (channel_between A B prof) → can_talk A B css prof → len msgs < 2 ^ 32 →
  Forall (λ m, may_send prof m.1 = true ∧ sendable prof m.2 ∧ bytes m.2) msgs →
  ∃ n, steps (mkPair A B [] []) ([Opened true (next_tunnel A); Took false (next_tunnel B)] ++ (msgs ≫= said)) n ∧
    to_a n = [] ∧ to_b n = [] ∧
    all_acknowledged (next_tunnel A) (at_a n) (sent_by true msgs) ∧
    all_acknowledged (next_tunnel B) (at_b n) (sent_by false msgs).
Proof.
  intros Hj Ht Hlen Hm. destruct (tunnel_comes_up A B css prof now Hj Ht) as (n0 & Hs0 & Hq0).
  pose proof (channel_between_ok _ _ _ _ Ht) as Hc.
  destruct (conversation_quiet _ now msgs n0 (λ _, 0) Hj Hc eq_refl Hq0) as (n & Hs & Hq); [| exact Hm |].
  { intros w. split; [done |]. unfold sent_by, len in *. pose proof (length_filter (λ m : bool * list Z, m.1 = w) msgs). lia. }
  exists n. split; [exact (steps_app _ _ _ _ _ Hs0 Hs) |].
  destruct (Hq true) as (Ea & txa & rxa & Ha & Hta & _), (Hq false) as (Eb & txb & rxb & Hb & Htb & _).
  split; [exact Ea |]. split; [exact Eb |]. split; [exact (side_acknowledged _ _ _ _ _ _ Ha Hta) | exact (side_acknowledged _ _ _ _ _ _ Hb Htb)].
Qed.
End network.

(** [p] encoded at one end of a link comes out as [p'] at the other. *)
Definition crosses (c c' : GdpWireConfig) (p p' : GdpPacket) : Prop :=
  ∃ octets, packet_encode p c = Ok octets ∧ ∀ local_prefix, packet_decode octets c' local_prefix = Ok p'.

Lemma crosses_same c p d s :
  hdr_addresses (pkt_header p) = Global d s → wf_header (pkt_header p) →
  len (pkt_payload p) = sc_bytes (hdr_size_class (pkt_header p)) → crosses c c p p.
Proof.
  intros Ea Hh Hl. assert (Hm : ∀ lp, prefix_matches (pkt_header p) lp) by (intros lp; unfold prefix_matches; by rewrite Ea).
  exists (header_wire (pkt_header p) c ++ pkt_payload p). split; [by apply packet_encode_ok |]. intros lp.
  destruct (packet_roundtrip p c lp Hh (Hm lp) Hl) as (w & Hw & _ & Hd). rewrite packet_encode_ok in Hw by done.
  apply Ok_inj in Hw. by subst w.
Qed.

(** Two endpoints on one link *)
Definition on_one_link (A B : EndpointCore) (w : bool) : GdpPacket → GdpPacket → Prop :=
  if w then crosses (cfg (dlp A)) (cfg (dlp B)) else crosses (cfg (dlp B)) (cfg (dlp A)).
Lemma one_link_joins A B c : cfg (dlp A) = cfg (dlp B) → joined (on_one_link A B) c.
Proof.
  intros E w p [Ea _ Hh Hl]. exists p. split; [| apply arrives_refl]. unfold on_one_link. rewrite E.
  destruct w; by eapply crosses_same.
Qed.

(** C4: an endpoint that connects to a service another endpoint listens for, at
    the other end of a link with the same wire configuration, gets a tunnel, and a conversation of reliable messages over its first stream, each
    sent by a side the profile lets send and with a length it admits, is
    delivered: every message is received by the application of the other side,
    in order and unchanged; afterwards nothing is in flight and everything has
    been acknowledged. *)
Theorem conversation_delivered A B css prof (now : Z) msgs :
  can_talk A B css prof → cfg (dlp A) = cfg (dlp B) → len msgs < 2 ^ 32 →
  Forall (λ m, may_send prof m.1 = true ∧ sendable prof m.2 ∧ bytes m.2) msgs →
  ∃ n, steps (on_one_link A B) (mkPair A B [] [])
      ([Opened true (next_tunnel A); Took false (next_tunnel B)] ++ (msgs ≫= said)) n ∧
    to_a n = [] ∧ to_b n = [] ∧
    all_acknowledged (next_tunnel A) (at_a n) (sent_by true msgs) ∧
    all_acknowledged (next_tunnel B) (at_b n) (sent_by false msgs).
Proof.
  intros Ht Ec. exact (conversation_over (on_one_link A B) A B css prof now msgs (one_link_joins A B _ Ec) Ht).
Qed.

Definition talk_profile : StreamProfile := reliable_variable Ctrl64 Bidirectional.
Definition talk_service : ServiceSelector := mkSelector (FILE ++ zeros 12).
Definition talk : list (bool * list Z) := [(true, [1; 2; 3]); (false, [4]); (false, []); (true, [5; 6])].

(** Two endpoints of the network 2001:.. and 2002:.., one of them listening *)
Lemma talkers_ready a b A B :
  (a, b) = (0x0102030400000001, 0x0102030400000002) ∨ (a, b) = (0x2001000000000005, 0x2002000000000009) →
  ep_new a (ep_config_new 64) = Ok A → ep_new b (ep_config_new 64) = Ok B →
  can_talk A (listen talk_service ListenerConfig_default B) talk_service talk_profile ∧
  next_tunnel A = 1 ∧ next_tunnel B = 1 ∧ primary_address A = a ∧ primary_address B = b ∧
  cfg (dlp A) = GdpWireConfig_default ∧ cfg (dlp B) = GdpWireConfig_default.
Proof.
  intros Hab EA EB.
  assert (H : ∀ p s, p = a ∨ p = b → ep_new p (ep_config_new 64) = Ok s → plain s ∧
    1 ≤ next_data_vc (dlp s) < vc_count (dlp s) ∧ primary_address s = p ∧ u64 p ∧ p ≠ BOOTSTRAP_ADDRESS ∧ next_tunnel s = 1 ∧
    u32 (next_reset s) ∧ ec_gts_receive_slots (config s) = 32 ∧ accepted s = [] ∧ cfg (dlp s) = GdpWireConfig_default).
  { intros p s Hp Hs. destruct Hab as [[= -> ->] | [= -> ->]], Hp as [-> | ->]; vm_compute in Hs; apply Ok_inj in Hs as <-; by vm_compute. }
  destruct (H a A (or_introl eq_refl) EA) as (HpA & HvA & HaA & HuA & HbA & HtA & HrA & HsA & _ & HgA).
  destruct (H b B (or_intror eq_refl) EB) as (HpB & HvB & HaB & HuB & HbB & HtB & HrB & _ & HcB & HgB). clear H.
  split; [| by split_and!]. split.
  - split; split; try done; [by rewrite HaA | cbn; by rewrite HaB].
  - split; split; try done; [by rewrite HtA | cbn; by rewrite HtB].
  - split; [by rewrite HaA | cbn; by rewrite HaB].
  - reflexivity.
  - reflexivity.
  - split; [split; [reflexivity | repeat constructor; ulia] | discriminate].
  - rewrite HsA. lia.
  - exists ListenerConfig_default. split; [cbn; by rewrite lookup_insert_eq | by cbn].
  - exact HcB.
Qed.

Lemma talk_sendable : Forall (λ m, may_send talk_profile m.1 = true ∧ sendable talk_profile m.2 ∧ bytes m.2) talk.
Proof. repeat constructor; cbn; try ulia; intros x Ex; unfold validate_send_len, class_bytes; by rewrite Ex. Qed.

Lemma conversation_delivered_witness :
  match ep_new 0x0102030400000001 (ep_config_new 64), ep_new 0x0102030400000002 (ep_config_new 64) with
  | Ok A, Ok B => ∃ n, steps (on_one_link A (listen talk_service ListenerConfig_default B)) (mkPair A (listen talk_service ListenerConfig_default B) [] [])
      [Opened true 1; Took false 1; Sent true [1; 2; 3]; Got false [1; 2; 3]; Sent false [4]; Got true [4];
       Sent false []; Got true []; Sent true [5; 6]; Got false [5; 6]] n ∧
      to_a n = [] ∧ to_b n = [] ∧ all_acknowledged 1 (at_a n) 2 ∧ all_acknowledged 1 (at_b n) 2
  | _, _ => False
  end.
Proof.
  assert (H : ∀ p, p = 0x0102030400000001 ∨ p = 0x0102030400000002 → is_ok (ep_new p (ep_config_new 64)) = true)
    by (intros p [-> | ->]; vm_compute; reflexivity).
  pose proof (H _ (or_introl eq_refl)) as HA. pose proof (H _ (or_intror eq_refl)) as HB. clear H.
  destruct (ep_new 0x0102030400000001 (ep_config_new 64)) as [A | |] eqn:EA; [| discriminate HA..].
  destruct (ep_new 0x0102030400000002 (ep_config_new 64)) as [B | |] eqn:EB; [| discriminate HB..].
  destruct (talkers_ready _ _ A B (or_introl eq_refl) EA EB) as (Ht & HtA & HtB & _ & _ & HgA & HgB).
  pose proof (conversation_delivered A (listen talk_service ListenerConfig_default B) talk_service talk_profile 0 talk Ht) as H.
  rewrite HtA in H. change (next_tunnel (listen talk_service ListenerConfig_default B)) with (next_tunnel B) in H. rewrite HtB in H.
  apply H; [by rewrite HgA | reflexivity | exact talk_sendable].
Defined.
