(* ===== verification/Scenarios.v ===== *)
(** * Scenarios

    The scenarios of tests/endpoint.rs and tests/behavior.rs, run on the model: two
    endpoints over a [DirectLink], flit by flit, evaluated by the kernel. They
    check the definitions of EndpointCore and what it builds on against what
    the authors of the source expect. One more shows what no theorem
    excludes: a receive buffer below the size of a packet stalls the link. *)
From stdpp Require Import prelude gmap.
From Stdlib Require Import ZArith Lia.
From S2P Require Import Prelude GdpWire Gctl Css GtsWire GtsCodec GtsStream Dlp EndpointCore.
Local Open Scope Z_scope.

(** ** Scripts *)

Definition script : Type := st DirectLink unit.

(** [assert!] *)
Definition expecting (b : DirectLink → bool) : script := l ← gets b; guard_st (negb l) InvalidState.
(** [assert_eq!(m.unwrap_err(), e)] *)
Definition refuses {A} (m : st DirectLink A) (e : Error) : script := λ l,
  match m l with
  | (l, Err e') => (l, if decide (e' = e) then Ok tt else Panic)
  | (l, _) => (l, Panic)
  end.
(** [assert_eq!(m.unwrap(), v)] *)
Definition yields {A} `{EqDecision A} (m : st DirectLink A) (v : A) : script :=
  x ← m; guard_st (bool_decide (x ≠ v)) InvalidState.
Definition pumped (now : Z) : script := pump now 10000;; mret tt.

(** The [&self] calls and those that return a value beside the state *)
Definition see {A} (f : EndpointCore → res A) : st EndpointCore A := s ← gets Datatypes.id; lift (f s).
Definition run_accept : st EndpointCore Z := λ s,
  match accept s with (s, Some h) => (s, Ok h) | (s, None) => (s, Panic) end.

Definition between (a b : res EndpointCore) (t : script) : res unit :=
  a ← a; b ← b; (t (mkDirect false a b)).2.

Definition conf : EndpointConfig := ep_config_new 512.
Definition addr_a : Z := 0x0102030400000001.
Definition addr_b : Z := 0x0102030400000002.
Definition file : ServiceSelector := mkSelector (FILE ++ zeros 12).
Definition messages : StreamProfile := reliable_variable Msg128 Bidirectional.
(** [b] listens, [a] connects: the handles of both *)
Definition connected (p : StreamProfile) (slots : Z) : st DirectLink (Z * Z) :=
  on_b (modify (listen file (mkListener slots)));;
  b ← gets (λ l, primary_address (end_b l));
  ah ← on_a (ep_connect b file p);
  pumped 0;;
  bh ← on_b run_accept;
  mret (ah, bh).

(** ** The scenarios *)

(** direct_link_bootstraps_data_credit_with_real_gctl_messages *)
Example bootstraps_data_credit :
  between (ep_new addr_a conf) (ep_new addr_b conf)
    (direct_attach;;
     expecting (λ l, (data_tx_credit (dlp (end_a l)) =? 0) && (data_credit_outstanding (dlp (end_a l)) =? 512));;
     pumped 0;;
     expecting (λ l, (data_tx_credit (dlp (end_a l)) =? 512) && (data_tx_credit (dlp (end_b l)) =? 512))) = Ok tt.
Proof. vm_compute. reflexivity. Qed.

(** gctl_echo_roundtrip_and_link_credit_is_replenished; endpoint_uses_global_gdp_by_default *)
Example echo_roundtrip :
  between (ep_new addr_a conf) (ep_new addr_b conf)
    (pumped 0;;
     on_a (send_echo addr_b 0x1234 [112; 105; 110; 103] Ctrl32);;
     pumped 1;;
     expecting (λ l, match (take_echo_reply 0x1234 (end_a l)).2 with
                     | Some body => bool_decide (take 4 body = [112; 105; 110; 103]) | None => false end);;
     expecting (λ l, (data_tx_credit (dlp (end_a l)) =? 512)
                     && bool_decide (last_rx_address_form (end_b l) = Some FormGlobal))) = Ok tt.
Proof. vm_compute. reflexivity. Qed.

(** connect_and_reliable_variable_message_roundtrip *)
Example message_roundtrip :
  between (ep_new addr_a conf) (ep_new addr_b conf)
    ('(ah, bh) ← connected messages 32;
     yields (on_a (see (tunnel_state ah))) Established;;
     on_a (ep_send ah 0 [104; 101; 108; 108; 111] 10);;
     pumped 10;;
     yields (on_b (ep_recv bh 0)) (Some [104; 101; 108; 108; 111]);;
     pumped 11;;
     on_b (ep_send bh 0 [119; 111; 114; 108; 100] 20);;
     pumped 20;;
     yields (on_a (ep_recv ah 0)) (Some [119; 111; 114; 108; 100])) = Ok tt.
Proof. vm_compute. reflexivity. Qed.

(** reliable_receive_credit_reopens_when_application_consumes_message *)
Definition one_slot : EndpointConfig :=
  mkEpConfig 512 Two 1 None false 1 32 GdpWireConfig_default.
Example receive_credit_reopens :
  between (ep_new 0x2000000000000001 one_slot) (ep_new 0x2000000000000002 one_slot)
    ('(ah, bh) ← connected (reliable_variable Ctrl64 Bidirectional) 1;
     on_a (ep_send ah 0 [1] 1);;
     pumped 1;;
     yields (on_a (see (ep_stream_peer_credit ah 0))) (Some 0);;
     refuses (on_a (ep_send ah 0 [2] 2)) WouldBlock;;
     yields (on_b (ep_recv bh 0)) (Some [1]);;
     pumped 3;;
     yields (on_a (see (ep_stream_peer_credit ah 0))) (Some 1);;
     on_a (ep_send ah 0 [2] 4)) = Ok tt.
Proof. vm_compute. reflexivity. Qed.

(** reliable_fixed_stream_uses_exact_normal_message_and_short_data_end *)
Example fixed_stream :
  between (ep_new addr_a conf) (ep_new addr_b conf)
    ('(ah, bh) ← connected (reliable_fixed Ctrl32 Bidirectional) 32;
     on_a (ep_send ah 0 (replicate 18 0x42) 1);;
     refuses (on_a (ep_send ah 0 (replicate 17 0x42) 2)) InvalidLength;;
     pumped 2;;
     yields (on_b (ep_recv bh 0)) (Some (replicate 18 0x42));;
     pumped 3;;
     on_a (ep_send_end ah 0 [1; 2; 3] 4);;
     pumped 4;;
     yields (on_b (ep_recv bh 0)) (Some [1; 2; 3]);;
     refuses (on_a (ep_send ah 0 (replicate 18 0) 5)) InvalidState) = Ok tt.
Proof. vm_compute. reflexivity. Qed.

(** secondary_stream_reset_discards_stream_but_tunnel_survives *)
Example stream_reset_spares_tunnel :
  between (ep_new addr_a conf) (ep_new addr_b conf)
    ('(ah, bh) ← connected messages 32;
     sid ← on_a (ep_open_stream ah (unreliable_variable Ctrl64 Bidirectional true false));
     pumped 1;;
     on_a (ep_send ah sid [7; 7] 2);;
     pumped 2;;
     yields (on_b (ep_recv bh sid)) (Some [7; 7]);;
     on_a (ep_reset_stream ah sid 2);;
     pumped 3;;
     yields (on_a (see (ep_stream_state ah sid))) SReset;;
     yields (on_b (see (ep_stream_state bh sid))) SReset;;
     refuses (on_a (ep_send ah sid [9] 4)) InvalidState;;
     on_a (ep_send ah 0 [1; 2] 5);;
     pumped 5;;
     yields (on_b (ep_recv bh 0)) (Some [1; 2])) = Ok tt.
Proof. vm_compute. reflexivity. Qed.

(** tunnel_reset_resets_all_streams; secondary_reliable_stream_roundtrip *)
Example tunnel_reset_resets_streams :
  between (ep_new addr_a conf) (ep_new addr_b conf)
    ('(ah, bh) ← connected messages 32;
     sid ← on_a (ep_open_stream ah messages);
     pumped 1;;
     yields (on_a (see (ep_stream_state ah sid))) Open;;
     on_a (ep_send ah sid [3; 1] 2);;
     pumped 2;;
     yields (on_b (ep_recv bh sid)) (Some [3; 1]);;
     pumped 2;;
     on_a (ep_reset_tunnel ah 2);;
     pumped 2;;
     yields (on_a (see (tunnel_state ah))) TunnelReset;;
     yields (on_b (see (tunnel_state bh))) TunnelReset;;
     yields (on_a (see (ep_stream_state ah 0))) SReset;;
     yields (on_a (see (ep_stream_state ah sid))) SReset;;
     yields (on_b (see (ep_stream_state bh 0))) SReset;;
     yields (on_b (see (ep_stream_state bh sid))) SReset) = Ok tt.
Proof. vm_compute. reflexivity. Qed.

(** graceful_tunnel_close_requires_retired_streams *)
Example graceful_close :
  between (ep_new addr_a conf) (ep_new addr_b conf)
    ('(ah, bh) ← connected (reliable_variable Ctrl64 Bidirectional) 32;
     refuses (on_a (ep_close_tunnel ah)) InvalidState;;
     on_a (ep_close_stream ah 0);;
     pumped 1;;
     yields (on_a (see (ep_stream_state ah 0))) Closed;;
     yields (on_b (see (ep_stream_state bh 0))) Closed;;
     on_a (ep_close_tunnel ah);;
     pumped 2;;
     yields (on_a (see (tunnel_state ah))) TunnelClosed;;
     yields (on_b (see (tunnel_state bh))) TunnelClosed) = Ok tt.
Proof. vm_compute. reflexivity. Qed.

(** endpoint_uses_local_gdp_inside_configured_context *)
Definition local_conf : EndpointConfig :=
  mkEpConfig 256 Two 32 (Some 0x123456789abc0000) true 1 32 GdpWireConfig_default.
Example local_context :
  between (ep_new 0x123456789abc0001 local_conf) (ep_new 0x123456789abc0002 local_conf)
    (pumped 0;;
     on_a (send_echo 0x123456789abc0002 2 [1; 2] Ctrl32);;
     pumped 1;;
     expecting (λ l, bool_decide (last_rx_address_form (end_b l) = Some FormLocal)
                     && bool_decide (is_Some (take_echo_reply 2 (end_a l)).2))) = Ok tt.
Proof. vm_compute. reflexivity. Qed.

(** router_discovery_offer_claim_ack_assigns_address *)
Example discovery_assigns_address :
  between (ep_unconfigured 0x1234 conf) (ep_new 0x333344445555fffe conf)
    (c ← lift (authority_config_new 0x3333444455550000 48 3600);
     on_b (modify (enable_address_authority c));;
     on_a (solicit_router 0x99);;
     pumped 0;;
     expecting (λ l, let a := primary_address (end_a l) in
       negb (a =? link_local_address (end_a l)) && (clear_low16 a =? 0x3333444455550000)
       && bool_decide (router_address (end_a l) = Some 0x333344445555fffe)
       && bool_decide (address_state (end_a l) = Assigned a 0x333344445555fffe 3600))) = Ok tt.
Proof. vm_compute. reflexivity. Qed.

(** endpoint_tick_generates_retransmission_without_duplicate_delivery *)
Example retransmission_is_not_delivered_twice :
  between (ep_new addr_a conf) (ep_new addr_b conf)
    ('(ah, bh) ← connected messages 32;
     on_a (ep_send ah 0 [5; 5] 10);;
     yields (on_a (ep_tick 509)) 0;;
     yields (on_a (ep_tick 510)) 1;;
     pumped 510;;
     yields (on_b (ep_recv bh 0)) (Some [5; 5]);;
     yields (on_b (ep_recv bh 0)) None) = Ok tt.
Proof. vm_compute. reflexivity. Qed.

(** vc_mode_is_not_visible_to_gts_application_api *)
Example channels_are_not_visible :
  forallb (λ mode, let c := mkEpConfig 512 mode 32 None false 1 32 GdpWireConfig_default in
    is_ok (between (ep_new 0x7777000000000001 c) (ep_new 0x7777000000000002 c)
      ('(ah, bh) ← connected (reliable_variable Ctrl64 Bidirectional) 32;
       on_a (ep_send ah 0 [8; 8; 8] 1);;
       pumped 1;;
       yields (on_b (ep_recv bh 0)) (Some [8; 8; 8])))) [Two; Four] = true.
Proof. vm_compute. reflexivity. Qed.

(** ** A receive buffer below the size of a packet *)

(** The configuration takes any receive buffer but an empty one. With four flits
    at the receiver the connection request, of more flits than that, never
    gets through: the four that were granted stay in the assembly, no more can be
    granted, and [pump] returns without an error while the request waits. *)
Example small_buffer_stalls :
  between (ep_new addr_a conf) (ep_new addr_b (ep_config_new 4))
    (on_b (modify (listen file ListenerConfig_default));;
     ah ← on_a (ep_connect addr_b file messages);
     pumped 0;;
     pumped 1;;
     yields (on_a (see (tunnel_state ah))) Connecting;;
     expecting (λ l, (data_rx_in_use (dlp (end_b l)) =? 4) && (grantable_data_credit (dlp (end_b l)) =? 0)
                     && (0 <? queued_data_flits (dlp (end_a l))) && credit_request_pending (end_a l))) = Ok tt.
Proof. vm_compute. reflexivity. Qed.
