(* ===== verification/DlpFrame.v ===== *)
(** * Link control frames (src/src/dlp_control.rs, lines 9 to 294 and 1068 to 1135)

    The four-octet frames of the link control channel, the parameter units
    they carry, and the choices both ends derive from each other's offers. *)
From stdpp Require Import prelude.
From Stdlib Require Import ZArith Lia.
From S2P Require Import Prelude GdpWire Dlp.
Local Open Scope Z_scope.

Definition DLP_CONTROL_VERSION : Z := 1.
Definition DLP_CONTROL_FRAME_LEN : Z := 4.
Definition DLP_CONTROL_PARAMETER_UNIT_FLITS : Z := 4.
Definition DLP_RESERVED_CONTROL_WINDOW_FLITS : Z := 32.
Definition FLAG_VC2 : Z := 1.
Definition FLAG_VC4 : Z := 2.
Definition RATE_ALL : Z := 7.

Inductive DlpControlOpcode : Set := OpHello | OpCapabilities | OpReset | OpLinkParameters.

Definition opcode_to_wire (o : DlpControlOpcode) : Z :=
  match o with OpHello => 0x1 | OpCapabilities => 0x2 | OpReset => 0x3 | OpLinkParameters => 0x8 end.
Definition opcode_from_wire (v : Z) : res DlpControlOpcode :=
  match v with
  | 0x1 => Ok OpHello
  | 0x2 => Ok OpCapabilities
  | 0x3 => Ok OpReset
  | 0x8 => Ok OpLinkParameters
  | _ => Err Unsupported
  end.

Inductive DlpHelloKind : Set := Initial | Acknowledgement.
#[export] Instance DlpHelloKind_eq_dec : EqDecision DlpHelloKind.
Proof. solve_decision. Defined.

Definition hello_to_wire (k : DlpHelloKind) : Z := match k with Initial => 0 | Acknowledgement => 1 end.
Definition hello_from_wire (v : Z) : res DlpHelloKind :=
  match v with 0 => Ok Initial | 1 => Ok Acknowledgement | _ => Err InvalidField end.

Inductive DlpCapabilityKind : Set := Offer | Selection | Confirmation.
#[export] Instance DlpCapabilityKind_eq_dec : EqDecision DlpCapabilityKind.
Proof. solve_decision. Defined.

Definition kind_to_wire (k : DlpCapabilityKind) : Z :=
  match k with Offer => 0 | Selection => 1 | Confirmation => 2 end.
Definition kind_from_wire (v : Z) : res DlpCapabilityKind :=
  match v with 0 => Ok Offer | 1 => Ok Selection | 2 => Ok Confirmation | _ => Err InvalidField end.

Inductive DlpControlFrame : Set :=
  | FHello (kind : DlpHelloKind) (sender_generation peer_generation : Z)
  | FCapabilities (kind : DlpCapabilityKind) (sender_generation profiles rates : Z)
  | FReset (sender_generation reason : Z)
  | FLinkParameters (kind : DlpCapabilityKind) (sender_generation rx_window_units burst_units : Z).
#[export] Instance DlpControlFrame_eq_dec : EqDecision DlpControlFrame.
Proof. solve_decision. Defined.

Definition opcode (self : DlpControlFrame) : DlpControlOpcode :=
  match self with
  | FHello _ _ _ => OpHello
  | FCapabilities _ _ _ _ => OpCapabilities
  | FReset _ _ => OpReset
  | FLinkParameters _ _ _ _ => OpLinkParameters
  end.

Definition sender_generation (self : DlpControlFrame) : Z :=
  match self with
  | FHello _ g _ | FCapabilities _ g _ _ | FReset g _ | FLinkParameters _ g _ _ => g
  end.

(** [(opcode << 28) | (version << 24)], the start of every word *)
Definition frame_head (o : DlpControlOpcode) : Z :=
  Z.lor (Z.shiftl (opcode_to_wire o) 28) (Z.shiftl DLP_CONTROL_VERSION 24).

Definition frame_word (self : DlpControlFrame) : Z :=
  match self with
  | FHello kind sg pg =>
      Z.lor (Z.lor (Z.lor (frame_head OpHello) (Z.shiftl (hello_to_wire kind) 22))
        (Z.shiftl (Z.land sg 0x3f) 16)) (Z.shiftl (Z.land pg 0x3f) 10)
  | FCapabilities kind sg profiles rates =>
      Z.lor (Z.lor (Z.lor (Z.lor (frame_head OpCapabilities) (Z.shiftl (Z.land sg 0x3f) 18))
        (Z.shiftl (kind_to_wire kind) 16)) (Z.shiftl (Z.land profiles 0x0f) 12)) (Z.shiftl (Z.land rates 0x07) 9)
  | FReset sg reason =>
      Z.lor (Z.lor (frame_head OpReset) (Z.shiftl (Z.land sg 0x3f) 18)) (Z.shiftl (Z.land reason 0x0f) 14)
  | FLinkParameters kind sg rx burst =>
      Z.lor (Z.lor (Z.lor (Z.lor (frame_head OpLinkParameters) (Z.shiftl (Z.land sg 0x3f) 18))
        (Z.shiftl (kind_to_wire kind) 16)) (Z.shiftl rx 8)) burst
  end.

Definition frame_encode (self : DlpControlFrame) : list Z := to_be 4 (frame_word self).

(** [v.is_power_of_two()] on the four-bit fields *)
Definition is_power_of_two (v : Z) : bool := (v =? 1) || (v =? 2) || (v =? 4) || (v =? 8).

(** [(word >> at) & mask] *)
Definition field (word at_ mask : Z) : Z := Z.land (Z.shiftr word at_) mask.

Definition decode_hello (word : Z) : res DlpControlFrame :=
  fail_if (negb (Z.land word 0x3ff =? 0)) NonCanonical;;
  kind ← hello_from_wire (field word 22 0x3);
  let sg := field word 16 0x3f in
  let pg := field word 10 0x3f in
  fail_if (sg =? 0) InvalidField;;
  fail_if (match kind with Initial => negb (pg =? 0) | Acknowledgement => pg =? 0 end) InvalidField;;
  Ok (FHello kind sg pg).

Definition decode_capabilities (word : Z) : res DlpControlFrame :=
  fail_if (negb (Z.land word 0x1ff =? 0)) NonCanonical;;
  let sg := field word 18 0x3f in
  kind ← kind_from_wire (field word 16 0x3);
  let profiles := field word 12 0xf in
  let rates := field word 9 0x7 in
  fail_if ((sg =? 0) || (profiles =? 0) || (rates =? 0)) InvalidField;;
  fail_if (match kind with Offer => false | _ => negb (is_power_of_two profiles) || negb (is_power_of_two rates) end)
    InvalidField;;
  Ok (FCapabilities kind sg profiles rates).

Definition decode_reset (word : Z) : res DlpControlFrame :=
  fail_if (negb (Z.land word 0x3fff =? 0)) NonCanonical;;
  let sg := field word 18 0x3f in
  let reason := field word 14 0xf in
  fail_if (sg =? 0) InvalidField;;
  Ok (FReset sg reason).

Definition decode_link_parameters (word : Z) : res DlpControlFrame :=
  let sg := field word 18 0x3f in
  kind ← kind_from_wire (field word 16 0x3);
  let rx := field word 8 0xff in
  let burst := Z.land word 0xff in
  fail_if ((sg =? 0) || (rx =? 0) || (burst =? 0)) InvalidField;;
  Ok (FLinkParameters kind sg rx burst).

Definition frame_decode (bs : list Z) : res DlpControlFrame :=
  fail_if (negb (len bs =? DLP_CONTROL_FRAME_LEN)) InvalidLength;;
  word ← from_be_bytes 4 bs;
  opcode ← opcode_from_wire (field word 28 0xf);
  let version := field word 24 0xf in
  fail_if (negb (version =? DLP_CONTROL_VERSION)) Unsupported;;
  match opcode with
  | OpHello => decode_hello word
  | OpCapabilities => decode_capabilities word
  | OpReset => decode_reset word
  | OpLinkParameters => decode_link_parameters word
  end.

(** ** Parameter units, generations and choices *)

Definition encode_parameter_units (value : Z) : res Z :=
  fail_if ((value =? 0) || negb (value mod DLP_CONTROL_PARAMETER_UNIT_FLITS =? 0)) InvalidField;;
  let units := value / DLP_CONTROL_PARAMETER_UNIT_FLITS in
  fail_if ((units =? 0) || (255 <? units)) InvalidField;;
  Ok (as_u8 units).
Definition decode_parameter_units (units : Z) : res Z :=
  fail_if (units =? 0) InvalidField;;
  Ok (units * DLP_CONTROL_PARAMETER_UNIT_FLITS).
Definition validate_parameter_value (value : Z) : res unit := encode_parameter_units value ≫= λ _, Ok tt.

Definition next_generation (generation : Z) : Z := if 63 <=? generation then 1 else generation + 1.

Definition supported_mode_flags (max_mode : VcMode) : Z :=
  match max_mode with Two => FLAG_VC2 | Four => Z.lor FLAG_VC2 FLAG_VC4 end.
Definition selected_mode_flag (mode : VcMode) : Z :=
  match mode with Two => FLAG_VC2 | Four => FLAG_VC4 end.

Definition choose_vc_mode (local_max : VcMode) (peer_flags : Z) : res VcMode :=
  let common := Z.land (supported_mode_flags local_max) peer_flags in
  if negb (Z.land common FLAG_VC4 =? 0) then Ok Four
  else if negb (Z.land common FLAG_VC2 =? 0) then Ok Two
  else Err Unsupported.

Definition choose_rate (local_rates peer_rates : Z) : res Z :=
  let common := Z.land (Z.land local_rates peer_rates) 0x07 in
  if negb (Z.land common 4 =? 0) then Ok 4
  else if negb (Z.land common 2 =? 0) then Ok 2
  else if negb (Z.land common 1 =? 0) then Ok 1
  else Err Unsupported.

(** ** The codec *)

(** Frames the link exchanges: generations run from 1 to 63, an initial HELLO
    names no peer generation, selections and confirmations name one choice. *)
Definition wf_frame (f : DlpControlFrame) : Prop :=
  1 ≤ sender_generation f < 64 ∧
  match f with
  | FHello Initial _ pg => pg = 0
  | FHello Acknowledgement _ pg => 1 ≤ pg < 64
  | FCapabilities k _ profiles rates =>
      1 ≤ profiles < 16 ∧ 1 ≤ rates < 8 ∧
      (k ≠ Offer → is_power_of_two profiles = true ∧ is_power_of_two rates = true)
  | FReset _ reason => 0 ≤ reason < 16
  | FLinkParameters _ _ rx burst => 1 ≤ rx < 256 ∧ 1 ≤ burst < 256
  end.

(** One more field below those already in the word. *)
Lemma lor_field a b n w :
  0 ≤ n → 0 ≤ w → 0 ≤ b < 2 ^ w → a mod 2 ^ (n + w) = 0 → Z.lor a (Z.shiftl b n) = a + b * 2 ^ n.
Proof.
  intros Hn Hw Hb Ha. pose proof (Z.pow_pos_nonneg 2 (n + w)) as Hp.
  replace a with (Z.shiftl (a / 2 ^ (n + w)) (n + w)) at 1.
  2: { rewrite Z.shiftl_mul_pow2 by lia. pose proof (Z.div_mod a (2 ^ (n + w))). lia. }
  rewrite lor_shiftl_add, Z.shiftl_mul_pow2; [| lia.. |].
  - pose proof (Z.div_mod a (2 ^ (n + w))). lia.
  - rewrite Z.shiftl_mul_pow2 by lia. rewrite Z.pow_add_r by lia. split; [apply Z.mul_nonneg_nonneg; lia |].
    rewrite (Z.mul_comm (2 ^ n)). apply Z.mul_lt_mono_pos_r; [| lia]. apply Z.pow_pos_nonneg; lia.
Qed.

Lemma field_eq word at_ mask k :
  0 ≤ at_ → 0 ≤ k → mask = Z.ones k → field word at_ mask = word / 2 ^ at_ mod 2 ^ k.
Proof. intros Ha Hk ->. unfold field. by rewrite Z.land_ones, Z.shiftr_div_pow2. Qed.

(** The word as a sum of its fields. *)
Definition word_fields (f : DlpControlFrame) : Z :=
  match f with
  | FHello k sg pg => 0x11000000 + hello_to_wire k * 0x400000 + sg * 0x10000 + pg * 0x400
  | FCapabilities k sg profiles rates =>
      0x21000000 + sg * 0x40000 + kind_to_wire k * 0x10000 + profiles * 0x1000 + rates * 0x200
  | FReset sg reason => 0x31000000 + sg * 0x40000 + reason * 0x4000
  | FLinkParameters k sg rx burst =>
      0x81000000 + sg * 0x40000 + kind_to_wire k * 0x10000 + rx * 0x100 + burst
  end.

Lemma frame_word_eq f : wf_frame f → frame_word f = word_fields f ∧ 0 ≤ word_fields f < 2 ^ 32.
Proof.
  intros [Hsg Hf]. destruct f as [k sg pg | k sg pr ra | sg re | k sg rx bu];
    cbn [sender_generation frame_word word_fields] in *; change (2 ^ 32) with 0x100000000.
  - assert (Hpg : 0 ≤ pg < 64) by (destruct k; lia).
    rewrite !(land_ones_mod _ 6 0x3f), !Z.mod_small by (done || lia). change (frame_head OpHello) with 0x11000000.
    rewrite (lor_field _ _ 22 2), (lor_field _ _ 16 6), (lor_field _ _ 10 6);
      destruct k; cbn [hello_to_wire]; try lia; zdiv.
  - destruct Hf as (Hp & Hr & _).
    rewrite (land_ones_mod _ 6 0x3f), (land_ones_mod _ 4 0x0f), (land_ones_mod _ 3 0x07), !Z.mod_small by (done || lia).
    change (frame_head OpCapabilities) with 0x21000000.
    rewrite (lor_field _ _ 18 6), (lor_field _ _ 16 2), (lor_field _ _ 12 4), (lor_field _ _ 9 3);
      destruct k; cbn [kind_to_wire]; try lia; zdiv.
  - rewrite (land_ones_mod _ 6 0x3f), (land_ones_mod _ 4 0x0f), !Z.mod_small by (done || lia).
    change (frame_head OpReset) with 0x31000000.
    rewrite (lor_field _ _ 18 6), (lor_field _ _ 14 4); try lia; zdiv.
  - destruct Hf as (Hr & Hb). rewrite (land_ones_mod _ 6 0x3f), !Z.mod_small by (done || lia).
    change (frame_head OpLinkParameters) with 0x81000000. rewrite <- (Z.shiftl_0_r bu) at 1.
    rewrite (lor_field _ _ 18 6), (lor_field _ _ 16 2), (lor_field _ _ 8 8), (lor_field _ _ 0 8);
      destruct k; cbn [kind_to_wire]; try lia; zdiv.
Qed.

Lemma opcode_wire o : opcode_from_wire (opcode_to_wire o) = Ok o.
Proof. by destruct o. Qed.
Lemma hello_wire k : hello_from_wire (hello_to_wire k) = Ok k.
Proof. by destruct k. Qed.
Lemma kind_wire k : kind_from_wire (kind_to_wire k) = Ok k.
Proof. by destruct k. Qed.

(** [field]s and low bits of a word given as a sum. *)
Ltac word_field x v :=
  let H := fresh in
  assert (H : x = v);
  [ unfold field; rewrite ?Z.shiftr_div_pow2 by done;
    first [ rewrite (land_ones_mod _ 2 0x3) by done | rewrite (land_ones_mod _ 3 0x7) by done
          | rewrite (land_ones_mod _ 4 0xf) by done | rewrite (land_ones_mod _ 6 0x3f) by done
          | rewrite (land_ones_mod _ 8 0xff) by done | rewrite (land_ones_mod _ 9 0x1ff) by done
          | rewrite (land_ones_mod _ 10 0x3ff) by done | rewrite (land_ones_mod _ 14 0x3fff) by done ]; zdiv
  | rewrite H; clear H ].

Lemma word_opcode f : wf_frame f →
  field (word_fields f) 28 0xf = opcode_to_wire (opcode f) ∧ field (word_fields f) 24 0xf = 1.
Proof.
  intros [Hs Hf]. rewrite !(field_eq _ _ 0xf 4) by done.
  destruct f as [[] sg pg | [] sg pr ra | sg re | [] sg rx bu];
    cbn [sender_generation word_fields opcode opcode_to_wire hello_to_wire kind_to_wire] in *; zdiv.
Qed.

Lemma frame_decode_word w :
  0 ≤ w < 2 ^ 32 →
  frame_decode (to_be 4 w) =
    (o ← opcode_from_wire (field w 28 0xf);
     fail_if (negb (field w 24 0xf =? 1)) Unsupported;;
     match o with
     | OpHello => decode_hello w
     | OpCapabilities => decode_capabilities w
     | OpReset => decode_reset w
     | OpLinkParameters => decode_link_parameters w
     end).
Proof.
  intros Hw. unfold frame_decode. rewrite len_to_be.
  change (negb (Z.of_nat 4 =? DLP_CONTROL_FRAME_LEN)) with false. cbn [fail_if].
  rewrite bind_Ok_l, from_be_bytes_eq by (by rewrite len_to_be).
  by rewrite bind_Ok_l, from_be_to_be by (change (256 ^ Z.of_nat 4) with (2 ^ 32); done).
Qed.

Lemma frame_roundtrip f : wf_frame f → frame_decode (frame_encode f) = Ok f.
Proof.
  intros Hwf. destruct (frame_word_eq f Hwf) as [He Hr]. unfold frame_encode. rewrite He.
  rewrite frame_decode_word by done. destruct (word_opcode f Hwf) as [-> ->].
  rewrite opcode_wire, bind_Ok_l. cbn [Z.eqb negb fail_if Pos.eqb]. rewrite bind_Ok_l.
  destruct Hwf as [Hs Hf], f as [k sg pg | k sg pr ra | sg re | k sg rx bu]; cbn [opcode sender_generation word_fields] in *;
    unfold decode_hello, decode_capabilities, decode_reset, decode_link_parameters; set (w := _ + _) in *;
    try (assert (0 ≤ hello_to_wire k < 2) by (destruct k; cbn; lia));
    try (assert (0 ≤ kind_to_wire k < 4) by (destruct k; cbn; lia)).
  - assert (0 ≤ pg < 64) by (destruct k; lia).
    word_field (Z.land w 0x3ff) 0. word_field (field w 22 0x3) (hello_to_wire k). word_field (field w 16 0x3f) sg.
    word_field (field w 10 0x3f) pg. rewrite hello_wire. cbn. destruct (Z.eqb_spec sg 0); [lia |].
    destruct k, (Z.eqb_spec pg 0); cbn; done || lia.
  - word_field (Z.land w 0x1ff) 0. word_field (field w 18 0x3f) sg. word_field (field w 16 0x3) (kind_to_wire k).
    word_field (field w 12 0xf) pr. word_field (field w 9 0x7) ra. rewrite kind_wire. cbn.
    destruct Hf as (Hp & Hra & Hk).
    destruct (Z.eqb_spec sg 0), (Z.eqb_spec pr 0), (Z.eqb_spec ra 0); try lia. cbn.
    destruct k; [done | destruct Hk as [-> ->]; done..].
  - word_field (Z.land w 0x3fff) 0. word_field (field w 18 0x3f) sg. word_field (field w 14 0xf) re.
    cbn. by destruct (Z.eqb_spec sg 0); [lia |].
  - word_field (field w 18 0x3f) sg. word_field (field w 16 0x3) (kind_to_wire k).
    word_field (field w 8 0xff) rx. word_field (Z.land w 0xff) bu. rewrite kind_wire. cbn.
    by destruct (Z.eqb_spec sg 0), (Z.eqb_spec rx 0), (Z.eqb_spec bu 0); try lia.
Qed.

(** What decodes is the encoding of a well-formed frame. *)
Lemma field_range w at_ mask k : 0 ≤ at_ → 0 ≤ k → mask = Z.ones k → 0 ≤ field w at_ mask < 2 ^ k.
Proof. intros. rewrite (field_eq _ _ _ k) by done. apply Z.mod_pos_bound. by apply Z.pow_pos_nonneg. Qed.

Lemma opcode_from_Ok v o : opcode_from_wire v = Ok o → v = opcode_to_wire o.
Proof.
  unfold opcode_from_wire. intros H.
  destruct v as [| [[[[] | [] |] | [[] | [] |] |] | [[[] | [] |] | [[[] | [] |] | [] |] |] |] |];
    try discriminate H; by apply Ok_inj in H as <-.
Qed.
Lemma hello_from_Ok v k : hello_from_wire v = Ok k → v = hello_to_wire k.
Proof. unfold hello_from_wire. intros H. destruct v as [| [] |]; try discriminate H; by apply Ok_inj in H as <-. Qed.
Lemma kind_from_Ok v k : kind_from_wire v = Ok k → v = kind_to_wire k.
Proof.
  unfold kind_from_wire. intros H.
  destruct v as [| [| [] |] |]; try discriminate H; by apply Ok_inj in H as <-.
Qed.

(** Arithmetic readings of the fields of [w]. *)
Ltac read_fields w :=
  repeat match goal with
  | H : context [field w ?a ?m] |- _ =>
      lazymatch m with
      | 0x3 => rewrite (field_eq w a m 2) in H by done | 0x7 => rewrite (field_eq w a m 3) in H by done
      | 0xf => rewrite (field_eq w a m 4) in H by done | 0x3f => rewrite (field_eq w a m 6) in H by done
      | 0xff => rewrite (field_eq w a m 8) in H by done
      end
  end.

(** The three facts every opcode's decoder establishes. *)
Definition sound_decoder (o : DlpControlOpcode) (dec : Z → res DlpControlFrame) : Prop :=
  ∀ w f, 0 ≤ w < 2 ^ 32 → field w 28 0xf = opcode_to_wire o → field w 24 0xf = 1 → dec w = Ok f →
    wf_frame f ∧ word_fields f = w.

Lemma decode_hello_sound : sound_decoder OpHello decode_hello.
Proof.
  intros w f Hw Ho Hv H. unfold decode_hello in H. cbn [opcode_to_wire] in Ho.
  apply bind_Ok in H as ([] & [Hz _]%fail_if_Ok & H). apply bind_Ok in H as (k & Hk%hello_from_Ok & H).
  apply bind_Ok in H as ([] & [Hs _]%fail_if_Ok & H). apply bind_Ok in H as ([] & [Hp _]%fail_if_Ok & H).
  apply Ok_inj in H. subst f. rewrite negb_false_iff in Hz.
  pose proof (field_range w 16 0x3f 6) as H1. pose proof (field_range w 10 0x3f 6) as H2.
  specialize (H1 ltac:(done) ltac:(done) ltac:(done)). specialize (H2 ltac:(done) ltac:(done) ltac:(done)).
  apply Z.eqb_eq in Hz. apply Z.eqb_neq in Hs.
  split; [split; cbn [sender_generation]; [lia |]; destruct k; [rewrite negb_false_iff in Hp |]; lia |].
  cbn [word_fields]. rewrite <- Hk. rewrite !(field_eq _ _ 0x3 2), !(field_eq _ _ 0x3f 6) by done.
  rewrite (land_ones_mod _ 10) in Hz by done. read_fields w. zdiv.
Qed.

Lemma decode_capabilities_sound : sound_decoder OpCapabilities decode_capabilities.
Proof.
  intros w f Hw Ho Hv H. unfold decode_capabilities in H. cbn [opcode_to_wire] in Ho.
  apply bind_Ok in H as ([] & [Hz _]%fail_if_Ok & H). apply bind_Ok in H as (k & Hk%kind_from_Ok & H).
  apply bind_Ok in H as ([] & [Hs _]%fail_if_Ok & H). apply bind_Ok in H as ([] & [Hp _]%fail_if_Ok & H).
  apply Ok_inj in H. subst f. rewrite negb_false_iff in Hz.
  pose proof (field_range w 18 0x3f 6 ltac:(done) ltac:(done) ltac:(done)) as H1.
  pose proof (field_range w 12 0xf 4 ltac:(done) ltac:(done) ltac:(done)) as H2.
  pose proof (field_range w 9 0x7 3 ltac:(done) ltac:(done) ltac:(done)) as H3.
  apply Z.eqb_eq in Hz. rewrite !orb_false_iff, !Z.eqb_neq in Hs. destruct Hs as ((Hs1 & Hs2) & Hs3).
  split.
  - split; [cbn [sender_generation]; lia |]. split_and!; [lia.. |]. intros Hn.
    destruct k; [done | rewrite orb_false_iff, !negb_false_iff in Hp; done..].
  - cbn [word_fields]. rewrite <- Hk.
    rewrite (field_eq _ _ 0x3 2), (field_eq _ _ 0x3f 6), (field_eq _ _ 0xf 4), (field_eq _ _ 0x7 3) by done.
    rewrite (land_ones_mod _ 9) in Hz by done. read_fields w. zdiv.
Qed.

Lemma decode_reset_sound : sound_decoder OpReset decode_reset.
Proof.
  intros w f Hw Ho Hv H. unfold decode_reset in H. cbn [opcode_to_wire] in Ho.
  apply bind_Ok in H as ([] & [Hz _]%fail_if_Ok & H). apply bind_Ok in H as ([] & [Hs _]%fail_if_Ok & H).
  apply Ok_inj in H. subst f. rewrite negb_false_iff in Hz. apply Z.eqb_eq in Hz. apply Z.eqb_neq in Hs.
  pose proof (field_range w 18 0x3f 6 ltac:(done) ltac:(done) ltac:(done)) as H1.
  pose proof (field_range w 14 0xf 4 ltac:(done) ltac:(done) ltac:(done)) as H2.
  split; [split; cbn [sender_generation]; lia |]. cbn [word_fields].
  rewrite (field_eq _ _ 0x3f 6), (field_eq _ _ 0xf 4) by done.
  rewrite (land_ones_mod _ 14) in Hz by done. read_fields w. zdiv.
Qed.

Lemma decode_link_parameters_sound : sound_decoder OpLinkParameters decode_link_parameters.
Proof.
  intros w f Hw Ho Hv H. unfold decode_link_parameters in H. cbn [opcode_to_wire] in Ho.
  apply bind_Ok in H as (k & Hk%kind_from_Ok & H). apply bind_Ok in H as ([] & [Hs _]%fail_if_Ok & H).
  apply Ok_inj in H. subst f. rewrite !orb_false_iff, !Z.eqb_neq in Hs. destruct Hs as ((Hs1 & Hs2) & Hs3).
  pose proof (field_range w 18 0x3f 6 ltac:(done) ltac:(done) ltac:(done)) as H1.
  pose proof (field_range w 8 0xff 8 ltac:(done) ltac:(done) ltac:(done)) as H2.
  change (Z.land w 0xff) with (field w 0 0xff) in *.
  pose proof (field_range w 0 0xff 8 ltac:(done) ltac:(done) ltac:(done)) as H3.
  split; [split; cbn [sender_generation]; [lia |]; split; lia |]. cbn [word_fields]. rewrite <- Hk.
  rewrite (field_eq _ _ 0x3 2), (field_eq _ _ 0x3f 6), !(field_eq _ _ 0xff 8) by done.
  read_fields w. zdiv.
Qed.

Lemma frame_decode_sound bs f :
  bytes bs → frame_decode bs = Ok f → wf_frame f ∧ frame_encode f = bs.
Proof.
  intros Hb H.
  assert (Hl : len bs = 4).
  { unfold frame_decode in H. apply bind_Ok in H as ([] & [Hl _]%fail_if_Ok & _).
    rewrite negb_false_iff in Hl. by apply Z.eqb_eq in Hl. }
  assert (Hbs : bs = to_be 4 (from_be bs)).
  { rewrite <- (to_be_from_be bs Hb) at 1. f_equal. unfold len in Hl. lia. }
  pose proof (from_be_range bs Hb) as Hr. rewrite Hl in Hr. change (256 ^ 4) with (2 ^ 32) in Hr.
  set (w := from_be bs) in *. rewrite Hbs in H. rewrite frame_decode_word in H by done.
  apply bind_Ok in H as (o & Ho%opcode_from_Ok & H). apply bind_Ok in H as ([] & [Hv _]%fail_if_Ok & H).
  rewrite negb_false_iff in Hv. apply Z.eqb_eq in Hv.
  assert (Hs : wf_frame f ∧ word_fields f = w).
  { destruct o; [by apply decode_hello_sound | by apply decode_capabilities_sound | by apply decode_reset_sound
      | by apply decode_link_parameters_sound]. }
  destruct Hs as [Hwf Hs]. split; [done |]. unfold frame_encode. rewrite Hbs, <- Hs.
  by destruct (frame_word_eq f Hwf) as [-> _].
Qed.

Lemma frame_decode_no_panic bs : no_panic (frame_decode bs).
Proof.
  unfold frame_decode. apply no_panic_bind; [apply no_panic_fail_if |]. intros [] [Hl _]%fail_if_Ok.
  rewrite negb_false_iff in Hl. apply Z.eqb_eq in Hl.
  apply no_panic_bind; [by apply no_panic_from_be_bytes |]. intros w _.
  apply no_panic_bind; [unfold opcode_from_wire; repeat case_match; done |]. intros o _.
  apply no_panic_bind; [apply no_panic_fail_if |]. intros [] _.
  destruct o; unfold decode_hello, decode_capabilities, decode_reset, decode_link_parameters;
    repeat first
      [ apply no_panic_bind; [first [apply no_panic_fail_if | unfold hello_from_wire, kind_from_wire; repeat case_match; done] | intros ? _]
      | done ].
Qed.

(** C26: link control frames: a well-formed frame survives encoding and
    decoding; octets that decode are exactly the four octets the encoder
    emits for a well-formed frame; and decoding never panics. *)
Theorem control_frame_roundtrip f bs :
  (wf_frame f → frame_decode (frame_encode f) = Ok f) ∧
  (bytes bs → ∀ g, frame_decode bs = Ok g → wf_frame g ∧ frame_encode g = bs) ∧
  no_panic (frame_decode bs).
Proof.
  split_and!; [apply frame_roundtrip | intros Hb g; by apply frame_decode_sound | apply frame_decode_no_panic].
Qed.
