(* ===== verification/DlpControl.v ===== *)
(** * The managed link (src/src/dlp_control.rs, lines 296 to 1066)

    [DlpManagedEndpoint] puts a link control protocol in front of an endpoint:
    HELLO with generations, an exchange of capabilities and parameters, the
    installation of the negotiated profile, and the first credit grants.
    [DlpDirectCable] moves control frames and flits between two of them. *)
From stdpp Require Import prelude.
From Stdlib Require Import ZArith Lia.
From S2P Require Import Prelude GdpWire Dlp EndpointCore DlpFrame.
Local Open Scope Z_scope.

Definition CREDIT_REQUEST_RETRY_POLLS : Z := 8.

Inductive DlpControlState : Set := Down | Hello | Negotiate | CreditSync | Up | Resetting.
#[export] Instance DlpControlState_eq_dec : EqDecision DlpControlState.
Proof. solve_decision. Defined.

Record DlpNegotiatedProfile : Set := mkProfile {
  np_vc_mode : VcMode;
  np_burst_flits : Z;
  np_peer_rx_buffer_flits : Z;
  np_peer_control_window_flits : Z }.

Record PeerCapabilityOffer : Set := mkCapOffer { co_profiles : Z; co_rates : Z }.
Record PeerParameterOffer : Set := mkParamOffer { po_rx_buffer_flits : Z; po_max_burst_flits : Z }.

(** The fields of [DlpManagedEndpoint] that [clear_negotiation_state] resets. *)
Record Negotiation : Set := mkNeg {
  negotiated : option DlpNegotiatedProfile;
  hello_ack_sent : bool;
  hello_ack_received : bool;
  cap_offer_sent : bool;
  peer_cap_offer : option PeerCapabilityOffer;
  selected_mode : option VcMode;
  selected_rate : option Z;
  cap_selection_sent : bool;
  cap_confirmation_sent : bool;
  cap_confirmation_received : bool;
  params_offer_sent : bool;
  peer_params_offer : option PeerParameterOffer;
  selected_peer_rx : option Z;
  selected_burst : option Z;
  params_selection_sent : bool;
  params_confirmation_sent : bool;
  params_confirmation_received : bool;
  credit_stall_polls : Z }.

Definition no_negotiation : Negotiation :=
  mkNeg None false false false None None None false false false false None None None false false false 0.

Section negotiation_setters.
Context (n : Negotiation).
Definition with_negotiated v : Negotiation := mkNeg v (hello_ack_sent n) (hello_ack_received n)
  (cap_offer_sent n) (peer_cap_offer n) (selected_mode n) (selected_rate n) (cap_selection_sent n)
  (cap_confirmation_sent n) (cap_confirmation_received n) (params_offer_sent n) (peer_params_offer n)
  (selected_peer_rx n) (selected_burst n) (params_selection_sent n) (params_confirmation_sent n)
  (params_confirmation_received n) (credit_stall_polls n).
Definition with_hello_ack_sent v : Negotiation := mkNeg (negotiated n) v (hello_ack_received n)
  (cap_offer_sent n) (peer_cap_offer n) (selected_mode n) (selected_rate n) (cap_selection_sent n)
  (cap_confirmation_sent n) (cap_confirmation_received n) (params_offer_sent n) (peer_params_offer n)
  (selected_peer_rx n) (selected_burst n) (params_selection_sent n) (params_confirmation_sent n)
  (params_confirmation_received n) (credit_stall_polls n).
Definition with_hello_ack_received v : Negotiation := mkNeg (negotiated n) (hello_ack_sent n) v
  (cap_offer_sent n) (peer_cap_offer n) (selected_mode n) (selected_rate n) (cap_selection_sent n)
  (cap_confirmation_sent n) (cap_confirmation_received n) (params_offer_sent n) (peer_params_offer n)
  (selected_peer_rx n) (selected_burst n) (params_selection_sent n) (params_confirmation_sent n)
  (params_confirmation_received n) (credit_stall_polls n).
Definition with_cap_offer_sent v : Negotiation := mkNeg (negotiated n) (hello_ack_sent n) (hello_ack_received
  n) v (peer_cap_offer n) (selected_mode n) (selected_rate n) (cap_selection_sent n) (cap_confirmation_sent n)
  (cap_confirmation_received n) (params_offer_sent n) (peer_params_offer n) (selected_peer_rx n) (selected_burst
  n) (params_selection_sent n) (params_confirmation_sent n) (params_confirmation_received n) (credit_stall_polls
  n).
Definition with_peer_cap_offer v : Negotiation := mkNeg (negotiated n) (hello_ack_sent n) (hello_ack_received
  n) (cap_offer_sent n) v (selected_mode n) (selected_rate n) (cap_selection_sent n) (cap_confirmation_sent n)
  (cap_confirmation_received n) (params_offer_sent n) (peer_params_offer n) (selected_peer_rx n) (selected_burst
  n) (params_selection_sent n) (params_confirmation_sent n) (params_confirmation_received n) (credit_stall_polls
  n).
Definition with_selected_mode v : Negotiation := mkNeg (negotiated n) (hello_ack_sent n) (hello_ack_received
  n) (cap_offer_sent n) (peer_cap_offer n) v (selected_rate n) (cap_selection_sent n) (cap_confirmation_sent n)
  (cap_confirmation_received n) (params_offer_sent n) (peer_params_offer n) (selected_peer_rx n) (selected_burst
  n) (params_selection_sent n) (params_confirmation_sent n) (params_confirmation_received n) (credit_stall_polls
  n).
Definition with_selected_rate v : Negotiation := mkNeg (negotiated n) (hello_ack_sent n) (hello_ack_received
  n) (cap_offer_sent n) (peer_cap_offer n) (selected_mode n) v (cap_selection_sent n) (cap_confirmation_sent n)
  (cap_confirmation_received n) (params_offer_sent n) (peer_params_offer n) (selected_peer_rx n) (selected_burst
  n) (params_selection_sent n) (params_confirmation_sent n) (params_confirmation_received n) (credit_stall_polls
  n).
Definition with_cap_selection_sent v : Negotiation := mkNeg (negotiated n) (hello_ack_sent n)
  (hello_ack_received n) (cap_offer_sent n) (peer_cap_offer n) (selected_mode n) (selected_rate n) v
  (cap_confirmation_sent n) (cap_confirmation_received n) (params_offer_sent n) (peer_params_offer n)
  (selected_peer_rx n) (selected_burst n) (params_selection_sent n) (params_confirmation_sent n)
  (params_confirmation_received n) (credit_stall_polls n).
Definition with_cap_confirmation_sent v : Negotiation := mkNeg (negotiated n) (hello_ack_sent n)
  (hello_ack_received n) (cap_offer_sent n) (peer_cap_offer n) (selected_mode n) (selected_rate n)
  (cap_selection_sent n) v (cap_confirmation_received n) (params_offer_sent n) (peer_params_offer n)
  (selected_peer_rx n) (selected_burst n) (params_selection_sent n) (params_confirmation_sent n)
  (params_confirmation_received n) (credit_stall_polls n).
Definition with_cap_confirmation_received v : Negotiation := mkNeg (negotiated n) (hello_ack_sent n)
  (hello_ack_received n) (cap_offer_sent n) (peer_cap_offer n) (selected_mode n) (selected_rate n)
  (cap_selection_sent n) (cap_confirmation_sent n) v (params_offer_sent n) (peer_params_offer n)
  (selected_peer_rx n) (selected_burst n) (params_selection_sent n) (params_confirmation_sent n)
  (params_confirmation_received n) (credit_stall_polls n).
Definition with_params_offer_sent v : Negotiation := mkNeg (negotiated n) (hello_ack_sent n)
  (hello_ack_received n) (cap_offer_sent n) (peer_cap_offer n) (selected_mode n) (selected_rate n)
  (cap_selection_sent n) (cap_confirmation_sent n) (cap_confirmation_received n) v (peer_params_offer n)
  (selected_peer_rx n) (selected_burst n) (params_selection_sent n) (params_confirmation_sent n)
  (params_confirmation_received n) (credit_stall_polls n).
Definition with_peer_params_offer v : Negotiation := mkNeg (negotiated n) (hello_ack_sent n)
  (hello_ack_received n) (cap_offer_sent n) (peer_cap_offer n) (selected_mode n) (selected_rate n)
  (cap_selection_sent n) (cap_confirmation_sent n) (cap_confirmation_received n) (params_offer_sent n) v
  (selected_peer_rx n) (selected_burst n) (params_selection_sent n) (params_confirmation_sent n)
  (params_confirmation_received n) (credit_stall_polls n).
Definition with_selected_peer_rx v : Negotiation := mkNeg (negotiated n) (hello_ack_sent n)
  (hello_ack_received n) (cap_offer_sent n) (peer_cap_offer n) (selected_mode n) (selected_rate n)
  (cap_selection_sent n) (cap_confirmation_sent n) (cap_confirmation_received n) (params_offer_sent n)
  (peer_params_offer n) v (selected_burst n) (params_selection_sent n) (params_confirmation_sent n)
  (params_confirmation_received n) (credit_stall_polls n).
Definition with_selected_burst v : Negotiation := mkNeg (negotiated n) (hello_ack_sent n) (hello_ack_received
  n) (cap_offer_sent n) (peer_cap_offer n) (selected_mode n) (selected_rate n) (cap_selection_sent n)
  (cap_confirmation_sent n) (cap_confirmation_received n) (params_offer_sent n) (peer_params_offer n)
  (selected_peer_rx n) v (params_selection_sent n) (params_confirmation_sent n) (params_confirmation_received n)
  (credit_stall_polls n).
Definition with_params_selection_sent v : Negotiation := mkNeg (negotiated n) (hello_ack_sent n)
  (hello_ack_received n) (cap_offer_sent n) (peer_cap_offer n) (selected_mode n) (selected_rate n)
  (cap_selection_sent n) (cap_confirmation_sent n) (cap_confirmation_received n) (params_offer_sent n)
  (peer_params_offer n) (selected_peer_rx n) (selected_burst n) v (params_confirmation_sent n)
  (params_confirmation_received n) (credit_stall_polls n).
Definition with_params_confirmation_sent v : Negotiation := mkNeg (negotiated n) (hello_ack_sent n)
  (hello_ack_received n) (cap_offer_sent n) (peer_cap_offer n) (selected_mode n) (selected_rate n)
  (cap_selection_sent n) (cap_confirmation_sent n) (cap_confirmation_received n) (params_offer_sent n)
  (peer_params_offer n) (selected_peer_rx n) (selected_burst n) (params_selection_sent n) v
  (params_confirmation_received n) (credit_stall_polls n).
Definition with_params_confirmation_received v : Negotiation := mkNeg (negotiated n) (hello_ack_sent n)
  (hello_ack_received n) (cap_offer_sent n) (peer_cap_offer n) (selected_mode n) (selected_rate n)
  (cap_selection_sent n) (cap_confirmation_sent n) (cap_confirmation_received n) (params_offer_sent n)
  (peer_params_offer n) (selected_peer_rx n) (selected_burst n) (params_selection_sent n)
  (params_confirmation_sent n) v (credit_stall_polls n).
Definition with_credit_stall_polls v : Negotiation := mkNeg (negotiated n) (hello_ack_sent n)
  (hello_ack_received n) (cap_offer_sent n) (peer_cap_offer n) (selected_mode n) (selected_rate n)
  (cap_selection_sent n) (cap_confirmation_sent n) (cap_confirmation_received n) (params_offer_sent n)
  (peer_params_offer n) (selected_peer_rx n) (selected_burst n) (params_selection_sent n)
  (params_confirmation_sent n) (params_confirmation_received n) v.
End negotiation_setters.

Record DlpManagedEndpoint : Set := mkManaged {
  me_endpoint : EndpointCore;
  me_config : EndpointConfig;
  me_max_burst_flits : Z;
  me_state : DlpControlState;
  local_generation : Z;
  peer_generation : option Z;
  control_tx : list DlpControlFrame;
  neg : Negotiation }.

Section managed_setters.
Context (s : DlpManagedEndpoint).
Definition put_endpoint v : DlpManagedEndpoint := mkManaged v (me_config s) (me_max_burst_flits s) (me_state
  s) (local_generation s) (peer_generation s) (control_tx s) (neg s).
Definition put_state v : DlpManagedEndpoint := mkManaged (me_endpoint s) (me_config s) (me_max_burst_flits s)
  v (local_generation s) (peer_generation s) (control_tx s) (neg s).
Definition put_local_generation v : DlpManagedEndpoint := mkManaged (me_endpoint s) (me_config s)
  (me_max_burst_flits s) (me_state s) v (peer_generation s) (control_tx s) (neg s).
Definition put_peer_generation v : DlpManagedEndpoint := mkManaged (me_endpoint s) (me_config s)
  (me_max_burst_flits s) (me_state s) (local_generation s) v (control_tx s) (neg s).
Definition put_control_tx v : DlpManagedEndpoint := mkManaged (me_endpoint s) (me_config s)
  (me_max_burst_flits s) (me_state s) (local_generation s) (peer_generation s) v (neg s).
Definition put_neg v : DlpManagedEndpoint := mkManaged (me_endpoint s) (me_config s) (me_max_burst_flits s)
  (me_state s) (local_generation s) (peer_generation s) (control_tx s) v.
End managed_setters.

Notation mst := (st DlpManagedEndpoint).

Definition on_neg (f : Negotiation → Negotiation) : mst unit := modify (λ s, put_neg s (f (neg s))).
Definition on_endpoint {A} (m : st EndpointCore A) : mst A := zoom me_endpoint (λ e s, put_endpoint s e) m.
Definition push_control (f : DlpControlFrame) : mst unit := modify (λ s, put_control_tx s (control_tx s ++ [f])).

(** ** Construction *)

Definition me_build (endpoint : EndpointCore) (cfg : EndpointConfig) (max_burst_flits : Z) : DlpManagedEndpoint :=
  {| me_endpoint := endpoint; me_config := cfg; me_max_burst_flits := max_burst_flits; me_state := Down;
     local_generation := 1; peer_generation := None; control_tx := []; neg := no_negotiation |}.

Definition link_down_endpoint (e : EndpointCore) : EndpointCore := set_dlp e (set_link_up false (dlp e)).

Definition me_new (address : Z) (cfg : EndpointConfig) (max_burst_flits : Z) : res DlpManagedEndpoint :=
  validate_parameter_value (ec_rx_buffer_flits cfg);;
  validate_parameter_value max_burst_flits;;
  fail_if (negb (ec_control_window_flits cfg =? DLP_RESERVED_CONTROL_WINDOW_FLITS)) InvalidField;;
  endpoint ← ep_new address cfg;
  Ok (me_build (link_down_endpoint endpoint) cfg max_burst_flits).

Definition me_unconfigured (link_local_suffix : Z) (cfg : EndpointConfig) (max_burst_flits : Z)
    : res DlpManagedEndpoint :=
  validate_parameter_value (ec_rx_buffer_flits cfg);;
  validate_parameter_value max_burst_flits;;
  fail_if (negb (ec_control_window_flits cfg =? DLP_RESERVED_CONTROL_WINDOW_FLITS)) InvalidField;;
  endpoint ← ep_unconfigured link_local_suffix cfg;
  Ok (me_build (link_down_endpoint endpoint) cfg max_burst_flits).

(** ** Negotiation *)

Definition clear_negotiation_state : mst unit := modify (λ s, put_neg s no_negotiation).

Definition queue_hello_initial : mst unit :=
  s ← gets Datatypes.id; push_control (FHello Initial (local_generation s) 0).

Definition queue_hello_ack (peer_generation : Z) : mst unit :=
  s ← gets Datatypes.id;
  push_control (FHello Acknowledgement (local_generation s) peer_generation);;
  on_neg (λ n, with_hello_ack_sent n true).

Definition restart_negotiation (increment_generation preserve_control : bool) : mst unit :=
  on_endpoint (modify link_detached);;
  (if increment_generation
   then modify (λ s, put_local_generation s (next_generation (local_generation s))) else mret tt);;
  (if preserve_control then mret tt else modify (λ s, put_control_tx s []));;
  clear_negotiation_state;;
  modify (λ s, put_state s Hello);;
  queue_hello_initial.

Definition carrier_up : mst unit :=
  s ← gets Datatypes.id;
  guard_st (negb (bool_decide (me_state s = Down))) InvalidState;;
  restart_negotiation false false.

Definition carrier_down : mst unit :=
  on_endpoint (modify link_detached);;
  modify (λ s, put_control_tx s []);;
  modify (λ s, put_peer_generation s None);;
  clear_negotiation_state;;
  modify (λ s, put_state s Down).

Definition request_reset (reason : Z) : mst unit :=
  s ← gets Datatypes.id;
  guard_st (bool_decide (me_state s = Down)) LinkDown;;
  guard_st (0x0f <? reason) InvalidField;;
  let old_generation := local_generation s in
  on_endpoint (modify link_detached);;
  modify (λ s, put_control_tx s []);;
  push_control (FReset old_generation (as_u8 reason));;
  modify (λ s, put_local_generation s (next_generation (local_generation s)));;
  modify (λ s, put_peer_generation s None);;
  clear_negotiation_state;;
  modify (λ s, put_state s Hello);;
  queue_hello_initial.

Definition poll_control (s : DlpManagedEndpoint) : DlpManagedEndpoint * option (list Z) :=
  match control_tx s with
  | [] => (s, None)
  | f :: rest => (put_control_tx s rest, Some (frame_encode f))
  end.

Definition maybe_start_capability_exchange : mst unit :=
  s ← gets Datatypes.id;
  let n := neg s in
  if negb (hello_ack_sent n) || negb (hello_ack_received n) || bool_decide (peer_generation s = None) then mret tt
  else
    modify (λ s, put_state s Negotiate);;
    (if negb (cap_offer_sent n) then
       push_control (FCapabilities Offer (local_generation s) (supported_mode_flags (ec_vc_mode (me_config s))) RATE_ALL);;
       on_neg (λ n, with_cap_offer_sent n true)
     else mret tt);;
    (if negb (params_offer_sent n) then
       rx ← lift (encode_parameter_units (ec_rx_buffer_flits (me_config s)));
       burst ← lift (encode_parameter_units (me_max_burst_flits s));
       push_control (FLinkParameters Offer (local_generation s) rx burst);;
       on_neg (λ n, with_params_offer_sent n true)
     else mret tt).

Definition was_live (st : DlpControlState) : bool :=
  match st with Negotiate | CreditSync | Up => true | _ => false end.

(** the [Initial] branch of [on_hello] *)
Definition on_hello_initial (sg : Z) : mst unit :=
  s ← gets Datatypes.id;
  let accept := modify (λ s, put_peer_generation s (Some sg));; queue_hello_ack sg;; maybe_start_capability_exchange in
  match peer_generation s with
  | Some current =>
      if negb (sg =? current) then
        if negb (sg =? next_generation current) then mret tt
        else restart_negotiation (was_live (me_state s)) false;; accept
      else accept
  | None => guard_st (bool_decide (me_state s = Down)) InvalidState;; accept
  end.

(** the [Acknowledgement] branch of [on_hello] *)
Definition on_hello_ack (sg pg : Z) : mst unit :=
  s ← gets Datatypes.id;
  let accept := on_neg (λ n, with_hello_ack_received n true);; maybe_start_capability_exchange in
  if negb (pg =? local_generation s) then mret tt
  else
    match peer_generation s with
    | Some g =>
        if negb (g =? sg) then
          if negb (sg =? next_generation g) then mret tt
          else
            restart_negotiation true false;;
            modify (λ s, put_peer_generation s (Some sg));;
            queue_hello_ack sg;;
            accept
        else accept
    | None => modify (λ s, put_peer_generation s (Some sg));; queue_hello_ack sg;; accept
    end.

Definition on_hello (kind : DlpHelloKind) (sg pg : Z) : mst unit :=
  match kind with Initial => on_hello_initial sg | Acknowledgement => on_hello_ack sg pg end.

Definition maybe_install_profile : mst unit :=
  s ← gets Datatypes.id;
  let n := neg s in
  if negb (bool_decide (me_state s = Negotiate)) || negb (cap_confirmation_sent n)
     || negb (cap_confirmation_received n) || negb (params_confirmation_sent n)
     || negb (params_confirmation_received n)
  then mret tt
  else
    mode ← lift (ok_or (selected_mode n) InvalidState);
    burst ← lift (ok_or (selected_burst n) InvalidState);
    peer_rx ← lift (ok_or (selected_peer_rx n) InvalidState);
    let c := me_config s in
    cfg ← lift (config_new (ec_rx_buffer_flits c) mode);
    d ← lift (endpoint_new {| dc_gdp := ec_gdp_wire c;
                              dc_local_prefix := clear_low16 (default 0 (ec_local_context_prefix c));
                              dc_vc_mode := dc_vc_mode cfg; dc_rx_buffer_flits := dc_rx_buffer_flits cfg;
                              dc_control_window_flits := DLP_RESERVED_CONTROL_WINDOW_FLITS |});
    on_endpoint (modify (λ e, set_dlp e d));;
    on_neg (λ n, with_negotiated n (Some (mkProfile mode burst peer_rx DLP_RESERVED_CONTROL_WINDOW_FLITS)));;
    modify (λ s, put_state s CreditSync).

(** the [Offer] branch of [on_capabilities] *)
Definition on_cap_offer (profiles rates : Z) : mst unit :=
  s ← gets Datatypes.id;
  match peer_cap_offer (neg s) with
  | Some old => guard_st (negb (co_profiles old =? profiles) || negb (co_rates old =? rates)) InvalidField
  | None => on_neg (λ n, with_peer_cap_offer n (Some (mkCapOffer profiles rates)))
  end;;
  mode ← lift (choose_vc_mode (ec_vc_mode (me_config s)) profiles);
  rate ← lift (choose_rate RATE_ALL rates);
  on_neg (λ n, with_selected_mode n (Some mode));;
  on_neg (λ n, with_selected_rate n (Some rate));;
  if negb (cap_selection_sent (neg s)) then
    push_control (FCapabilities Selection (local_generation s) (selected_mode_flag mode) rate);;
    on_neg (λ n, with_cap_selection_sent n true)
  else mret tt.

Definition on_cap_selection (profiles rates : Z) : mst unit :=
  s ← gets Datatypes.id;
  offer ← lift (ok_or (peer_cap_offer (neg s)) InvalidState);
  expected_mode ← lift (choose_vc_mode (ec_vc_mode (me_config s)) (co_profiles offer));
  expected_rate ← lift (choose_rate RATE_ALL (co_rates offer));
  guard_st (negb (profiles =? selected_mode_flag expected_mode) || negb (rates =? expected_rate)) InvalidField;;
  if negb (cap_confirmation_sent (neg s)) then
    push_control (FCapabilities Confirmation (local_generation s) profiles rates);;
    on_neg (λ n, with_cap_confirmation_sent n true)
  else mret tt.

Definition on_cap_confirmation (profiles rates : Z) : mst unit :=
  s ← gets Datatypes.id;
  mode ← lift (ok_or (selected_mode (neg s)) InvalidState);
  rate ← lift (ok_or (selected_rate (neg s)) InvalidState);
  guard_st (negb (profiles =? selected_mode_flag mode) || negb (rates =? rate)) InvalidField;;
  on_neg (λ n, with_cap_confirmation_received n true).

Definition on_capabilities (kind : DlpCapabilityKind) (profiles rates : Z) : mst unit :=
  s ← gets Datatypes.id;
  guard_st (negb (bool_decide (me_state s = Negotiate))) InvalidState;;
  match kind with
  | Offer => on_cap_offer profiles rates
  | Selection => on_cap_selection profiles rates
  | Confirmation => on_cap_confirmation profiles rates
  end;;
  maybe_install_profile.

(** the [Offer] branch of [on_link_parameters] *)
Definition on_params_offer (rx burst : Z) : mst unit :=
  s ← gets Datatypes.id;
  match peer_params_offer (neg s) with
  | Some old => guard_st (negb (po_rx_buffer_flits old =? rx) || negb (po_max_burst_flits old =? burst)) InvalidField
  | None => on_neg (λ n, with_peer_params_offer n (Some (mkParamOffer rx burst)))
  end;;
  let selected := Z.min (me_max_burst_flits s) burst in
  on_neg (λ n, with_selected_peer_rx n (Some rx));;
  on_neg (λ n, with_selected_burst n (Some selected));;
  if negb (params_selection_sent (neg s)) then
    rxu ← lift (encode_parameter_units rx);
    bu ← lift (encode_parameter_units selected);
    push_control (FLinkParameters Selection (local_generation s) rxu bu);;
    on_neg (λ n, with_params_selection_sent n true)
  else mret tt.

Definition on_params_selection (rx burst rx_window_units burst_units : Z) : mst unit :=
  s ← gets Datatypes.id;
  offer ← lift (ok_or (peer_params_offer (neg s)) InvalidState);
  let expected_burst := Z.min (me_max_burst_flits s) (po_max_burst_flits offer) in
  guard_st (negb (rx =? ec_rx_buffer_flits (me_config s)) || negb (burst =? expected_burst)) InvalidField;;
  if negb (params_confirmation_sent (neg s)) then
    push_control (FLinkParameters Confirmation (local_generation s) rx_window_units burst_units);;
    on_neg (λ n, with_params_confirmation_sent n true)
  else mret tt.

Definition on_params_confirmation (rx burst : Z) : mst unit :=
  s ← gets Datatypes.id;
  peer_rx ← lift (ok_or (selected_peer_rx (neg s)) InvalidState);
  selected ← lift (ok_or (selected_burst (neg s)) InvalidState);
  guard_st (negb (rx =? peer_rx) || negb (burst =? selected)) InvalidField;;
  on_neg (λ n, with_params_confirmation_received n true).

Definition on_link_parameters (kind : DlpCapabilityKind) (rx_window_units burst_units : Z) : mst unit :=
  s ← gets Datatypes.id;
  guard_st (negb (bool_decide (me_state s = Negotiate))) InvalidState;;
  rx ← lift (decode_parameter_units rx_window_units);
  burst ← lift (decode_parameter_units burst_units);
  match kind with
  | Offer => on_params_offer rx burst
  | Selection => on_params_selection rx burst rx_window_units burst_units
  | Confirmation => on_params_confirmation rx burst
  end;;
  maybe_install_profile.

Definition on_reset (sg : Z) : mst unit :=
  s ← gets Datatypes.id;
  if negb (bool_decide (peer_generation s = Some sg)) then mret tt
  else
    on_endpoint (modify link_detached);;
    modify (λ s, put_control_tx s []);;
    modify (λ s, put_peer_generation s None);;
    modify (λ s, put_local_generation s (next_generation (local_generation s)));;
    clear_negotiation_state;;
    modify (λ s, put_state s Hello);;
    queue_hello_initial.

Definition frame_is_current (s : DlpManagedEndpoint) (f : DlpControlFrame) : bool :=
  bool_decide (peer_generation s = Some (sender_generation f)).

Definition receive_frame_of (f : DlpControlFrame) : mst unit :=
  s ← gets Datatypes.id;
  match f with
  | FHello kind sg pg => on_hello kind sg pg
  | FReset sg _ => on_reset sg
  | FCapabilities kind _ profiles rates =>
      if negb (frame_is_current s f) then mret tt else on_capabilities kind profiles rates
  | FLinkParameters kind _ rx burst =>
      if negb (frame_is_current s f) then mret tt else on_link_parameters kind rx burst
  end.

Definition receive_control (bs : list Z) : mst unit :=
  f ← lift (frame_decode bs);
  receive_frame_of f.

(** ** The data path *)

Definition data_path_active (s : DlpManagedEndpoint) : bool :=
  match me_state s with CreditSync | Up => true | _ => false end.

Definition set_stall_polls (v : Z) : mst unit := on_neg (λ n, with_credit_stall_polls n v).

Definition maybe_retry_data_credit_request : mst unit :=
  s ← gets Datatypes.id;
  if negb (bool_decide (me_state s = Up)) then set_stall_polls 0
  else
    let queued := queued_data_flits (dlp (me_endpoint s)) in
    let credit := data_tx_credit (dlp (me_endpoint s)) in
    if (queued =? 0) || (queued <=? credit) then set_stall_polls 0
    else
      let polls := saturating_add 8 (credit_stall_polls (neg s)) 1 in
      set_stall_polls polls;;
      if CREDIT_REQUEST_RETRY_POLLS <=? polls then
        on_endpoint retry_managed_link_credit_request;;
        set_stall_polls 0
      else mret tt.

Definition require_active : mst unit :=
  s ← gets Datatypes.id; guard_st (negb (data_path_active s)) LinkDown.

Definition me_poll_tx_flit : mst (option Flit) :=
  require_active;; maybe_retry_data_credit_request;; on_endpoint poll_tx_flit.
Definition me_poll_tx_frame : mst (option GnetFrame) :=
  require_active;; maybe_retry_data_credit_request;; on_endpoint ep_poll_tx_frame.

Definition peer_limit : mst Z :=
  s ← gets Datatypes.id;
  p ← lift (ok_or (negotiated (neg s)) InvalidState);
  mret (np_peer_rx_buffer_flits p).

Definition me_receive_flit (flit : Flit) (now : Z) : mst bool :=
  require_active;; limit ← peer_limit; on_endpoint (receive_managed_flit flit now limit).
Definition me_receive_frame (frame : GnetFrame) (now : Z) : mst bool :=
  require_active;; limit ← peer_limit; on_endpoint (receive_managed_frame frame now limit).

Definition bind_credit_peer (peer : Z) : mst unit :=
  s ← gets Datatypes.id;
  guard_st (negb (bool_decide (me_state s = CreditSync))) InvalidState;;
  on_endpoint (bind_managed_link_peer peer DLP_RESERVED_CONTROL_WINDOW_FLITS).

Definition finish_credit_sync : mst unit :=
  s ← gets Datatypes.id;
  guard_st (negb (bool_decide (me_state s = CreditSync))) InvalidState;;
  guard_st (data_tx_credit (dlp (me_endpoint s)) =? 0) NoCredit;;
  modify (λ s, put_state s Up).

(** ** The cable *)

Record DlpDirectCable : Set := mkCable {
  carrier : bool; credit_bound : bool; cable_a : DlpManagedEndpoint; cable_b : DlpManagedEndpoint }.

Notation cst := (st DlpDirectCable).

Definition at_a {A} (m : mst A) : cst A :=
  zoom cable_a (λ e s, mkCable (carrier s) (credit_bound s) e (cable_b s)) m.
Definition at_b {A} (m : mst A) : cst A :=
  zoom cable_b (λ e s, mkCable (carrier s) (credit_bound s) (cable_a s) e) m.
Definition set_credit_bound (v : bool) : cst unit :=
  modify (λ s, mkCable (carrier s) v (cable_a s) (cable_b s)).

Definition both_up (s : DlpDirectCable) : bool :=
  bool_decide (me_state (cable_a s) = Up) && bool_decide (me_state (cable_b s) = Up).
Definition both_ready_for_credit (s : DlpDirectCable) : bool :=
  data_path_active (cable_a s) && data_path_active (cable_b s).

(** one direction of [pump_control] *)
Definition pump_control_side (from to : ∀ A, mst A → cst A) : cst bool :=
  f ← from _ (λ s, let '(s, f) := poll_control s in (s, Ok f));
  match f with
  | Some bs => to _ (receive_control bs);; mret true
  | None => mret false
  end.
Definition pump_control : cst bool :=
  p ← pump_control_side (@at_a) (@at_b);
  q ← pump_control_side (@at_b) (@at_a);
  mret (p || q).

Definition pump_data_direction (from to : ∀ A, mst A → cst A) (now : Z) : cst bool :=
  s ← gets Datatypes.id;
  if negb (both_ready_for_credit s) then mret false
  else
    attempt (from _ me_poll_tx_flit) (λ r,
      match r with
      | Ok (Some flit) =>
          to _ (me_receive_flit flit now);;
          (if is_control (fl_vcid flit)
           then from _ (on_endpoint (on_dlp (modify (grant_control_tx_credit 1)))) else mret tt);;
          mret true
      | Ok None | Err NoCredit => mret false
      | Err e => lift (Err e)
      | Panic => lift Panic
      end).
Definition pump_data_once (now : Z) : cst bool :=
  p ← pump_data_direction (@at_a) (@at_b) now;
  q ← pump_data_direction (@at_b) (@at_a) now;
  mret (p || q).

(** [for _ in 0..n] around [pump_control] *)
Fixpoint control_loop (n : nat) : cst unit :=
  match n with
  | O => mret tt
  | S n =>
      progress ← pump_control;
      s ← gets Datatypes.id;
      if both_ready_for_credit s then mret tt
      else
        guard_st (negb progress) InvalidState;;
        control_loop n
  end.

(** [for _ in 0..n] around [pump_data_once] *)
Fixpoint credit_loop (n : nat) : cst unit :=
  match n with
  | O => mret tt
  | S n =>
      s ← gets Datatypes.id;
      if negb (data_tx_credit (dlp (me_endpoint (cable_a s))) =? 0)
         && negb (data_tx_credit (dlp (me_endpoint (cable_b s))) =? 0)
      then mret tt
      else
        progress ← pump_data_once 0;
        guard_st (negb progress) InvalidState;;
        credit_loop n
  end.

(** [if m.control_state() == state { f(m)? }] *)
Definition when_in (state : DlpControlState) (m : mst unit) : mst unit :=
  s ← gets Datatypes.id; if bool_decide (me_state s = state) then m else mret tt.

Definition sync_credit : cst unit :=
  s ← gets Datatypes.id;
  let a_peer := link_local_address (me_endpoint (cable_b s)) in
  let b_peer := link_local_address (me_endpoint (cable_a s)) in
  at_a (when_in CreditSync (bind_credit_peer a_peer));;
  at_b (when_in CreditSync (bind_credit_peer b_peer));;
  set_credit_bound true;;
  credit_loop 512;;
  s ← gets Datatypes.id;
  guard_st ((data_tx_credit (dlp (me_endpoint (cable_a s))) =? 0)
            || (data_tx_credit (dlp (me_endpoint (cable_b s))) =? 0)) NoCredit;;
  at_a (when_in CreditSync finish_credit_sync);;
  at_b (when_in CreditSync finish_credit_sync).

Definition cable_attach : cst unit :=
  s ← gets Datatypes.id;
  (if negb (carrier s) then
     at_a (when_in Down carrier_up);;
     at_b (when_in Down carrier_up);;
     modify (λ s, mkCable true (credit_bound s) (cable_a s) (cable_b s))
   else mret tt);;
  s ← gets Datatypes.id;
  (if negb (both_ready_for_credit s) then set_credit_bound false;; control_loop 512 else mret tt);;
  s ← gets Datatypes.id;
  guard_st (negb (both_ready_for_credit s)) InvalidState;;
  (if negb (credit_bound s) then sync_credit else mret tt);;
  s ← gets Datatypes.id;
  guard_st (negb (both_up s)) InvalidState.

(** the loop of [pump] *)
Fixpoint cable_loop (fuel : nat) (now max_transfers moved : Z) : cst Z :=
  match fuel with
  | O => lift Panic
  | S fuel =>
      guard_st (max_transfers <=? moved) BufferFull;;
      p ← pump_control;
      s ← gets Datatypes.id;
      (if p && negb (both_up s) then set_credit_bound false;; cable_attach else mret tt);;
      q ← pump_data_once now;
      let moved := moved + Z.b2z p + Z.b2z q in
      if p || q then cable_loop fuel now max_transfers moved else mret moved
  end.

Definition cable_pump (now max_transfers : Z) : cst Z :=
  s ← gets Datatypes.id;
  (if negb (both_up s) then set_credit_bound false else mret tt);;
  cable_attach;;
  cable_loop (S (Z.to_nat max_transfers)) now max_transfers 0.
