(* ===== verification/DlpControlInv.v ===== *)
(** * Invariants of the managed link

    What holds of every [DlpManagedEndpoint] whatever control frames, flits
    and calls it gets: well-formedness, absence of panics, the ceiling of the
    transmit credit, and the scoping of control frames to generations. *)
From stdpp Require Import prelude gmap.
From Stdlib Require Import ZArith Lia.
From S2P Require Import Prelude BTree Css GdpWire Gctl GtsWire GtsCodec Reliable GtsStream Dlp EndpointCore EndpointAuth EndpointInv EndpointSafety DlpFrame DlpControl.
Local Open Scope Z_scope.

(** ** Calls of the application leave the link's credit alone *)

(** Calls on the endpoint below the managed link that are not calls on the
    link itself. *)
Definition application_call (c : ep_call) : bool :=
  match c with
  | CPollFlit | CPollTxFrame | CReceiveFlit _ _ | CReceiveGnetFrame _ _ | CLinkAttached _ _ | CBindManaged _ _
  | CRetryManaged | CLinkDetached | CManagedFlit _ _ _ | CManagedFrame _ _ _ | CGrantControl _ => false
  | _ => true
  end.

Lemma keeps_send_pending b l : preserves (balance_is b) (send_pending l).
Proof. induction l as [| [[pr p] pkt] l IH]; cbn [send_pending]; keep. Qed.
Lemma keeps_tick_tunnels b now hs : preserves (balance_is b) (tick_tunnels now hs).
Proof. induction hs as [| h hs IH]; cbn [tick_tunnels]; keep. Qed.
#[export] Hint Resolve keeps_send_pending keeps_tick_tunnels : keeps.

Lemma keeps_outcome {A} b (m : st EndpointCore A) : preserves (balance_is b) m → preserves (balance_is b) (outcome m).
Proof. intros Hm. apply preserves_bind; [done |]. intros. apply preserves_ret. Qed.

Lemma keeps_application b c : application_call c = true → preserves (balance_is b) (run_ep c).
Proof.
  intros Hc. destruct c; try discriminate Hc; cbn [run_ep]; unfold pure_call;
    try (apply keeps_outcome);
    unfold enable_address_authority, listen, accept, take_echo_reply, take_gctl, solicit_router, send_echo, send_gctl,
      ep_connect, ep_open_stream, send_inner, ep_recv, ep_reset_stream, ep_close_stream, ep_close_tunnel,
      ep_reset_tunnel, ep_tick, alloc_tunnel; try solve [keep].
  - apply keeps_modify. intros s. by destruct (accepted s).
  - apply keeps_modify. intros s. by destruct (gctl_inbox s).
Qed.

(** Polling only spends credit. *)
Definition at_most (c : Z) (s : EndpointCore) : Prop := balance s ≤ c.

Lemma at_most_keeps {A} c (m : st EndpointCore A) :
  (∀ b, preserves (balance_is b) m) → preserves (at_most c) m.
Proof. intros Hm s Hs. unfold at_most. by rewrite (Hm (balance s) s eq_refl). Qed.

Lemma emit_loop_spends fuel q credit out w q' c' r :
  emit_loop fuel q credit out w = Ok (q', c', r) → c' ≤ credit.
Proof.
  revert q credit out w. induction fuel as [| fuel IH]; intros q credit out w H; cbn [emit_loop] in H; [done |].
  destruct (_ && _); [| apply Ok_inj in H as [= _ <- _]; lia].
  destruct q as [| front rest]; [apply Ok_inj in H as [= _ <- _]; lia |].
  apply bind_Ok in H as ([front' [flit |]] & _ & H); [| by eapply IH].
  apply bind_Ok in H as (out' & _ & H). apply bind_Ok in H as (c1 & Hc & H).
  unfold sub_or_panic in Hc. apply expect_Ok in Hc. unfold checked_sub in Hc. destruct (_ <=? _) in Hc; [| discriminate Hc].
  apply Some_inj in Hc. apply IH in H. lia.
Qed.

Lemma emit_spends c out : preserves (λ qc : list TxFrame * Z, qc.2 ≤ c) (emit_queue_flits out).
Proof.
  intros [q cr] Hc. cbn in Hc. unfold emit_queue_flits. destruct (emit_loop _ _ _ _ _) as [[[q' c'] r] | |] eqn:E; [| done..].
  apply emit_loop_spends in E. cbn. lia.
Qed.
Lemma pop_spends c : preserves (λ qc : list TxFrame * Z, qc.2 ≤ c) pop_sendable_frame.
Proof.
  intros [q cr] Hc. cbn in Hc. unfold pop_sendable_frame. destruct q as [| f q]; [done |].
  destruct (negb _); [done |]. destruct (_ <? _); [done |]. cbn. unfold as_u32.
  pose proof (Z.mod_pos_bound (tx_flit_len f) 0x100000000). lia.
Qed.

Lemma on_data_spends {A} c (m : st (list TxFrame * Z) A) :
  preserves (λ qc, qc.2 ≤ c) m → preserves (λ d, data_tx_credit d ≤ c) (on_data m).
Proof. intros Hm d Hd. unfold on_data, zoom. specialize (Hm (data_tx_queue d, data_tx_credit d) Hd). by destruct (m _) as [[q cr] r]. Qed.
Lemma on_control_spends {A} c (m : st (list TxFrame * Z) A) : preserves (λ d, data_tx_credit d ≤ c) (on_control m).
Proof. intros d Hd. unfold on_control, zoom. by destruct (m _) as [[q cr] r]. Qed.

#[export] Hint Resolve emit_spends pop_spends on_data_spends on_control_spends : preserves.

(** Walk through a method of the link endpoint. *)
Ltac spend :=
  repeat first
    [ apply preserves_bind; [| intros ?]
    | lazymatch goal with
      | |- preserves _ (match ?x with _ => _ end) => destruct x
      | |- preserves _ (let '(_, _) := ?x in _) => destruct x
      end
    | solve [auto with preserves] ].

Lemma poll_tx_spends c : preserves (λ d, data_tx_credit d ≤ c) poll_tx.
Proof. unfold poll_tx, poll_tx_burst. spend. Qed.
Lemma poll_tx_frame_spends c : preserves (λ d, data_tx_credit d ≤ c) poll_tx_frame.
Proof. unfold poll_tx_frame. spend. Qed.

Lemma keeps_maybe_request b : preserves (balance_is b) maybe_request_link_credit.
Proof. unfold maybe_request_link_credit. keep. Qed.
Lemma preserves_attempt {S A B} (P : S → Prop) (m : st S A) (k : res A → st S B) :
  preserves P m → (∀ r, preserves P (k r)) → preserves P (attempt m k).
Proof. intros Hm Hk s Hs. unfold attempt. specialize (Hm s Hs). destruct (m s) as [s1 [| |]]; cbn in *; by try apply Hk. Qed.
Lemma keeps_retry b : preserves (balance_is b) retry_managed_link_credit_request.
Proof.
  unfold retry_managed_link_credit_request. repeat keep_step. apply preserves_attempt; [auto with keeps |]. intros r. keep.
Qed.
#[export] Hint Resolve keeps_maybe_request keeps_retry : keeps.

Lemma keeps_bind_managed b p w : preserves (balance_is b) (bind_managed_link_peer p w).
Proof.
  unfold bind_managed_link_peer. repeat keep_step. apply keeps_on_dlp. by intros d Hd.
Qed.

(** *** The calls of a managed link and the ceiling *)

Lemma sound_and {S A} (P P' : S → Prop) (Q : A → Prop) (m : st S A) :
  sound P Q m → preserves P' m → sound (λ s, P s ∧ P' s) Q m.
Proof. intros H1 H2 s [Hs Hs']. destruct (H1 s Hs) as [Ha Hb]. split; [split; [done | by apply H2] | done]. Qed.

Definition ep_below (c : Z) (s : EndpointCore) : Prop := ep_inv s ∧ at_most c s.

Lemma at_most_on_dlp {A} c (m : st DlpEndpoint A) :
  preserves (λ d, data_tx_credit d ≤ c) m → preserves (at_most c) (on_dlp m).
Proof. intros Hm s Hs. unfold on_dlp, zoom, at_most, balance. specialize (Hm (dlp s) Hs). by destruct (m (dlp s)). Qed.

Lemma poll_tx_flit_below c : sound (ep_below c) (λ o, ∀ f, o = Some f → flit_ok f) poll_tx_flit.
Proof.
  apply sound_and; [apply poll_tx_flit_sound |]. apply preserves_bind; [apply at_most_keeps, keeps_maybe_request |].
  intros _. apply at_most_on_dlp, poll_tx_spends.
Qed.
Lemma poll_tx_frame_below c : sound (ep_below c) (λ _, True) ep_poll_tx_frame.
Proof.
  apply sound_and; [apply ep_poll_tx_frame_sound |]. apply preserves_bind; [apply at_most_keeps, keeps_maybe_request |].
  intros _. apply at_most_on_dlp, poll_tx_frame_spends.
Qed.
Lemma retry_below c : sound (ep_below c) (λ _, True) retry_managed_link_credit_request.
Proof. apply sound_and; [apply retry_managed_sound | apply at_most_keeps, keeps_retry]. Qed.
Lemma bind_managed_below c p w : 0 ≤ w → sound (ep_below c) (λ _, True) (bind_managed_link_peer p w).
Proof. intros Hw. apply sound_and; [by apply bind_managed_sound | apply at_most_keeps; intros b; apply keeps_bind_managed]. Qed.
Lemma application_below limit c :
  ep_call_ok c → application_call c = true → sound (ep_below limit) (λ _, True) (run_ep c).
Proof. intros Hc Ha. apply sound_and; [by apply run_ep_sound | apply at_most_keeps; intros b; by apply keeps_application]. Qed.
Lemma grant_control_below c n : 0 ≤ n → sound (ep_below c) (λ _, True) (on_dlp (modify (grant_control_tx_credit n))).
Proof.
  intros Hn. apply sound_and; [by apply on_dlp_sound, grant_control_sound |].
  apply at_most_on_dlp. by apply preserves_modify.
Qed.
Lemma receive_flit_below f now limit :
  flit_ok f → limit < 2 ^ 32 → sound (ep_below limit) (λ _, True) (receive_managed_flit f now limit).
Proof.
  intros Hf Hl s [Hs Hb]. destruct (receive_managed_flit_sound f now limit Hf s Hs) as [H1 H2].
  split; [split; [done |] | done]. by apply receive_managed_flit_ceiling.
Qed.
Lemma receive_frame_below f now limit :
  frame_ok f → limit < 2 ^ 32 → sound (ep_below limit) (λ _, True) (receive_managed_frame f now limit).
Proof.
  intros Hf Hl s [Hs Hb]. destruct (receive_managed_frame_sound f now limit Hf s Hs) as [H1 H2].
  split; [split; [done |] | done]. by apply receive_managed_frame_ceiling.
Qed.

(** ** The invariant *)

(** A parameter that the frames can carry: 4 to 1020 flits in steps of 4. *)
Definition units_ok (v : Z) : Prop := ∃ u, 1 ≤ u ≤ 255 ∧ v = u * 4.

Lemma encode_units u : 1 ≤ u ≤ 255 → encode_parameter_units (u * 4) = Ok u.
Proof.
  intros Hu. unfold encode_parameter_units, DLP_CONTROL_PARAMETER_UNIT_FLITS, as_u8.
  rewrite Z.mod_mul, Z.div_mul by done.
  replace (u * 4 =? 0) with false by lia. replace (u =? 0) with false by lia. replace (255 <? u) with false by lia.
  cbn. by rewrite Z.mod_small by lia.
Qed.
Lemma validate_units v : 0 ≤ v → validate_parameter_value v = Ok tt → units_ok v.
Proof.
  intros Hv (u & H & _)%bind_Ok. unfold encode_parameter_units, DLP_CONTROL_PARAMETER_UNIT_FLITS in H.
  apply bind_Ok in H as ([] & [H1 _]%fail_if_Ok & H). apply bind_Ok in H as ([] & [H2 _]%fail_if_Ok & H).
  rewrite orb_false_iff, negb_false_iff, Z.eqb_neq, Z.eqb_eq in H1.
  rewrite orb_false_iff, Z.eqb_neq, Z.ltb_ge in H2. exists (v / 4). zdiv.
Qed.
Lemma decode_units u v : decode_parameter_units u = Ok v ↔ u ≠ 0 ∧ v = u * 4.
Proof.
  unfold decode_parameter_units, DLP_CONTROL_PARAMETER_UNIT_FLITS. destruct (Z.eqb_spec u 0); cbn; naive_solver.
Qed.
Lemma units_encode v : units_ok v → ∃ u, encode_parameter_units v = Ok u ∧ 1 ≤ u ≤ 255 ∧ v = u * 4.
Proof. intros (u & Hu & ->). exists u. split; [by apply encode_units | done]. Qed.

Record profile_ok (c : EndpointConfig) (max_burst : Z) (p : DlpNegotiatedProfile) : Prop := {
  po_mode : vc_mode_count (np_vc_mode p) ≤ vc_mode_count (ec_vc_mode c);
  po_burst : units_ok (np_burst_flits p) ∧ np_burst_flits p ≤ max_burst;
  po_peer_rx : units_ok (np_peer_rx_buffer_flits p);
  po_window : np_peer_control_window_flits p = 32 }.

Record neg_ok (c : EndpointConfig) (max_burst : Z) (n : Negotiation) : Prop := {
  no_mode : ∀ m, selected_mode n = Some m → vc_mode_count m ≤ vc_mode_count (ec_vc_mode c);
  no_rx : ∀ x, selected_peer_rx n = Some x → units_ok x;
  no_burst : ∀ x, selected_burst n = Some x → units_ok x ∧ x ≤ max_burst;
  no_params : ∀ o, peer_params_offer n = Some o → units_ok (po_rx_buffer_flits o) ∧ units_ok (po_max_burst_flits o);
  no_profile : ∀ p, negotiated n = Some p → profile_ok c max_burst p }.

Definition generation_ok (g : Z) : Prop := 1 ≤ g < 64.

(** [c] and [mb] are the configuration and the burst limit the endpoint was
    built with. *)
Section managed.
Context (c : EndpointConfig) (mb : Z).

Record me_inv (s : DlpManagedEndpoint) : Prop := {
  mi_cfg : me_config s = c;
  mi_max : me_max_burst_flits s = mb;
  mi_ep : ep_inv (me_endpoint s);
  mi_rx : units_ok (ec_rx_buffer_flits c);
  mi_burst : units_ok mb;
  mi_gen : generation_ok (local_generation s);
  mi_peer : ∀ g, peer_generation s = Some g → generation_ok g;
  mi_tx : Forall wf_frame (control_tx s);
  mi_neg : neg_ok c mb (neg s);
  mi_active : data_path_active s = true → is_Some (negotiated (neg s));
  mi_below : ∀ p, negotiated (neg s) = Some p → at_most (np_peer_rx_buffer_flits p) (me_endpoint s) }.

Lemma next_generation_ok g : generation_ok g → generation_ok (next_generation g).
Proof. unfold generation_ok, next_generation. destruct (63 <=? g) eqn:E; lia. Qed.

Lemma no_negotiation_ok : neg_ok c mb no_negotiation.
Proof. by split. Qed.

(** The state after [clear_negotiation_state] and [link_detached]. *)
Lemma reset_inv s st g peer tx :
  me_inv s → generation_ok g → (∀ x, peer = Some x → generation_ok x) → Forall wf_frame tx →
  st = Down ∨ st = Hello →
  me_inv (mkManaged (link_detached (me_endpoint s)) (me_config s) (me_max_burst_flits s) st g peer tx no_negotiation).
Proof.
  intros Hs Hg Hp Ht Hst.
  split; [apply Hs | apply Hs | | apply Hs | apply Hs | done | done | done | apply no_negotiation_ok | by destruct Hst as [-> | ->] | done].
  apply (run_ep_sound CLinkDetached I (me_endpoint s)), Hs.
Qed.

Lemma wf_hello_initial g : generation_ok g → wf_frame (FHello Initial g 0).
Proof. by split. Qed.
Lemma wf_hello_ack g p : generation_ok g → generation_ok p → wf_frame (FHello Acknowledgement g p).
Proof. by split. Qed.

(** *** The steps of the negotiation *)

Notation msound := (sound me_inv (λ _, True)).

Lemma push_sound f : wf_frame f → msound (push_control f).
Proof.
  intros Hf. apply sound_modify. intros s Hs. split; cbn; try apply Hs. apply Forall_app. split; [apply Hs |]. by constructor.
Qed.

Lemma on_neg_sound g :
  (∀ n, neg_ok c mb n → neg_ok c mb (g n)) → (∀ n, negotiated (g n) = negotiated n) → msound (on_neg g).
Proof.
  intros Hg Hn. apply sound_modify. intros s Hs. split; cbn; rewrite ?Hn; try apply Hs. apply Hg, Hs.
Qed.
(** Flags do not matter to the invariant. *)
Ltac neg_flag := apply on_neg_sound; [by intros ? [] | done].

Lemma put_state_sound st : (st ≠ CreditSync ∧ st ≠ Up) → msound (modify (λ s, put_state s st)).
Proof. intros [H1 H2]. apply sound_modify. intros s Hs. split; cbn; try apply Hs. by destruct st. Qed.
Lemma put_peer_sound g : generation_ok g → msound (modify (λ s, put_peer_generation s (Some g))).
Proof. intros Hg. apply sound_modify. intros s Hs. split; cbn; try apply Hs. by intros ? [= <-]. Qed.

Lemma queue_hello_ack_sound g : generation_ok g → msound (queue_hello_ack g).
Proof.
  intros Hg. apply sound_get_any. intros s Hs.
  eapply sound_bind; [apply push_sound, wf_hello_ack; [apply Hs | done] |]. intros _ _. neg_flag.
Qed.

Lemma restart_eq inc s :
  restart_negotiation inc false s =
  (let g := if inc then next_generation (local_generation s) else local_generation s in
   mkManaged (link_detached (me_endpoint s)) (me_config s) (me_max_burst_flits s) Hello g (peer_generation s)
     [FHello Initial g 0] no_negotiation, Ok tt).
Proof. by destruct inc. Qed.

Lemma restart_sound inc : msound (restart_negotiation inc false).
Proof.
  intros s Hs. unfold sound_at. rewrite restart_eq. split; [| done]. cbn [fst]. cbv zeta.
  assert (Hg : generation_ok (if inc then next_generation (local_generation s) else local_generation s)).
  { destruct inc; [apply next_generation_ok |]; apply Hs. }
  apply reset_inv; try done; [apply Hs | | by right].
  constructor; [by apply wf_hello_initial | constructor].
Qed.

Lemma supported_flags_ok m : 1 ≤ supported_mode_flags m < 16.
Proof. by destruct m. Qed.

Lemma maybe_start_sound : msound maybe_start_capability_exchange.
Proof.
  apply sound_get_any. intros s Hs. cbv zeta. rewrite (mi_cfg _ Hs), (mi_max _ Hs).
  destruct (_ || _); [by apply sound_ret |].
  eapply sound_bind; [by apply put_state_sound |]. intros _ _.
  eapply (sound_bind _ (λ _, True)).
  - destruct (negb _); [| by apply sound_ret].
    eapply sound_bind; [apply push_sound | intros _ _; neg_flag].
    split; [apply Hs |]. split; [apply supported_flags_ok |]. by split.
  - intros _ _. destruct (negb _); [| by apply sound_ret].
    destruct (units_encode _ (mi_rx _ Hs)) as (u & Hu & Hur & _).
    destruct (units_encode _ (mi_burst _ Hs)) as (b & Hb & Hbr & _).
    eapply sound_bind; [apply (sound_lift _ (λ x, x = u)); by rewrite Hu |]. intros ? ->.
    eapply sound_bind; [apply (sound_lift _ (λ x, x = b)); by rewrite Hb |]. intros ? ->.
    eapply sound_bind; [apply push_sound | intros _ _; neg_flag].
    split; [apply Hs |]. split; lia.
Qed.

Lemma on_hello_sound k sg pg : wf_frame (FHello k sg pg) → msound (on_hello k sg pg).
Proof.
  intros [Hg Hp]. cbn [sender_generation] in Hg.
  assert (Hacc : msound (modify (λ s, put_peer_generation s (Some sg));; queue_hello_ack sg;; maybe_start_capability_exchange)).
  { eapply sound_bind; [by apply put_peer_sound |]. intros _ _.
    eapply sound_bind; [by apply queue_hello_ack_sound |]. intros _ _. apply maybe_start_sound. }
  assert (Hack : msound (on_neg (λ n, with_hello_ack_received n true);; maybe_start_capability_exchange)).
  { eapply sound_bind; [neg_flag |]. intros _ _. apply maybe_start_sound. }
  assert (Hnew : msound (modify (λ s, put_peer_generation s (Some sg));; queue_hello_ack sg;;
    on_neg (λ n, with_hello_ack_received n true);; maybe_start_capability_exchange)).
  { eapply sound_bind; [by apply put_peer_sound |]. intros _ _.
    eapply sound_bind; [by apply queue_hello_ack_sound |]. intros _ _. apply Hack. }
  destruct k; cbn [on_hello]; apply sound_get_any; intros s Hs; cbv zeta.
  - destruct (peer_generation s) as [g |].
    + destruct (negb _); [| done]. destruct (negb _); [by apply sound_ret |].
      eapply sound_bind; [apply restart_sound | done].
    + eapply sound_bind; [apply sound_guard | done].
  - destruct (negb _); [by apply sound_ret |]. destruct (peer_generation s) as [g |]; [| done].
    destruct (negb _); [| done]. destruct (negb _); [by apply sound_ret |].
    eapply sound_bind; [apply restart_sound | done].
Qed.

Lemma on_reset_sound sg : msound (on_reset sg).
Proof.
  apply sound_get. intros s Hs. destruct (negb _); [by apply sound_ret |].
  split; [| done]. apply (reset_inv s Hello (next_generation (local_generation s)) None
    [FHello Initial (next_generation (local_generation s)) 0]); try done; [| | by right].
  - apply next_generation_ok, Hs.
  - constructor; [apply wf_hello_initial, next_generation_ok, Hs | constructor].
Qed.

Lemma clear_low16_any p : u64 (clear_low16 p).
Proof.
  assert (H : clear_low16 p = clear_low16 (p mod 2 ^ 64)).
  { unfold clear_low16. rewrite <- Z.land_ones, <- Z.land_assoc by done. done. }
  rewrite H. apply clear_low16_u64. pose proof (Z.mod_pos_bound p (2 ^ 64)). ulia.
Qed.

(** The new link endpoint starts without credit. *)
Lemma installed_dlp mode :
  units_ok (ec_rx_buffer_flits c) →
  ∃ d, endpoint_new {| dc_gdp := ec_gdp_wire c; dc_local_prefix := clear_low16 (default 0 (ec_local_context_prefix c));
                       dc_vc_mode := mode; dc_rx_buffer_flits := ec_rx_buffer_flits c;
                       dc_control_window_flits := 32 |} = Ok d ∧
       dlp_inv d ∧ data_tx_credit d = 0.
Proof.
  intros (u & Hu & Hr). set (cfg := {| dc_gdp := _ |}).
  destruct (endpoint_new cfg) as [d | e |] eqn:E;
    [| by unfold endpoint_new in E; cbn in E; replace (ec_rx_buffer_flits c =? 0) with false in E by lia..].
  exists d. destruct (endpoint_new_inv cfg d) as (H1 & _ & _); [cbn; ulia | apply clear_low16_any | done |].
  split_and!; [done.. |]. unfold endpoint_new in E. by apply bind_Ok in E as (_ & _ & <-%Ok_inj).
Qed.

Lemma set_dlp_inv e d : ep_inv e → dlp_inv d → ep_inv (set_dlp e d).
Proof. intros He Hd. split; cbn; [done | apply He..]. Qed.

Lemma maybe_install_sound : msound maybe_install_profile.
Proof.
  apply sound_get. intros s Hs. cbv zeta. rewrite (mi_cfg _ Hs). destruct (_ || _) eqn:E; [by apply sound_ret |].
  destruct (selected_mode (neg s)) as [mode |] eqn:Em; [| by split].
  destruct (selected_burst (neg s)) as [burst |] eqn:Eb; [| by split].
  destruct (selected_peer_rx (neg s)) as [rx |] eqn:Er; [| by split].
  destruct (installed_dlp mode (mi_rx _ Hs)) as (d & Hd & Hinv & Hz).
  unfold sound_at, mbind, st_bind, lift. cbn [ok_or].
  assert (Hc : config_new (ec_rx_buffer_flits c) mode =
    Ok {| dc_gdp := GdpWireConfig_default; dc_local_prefix := 0; dc_vc_mode := mode;
          dc_rx_buffer_flits := ec_rx_buffer_flits c; dc_control_window_flits := 32 |}).
  { unfold config_new. destruct (mi_rx _ Hs) as (u & Hu & Hr).
    by replace (ec_rx_buffer_flits c =? 0) with false by lia. }
  rewrite Hc. cbn [dc_vc_mode dc_rx_buffer_flits]. unfold DLP_RESERVED_CONTROL_WINDOW_FLITS. rewrite Hd.
  split; [| done]. pose proof (mi_neg _ Hs) as Hn.
  assert (Hp : profile_ok c mb (mkProfile mode burst rx 32)).
  { split; cbn; [by apply Hn | by apply Hn | by apply (no_rx _ _ _ Hn) | done]. }
  split; cbn; try apply Hs.
  - apply set_dlp_inv; [apply Hs | done].
  - split; cbn; try apply Hn. by intros ? [= <-].
  - by eexists.
  - intros ? [= <-]. unfold at_most, balance. cbn. rewrite Hz.
    destruct (po_peer_rx _ _ _ Hp) as (u & Hu & Hr). cbn in Hr. lia.
Qed.

Lemma choose_mode_ok l flags : res_sat (λ m, vc_mode_count m ≤ vc_mode_count l) (choose_vc_mode l flags).
Proof.
  unfold choose_vc_mode. destruct l; cbn [supported_mode_flags vc_mode_count].
  - replace (Z.land (Z.land FLAG_VC2 flags) FLAG_VC4) with 0 by (rewrite (Z.land_comm FLAG_VC2), <- Z.land_assoc; by rewrite Z.land_0_r).
    cbn [Z.eqb negb]. by destruct (negb _).
  - by destruct (negb _); [| destruct (negb _)].
Qed.
Definition rate_ok (r : Z) : Prop := r = 1 ∨ r = 2 ∨ r = 4.
Lemma choose_rate_ok a b : res_sat rate_ok (choose_rate a b).
Proof. unfold choose_rate, rate_ok. repeat (destruct (negb _); [cbn; lia |]). done. Qed.

Lemma wf_selection k g m r : generation_ok g → rate_ok r → wf_frame (FCapabilities k g (selected_mode_flag m) r).
Proof. intros Hg Hr. split; [done |]. destruct m, Hr as [-> | [-> | ->]]; by split_and!. Qed.

Lemma on_cap_offer_sound pr ra : msound (on_cap_offer pr ra).
Proof.
  apply sound_get_any. intros s Hs. rewrite (mi_cfg _ Hs). eapply (sound_bind _ (λ _, True)).
  { destruct (peer_cap_offer (neg s)); [eapply sound_mono; [apply sound_guard | done] | neg_flag]. }
  intros _ _. eapply sound_bind; [apply sound_lift, choose_mode_ok |]. intros mode Hm.
  eapply sound_bind; [apply sound_lift, choose_rate_ok |]. intros rate Hr. cbv beta in *.
  eapply sound_bind; [apply on_neg_sound; [intros n []; split; cbn; try done; by intros ? [= <-] | done] |]. intros _ _.
  eapply sound_bind; [neg_flag |]. intros _ _.
  destruct (negb _); [| by apply sound_ret].
  eapply sound_bind; [by apply push_sound, wf_selection; [apply Hs |] | intros _ _; neg_flag].
Qed.

Lemma on_cap_selection_sound pr ra : msound (on_cap_selection pr ra).
Proof.
  apply sound_get_any. intros s Hs. rewrite (mi_cfg _ Hs).
  eapply sound_bind; [apply sound_lift, res_sat_ok_or |]. intros offer _.
  eapply sound_bind; [apply sound_lift, choose_mode_ok |]. intros mode _.
  eapply sound_bind; [apply sound_lift, choose_rate_ok |]. intros rate Hr. cbv beta in *.
  eapply sound_bind; [apply sound_guard |]. intros [] Hg. cbv beta in Hg.
  rewrite orb_false_iff, !negb_false_iff, !Z.eqb_eq in Hg. destruct Hg as [-> ->].
  destruct (negb _); [| by apply sound_ret].
  eapply sound_bind; [by apply push_sound, wf_selection; [apply Hs |] | intros _ _; neg_flag].
Qed.

Lemma on_cap_confirmation_sound pr ra : msound (on_cap_confirmation pr ra).
Proof.
  apply sound_get_any. intros s Hs.
  eapply sound_bind; [apply sound_lift, res_sat_ok_or |]. intros mode _.
  eapply sound_bind; [apply sound_lift, res_sat_ok_or |]. intros rate _.
  eapply sound_bind; [apply sound_guard |]. intros _ _. neg_flag.
Qed.

Lemma negotiating_sound (m : mst unit) :
  msound m → msound (s ← gets Datatypes.id; guard_st (negb (bool_decide (me_state s = Negotiate))) InvalidState;; m).
Proof. intros Hm. apply sound_get_any. intros s Hs. eapply sound_bind; [apply sound_guard | done]. Qed.

Lemma on_capabilities_sound k pr ra : msound (on_capabilities k pr ra).
Proof.
  apply negotiating_sound. eapply (sound_bind _ (λ _, True)); [| intros _ _; apply maybe_install_sound].
  destruct k; [apply on_cap_offer_sound | apply on_cap_selection_sound | apply on_cap_confirmation_sound].
Qed.

Lemma units_min a b : units_ok a → units_ok b → units_ok (Z.min a b).
Proof. intros Ha Hb. by destruct (Z.min_spec a b) as [[_ ->] | [_ ->]]. Qed.

Lemma on_params_offer_sound rx burst : units_ok rx → units_ok burst → msound (on_params_offer rx burst).
Proof.
  intros Hrx Hb. apply sound_get_any. intros s Hs. rewrite (mi_max _ Hs). eapply (sound_bind _ (λ _, True)).
  { destruct (peer_params_offer (neg s)); [eapply sound_mono; [apply sound_guard | done] |].
    apply on_neg_sound; [intros n []; split; cbn; try done; by intros ? [= <-] | done]. }
  intros _ _. cbv zeta. pose proof (units_min _ _ (mi_burst _ Hs) Hb) as Hm.
  eapply sound_bind; [apply on_neg_sound; [intros n []; split; cbn; try done; by intros ? [= <-] | done] |]. intros _ _.
  eapply sound_bind; [apply on_neg_sound; [intros n []; split; cbn; try done; intros ? [= <-]; split; [done | lia] | done] |].
  intros _ _. destruct (negb _); [| by apply sound_ret].
  destruct (units_encode _ Hrx) as (u & Hu & Hur & _). destruct (units_encode _ Hm) as (v & Hv & Hvr & _).
  eapply sound_bind; [apply (sound_lift _ (λ x, x = u)); by rewrite Hu |]. intros ? ->.
  eapply sound_bind; [apply (sound_lift _ (λ x, x = v)); by rewrite Hv |]. intros ? ->.
  eapply sound_bind; [apply push_sound | intros _ _; neg_flag]. split; [apply Hs |]. split; lia.
Qed.

Lemma on_params_selection_sound rx burst u v :
  1 ≤ u ≤ 255 → 1 ≤ v ≤ 255 → msound (on_params_selection rx burst u v).
Proof.
  intros Hu Hv. apply sound_get_any. intros s Hs.
  eapply sound_bind; [apply sound_lift, res_sat_ok_or |]. intros offer _. cbv zeta.
  eapply sound_bind; [apply sound_guard |]. intros _ _.
  destruct (negb _); [| by apply sound_ret].
  eapply sound_bind; [apply push_sound | intros _ _; neg_flag]. split; [apply Hs |]. split; lia.
Qed.

Lemma on_params_confirmation_sound rx burst : msound (on_params_confirmation rx burst).
Proof.
  apply sound_get_any. intros s Hs.
  eapply sound_bind; [apply sound_lift, res_sat_ok_or |]. intros a _.
  eapply sound_bind; [apply sound_lift, res_sat_ok_or |]. intros b _.
  eapply sound_bind; [apply sound_guard |]. intros _ _. neg_flag.
Qed.

Lemma on_link_parameters_sound k u v : 1 ≤ u ≤ 255 → 1 ≤ v ≤ 255 → msound (on_link_parameters k u v).
Proof.
  intros Hu Hv. apply negotiating_sound.
  assert (Hdec : ∀ x, 1 ≤ x ≤ 255 → res_sat units_ok (decode_parameter_units x)).
  { intros x Hx. rewrite (proj2 (decode_units x (x * 4))) by lia. by exists x. }
  eapply sound_bind; [by apply sound_lift, Hdec |]. intros rx Hrx.
  eapply sound_bind; [by apply sound_lift, Hdec |]. intros burst Hb.
  eapply (sound_bind _ (λ _, True)); [| intros _ _; apply maybe_install_sound].
  destruct k; [by apply on_params_offer_sound | by apply on_params_selection_sound | apply on_params_confirmation_sound].
Qed.

Lemma receive_frame_of_sound f : wf_frame f → msound (receive_frame_of f).
Proof.
  intros Hf. apply sound_get_any. intros s Hs. destruct f as [k sg pg | k sg pr ra | sg re | k sg u v].
  - by apply on_hello_sound.
  - destruct (negb _); [by apply sound_ret | apply on_capabilities_sound].
  - apply on_reset_sound.
  - destruct (negb _); [by apply sound_ret |]. destruct Hf as (_ & Hu & Hv). apply on_link_parameters_sound; lia.
Qed.

Lemma receive_control_sound bs : bytes bs → msound (receive_control bs).
Proof.
  intros Hb. eapply (sound_bind _ wf_frame); [| intros f; apply receive_frame_of_sound].
  apply sound_lift. pose proof (frame_decode_no_panic bs) as Hn.
  destruct (frame_decode bs) as [f | |] eqn:E; [| done..]. by apply (frame_decode_sound bs f).
Qed.

(** *** The data path and the calls *)

(** The credit ceiling in force. *)
Definition ceiling (s : DlpManagedEndpoint) : Z :=
  match negotiated (neg s) with Some p => np_peer_rx_buffer_flits p | None => 2 ^ 32 - 1 end.

Lemma ceiling_below s : me_inv s → ceiling s < 2 ^ 32 ∧ ep_below (ceiling s) (me_endpoint s).
Proof.
  intros Hs. unfold ceiling. destruct (negotiated (neg s)) as [p |] eqn:E.
  - destruct (po_peer_rx _ _ _ (no_profile _ _ _ (mi_neg _ Hs) p E)) as (u & Hu & Hr).
    split; [lia |]. split; [apply Hs | by apply Hs].
  - split; [lia |]. split; [apply Hs |]. pose proof (di_credit _ (ei_dlp _ (mi_ep _ Hs))) as [[_ H] _].
    unfold at_most, balance. lia.
Qed.

Lemma on_endpoint_at {A} (Q : A → Prop) (m : st EndpointCore A) s :
  me_inv s → sound_at (ep_below (ceiling s)) Q m (me_endpoint s) → sound_at me_inv Q (on_endpoint m) s.
Proof.
  intros Hs Hm. unfold sound_at, on_endpoint, zoom in *. destruct (m (me_endpoint s)) as [e r].
  destruct Hm as [[He Hb] Hq]. split; [| done]. cbn in *.
  split; cbn; try apply Hs; [done |]. intros p Hp. unfold ceiling in Hb. by rewrite Hp in Hb.
Qed.
Lemma on_endpoint_sound {A} (Q : A → Prop) (m : st EndpointCore A) :
  (∀ l, l < 2 ^ 32 → sound (ep_below l) Q m) → sound me_inv Q (on_endpoint m).
Proof. intros Hm s Hs. destruct (ceiling_below s Hs) as [Hl Hb]. apply on_endpoint_at; [done |]. by apply Hm. Qed.

Lemma require_active_sound : msound require_active.
Proof. apply sound_get_any. intros s _. eapply sound_mono; [apply sound_guard | done]. Qed.

Lemma maybe_retry_sound : msound maybe_retry_data_credit_request.
Proof.
  assert (Hset : ∀ v, msound (set_stall_polls v)) by (intros v; neg_flag).
  apply sound_get_any. intros s _. cbv zeta. destruct (negb _); [apply Hset |]. destruct (_ || _); [apply Hset |].
  eapply sound_bind; [apply Hset |]. intros _ _. destruct (_ <=? _); [| by apply sound_ret].
  eapply sound_bind; [apply on_endpoint_sound; intros; apply retry_below |]. intros _ _. apply Hset.
Qed.

Lemma me_poll_tx_flit_sound : sound me_inv (λ o, ∀ f, o = Some f → flit_ok f) me_poll_tx_flit.
Proof.
  eapply sound_bind; [apply require_active_sound |]. intros _ _.
  eapply sound_bind; [apply maybe_retry_sound |]. intros _ _. apply on_endpoint_sound. intros. apply poll_tx_flit_below.
Qed.
Lemma me_poll_tx_frame_sound : msound me_poll_tx_frame.
Proof.
  eapply sound_bind; [apply require_active_sound |]. intros _ _.
  eapply sound_bind; [apply maybe_retry_sound |]. intros _ _. apply on_endpoint_sound. intros. apply poll_tx_frame_below.
Qed.

Lemma with_limit_sound {A} (Q : A → Prop) (m : Z → st EndpointCore A) :
  (∀ l, l < 2 ^ 32 → sound (ep_below l) Q (m l)) →
  sound me_inv Q (require_active;; limit ← peer_limit; on_endpoint (m limit)).
Proof.
  intros Hm. eapply sound_bind; [apply require_active_sound |]. intros _ _ s Hs.
  destruct (ceiling_below s Hs) as [Hl Hb]. unfold sound_at.
  assert (E : peer_limit s = (s, match negotiated (neg s) with Some _ => Ok (ceiling s) | None => Err InvalidState end)).
  { unfold peer_limit, ceiling. rewrite (st_bind_Ok_l _ _ s s s) by done. unfold mbind, st_bind, lift.
    by destruct (negotiated (neg s)). }
  destruct (negotiated (neg s)); [| by rewrite (st_bind_Err_l _ _ s s InvalidState)].
  rewrite (st_bind_Ok_l _ _ s s (ceiling s)) by done. apply on_endpoint_at; [done |]. by apply Hm.
Qed.
Lemma me_receive_flit_sound f now : flit_ok f → msound (me_receive_flit f now).
Proof. intros Hf. apply with_limit_sound. intros. by apply receive_flit_below. Qed.
Lemma me_receive_frame_sound f now : frame_ok f → msound (me_receive_frame f now).
Proof. intros Hf. apply with_limit_sound. intros. by apply receive_frame_below. Qed.

Lemma bind_credit_peer_sound p : msound (bind_credit_peer p).
Proof.
  apply sound_get_any. intros s _. eapply sound_bind; [apply sound_guard |]. intros _ _.
  apply on_endpoint_sound. intros. by apply bind_managed_below.
Qed.

Lemma finish_credit_sync_sound : msound finish_credit_sync.
Proof.
  apply sound_get. intros s Hs. unfold sound_at, mbind, st_bind, guard_st, lift.
  destruct (bool_decide (me_state s = CreditSync)) eqn:E; cbn [negb fail_if]; [| done].
  destruct (_ =? 0); cbn [fail_if]; [done |]. split; [| done]. apply bool_decide_eq_true in E.
  split; cbn; try apply Hs. intros _. apply (mi_active _ Hs). unfold data_path_active. by rewrite E.
Qed.

Lemma carrier_up_sound : msound carrier_up.
Proof. apply sound_get_any. intros s _. eapply sound_bind; [apply sound_guard |]. intros _ _. apply restart_sound. Qed.
Lemma carrier_down_sound : msound carrier_down.
Proof.
  intros s Hs. split; [| done].
  apply (reset_inv s Down (local_generation s) None []); try done; [apply Hs | by left].
Qed.
Lemma request_reset_sound reason : 0 ≤ reason → msound (request_reset reason).
Proof.
  intros Hr. apply sound_get. intros s Hs.
  destruct (bool_decide (me_state s = Down)) eqn:E; [by split |].
  unfold sound_at. rewrite (st_bind_Ok_l _ _ s s tt) by done.
  destruct (0x0f <? reason) eqn:E2; [by split |]. rewrite (st_bind_Ok_l _ _ s s tt) by done. split; [| done].
  pose proof (next_generation_ok _ (mi_gen _ Hs)) as Hg.
  apply (reset_inv s Hello (next_generation (local_generation s)) None
    [FReset (local_generation s) (as_u8 reason); FHello Initial (next_generation (local_generation s)) 0]);
    try done; [| by right].
  constructor; [| by constructor; [apply wf_hello_initial | constructor]].
  split; [apply Hs |]. unfold as_u8. rewrite Z.mod_small; lia.
Qed.

Lemma poll_control_inv s : me_inv s → me_inv (poll_control s).1 ∧ ∀ bs, (poll_control s).2 = Some bs → bytes bs.
Proof.
  intros Hs. pose proof (mi_tx _ Hs) as Ht. unfold poll_control. destruct (control_tx s) as [| f rest] eqn:E; [done |].
  inversion Ht. split; [split; cbn; try apply Hs; done |]. intros bs [= <-]. apply bytes_to_be.
Qed.
End managed.

(** ** All calls *)

Inductive me_call : Set :=
  | MCarrierUp | MCarrierDown | MRequestReset (reason : Z)
  | MPollControl | MReceiveControl (bs : list Z)
  | MPollTxFlit | MPollTxFrame | MReceiveFlit (f : Flit) (now : Z) | MReceiveFrame (f : GnetFrame) (now : Z)
  | MBindCredit (peer : Z) | MFinishCredit
  (** a call on the endpoint below, by [DerefMut] *)
  | MApplication (c : ep_call)
  (** the return of a slot of the reserved control lane *)
  | MReturnControl.

Definition me_call_ok (c : me_call) : Prop :=
  match c with
  | MRequestReset r => 0 ≤ r
  | MReceiveControl bs => bytes bs
  | MReceiveFlit f _ => flit_ok f
  | MReceiveFrame f _ => frame_ok f
  | MApplication c => ep_call_ok c ∧ application_call c = true
  | _ => True
  end.

Definition run_me (c : me_call) : mst unit :=
  match c with
  | MCarrierUp => carrier_up
  | MCarrierDown => carrier_down
  | MRequestReset r => request_reset r
  | MPollControl => modify (λ s, (poll_control s).1)
  | MReceiveControl bs => receive_control bs
  | MPollTxFlit => outcome me_poll_tx_flit
  | MPollTxFrame => outcome me_poll_tx_frame
  | MReceiveFlit f now => outcome (me_receive_flit f now)
  | MReceiveFrame f now => outcome (me_receive_frame f now)
  | MBindCredit p => bind_credit_peer p
  | MFinishCredit => finish_credit_sync
  | MApplication c => on_endpoint (run_ep c)
  | MReturnControl => on_endpoint (on_dlp (modify (grant_control_tx_credit 1)))
  end.

Lemma run_me_sound c mb call : me_call_ok call → sound (me_inv c mb) (λ _, True) (run_me call).
Proof.
  intros Hc. destruct call; cbn [run_me me_call_ok] in *.
  - apply carrier_up_sound.
  - apply carrier_down_sound.
  - by apply request_reset_sound.
  - apply sound_modify. intros s Hs. by apply poll_control_inv.
  - by apply receive_control_sound.
  - eapply outcome_sound, me_poll_tx_flit_sound.
  - eapply outcome_sound, me_poll_tx_frame_sound.
  - by eapply outcome_sound, me_receive_flit_sound.
  - by eapply outcome_sound, me_receive_frame_sound.
  - apply bind_credit_peer_sound.
  - apply finish_credit_sync_sound.
  - destruct Hc. apply on_endpoint_sound. intros. by apply application_below.
  - apply on_endpoint_sound. intros. by apply grant_control_below.
Qed.

(** Ranges of a configuration. *)
Definition ep_config_ok (c : EndpointConfig) : Prop :=
  u32 (ec_rx_buffer_flits c) ∧ ∀ p, ec_local_context_prefix c = Some p → u64 p.

Inductive me_reachable (c : EndpointConfig) (mb : Z) : DlpManagedEndpoint → Prop :=
  | mr_new address s : ep_config_ok c → u32 mb → me_new address c mb = Ok s → me_reachable c mb s
  | mr_unconfigured suffix s : ep_config_ok c → u32 mb → me_unconfigured suffix c mb = Ok s → me_reachable c mb s
  | mr_call s call : me_reachable c mb s → me_call_ok call → me_reachable c mb (run_me call s).1.

Lemma me_build_inv c mb e :
  ep_inv e → u32 (ec_rx_buffer_flits c) → u32 mb → validate_parameter_value (ec_rx_buffer_flits c) = Ok tt →
  validate_parameter_value mb = Ok tt → me_inv c mb (me_build (link_down_endpoint e) c mb).
Proof.
  intros He [Hrx _] [Hmb _] Hv1 Hv2.
  split; [done | done | | by apply validate_units | by apply validate_units | by split | done | constructor
    | apply no_negotiation_ok | done | done].
  apply set_dlp_inv; [done |]. apply (set_link_up_inv false), He.
Qed.

Lemma me_reachable_inv c mb s : me_reachable c mb s → me_inv c mb s.
Proof.
  induction 1 as [address s [Hr Hp] Hm Hn | suffix s [Hr Hp] Hm Hn | s call _ IH Hc].
  - unfold me_new in Hn. apply bind_Ok in Hn as ([] & H1 & Hn). apply bind_Ok in Hn as ([] & H2 & Hn).
    apply bind_Ok in Hn as ([] & _ & Hn). apply bind_Ok in Hn as (e & He & <-%Ok_inj).
    apply me_build_inv; try done. apply ep_reachable_inv. by eapply er_new.
  - unfold me_unconfigured in Hn. apply bind_Ok in Hn as ([] & H1 & Hn). apply bind_Ok in Hn as ([] & H2 & Hn).
    apply bind_Ok in Hn as ([] & _ & Hn). apply bind_Ok in Hn as (e & He & <-%Ok_inj).
    apply me_build_inv; try done. apply ep_reachable_inv. by eapply er_unconfigured.
  - by apply (run_me_sound c mb call Hc s IH).
Qed.

(** ** The cable *)

Section cable.
Context (ca : EndpointConfig) (ma : Z) (cb : EndpointConfig) (mb : Z).

Definition cable_ok (s : DlpDirectCable) : Prop := me_inv ca ma (cable_a s) ∧ me_inv cb mb (cable_b s).
Notation csound := (sound cable_ok).

Lemma at_a_sound A (Q : A → Prop) (m : mst A) : sound (me_inv ca ma) Q m → csound Q (at_a m).
Proof. apply sound_zoom; [by intros s [] | by intros s e [] ?]. Qed.
Lemma at_b_sound A (Q : A → Prop) (m : mst A) : sound (me_inv cb mb) Q m → csound Q (at_b m).
Proof. apply sound_zoom; [by intros s [] | by intros s e [] ?]. Qed.

(** An end of the cable: a way to run the methods of a managed endpoint on
    it, whatever its configuration is. *)
Definition end_of (from : ∀ A, mst A → cst A) : Prop :=
  ∀ A (Q : A → Prop) m, (∀ c b, sound (me_inv c b) Q m) → csound Q (from A m).
Lemma end_a : end_of (@at_a).
Proof. intros A Q m Hm. apply at_a_sound, Hm. Qed.
Lemma end_b : end_of (@at_b).
Proof. intros A Q m Hm. apply at_b_sound, Hm. Qed.

Lemma pump_control_side_sound from to :
  end_of from → end_of to → csound (λ _, True) (pump_control_side from to).
Proof.
  intros Hf Ht. eapply (sound_bind _ (λ o, ∀ bs, o = Some bs → bytes bs)).
  - apply Hf. intros c b s Hs. unfold sound_at. pose proof (poll_control_inv c b s Hs) as [H1 H2].
    by destruct (poll_control s).
  - intros [bs |] Hb; [| by apply sound_ret].
    eapply sound_bind; [apply Ht; intros; apply receive_control_sound; by apply Hb | intros; by apply sound_ret].
Qed.
Lemma pump_control_sound : csound (λ _, True) pump_control.
Proof.
  eapply sound_bind; [apply pump_control_side_sound; [apply end_a | apply end_b] |]. intros p _.
  eapply sound_bind; [apply pump_control_side_sound; [apply end_b | apply end_a] |]. intros q _. by apply sound_ret.
Qed.

Lemma pump_data_direction_sound from to now :
  end_of from → end_of to → csound (λ _, True) (pump_data_direction from to now).
Proof.
  intros Hf Ht. apply sound_get_any. intros s _. destruct (negb _); [by apply sound_ret |].
  eapply attempt_sound; [apply Hf; intros; apply me_poll_tx_flit_sound | |].
  - intros [f |] Hok; [| by apply sound_ret].
    eapply sound_bind; [apply Ht; intros; apply me_receive_flit_sound; by apply Hok |]. intros _ _.
    eapply (sound_bind _ (λ _, True)); [| intros; by apply sound_ret].
    destruct (is_control _); [| by apply sound_ret].
    apply Hf. intros. apply on_endpoint_sound. intros. by apply grant_control_below.
  - intros e. destruct e; try apply sound_err. by apply sound_ret.
Qed.
Lemma pump_data_once_sound now : csound (λ _, True) (pump_data_once now).
Proof.
  eapply sound_bind; [apply pump_data_direction_sound; [apply end_a | apply end_b] |]. intros p _.
  eapply sound_bind; [apply pump_data_direction_sound; [apply end_b | apply end_a] |]. intros q _. by apply sound_ret.
Qed.

Lemma control_loop_sound n : csound (λ _, True) (control_loop n).
Proof.
  induction n as [| n IH]; cbn [control_loop]; [by apply sound_ret |].
  eapply sound_bind; [apply pump_control_sound |]. intros p _. apply sound_get_any. intros s _.
  destruct (both_ready_for_credit s); [by apply sound_ret |].
  eapply sound_bind; [apply sound_guard |]. intros _ _. apply IH.
Qed.
Lemma credit_loop_sound n : csound (λ _, True) (credit_loop n).
Proof.
  induction n as [| n IH]; cbn [credit_loop]; [by apply sound_ret |]. apply sound_get_any. intros s _.
  destruct (_ && _); [by apply sound_ret |].
  eapply sound_bind; [apply pump_data_once_sound |]. intros p _.
  eapply sound_bind; [apply sound_guard |]. intros _ _. apply IH.
Qed.

Lemma when_in_sound c b st m : sound (me_inv c b) (λ _, True) m → sound (me_inv c b) (λ _, True) (when_in st m).
Proof. intros Hm. apply sound_get_any. intros s _. destruct (bool_decide _); [done | by apply sound_ret]. Qed.

Lemma cable_modify_sound f : (∀ s, cable_ok s → cable_ok (f s)) → csound (λ _, True) (modify f).
Proof. apply sound_modify. Qed.

Lemma sync_credit_sound : csound (λ _, True) sync_credit.
Proof.
  apply sound_get_any. intros s _. cbv zeta.
  eapply sound_bind; [apply end_a; intros; apply when_in_sound, bind_credit_peer_sound |]. intros _ _.
  eapply sound_bind; [apply end_b; intros; apply when_in_sound, bind_credit_peer_sound |]. intros _ _.
  eapply sound_bind; [by apply sound_modify |]. intros _ _.
  eapply sound_bind; [apply credit_loop_sound |]. intros _ _. apply sound_get_any. intros s1 _.
  eapply sound_bind; [apply sound_guard |]. intros _ _.
  eapply sound_bind; [apply end_a; intros; apply when_in_sound, finish_credit_sync_sound |]. intros _ _.
  apply end_b. intros. apply when_in_sound, finish_credit_sync_sound.
Qed.

Lemma cable_attach_sound : csound (λ _, True) cable_attach.
Proof.
  apply sound_get_any. intros s _. eapply (sound_bind _ (λ _, True)).
  { destruct (negb _); [| by apply sound_ret].
    eapply sound_bind; [apply end_a; intros; apply when_in_sound, carrier_up_sound |]. intros _ _.
    eapply sound_bind; [apply end_b; intros; apply when_in_sound, carrier_up_sound |]. intros _ _.
    by apply sound_modify. }
  intros _ _. apply sound_get_any. intros s1 _. eapply (sound_bind _ (λ _, True)).
  { destruct (negb _); [| by apply sound_ret].
    eapply sound_bind; [by apply sound_modify |]. intros _ _. apply control_loop_sound. }
  intros _ _. apply sound_get_any. intros s2 _. eapply sound_bind; [apply sound_guard |]. intros _ _.
  eapply (sound_bind _ (λ _, True)); [destruct (negb _); [apply sync_credit_sound | by apply sound_ret] |].
  intros _ _. apply sound_get_any. intros s3 _. eapply sound_mono; [apply sound_guard | done].
Qed.

(** The loop of [pump] ends before its fuel does. *)
Lemma cable_loop_sound fuel now max_transfers moved :
  0 ≤ moved → moved ≤ max_transfers + 1 → max_transfers - moved < Z.of_nat fuel → (1 ≤ fuel)%nat →
  csound (λ n, moved ≤ n ≤ max_transfers + 1) (cable_loop fuel now max_transfers moved).
Proof.
  revert moved. induction fuel as [| fuel IH]; intros moved H0 H1 Hf Hone; [lia |]. cbn [cable_loop].
  eapply sound_bind; [apply sound_guard |]. intros [] Hg. cbv beta in Hg.
  eapply sound_bind; [apply pump_control_sound |]. intros p _. apply sound_get_any. intros s _.
  eapply (sound_bind _ (λ _, True)).
  { destruct (_ && _); [| by apply sound_ret].
    eapply sound_bind; [by apply sound_modify |]. intros _ _. apply cable_attach_sound. }
  intros _ _. eapply sound_bind; [apply pump_data_once_sound |]. intros q _. cbv zeta.
  destruct (p || q) eqn:E.
  - eapply sound_mono; [apply IH | cbv beta]; destruct p, q; cbn [Z.b2z] in *; try done; lia.
  - apply sound_ret. destruct p, q; cbn [Z.b2z] in *; try done. lia.
Qed.

Lemma cable_pump_sound now max_transfers :
  0 ≤ max_transfers → csound (λ n, 0 ≤ n ≤ max_transfers + 1) (cable_pump now max_transfers).
Proof.
  intros Hm. apply sound_get_any. intros s _. eapply (sound_bind _ (λ _, True)).
  { destruct (negb _); [by apply sound_modify | by apply sound_ret]. }
  intros _ _. eapply sound_bind; [apply cable_attach_sound |]. intros _ _.
  apply cable_loop_sound; lia.
Qed.
End cable.

(** ** Theorems *)

(** C24: a managed link is safe: in any state that calls, control octets, flits
    and frames lead to, no call panics; the control frames it queues are ones
    a peer can decode; and while the data path is open, the installed profile
    stays within the endpoint's own limits and the transmit credit within the
    receive window the peer announced. *)
Theorem managed_link_safe c mb s call :
  me_reachable c mb s → me_call_ok call →
  let '(s', r) := run_me call s in
  r ≠ Panic ∧
  (∀ bs, (poll_control s').2 = Some bs → ∃ f, frame_decode bs = Ok f) ∧
  (data_path_active s' = true →
   ∃ p, negotiated (neg s') = Some p ∧ vc_mode_count (np_vc_mode p) ≤ vc_mode_count (ec_vc_mode c) ∧
     np_burst_flits p ≤ mb ∧ data_tx_credit (dlp (me_endpoint s')) ≤ np_peer_rx_buffer_flits p ≤ 1020).
Proof.
  intros Hs%me_reachable_inv Hc. destruct (run_me_sound c mb call Hc s Hs) as [Hi Hr].
  destruct (run_me call s) as [s' r]. cbn [fst snd] in *. split_and!.
  - by apply res_sat_no_panic in Hr.
  - intros bs. pose proof (mi_tx _ _ _ Hi) as Ht. unfold poll_control.
    destruct (control_tx s') as [| f rest]; [done |]. inversion Ht. intros [= <-]. exists f. by apply frame_roundtrip.
  - intros Ha. destruct (mi_active _ _ _ Hi Ha) as [p Hp]. exists p.
    destruct (no_profile _ _ _ (mi_neg _ _ _ Hi) p Hp) as [H1 [_ H2] (u & Hu & H3) _].
    pose proof (mi_below _ _ _ Hi p Hp) as Hb. unfold at_most, balance in Hb. split_and!; [done.. | lia].
Qed.

(** The link after a reset: nothing of the old generation is left. *)
Definition link_cleared (s : DlpManagedEndpoint) : Prop :=
  me_state s = Hello ∧ peer_generation s = None ∧ neg s = no_negotiation ∧
  let d := dlp (me_endpoint s) in
  link_up d = false ∧ data_tx_credit d = 0 ∧ control_tx_credit d = 0 ∧ data_credit_outstanding d = 0 ∧
  queued_flits d = 0 ∧ rx d = no_segments.

(** Control frames are scoped to generations: a frame of a generation
    that is neither the peer's nor the next one (for CAPABILITIES, LINK_PARAMETERS
    and RESET: that is not the peer's) and a HELLO acknowledgement of an earlier
    own generation change nothing; a RESET of the peer's generation clears the
    link and moves this end to its next generation. *)
Theorem control_generation_scope f g s :
  wf_frame f → peer_generation s = Some g →
  (sender_generation f ≠ g → (∀ k x, f = FHello k (next_generation g) x → False) →
     receive_control (frame_encode f) s = (s, Ok tt)) ∧
  (∀ sg pg, f = FHello Acknowledgement sg pg → pg ≠ local_generation s →
     receive_control (frame_encode f) s = (s, Ok tt)) ∧
  (∀ reason, f = FReset g reason →
     ∃ s', receive_control (frame_encode f) s = (s', Ok tt) ∧ link_cleared s' ∧
           local_generation s' = next_generation (local_generation s)).
Proof.
  intros Hf Hg. unfold receive_control.
  rewrite (st_bind_Ok_l _ _ s s f) by (unfold lift; by rewrite frame_roundtrip).
  unfold receive_frame_of. rewrite (st_bind_Ok_l _ _ s s s) by done. split_and!.
  - intros Hn Hx. destruct f as [[] sg pg | k sg pr ra | sg re | k sg u v]; cbn [sender_generation] in Hn.
    + cbn [on_hello]. unfold on_hello_initial. rewrite (st_bind_Ok_l _ _ s s s) by done. rewrite Hg.
      destruct (Z.eqb_spec sg g); [done |]. by destruct (Z.eqb_spec sg (next_generation g)) as [-> |]; [destruct (Hx Initial pg) |].
    + cbn [on_hello]. unfold on_hello_ack. rewrite (st_bind_Ok_l _ _ s s s) by done. cbv zeta. rewrite Hg.
      destruct (negb _); [done |]. destruct (Z.eqb_spec g sg); [done |].
      by destruct (Z.eqb_spec sg (next_generation g)) as [-> |]; [destruct (Hx Acknowledgement pg) |].
    + unfold frame_is_current. cbn [sender_generation]. rewrite bool_decide_eq_false_2 by congruence. done.
    + unfold on_reset. rewrite (st_bind_Ok_l _ _ s s s) by done. by rewrite bool_decide_eq_false_2 by congruence.
    + unfold frame_is_current. cbn [sender_generation]. rewrite bool_decide_eq_false_2 by congruence. done.
  - intros sg pg -> Hp. cbn [on_hello]. unfold on_hello_ack. rewrite (st_bind_Ok_l _ _ s s s) by done. cbv zeta.
    by destruct (Z.eqb_spec pg (local_generation s)).
  - intros reason ->. unfold on_reset. rewrite (st_bind_Ok_l _ _ s s s) by done.
    rewrite bool_decide_eq_true_2 by done. cbn [negb]. by eexists.
Qed.

(** [DlpDirectCable::pump] terminates: whatever the two ends have been
    through, it returns within its bound, without a panic, and leaves both
    ends well formed. *)
Theorem cable_pump_terminates s ca ma cb mb now max_transfers :
  me_reachable ca ma (cable_a s) → me_reachable cb mb (cable_b s) → 0 ≤ max_transfers →
  match cable_pump now max_transfers s with
  | (s', Ok n) => 0 ≤ n ≤ max_transfers + 1 ∧ cable_ok ca ma cb mb s'
  | (s', Err _) => cable_ok ca ma cb mb s'
  | (_, Panic) => False
  end.
Proof.
  intros Ha%me_reachable_inv Hb%me_reachable_inv Hm.
  destruct (cable_pump_sound ca ma cb mb now max_transfers Hm s (conj Ha Hb)) as [H1 H2].
  by destruct (cable_pump now max_transfers s) as [s' [n | |]].
Qed.

(** ** Witnesses *)

Definition managed_cfg (v : VcMode) : EndpointConfig :=
  {| ec_rx_buffer_flits := 64; ec_vc_mode := v; ec_gts_receive_slots := 32; ec_local_context_prefix := None;
     ec_prefer_local_gdp := false; ec_credit_update_threshold := 1; ec_control_window_flits := 32;
     ec_gdp_wire := GdpWireConfig_default |}.

Definition managed_end (address : Z) (v : VcMode) (b : Z) : DlpManagedEndpoint :=
  match me_new address (managed_cfg v) b with
  | Ok s => s
  | _ => me_build (mkCore (managed_cfg v) 0 0 Static None None None 0
           (mkEndpoint GdpWireConfig_default 0 v 0 0 0 0 0 0 [] [] [] [] 0 false) None false 0 ∅ ∅ [] 0 0 ∅ [] None) (managed_cfg v) b
  end.

Lemma managed_end_reachable address v b :
  u32 b → is_ok (me_new address (managed_cfg v) b) = true → me_reachable (managed_cfg v) b (managed_end address v b).
Proof.
  intros Hb. unfold managed_end. destruct (me_new _ _ _) as [s | |] eqn:E; [intros _ | done..].
  apply (mr_new _ _ address); [split; [cbn; ulia | done] | done | done].
Qed.

Lemma managed_link_safe_witness :
  let s := managed_end 0x0102030400000001 Four 16 in
  (run_me (MReceiveControl [0x11; 0x41; 0x04; 0x00]) s).2 ≠ Panic.
Proof.
  intros s. pose proof (managed_link_safe (managed_cfg Four) 16 s (MReceiveControl [0x11; 0x41; 0x04; 0x00])) as H.
  destruct (run_me _ s) as [s' r]. apply H.
  - apply managed_end_reachable; [ulia | by vm_compute].
  - repeat constructor; ulia.
Defined.

Lemma control_generation_scope_witness :
  let s := put_peer_generation (managed_end 0x0102030400000001 Four 16) (Some 5) in
  receive_control (frame_encode (FReset 4 0)) s = (s, Ok tt).
Proof. apply (control_generation_scope (FReset 4 0) 5); [split; cbn; lia | done | cbn; lia | done]. Defined.

Lemma cable_pump_terminates_witness :
  match cable_pump 0 100 (mkCable false false (managed_end 0x0102030400000001 Four 16) (managed_end 0x0102030400000002 Two 32)) with
  | (_, Ok n) => 0 ≤ n ≤ 101
  | (_, Err _) => True
  | (_, Panic) => False
  end.
Proof.
  pose proof (cable_pump_terminates
    (mkCable false false (managed_end 0x0102030400000001 Four 16) (managed_end 0x0102030400000002 Two 32))
    (managed_cfg Four) 16 (managed_cfg Two) 32 0 100) as H.
  destruct (cable_pump _ _ _) as [s' [n | |]]; [| done |]; apply H; try lia;
    apply managed_end_reachable; try ulia; by vm_compute.
Defined.
