(* ===== verification/DlpControlFlow.v ===== *)
(** * Link bring-up from end to end

    Two ends whose carrier comes up exchange eight control frames each.  The
    stages one end goes through, the frames it sends at each, and the profile
    both have agreed on at the end. *)
From stdpp Require Import prelude gmap.
From Stdlib Require Import ZArith Lia.
From S2P Require Import Prelude GdpWire Dlp EndpointCore DlpFrame DlpControl DlpControlInv.
Local Open Scope Z_scope.

(** ** One end *)

(** An end of the link: its endpoint, configuration and generation, and its
    receive window and burst limit in the units of the frames. *)
Record Side : Set := mkSide {
  sd_ep : EndpointCore; sd_cfg : EndpointConfig; sd_gen : Z; sd_rx : Z; sd_burst : Z }.

Definition side_ok (x : Side) : Prop :=
  generation_ok (sd_gen x) ∧ 1 ≤ sd_rx x ≤ 255 ∧ 1 ≤ sd_burst x ≤ 255 ∧
  ec_rx_buffer_flits (sd_cfg x) = sd_rx x * 4.

Definition sd_mode (x : Side) : VcMode := ec_vc_mode (sd_cfg x).
Definition common_mode (a b : VcMode) : VcMode := match a, b with Four, Four => Four | _, _ => Two end.
Definition common_burst (x y : Side) : Z := Z.min (sd_burst x) (sd_burst y).

Lemma choose_common a b : choose_vc_mode a (supported_mode_flags b) = Ok (common_mode a b).
Proof. by destruct a, b. Qed.
Lemma choose_rate_all : choose_rate RATE_ALL RATE_ALL = Ok 4.
Proof. done. Qed.
Lemma common_mode_sym a b : common_mode a b = common_mode b a.
Proof. by destruct a, b. Qed.

(** The frames [x] sends to [y], in order, and how many of them it has queued
    when it has received [k] frames. *)
Definition frames (x y : Side) : list DlpControlFrame :=
  let g := sd_gen x in
  let mode := selected_mode_flag (common_mode (sd_mode x) (sd_mode y)) in
  [FHello Initial g 0; FHello Acknowledgement g (sd_gen y);
   FCapabilities Offer g (supported_mode_flags (sd_mode x)) RATE_ALL; FLinkParameters Offer g (sd_rx x) (sd_burst x);
   FCapabilities Selection g mode 4; FLinkParameters Selection g (sd_rx y) (common_burst x y);
   FCapabilities Confirmation g mode 4; FLinkParameters Confirmation g (sd_rx x) (common_burst x y)].
Definition queued (k : nat) : nat := nth k [1; 2; 4; 5; 6; 7; 8; 8; 8]%nat 8%nat.

(** What [x] knows after [k] frames from [y]. *)
Definition known (x y : Side) (k : nat) : Negotiation :=
  let b (n : nat) := (n <=? k)%nat in
  let v {A} (n : nat) (a : A) := if b n then Some a else None in
  let mode := common_mode (sd_mode x) (sd_mode y) in
  {| negotiated := v 8%nat (mkProfile mode (common_burst x y * 4) (sd_rx y * 4) 32);
     hello_ack_sent := b 1%nat; hello_ack_received := b 2%nat;
     cap_offer_sent := b 2%nat; peer_cap_offer := v 3%nat (mkCapOffer (supported_mode_flags (sd_mode y)) RATE_ALL);
     selected_mode := v 3%nat mode; selected_rate := v 3%nat 4; cap_selection_sent := b 3%nat;
     cap_confirmation_sent := b 5%nat; cap_confirmation_received := b 7%nat;
     params_offer_sent := b 2%nat; peer_params_offer := v 4%nat (mkParamOffer (sd_rx y * 4) (sd_burst y * 4));
     selected_peer_rx := v 4%nat (sd_rx y * 4); selected_burst := v 4%nat (common_burst x y * 4);
     params_selection_sent := b 4%nat; params_confirmation_sent := b 6%nat; params_confirmation_received := b 8%nat;
     credit_stall_polls := 0 |}.

(** The link endpoint that is installed. *)
Definition fresh_dlp (c : EndpointConfig) (mode : VcMode) : DlpEndpoint :=
  {| cfg := ec_gdp_wire c; local_prefix := clear_low16 (clear_low16 (default 0 (ec_local_context_prefix c)));
     vc_mode := mode; rx_buffer_flits := ec_rx_buffer_flits c; control_window_flits := 32; data_tx_credit := 0;
     control_tx_credit := 0; data_credit_outstanding := 0; data_rx_in_use := 0;
     control_tx_queue := []; data_tx_queue := []; rx := no_segments;
     desynchronized := no_desync; next_data_vc := 1; link_up := true |}.

(** [x] after [k] frames from [y], with the frames [q] still queued. *)
Definition at_stage (x y : Side) (k : nat) (q : list DlpControlFrame) : DlpManagedEndpoint :=
  {| me_endpoint := if (k <=? 7)%nat then sd_ep x
                    else set_dlp (sd_ep x) (fresh_dlp (sd_cfg x) (common_mode (sd_mode x) (sd_mode y)));
     me_config := sd_cfg x; me_max_burst_flits := sd_burst x * 4;
     me_state := if (k <=? 1)%nat then Hello else if (k <=? 7)%nat then Negotiate else CreditSync;
     local_generation := sd_gen x; peer_generation := if (k <=? 0)%nat then None else Some (sd_gen y);
     control_tx := q; neg := known x y k |}.

Section steps.
Context (x y : Side) (Hx : side_ok x) (Hy : side_ok y).

Lemma burst_units : 1 ≤ common_burst x y ≤ 255.
Proof. destruct Hx as (_ & _ & ? & _), Hy as (_ & _ & ? & _). unfold common_burst. lia. Qed.
Lemma burst_min : Z.min (sd_burst x * 4) (sd_burst y * 4) = common_burst x y * 4.
Proof. unfold common_burst. lia. Qed.

Lemma frames_wf : Forall wf_frame (frames x y).
Proof.
  pose proof burst_units. destruct Hx as (Hg & Hr & Hb & _), Hy as (Hg' & Hr' & _).
  unfold frames. repeat (apply Forall_cons; split); [.. | constructor];
    try (apply wf_selection; [done | by right; right]); try (split; [done | cbn; lia]).
  - by apply wf_hello_ack.
  - split; [done |]. split; [apply supported_flags_ok |]. by split.
Qed.

Lemma current_capabilities n q k p r :
  receive_frame_of (FCapabilities k (sd_gen y) p r) (at_stage x y (S n) q) = on_capabilities k p r (at_stage x y (S n) q).
Proof.
  unfold receive_frame_of. rewrite (st_bind_Ok_l _ _ (at_stage x y (S n) q) (at_stage x y (S n) q) (at_stage x y (S n) q)) by done.
  unfold frame_is_current. by rewrite bool_decide_eq_true_2.
Qed.
Lemma current_parameters n q k u v :
  receive_frame_of (FLinkParameters k (sd_gen y) u v) (at_stage x y (S n) q) =
  on_link_parameters k u v (at_stage x y (S n) q).
Proof.
  unfold receive_frame_of. rewrite (st_bind_Ok_l _ _ (at_stage x y (S n) q) (at_stage x y (S n) q) (at_stage x y (S n) q)) by done.
  unfold frame_is_current. by rewrite bool_decide_eq_true_2.
Qed.

(** Run the rest of a handler on a stage. *)
Ltac run_stage :=
  unfold push_control, on_neg, queue_hello_ack, maybe_start_capability_exchange, mbind, st_bind, gets, modify, lift,
    guard_st, mret, res_ret, st_ret, Datatypes.id;
  cbn; rewrite ?Z.eqb_refl; cbn.

Lemma step_hello q :
  receive_frame_of (FHello Initial (sd_gen y) 0) (at_stage x y 0 q) =
  (at_stage x y 1 (q ++ [FHello Acknowledgement (sd_gen x) (sd_gen y)]), Ok tt).
Proof. unfold receive_frame_of, on_hello, on_hello_initial. run_stage. done. Qed.

Lemma step_hello_ack q :
  receive_frame_of (FHello Acknowledgement (sd_gen y) (sd_gen x)) (at_stage x y 1 q) =
  (at_stage x y 2 (q ++ [FCapabilities Offer (sd_gen x) (supported_mode_flags (sd_mode x)) RATE_ALL;
                         FLinkParameters Offer (sd_gen x) (sd_rx x) (sd_burst x)]), Ok tt).
Proof.
  destruct Hx as (_ & Hr & Hb & Hc). unfold receive_frame_of, on_hello, on_hello_ack. run_stage.
  rewrite Hc, !encode_units by done. cbn. rewrite <- app_assoc. done.
Qed.

Notation mode := (selected_mode_flag (common_mode (sd_mode x) (sd_mode y))).
Notation burst := (common_burst x y).

Lemma step_cap_offer q :
  receive_frame_of (FCapabilities Offer (sd_gen y) (supported_mode_flags (sd_mode y)) RATE_ALL) (at_stage x y 2 q) =
  (at_stage x y 3 (q ++ [FCapabilities Selection (sd_gen x) mode 4]), Ok tt).
Proof.
  rewrite current_capabilities. unfold on_capabilities, on_cap_offer, maybe_install_profile. run_stage.
  fold (sd_mode x). rewrite choose_common. cbn. done.
Qed.

Lemma step_params_offer q :
  receive_frame_of (FLinkParameters Offer (sd_gen y) (sd_rx y) (sd_burst y)) (at_stage x y 3 q) =
  (at_stage x y 4 (q ++ [FLinkParameters Selection (sd_gen x) (sd_rx y) burst]), Ok tt).
Proof.
  pose proof burst_units as Hb. destruct Hy as (_ & Hr & Hb' & _).
  rewrite current_parameters. unfold on_link_parameters, on_params_offer, maybe_install_profile. run_stage.
  rewrite (proj2 (decode_units (sd_rx y) _) (conj (ltac:(lia) : sd_rx y ≠ 0) eq_refl)).
  rewrite (proj2 (decode_units (sd_burst y) _) (conj (ltac:(lia) : sd_burst y ≠ 0) eq_refl)). cbn.
  rewrite burst_min, !encode_units by lia. cbn. done.
Qed.

Lemma step_cap_selection q :
  receive_frame_of (FCapabilities Selection (sd_gen y) mode 4) (at_stage x y 4 q) =
  (at_stage x y 5 (q ++ [FCapabilities Confirmation (sd_gen x) mode 4]), Ok tt).
Proof.
  rewrite current_capabilities. unfold on_capabilities, on_cap_selection, maybe_install_profile. run_stage.
  fold (sd_mode x). rewrite choose_common. cbn. rewrite Z.eqb_refl. cbn. done.
Qed.

Lemma step_params_selection q :
  receive_frame_of (FLinkParameters Selection (sd_gen y) (sd_rx x) burst) (at_stage x y 5 q) =
  (at_stage x y 6 (q ++ [FLinkParameters Confirmation (sd_gen x) (sd_rx x) burst]), Ok tt).
Proof.
  pose proof burst_units as Hb. destruct Hx as (_ & Hr & _ & Hc).
  rewrite current_parameters. unfold on_link_parameters, on_params_selection, maybe_install_profile. run_stage.
  rewrite (proj2 (decode_units (sd_rx x) _) (conj (ltac:(lia) : sd_rx x ≠ 0) eq_refl)).
  rewrite (proj2 (decode_units burst _) (conj (ltac:(lia) : burst ≠ 0) eq_refl)). cbn.
  rewrite burst_min, Hc, !Z.eqb_refl. cbn. done.
Qed.

Lemma step_cap_confirmation q :
  receive_frame_of (FCapabilities Confirmation (sd_gen y) mode 4) (at_stage x y 6 q) = (at_stage x y 7 q, Ok tt).
Proof.
  rewrite current_capabilities. unfold on_capabilities, on_cap_confirmation, maybe_install_profile. run_stage. done.
Qed.

Lemma step_params_confirmation q :
  receive_frame_of (FLinkParameters Confirmation (sd_gen y) (sd_rx y) burst) (at_stage x y 7 q) =
  (at_stage x y 8 q, Ok tt).
Proof.
  pose proof burst_units as Hb. destruct Hx as (_ & Hr & _ & Hc), Hy as (_ & Hr' & _).
  rewrite current_parameters. unfold on_link_parameters, on_params_confirmation, maybe_install_profile. run_stage.
  rewrite (proj2 (decode_units (sd_rx y) _) (conj (ltac:(lia) : sd_rx y ≠ 0) eq_refl)).
  rewrite (proj2 (decode_units burst _) (conj (ltac:(lia) : burst ≠ 0) eq_refl)). cbn.
  rewrite !Z.eqb_refl. cbn. unfold config_new. replace (ec_rx_buffer_flits (sd_cfg x) =? 0) with false by lia. cbn.
  unfold endpoint_new. cbn. replace (ec_rx_buffer_flits (sd_cfg x) =? 0) with false by lia. cbn. done.
Qed.
End steps.

(** ** Both ends *)

Lemma common_burst_sym x y : common_burst y x = common_burst x y.
Proof. unfold common_burst. lia. Qed.

(** The frames of [x] that are still queued after [k] rounds. *)
Definition pending (x y : Side) (k : nat) : list DlpControlFrame := drop k (take (queued k) (frames x y)).
(** What [x] queues on its [k]-th frame. *)
Definition reaction (x y : Side) (k : nat) : list DlpControlFrame := drop (queued k) (take (queued (S k)) (frames x y)).

Lemma stage_step x y k q f :
  side_ok x → side_ok y → frames y x !! k = Some f →
  receive_frame_of f (at_stage x y k q) = (at_stage x y (S k) (q ++ reaction x y k), Ok tt).
Proof.
  intros Hx Hy Hk. unfold frames in Hk. rewrite (common_mode_sym (sd_mode y)), (common_burst_sym x y) in Hk.
  do 8 (destruct k as [| k]; [injection Hk as <-; cbn [reaction queued nth]; unfold reaction; cbn;
    rewrite ?app_nil_r; by first [apply step_hello | apply step_hello_ack | apply step_cap_offer | apply step_params_offer
      | apply step_cap_selection | apply step_params_selection | apply step_cap_confirmation | apply step_params_confirmation] |]).
  done.
Qed.

Lemma pending_front x y k : (k < 8)%nat →
  ∃ f, frames x y !! k = Some f ∧ pending x y k = f :: drop (S k) (take (queued k) (frames x y)) ∧
       drop (S k) (take (queued k) (frames x y)) ++ reaction x y k = pending x y (S k).
Proof. intros Hk. do 8 (destruct k as [| k]; [by eexists |]). lia. Qed.

Lemma receive_encoded f s : wf_frame f → receive_control (frame_encode f) s = receive_frame_of f s.
Proof. intros Hf. unfold receive_control. apply st_bind_Ok_l. unfold lift. by rewrite frame_roundtrip. Qed.

(** One frame in one direction. *)
Lemma pump_a_to_b cr bd a b b' f rest :
  control_tx a = f :: rest → wf_frame f → receive_frame_of f b = (b', Ok tt) →
  pump_control_side (@at_a) (@at_b) (mkCable cr bd a b) = (mkCable cr bd (put_control_tx a rest) b', Ok true).
Proof.
  intros Ha Hf Hb. unfold pump_control_side.
  rewrite (st_bind_Ok_l _ _ _ (mkCable cr bd (put_control_tx a rest) b) (Some (frame_encode f)))
    by (unfold at_a, zoom, poll_control; cbn; by rewrite Ha).
  rewrite (st_bind_Ok_l _ _ _ (mkCable cr bd (put_control_tx a rest) b') tt); [done |].
  unfold at_b, zoom. cbn [cable_b]. by rewrite receive_encoded, Hb.
Qed.
Lemma pump_b_to_a cr bd a a' b f rest :
  control_tx b = f :: rest → wf_frame f → receive_frame_of f a = (a', Ok tt) →
  pump_control_side (@at_b) (@at_a) (mkCable cr bd a b) = (mkCable cr bd a' (put_control_tx b rest), Ok true).
Proof.
  intros Hb Hf Ha. unfold pump_control_side.
  rewrite (st_bind_Ok_l _ _ _ (mkCable cr bd a (put_control_tx b rest)) (Some (frame_encode f)))
    by (unfold at_b, zoom, poll_control; cbn; by rewrite Hb).
  rewrite (st_bind_Ok_l _ _ _ (mkCable cr bd a' (put_control_tx b rest)) tt); [done |].
  unfold at_a, zoom. cbn [cable_a]. by rewrite receive_encoded, Ha.
Qed.

Section rounds.
Context (x y : Side) (Hx : side_ok x) (Hy : side_ok y) (cr bd : bool).

Definition after_rounds (k : nat) : DlpDirectCable :=
  mkCable cr bd (at_stage x y k (pending x y k)) (at_stage y x k (pending y x k)).

Lemma round k : (k < 8)%nat → pump_control (after_rounds k) = (after_rounds (S k), Ok true).
Proof.
  intros Hk. destruct (pending_front x y k Hk) as (f & Hf & Hpf & Hr), (pending_front y x k Hk) as (g & Hg & Hpg & Hr').
  set (rx := drop (S k) (take (queued k) (frames x y))) in *. set (ry := drop (S k) (take (queued k) (frames y x))) in *.
  assert (Hwf : wf_frame f ∧ wf_frame g).
  { split; [eapply (Forall_lookup_1 _ _ k), Hf; by apply frames_wf | eapply (Forall_lookup_1 _ _ k), Hg; by apply frames_wf]. }
  destruct Hwf as [Hwf Hwg]. unfold pump_control, after_rounds.
  rewrite (st_bind_Ok_l _ _ _ (mkCable cr bd (at_stage x y k rx) (at_stage y x (S k) (pending y x k ++ reaction y x k))) true).
  2: { exact (pump_a_to_b cr bd (at_stage x y k (pending x y k)) (at_stage y x k (pending y x k)) _ f rx Hpf Hwf
              (stage_step y x k _ f Hy Hx Hf)). }
  rewrite (st_bind_Ok_l _ _ _ (after_rounds (S k)) true); [done |].
  unfold after_rounds. rewrite <- Hr, <- Hr', Hpg.
  exact (pump_b_to_a cr bd (at_stage x y k rx) _ (at_stage y x (S k) ((g :: ry) ++ reaction y x k)) g _ eq_refl Hwg
           (stage_step x y k rx g Hx Hy Hg)).
Qed.

Lemma ready_after k : both_ready_for_credit (after_rounds k) = (8 <=? k)%nat.
Proof. do 9 (destruct k as [| k]; [done |]). done. Qed.

Lemma bring_up k n : (k < 8)%nat → (8 - k <= n)%nat → control_loop n (after_rounds k) = (after_rounds 8, Ok tt).
Proof.
  revert k. induction n as [| n IH]; intros k Hk Hn; [lia |]. cbn [control_loop].
  rewrite (st_bind_Ok_l _ _ _ _ _ (round k Hk)).
  rewrite (st_bind_Ok_l _ _ (after_rounds (S k)) (after_rounds (S k)) (after_rounds (S k))) by done.
  rewrite ready_after. destruct (Nat.leb_spec 8 (S k)).
  - by replace (S k) with 8%nat by lia.
  - cbn [negb]. rewrite (st_bind_Ok_l _ _ (after_rounds (S k)) (after_rounds (S k)) tt) by done. apply IH; lia.
Qed.

(** With fewer rounds the loop runs out. *)
Lemma not_yet_up k n : (k + n < 8)%nat → control_loop n (after_rounds k) = (after_rounds (k + n), Ok tt).
Proof.
  revert k. induction n as [| n IH]; intros k Hk; [by rewrite Nat.add_0_r |]. cbn [control_loop].
  rewrite (st_bind_Ok_l _ _ _ _ _ (round k ltac:(lia))).
  rewrite (st_bind_Ok_l _ _ (after_rounds (S k)) (after_rounds (S k)) (after_rounds (S k))) by done.
  rewrite ready_after, (proj2 (Nat.leb_gt 8 (S k))) by lia. cbn [negb].
  rewrite (st_bind_Ok_l _ _ (after_rounds (S k)) (after_rounds (S k)) tt) by done.
  rewrite IH by lia. by rewrite Nat.add_succ_comm.
Qed.
End rounds.

(** ** The theorem *)

(** Carrier on at both ends, and the loop of [attach] that moves control
    frames until both ends are ready for credit; [attach] gives it 512 rounds. *)
Definition carrier_and_control (rounds : nat) : cst unit :=
  at_a carrier_up;; at_b carrier_up;; control_loop rounds.

Definition side_of (s : DlpManagedEndpoint) (u v : Z) : Side :=
  mkSide (link_detached (me_endpoint s)) (me_config s) (local_generation s) u v.

Lemma carrier_up_stage s other u v :
  me_state s = Down → peer_generation s = None → me_max_burst_flits s = v * 4 →
  carrier_up s = (at_stage (side_of s u v) other 0 (pending (side_of s u v) other 0), Ok tt).
Proof.
  intros Hd Hp Hm. unfold carrier_up. rewrite (st_bind_Ok_l _ _ s s s) by done.
  rewrite bool_decide_eq_true_2 by done. cbn [negb]. rewrite (st_bind_Ok_l _ _ s s tt) by done.
  rewrite restart_eq. unfold at_stage. cbn. by rewrite Hp, Hm.
Qed.

(** C25: link bring-up completes and agrees: when the carrier comes up at two
    ends that were down, eight rounds of control frames (and no fewer; further
    rounds, of which the source allows 512, are not run) bring both to credit
    synchronisation with the same VC mode (the smaller of the two) and the
    same burst limit (the smaller of the two), each with the other's receive
    window, a fresh link endpoint without credit, and no frame left over. *)
Theorem negotiation_agrees ca ma cb mb a b :
  me_reachable ca ma a → me_reachable cb mb b →
  me_state a = Down → me_state b = Down → peer_generation a = None → peer_generation b = None →
  let mode := common_mode (ec_vc_mode ca) (ec_vc_mode cb) in
  ∃ s, (∀ rounds, (8 ≤ rounds)%nat → carrier_and_control rounds (mkCable false false a b) = (s, Ok tt)) ∧
    (∀ rounds, (rounds < 8)%nat → both_ready_for_credit (carrier_and_control rounds (mkCable false false a b)).1 = false) ∧
    me_state (cable_a s) = CreditSync ∧ me_state (cable_b s) = CreditSync ∧
    negotiated (neg (cable_a s)) = Some (mkProfile mode (Z.min ma mb) (ec_rx_buffer_flits cb) 32) ∧
    negotiated (neg (cable_b s)) = Some (mkProfile mode (Z.min ma mb) (ec_rx_buffer_flits ca) 32) ∧
    dlp (me_endpoint (cable_a s)) = fresh_dlp ca mode ∧ dlp (me_endpoint (cable_b s)) = fresh_dlp cb mode ∧
    control_tx (cable_a s) = [] ∧ control_tx (cable_b s) = [].
Proof.
  intros Ha%me_reachable_inv Hb%me_reachable_inv Hda Hdb Hpa Hpb mode.
  destruct (mi_rx _ _ _ Ha) as (ua & Hua & Hra), (mi_rx _ _ _ Hb) as (ub & Hub & Hrb).
  destruct (mi_burst _ _ _ Ha) as (va & Hva & Hma), (mi_burst _ _ _ Hb) as (vb & Hvb & Hmb).
  set (x := side_of a ua va). set (y := side_of b ub vb).
  assert (Hx : side_ok x).
  { split; [apply Ha |]. split; [done |]. split; [done |]. cbn. by rewrite (mi_cfg _ _ _ Ha). }
  assert (Hy : side_ok y).
  { split; [apply Hb |]. split; [done |]. split; [done |]. cbn. by rewrite (mi_cfg _ _ _ Hb). }
  assert (Hstart : ∀ n, carrier_and_control n (mkCable false false a b) = control_loop n (after_rounds x y false false 0)).
  { intros n. unfold carrier_and_control.
    rewrite (st_bind_Ok_l _ _ _ (mkCable false false (at_stage x y 0 (pending x y 0)) b) tt).
    2: { unfold at_a, zoom. cbn [cable_a]. rewrite (carrier_up_stage a y ua va) by (done || by rewrite (mi_max _ _ _ Ha)). done. }
    rewrite (st_bind_Ok_l _ _ _ (after_rounds x y false false 0) tt); [done |].
    unfold at_b, zoom. cbn [cable_b]. rewrite (carrier_up_stage b x ub vb) by (done || by rewrite (mi_max _ _ _ Hb)). done. }
  exists (after_rounds x y false false 8). split; [| split].
  - intros n Hn. rewrite Hstart. apply bring_up; done || lia.
  - intros n Hn. rewrite Hstart, not_yet_up by (done || lia). cbn [fst]. rewrite ready_after. by apply Nat.leb_gt.
  - unfold after_rounds, at_stage. cbn [Nat.leb cable_a cable_b me_state neg me_endpoint dlp control_tx known negotiated].
    unfold common_burst, sd_mode. cbn [sd_cfg sd_rx sd_burst x y side_of sd_ep].
    rewrite (mi_cfg _ _ _ Ha), (mi_cfg _ _ _ Hb), (common_mode_sym (ec_vc_mode cb)). fold mode.
    rewrite Hra, Hrb, Hma, Hmb. replace (Z.min vb va) with (Z.min va vb) by lia.
    replace (Z.min (va * 4) (vb * 4)) with (Z.min va vb * 4) by lia. by split_and!.
Qed.

Lemma negotiation_agrees_witness :
  let a := managed_end 0x0102030400000001 Four 16 in
  let b := managed_end 0x0102030400000002 Two 32 in
  ∃ s, carrier_and_control 512 (mkCable false false a b) = (s, Ok tt) ∧
    both_ready_for_credit (carrier_and_control 7 (mkCable false false a b)).1 = false ∧
    negotiated (neg (cable_a s)) = Some (mkProfile Two 16 64 32) ∧
    negotiated (neg (cable_b s)) = Some (mkProfile Two 16 64 32).
Proof.
  intros a b.
  destruct (negotiation_agrees (managed_cfg Four) 16 (managed_cfg Two) 32 a b) as (s & H & H7 & _ & _ & H1 & H2 & _).
  - apply managed_end_reachable; [ulia | by vm_compute].
  - apply managed_end_reachable; [ulia | by vm_compute].
  - by vm_compute.
  - by vm_compute.
  - by vm_compute.
  - by vm_compute.
  - exists s. split; [apply H; lia |]. split; [apply H7; lia |]. split; [exact H1 | exact H2].
Defined.

(** ** A repeated HELLO

    docs/DLP_LINK_CONTROL_V0_1.md says that a duplicate HELLO for the current
    generation is harmless. *)

(** A HELLO of the current generation, received once more when the link is
    usable, moves this end back to the negotiation: its data path refuses
    every call from then on, and the only frame it queues is another
    acknowledgement. *)
Theorem duplicate_hello_closes_data_path s g :
  peer_generation s = Some g → wf_frame (FHello Initial g 0) → data_path_active s = true →
  hello_ack_received (neg s) = true → cap_offer_sent (neg s) = true → params_offer_sent (neg s) = true →
  ∃ s', receive_control (frame_encode (FHello Initial g 0)) s = (s', Ok tt) ∧
    me_state s' = Negotiate ∧ negotiated (neg s') = negotiated (neg s) ∧
    control_tx s' = control_tx s ++ [FHello Acknowledgement (local_generation s) g] ∧
    me_poll_tx_flit s' = (s', Err LinkDown) ∧ ∀ f now, me_receive_flit f now s' = (s', Err LinkDown).
Proof.
  intros Hg Hwf Ha H1 H2 H3. rewrite receive_encoded by done.
  set (s1 := put_neg (put_control_tx (put_peer_generation s (Some g))
    (control_tx s ++ [FHello Acknowledgement (local_generation s) g])) (with_hello_ack_sent (neg s) true)).
  exists (put_state s1 Negotiate). split; [| by split_and!].
  unfold receive_frame_of. rewrite (st_bind_Ok_l _ _ s s s) by done. cbn [on_hello]. unfold on_hello_initial.
  rewrite (st_bind_Ok_l _ _ s s s) by done. rewrite Hg, Z.eqb_refl. cbn [negb].
  rewrite (st_bind_Ok_l _ _ s (put_peer_generation s (Some g)) tt) by done.
  rewrite (st_bind_Ok_l _ _ _ s1 tt) by done. unfold maybe_start_capability_exchange.
  rewrite (st_bind_Ok_l _ _ s1 s1 s1) by done. cbn. rewrite H1, H2, H3. done.
Qed.

(** Two ends that are Up, a duplicate of the first HELLO, and the cable no
    longer comes up. *)
Example duplicate_hello_breaks_cable :
  let c0 := mkCable false false (managed_end 0x0102030400000001 Four 16) (managed_end 0x0102030400000002 Two 32) in
  let '(c1, r1) := cable_pump 0 100 c0 in
  let '(c2, r2) := at_a (receive_control (frame_encode (FHello Initial 1 0))) c1 in
  let '(c3, r3) := cable_pump 1 100 c2 in
  (r1, both_up c1, r2, r3, me_state (cable_a c3), me_state (cable_b c3)) =
  (Ok 0, true, Ok tt, Err InvalidState, Negotiate, Negotiate).
Proof. vm_compute. reflexivity. Qed.
