(* ===== verification/P4Gdp.v ===== *)
(** * GDP through the P4 parser (src/p4-common/gdp_wire.p4, src/src/p4_gdp.rs)

    The GDP headers and the parser of the P4 programs, as the P4 source
    declares them, and the adapter around the parser generated from it. The
    generated code is taken to do what the P4 source says: [extract] reads the
    next header's octets (and slices out of range when there are too few), a
    field is its bits in network order, and the deparser emits the valid headers
    in the order of [headers_t]. *)
From stdpp Require Import prelude.
From Stdlib Require Import ZArith Lia.
From S2P Require Import Prelude Crc GdpWire.
Local Open Scope Z_scope.

(** ** gdp_wire.p4 *)

Record gdp_base_h : Set := mkBase {
  b_version : Z; b_packet_type : Z; b_size_class : Z; b_local_form : Z; b_reserved : Z; b_crc8 : Z; b_hop : Z }.
Record gdp_global_h : Set := mkGlobalAddr {
  g_valid : bool; destination_hi : Z; destination_lo : Z; source_hi : Z; source_lo : Z }.
Record gdp_local_h : Set := mkLocalAddr { l_valid : bool; l_destination : Z; l_source : Z }.
Record headers_t : Set := mkHeaders { base : gdp_base_h; global_addr : gdp_global_h; local_addr : gdp_local_h }.

Definition no_global : gdp_global_h := mkGlobalAddr false 0 0 0 0.
Definition no_local : gdp_local_h := mkLocalAddr false 0 0.

(** [pkt.extract(..)] of a header of [n] octets: their value and what is left *)
Definition extract (n : nat) (pkt : list Z) : res (Z * list Z) :=
  w ← get_slice pkt 0 (Z.of_nat n); Ok (from_be w, drop n pkt).

Definition base_of (word : Z) : gdp_base_h :=
  {| b_version := Z.land (Z.shiftr word 30) 3;
     b_packet_type := Z.land (Z.shiftr word 26) 0x0f;
     b_size_class := Z.land (Z.shiftr word 22) 0x0f;
     b_local_form := Z.land (Z.shiftr word 21) 1;
     b_reserved := Z.land (Z.shiftr word 16) 0x1f;
     b_crc8 := Z.land (Z.shiftr word 8) 0xff;
     b_hop := Z.land word 0xff |}.

Definition parse_global (b : gdp_base_h) (pkt : list Z) : res (headers_t * list Z) :=
  '(dhi, pkt) ← extract 4 pkt;
  '(dlo, pkt) ← extract 4 pkt;
  '(shi, pkt) ← extract 4 pkt;
  '(slo, pkt) ← extract 4 pkt;
  Ok (mkHeaders b (mkGlobalAddr true dhi dlo shi slo) no_local, pkt).

Definition parse_local (b : gdp_base_h) (pkt : list Z) : res (headers_t * list Z) :=
  '(d, pkt) ← extract 2 pkt;
  '(s, pkt) ← extract 2 pkt;
  Ok (mkHeaders b no_global (mkLocalAddr true d s), pkt).

(** The state [start] never rejects. *)
Definition parse_start (pkt : list Z) : res (option headers_t * list Z) :=
  '(word, pkt) ← extract 4 pkt;
  let b := base_of word in
  '(hdr, pkt) ← (if b_local_form b =? 1 then parse_local b pkt else parse_global b pkt);
  Ok (Some hdr, pkt).

(** The deparser: the valid headers, in order *)
Definition base_word (b : gdp_base_h) : Z :=
  Z.lor (Z.lor (Z.lor (Z.lor (Z.lor (Z.lor (Z.shiftl (b_version b) 30) (Z.shiftl (b_packet_type b) 26))
    (Z.shiftl (b_size_class b) 22)) (Z.shiftl (b_local_form b) 21)) (Z.shiftl (b_reserved b) 16))
    (Z.shiftl (b_crc8 b) 8)) (b_hop b).
Definition deparse (hdr : headers_t) : list Z :=
  to_be 4 (base_word (base hdr)) ++
  (if g_valid (global_addr hdr) then
     to_be 4 (destination_hi (global_addr hdr)) ++ to_be 4 (destination_lo (global_addr hdr)) ++
     to_be 4 (source_hi (global_addr hdr)) ++ to_be 4 (source_lo (global_addr hdr))
   else []) ++
  (if l_valid (local_addr hdr) then to_be 2 (l_destination (local_addr hdr)) ++ to_be 2 (l_source (local_addr hdr)) else []).

(** ** p4_gdp.rs *)

Inductive ParsedAddresses : Set :=
  | PGlobal (destination source : Z)
  | PLocal (destination source : Z).

Record ParsedGdp : Set := mkParsed {
  p_version : Z; p_packet_type : Z; p_size_class : Z; p_local_form : bool; p_reserved : Z; p_crc8 : Z;
  p_hop_limit : Z; p_addresses : ParsedAddresses }.

(** [(dhi << 32) | dlo] *)
Definition join32 (hi lo : Z) : Z := Z.lor (Z.shiftl hi 32) lo.

(** The addresses and the parsed packet, as both adapters build them *)
Definition parsed_addresses (local_form : bool) (hdr : headers_t) : ParsedAddresses :=
  if local_form then PLocal (l_destination (local_addr hdr)) (l_source (local_addr hdr))
  else PGlobal (join32 (destination_hi (global_addr hdr)) (destination_lo (global_addr hdr)))
         (join32 (source_hi (global_addr hdr)) (source_lo (global_addr hdr))).
Definition parsed_of (local_form : bool) (hdr : headers_t) : ParsedGdp :=
  {| p_version := b_version (base hdr); p_packet_type := b_packet_type (base hdr);
     p_size_class := b_size_class (base hdr); p_local_form := local_form; p_reserved := b_reserved (base hdr);
     p_crc8 := b_crc8 (base hdr);
     p_hop_limit := if local_form then Z.land (b_hop (base hdr)) 0x0f else b_hop (base hdr);
     p_addresses := parsed_addresses local_form hdr |}.

Definition parse_header (bs : list Z) : res ParsedGdp :=
  fail_if (len bs <? 4) InvalidLength;;
  w ← get_slice bs 0 4;
  word ← try_from_be 4 w;
  let local_form := negb (Z.land (Z.shiftr word 21) 1 =? 0) in
  let header_len := if local_form then 8 else 20 in
  fail_if (len bs <? header_len) InvalidLength;;
  '(hdr, _) ← parse_start bs;
  hdr ← ok_or hdr InvalidField;
  let parsed_local_form := negb (b_local_form (base hdr) =? 0) in
  fail_if (negb (eqb parsed_local_form local_form)) InvalidAddressForm;;
  Ok (parsed_of local_form hdr).

Definition p4_decode_header (bs : list Z) (local_prefix : Z) : res GdpHeader :=
  parsed ← parse_header bs;
  size_class ← sc_from_wire (p_size_class parsed);
  let packet_type := type_from_wire (p_packet_type parsed) in
  let addresses := match p_addresses parsed with
                   | PGlobal destination source => Global destination source
                   | PLocal destination source => Local destination source (clear_low16 local_prefix)
                   end in
  let header := {| hdr_version := p_version parsed; hdr_packet_type := packet_type; hdr_size_class := size_class;
                   hdr_hop_limit := p_hop_limit parsed; hdr_addresses := addresses |} in
  fail_if (negb (crc8 header GdpWireConfig_default =? p_crc8 parsed)) InvalidCrc;;
  Ok header.

(** [GdpHeader::decode] of gdp.rs under the features the library can be built with:
    neither, [p4-gdp], and [p4-gdp-compare] *)
Inductive gdp_backend : Set := HandwrittenGdp | P4Backend | CompareBackend.
Definition header_decode (backend : gdp_backend) (buf : list Z) (cfg : GdpWireConfig) (local_prefix : Z) : res GdpHeader :=
  match backend, local_form_bit cfg with
  | P4Backend, true => p4_decode_header buf local_prefix
  | CompareBackend, true =>
      match p4_decode_header buf local_prefix, decode_header buf cfg local_prefix with
      | Panic, _ | _, Panic => Panic
      | Ok a, Ok b => if bool_decide (a = b) then Ok a else Err InvalidField
      | Err a, Err b => if bool_decide (a = b) then Err a else Err InvalidField
      | _, _ => Err InvalidField
      end
  | _, _ => decode_header buf cfg local_prefix
  end.

Definition parse_and_validate (bs : list Z) : res ParsedGdp :=
  parsed ← parse_header bs;
  size_class ← sc_from_wire (p_size_class parsed);
  let header_len := if p_local_form parsed then 8 else 20 in
  fail_if (negb (len bs =? header_len + sc_bytes size_class)) InvalidLength;;
  header ← p4_decode_header bs 0;
  fail_if (negb (hdr_version header =? p_version parsed)) InvalidField;;
  Ok parsed.

(** ** The parser reads the wire form *)

Lemma extract_eq n pkt : Z.of_nat n ≤ len pkt → extract n pkt = Ok (from_be (slice pkt 0 (Z.of_nat n)), drop n pkt).
Proof. intros H. unfold extract. by rewrite get_slice_eq, bind_Ok_l by lia. Qed.

Lemma slice_drop (l : list Z) (n : nat) a b :
  0 ≤ a → a ≤ b → slice (drop n l) a b = slice l (Z.of_nat n + a) (Z.of_nat n + b).
Proof. intros. unfold slice. rewrite drop_drop. f_equal; [lia |]. f_equal. lia. Qed.

Lemma from_be_app l k : from_be (l ++ k) = from_be l * 256 ^ len k + from_be k.
Proof. unfold from_be at 1. rewrite fold_left_app. apply from_be_acc. Qed.

Lemma join_words (l : list Z) a : bytes l → 0 ≤ a → a + 8 ≤ len l →
  join32 (from_be (slice l a (a + 4))) (from_be (slice l (a + 4) (a + 8))) = from_be (slice l a (a + 8)).
Proof.
  intros Hb Ha Hl. rewrite (slice_split l a (a + 4) (a + 8)) by lia.
  assert (H2 : len (slice l (a + 4) (a + 8)) = 4) by (rewrite len_slice; lia).
  pose proof (from_be_range (slice l (a + 4) (a + 8)) (bytes_slice _ _ _ Hb)) as Hr. rewrite H2 in Hr.
  unfold join32. rewrite lor_shiftl_add by (try lia; change (2 ^ 32) with (256 ^ 4); lia).
  rewrite from_be_app, H2. change (2 ^ 32) with (256 ^ 4). lia.
Qed.

(** The headers the parser finds, from the octets *)
Definition headers_of (bs : list Z) : headers_t :=
  let b := base_of (from_be (slice bs 0 4)) in
  if b_local_form b =? 1 then
    mkHeaders b no_global (mkLocalAddr true (from_be (slice bs 4 6)) (from_be (slice bs 6 8)))
  else
    mkHeaders b (mkGlobalAddr true (from_be (slice bs 4 8)) (from_be (slice bs 8 12)) (from_be (slice bs 12 16))
      (from_be (slice bs 16 20))) no_local.
Definition is_local (bs : list Z) : bool := b_local_form (base_of (from_be (slice bs 0 4))) =? 1.
Definition head_len (bs : list Z) : Z := if is_local bs then 8 else 20.

Lemma parse_start_eq bs :
  4 ≤ len bs → head_len bs ≤ len bs → parse_start bs = Ok (Some (headers_of bs), drop (Z.to_nat (head_len bs)) bs).
Proof.
  intros H4 Hh. unfold parse_start, headers_of, head_len, is_local in *. rewrite extract_eq, bind_Ok_l by lia. cbv zeta.
  change (Z.of_nat 4) with 4. destruct (b_local_form (base_of (from_be (slice bs 0 4))) =? 1).
  - unfold parse_local. rewrite extract_eq, bind_Ok_l by (rewrite len_drop; lia).
    rewrite extract_eq, !bind_Ok_l by (rewrite !len_drop; lia).
    rewrite !drop_drop, !slice_drop by lia. done.
  - unfold parse_global. rewrite extract_eq, bind_Ok_l by (rewrite len_drop; lia).
    do 3 (rewrite extract_eq, bind_Ok_l by (rewrite !len_drop; lia)).
    rewrite bind_Ok_l, !drop_drop, !slice_drop by lia. done.
Qed.

Lemma land_1_cases x : Z.land x 1 = 0 ∨ Z.land x 1 = 1.
Proof. rewrite (land_ones_mod x 1 1) by done. zdiv. Qed.

Lemma is_local_bit bs : is_local bs = negb (Z.land (Z.shiftr (from_be (slice bs 0 4)) 21) 1 =? 0).
Proof.
  unfold is_local, base_of. cbn [b_local_form].
  by destruct (land_1_cases (Z.shiftr (from_be (slice bs 0 4)) 21)) as [-> | ->].
Qed.

(** What the adapter returns, branch by branch *)
Lemma parse_header_eq bs :
  parse_header bs =
    if len bs <? 4 then Err InvalidLength
    else if len bs <? head_len bs then Err InvalidLength
    else Ok (parsed_of (is_local bs) (headers_of bs)).
Proof.
  unfold parse_header. destruct (Z.ltb_spec (len bs) 4) as [| H4]; [done |]. cbn [fail_if]. rewrite bind_Ok_l.
  rewrite get_slice_eq, bind_Ok_l, try_from_be_eq, bind_Ok_l by (rewrite ?len_slice; lia). cbv zeta.
  rewrite <- is_local_bit. unfold head_len.
  destruct (Z.ltb_spec (len bs) (if is_local bs then 8 else 20)) as [| Hh]; [done |]. cbn [fail_if]. rewrite bind_Ok_l.
  rewrite parse_start_eq, bind_Ok_l by (done || lia). cbn [ok_or]. rewrite bind_Ok_l.
  assert (negb (b_local_form (base (headers_of bs)) =? 0) = is_local bs) as ->.
  { rewrite is_local_bit. unfold headers_of. cbv zeta. by destruct (b_local_form _ =? 1). }
  by rewrite eqb_reflx.
Qed.

Lemma from_be_short (bs : list Z) a n : bytes bs → 0 ≤ a → 0 ≤ n → a + n ≤ len bs → 0 ≤ from_be (slice bs a (a + n)) < 256 ^ n.
Proof.
  intros Hb Ha Hn Hl. pose proof (from_be_range (slice bs a (a + n)) (bytes_slice _ _ _ Hb)) as H.
  replace (len (slice bs a (a + n))) with n in H by (rewrite len_slice; lia). done.
Qed.

(** The two 16-bit identifiers of a Local header as one word *)
Lemma local_words (bs : list Z) : bytes bs → 8 ≤ len bs →
  as_u16 (Z.shiftr (from_be (slice bs 4 8)) 16) = from_be (slice bs 4 6) ∧
  as_u16 (from_be (slice bs 4 8)) = from_be (slice bs 6 8).
Proof.
  intros Hb Hl. rewrite (slice_split bs 4 6 8), from_be_app by lia.
  replace (len (slice bs 6 8)) with 2 by (rewrite len_slice; lia).
  pose proof (from_be_short bs 4 2 Hb). pose proof (from_be_short bs 6 2 Hb).
  change (256 ^ 2) with 0x10000 in *. change (4 + 2) with 6 in *. change (6 + 2) with 8 in *.
  rewrite shiftr_div by lia. split; zdiv.
Qed.

Lemma hop_low4 w : Z.land (Z.land w 0xff) 0x0f = Z.land w 0x0f.
Proof. by rewrite <- Z.land_assoc. Qed.

#[local] Opaque crc8.

Lemma p4_decode_eq bs local_prefix :
  bytes bs → p4_decode_header bs local_prefix = decode_header bs GdpWireConfig_default local_prefix.
Proof.
  intros Hb. unfold p4_decode_header, decode_header. rewrite parse_header_eq.
  destruct (Z.ltb_spec (len bs) 4) as [| H4]; [done |]. cbn [fail_if]. rewrite bind_Ok_l.
  rewrite (get_slice_eq bs 0 4), bind_Ok_l by lia. rewrite (try_from_be_eq 4), bind_Ok_l by (rewrite len_slice; lia). cbv zeta.
  rewrite <- is_local_bit. unfold head_len.
  set (word := from_be (slice bs 0 4)) in *.
  destruct (sc_from_wire_total (Z.land (Z.shiftr word 22) 0x0f)) as (c & Hc & _). rewrite Hc, bind_Ok_l.
  unfold form_from_bit, GdpWireConfig_default, headers_of. cbn [local_form_bit]. fold (is_local bs). fold word.
  destruct (is_local bs) eqn:El; cbn [eqb].
  - destruct (Z.ltb_spec (len bs) 8) as [| H8]; [done |]. cbn [fail_if]. rewrite !bind_Ok_l.
    change (p_size_class _) with (Z.land (Z.shiftr word 22) 0x0f). rewrite Hc, bind_Ok_l.
    rewrite get_slice_eq, bind_Ok_l, try_from_be_eq, !bind_Ok_l by (rewrite ?len_slice; lia).
    destruct (local_words bs Hb H8) as [-> ->].
    cbn [parsed_of parsed_addresses p_version p_packet_type p_hop_limit p_addresses p_crc8 base local_addr l_destination l_source
      b_version b_packet_type b_hop b_crc8 base_of].
    rewrite hop_low4. reflexivity.
  - destruct (Z.ltb_spec (len bs) 20) as [| H20]; [done |]. cbn [fail_if]. rewrite !bind_Ok_l.
    change (p_size_class _) with (Z.land (Z.shiftr word 22) 0x0f). rewrite Hc, bind_Ok_l.
    rewrite !get_slice_eq, bind_Ok_l by lia. rewrite (try_from_be_eq 8), bind_Ok_l by (rewrite len_slice; lia).
    rewrite bind_Ok_l. rewrite (try_from_be_eq 8), !bind_Ok_l by (rewrite len_slice; lia).
    pose proof (join_words bs 4 Hb ltac:(lia) ltac:(lia)) as Hd. pose proof (join_words bs 12 Hb ltac:(lia) ltac:(lia)) as Hs.
    change (4 + 4) with 8 in Hd. change (4 + 8) with 12 in Hd. change (12 + 4) with 16 in Hs. change (12 + 8) with 20 in Hs.
    rewrite <- Hd, <- Hs. reflexivity.
Qed.

(** C29: parsing a GDP header with the P4 parser and decoding it by hand is the
    same function, on every octet string: the same header or the same error.
    So the library decodes headers alike whichever features it is built with,
    and the comparing build never reports a difference. *)
Theorem p4_decode_agrees backend bs cfg local_prefix :
  bytes bs →
  p4_decode_header bs local_prefix = decode_header bs GdpWireConfig_default local_prefix ∧
  header_decode backend bs cfg local_prefix = decode_header bs cfg local_prefix.
Proof.
  intros Hb. pose proof (p4_decode_eq bs local_prefix Hb) as E. split; [exact E |]. unfold header_decode.
  destruct cfg as [[]]; cbn [local_form_bit]; [| destruct backend; reflexivity].
  destruct backend; [reflexivity | exact E |].
  rewrite E. change (mkWireConfig true) with GdpWireConfig_default.
  destruct (decode_header bs GdpWireConfig_default local_prefix) as [h | e |];
    [rewrite bool_decide_true by reflexivity; reflexivity .. | reflexivity].
Qed.

Lemma p4_decode_agrees_witness :
  p4_decode_header [4; 32; 4; 7; 0; 9; 0; 8] 0xaaaa0000 = decode_header [4; 32; 4; 7; 0; 9; 0; 8] GdpWireConfig_default 0xaaaa0000 ∧
  header_decode CompareBackend [4; 32; 4; 7; 0; 9; 0; 8] GdpWireConfig_default 0xaaaa0000 =
    decode_header [4; 32; 4; 7; 0; 9; 0; 8] GdpWireConfig_default 0xaaaa0000.
Proof.
  refine (p4_decode_agrees CompareBackend [4; 32; 4; 7; 0; 9; 0; 8] GdpWireConfig_default 0xaaaa0000 _).
  repeat (apply Forall_cons; split; [unfold u8; lia |]). by apply Forall_nil.
Defined.
