(* ===== verification/P4Pipeline.v ===== *)
(** * Generated packet pipelines

    The interface of the pipelines that x4c generates from the P4 programs
    (table entries go in, packets come out), what a P4 table and a P4 program
    mean, and what it is for a generated pipeline to run a program. The
    generated code itself is not part of the repository; clients are proved
    against the interface, and the meaning of the P4 source is one instance. *)
From stdpp Require Import prelude strings.
From Stdlib Require Import ZArith Lia.
From S2P Require Import Prelude Crc GdpWire P4Gdp.
Local Open Scope Z_scope.

(** ** Tables *)

(** What [add_table_entry] is given (the priority is always 0). *)
Record table_entry : Set := mkEntry { te_table : string; te_action : string; te_key : list Z; te_params : list Z }.

Definition to_le (n : nat) (v : Z) : list Z := rev (to_be n v).
Definition from_le (l : list Z) : Z := from_be (rev l).

(** A key field: exact match on [n] octets, least significant first, or the
    longest prefix of [n] octets in network order, followed by its length *)
Inductive key_field : Set := Exact (n : nat) | Lpm (n : nat).

(** Whether an entry's key matches the packet's fields, and with how many
    prefix bits. *)
Fixpoint key_matches (key : list Z) (fields : list (key_field * Z)) : option Z :=
  match fields with
  | [] => Some 0
  | (Exact n, v) :: fields =>
      if from_le (take n key) =? v then key_matches (drop n key) fields else None
  | (Lpm n, v) :: fields =>
      let plen := nth n key 0 in
      let host := 8 * Z.of_nat n - plen in
      if Z.shiftr (from_be (take n key)) host =? Z.shiftr v host
      then Z.add plen <$> key_matches (drop (S n) key) fields else None
  end.

(** Which of several equally good entries a table takes is left open. *)
Class EntryChoice : Type := {
  choose : list table_entry → option table_entry;
  choose_spec : ∀ l, match choose l with Some e => e ∈ l | None => l = [] end }.
Definition first_entry : EntryChoice.
Proof. refine {| choose := head |}. intros [| e l]; [done | apply list_elem_of_here]. Defined.

Definition matching (t : string) (fields : list (key_field * Z)) (es : list table_entry) : list (Z * table_entry) :=
  omap (λ e, if String.eqb (te_table e) t then (λ n, (n, e)) <$> key_matches (te_key e) fields else None) es.
Definition longest (ms : list (Z * table_entry)) : list table_entry :=
  (filter (λ m, Forall (λ m', m'.1 ≤ m.1) ms) ms).*2.
Definition table_lookup `{EntryChoice} (t : string) (fields : list (key_field * Z)) (es : list table_entry)
    : option table_entry := choose (longest (matching t fields es)).

Lemma elem_of_matching t fields es n e :
  (n, e) ∈ matching t fields es ↔ e ∈ es ∧ te_table e = t ∧ key_matches (te_key e) fields = Some n.
Proof.
  unfold matching. rewrite list_elem_of_omap. split.
  - intros (e' & Hin & H). destruct (String.eqb_spec (te_table e') t); [| done].
    destruct (key_matches (te_key e') fields) as [k |] eqn:E; [| done]. cbn in H. by simplify_eq.
  - intros (Hin & <- & H). exists e. split; [done |]. by rewrite String.eqb_refl, H.
Qed.

(** Some match is the longest. *)
Lemma longest_nonempty ms : ms ≠ [] → longest ms ≠ [].
Proof.
  intros Hne. assert (∃ m, m ∈ ms ∧ Forall (λ m', m'.1 ≤ m.1) ms) as (m & Hin & Hmax).
  { induction ms as [| a ms IH]; [done |]. destruct ms as [| b ms].
    - exists a. split; [apply list_elem_of_here |]. apply Forall_singleton. lia.
    - destruct IH as (m & Hin & Hmax); [done |]. destruct (Z.le_ge_cases a.1 m.1).
      + exists m. split; [by apply list_elem_of_further | by apply Forall_cons].
      + exists a. split; [apply list_elem_of_here |]. apply Forall_cons. split; [lia |].
        eapply Forall_impl; [exact Hmax |]. cbn. lia. }
  intros H. unfold longest in H. apply fmap_nil_inv in H.
  assert (m ∈ filter (λ m, Forall (λ m', m'.1 ≤ m.1) ms) ms) as Hf by (by apply list_elem_of_filter).
  rewrite H in Hf. by apply not_elem_of_nil in Hf.
Qed.

Lemma table_lookup_spec `{EntryChoice} t fields es :
  match table_lookup t fields es with
  | Some e => e ∈ es ∧ te_table e = t ∧ ∃ n, key_matches (te_key e) fields = Some n ∧
      ∀ e' n', e' ∈ es → te_table e' = t → key_matches (te_key e') fields = Some n' → n' ≤ n
  | None => ∀ e, e ∈ es → te_table e = t → key_matches (te_key e) fields = None
  end.
Proof.
  unfold table_lookup. pose proof (choose_spec (longest (matching t fields es))) as Hc.
  destruct (choose _) as [e |].
  - unfold longest in Hc. apply list_elem_of_fmap in Hc as ([n e'] & -> & [Hmax Hin]%list_elem_of_filter).
    apply elem_of_matching in Hin as (Hin & Ht & Hk). split; [done |]. split; [done |]. exists n. split; [done |].
    intros e2 n2 H2 Ht2 Hk2. rewrite Forall_forall in Hmax. apply (Hmax (n2, e2)). by apply elem_of_matching.
  - intros e Hin Ht. destruct (key_matches (te_key e) fields) as [n |] eqn:E; [| done].
    assert ((n, e) ∈ matching t fields es) as Hm by (by apply elem_of_matching).
    assert (matching t fields es = []) as H0.
    { destruct (matching t fields es) as [| m ms] eqn:Em; [done |]. by destruct (longest_nonempty (m :: ms)). }
    rewrite H0 in Hm. by apply not_elem_of_nil in Hm.
Qed.

(** Encoded keys *)
Lemma from_le_to_le n v : from_le (to_le n v) = v mod 256 ^ Z.of_nat n.
Proof. unfold from_le, to_le. by rewrite rev_involutive, from_be_to_be_mod. Qed.
Lemma length_to_le n v : length (to_le n v) = n.
Proof. unfold to_le. by rewrite length_rev, length_to_be. Qed.

Lemma key_exact n v key x fields :
  key_matches (to_le n v ++ key) ((Exact n, x) :: fields) =
  if v mod 256 ^ Z.of_nat n =? x then key_matches key fields else None.
Proof. cbn [key_matches]. by rewrite take_app_length', drop_app_length', from_le_to_le by (by rewrite length_to_le). Qed.

(** A key of two words *)
Lemma global_key a d : u64 a → u64 d →
  key_matches (to_le 4 (as_u32 (Z.shiftr a 32)) ++ to_le 4 (as_u32 a)) [(Exact 4, d / 2 ^ 32); (Exact 4, d mod 2 ^ 32)] =
  if a =? d then Some 0 else None.
Proof.
  intros Ha Hd. rewrite key_exact. rewrite <- (app_nil_r (to_le 4 (as_u32 a))), key_exact. cbn [key_matches].
  change (256 ^ Z.of_nat 4) with (2 ^ 32). unfold as_u32. change 0x100000000 with (2 ^ 32).
  rewrite !Z.mod_mod, shiftr_div by lia. rewrite (Z.mod_small (a / 2 ^ 32)) by (unfold u64 in Ha; zdiv).
  destruct (Z.eqb_spec a d) as [-> | Had]; [by rewrite !Z.eqb_refl |].
  destruct (Z.eqb_spec (a / 2 ^ 32) (d / 2 ^ 32)); [| done]. destruct (Z.eqb_spec (a mod 2 ^ 32) (d mod 2 ^ 32)); [| done].
  destruct Had. rewrite (Z.div_mod a (2 ^ 32)), (Z.div_mod d (2 ^ 32)) by lia. congruence.
Qed.
Lemma port_key n2 v x : key_matches (to_le n2 v) [(Exact n2, x)] = if v mod 256 ^ Z.of_nat n2 =? x then Some 0 else None.
Proof. rewrite <- (app_nil_r (to_le n2 v)), key_exact. done. Qed.

(** ** Programs and pipelines *)

(** [egress_metadata_t] *)
Record egress_t : Set := mkEgress { eg_port : Z; eg_drop : bool; eg_transit : bool; eg_decided : bool }.

(** A packet that leaves: the emitted headers, the payload, the port *)
Definition output : Set := list Z * list Z * Z.

(** The program [SoftNPU(parse(), ingress(), egress())] of the given ingress
    control; the egress controls are empty. *)
Definition run_p4 (ingress : Z → headers_t → headers_t * egress_t) (port : Z) (bs : list Z) : res (list output) :=
  '(hdr, payload) ← parse_start bs;
  match hdr with
  | None => Ok []
  | Some hdr =>
      let '(hdr, g) := ingress port hdr in
      if eg_drop g then Ok [] else Ok [(deparse hdr, payload, eg_port g)]
  end.

(** [table.apply()]: the action of the entry that matches, or the table's default *)
Definition apply_table `{EntryChoice} (run_action : string → list Z → egress_t → egress_t) (table : string)
    (key : list (key_field * Z)) (default : string) (es : list table_entry) (g : egress_t) : egress_t :=
  match table_lookup table key es with
  | Some e => run_action (te_action e) (te_params e) g
  | None => run_action default [] g
  end.

(** The hop limit of a packet in transit: the last statement of the ingress
    controls that forward *)
Definition spend_hop (g : egress_t) (hdr : headers_t) : headers_t * egress_t :=
  if eg_transit g then
    if (b_hop (base hdr) =? 0) || (b_hop (base hdr) =? 1)
    then (hdr, mkEgress (eg_port g) true (eg_transit g) (eg_decided g))
    else
      let b := base hdr in
      (mkHeaders (mkBase (b_version b) (b_packet_type b) (b_size_class b) (b_local_form b) (b_reserved b) (b_crc8 b)
         (b_hop b - 1)) (global_addr hdr) (local_addr hdr), g)
  else (hdr, g).

(** [p4rs::Pipeline], as the sources use it *)
Class Pipeline (P : Type) : Type := {
  pipeline_new : Z → P;
  add_table_entry : string → string → list Z → list Z → P → P;
  process_packet : Z → list Z → P → P * res (list output) }.

(** A pipeline runs a program over the entries it was given, in order. *)
Class Runs (P : Type) `{Pipeline P} (prog : list table_entry → Z → list Z → res (list output)) : Type := {
  entries : P → list table_entry;
  entries_new : ∀ radix, entries (pipeline_new radix) = [];
  entries_add : ∀ t a k v p, entries (add_table_entry t a k v p) = entries p ++ [mkEntry t a k v];
  entries_process : ∀ port bs p, entries (process_packet port bs p).1 = entries p;
  process_runs : ∀ port bs p, (process_packet port bs p).2 = prog (entries p) port bs }.

(** The meaning of a program is such a pipeline. *)
Record installed (prog : list table_entry → Z → list Z → res (list output)) : Set := mkInstalled { in_entries : list table_entry }.
Arguments mkInstalled {prog}. Arguments in_entries {prog}.
#[export] Instance installed_pipeline prog : Pipeline (installed prog) := {|
  pipeline_new := λ _, mkInstalled [];
  add_table_entry := λ t a k v p, mkInstalled (in_entries p ++ [mkEntry t a k v]);
  process_packet := λ port bs p, (p, prog (in_entries p) port bs) |}.
#[export] Instance installed_runs prog : Runs (installed prog) prog.
Proof. by refine {| entries := in_entries |}. Defined.

(** ** Encoded packets through the parser and the deparser *)

Lemma extract_to_be n v rest : extract n (to_be n v ++ rest) = Ok (v mod 256 ^ Z.of_nat n, rest).
Proof.
  rewrite extract_eq by (rewrite len_app, len_to_be; pose proof (len_nonneg rest); lia).
  rewrite slice_app_l by (rewrite ?len_to_be; lia). rewrite slice_full by (rewrite ?len_to_be; lia).
  rewrite from_be_to_be_mod, drop_app_length'; [done |]. by rewrite length_to_be.
Qed.

Lemma to_be_app a b v : to_be (a + b) v = to_be a (v / 256 ^ Z.of_nat b) ++ to_be b v.
Proof.
  induction a as [| a IH]; [done |]. cbn [Nat.add to_be app]. rewrite IH. f_equal.
  rewrite Nat2Z.inj_add, Z.pow_add_r, (Z.mul_comm (256 ^ _)), Z.div_div by (try apply Z.pow_pos_nonneg; try apply Z.pow_nonzero; lia).
  done.
Qed.

(** The headers of an encoded packet *)
Definition hdr_of (h : GdpHeader) : headers_t :=
  let b := mkBase (hdr_version h) (type_to_wire (hdr_packet_type h)) (sc_index (hdr_size_class h))
             (match hdr_addresses h with Local _ _ _ => 1 | _ => 0 end) 0 (crc8 h GdpWireConfig_default) (hdr_hop_limit h) in
  match hdr_addresses h with
  | Global d s => mkHeaders b (mkGlobalAddr true (d / 2 ^ 32) (d mod 2 ^ 32) (s / 2 ^ 32) (s mod 2 ^ 32)) no_local
  | Local d s _ => mkHeaders b no_global (mkLocalAddr true d s)
  end.

Lemma form_b2z h : Z.b2z (form_bit GdpWireConfig_default (addr_form (hdr_addresses h))) =
  match hdr_addresses h with Local _ _ _ => 1 | _ => 0 end.
Proof. by destruct (hdr_addresses h). Qed.

Lemma base_word_of h : wf_header h → base_word (base (hdr_of h)) = header_word1 h GdpWireConfig_default.
Proof.
  intros Hwf. rewrite header_word1_eq by done. pose proof (header_word_ranges h GdpWireConfig_default Hwf) as Hr.
  rewrite form_b2z in *. rewrite <- word_lor by done. unfold hdr_of, base_word.
  destruct (hdr_addresses h); cbn [base b_version b_packet_type b_size_class b_local_form b_reserved b_crc8 b_hop];
    by rewrite Z.shiftl_0_l, Z.lor_0_r.
Qed.

Lemma base_of_word h : wf_header h → base_of (header_word1 h GdpWireConfig_default) = base (hdr_of h).
Proof.
  intros Hwf. rewrite header_word1_eq by done. pose proof (header_word_ranges h GdpWireConfig_default Hwf) as Hr.
  rewrite form_b2z in *. destruct (word_fields _ _ _ _ _ _ Hr) as (E1 & E2 & E3 & E4 & E5 & E6 & _). cbv zeta in *.
  unfold base_of. rewrite E1, E2, E3, E4, E5, E6. unfold hdr_of.
  assert (Z.land (Z.shiftr (word_sum (hdr_version h) (type_to_wire (hdr_packet_type h)) (sc_index (hdr_size_class h))
     (match hdr_addresses h with Local _ _ _ => 1 | _ => 0 end) (crc8 h GdpWireConfig_default) (hdr_hop_limit h)) 16) 0x1f = 0) as ->.
  { rewrite (land_ones_mod _ 5 0x1f), shiftr_div by done. unfold word_ranges, word_sum in *. zdiv. }
  by destruct (hdr_addresses h).
Qed.

(** The wire form in the words of the P4 headers *)
Lemma header_wire_words h : wf_header h →
  header_wire h GdpWireConfig_default = to_be 4 (header_word1 h GdpWireConfig_default) ++
    match hdr_addresses h with
    | Global d s => to_be 4 (d / 2 ^ 32) ++ to_be 4 (d mod 2 ^ 32) ++ to_be 4 (s / 2 ^ 32) ++ to_be 4 (s mod 2 ^ 32)
    | Local d s _ => to_be 2 d ++ to_be 2 s
    end.
Proof.
  intros (_ & _ & Ha & _). unfold header_wire. f_equal. destruct (hdr_addresses h) as [d s | d s p].
  - assert (Hx : ∀ v, to_be 8 v = to_be 4 (v / 2 ^ 32) ++ to_be 4 (v mod 2 ^ 32)).
    { intros v. change (to_be 8 v) with (to_be (4 + 4) v). rewrite to_be_app. f_equal. symmetry. apply (to_be_mod 4). }
    by rewrite !Hx, <- !app_assoc.
  - destruct Ha as (Hd & Hs & _). rewrite lor_shiftl_add by ulia.
    change (to_be 4 (d * 2 ^ 16 + s)) with (to_be (2 + 2) (d * 2 ^ 16 + s)). rewrite to_be_app. f_equal.
    + f_equal. change (256 ^ Z.of_nat 2) with (2 ^ 16). zdiv.
    + rewrite <- (to_be_mod 2 (d * 2 ^ 16 + s)), <- (to_be_mod 2 s). f_equal. change (256 ^ Z.of_nat 2) with (2 ^ 16). zdiv.
Qed.

Lemma deparse_hdr_of h : wf_header h → deparse (hdr_of h) = header_wire h GdpWireConfig_default.
Proof.
  intros Hwf. rewrite header_wire_words by done. unfold deparse. rewrite base_word_of by done. f_equal.
  unfold hdr_of. destruct (hdr_addresses h); cbn [global_addr local_addr g_valid l_valid no_local no_global];
    by rewrite ?app_nil_r.
Qed.

Lemma parse_packet h payload :
  wf_header h → parse_start (header_wire h GdpWireConfig_default ++ payload) = Ok (Some (hdr_of h), payload).
Proof.
  intros Hwf. rewrite header_wire_words, <- app_assoc by done. unfold parse_start.
  pose proof (word_sum_range _ _ _ _ _ _ (header_word_ranges h GdpWireConfig_default Hwf)) as Hw.
  rewrite <- header_word1_eq in Hw by done.
  rewrite extract_to_be, Z.mod_small, bind_Ok_l by exact Hw. cbv zeta. rewrite base_of_word by done.
  destruct Hwf as (_ & _ & Ha & _). unfold hdr_of, parse_global, parse_local.
  destruct (hdr_addresses h) as [d s | d s p]; cbn [base b_local_form Z.eqb Pos.eqb].
  - destruct Ha as [Hd Hs]. rewrite <- !app_assoc. rewrite !extract_to_be, !bind_Ok_l, !extract_to_be, !bind_Ok_l.
    rewrite !extract_to_be, !bind_Ok_l, !extract_to_be, !bind_Ok_l. change (256 ^ Z.of_nat 4) with (2 ^ 32).
    rewrite !Z.mod_mod, (Z.mod_small (d / 2 ^ 32)), (Z.mod_small (s / 2 ^ 32)) by (try done; zdiv). done.
  - destruct Ha as (Hd & Hs & _). rewrite <- !app_assoc. rewrite !extract_to_be, !bind_Ok_l, !extract_to_be, !bind_Ok_l.
    change (256 ^ Z.of_nat 2) with (2 ^ 16). rewrite !Z.mod_small by (unfold u16 in *; lia). done.
Qed.

(** One hop less *)
Definition pkt_with_hop (p : GdpPacket) (hop : Z) : GdpPacket := mkPacket (set_hop (pkt_header p) hop) (pkt_payload p).

Lemma wf_with_hop h hop : wf_header h → 0 ≤ hop ≤ hdr_hop_limit h → wf_header (set_hop h hop).
Proof.
  intros (Hv & Ht & Ha & Hh & Hl) H. unfold set_hop, wf_header in *. cbn [hdr_version hdr_packet_type hdr_addresses hdr_hop_limit].
  split_and!; try done; try ulia. destruct (hdr_addresses h); [done | lia].
Qed.

Lemma hdr_with_hop h hop : hdr_of (set_hop h hop) =
  mkHeaders (mkBase (b_version (base (hdr_of h))) (b_packet_type (base (hdr_of h))) (b_size_class (base (hdr_of h)))
    (b_local_form (base (hdr_of h))) (b_reserved (base (hdr_of h))) (b_crc8 (base (hdr_of h))) hop)
    (global_addr (hdr_of h)) (local_addr (hdr_of h)).
Proof.
  assert (Hc : crc8 (set_hop h hop) GdpWireConfig_default = crc8 h GdpWireConfig_default).
  { apply crc8_ext; try done. unfold set_hop. cbn. by destruct (hdr_addresses h). }
  unfold hdr_of. rewrite Hc. unfold set_hop. cbn [hdr_addresses hdr_version hdr_packet_type hdr_size_class hdr_hop_limit].
  by destruct (hdr_addresses h).
Qed.

(** Packets the encoder accepts *)
Definition wf_packet (p : GdpPacket) : Prop :=
  wf_header (pkt_header p) ∧ len (pkt_payload p) = sc_bytes (hdr_size_class (pkt_header p)).
(** The prefix the receiver takes for a packet of its own: as both planes compute it *)
Definition own_prefix (p : GdpPacket) : Z :=
  match hdr_addresses (pkt_header p) with Global _ _ => 0 | Local _ _ prefix => prefix end.

(** A packet that leaves, encoded, with its port *)
Definition emitted (out : GdpPacket * Z) : output :=
  (header_wire (pkt_header out.1) GdpWireConfig_default, pkt_payload out.1, out.2).

Lemma decode_emitted p : wf_packet p →
  packet_decode (header_wire (pkt_header p) GdpWireConfig_default ++ pkt_payload p) GdpWireConfig_default (own_prefix p) = Ok p.
Proof.
  intros [Hwf Hl]. destruct (packet_roundtrip p GdpWireConfig_default (own_prefix p)) as (w & He & _ & Hd); [done | | done |].
  - unfold prefix_matches, own_prefix. destruct Hwf as (_ & _ & Ha & _). destruct (hdr_addresses (pkt_header p)); [done |]. symmetry. apply Ha.
  - rewrite packet_encode_ok in He by done. apply Ok_inj in He. by rewrite He.
Qed.
