(* ===== verification/StaticRouter.v ===== *)
(** * The static P4 router (src/src/static_router.rs, src/src/cycle_router.rs, src/p4-static-router/p4/router.p4)

    The startup configuration and its validation, the forwarding table that is
    compiled from it into the tables of the P4 program, the ingress control of
    router.p4, and the processing of a packet. Proved: when a router can be built,
    and that the tables forward by longest prefix over the whole address although
    the P4 program splits it into a long and a short table. *)
From stdpp Require Import prelude gmap strings.
From Stdlib Require Import ZArith Lia.
From S2P Require Import Prelude Crc GdpWire Routing P4Gdp P4Pipeline.
Local Open Scope Z_scope.

(** ** Configuration *)

Definition ROUTER_PORT_COUNT : Z := 2.
Definition ROUTER_BOOTSTRAP_ADDRESS : Z := 0xfe80000000000000.

Record RouterPortConfig : Set := mkPort {
  rp_id : Z; link_local : Z; connected_prefix : option GdpPrefix; routed_address : option Z }.

Definition port_new (id link_local : Z) : RouterPortConfig := mkPort id link_local None None.
Definition with_connected_network (prefix : GdpPrefix) (router_address : Z) (self : RouterPortConfig) : RouterPortConfig :=
  mkPort (rp_id self) (link_local self) (Some prefix) (Some router_address).

Record StaticRouteConfig : Set := mkStatic { st_prefix : GdpPrefix; st_egress : Z; st_next_hop : option Z }.

Definition direct (prefix : GdpPrefix) (egress_port : Z) : StaticRouteConfig := mkStatic prefix egress_port None.
Definition via (prefix : GdpPrefix) (egress_port next_hop : Z) : StaticRouteConfig :=
  mkStatic prefix egress_port (Some next_hop).

Record RouterStartupConfig : Set := mkStartup { rc_ports : list RouterPortConfig; rc_routes : list StaticRouteConfig }.

Definition is_link_local (address : Z) : bool := as_u16 (Z.shiftr address 48) =? 0xfe80.

(** [set.insert(x)], refused when [x] is there *)
Definition insert_new `{Countable A} (x : A) (s : gset A) : res (gset A) :=
  fail_if (bool_decide (x ∈ s)) InvalidField;; Ok ({[x]} ∪ s).

(** A loop whose body may return an error *)
Fixpoint fold_res {A B} (f : A → B → res B) (l : list A) (b : B) : res B :=
  match l with [] => Ok b | a :: l => b ← f a b; fold_res f l b end.

(** One round of the loop over the ports: the addresses the router owns and the
    prefixes it forwards *)
Definition validate_port (ip : nat * RouterPortConfig) (sets : gset Z * gset GdpPrefix) : res (gset Z * gset GdpPrefix) :=
  let '(index, port) := ip in
  let '(owned_addresses, forwarding_prefixes) := sets in
  fail_if (negb (rp_id port =? Z.of_nat index)) InvalidField;;
  fail_if (negb (is_link_local (link_local port)) || (link_local port =? ROUTER_BOOTSTRAP_ADDRESS)) InvalidField;;
  owned_addresses ← insert_new (link_local port) owned_addresses;
  match connected_prefix port, routed_address port with
  | None, None => Ok (owned_addresses, forwarding_prefixes)
  | Some prefix, Some address =>
      fail_if (is_link_local (network prefix) || negb (contains prefix address) || is_link_local address) InvalidField;;
      owned_addresses ← insert_new address owned_addresses;
      forwarding_prefixes ← insert_new prefix forwarding_prefixes;
      Ok (owned_addresses, forwarding_prefixes)
  | _, _ => Err InvalidField
  end.

Definition validate_route (owned_addresses : gset Z) (route : StaticRouteConfig) (forwarding_prefixes : gset GdpPrefix)
    : res (gset GdpPrefix) :=
  fail_if (ROUTER_PORT_COUNT <=? st_egress route) InvalidField;;
  forwarding_prefixes ← insert_new (st_prefix route) forwarding_prefixes;
  (match st_next_hop route with
   | Some next_hop => fail_if (negb (is_link_local next_hop) || (next_hop =? ROUTER_BOOTSTRAP_ADDRESS)
       || bool_decide (next_hop ∈ owned_addresses)) InvalidField
   | None => Ok tt
   end);;
  (if prefix_len (st_prefix route) =? 64 then
     let destination := network (st_prefix route) in
     fail_if ((destination =? ROUTER_BOOTSTRAP_ADDRESS) || bool_decide (destination ∈ owned_addresses)) InvalidField
   else Ok tt);;
  Ok forwarding_prefixes.

Definition validate (self : RouterStartupConfig) : res unit :=
  fail_if (negb (len (rc_ports self) =? ROUTER_PORT_COUNT)) InvalidField;;
  '(owned_addresses, forwarding_prefixes) ← fold_res validate_port (imap pair (rc_ports self)) (∅, ∅);
  _ ← fold_res (validate_route owned_addresses) (rc_routes self) forwarding_prefixes;
  Ok tt.

(** ** The forwarding table and the tables of the pipeline *)

Inductive FibOrigin : Set := Bootstrap | RouterLocal | ConnectedNet | StaticNet.
Record FibEntry : Set := mkFib { fe_prefix : GdpPrefix; fe_egress : option Z; fe_origin : FibOrigin }.

Inductive RouterDisposition : Set :=
  | Forward (egress_port : Z) (packet : GdpPacket)
  | Punt (ingress_port : Z) (packet : GdpPacket)
  | Drop.

Section pipelines.
Context {P : Type} `{Pipeline P}.

Definition program_local_punt (pipeline : P) (ingress_port destination cpu_port : Z) : P :=
  add_table_entry "ingress.local_routes" "punt" (to_le 2 ingress_port ++ to_le 2 destination) (to_le 2 cpu_port) pipeline.

Definition program_global (pipeline : P) (prefix : GdpPrefix) (action : string) (params : list Z) : P :=
  let value := network prefix in
  let n := prefix_len prefix in
  if 32 <? n then
    let hi := as_u32 (Z.shiftr value 32) in
    let lo := as_u32 value in
    add_table_entry "ingress.global_long_routes" action (to_le 4 hi ++ to_be 4 lo ++ [n - 32]) params pipeline
  else
    let hi := as_u32 (Z.shiftr value 32) in
    add_table_entry "ingress.global_short_routes" action (to_be 4 hi ++ [n]) params pipeline.

Record StaticP4Router : Type := mkRouter {
  pipeline : P; cpu_port : Z; startup : RouterStartupConfig; fib : list FibEntry }.

(** The locals of [compile_startup_fib] *)
Definition program : Type := P * list FibEntry * gset GdpPrefix.

(** One address of the router itself, in the first loop *)
Definition compile_own (cpu : Z) (address : Z) (st : program) : res program :=
  let '(pl, fib, programmed) := st in
  prefix ← ok_or (prefix_new address 64) InvalidField;
  if bool_decide (prefix ∈ programmed) then Ok (pl, fib, programmed)
  else Ok (program_global pl prefix "punt" (to_le 2 cpu), fib ++ [mkFib prefix None RouterLocal], {[prefix]} ∪ programmed).

Definition compile_port (cpu : Z) (port : RouterPortConfig) (st : program) : res program :=
  '(pl, fib, programmed) ← fold_res (compile_own cpu) (link_local port :: option_list (routed_address port)) st;
  let pl := program_local_punt pl (rp_id port) (as_u16 (link_local port)) cpu in
  let pl := match routed_address port with
            | Some address => program_local_punt pl (rp_id port) (as_u16 address) cpu
            | None => pl
            end in
  Ok (pl, fib, programmed).

(** A prefix that leads out of a port *)
Definition compile_out (prefix : GdpPrefix) (port : Z) (origin : FibOrigin) (st : program) : res program :=
  let '(pl, fib, programmed) := st in
  programmed ← insert_new prefix programmed;
  Ok (program_global pl prefix "forward" (to_le 2 port), fib ++ [mkFib prefix (Some port) origin], programmed).

Definition compile_connected (port : RouterPortConfig) (st : program) : res program :=
  match connected_prefix port with Some prefix => compile_out prefix (rp_id port) ConnectedNet st | None => Ok st end.
Definition compile_static (route : StaticRouteConfig) (st : program) : res program :=
  compile_out (st_prefix route) (st_egress route) StaticNet st.

Definition compile_startup_fib (self : StaticP4Router) : res StaticP4Router :=
  bootstrap ← ok_or (prefix_new ROUTER_BOOTSTRAP_ADDRESS 64) InvalidField;
  let pl := program_global (pipeline_new (ROUTER_PORT_COUNT + 1)) bootstrap "punt" (to_le 2 (cpu_port self)) in
  st ← fold_res (compile_port (cpu_port self)) (rc_ports (startup self)) (pl, [mkFib bootstrap None Bootstrap], {[bootstrap]});
  st ← fold_res compile_connected (rc_ports (startup self)) st;
  '(pl, fib, _) ← fold_res compile_static (rc_routes (startup self)) st;
  Ok (mkRouter pl (cpu_port self) (startup self) fib).

Definition router_new (startup : RouterStartupConfig) : res StaticP4Router :=
  validate startup;;
  compile_startup_fib (mkRouter (pipeline_new (ROUTER_PORT_COUNT + 1)) ROUTER_PORT_COUNT startup []).

Definition physical_port_count (self : StaticP4Router) : Z := ROUTER_PORT_COUNT.

Definition set_pipeline (pl : P) (self : StaticP4Router) : StaticP4Router :=
  mkRouter pl (cpu_port self) (startup self) (fib self).

Definition process (ingress_port : Z) (packet : GdpPacket) : st StaticP4Router RouterDisposition :=
  guard_st (ROUTER_PORT_COUNT <=? ingress_port) InvalidField;;
  let local_prefix := own_prefix packet in
  let cfg := GdpWireConfig_default in
  bs ← lift (packet_encode packet cfg);
  outputs ← zoom pipeline set_pipeline (process_packet ingress_port bs);
  match outputs with
  | [] => mret Drop
  | [(header_data, payload_data, port)] =>
      packet ← lift (packet_decode (header_data ++ payload_data) cfg local_prefix);
      cpu ← gets cpu_port;
      mret (if port =? cpu then Punt ingress_port packet
            else if (ROUTER_PORT_COUNT <=? port) || (port =? ingress_port) then Drop
            else Forward port packet)
  | _ => lift (Err InvalidState)
  end.

(** ** cycle_router.rs *)

Inductive RouterVc0Policy : Set := NormalData | EscapeOnly.
Definition RouterVc0Policy_default : RouterVc0Policy := EscapeOnly.

Record CycleAwareRouter : Type := mkCycle { inner : StaticP4Router; vc0_policy : RouterVc0Policy }.

Definition cycle_new (startup : RouterStartupConfig) (policy : RouterVc0Policy) : res CycleAwareRouter :=
  inner ← router_new startup; Ok (mkCycle inner policy).
Definition normal_data_vcids (self : CycleAwareRouter) : list Z :=
  match vc0_policy self with NormalData => [0; 1; 2; 3] | EscapeOnly => [1; 2; 3] end.
Definition escape_vcid (self : CycleAwareRouter) : option Z :=
  match vc0_policy self with NormalData => None | EscapeOnly => Some 0 end.
Definition set_inner (r : StaticP4Router) (self : CycleAwareRouter) : CycleAwareRouter := mkCycle r (vc0_policy self).
Definition cycle_process (ingress_port : Z) (packet : GdpPacket) : st CycleAwareRouter RouterDisposition :=
  zoom inner set_inner (process ingress_port packet).
End pipelines.
Arguments StaticP4Router P : clear implicits.
Arguments CycleAwareRouter P : clear implicits.

(** ** The ingress control of router.p4 *)

(** What the actions of the tables do *)
Definition router_action (action : string) (params : list Z) (g : egress_t) : egress_t :=
  if String.eqb action "drop" then mkEgress (eg_port g) true false true
  else if String.eqb action "punt" then mkEgress (from_le params) (eg_drop g) false true
  else if String.eqb action "forward" then mkEgress (from_le params) (eg_drop g) true true
  else g.

Definition router_ingress `{EntryChoice} (es : list table_entry) (ingress_port : Z) (hdr : headers_t)
    : headers_t * egress_t :=
  let g := mkEgress 0 false false false in
  let hi := destination_hi (global_addr hdr) in
  let lo := destination_lo (global_addr hdr) in
  let g :=
    if g_valid (global_addr hdr) then
      let g := apply_table router_action "ingress.global_long_routes" [(Exact 4, hi); (Lpm 4, lo)] "allow" es g in
      if eg_decided g then g else apply_table router_action "ingress.global_short_routes" [(Lpm 4, hi)] "drop" es g
    else
      apply_table router_action "ingress.local_routes" [(Exact 2, ingress_port); (Exact 2, l_destination (local_addr hdr))] "drop" es g in
  spend_hop g hdr.

Definition router_program `{EntryChoice} (es : list table_entry) (port : Z) (bs : list Z) : res (list output) :=
  run_p4 (router_ingress es) port bs.

(** ** Prefixes through the split tables *)

Lemma key_lpm n v plen key x fields :
  key_matches (to_be n v ++ plen :: key) ((Lpm n, x) :: fields) =
  if Z.shiftr (v mod 256 ^ Z.of_nat n) (8 * Z.of_nat n - plen) =? Z.shiftr x (8 * Z.of_nat n - plen)
  then Z.add plen <$> key_matches key fields else None.
Proof.
  cbn [key_matches]. rewrite take_app_length' by (by rewrite length_to_be). rewrite from_be_to_be_mod.
  replace (nth n (to_be n v ++ plen :: key) 0) with plen.
  2: { rewrite app_nth2 by (rewrite length_to_be; lia). by rewrite length_to_be, Nat.sub_diag. }
  change (S n) with (1 + n)%nat. rewrite Nat.add_comm, <- drop_drop, drop_app_length' by (by rewrite length_to_be). done.
Qed.

Lemma contains_network p d : wf_prefix p → u64 d →
  contains p d = (d / 2 ^ (64 - prefix_len p) =? network p / 2 ^ (64 - prefix_len p)).
Proof.
  intros (a & n & Ha & Hn & Hp) Hd. rewrite (contains_spec a n p d) by done.
  apply prefix_new_Some in Hp as [Hn' ->]. cbn [network prefix_len]. rewrite land_route_mask by (done || lia).
  rewrite Z.div_mul by (apply Z.pow_nonzero; lia). done.
Qed.

Lemma wf_prefix_len p : wf_prefix p → 0 ≤ prefix_len p ≤ 64 ∧ u64 (network p).
Proof.
  intros (a & n & Ha & Hn & Hp). apply prefix_new_Some in Hp as [Hn' ->]. cbn. split; [lia |].
  rewrite land_route_mask by (done || lia). unfold u64 in *.
  pose proof (Z.mul_div_le a (2 ^ (64 - n)) ltac:(apply Z.pow_pos_nonneg; lia)).
  pose proof (Z.div_pos a (2 ^ (64 - n)) ltac:(lia) ltac:(apply Z.pow_pos_nonneg; lia)).
  pose proof (Z.pow_pos_nonneg 2 (64 - n) ltac:(lia) ltac:(lia)). nia.
Qed.

(** The leading bits of an address, word by word *)
Lemma high_split x k : 0 ≤ k ≤ 32 → x / 2 ^ k = x / 2 ^ 32 * 2 ^ (32 - k) + x mod 2 ^ 32 / 2 ^ k.
Proof.
  intros Hk. rewrite (Z.div_mod x (2 ^ 32)) at 1 by lia.
  replace (2 ^ 32 * (x / 2 ^ 32)) with (x / 2 ^ 32 * 2 ^ (32 - k) * 2 ^ k).
  - by rewrite Z.div_add_l by (apply Z.pow_nonzero; lia).
  - rewrite <- Z.mul_assoc, <- Z.pow_add_r by lia. replace (32 - k + k) with 32 by lia. lia.
Qed.
Lemma long_prefix x y k : 0 ≤ k ≤ 32 →
  (x / 2 ^ k =? y / 2 ^ k) = (y / 2 ^ 32 =? x / 2 ^ 32) && (y mod 2 ^ 32 / 2 ^ k =? x mod 2 ^ 32 / 2 ^ k).
Proof.
  intros Hk. rewrite (high_split x k), (high_split y k) by done.
  assert (Hr : ∀ z, 0 ≤ z mod 2 ^ 32 / 2 ^ k < 2 ^ (32 - k)).
  { intros z. pose proof (Z.mod_pos_bound z (2 ^ 32) ltac:(lia)). split.
    - apply Z.div_pos; [lia | apply Z.pow_pos_nonneg; lia].
    - apply Z.div_lt_upper_bound; [apply Z.pow_pos_nonneg; lia |]. rewrite <- Z.pow_add_r by lia.
      replace (k + (32 - k)) with 32 by lia. lia. }
  pose proof (Hr x) as Hx. pose proof (Hr y) as Hy.
  set (u := x mod 2 ^ 32 / 2 ^ k) in *. set (v := y mod 2 ^ 32 / 2 ^ k) in *. set (m := 2 ^ (32 - k)) in *.
  set (a := x / 2 ^ 32) in *. set (b := y / 2 ^ 32) in *. clearbody u v m a b.
  destruct (Z.eqb_spec b a) as [-> | Hab]; destruct (Z.eqb_spec v u) as [-> | Huv]; cbn [andb].
  - apply Z.eqb_refl.
  - apply Z.eqb_neq. lia.
  - apply Z.eqb_neq. nia.
  - apply Z.eqb_neq. intros E. assert (a = b); [| lia]. nia.
Qed.

(** ** The tables as a forwarding table *)

Definition table_of (p : GdpPrefix) : string :=
  if 32 <? prefix_len p then "ingress.global_long_routes" else "ingress.global_short_routes".
Definition key_of (p : GdpPrefix) : list Z :=
  if 32 <? prefix_len p then
    to_le 4 (as_u32 (Z.shiftr (network p) 32)) ++ to_be 4 (as_u32 (network p)) ++ [prefix_len p - 32]
  else to_be 4 (as_u32 (Z.shiftr (network p) 32)) ++ [prefix_len p].
Definition global_entry (cpu : Z) (e : FibEntry) : table_entry :=
  match fe_egress e with
  | None => mkEntry (table_of (fe_prefix e)) "punt" (key_of (fe_prefix e)) (to_le 2 cpu)
  | Some port => mkEntry (table_of (fe_prefix e)) "forward" (key_of (fe_prefix e)) (to_le 2 port)
  end.
Definition local_entry (cpu : Z) (ps : Z * Z) : table_entry :=
  mkEntry "ingress.local_routes" "punt" (to_le 2 ps.1 ++ to_le 2 ps.2) (to_le 2 cpu).

Lemma key_of_long p d : wf_prefix p → u64 d → 32 < prefix_len p →
  key_matches (key_of p) [(Exact 4, d / 2 ^ 32); (Lpm 4, d mod 2 ^ 32)] =
  if contains p d then Some (prefix_len p - 32) else None.
Proof.
  intros Hp Hd Hl. destruct (wf_prefix_len p Hp) as [Hn Hnet]. unfold key_of. replace (32 <? prefix_len p) with true by lia.
  rewrite key_exact, key_lpm. change (256 ^ Z.of_nat 4) with (2 ^ 32). change (8 * Z.of_nat 4) with 32. cbn [key_matches].
  unfold as_u32. change 0x100000000 with (2 ^ 32). rewrite !Z.mod_mod, !shiftr_div by (lia || done).
  rewrite contains_network, (long_prefix d (network p)) by (done || lia).
  replace (64 - prefix_len p) with (32 - (prefix_len p - 32)) by lia.
  rewrite (Z.mod_small (network p / 2 ^ 32)) by (unfold u64 in Hnet; zdiv).
  destruct (network p / 2 ^ 32 =? d / 2 ^ 32); [cbn [andb] | done].
  destruct (_ =? _); [| done]. cbn. by rewrite Z.add_0_r.
Qed.

Lemma key_of_short p d : wf_prefix p → u64 d → prefix_len p ≤ 32 →
  key_matches (key_of p) [(Lpm 4, d / 2 ^ 32)] = if contains p d then Some (prefix_len p) else None.
Proof.
  intros Hp Hd Hl. destruct (wf_prefix_len p Hp) as [Hn Hnet]. unfold key_of. replace (32 <? prefix_len p) with false by lia.
  rewrite key_lpm. change (256 ^ Z.of_nat 4) with (2 ^ 32). change (8 * Z.of_nat 4) with 32. cbn [key_matches].
  unfold as_u32. change 0x100000000 with (2 ^ 32). rewrite !Z.mod_mod, !shiftr_div by (lia || done).
  rewrite contains_network by done. rewrite (Z.mod_small (network p / 2 ^ 32)) by (unfold u64 in Hnet; zdiv).
  rewrite !Z.div_div by (try apply Z.pow_pos_nonneg; try apply Z.pow_nonzero; lia).
  rewrite <- Z.pow_add_r by lia. replace (32 + (32 - prefix_len p)) with (64 - prefix_len p) by lia.
  rewrite (Z.eqb_sym (d / _)). destruct (_ =? _); [| done]. cbn. by rewrite Z.add_0_r.
Qed.

(** ** The reference: the longest prefix of the forwarding table *)

Definition longer (d : Z) (best : option FibEntry) (e : FibEntry) : option FibEntry :=
  if contains (fe_prefix e) d then
    match best with
    | Some c => if prefix_len (fe_prefix c) <? prefix_len (fe_prefix e) then Some e else best
    | None => Some e
    end
  else best.
Definition fib_lookup (fib : list FibEntry) (d : Z) : option FibEntry := fold_left (longer d) fib None.

(** [e] is the entry of [fib] with the longest prefix of [d]. *)
Definition longest_for (fib : list FibEntry) (d : Z) (e : FibEntry) : Prop :=
  e ∈ fib ∧ contains (fe_prefix e) d = true ∧
  ∀ e', e' ∈ fib → contains (fe_prefix e') d = true → prefix_len (fe_prefix e') ≤ prefix_len (fe_prefix e).

Lemma fib_lookup_spec fib d :
  match fib_lookup fib d with
  | Some e => longest_for fib d e
  | None => ∀ e, e ∈ fib → contains (fe_prefix e) d = false
  end.
Proof.
  unfold fib_lookup. induction fib as [| x fib IH] using rev_ind; [by intros e H%not_elem_of_nil |].
  rewrite fold_left_app. cbn. unfold longer at 1. destruct (contains (fe_prefix x) d) eqn:Hx.
  - destruct (fold_left _ _ _) as [c |].
    + destruct IH as (Hin & Hc & Hmax). destruct (Z.ltb_spec (prefix_len (fe_prefix c)) (prefix_len (fe_prefix x))).
      * split; [set_solver |]. split; [done |]. intros e [He | ->%list_elem_of_singleton]%elem_of_app Hm; [| lia].
        specialize (Hmax e He Hm). lia.
      * split; [set_solver |]. split; [done |]. intros e [He | ->%list_elem_of_singleton]%elem_of_app Hm; [| lia]. by apply Hmax.
    + split; [set_solver |]. split; [done |]. intros e [He | ->%list_elem_of_singleton]%elem_of_app Hm; [| lia].
      by rewrite (IH e He) in Hm.
  - destruct (fold_left _ _ _) as [c |].
    + destruct IH as (Hin & Hc & Hmax). split; [set_solver |]. split; [done |].
      intros e [He | ->%list_elem_of_singleton]%elem_of_app Hm; [by apply Hmax | congruence].
    + intros e [He | ->%list_elem_of_singleton]%elem_of_app; [by apply IH | done].
Qed.

(** Prefixes of the same length that match the same address are the same. *)
Lemma longest_unique fib d e e' :
  NoDup (fe_prefix <$> fib) → longest_for fib d e → longest_for fib d e' → e = e'.
Proof.
  intros Hnd (Hi & Hc & Hm) (Hi' & Hc' & Hm').
  assert (prefix_len (fe_prefix e) = prefix_len (fe_prefix e')) as El.
  { specialize (Hm e' Hi' Hc'). specialize (Hm' e Hi Hc). lia. }
  assert (fe_prefix e = fe_prefix e') as Ep.
  { unfold contains in *. rewrite El in Hc. apply Z.eqb_eq in Hc, Hc'. rewrite Hc in Hc'.
    destruct (fe_prefix e), (fe_prefix e'). cbn in *. by subst. }
  apply list_elem_of_lookup in Hi as [i Hi], Hi' as [j Hj].
  assert (i = j) as ->; [| congruence].
  apply (NoDup_lookup (fe_prefix <$> fib) i j (fe_prefix e)); [done | |]; rewrite list_lookup_fmap.
  - by rewrite Hi.
  - rewrite Hj. cbn. by rewrite Ep.
Qed.

Lemma fib_lookup_longest fib d e : NoDup (fe_prefix <$> fib) → longest_for fib d e → fib_lookup fib d = Some e.
Proof.
  intros Hnd He. pose proof (fib_lookup_spec fib d) as H. destruct (fib_lookup fib d) as [e' |].
  - f_equal. by eapply longest_unique.
  - destruct He as (Hi & Hc & _). by rewrite (H e Hi) in Hc.
Qed.

(** ** The tables that stand for a forwarding table *)

Definition wf_fib (fib : list FibEntry) : Prop :=
  NoDup (fe_prefix <$> fib) ∧
  Forall (λ e, wf_prefix (fe_prefix e) ∧ match fe_egress e with Some port => 0 ≤ port < ROUTER_PORT_COUNT | None => True end) fib.
Definition tables_for (fib : list FibEntry) (locals : list (Z * Z)) (es : list table_entry) : Prop :=
  es ≡ₚ (global_entry ROUTER_PORT_COUNT <$> fib) ++ (local_entry ROUTER_PORT_COUNT <$> locals).

Lemma global_entry_table cpu e : te_table (global_entry cpu e) = table_of (fe_prefix e) ∧ te_key (global_entry cpu e) = key_of (fe_prefix e).
Proof. unfold global_entry. by destruct (fe_egress e). Qed.

(** What an entry does *)
Definition entry_egress (e : FibEntry) (g : egress_t) : egress_t :=
  match fe_egress e with
  | None => mkEgress ROUTER_PORT_COUNT (eg_drop g) false true
  | Some port => mkEgress port (eg_drop g) true true
  end.
Lemma run_global_entry fib e g : wf_fib fib → e ∈ fib →
  router_action (te_action (global_entry ROUTER_PORT_COUNT e)) (te_params (global_entry ROUTER_PORT_COUNT e)) g = entry_egress e g.
Proof.
  intros [_ Hf] He. rewrite Forall_forall in Hf. destruct (Hf e He) as [_ Hp].
  unfold global_entry, entry_egress, ROUTER_PORT_COUNT in *. destruct (fe_egress e) as [port |]; unfold router_action; cbn [te_action te_params String.eqb].
  - change (if String.eqb "forward" "drop" then _ else _) with (mkEgress (from_le (to_le 2 port)) (eg_drop g) true true).
    rewrite from_le_to_le, Z.mod_small by (change (256 ^ Z.of_nat 2) with 65536; lia). done.
  - change (if String.eqb "punt" "drop" then _ else _) with (mkEgress (from_le (to_le 2 2)) (eg_drop g) false true).
    done.
Qed.

Section tables.
Context `{EntryChoice} (fib : list FibEntry) (locals : list (Z * Z)) (es : list table_entry).
Hypothesis Hfib : wf_fib fib.
Hypothesis Htables : tables_for fib locals es.
Hypothesis Hlocals : Forall (λ ps, 0 ≤ ps.1 < ROUTER_PORT_COUNT ∧ u16 ps.2) locals.

Lemma entry_inv te : te ∈ es →
  (∃ e, e ∈ fib ∧ te = global_entry ROUTER_PORT_COUNT e) ∨ (∃ ps, ps ∈ locals ∧ te = local_entry ROUTER_PORT_COUNT ps).
Proof.
  rewrite Htables, elem_of_app, !list_elem_of_fmap. naive_solver.
Qed.
Lemma entry_global e : e ∈ fib → global_entry ROUTER_PORT_COUNT e ∈ es.
Proof. intros He. rewrite Htables. apply elem_of_app. left. by apply list_elem_of_fmap_2. Qed.
Lemma entry_local ps : ps ∈ locals → local_entry ROUTER_PORT_COUNT ps ∈ es.
Proof. intros Hp. rewrite Htables. apply elem_of_app. right. by apply list_elem_of_fmap_2. Qed.

(** A lookup in the long or in the short table *)
Lemma lookup_global (long : bool) d fields :
  u64 d →
  (∀ p, wf_prefix p → (32 <? prefix_len p) = long →
    key_matches (key_of p) fields = if contains p d then Some (prefix_len p - if long then 32 else 0) else None) →
  match table_lookup (if long then "ingress.global_long_routes" else "ingress.global_short_routes") fields es with
  | Some te => ∃ e, te = global_entry ROUTER_PORT_COUNT e ∧ e ∈ fib ∧ (32 <? prefix_len (fe_prefix e)) = long ∧
      contains (fe_prefix e) d = true ∧
      ∀ e', e' ∈ fib → (32 <? prefix_len (fe_prefix e')) = long → contains (fe_prefix e') d = true →
        prefix_len (fe_prefix e') ≤ prefix_len (fe_prefix e)
  | None => ∀ e, e ∈ fib → (32 <? prefix_len (fe_prefix e)) = long → contains (fe_prefix e) d = false
  end.
Proof.
  intros Hd Hkey. pose proof (table_lookup_spec (if long then "ingress.global_long_routes" else "ingress.global_short_routes")%string fields es) as Hs.
  destruct Hfib as [Hnd Hwf]. rewrite Forall_forall in Hwf.
  assert (Hin : ∀ e, e ∈ fib → (32 <? prefix_len (fe_prefix e)) = long →
    te_table (global_entry ROUTER_PORT_COUNT e) = (if long then "ingress.global_long_routes" else "ingress.global_short_routes")%string ∧
    key_matches (te_key (global_entry ROUTER_PORT_COUNT e)) fields =
      if contains (fe_prefix e) d then Some (prefix_len (fe_prefix e) - if long then 32 else 0) else None).
  { intros e He Hl. destruct (global_entry_table ROUTER_PORT_COUNT e) as [-> ->]. unfold table_of. rewrite Hl.
    split; [done |]. apply Hkey; [by apply Hwf | done]. }
  destruct (table_lookup _ fields es) as [te |].
  - destruct Hs as (Hte & Ht & n & Hk & Hmax). destruct (entry_inv te Hte) as [(e & He & ->) | (ps & _ & ->)].
    2: { by destruct long. }
    assert (Hl : (32 <? prefix_len (fe_prefix e)) = long).
    { destruct (global_entry_table ROUTER_PORT_COUNT e) as [E _]. rewrite E in Ht. unfold table_of in Ht.
      by destruct (32 <? prefix_len (fe_prefix e)), long. }
    exists e. split; [done |]. split; [done |]. split; [done |].
    destruct (Hin e He Hl) as [_ Hk']. rewrite Hk in Hk'. destruct (contains (fe_prefix e) d); [| done].
    split; [done |]. intros e' He' Hl' Hc'. destruct (Hin e' He' Hl') as [Ht' Hk2]. rewrite Hc' in Hk2.
    specialize (Hmax _ _ (entry_global e' He') Ht' Hk2). apply Some_inj in Hk'. lia.
  - intros e He Hl. destruct (Hin e He Hl) as [Ht Hk]. rewrite (Hs _ (entry_global e He) Ht) in Hk.
    by destruct (contains (fe_prefix e) d).
Qed.

Lemma global_decision d g : u64 d → eg_decided g = false →
  (let g := apply_table router_action "ingress.global_long_routes" [(Exact 4, d / 2 ^ 32); (Lpm 4, d mod 2 ^ 32)] "allow" es g in
   if eg_decided g then g else apply_table router_action "ingress.global_short_routes" [(Lpm 4, d / 2 ^ 32)] "drop" es g) =
  match fib_lookup fib d with
  | Some e => entry_egress e g
  | None => mkEgress (eg_port g) true false true
  end.
Proof.
  intros Hd Hg. destruct Hfib as [Hnd Hwf]. rewrite Forall_forall in Hwf.
  pose proof (lookup_global true d [(Exact 4, d / 2 ^ 32); (Lpm 4, d mod 2 ^ 32)] Hd
    (λ p Hp Hl, key_of_long p d Hp Hd (proj1 (Z.ltb_lt _ _) Hl))) as Hlong.
  assert (Hks : ∀ p, wf_prefix p → (32 <? prefix_len p) = false → key_matches (key_of p) [(Lpm 4, d / 2 ^ 32)] =
    if contains p d then Some (prefix_len p - 0) else None).
  { intros p Hp Hl. rewrite Z.sub_0_r. apply key_of_short; [done | done | lia]. }
  pose proof (lookup_global false d [(Lpm 4, d / 2 ^ 32)] Hd Hks) as Hshort. clear Hks.
  cbn iota in Hlong, Hshort. unfold apply_table. cbv zeta.
  destruct (table_lookup "ingress.global_long_routes" _ es) as [te |].
  - destruct Hlong as (e & -> & He & Hl & Hc & Hmax). rewrite (run_global_entry fib) by done.
    replace (eg_decided (entry_egress e g)) with true by (unfold entry_egress; by destruct (fe_egress e)).
    erewrite fib_lookup_longest; [done | done |]. split; [done |]. split; [done |]. intros e' He' Hc'.
    destruct (32 <? prefix_len (fe_prefix e')) eqn:Hl'; [by apply Hmax | lia].
  - change (router_action "allow" [] g) with g. rewrite Hg.
    destruct (table_lookup "ingress.global_short_routes" _ es) as [te |].
    + destruct Hshort as (e & -> & He & Hl & Hc & Hmax). rewrite (run_global_entry fib) by done.
      erewrite fib_lookup_longest; [done | done |]. split; [done |]. split; [done |]. intros e' He' Hc'.
      destruct (32 <? prefix_len (fe_prefix e')) eqn:Hl'; [by rewrite (Hlong e' He' Hl') in Hc' | by apply Hmax].
    + pose proof (fib_lookup_spec fib d) as Hs. destruct (fib_lookup fib d) as [e |]; [| done].
      destruct Hs as (He & Hc & _). destruct (32 <? prefix_len (fe_prefix e)) eqn:Hl;
        [by rewrite (Hlong e He Hl) in Hc | by rewrite (Hshort e He Hl) in Hc].
Qed.

Lemma local_key ps port d : u16 ps.1 → u16 ps.2 →
  key_matches (te_key (local_entry ROUTER_PORT_COUNT ps)) [(Exact 2, port); (Exact 2, d)] =
  if bool_decide (ps = (port, d)) then Some 0 else None.
Proof.
  intros H1 H2. destruct ps as [a b]. cbn [local_entry te_key fst snd] in *.
  rewrite <- (app_nil_r (to_le 2 b)), !key_exact. change (256 ^ Z.of_nat 2) with 0x10000.
  rewrite !Z.mod_small by (unfold u16 in *; lia). cbn [key_matches].
  destruct (Z.eqb_spec a port) as [-> |]; [destruct (Z.eqb_spec b d) as [-> |] |].
  - by rewrite bool_decide_eq_true_2.
  - rewrite bool_decide_eq_false_2; [done | congruence].
  - rewrite bool_decide_eq_false_2; [done | congruence].
Qed.

Lemma local_decision port d g :
  apply_table router_action "ingress.local_routes" [(Exact 2, port); (Exact 2, d)] "drop" es g =
  if bool_decide ((port, d) ∈ locals) then mkEgress ROUTER_PORT_COUNT (eg_drop g) false true
  else mkEgress (eg_port g) true false true.
Proof.
  unfold apply_table. rewrite Forall_forall in Hlocals.
  assert (Hk : ∀ ps, ps ∈ locals → key_matches (te_key (local_entry ROUTER_PORT_COUNT ps)) [(Exact 2, port); (Exact 2, d)] =
    if bool_decide (ps = (port, d)) then Some 0 else None).
  { intros ps Hp. destruct (Hlocals ps Hp) as [Ha Hb]. apply local_key; [unfold u16, ROUTER_PORT_COUNT in *; lia | done]. }
  pose proof (table_lookup_spec "ingress.local_routes" [(Exact 2, port); (Exact 2, d)] es) as Hs.
  destruct (table_lookup _ _ es) as [te |].
  - destruct Hs as (Hte & Ht & n & Hm & _). destruct (entry_inv te Hte) as [(e & _ & ->) | (ps & Hp & ->)].
    { destruct (global_entry_table ROUTER_PORT_COUNT e) as [E _]. rewrite E in Ht. unfold table_of in Ht. by destruct (32 <? _). }
    rewrite (Hk ps Hp) in Hm. case_bool_decide as E; [| done]. subst ps. by rewrite bool_decide_eq_true_2.
  - rewrite bool_decide_eq_false_2; [done |]. intros Hp.
    specialize (Hs _ (entry_local _ Hp) eq_refl). rewrite (Hk _ Hp), bool_decide_eq_true_2 in Hs by done. done.
Qed.
End tables.

(** ** Processing a packet *)

(** The packets that leave the pipeline: encoded, with the port *)
Definition routed (fib : list FibEntry) (locals : list (Z * Z)) (ingress_port : Z) (packet : GdpPacket) : list (GdpPacket * Z) :=
  let hop := hdr_hop_limit (pkt_header packet) in
  match hdr_addresses (pkt_header packet) with
  | Global d _ =>
      match fib_lookup fib d with
      | None => []
      | Some e => match fe_egress e with
                  | None => [(packet, ROUTER_PORT_COUNT)]
                  | Some port => if hop <=? 1 then [] else [(pkt_with_hop packet (hop - 1), port)]
                  end
      end
  | Local d _ _ => if bool_decide ((ingress_port, d) ∈ locals) then [(packet, ROUTER_PORT_COUNT)] else []
  end.
Lemma wf_hop_range h : wf_header h → 0 ≤ hdr_hop_limit h.
Proof. intros (_ & _ & _ & H & _). unfold u8 in H. lia. Qed.

Lemma spend_hop_of h port : wf_header h →
  spend_hop (mkEgress port false true true) (hdr_of h) =
  if hdr_hop_limit h <=? 1 then (hdr_of h, mkEgress port true true true)
  else (hdr_of (set_hop h (hdr_hop_limit h - 1)), mkEgress port false true true).
Proof.
  intros Hwf. pose proof (wf_hop_range h Hwf). unfold spend_hop. cbn [eg_transit eg_port eg_decided].
  replace (b_hop (base (hdr_of h))) with (hdr_hop_limit h) by (unfold hdr_of; by destruct (hdr_addresses h)).
  replace ((hdr_hop_limit h =? 0) || (hdr_hop_limit h =? 1)) with (hdr_hop_limit h <=? 1) by lia.
  destruct (hdr_hop_limit h <=? 1); [done |]. by rewrite hdr_with_hop.
Qed.

Lemma wf_pkt_with_hop p hop : wf_packet p → 0 ≤ hop ≤ hdr_hop_limit (pkt_header p) → wf_packet (pkt_with_hop p hop).
Proof. intros [Hh Hl] H. split; [by apply wf_with_hop | done]. Qed.

Lemma program_routes `{EntryChoice} fib locals es ingress_port packet :
  wf_fib fib → tables_for fib locals es → Forall (λ ps, 0 ≤ ps.1 < ROUTER_PORT_COUNT ∧ u16 ps.2) locals → wf_packet packet →
  router_program es ingress_port (header_wire (pkt_header packet) GdpWireConfig_default ++ pkt_payload packet) =
  Ok (emitted <$> routed fib locals ingress_port packet).
Proof.
  intros Hfib Ht Hloc [Hwf Hlen]. unfold router_program, run_p4. rewrite parse_packet, bind_Ok_l by done.
  unfold router_ingress, routed. set (g := mkEgress 0 false false false). pose proof (deparse_hdr_of (pkt_header packet) Hwf) as Hd.
  pose proof (wf_hop_range _ Hwf) as Hhop. pose proof Hwf as (_ & _ & Ha & _).
  destruct (hdr_addresses (pkt_header packet)) as [d s | d s pr] eqn:E.
  - destruct Ha as [Hda _]. assert (Hg : global_addr (hdr_of (pkt_header packet)) = mkGlobalAddr true (d / 2 ^ 32) (d mod 2 ^ 32) (s / 2 ^ 32) (s mod 2 ^ 32)).
    { unfold hdr_of. by rewrite E. }
    rewrite Hg. cbn [g_valid destination_hi destination_lo]. cbv zeta.
    pose proof (global_decision fib locals es Hfib Ht d g Hda eq_refl) as Hdec. cbv zeta in Hdec. rewrite Hdec. clear Hdec.
    destruct (fib_lookup fib d) as [e |]; [| done]. unfold entry_egress. destruct (fe_egress e) as [port |].
    + change (eg_drop g) with false. rewrite spend_hop_of by done. destruct (Z.leb_spec (hdr_hop_limit (pkt_header packet)) 1); [done |].
      cbn [eg_drop eg_port]. rewrite deparse_hdr_of by (apply wf_with_hop; [done | lia]). done.
    + change (spend_hop _ _) with (hdr_of (pkt_header packet), mkEgress ROUTER_PORT_COUNT false false true).
      cbn [eg_drop eg_port]. by rewrite Hd.
  - assert (Hg : global_addr (hdr_of (pkt_header packet)) = no_global ∧ local_addr (hdr_of (pkt_header packet)) = mkLocalAddr true d s).
    { unfold hdr_of. by rewrite E. }
    destruct Hg as [-> ->]. cbn [g_valid no_global l_destination]. cbv zeta. rewrite (local_decision fib locals) by done.
    case_bool_decide; [| done].
    change (spend_hop _ _) with (hdr_of (pkt_header packet), mkEgress ROUTER_PORT_COUNT false false true).
    cbn [eg_drop eg_port]. by rewrite Hd.
Qed.

(** What becomes of a packet, from the forwarding table and the addresses of the router *)
Definition disposition (fib : list FibEntry) (locals : list (Z * Z)) (ingress_port : Z) (packet : GdpPacket) : RouterDisposition :=
  let hop := hdr_hop_limit (pkt_header packet) in
  match hdr_addresses (pkt_header packet) with
  | Global d _ =>
      match fib_lookup fib d with
      | None => Drop
      | Some e =>
          match fe_egress e with
          | None => Punt ingress_port packet
          | Some port => if (hop <=? 1) || (port =? ingress_port) then Drop else Forward port (pkt_with_hop packet (hop - 1))
          end
      end
  | Local d _ _ => if bool_decide ((ingress_port, d) ∈ locals) then Punt ingress_port packet else Drop
  end.

(** Where the suffixes of the router's own addresses are reachable *)
Definition local_suffixes (ports : list RouterPortConfig) : list (Z * Z) :=
  ports ≫= λ p, (λ a, (rp_id p, as_u16 a)) <$> (link_local p :: option_list (routed_address p)).

Section process.
Context `{EntryChoice} {P : Type} `{!Pipeline P, !Runs P router_program}.

(** What every call on a router leaves as it is *)
Definition router_ok (r : StaticP4Router P) : Prop :=
  cpu_port r = ROUTER_PORT_COUNT ∧ wf_fib (fib r) ∧
  tables_for (fib r) (local_suffixes (rc_ports (startup r))) (entries (pipeline r)) ∧
  Forall (λ ps, 0 ≤ ps.1 < ROUTER_PORT_COUNT ∧ u16 ps.2) (local_suffixes (rc_ports (startup r))).

(** The calls on a router: it is used, never changed *)
Definition after (history : list (Z * GdpPacket)) (r : StaticP4Router P) : StaticP4Router P :=
  fold_left (λ r '(port, packet), (process port packet r).1) history r.

Lemma process_ok port packet (r : StaticP4Router P) : router_ok r →
  router_ok (process port packet r).1 ∧ fib (process port packet r).1 = fib r ∧ startup (process port packet r).1 = startup r.
Proof.
  intros (Hc & Hf & Ht & Hl). unfold process, guard_st, lift, zoom, gets.
  cbv [mbind st_bind]. destruct (fail_if _ _); [| done..]. destruct (packet_encode _ _) as [bs | |]; [| done..].
  pose proof (entries_process port bs (pipeline r)) as He. destruct (process_packet port bs (pipeline r)) as [pl out]. cbn in *.
  assert (Hok : router_ok (set_pipeline pl r)). { unfold router_ok. cbn. by rewrite He. }
  destruct out as [[| [[hd pd] po] [|]] | |]; try done. destruct (packet_decode _ _ _); done.
Qed.
Lemma after_ok history (r : StaticP4Router P) : router_ok r →
  router_ok (after history r) ∧ fib (after history r) = fib r ∧ startup (after history r) = startup r.
Proof.
  revert r. induction history as [| [port packet] history IH]; intros r Hr; [done |]. cbn.
  destruct (process_ok port packet r Hr) as (Hr' & Ef & Es). destruct (IH _ Hr') as (Ho & E1 & E2).
  unfold after in *. by rewrite E1, E2.
Qed.

Lemma process_disposition ingress_port packet (r : StaticP4Router P) :
  router_ok r → 0 ≤ ingress_port < ROUTER_PORT_COUNT → wf_packet packet →
  (process ingress_port packet r).2 = Ok (disposition (fib r) (local_suffixes (rc_ports (startup r))) ingress_port packet).
Proof.
  intros (Hc & Hf & Ht & Hl) Hi Hwf. pose proof Hwf as [Hh Hlen]. unfold process.
  replace (ROUTER_PORT_COUNT <=? ingress_port) with false by lia. unfold guard_st, lift, zoom, gets. cbv [mbind st_bind fail_if].
  rewrite packet_encode_ok by done.
  pose proof (process_runs ingress_port (header_wire (pkt_header packet) GdpWireConfig_default ++ pkt_payload packet) (pipeline r)) as Hp.
  rewrite (program_routes (fib r) (local_suffixes (rc_ports (startup r)))) in Hp by done.
  destruct (process_packet _ _ _) as [pl out]. cbn in Hp |- *. subst out. unfold routed, disposition.
  pose proof (wf_hop_range _ Hh) as Hhop. rewrite ?Hc.
  assert (Hpunt : ∀ q, wf_packet q → own_prefix q = own_prefix packet → packet_decode (header_wire (pkt_header q) GdpWireConfig_default ++ pkt_payload q)
    GdpWireConfig_default (own_prefix packet) = Ok q). { intros q Hq <-. by apply decode_emitted. }
  destruct (hdr_addresses (pkt_header packet)) as [d s | d s pr] eqn:E.
  - destruct (fib_lookup (fib r) d) as [e |] eqn:Elook; [| done]. destruct (fe_egress e) as [port |] eqn:Ee.
    + destruct (Z.leb_spec (hdr_hop_limit (pkt_header packet)) 1); [done |]. cbn [fmap list_fmap emitted fst snd orb].
      rewrite Hpunt; [| apply wf_pkt_with_hop; [done | lia] | unfold own_prefix; cbn; by rewrite E]. cbn.
      assert (Hport : 0 ≤ port < ROUTER_PORT_COUNT).
      { pose proof (fib_lookup_spec (fib r) d) as Hs. rewrite Elook in Hs. destruct Hs as [He _]. destruct Hf as [_ Hf].
        rewrite Forall_forall in Hf. specialize (Hf e He). rewrite Ee in Hf. apply Hf. }
      rewrite Hc. replace (port =? ROUTER_PORT_COUNT) with false by lia. replace (ROUTER_PORT_COUNT <=? port) with false by lia.
      cbn [orb]. by destruct (port =? ingress_port).
    + cbn [fmap list_fmap emitted fst snd]. rewrite Hpunt by done. cbn. by rewrite Hc.
  - case_bool_decide; [| done]. cbn [fmap list_fmap emitted fst snd]. rewrite Hpunt by done. cbn. by rewrite Hc.
Qed.
End process.

(** ** What a configuration means *)

Definition host (a : Z) : GdpPrefix := mkPrefix a 64.
Definition own_addresses (ports : list RouterPortConfig) : list Z :=
  ports ≫= λ p, link_local p :: option_list (routed_address p).
Definition own_entries (ports : list RouterPortConfig) : list FibEntry :=
  (λ a, mkFib (host a) None RouterLocal) <$> own_addresses ports.
Definition connected_entries (ports : list RouterPortConfig) : list FibEntry :=
  omap (λ p, (λ x, mkFib x (Some (rp_id p)) ConnectedNet) <$> connected_prefix p) ports.
Definition static_entries (routes : list StaticRouteConfig) : list FibEntry :=
  (λ r, mkFib (st_prefix r) (Some (st_egress r)) StaticNet) <$> routes.
Definition bootstrap_entry : FibEntry := mkFib (host ROUTER_BOOTSTRAP_ADDRESS) None Bootstrap.
(** The forwarding table of a configuration *)
Definition fib_of (cfg : RouterStartupConfig) : list FibEntry :=
  bootstrap_entry :: own_entries (rc_ports cfg) ++ connected_entries (rc_ports cfg) ++ static_entries (rc_routes cfg).

(** A connected network of a single address *)
Definition connected_host (p : RouterPortConfig) : Prop :=
  match connected_prefix p with Some x => prefix_len x = 64 | None => False end.
#[export] Instance connected_host_dec p : Decision (connected_host p).
Proof. unfold connected_host. destruct (connected_prefix p); apply _. Defined.

(** The ranges of the Rust types *)
Definition wf_startup (cfg : RouterStartupConfig) : Prop :=
  Forall (λ p, u16 (rp_id p) ∧ u64 (link_local p) ∧
    match connected_prefix p with Some x => wf_prefix x | None => True end ∧
    match routed_address p with Some a => u64 a | None => True end) (rc_ports cfg) ∧
  Forall (λ r, wf_prefix (st_prefix r) ∧ u16 (st_egress r)) (rc_routes cfg).

(** A link-local address: its upper 16 bits *)
Definition in_link_local (a : Z) : Prop := (a / 2 ^ 48) mod 2 ^ 16 = 0xfe80.

(** A port has both a network and an address in it, outside the link-local
    addresses, or neither. *)
Definition network_ok (p : RouterPortConfig) : Prop :=
  match connected_prefix p, routed_address p with
  | None, None => True
  | Some x, Some a => ¬ in_link_local (network x) ∧ ¬ in_link_local a ∧ contains x a = true
  | _, _ => False
  end.

(** What a configuration must be like, without regard to the order of the checks;
    [validate] decides it ([validate_valid]). *)
Record valid_startup (cfg : RouterStartupConfig) : Prop := {
  vs_count : length (rc_ports cfg) = 2%nat;
  vs_ids i p : rc_ports cfg !! i = Some p → rp_id p = Z.of_nat i;
  vs_link_local p : p ∈ rc_ports cfg → in_link_local (link_local p);
  vs_own : NoDup (ROUTER_BOOTSTRAP_ADDRESS :: own_addresses (rc_ports cfg));
  vs_networks p : p ∈ rc_ports cfg → network_ok p;
  vs_prefixes : NoDup (fe_prefix <$> connected_entries (rc_ports cfg) ++ static_entries (rc_routes cfg));
  vs_routes r : r ∈ rc_routes cfg → st_egress r < ROUTER_PORT_COUNT ∧
    (prefix_len (st_prefix r) = 64 → network (st_prefix r) ∉ ROUTER_BOOTSTRAP_ADDRESS :: own_addresses (rc_ports cfg));
  vs_next_hops r hop : r ∈ rc_routes cfg → st_next_hop r = Some hop →
    in_link_local hop ∧ hop ∉ ROUTER_BOOTSTRAP_ADDRESS :: own_addresses (rc_ports cfg) }.

Lemma vs_connected cfg : valid_startup cfg → ∀ p x, p ∈ rc_ports cfg → connected_prefix p = Some x →
  ∃ a, routed_address p = Some a ∧ contains x a = true.
Proof.
  intros Hv p x Hp E. pose proof (vs_networks _ Hv p Hp) as H. unfold network_ok in H. rewrite E in H.
  destruct (routed_address p) as [a |]; [| done]. exists a. split; [done | apply H].
Qed.

Lemma is_link_local_true a : is_link_local a = true ↔ in_link_local a.
Proof. unfold is_link_local, in_link_local, as_u16. rewrite Z.shiftr_div_pow2 by lia. by rewrite Z.eqb_eq. Qed.
Lemma is_link_local_false a : is_link_local a = false ↔ ¬ in_link_local a.
Proof. rewrite <- is_link_local_true. by destruct (is_link_local a). Qed.

Lemma insert_new_Ok `{Countable A} (x : A) (s s' : gset A) : insert_new x s = Ok s' ↔ x ∉ s ∧ s' = {[x]} ∪ s.
Proof.
  unfold insert_new. case_bool_decide; cbn [fail_if].
  - split; [done | naive_solver].
  - rewrite bind_Ok_l. split; [intros E%Ok_inj; done | intros [_ ->]; done].
Qed.

Lemma fold_res_app {A B} (f : A → B → res B) l k b : fold_res f (l ++ k) b = b ← fold_res f l b; fold_res f k b.
Proof. revert b. induction l as [| a l IH]; intros b; [done |]. cbn. destruct (f a b); [apply IH | done..]. Qed.

(** What a port must be like among the ports and prefixes before it, and what it
    adds to them *)
Definition port_valid (i : nat) (port : RouterPortConfig) (owned : gset Z) (fwd : gset GdpPrefix) : Prop :=
  rp_id port = Z.of_nat i ∧ in_link_local (link_local port) ∧
  (∀ a, a ∈ own_addresses [port] → a ∉ owned ∧ a ≠ ROUTER_BOOTSTRAP_ADDRESS) ∧ NoDup (own_addresses [port]) ∧
  (∀ x, x ∈ fe_prefix <$> connected_entries [port] → x ∉ fwd) ∧ network_ok port.
Definition add_own (l : list RouterPortConfig) (owned : gset Z) : gset Z := list_to_set (own_addresses l) ∪ owned.
Definition add_networks (l : list RouterPortConfig) (fwd : gset GdpPrefix) : gset GdpPrefix :=
  list_to_set (fe_prefix <$> connected_entries l) ∪ fwd.

Lemma insert_new_fresh `{Countable A} (x : A) (s : gset A) : x ∉ s → insert_new x s = Ok ({[x]} ∪ s).
Proof. intros Hx. by apply insert_new_Ok. Qed.

Lemma validate_port_Ok i port owned fwd owned' fwd' :
  validate_port (i, port) (owned, fwd) = Ok (owned', fwd') →
  port_valid i port owned fwd ∧ owned' = add_own [port] owned ∧ fwd' = add_networks [port] fwd.
Proof.
  unfold validate_port. intros H. apply bind_Ok in H as ([] & [Hid _]%fail_if_Ok & H). apply bind_Ok in H as ([] & [Hll _]%fail_if_Ok & H).
  apply bind_Ok in H as (o1 & [Hn1 ->]%insert_new_Ok & H). apply orb_false_iff in Hll as [Hll Hb].
  apply negb_false_iff in Hid, Hll. apply Z.eqb_eq in Hid. apply Z.eqb_neq in Hb. apply is_link_local_true in Hll.
  unfold port_valid, network_ok, add_own, add_networks, own_addresses, connected_entries. cbn [mbind list_bind omap list_omap app].
  destruct (connected_prefix port) as [x |], (routed_address port) as [a |]; try done; cbn [option_list app fmap option_fmap list_fmap].
  - apply bind_Ok in H as ([] & [Hx _]%fail_if_Ok & H). apply bind_Ok in H as (o2 & [Hn2 ->]%insert_new_Ok & H).
    apply bind_Ok in H as (f2 & [Hn3 ->]%insert_new_Ok & H). apply Ok_inj in H as [= <- <-].
    apply orb_false_iff in Hx as [[Hx Hc]%orb_false_iff Ha]. apply negb_false_iff in Hc.
    assert (a ≠ ROUTER_BOOTSTRAP_ADDRESS) by (intros ->; done).
    apply is_link_local_false in Hx, Ha. split_and!; try done; clear Hx Ha Hc Hll Hid;
      [| apply NoDup_cons; split; [| apply NoDup_singleton] | ..]; set_solver.
  - apply Ok_inj in H as [= <- <-]. split_and!; try done; clear Hll Hid; [| apply NoDup_singleton | ..]; set_solver.
Qed.

Lemma validate_port_make i port owned fwd :
  port_valid i port owned fwd → validate_port (i, port) (owned, fwd) = Ok (add_own [port] owned, add_networks [port] fwd).
Proof.
  unfold port_valid, network_ok, add_own, add_networks, own_addresses, connected_entries. cbn [mbind list_bind omap list_omap app].
  intros (Hid & Hll%is_link_local_true & Hown & Hnd & Hfw & Hnet). unfold validate_port.
  destruct (Hown (link_local port)) as [Ho Hb]; [left |]. rewrite Hid, Z.eqb_refl, Hll, (proj2 (Z.eqb_neq _ _) Hb).
  cbn [negb orb fail_if]. rewrite !bind_Ok_l, insert_new_fresh, bind_Ok_l by done.
  destruct (connected_prefix port) as [x |], (routed_address port) as [a |]; try done; cbn [option_list app fmap option_fmap list_fmap] in *.
  - destruct Hnet as (Hx%is_link_local_false & Ha%is_link_local_false & Hc). rewrite Hx, Ha, Hc. cbn [negb orb fail_if].
    apply NoDup_cons in Hnd as [Hne _]. rewrite bind_Ok_l, !insert_new_fresh, !bind_Ok_l by set_solver.
    cbn [fe_prefix list_to_set foldr fmap list_fmap]. do 2 f_equal; set_solver.
  - do 2 f_equal; set_solver.
Qed.

Lemma own_cons p l : own_addresses (p :: l) = own_addresses [p] ++ own_addresses l.
Proof. unfold own_addresses. cbn. by rewrite app_nil_r. Qed.
Lemma connected_cons p l : connected_entries (p :: l) = connected_entries [p] ++ connected_entries l.
Proof. unfold connected_entries. cbn. by destruct (connected_prefix p). Qed.
Lemma connected_one_NoDup p : NoDup (fe_prefix <$> connected_entries [p]).
Proof. unfold connected_entries. cbn. destruct (connected_prefix p); cbn; repeat constructor. apply not_elem_of_nil. Qed.
Lemma imap_shift (l : list RouterPortConfig) i :
  imap ((λ n p, ((i + n)%nat, p)) ∘ S) l = imap (λ n p, ((S i + n)%nat, p)) l.
Proof. apply imap_ext. intros n p _. cbn. f_equal. lia. Qed.

(** The same for the ports of a configuration *)
Definition ports_valid (i : nat) (l : list RouterPortConfig) (owned : gset Z) (fwd : gset GdpPrefix) : Prop :=
  (∀ n p, l !! n = Some p → rp_id p = Z.of_nat (i + n)) ∧ (∀ p, p ∈ l → in_link_local (link_local p)) ∧
  (∀ a, a ∈ own_addresses l → a ∉ owned ∧ a ≠ ROUTER_BOOTSTRAP_ADDRESS) ∧ NoDup (own_addresses l) ∧
  (∀ x, x ∈ fe_prefix <$> connected_entries l → x ∉ fwd) ∧ NoDup (fe_prefix <$> connected_entries l) ∧
  (∀ p, p ∈ l → network_ok p).

Lemma ports_valid_cons i p l owned fwd :
  ports_valid i (p :: l) owned fwd ↔ port_valid i p owned fwd ∧ ports_valid (S i) l (add_own [p] owned) (add_networks [p] fwd).
Proof.
  unfold ports_valid, port_valid, add_own, add_networks. rewrite own_cons, connected_cons, fmap_app, !NoDup_app.
  setoid_rewrite elem_of_app. setoid_rewrite elem_of_cons. setoid_rewrite not_elem_of_union. setoid_rewrite not_elem_of_list_to_set.
  pose proof (connected_one_NoDup p) as Hp. split.
  - intros (Hid & Hll & Hown & (Hn1 & Hn2 & Hn3) & Hfw & (Hm1 & Hm2 & Hm3) & Hnet). split.
    + split; [rewrite <- (Nat.add_0_r i); by apply Hid |]. split_and!; [apply Hll; by left | | done | | apply Hnet; by left]; intros; set_solver.
    + split; [intros n q Hq; rewrite Nat.add_succ_comm; by apply Hid |].
      split_and!; [intros q Hq; apply Hll; by right | | done | | done | intros q Hq; apply Hnet; by right]; clear Hid Hll Hnet; intros; set_solver.
  - intros ((Hid & Hll & Hown & Hn & Hfw & Hnet) & (Hid' & Hll' & Hown' & Hn' & Hfw' & Hm & Hnet')). split.
    { intros [| n] q Hq; cbn in Hq; [apply Some_inj in Hq as <-; by rewrite Nat.add_0_r |]. rewrite <- Nat.add_succ_comm. by apply Hid'. }
    split_and!; try done; [intros q [-> | Hq]; [done | by apply Hll'] | .. | intros q [-> | Hq]; [done | by apply Hnet']];
      clear Hid Hll Hnet Hid' Hll' Hnet'; intros; set_solver.
Qed.

Lemma add_own_cons p l owned : add_own l (add_own [p] owned) = add_own (p :: l) owned.
Proof. unfold add_own. rewrite (own_cons p l), list_to_set_app_L. set_solver. Qed.
Lemma add_networks_cons p l fwd : add_networks l (add_networks [p] fwd) = add_networks (p :: l) fwd.
Proof. unfold add_networks. rewrite (connected_cons p l), fmap_app, list_to_set_app_L. set_solver. Qed.

Lemma validate_ports_Ok l i owned fwd owned' fwd' :
  fold_res validate_port (imap (λ n p, ((i + n)%nat, p)) l) (owned, fwd) = Ok (owned', fwd') ↔
  ports_valid i l owned fwd ∧ owned' = add_own l owned ∧ fwd' = add_networks l fwd.
Proof.
  revert i owned fwd. induction l as [| port l IH]; intros i owned fwd.
  { cbn [imap fold_res]. unfold ports_valid, add_own, add_networks. cbn. rewrite !union_empty_l_L. split.
    - intros [= <- <-]%Ok_inj. split; [| done]. split_and!; try constructor; intros; set_solver.
    - by intros (_ & -> & ->). }
  cbn [imap fold_res]. rewrite bind_Ok, Nat.add_0_r, imap_shift, ports_valid_cons, <- (add_own_cons port l), <- (add_networks_cons port l). split.
  - intros ([o1 f1] & (Hp & -> & ->)%validate_port_Ok & (Hl & -> & ->)%IH). done.
  - intros ((Hp & Hl) & -> & ->). eexists. split; [by apply validate_port_make |]. by apply IH.
Qed.

(** The routes *)
Definition route_valid (owned : gset Z) (r : StaticRouteConfig) : Prop :=
  st_egress r < ROUTER_PORT_COUNT ∧
  (∀ hop, st_next_hop r = Some hop → in_link_local hop ∧ hop ≠ ROUTER_BOOTSTRAP_ADDRESS ∧ hop ∉ owned) ∧
  (prefix_len (st_prefix r) = 64 → network (st_prefix r) ≠ ROUTER_BOOTSTRAP_ADDRESS ∧ network (st_prefix r) ∉ owned).

Lemma validate_route_Ok owned r fwd fwd' :
  validate_route owned r fwd = Ok fwd' ↔ route_valid owned r ∧ st_prefix r ∉ fwd ∧ fwd' = {[st_prefix r]} ∪ fwd.
Proof.
  unfold validate_route, route_valid.
  assert (Hhop : (match st_next_hop r with
    | Some next_hop => fail_if (negb (is_link_local next_hop) || (next_hop =? ROUTER_BOOTSTRAP_ADDRESS)
        || bool_decide (next_hop ∈ owned)) InvalidField
    | None => Ok tt end) = Ok tt ↔
    ∀ hop, st_next_hop r = Some hop → in_link_local hop ∧ hop ≠ ROUTER_BOOTSTRAP_ADDRESS ∧ hop ∉ owned).
  { destruct (st_next_hop r) as [hop |]; [| by split].
    rewrite fail_if_Ok, !orb_false_iff, negb_false_iff, is_link_local_true, Z.eqb_neq, bool_decide_eq_false. split.
    - by intros [[[??]?] _] ? [= <-].
    - intros H. by destruct (H hop eq_refl) as (? & ? & ?). }
  assert (Hhost : (if prefix_len (st_prefix r) =? 64 then
    fail_if ((network (st_prefix r) =? ROUTER_BOOTSTRAP_ADDRESS) || bool_decide (network (st_prefix r) ∈ owned)) InvalidField
    else Ok tt) = Ok tt ↔
    (prefix_len (st_prefix r) = 64 → network (st_prefix r) ≠ ROUTER_BOOTSTRAP_ADDRESS ∧ network (st_prefix r) ∉ owned)).
  { destruct (Z.eqb_spec (prefix_len (st_prefix r)) 64) as [E |]; [| by split; intros].
    rewrite fail_if_Ok, orb_false_iff, Z.eqb_neq, bool_decide_eq_false.
    split; [by intros [H _] | intros H; split; [by apply H | done]]. }
  rewrite <- Hhop, <- Hhost. clear Hhop Hhost. split.
  - intros ([] & [He _]%fail_if_Ok & H)%bind_Ok. apply bind_Ok in H as (f & [Hn ->]%insert_new_Ok & H).
    apply bind_Ok in H as ([] & H1 & H). apply bind_Ok in H as ([] & H2 & H). apply Ok_inj in H as <-.
    split_and!; [lia | done..].
  - intros ((He & H1 & H2) & Hn & ->). replace (ROUTER_PORT_COUNT <=? st_egress r) with false by lia.
    cbn [fail_if]. rewrite bind_Ok_l, insert_new_fresh, bind_Ok_l by done. rewrite H1, bind_Ok_l, H2, bind_Ok_l. done.
Qed.

Lemma validate_routes_Ok owned l fwd :
  (∃ fwd', fold_res (validate_route owned) l fwd = Ok fwd') ↔
  (∀ r, r ∈ l → route_valid owned r) ∧ NoDup (st_prefix <$> l) ∧ (∀ x, x ∈ st_prefix <$> l → x ∉ fwd).
Proof.
  revert fwd. induction l as [| r l IH]; intros fwd.
  { cbn. split; [| by eexists]. intros _. split_and!; [intros r Hr | constructor | intros x Hx]; set_solver. }
  cbn [fold_res fmap list_fmap]. setoid_rewrite bind_Ok. rewrite NoDup_cons. setoid_rewrite elem_of_cons. split.
  - intros (fwd' & f1 & (Hr & Hn & ->)%validate_route_Ok & H).
    destruct (proj1 (IH _) (ex_intro _ fwd' H)) as (Hl & Hnd & Hf). split_and!; set_solver.
  - intros (Hl & (Hx & Hnd) & Hf). destruct (proj2 (IH ({[st_prefix r]} ∪ fwd))) as [fwd' H'].
    { split_and!; set_solver. }
    exists fwd'. eexists. split; [| exact H']. apply validate_route_Ok. split; [apply Hl; by left |]. split; [apply Hf; by left | done].
Qed.

Lemma static_prefixes l : fe_prefix <$> static_entries l = st_prefix <$> l.
Proof. unfold static_entries. rewrite <- list_fmap_compose. by apply list_fmap_ext. Qed.

(** [validate] decides [valid_startup]. *)
Lemma validate_valid cfg : validate cfg = Ok tt ↔ valid_startup cfg.
Proof.
  assert (Hval : validate cfg = Ok tt ↔ length (rc_ports cfg) = 2%nat ∧ ports_valid 0 (rc_ports cfg) ∅ ∅ ∧
    ∃ f, fold_res (validate_route (add_own (rc_ports cfg) ∅)) (rc_routes cfg) (add_networks (rc_ports cfg) ∅) = Ok f).
  { unfold validate. split.
    - intros ([] & [Hl%negb_false_iff%Z.eqb_eq _]%fail_if_Ok & H)%bind_Ok. apply bind_Ok in H as ([owned fwd] & Hp & H).
      apply (validate_ports_Ok _ 0%nat) in Hp as (Hp & -> & ->). apply bind_Ok in H as (f & Hr & _).
      split; [unfold len, ROUTER_PORT_COUNT in Hl; lia |]. split; [done | by exists f].
    - intros (Hl & Hp & f & Hr). replace (len (rc_ports cfg) =? ROUTER_PORT_COUNT) with true
        by (unfold len, ROUTER_PORT_COUNT; lia). cbn [negb fail_if]. rewrite bind_Ok_l.
      change (imap pair (rc_ports cfg)) with (imap (λ n p, ((0 + n)%nat, p)) (rc_ports cfg)).
      rewrite (proj2 (validate_ports_Ok _ 0%nat _ _ _ _) (conj Hp (conj eq_refl eq_refl))), bind_Ok_l. by rewrite Hr. }
  rewrite Hval, validate_routes_Ok. clear Hval. unfold ports_valid, add_own, add_networks, route_valid.
  rewrite !union_empty_r_L. setoid_rewrite not_elem_of_list_to_set. split.
  - intros (Hl & (Hid & Hll & Hown & Hnd & _ & Hnf & Hnet) & Hr & Hndr & Hrf).
    assert (HB : ROUTER_BOOTSTRAP_ADDRESS ∉ own_addresses (rc_ports cfg)) by (intros Hb; by destruct (Hown _ Hb)).
    constructor; try done.
    + by apply NoDup_cons.
    + rewrite fmap_app, static_prefixes. apply NoDup_app. split_and!; try done. intros x Hx Hx'. by apply (Hrf x Hx').
    + intros r Hin. destruct (Hr r Hin) as (He & _ & Hh). split; [done |]. intros E [Hb | Hb]%elem_of_cons; naive_solver.
    + intros r hop Hin E. destruct (Hr r Hin) as (_ & Hh & _). destruct (Hh hop E) as (H1 & H2 & H3).
      split; [done |]. by intros [Hb | Hb]%elem_of_cons.
  - intros Hv. pose proof (vs_own _ Hv) as [HB Hnd]%NoDup_cons. pose proof (vs_prefixes _ Hv) as Hp.
    rewrite fmap_app, static_prefixes, NoDup_app in Hp. destruct Hp as (Hp1 & Hp2 & Hp3).
    split; [apply Hv |]. split; [split_and!; try done; try apply Hv |].
    + intros a Ha. split; [set_solver |]. by intros ->.
    + split_and!; [| done | intros x Hx Hx'; by apply (Hp2 x Hx')]. intros r Hr. destruct (vs_routes _ Hv r Hr) as [He Hh].
      split; [done |]. split.
      * intros hop E. destruct (vs_next_hops _ Hv r hop Hr E) as [H1 H2]. rewrite not_elem_of_cons in H2. tauto.
      * intros E. specialize (Hh E). by rewrite not_elem_of_cons in Hh.
Qed.

(** The only error is [InvalidField]. *)
Definition field_error {A} (m : res A) : Prop := m = Err InvalidField ∨ ∃ a, m = Ok a.
Lemma field_bind {A B} (f : A → res B) m : field_error m → (∀ a, field_error (f a)) → field_error (m ≫= f).
Proof. intros [-> | [a ->]] Hf; [by left | apply Hf]. Qed.
Lemma field_fail_if b : field_error (fail_if b InvalidField).
Proof. destruct b; [by left | right; by eexists]. Qed.
Lemma field_ok {A} (a : A) : field_error (Ok a).
Proof. right. by eexists. Qed.
Lemma field_err {A} : field_error (@Err A InvalidField).
Proof. by left. Qed.
Lemma field_insert `{Countable A} (x : A) s : field_error (insert_new x s).
Proof. apply field_bind; [apply field_fail_if | intros _; apply field_ok]. Qed.
Lemma field_fold {A B} (f : A → B → res B) l b : (∀ a b, field_error (f a b)) → field_error (fold_res f l b).
Proof. intros Hf. revert b. induction l as [| a l IH]; intros b; [apply field_ok |]. by apply field_bind. Qed.
Create HintDb field discriminated.
#[export] Hint Resolve field_bind field_fail_if field_ok field_err field_insert field_fold : field.
#[export] Hint Extern 2 (∀ _, field_error _) => intros ? : field.

Lemma validate_field cfg : field_error (validate cfg).
Proof.
  apply field_bind; [auto with field | intros _]. apply field_bind.
  - apply field_fold. intros [i p] [o f]. unfold validate_port.
    repeat (apply field_bind; [auto with field | intros ?]).
    destruct (connected_prefix p), (routed_address p); auto 6 with field.
  - intros [o f]. apply field_bind; [| auto with field]. apply field_fold. intros r s. unfold validate_route.
    repeat (apply field_bind; [repeat case_match; auto with field | intros ?]). auto with field.
Qed.

(** ** Compiling *)

Lemma prefix_host a : u64 a → prefix_new a 64 = Some (host a).
Proof.
  intros Ha. unfold prefix_new. cbn [Z.ltb Z.compare Pos.compare Pos.compare_cont]. unfold host. f_equal. f_equal.
  rewrite land_route_mask by (done || lia). rewrite Z.sub_diag, Z.pow_0_r, Z.div_1_r. lia.
Qed.
Lemma wf_host a : u64 a → wf_prefix (host a).
Proof. intros Ha. exists a, 64. split; [done |]. split; [lia |]. by apply prefix_host. Qed.

Section compile.
Context `{EntryChoice} {P : Type} `{!Pipeline P, !Runs P router_program}.

(** The three locals agree. *)
Definition compiled (fib : list FibEntry) (locals : list (Z * Z)) (st : program (P := P)) : Prop :=
  st.1.2 = fib ∧ tables_for fib locals (entries st.1.1) ∧ st.2 = list_to_set (fe_prefix <$> fib).

Lemma entries_program_global pl p action params :
  entries (program_global pl p action params) = entries pl ++ [mkEntry (table_of p) action (key_of p) params].
Proof. unfold program_global, table_of, key_of. destruct (32 <? prefix_len p); by rewrite entries_add. Qed.
Lemma entries_local_punt (pl : P) port a :
  entries (program_local_punt pl port a ROUTER_PORT_COUNT) = entries pl ++ [local_entry ROUTER_PORT_COUNT (port, a)].
Proof. unfold program_local_punt. by rewrite entries_add. Qed.

Lemma tables_global fib locals es e : tables_for fib locals es →
  tables_for (fib ++ [e]) locals (es ++ [global_entry ROUTER_PORT_COUNT e]).
Proof. unfold tables_for. intros ->. rewrite fmap_app. cbn. solve_Permutation. Qed.
Lemma tables_local fib locals es ps : tables_for fib locals es →
  tables_for fib (locals ++ [ps]) (es ++ [local_entry ROUTER_PORT_COUNT ps]).
Proof. unfold tables_for. intros ->. rewrite fmap_app. cbn. by rewrite (assoc_L (++)). Qed.

Lemma programmed_snoc (fib : list FibEntry) e :
  {[fe_prefix e]} ∪ list_to_set (fe_prefix <$> fib) =@{gset GdpPrefix} list_to_set (fe_prefix <$> fib ++ [e]).
Proof. rewrite fmap_app, list_to_set_app_L. cbn. by rewrite union_empty_r_L, (comm_L (∪)). Qed.

Lemma compile_own_new fib locals st a :
  compiled fib locals st → u64 a → host a ∉ fe_prefix <$> fib →
  ∃ st', compile_own ROUTER_PORT_COUNT a st = Ok st' ∧ compiled (fib ++ [mkFib (host a) None RouterLocal]) locals st'.
Proof.
  intros (Ef & Ht & Ep) Ha Hn. destruct st as [[pl f] prog]. cbn [fst snd] in *. subst f prog. unfold compile_own.
  rewrite prefix_host by done. cbn [ok_or]. rewrite bind_Ok_l, bool_decide_eq_false_2 by (by rewrite elem_of_list_to_set).
  eexists. split; [done |]. split; [done |]. cbn [fst snd]. split; [| apply (programmed_snoc fib (mkFib (host a) None RouterLocal))].
  rewrite entries_program_global. by apply (tables_global fib locals _ (mkFib (host a) None RouterLocal)).
Qed.

Lemma compile_owns l fib locals st :
  compiled fib locals st → Forall u64 l → NoDup (host <$> l) → (∀ a, a ∈ l → host a ∉ fe_prefix <$> fib) →
  ∃ st', fold_res (compile_own ROUTER_PORT_COUNT) l st = Ok st' ∧
    compiled (fib ++ ((λ a, mkFib (host a) None RouterLocal) <$> l)) locals st'.
Proof.
  revert fib st. induction l as [| a l IH]; intros fib st Hst Hu Hnd Hn.
  { exists st. cbn. by rewrite app_nil_r. }
  apply Forall_cons in Hu as [Ha Hu]. cbn in Hnd. apply NoDup_cons in Hnd as [Hna Hnd].
  destruct (compile_own_new fib locals st a Hst Ha) as (st1 & E & Hst1); [apply Hn; left |].
  destruct (IH _ _ Hst1 Hu Hnd) as (st2 & E2 & Hst2).
  { intros b Hb Hx. rewrite fmap_app in Hx. apply elem_of_app in Hx as [Hx | Hx]; [by apply (Hn b); [right |] |].
    apply list_elem_of_singleton in Hx. cbn in Hx. apply Hna. rewrite <- Hx. by apply list_elem_of_fmap_2. }
  exists st2. cbn [fold_res]. rewrite E, bind_Ok_l. split; [done |]. cbn [fmap list_fmap]. by rewrite <- app_assoc in Hst2.
Qed.

Definition wf_port (p : RouterPortConfig) : Prop :=
  u64 (link_local p) ∧ match routed_address p with Some a => u64 a | None => True end.

Lemma own_wf l : Forall wf_port l → Forall u64 (own_addresses l).
Proof.
  intros Hl. apply Forall_forall. intros a Ha. unfold own_addresses in Ha. apply list_elem_of_bind in Ha as (p & Ha & Hp).
  rewrite Forall_forall in Hl. destruct (Hl p Hp) as [H1 H2]. apply elem_of_cons in Ha as [-> | Ha]; [done |].
  destruct (routed_address p); cbn in Ha; [by apply list_elem_of_singleton in Ha as -> | by apply not_elem_of_nil in Ha].
Qed.

Lemma compile_port_new p fib locals st :
  compiled fib locals st → wf_port p → NoDup (host <$> own_addresses [p]) →
  (∀ a, a ∈ own_addresses [p] → host a ∉ fe_prefix <$> fib) →
  ∃ st', compile_port ROUTER_PORT_COUNT p st = Ok st' ∧ compiled (fib ++ own_entries [p]) (locals ++ local_suffixes [p]) st'.
Proof.
  intros Hst Hp Hnd Hn. destruct (compile_owns (own_addresses [p]) fib locals st Hst) as ([[pl f] prog] & E & Hf & Ht & Hpr); [| done | done |].
  { apply own_wf. by apply Forall_singleton. }
  unfold compile_port. assert (Eo : own_addresses [p] = link_local p :: option_list (routed_address p)).
  { unfold own_addresses. cbn. by rewrite app_nil_r. }
  rewrite <- Eo, E, bind_Ok_l. cbn iota. eexists. split; [done |]. cbn [fst snd] in Hf, Ht, Hpr.
  split; [done |]. split; [| done]. cbn [fst]. unfold own_entries, local_suffixes. cbn [mbind list_bind].
  rewrite app_nil_r. pose proof (tables_local _ _ _ (rp_id p, as_u16 (link_local p)) Ht) as H1.
  destruct (routed_address p) as [a |]; cbn [option_list fmap list_fmap].
  - pose proof (tables_local _ _ _ (rp_id p, as_u16 a) H1) as H2. rewrite !entries_local_punt. by rewrite <- app_assoc in H2.
  - by rewrite entries_local_punt.
Qed.

Lemma compile_ports l fib locals st :
  compiled fib locals st → Forall wf_port l → NoDup (own_addresses l) →
  (∀ a, a ∈ own_addresses l → host a ∉ fe_prefix <$> fib) →
  ∃ st', fold_res (compile_port ROUTER_PORT_COUNT) l st = Ok st' ∧
    compiled (fib ++ own_entries l) (locals ++ local_suffixes l) st'.
Proof.
  revert fib locals st. induction l as [| p l IH]; intros fib locals st Hst Hw Hnd Hn.
  { exists st. cbn. by rewrite !app_nil_r. }
  assert (Eo : own_addresses (p :: l) = own_addresses [p] ++ own_addresses l).
  { unfold own_addresses. cbn. by rewrite app_nil_r. }
  assert (El : local_suffixes (p :: l) = local_suffixes [p] ++ local_suffixes l).
  { unfold local_suffixes. cbn. by rewrite app_nil_r. }
  apply Forall_cons in Hw as [Hp Hw]. rewrite Eo in Hnd, Hn. apply NoDup_app in Hnd as (Hnd1 & Hdis & Hnd2).
  assert (Hinj : Inj (=) (=) host) by (intros a b [=]; done).
  destruct (compile_port_new p fib locals st Hst Hp) as (st1 & E & Hst1).
  { by apply NoDup_fmap_2. } { intros a Ha. apply Hn. apply elem_of_app. by left. }
  destruct (IH _ _ _ Hst1 Hw Hnd2) as (st2 & E2 & Hst2).
  { intros a Ha Hx. rewrite fmap_app in Hx. apply elem_of_app in Hx as [Hx | Hx].
    - apply (Hn a); [apply elem_of_app; by right | done].
    - unfold own_entries in Hx. rewrite <- list_fmap_compose in Hx. apply list_elem_of_fmap in Hx as (b & Hb & Hb').
      apply Hinj in Hb as ->. by apply (Hdis b). }
  exists st2. cbn [fold_res]. rewrite E, bind_Ok_l. split; [done |].
  unfold own_entries in *. rewrite Eo, El, fmap_app, !(assoc_L (++)). done.
Qed.

(** The two loops that program prefixes leading out of a port *)
Definition emit_out (e : FibEntry) (st : program (P := P)) : res (program (P := P)) :=
  match fe_egress e with Some port => compile_out (fe_prefix e) port (fe_origin e) st | None => Ok st end.
Lemma fold_connected l (st : program (P := P)) : fold_res compile_connected l st = fold_res emit_out (connected_entries l) st.
Proof.
  revert st. induction l as [| p l IH]; intros st; [done |].
  assert (Ec : connected_entries (p :: l) = connected_entries [p] ++ connected_entries l).
  { unfold connected_entries. cbn. by destruct (connected_prefix p). }
  rewrite Ec, fold_res_app. cbn [fold_res]. replace (compile_connected p st) with (fold_res emit_out (connected_entries [p]) st).
  - destruct (fold_res emit_out (connected_entries [p]) st); [apply IH | done..].
  - unfold compile_connected, connected_entries. cbn. destruct (connected_prefix p); [| done].
    cbn. unfold emit_out. cbn. by destruct (compile_out _ _ _ _).
Qed.
Lemma fold_static l (st : program (P := P)) : fold_res compile_static l st = fold_res emit_out (static_entries l) st.
Proof.
  revert st. induction l as [| r l IH]; intros st; [done |]. cbn [fold_res static_entries fmap list_fmap].
  change (emit_out (mkFib (st_prefix r) (Some (st_egress r)) StaticNet) st) with (compile_static r st).
  destruct (compile_static r st); [apply IH | done..].
Qed.

Lemma emit_out_new e fib locals st :
  compiled fib locals st → fe_egress e ≠ None → fe_prefix e ∉ fe_prefix <$> fib →
  ∃ st', emit_out e st = Ok st' ∧ compiled (fib ++ [e]) locals st'.
Proof.
  intros Hst He Hn. destruct st as [[pl f] prog]. destruct Hst as (Ef & Ht & Ep). cbn [fst snd] in *. subst f prog.
  unfold emit_out. destruct (fe_egress e) as [port |] eqn:Ee; [| done]. unfold compile_out.
  assert (En : insert_new (fe_prefix e) (list_to_set (fe_prefix <$> fib) : gset GdpPrefix) =
    Ok ({[fe_prefix e]} ∪ list_to_set (fe_prefix <$> fib))).
  { apply insert_new_Ok. split; [by rewrite elem_of_list_to_set | done]. }
  rewrite En, bind_Ok_l.
  assert (Emk : mkFib (fe_prefix e) (Some port) (fe_origin e) = e) by (rewrite <- Ee; by destruct e).
  rewrite Emk. eexists. split; [done |].
  split; [done |]. cbn [fst snd]. split; [| apply programmed_snoc]. rewrite entries_program_global.
  replace (mkEntry (table_of (fe_prefix e)) "forward" (key_of (fe_prefix e)) (to_le 2 port)) with (global_entry ROUTER_PORT_COUNT e)
    by (unfold global_entry; by rewrite Ee).
  by apply tables_global.
Qed.
Lemma compile_outs l fib locals st :
  compiled fib locals st → Forall (λ e, fe_egress e ≠ None) l → NoDup (fe_prefix <$> fib ++ l) →
  ∃ st', fold_res emit_out l st = Ok st' ∧ compiled (fib ++ l) locals st'.
Proof.
  revert fib st. induction l as [| e l IH]; intros fib st Hst Hl Hnd.
  { exists st. cbn. by rewrite app_nil_r. }
  apply Forall_cons in Hl as [He Hl]. destruct (emit_out_new e fib locals st Hst He) as (st1 & E & Hst1).
  { rewrite fmap_app in Hnd. apply NoDup_app in Hnd as (_ & Hd & _). intros Hx. apply (Hd _ Hx). cbn. left. }
  rewrite (cons_middle e fib l), (assoc_L (++)) in Hnd |- *. cbn [fold_res]. rewrite E, bind_Ok_l. by apply IH.
Qed.

Lemma emit_out_field e (st : program (P := P)) : field_error (emit_out e st).
Proof.
  unfold emit_out. destruct (fe_egress e); [| apply field_ok]. destruct st as [[pl f] prog].
  unfold compile_out. apply field_bind; [apply field_insert | intros ?; apply field_ok].
Qed.
Lemma compile_outs_fresh l (st st' : program (P := P)) :
  fold_res emit_out l st = Ok st' → Forall (λ e, fe_egress e ≠ None) l → ∀ e, e ∈ l → fe_prefix e ∉ st.2.
Proof.
  revert st. induction l as [| e l IH]; intros st Hf Hl x Hx; [by apply not_elem_of_nil in Hx |].
  apply Forall_cons in Hl as [He Hl]. cbn [fold_res] in Hf. apply bind_Ok in Hf as (st1 & E & Hf).
  unfold emit_out, compile_out in E. destruct (fe_egress e) as [port |]; [| done]. destruct st as [[pl f] prog]. cbn [snd].
  apply bind_Ok in E as (prog' & [Hn ->]%insert_new_Ok & E). apply Ok_inj in E as <-.
  apply elem_of_cons in Hx as [-> | Hx]; [done |]. specialize (IH _ Hf Hl x Hx). cbn [snd] in IH.
  intros Hy. apply IH. apply elem_of_union. by right.
Qed.

(** The forwarding table of a configuration without /64 networks is free of repetitions. *)
Lemma host_prefixes cfg x : x ∈ fe_prefix <$> bootstrap_entry :: own_entries (rc_ports cfg) ↔
  prefix_len x = 64 ∧ network x ∈ ROUTER_BOOTSTRAP_ADDRESS :: own_addresses (rc_ports cfg).
Proof.
  unfold own_entries. cbn [fmap list_fmap]. rewrite <- list_fmap_compose, !elem_of_cons, list_elem_of_fmap. split.
  - intros [-> | (a & -> & Ha)]; (split; [done |]); [by left | by right].
  - destruct x as [a n]. cbn. intros [-> [-> | Ha]]; [by left | right; by exists a].
Qed.
Lemma fib_of_NoDup cfg : valid_startup cfg → Forall (λ p, ¬ connected_host p) (rc_ports cfg) → NoDup (fe_prefix <$> fib_of cfg).
Proof.
  intros Hv Hc. unfold fib_of. rewrite app_comm_cons, fmap_app. assert (Inj (=) (=) host) by (intros a b [=]; done).
  apply NoDup_app. split; [| split; [| apply (vs_prefixes _ Hv)]].
  - unfold own_entries. cbn [fmap list_fmap]. rewrite <- list_fmap_compose.
    apply (NoDup_fmap_2 host _ (vs_own _ Hv)).
  - intros x [El Hx]%host_prefixes Hx2. rewrite fmap_app in Hx2. apply elem_of_app in Hx2 as [Hx2 | Hx2].
    + apply list_elem_of_fmap in Hx2 as (e & -> & He). apply list_elem_of_omap in He as (p & Hp & He).
      rewrite Forall_forall in Hc. apply (Hc p Hp). unfold connected_host. destruct (connected_prefix p); [| done].
      by apply Some_inj in He as <-.
    + rewrite static_prefixes in Hx2. apply list_elem_of_fmap in Hx2 as (r & -> & Hr). by apply (vs_routes _ Hv r Hr).
Qed.

Lemma out_entries cfg : Forall (λ e, fe_egress e ≠ None) (connected_entries (rc_ports cfg)) ∧
  Forall (λ e, fe_egress e ≠ None) (static_entries (rc_routes cfg)).
Proof.
  split; apply Forall_forall; intros e He.
  - apply list_elem_of_omap in He as (p & _ & He). destruct (connected_prefix p); [| done]. by apply Some_inj in He as <-.
  - by apply list_elem_of_fmap in He as (r & -> & _).
Qed.

Lemma wf_startup_ports cfg : wf_startup cfg → Forall wf_port (rc_ports cfg).
Proof. intros [Hp _]. eapply Forall_impl; [exact Hp |]. intros p (_ & ? & _ & ?). done. Qed.

(** Up to the connected networks compiling cannot fail. *)
Lemma compile_own_part cfg : wf_startup cfg → valid_startup cfg →
  ∃ st, fold_res (compile_port ROUTER_PORT_COUNT) (rc_ports cfg)
    (program_global (pipeline_new (ROUTER_PORT_COUNT + 1)) (host ROUTER_BOOTSTRAP_ADDRESS) "punt" (to_le 2 ROUTER_PORT_COUNT),
     [bootstrap_entry], {[host ROUTER_BOOTSTRAP_ADDRESS]}) = Ok st ∧
    compiled (bootstrap_entry :: own_entries (rc_ports cfg)) (local_suffixes (rc_ports cfg)) st.
Proof.
  intros Hw Hv. pose proof (vs_own _ Hv) as [Hb Hnd]%NoDup_cons.
  apply (compile_ports _ [bootstrap_entry] []); [| by apply wf_startup_ports | done |].
  - split; [done |]. cbn [fst snd]. split; [| cbn; by rewrite union_empty_r_L].
    rewrite entries_program_global, entries_new. unfold tables_for. reflexivity.
  - intros a Ha Hx. cbn in Hx. apply list_elem_of_singleton in Hx. injection Hx as ->. done.
Qed.
End compile.

Section router.
Context `{EntryChoice} {P : Type} `{!Pipeline P, !Runs P router_program}.

Lemma router_new_spec cfg : wf_startup cfg →
  if decide (validate cfg = Ok tt ∧ Forall (λ p, ¬ connected_host p) (rc_ports cfg))
  then ∃ pl : P, router_new cfg = Ok (mkRouter pl ROUTER_PORT_COUNT cfg (fib_of cfg)) ∧
         tables_for (fib_of cfg) (local_suffixes (rc_ports cfg)) (entries pl)
  else router_new (P := P) cfg = Err InvalidField.
Proof.
  intros Hw. unfold router_new. destruct (validate_field cfg) as [E | [[] E]]; rewrite E.
  { by rewrite decide_False by naive_solver. }
  rewrite bind_Ok_l. pose proof (proj1 (validate_valid cfg) E) as Hv. unfold compile_startup_fib. cbn [cpu_port startup].
  change (prefix_new ROUTER_BOOTSTRAP_ADDRESS 64) with (Some (host ROUTER_BOOTSTRAP_ADDRESS)). cbn [ok_or]. rewrite bind_Ok_l.
  fold bootstrap_entry. destruct (compile_own_part cfg Hw Hv) as (st & -> & Hst). rewrite bind_Ok_l, fold_connected.
  destruct (out_entries cfg) as [Ho1 Ho2]. case_decide as Hd.
  - destruct Hd as [_ Hc]. pose proof (fib_of_NoDup cfg Hv Hc) as Hnd. unfold fib_of in Hnd. rewrite app_comm_cons in Hnd.
    destruct (compile_outs (connected_entries (rc_ports cfg)) _ _ st Hst Ho1) as (st2 & -> & Hst2).
    { rewrite (assoc_L (++)), fmap_app in Hnd. by apply NoDup_app in Hnd as [? _]. }
    rewrite bind_Ok_l, fold_static.
    destruct (compile_outs (static_entries (rc_routes cfg)) _ _ st2 Hst2 Ho2) as ([[pl f] prog] & -> & Ef & Ht & _).
    { by rewrite (assoc_L (++)) in Hnd. }
    rewrite bind_Ok_l. cbn [fst snd] in Ef, Ht. subst f. exists pl. unfold fib_of.
    rewrite app_comm_cons, (assoc_L (++)). done.
  - assert (Hx : ∃ p x, p ∈ rc_ports cfg ∧ connected_prefix p = Some x ∧ prefix_len x = 64).
    { destruct (decide (Exists connected_host (rc_ports cfg))) as [He | He].
      - apply Exists_exists in He as (p & Hp & He). unfold connected_host in He.
        destruct (connected_prefix p) as [x |] eqn:Ex; [| done]. by exists p, x.
      - destruct Hd. split; [done |]. by apply Forall_Exists_neg. }
    destruct Hx as (p & x & Hp & Ex & Hl). destruct (field_fold emit_out (connected_entries (rc_ports cfg)) st emit_out_field) as [-> | [st' Est]]; [done |].
    exfalso. eapply (compile_outs_fresh _ _ _ Est Ho1 (mkFib x (Some (rp_id p)) ConnectedNet)).
    { apply list_elem_of_omap. exists p. split; [done |]. by rewrite Ex. }
    destruct Hst as (_ & _ & ->). apply elem_of_list_to_set, host_prefixes. split; [done |]. right.
    destruct (vs_connected _ Hv p x Hp Ex) as (a & Ea & Hc). unfold contains in Hc. rewrite Hl in Hc.
    apply Z.eqb_eq in Hc. apply list_elem_of_bind. exists p. split; [| done]. rewrite Ea. right. cbn.
    apply list_elem_of_singleton. rewrite <- Hc. destruct Hw as [Hw _]. rewrite Forall_forall in Hw. specialize (Hw p Hp).
    rewrite Ea in Hw. destruct Hw as (_ & _ & _ & Ha). rewrite land_route_mask by (done || lia).
    by rewrite Z.sub_diag, Z.pow_0_r, Z.div_1_r, Z.mul_1_r.
Qed.

Lemma port_ids cfg p : valid_startup cfg → p ∈ rc_ports cfg → 0 ≤ rp_id p < ROUTER_PORT_COUNT.
Proof.
  intros Hv Hp. apply list_elem_of_lookup in Hp as [i Hi]. rewrite (vs_ids _ Hv i p Hi).
  apply lookup_lt_Some in Hi. rewrite (vs_count _ Hv) in Hi. unfold ROUTER_PORT_COUNT. lia.
Qed.

Lemma fib_of_wf cfg : wf_startup cfg → valid_startup cfg → Forall (λ p, ¬ connected_host p) (rc_ports cfg) → wf_fib (fib_of cfg).
Proof.
  intros Hw Hv Hc. split; [by apply fib_of_NoDup |]. destruct Hw as [Hwp Hwr]. pose proof (own_wf _ (wf_startup_ports cfg (conj Hwp Hwr))) as Ho.
  rewrite Forall_forall in Hwp. rewrite Forall_forall in Hwr. rewrite Forall_forall in Ho. unfold fib_of. apply Forall_cons. split.
  { split; [by apply wf_host | done]. }
  apply Forall_app. split; [| apply Forall_app; split]; apply Forall_forall; intros e He.
  - apply list_elem_of_fmap in He as (a & -> & Ha). split; [apply wf_host, Ho, Ha | done].
  - apply list_elem_of_omap in He as (p & Hp & He). destruct (Hwp p Hp) as (_ & _ & Hx & _).
    destruct (connected_prefix p) as [x |]; [| done]. apply Some_inj in He as <-. split; [done |]. by apply (port_ids cfg).
  - apply list_elem_of_fmap in He as (r & -> & Hr). destruct (Hwr r Hr) as [Hx Hu]. split; [done |]. cbn.
    destruct (vs_routes _ Hv r Hr) as [Hlt _]. unfold u16 in Hu. lia.
Qed.

Lemma suffixes_ok cfg : valid_startup cfg →
  Forall (λ ps : Z * Z, 0 ≤ ps.1 < ROUTER_PORT_COUNT ∧ u16 ps.2) (local_suffixes (rc_ports cfg)).
Proof.
  intros Hv. apply Forall_forall. intros ps Hps. apply list_elem_of_bind in Hps as (p & Hps & Hp).
  apply list_elem_of_fmap in Hps as (a & -> & _). cbn. split; [by apply (port_ids cfg) |].
  unfold u16, as_u16. apply Z.mod_pos_bound. lia.
Qed.

Lemma router_new_ok cfg (r : StaticP4Router P) : wf_startup cfg → router_new cfg = Ok r →
  router_ok r ∧ startup r = cfg ∧ fib r = fib_of cfg.
Proof.
  intros Hw Hr. pose proof (router_new_spec cfg Hw) as Hs. case_decide as Hd; [| congruence].
  destruct Hd as [Hv Hc]. destruct Hs as (pl & E & Ht). rewrite Hr in E. apply Ok_inj in E as ->. cbn.
  apply validate_valid in Hv. split; [| done]. split; [done |]. split; [by apply fib_of_wf |]. split; [done | by apply suffixes_ok].
Qed.
End router.

(** C30: whatever table entries the generated pipeline prefers among equally
    long matches, a router built from a configuration processes every packet by
    the longest prefix of its forwarding table, whatever it processed before:
    no entry or a hop limit that is spent drops it, the router's own address
    hands it over unchanged, a port other than the one it came in on forwards
    it with one hop less; Local packets reach the router by the suffixes of
    the ingress port's own addresses. *)
Theorem static_router_longest_prefix `{EntryChoice} {P : Type} `{!Pipeline P, !Runs P router_program}
    cfg (r : StaticP4Router P) history ingress_port packet :
  wf_startup cfg → router_new cfg = Ok r → 0 ≤ ingress_port < ROUTER_PORT_COUNT → wf_packet packet →
  (process ingress_port packet (after history r)).2 =
  Ok (disposition (fib_of cfg) (local_suffixes (rc_ports cfg)) ingress_port packet).
Proof.
  intros Hw Hr Hi Hp. destruct (router_new_ok cfg r Hw Hr) as (Hok & Es & Ef).
  destruct (after_ok history r Hok) as (Hok' & Ef' & Es'). rewrite process_disposition by done. by rewrite Ef', Es', Ef, Es.
Qed.

(** C31: a router is built exactly from the valid configurations that connect no
    network of a single address: two ports numbered in order, each with a
    link-local address and with both a network outside the link-local
    addresses and an address in it or neither, no address twice or equal to the
    bootstrap address, no prefix twice, and routes that leave by a port of the
    router, have a foreign link-local next hop if any, and are not for an address of
    the router itself. Its forwarding table then is the bootstrap address, the
    router's own addresses, the connected networks and the static routes, each
    once; every other configuration is refused with [InvalidField]. *)
Theorem static_router_startup `{EntryChoice} {P : Type} `{!Pipeline P, !Runs P router_program} cfg :
  wf_startup cfg →
  (valid_startup cfg → Forall (λ p, ¬ connected_host p) (rc_ports cfg) →
   ∃ r : StaticP4Router P, router_new cfg = Ok r ∧ fib r = fib_of cfg ∧ startup r = cfg ∧ NoDup (fe_prefix <$> fib r)) ∧
  (¬ (valid_startup cfg ∧ Forall (λ p, ¬ connected_host p) (rc_ports cfg)) → router_new (P := P) cfg = Err InvalidField).
Proof.
  intros Hw. pose proof (router_new_spec cfg Hw) as Hs. rewrite <- validate_valid. split.
  - intros Hv Hc. rewrite decide_True in Hs by done. destruct Hs as (pl & E & _). eexists. split; [exact E |].
    split; [done |]. split; [done |]. apply fib_of_NoDup; [by apply validate_valid | done].
  - intros Hn. by rewrite decide_False in Hs.
Qed.

(** Two ports, each with a network of its own, and a default route *)
Definition demo_startup : RouterStartupConfig := mkStartup
  [with_connected_network (mkPrefix 0x2001000000000000 16) 0x2001000000000001 (port_new 0 0xfe80000000000001);
   with_connected_network (mkPrefix 0x2002000000000000 40) 0x2002000000000001 (port_new 1 0xfe80000000000002)]
  [via default_route 0 0xfe80000000000009].
Definition demo_packet : GdpPacket :=
  mkPacket (header_global Gts Tiny3 64 0x2001000000000007 0x2002000000000009) [1; 2; 3].

Lemma wf_demo_startup : wf_startup demo_startup.
Proof.
  assert (Hp : ∀ a n, u64 a → 0 ≤ n ≤ 64 → Z.land a (route_prefix_mask n) = a → wf_prefix (mkPrefix a n)).
  { intros a n Ha Hn E. exists a, n. split; [done |]. split; [lia |]. unfold prefix_new.
    replace (64 <? n) with false by lia. by rewrite E. }
  split; cbn; repeat (apply Forall_cons; split); try apply Forall_nil; done || (repeat match goal with |- _ ∧ _ => split end);
    try (unfold u16, u64; cbn; lia); apply Hp; done || (unfold u64; lia).
Qed.

#[local] Existing Instance first_entry.

(** The same with a next hop that is not link-local *)
Definition far_hop_startup : RouterStartupConfig :=
  mkStartup (rc_ports demo_startup) [via default_route 0 0x2001000000000009].
Lemma wf_far_hop_startup : wf_startup far_hop_startup.
Proof.
  destruct wf_demo_startup as [Hp Hr]. split; [done |].
  apply Forall_cons in Hr as [Hr _]. by apply Forall_singleton.
Qed.

Lemma static_router_startup_witness :
  (∃ r : StaticP4Router (installed router_program), router_new demo_startup = Ok r ∧ fib r = fib_of demo_startup ∧
    startup r = demo_startup ∧ NoDup (fe_prefix <$> fib r)) ∧
  router_new (P := installed router_program) far_hop_startup = Err InvalidField.
Proof.
  split.
  - apply (static_router_startup demo_startup wf_demo_startup); [apply validate_valid; reflexivity |].
    by repeat constructor.
  - apply (static_router_startup far_hop_startup wf_far_hop_startup). intros [Hv _].
    destruct (vs_next_hops _ Hv (via default_route 0 0x2001000000000009) 0x2001000000000009) as [H _];
      [by left | done | by vm_compute in H].
Defined.

Lemma static_router_longest_prefix_witness :
  ∃ r : StaticP4Router (installed router_program), router_new demo_startup = Ok r ∧
  (process 0 demo_packet (after [(1, demo_packet)] r)).2 =
  Ok (disposition (fib_of demo_startup) (local_suffixes (rc_ports demo_startup)) 0 demo_packet) ∧
  disposition (fib_of demo_startup) (local_suffixes (rc_ports demo_startup)) 0 demo_packet = Forward 1 (pkt_with_hop demo_packet 63).
Proof.
  assert (Hk : is_ok (router_new (P := installed router_program) demo_startup) = true) by (vm_compute; reflexivity).
  destruct (router_new demo_startup) as [r | e |] eqn:E; [clear Hk | discriminate Hk..].
  exists r. split; [done |]. split; [| by vm_compute]. apply (static_router_longest_prefix demo_startup); [apply wf_demo_startup | done | done |].
  split; [| done]. split_and!; cbn; try lia; try done; unfold u8, u64; lia.
Defined.
