(* ===== verification/StaticSwitch.v ===== *)
(** * The static P4 switch (src/src/static_switch.rs, src/p4-static-switch/p4/switch.p4)

    Node registration, the default router port, the tables rebuilt from them on
    every change, the ingress control of switch.p4, and the processing of a
    packet. Proved: after any sequence of calls the switch delivers by the nodes
    that are registered and the router port that is set now. *)
From stdpp Require Import prelude gmap strings list.
From Stdlib Require Import ZArith Lia.
From S2P Require Import Prelude BTree Crc GdpWire P4Gdp P4Pipeline.
Local Open Scope Z_scope.

Definition SWITCH_PORT_COUNT : Z := 8.
Definition SWITCH_MAX_PORT_COUNT : Z := 16.

Inductive SwitchDisposition : Set := SwForward (egress_port : Z) (packet : GdpPacket) | SwDrop.

Definition validate_global_node (address : Z) : res unit :=
  fail_if (as_u16 (Z.shiftr address 48) =? 0xfe80) InvalidField.

Section switch.
Context {P : Type} `{Pipeline P}.

Record StaticP4Switch : Type := mkSwitch {
  sw_pipeline : P; port_count : Z; nodes : gmap Z Z; default_router_port : option Z }.

Definition program_global_node (address port : Z) (pipeline : P) : P :=
  let hi := as_u32 (Z.shiftr address 32) in
  let lo := as_u32 address in
  add_table_entry "ingress.global_nodes" "forward" (to_le 4 hi ++ to_le 4 lo) (to_le 2 port) pipeline.
Definition program_local_node (suffix port : Z) (pipeline : P) : P :=
  add_table_entry "ingress.local_nodes" "forward" (to_le 2 suffix) (to_le 2 port) pipeline.
Definition program_default_router (ingress_port router_port : Z) (pipeline : P) : P :=
  add_table_entry "ingress.default_router" "forward" (to_le 2 ingress_port) (to_le 2 router_port) pipeline.

Definition with_port_count (n : Z) : res StaticP4Switch :=
  fail_if ((n =? 0) || (SWITCH_MAX_PORT_COUNT <? n)) InvalidField;;
  Ok (mkSwitch (pipeline_new n) n ∅ None).
Definition switch_new : res StaticP4Switch :=
  match with_port_count SWITCH_PORT_COUNT with Ok s => Ok s | _ => Panic end.

Definition node_port (self : StaticP4Switch) (address : Z) : option Z := nodes self !! address.

Definition validate_port (self : StaticP4Switch) (port : Z) : res unit :=
  fail_if (port_count self <=? port) InvalidField.

Definition rebuild_pipeline (self : StaticP4Switch) : StaticP4Switch :=
  let pipeline := pipeline_new (port_count self) in
  let pipeline := fold_left (λ pipeline '(address, port),
    program_local_node (as_u16 address) port (program_global_node address port pipeline)) (btree (nodes self)) pipeline in
  let pipeline :=
    match default_router_port self with
    | Some router_port =>
        fold_left (λ pipeline ingress_port,
          if ingress_port =? router_port then pipeline else program_default_router ingress_port router_port pipeline)
          (seqZ 0 (port_count self)) pipeline
    | None => pipeline
    end in
  mkSwitch pipeline (port_count self) (nodes self) (default_router_port self).

Definition set_nodes (m : gmap Z Z) (self : StaticP4Switch) : StaticP4Switch :=
  mkSwitch (sw_pipeline self) (port_count self) m (default_router_port self).
Definition set_router (o : option Z) (self : StaticP4Switch) : StaticP4Switch :=
  mkSwitch (sw_pipeline self) (port_count self) (nodes self) o.
Definition set_sw_pipeline (pl : P) (self : StaticP4Switch) : StaticP4Switch :=
  mkSwitch pl (port_count self) (nodes self) (default_router_port self).

Definition set_default_router_port (port : Z) : st StaticP4Switch (option Z) := λ self,
  match validate_port self port with
  | Ok _ => (rebuild_pipeline (set_router (Some port) self), Ok (default_router_port self))
  | Err e => (self, Err e)
  | Panic => (self, Panic)
  end.
Definition clear_default_router_port (self : StaticP4Switch) : StaticP4Switch * option Z :=
  match default_router_port self with
  | Some p => (rebuild_pipeline (set_router None self), Some p)
  | None => (set_router None self, None)
  end.
Definition register_node (address port : Z) : st StaticP4Switch (option Z) := λ self,
  match validate_port self port;; validate_global_node address with
  | Ok _ => (rebuild_pipeline (set_nodes (<[address := port]> (nodes self)) self), Ok (nodes self !! address))
  | Err e => (self, Err e)
  | Panic => (self, Panic)
  end.
Definition remove_node (address : Z) (self : StaticP4Switch) : StaticP4Switch * option Z :=
  match nodes self !! address with
  | Some p => (rebuild_pipeline (set_nodes (delete address (nodes self)) self), Some p)
  | None => (set_nodes (delete address (nodes self)) self, None)
  end.

Definition switch_process (ingress_port : Z) (packet : GdpPacket) : st StaticP4Switch SwitchDisposition :=
  self ← gets Datatypes.id;
  lift (validate_port self ingress_port);;
  let local_prefix := own_prefix packet in
  let cfg := GdpWireConfig_default in
  bs ← lift (packet_encode packet cfg);
  outputs ← zoom sw_pipeline set_sw_pipeline (process_packet ingress_port bs);
  match outputs with
  | [] => mret SwDrop
  | [(header_data, payload_data, port)] =>
      if (port_count self <=? port) || (port =? ingress_port) then mret SwDrop
      else
        packet ← lift (packet_decode (header_data ++ payload_data) cfg local_prefix);
        mret (SwForward port packet)
  | _ => lift (Err InvalidState)
  end.
End switch.
Arguments StaticP4Switch P : clear implicits.

(** ** The ingress control of switch.p4 *)

Definition switch_action (action : string) (params : list Z) (g : egress_t) : egress_t :=
  if String.eqb action "drop" then mkEgress (eg_port g) true (eg_transit g) true
  else if String.eqb action "forward" then mkEgress (from_le params) (eg_drop g) false true
  else g.

Definition switch_ingress `{EntryChoice} (es : list table_entry) (ingress_port : Z) (hdr : headers_t)
    : headers_t * egress_t :=
  let g := mkEgress 0 false false false in
  let g :=
    if g_valid (global_addr hdr) then
      let g := apply_table switch_action "ingress.global_nodes"
        [(Exact 4, destination_hi (global_addr hdr)); (Exact 4, destination_lo (global_addr hdr))] "allow" es g in
      if eg_decided g then g
      else apply_table switch_action "ingress.default_router" [(Exact 2, ingress_port)] "drop" es g
    else if l_valid (local_addr hdr) then
      apply_table switch_action "ingress.local_nodes" [(Exact 2, l_destination (local_addr hdr))] "drop" es g
    else mkEgress (eg_port g) true (eg_transit g) true in
  (hdr, g).

Definition switch_program `{EntryChoice} (es : list table_entry) (port : Z) (bs : list Z) : res (list output) :=
  run_p4 (switch_ingress es) port bs.

(** ** The tables of a switch *)

Definition node_entries (ap : Z * Z) : list table_entry :=
  [mkEntry "ingress.global_nodes" "forward" (to_le 4 (as_u32 (Z.shiftr ap.1 32)) ++ to_le 4 (as_u32 ap.1)) (to_le 2 ap.2);
   mkEntry "ingress.local_nodes" "forward" (to_le 2 (as_u16 ap.1)) (to_le 2 ap.2)].
Definition router_entry (router_port ingress_port : Z) : table_entry :=
  mkEntry "ingress.default_router" "forward" (to_le 2 ingress_port) (to_le 2 router_port).
Definition switch_entries (n : Z) (m : gmap Z Z) (router : option Z) : list table_entry :=
  (btree m ≫= node_entries) ++
  match router with Some r => router_entry r <$> filter (λ i, i ≠ r) (seqZ 0 n) | None => [] end.

(** ** Calls on a switch *)

Inductive switch_op : Set :=
  | OpRouter (port : Z) | OpClear | OpRegister (address port : Z) | OpRemove (address : Z)
  | OpProcess (ingress_port : Z) (packet : GdpPacket).
Definition op_wf (o : switch_op) : Prop :=
  match o with OpRouter p => u16 p | OpRegister a p => u64 a ∧ u16 p | _ => True end.

Section calls.
Context `{EntryChoice} {P : Type} `{!Pipeline P, !Runs P switch_program}.

Definition switch_step (s : StaticP4Switch P) (o : switch_op) : StaticP4Switch P :=
  match o with
  | OpRouter p => (set_default_router_port p s).1
  | OpClear => (clear_default_router_port s).1
  | OpRegister a p => (register_node a p s).1
  | OpRemove a => (remove_node a s).1
  | OpProcess i p => (switch_process i p s).1
  end.
Definition switch_run (ops : list switch_op) (s : StaticP4Switch P) : StaticP4Switch P := fold_left switch_step ops s.

Record switch_ok (s : StaticP4Switch P) : Prop := {
  so_count : 0 < port_count s ≤ SWITCH_MAX_PORT_COUNT;
  so_nodes : map_Forall (λ a p, u64 a ∧ is_ok (validate_global_node a) = true ∧ 0 ≤ p < port_count s) (nodes s);
  so_router : match default_router_port s with Some p => 0 ≤ p < port_count s | None => True end;
  so_entries : entries (sw_pipeline s) = switch_entries (port_count s) (nodes s) (default_router_port s) }.

Lemma rebuild_entries s : entries (sw_pipeline (rebuild_pipeline s)) = switch_entries (port_count s) (nodes s) (default_router_port s).
Proof.
  unfold rebuild_pipeline, switch_entries. cbn [sw_pipeline].
  assert (Hn : ∀ l (pl : P), entries (fold_left (λ pipeline '(address, port),
    program_local_node (as_u16 address) port (program_global_node address port pipeline)) l pl) = entries pl ++ (l ≫= node_entries)).
  { intros l. induction l as [| [a p] l IH]; intros pl; cbn; [by rewrite app_nil_r |].
    rewrite IH. unfold program_local_node, program_global_node. rewrite !entries_add, <- !app_assoc. done. }
  assert (Hr : ∀ r l (pl : P), entries (fold_left (λ pipeline ingress_port,
    if ingress_port =? r then pipeline else program_default_router ingress_port r pipeline) l pl) =
    entries pl ++ (router_entry r <$> filter (λ i, i ≠ r) l)).
  { intros r l. induction l as [| i l IH]; intros pl; cbn; [by rewrite app_nil_r |].
    rewrite IH. destruct (Z.eqb_spec i r), (decide (i ≠ r)); try done.
    unfold program_default_router. rewrite entries_add, <- app_assoc. done. }
  destruct (default_router_port s); [rewrite Hr |]; rewrite Hn, entries_new, ?app_nil_r; done.
Qed.

Lemma rebuild_ok s :
  0 < port_count s ≤ SWITCH_MAX_PORT_COUNT →
  map_Forall (λ a p, u64 a ∧ is_ok (validate_global_node a) = true ∧ 0 ≤ p < port_count s) (nodes s) →
  match default_router_port s with Some p => 0 ≤ p < port_count s | None => True end →
  switch_ok (rebuild_pipeline s).
Proof. intros Hc Hn Hr. constructor; [done | done | done | exact (rebuild_entries s)]. Qed.

Lemma step_ok s o : op_wf o → switch_ok s → switch_ok (switch_step s o) ∧ port_count (switch_step s o) = port_count s.
Proof.
  intros Ho [Hc Hn Hr He]. destruct o as [p | | a p | a | i pkt]; cbn [switch_step op_wf] in *.
  - unfold set_default_router_port, validate_port. destruct (Z.leb_spec (port_count s) p); [done |]. cbn [fail_if fst].
    split; [| done]. apply rebuild_ok; [done | done |]. unfold u16 in Ho. cbn. lia.
  - unfold clear_default_router_port. destruct (default_router_port s) eqn:E; cbn [fst]; (split; [| done]).
    + by apply rebuild_ok.
    + constructor; [done | done | done |]. cbn. by rewrite He.
  - unfold register_node, validate_port. destruct (Z.leb_spec (port_count s) p); [done |]. cbn [fail_if]. rewrite bind_Ok_l.
    destruct (validate_global_node a) eqn:E; [| done..]. cbn [fst]. split; [| done]. apply rebuild_ok; [done | | done].
    cbn. apply map_Forall_insert_2; [| done]. destruct Ho as [Ha Hp]. unfold u16 in Hp. rewrite E. split; [done |]. split; [done | lia].
  - unfold remove_node. destruct (nodes s !! a) eqn:E; cbn [fst]; (split; [| done]).
    + apply rebuild_ok; [done | by apply map_Forall_delete | done].
    + constructor; cbn; rewrite ?delete_id by done; done.
  - unfold switch_process, gets, lift, zoom. cbv [mbind st_bind].
    destruct (validate_port _ _); [| done..]. destruct (packet_encode _ _) as [bs | |]; [| done..].
    pose proof (entries_process i bs (sw_pipeline s)) as Hp. destruct (process_packet i bs (sw_pipeline s)) as [pl out]. cbn in *.
    assert (Hok : switch_ok (set_sw_pipeline pl s)). { constructor; [done | done | done |]. cbn. by rewrite Hp. }
    destruct out as [[| [[hd pd] po] [|]] | |]; cbn; try done.
    destruct (_ || _); [done |]. destruct (packet_decode _ _ _); done.
Qed.
End calls.

(** ** The tables as nodes and a router port *)

Section tables.
Context `{EntryChoice} (n : Z) (m : gmap Z Z) (router : option Z).
Hypothesis Hn : 0 < n ≤ SWITCH_MAX_PORT_COUNT.
Hypothesis Hm : map_Forall (λ a p, u64 a ∧ is_ok (validate_global_node a) = true ∧ 0 ≤ p < n) m.
Local Notation es := (switch_entries n m router).

Lemma switch_entry_inv te : te ∈ es ↔
  (∃ a p, m !! a = Some p ∧ te ∈ node_entries (a, p)) ∨
  (∃ r i, router = Some r ∧ te = router_entry r i ∧ 0 ≤ i < n ∧ i ≠ r).
Proof.
  unfold switch_entries. rewrite elem_of_app, list_elem_of_bind. split.
  - intros [([a p] & Hte & Hap%elem_of_btree) | Hte]; [left; by exists a, p |]. right.
    destruct router as [r |]; [| by apply not_elem_of_nil in Hte].
    apply list_elem_of_fmap in Hte as (i & -> & [Hi Hs]%list_elem_of_filter). apply elem_of_seqZ in Hs. exists r, i. split_and!; [done | done | lia | lia | done].
  - intros [(a & p & Hap & Hte) | (r & i & -> & -> & Hi & Hir)].
    + left. exists (a, p). split; [done |]. by apply elem_of_btree.
    + right. apply list_elem_of_fmap_2, list_elem_of_filter. split; [done |]. apply elem_of_seqZ. lia.
Qed.

Lemma node_entry_cases a p te : te ∈ node_entries (a, p) →
  te = mkEntry "ingress.global_nodes" "forward" (to_le 4 (as_u32 (Z.shiftr a 32)) ++ to_le 4 (as_u32 a)) (to_le 2 p) ∨
  te = mkEntry "ingress.local_nodes" "forward" (to_le 2 (as_u16 a)) (to_le 2 p).
Proof. intros [-> | [-> | []%not_elem_of_nil]%elem_of_cons]%elem_of_cons; [by left | by right]. Qed.

Lemma forward_port p g : 0 ≤ p < n → switch_action "forward" (to_le 2 p) g = mkEgress p (eg_drop g) false true.
Proof.
  intros Hp. unfold SWITCH_MAX_PORT_COUNT in Hn. change (switch_action "forward" (to_le 2 p) g) with (mkEgress (from_le (to_le 2 p)) (eg_drop g) false true).
  rewrite from_le_to_le, Z.mod_small; [done |]. change (256 ^ Z.of_nat 2) with 65536. lia.
Qed.

Lemma global_nodes_lookup d g : u64 d →
  apply_table switch_action "ingress.global_nodes" [(Exact 4, d / 2 ^ 32); (Exact 4, d mod 2 ^ 32)] "allow" es g =
  match m !! d with Some p => mkEgress p (eg_drop g) false true | None => g end.
Proof.
  intros Hd. unfold apply_table.
  pose proof (table_lookup_spec "ingress.global_nodes" [(Exact 4, d / 2 ^ 32); (Exact 4, d mod 2 ^ 32)] es) as Hs.
  destruct (table_lookup _ _ es) as [te |].
  - destruct Hs as (Hte & Ht & k & Hk & _). apply switch_entry_inv in Hte as [(a & p & Hap & Hte) | (r & i & _ & -> & _)]; [| done].
    apply node_entry_cases in Hte as [-> | ->]; [| done]. destruct (Hm a p Hap) as (Ha & _ & Hp). cbn [te_key te_action te_params] in *.
    rewrite global_key in Hk by done. destruct (Z.eqb_spec a d) as [-> |]; [| done]. rewrite Hap. by apply forward_port.
  - destruct (m !! d) as [p |] eqn:Ep; [| done]. destruct (Hm d p Ep) as (_ & _ & Hp).
    specialize (Hs (mkEntry "ingress.global_nodes" "forward" (to_le 4 (as_u32 (Z.shiftr d 32)) ++ to_le 4 (as_u32 d)) (to_le 2 p))).
    cbn [te_key te_table] in Hs. rewrite global_key, Z.eqb_refl in Hs by done. discriminate Hs; [| done].
    apply switch_entry_inv. left. exists d, p. split; [done | left].
Qed.

(** The nodes a Local destination can mean *)
Lemma local_nodes_lookup d g :
  let out := apply_table switch_action "ingress.local_nodes" [(Exact 2, d)] "drop" es g in
  (out = mkEgress (eg_port g) true (eg_transit g) true ∧ ∀ a p, m !! a = Some p → as_u16 a ≠ d) ∨
  (∃ a p, m !! a = Some p ∧ as_u16 a = d ∧ out = mkEgress p (eg_drop g) false true).
Proof.
  cbv zeta. unfold apply_table. pose proof (table_lookup_spec "ingress.local_nodes" [(Exact 2, d)] es) as Hs.
  assert (Hmod : ∀ a, as_u16 a mod 256 ^ Z.of_nat 2 = as_u16 a). { intros a. unfold as_u16. change (256 ^ Z.of_nat 2) with 0x10000. by rewrite Z.mod_mod. }
  destruct (table_lookup _ _ es) as [te |].
  - right. destruct Hs as (Hte & Ht & k & Hk & _). apply switch_entry_inv in Hte as [(a & p & Hap & Hte) | (r & i & _ & -> & _)]; [| done].
    apply node_entry_cases in Hte as [-> | ->]; [done |]. cbn [te_key te_action te_params] in *. rewrite port_key, Hmod in Hk.
    destruct (Z.eqb_spec (as_u16 a) d) as [<- |]; [| done]. exists a, p. split; [done |]. split; [done |].
    destruct (Hm a p Hap) as (_ & _ & Hp). by apply forward_port.
  - left. split; [done |]. intros a p Hap <-.
    specialize (Hs (mkEntry "ingress.local_nodes" "forward" (to_le 2 (as_u16 a)) (to_le 2 p))). cbn [te_key te_table] in Hs.
    rewrite port_key, Hmod, Z.eqb_refl in Hs. discriminate Hs; [| done].
    apply switch_entry_inv. left. exists a, p. split; [done | right; left].
Qed.
End tables.

Lemma default_router_lookup `{EntryChoice} n m router i g :
  0 < n ≤ SWITCH_MAX_PORT_COUNT → match router with Some p => 0 ≤ p < n | None => True end → 0 ≤ i < n →
  apply_table switch_action "ingress.default_router" [(Exact 2, i)] "drop" (switch_entries n m router) g =
  match router with
  | Some r => if i =? r then mkEgress (eg_port g) true (eg_transit g) true else mkEgress r (eg_drop g) false true
  | None => mkEgress (eg_port g) true (eg_transit g) true
  end.
Proof.
  intros Hn Hr Hi. unfold apply_table. pose proof Hn as Hn'. unfold SWITCH_MAX_PORT_COUNT in Hn'. pose proof (table_lookup_spec "ingress.default_router" [(Exact 2, i)] (switch_entries n m router)) as Hs.
  destruct (table_lookup _ _ _) as [te |].
  - destruct Hs as (Hte & Ht & k & Hk & _). apply switch_entry_inv in Hte as [(a & p & Hap & Hte) | (r & j & -> & -> & Hj & Hjr)].
    { by apply node_entry_cases in Hte as [-> | ->]. }
    cbn [router_entry te_key te_action te_params] in *. rewrite port_key, Z.mod_small in Hk by (change (256 ^ Z.of_nat 2) with 65536; lia).
    destruct (Z.eqb_spec j i) as [-> |]; [| done]. destruct (Z.eqb_spec i r); [done |]. by apply (forward_port n).
  - destruct router as [r |] eqn:Er; [| done]. destruct (Z.eqb_spec i r) as [-> | Hir]; [done |].
    specialize (Hs (router_entry r i)). cbn [router_entry te_key te_table] in Hs.
    rewrite port_key, Z.mod_small, Z.eqb_refl in Hs by (change (256 ^ Z.of_nat 2) with 65536; lia). discriminate Hs; [| done].
    apply switch_entry_inv. right. by exists r, i.
Qed.

(** ** Delivery *)

(** What may become of a packet at a switch with these nodes and this router
    port. Only a Local destination whose suffix several nodes share leaves a choice. *)
Definition switch_delivers (m : gmap Z Z) (router : option Z) (ingress_port : Z) (packet : GdpPacket) (out : SwitchDisposition) : Prop :=
  let to port := if port =? ingress_port then SwDrop else SwForward port packet in
  match hdr_addresses (pkt_header packet) with
  | Global d _ =>
      out = match m !! d with
            | Some port => to port
            | None => match router with Some port => to port | None => SwDrop end
            end
  | Local d _ _ =>
      (out = SwDrop ∧ ∀ a port, m !! a = Some port → as_u16 a ≠ d) ∨
      (∃ a port, m !! a = Some port ∧ as_u16 a = d ∧ out = to port)
  end.

(** The nodes and the router port that a history of calls leaves, without regard to
    the pipeline: a port that the switch does not have is refused, and so is
    a link-local address. *)
Definition registry : Type := gmap Z Z * option Z.
Definition registry_step (n : Z) (r : registry) (o : switch_op) : registry :=
  match o with
  | OpRouter p => if p <? n then (r.1, Some p) else r
  | OpClear => (r.1, None)
  | OpRegister a p => if (p <? n) && negb ((a / 2 ^ 48) mod 2 ^ 16 =? 0xfe80) then (<[a := p]> r.1, r.2) else r
  | OpRemove a => (delete a r.1, r.2)
  | OpProcess _ _ => r
  end.
Definition registered (n : Z) (ops : list switch_op) : registry := fold_left (registry_step n) ops (∅, None).

Section delivery.
Context `{EntryChoice} {P : Type} `{!Pipeline P, !Runs P switch_program}.

Lemma switch_program_eq es ingress_port h payload g :
  wf_header h → switch_ingress es ingress_port (hdr_of h) = (hdr_of h, g) →
  switch_program es ingress_port (header_wire h GdpWireConfig_default ++ payload) =
  Ok (if eg_drop g then [] else [(header_wire h GdpWireConfig_default, payload, eg_port g)]).
Proof.
  intros Hh Hg. unfold switch_program, run_p4. rewrite parse_packet, bind_Ok_l by done. rewrite Hg, deparse_hdr_of by done.
  by destruct (eg_drop g).
Qed.

(** A packet through the pipeline of a switch, for the port the tables choose *)
Lemma switch_process_out (s : StaticP4Switch P) ingress_port packet g :
  switch_ok s → 0 ≤ ingress_port < port_count s → wf_packet packet →
  switch_ingress (entries (sw_pipeline s)) ingress_port (hdr_of (pkt_header packet)) = (hdr_of (pkt_header packet), g) →
  (switch_process ingress_port packet s).2 = Ok (
    if eg_drop g then SwDrop
    else if (port_count s <=? eg_port g) || (eg_port g =? ingress_port) then SwDrop else SwForward (eg_port g) packet).
Proof.
  intros Hok Hi Hwf Hg. pose proof Hwf as [Hh Hlen]. unfold switch_process, gets, lift, zoom, validate_port.
  cbv [mbind st_bind]. unfold Datatypes.id. replace (port_count s <=? ingress_port) with false by lia. cbn [fail_if].
  rewrite packet_encode_ok by done.
  pose proof (process_runs ingress_port (header_wire (pkt_header packet) GdpWireConfig_default ++ pkt_payload packet) (sw_pipeline s)) as Hp.
  rewrite (switch_program_eq _ _ _ _ g Hh Hg) in Hp.
  destruct (process_packet _ _ _) as [pl out]. cbn [snd] in Hp |- *. subst out.
  destruct (eg_drop g); [done |]. destruct (_ || _); [done |].
  rewrite decode_emitted by done. done.
Qed.

Lemma switch_process_delivers (s : StaticP4Switch P) ingress_port packet :
  switch_ok s → 0 ≤ ingress_port < port_count s → wf_packet packet →
  ∃ out, (switch_process ingress_port packet s).2 = Ok out ∧ switch_delivers (nodes s) (default_router_port s) ingress_port packet out.
Proof.
  intros Hok Hi Hwf. pose proof Hok as [Hc Hn Hr He]. pose proof Hwf as [(_ & _ & Ha & _) _]. unfold switch_delivers. cbv zeta.
  pose proof (switch_process_out s ingress_port packet) as Hp. unfold switch_ingress in Hp. rewrite He in Hp.
  set (g := mkEgress 0 false false false) in Hp.
  destruct (hdr_addresses (pkt_header packet)) as [d s' | d s' pr] eqn:E.
  - destruct Ha as [Hd _]. assert (Hg : global_addr (hdr_of (pkt_header packet)) = mkGlobalAddr true (d / 2 ^ 32) (d mod 2 ^ 32) (s' / 2 ^ 32) (s' mod 2 ^ 32)).
    { unfold hdr_of. by rewrite E. }
    rewrite Hg in Hp. cbn [g_valid destination_hi destination_lo] in Hp. cbv zeta in Hp.
    rewrite (global_nodes_lookup _ _ _ Hc Hn d g Hd) in Hp.
    destruct (nodes s !! d) as [port |] eqn:Ep.
    + destruct (Hn d port Ep) as (_ & _ & Hport). cbn [eg_decided] in Hp. eexists. split; [by apply Hp |].
      cbn [eg_drop eg_port g]. by replace (port_count s <=? port) with false by lia.
    + change (eg_decided g) with false in Hp. cbn iota in Hp. rewrite (default_router_lookup _ _ _ ingress_port g Hc Hr Hi) in Hp.
      eexists. split; [by apply Hp |]. destruct (default_router_port s) as [r |]; [| done].
      rewrite (Z.eqb_sym r). destruct (Z.eqb_spec ingress_port r); [done |]. cbn [eg_drop eg_port g].
      replace (port_count s <=? r) with false by lia. by replace (r =? ingress_port) with false by lia.
  - assert (Hg : global_addr (hdr_of (pkt_header packet)) = no_global ∧ local_addr (hdr_of (pkt_header packet)) = mkLocalAddr true d s').
    { unfold hdr_of. by rewrite E. }
    destruct Hg as [Hg Hl]. rewrite Hg, Hl in Hp. cbn [g_valid l_valid no_global l_destination] in Hp. cbv zeta in Hp.
    destruct (local_nodes_lookup _ _ (default_router_port s) Hc Hn d g) as [[Eo Hno] | (a & port & Ea & Es & Eo)]; rewrite Eo in Hp.
    + eexists. split; [by apply Hp |]. by left.
    + destruct (Hn a port Ea) as (_ & _ & Hport). eexists. split; [by apply Hp |]. right. exists a, port. split; [done |]. split; [done |].
      cbn [eg_drop eg_port g]. by replace (port_count s <=? port) with false by lia.
Qed.

Lemma switch_run_ok ops (s : StaticP4Switch P) : Forall op_wf ops → switch_ok s →
  switch_ok (switch_run ops s) ∧ port_count (switch_run ops s) = port_count s.
Proof.
  revert s. induction ops as [| o ops IH]; intros s Ho Hs; [done |]. apply Forall_cons in Ho as [Hw Ho].
  destruct (step_ok s o Hw Hs) as [Hs' Ec]. cbn. unfold switch_run in IH. destruct (IH _ Ho Hs') as [? E]. split; [done |]. by rewrite E.
Qed.

Lemma switch_new_ok n (s : StaticP4Switch P) : u16 n → with_port_count n = Ok s → switch_ok s ∧ port_count s = n.
Proof.
  intros Hu Hs. unfold with_port_count in Hs. apply bind_Ok in Hs as ([] & [Hb _]%fail_if_Ok & Hs). apply Ok_inj in Hs as <-.
  apply orb_false_iff in Hb as [H0 Hm]. unfold u16 in Hu. split; [| done]. constructor; cbn.
  - lia.
  - apply map_Forall_empty.
  - done.
  - rewrite entries_new. unfold switch_entries. by rewrite btree_empty.
Qed.

(** A call does to the nodes and the router port of the switch what [registry_step] says. *)
Lemma step_registry (s : StaticP4Switch P) o :
  (nodes (switch_step s o), default_router_port (switch_step s o)) =
  registry_step (port_count s) (nodes s, default_router_port s) o.
Proof.
  destruct o as [p | | a p | a | i pkt]; cbn [switch_step registry_step fst snd].
  - unfold set_default_router_port, validate_port. rewrite Z.ltb_antisym. by destruct (_ <=? p).
  - unfold clear_default_router_port. by destruct (default_router_port s).
  - unfold register_node, validate_port, validate_global_node, as_u16. rewrite Z.ltb_antisym, Z.shiftr_div_pow2 by lia.
    destruct (_ <=? p); [done |]. cbn [negb andb fail_if]. rewrite bind_Ok_l. by destruct (_ =? 0xfe80).
  - unfold remove_node. by destruct (nodes s !! a).
  - unfold switch_process, gets, lift, zoom. cbv [mbind st_bind].
    destruct (validate_port _ _); [| done..]. destruct (packet_encode _ _) as [bs | |]; [| done..].
    destruct (process_packet i bs (sw_pipeline _)) as [pl out].
    destruct out as [[| [[hd pd] po] [|]] | |]; cbn; try done.
    destruct (_ || _); [done |]. destruct (packet_decode _ _ _); done.
Qed.

Lemma run_registry ops (s : StaticP4Switch P) : Forall op_wf ops → switch_ok s →
  (nodes (switch_run ops s), default_router_port (switch_run ops s)) =
  fold_left (registry_step (port_count s)) ops (nodes s, default_router_port s).
Proof.
  revert s. induction ops as [| o ops IH]; intros s Ho Hs; [done |]. apply Forall_cons in Ho as [Hw Ho].
  destruct (step_ok s o Hw Hs) as [Hs' Ec]. cbn. unfold switch_run in IH. rewrite IH by done. by rewrite Ec, step_registry.
Qed.
End delivery.

(** C32: whatever table entry the generated pipeline prefers among equal ones,
    and whatever calls came before, a switch delivers a packet to the port its
    Global destination was last registered at and not removed since, an
    unknown one to the router port that was set last and not cleared since,
    and a Local one to a node registered with that suffix; a packet is never
    sent back out of its ingress port and its header is never changed. *)
Theorem switch_delivery `{EntryChoice} {P : Type} `{!Pipeline P, !Runs P switch_program}
    n (s : StaticP4Switch P) ops ingress_port packet :
  u16 n → with_port_count n = Ok s → Forall op_wf ops → 0 ≤ ingress_port < n → wf_packet packet →
  ∃ out, (switch_process ingress_port packet (switch_run ops s)).2 = Ok out ∧
    switch_delivers (registered n ops).1 (registered n ops).2 ingress_port packet out.
Proof.
  intros Hn Hs Ho Hi Hp. destruct (switch_new_ok n s Hn Hs) as [Hok Ec]. destruct (switch_run_ok ops s Ho Hok) as [Hok' Ec'].
  assert (Hreg : (nodes (switch_run ops s), default_router_port (switch_run ops s)) = registered n ops).
  { rewrite run_registry, Ec by done. unfold with_port_count in Hs. by apply bind_Ok in Hs as (_ & _ & <-%Ok_inj). }
  rewrite <- Hreg. apply switch_process_delivers; [done | rewrite Ec', Ec; lia | done].
Qed.

#[local] Existing Instance first_entry.

Definition demo_ops : list switch_op :=
  [OpRegister 0x2001000000000007 3; OpRouter 5; OpRegister 0x2001000000000008 3; OpRemove 0x2001000000000008].
Definition switch_packet : GdpPacket :=
  mkPacket (header_global Gts Tiny3 64 0x2001000000000009 0x2001000000000007) [1; 2; 3].

Lemma switch_delivery_witness :
  let s := mkSwitch (P := installed switch_program) (mkInstalled []) 8 ∅ None in
  (switch_process 0 switch_packet (switch_run demo_ops s)).2 = Ok (SwForward 3 switch_packet).
Proof.
  cbv zeta. destruct (switch_delivery 8 (mkSwitch (P := installed switch_program) (mkInstalled []) 8 ∅ None) demo_ops 0 switch_packet)
    as (out & -> & H); [unfold u16; lia | done | | lia | | by rewrite H].
  - repeat (apply Forall_cons; split); try apply Forall_nil; cbn; try split; unfold u16, u64; try lia; done.
  - split; [| done]. split_and!; cbn; try lia; try done; unfold u8, u64; lia.
Defined.
