(* ===== verification/DynamicRouter.v ===== *)
(** * The dynamic P4 router (src/src/dynamic_router.rs)

    A router whose forwarding table is compiled again from its configuration
    and the learned routes of its routing information base whenever those change.
    Proved: while every call succeeds, packets are forwarded by exactly the routes
    the base selects; and what a route for one of the router's own addresses does
    to it. *)
From stdpp Require Import prelude gmap list sorting.
From Stdlib Require Import ZArith Lia.
From S2P Require Import Prelude Time BTree Crc GdpWire Routing RoutingWire Rib Adjacency P4Gdp P4Pipeline StaticRouter.
Local Open Scope Z_scope.

Section dynamic.
Context {P : Type} `{Pipeline P}.

Record DynamicP4Router : Type := mkDynamic {
  router_id : Z; ports : list RouterPortConfig; configured_static : list StaticRouteConfig;
  rib : RouterRib; forwarding : StaticP4Router P }.

(** One round of the loop of [build_forwarding] *)
Definition push_learned (configured : list StaticRouteConfig) (route : SelectedRoute) (routes : list StaticRouteConfig)
    : res (list StaticRouteConfig) :=
  fail_if (negb (bool_decide (sr_origin route = Learned))) InvalidField;;
  if existsb (λ c, bool_decide (st_prefix c = sr_prefix route)) configured then Ok routes
  else Ok (routes ++ [direct (sr_prefix route) (sr_port route)]).
Definition build_forwarding (ports : list RouterPortConfig) (configured : list StaticRouteConfig)
    (learned : list SelectedRoute) : res (StaticP4Router P) :=
  routes ← fold_res (push_learned configured) learned configured;
  router_new (mkStartup ports routes).

Definition configure_port (r : RouterRib) (port : RouterPortConfig) : RouterRib :=
  match connected_prefix port with Some prefix => add_connected prefix (rp_id port) r | None => r end.
Definition configure_static (r : RouterRib) (route : StaticRouteConfig) : RouterRib :=
  add_static (st_prefix route) (st_egress route) 0 r.
Definition dynamic_new (id : Z) (ports : list RouterPortConfig) (configured : list StaticRouteConfig) : res DynamicP4Router :=
  let rib := fold_left configure_port ports (rib_new id) in
  let rib := fold_left configure_static configured rib in
  forwarding ← build_forwarding ports configured (learned_fib rib);
  Ok (mkDynamic id ports configured rib forwarding).

Definition set_rib (r : RouterRib) (self : DynamicP4Router) : DynamicP4Router :=
  mkDynamic (router_id self) (ports self) (configured_static self) r (forwarding self).
Definition set_forwarding (f : StaticP4Router P) (self : DynamicP4Router) : DynamicP4Router :=
  mkDynamic (router_id self) (ports self) (configured_static self) (rib self) f.

Definition rebuild_forwarding : st DynamicP4Router unit :=
  self ← gets Datatypes.id;
  f ← lift (build_forwarding (ports self) (configured_static self) (learned_fib (rib self)));
  modify (set_forwarding f).

Definition selected_fib (self : DynamicP4Router) : list SelectedRoute := selected_routes (rib self).
Definition dr_advertisements_for (self : DynamicP4Router) (neighbor outgoing : Z) : list RouteAdvertise :=
  advertisements_for (rib self) neighbor outgoing.
Definition dr_updates_for (self : DynamicP4Router) (neighbor outgoing : Z) (changed : list GdpPrefix) : list RouteUpdate :=
  updates_for (rib self) neighbor outgoing changed.
Definition learned_routes (self : DynamicP4Router) : list SelectedRoute :=
  filter (λ r, sr_origin r = Learned) (selected_routes (rib self)).

Definition dr_receive_advertisement (from egress_port : Z) (a : RouteAdvertise) : st DynamicP4Router unit :=
  zoom rib set_rib (receive_advertisement from egress_port a);;
  rebuild_forwarding.
Definition dr_receive_withdrawal (from : Z) (w : RouteWithdraw) : st DynamicP4Router bool :=
  removed ← zoom rib set_rib (receive_withdrawal from w);
  (if (removed : bool) then rebuild_forwarding else mret tt);;
  mret removed.
Definition neighbor_down (neighbor : Z) : st DynamicP4Router (list GdpPrefix) :=
  changed ← (λ self, let '(r, changed) := remove_learned_from neighbor (rib self) in (set_rib r self, Ok changed));
  (match changed with [] => mret tt | _ => rebuild_forwarding end);;
  mret changed.

(** The adjacency is the caller's: both are the state. *)
Definition set_router (r : DynamicP4Router) (s : DynamicP4Router * RouterAdjacency) := (r, s.2).
Definition expire_adjacency (now : Z) : st (DynamicP4Router * RouterAdjacency) (list GdpPrefix) :=
  s ← gets Datatypes.id;
  guard_st (negb (ad_router_id s.2 =? router_id s.1)) InvalidField;;
  let neighbor := rn_router_id <$> ad_neighbor s.2 in
  expired ← (λ s, let '(a, b) := expire now s.2 in ((s.1, a), Ok b));
  if negb expired then mret []
  else match neighbor with
       | Some neighbor => zoom fst set_router (neighbor_down neighbor)
       | None => mret []
       end.

Definition dr_process (ingress_port : Z) (packet : GdpPacket) : st DynamicP4Router RouterDisposition :=
  zoom forwarding set_forwarding (process ingress_port packet).
End dynamic.
Arguments DynamicP4Router P : clear implicits.

(** ** The routes the forwarding table is built from *)

Definition learned_statics (configured : list StaticRouteConfig) (learned : list SelectedRoute) : list StaticRouteConfig :=
  (λ r, direct (sr_prefix r) (sr_port r)) <$> filter (λ r, sr_prefix r ∉ st_prefix <$> configured) learned.
Definition startup_for (ports : list RouterPortConfig) (configured : list StaticRouteConfig) (learned : list SelectedRoute)
    : RouterStartupConfig := mkStartup ports (configured ++ learned_statics configured learned).

Lemma existsb_prefix configured p :
  existsb (λ c, bool_decide (st_prefix c = p)) configured = bool_decide (p ∈ st_prefix <$> configured).
Proof.
  apply eq_true_iff_eq. rewrite existsb_exists, bool_decide_eq_true, list_elem_of_fmap.
  split; intros (c & H1 & H2); exists c.
  - apply bool_decide_eq_true in H2. split; [done |]. by apply list_elem_of_In.
  - split; [by apply list_elem_of_In |]. by apply bool_decide_eq_true.
Qed.

Lemma push_one configured route routes : sr_origin route = Learned →
  push_learned configured route routes = Ok (routes ++ learned_statics configured [route]).
Proof.
  intros Ho. unfold push_learned, learned_statics. rewrite bool_decide_eq_true_2 by done. cbn [negb fail_if].
  rewrite bind_Ok_l, existsb_prefix, filter_cons.
  destruct (decide (sr_prefix route ∉ st_prefix <$> configured)) as [Hn | Hn].
  - by rewrite bool_decide_eq_false_2 by done.
  - rewrite bool_decide_eq_true_2 by (by apply dec_stable). cbn. by rewrite app_nil_r.
Qed.
Lemma push_all configured learned routes : Forall (λ r, sr_origin r = Learned) learned →
  fold_res (push_learned configured) learned routes = Ok (routes ++ learned_statics configured learned).
Proof.
  revert routes. induction learned as [| r l IH]; intros routes Hl; [cbn; by rewrite app_nil_r |].
  apply Forall_cons in Hl as [Hr Hl]. cbn [fold_res]. rewrite push_one, bind_Ok_l, IH, <- (assoc_L (++)) by done.
  do 2 f_equal. unfold learned_statics. by rewrite <- fmap_app, <- filter_app.
Qed.

Lemma learned_fib_learned r : Forall (λ s, sr_origin s = Learned) (learned_fib r).
Proof. unfold learned_fib. apply Forall_forall. by intros s [? _]%list_elem_of_filter. Qed.

(** ** Calls *)

Inductive dynamic_op : Set :=
  | DoAdvertise (from egress_port : Z) (a : RouteAdvertise) | DoWithdraw (from : Z) (w : RouteWithdraw)
  | DoDown (neighbor : Z) | DoExpire (now : Z) (adjacency : RouterAdjacency) | DoProcess (ingress_port : Z) (packet : GdpPacket).
Definition dop_wf (o : dynamic_op) : Prop :=
  match o with DoAdvertise _ port a => u16 port ∧ wf_prefix (ra_prefix a) | _ => True end.

Section calls.
Context `{EntryChoice} {P : Type} `{!Pipeline P, !Runs P router_program}.

Definition dynamic_step (o : dynamic_op) : st (DynamicP4Router P) unit :=
  match o with
  | DoAdvertise from port a => dr_receive_advertisement from port a
  | DoWithdraw from w => dr_receive_withdrawal from w;; mret tt
  | DoDown n => neighbor_down n;; mret tt
  | DoExpire now adj => λ r, let '((r, _), out) := expire_adjacency now (r, adj) in (r, (λ _, tt) <$> out)
  | DoProcess port packet => dr_process port packet;; mret tt
  end.
(** The calls, each of which succeeds *)
Definition dynamic_run (ops : list dynamic_op) : st (DynamicP4Router P) unit :=
  fold_right (λ o m, dynamic_step o;; m) (mret tt) ops.

Lemma build_forwarding_eq ports configured r :
  build_forwarding (P := P) ports configured (learned_fib r) = router_new (startup_for ports configured (learned_fib r)).
Proof. unfold build_forwarding. by rewrite push_all, bind_Ok_l by apply learned_fib_learned. Qed.

(** The forwarding plane is the one built from the base. *)
Definition synced (r : DynamicP4Router P) : Prop :=
  ∃ f0 history, router_new (startup_for (ports r) (configured_static r) (learned_fib (rib r))) = Ok f0 ∧
    forwarding r = after history f0.

Definition same_config (r r' : DynamicP4Router P) : Prop :=
  ports r' = ports r ∧ configured_static r' = configured_static r ∧ router_id r' = router_id r.

(** A rebuild that succeeds synchronises, one that fails changes nothing. *)
Lemma rebuild_cases (r r' : DynamicP4Router P) out : rebuild_forwarding r = (r', out) →
  same_config r r' ∧ rib r' = rib r ∧ (out = Ok tt → synced r') ∧ (out ≠ Ok tt → r' = r).
Proof.
  unfold rebuild_forwarding, gets, lift, modify. cbv [mbind st_bind]. unfold Datatypes.id. rewrite build_forwarding_eq.
  destruct (router_new _) as [f | e |] eqn:E; intros [= <- <-]; (split; [done |]); (split; [done |]); (split; [| done]); try done.
  intros _. exists f, []. by split.
Qed.

Lemma after_snoc history port packet (f : StaticP4Router P) :
  (process port packet (after history f)).1 = after (history ++ [(port, packet)]) f.
Proof. unfold after. by rewrite fold_left_app. Qed.

Lemma withdraw_same from w (r r' : RouterRib) : receive_withdrawal from w r = (r', Ok false) → r' = r.
Proof.
  unfold receive_withdrawal. destruct (_ || _); [done |]. intros [= <- Hl]. apply negb_false_iff, Z.eqb_eq in Hl.
  destruct r as [id l]. unfold set_routes. cbn in *. f_equal.
  assert (Hf : ∀ l : list RibRoute, len (filter (λ r, learned_for (rw_prefix w) from r = false) l) = len l →
    filter (λ r, learned_for (rw_prefix w) from r = false) l = l).
  { clear. intros l. induction l as [| x l IH]; [done |]. rewrite filter_cons. case_decide; rewrite !len_cons.
    - intros Hl. f_equal. apply IH. lia.
    - intros Hl. pose proof (length_filter (λ r, learned_for (rw_prefix w) from r = false) l). unfold len in *. lia. }
  by apply Hf.
Qed.

Lemma down_same n (r : RouterRib) : (remove_learned_from n r).2 = [] → (remove_learned_from n r).1 = r.
Proof.
  unfold remove_learned_from. cbn. intros Hb. destruct r as [id l]. unfold set_routes. cbn in *. f_equal.
  assert (Hl : filter (λ r, learned_by n r = true) l = []).
  { destruct (filter (λ r, learned_by n r = true) l) as [| x k]; [done |].
    assert (rr_prefix x ∈ btree_set (rr_prefix <$> x :: k)) as Hx by (apply elem_of_btree_set; left).
    rewrite Hb in Hx. by apply not_elem_of_nil in Hx. }
  clear Hb. induction l as [| x l IH]; [done |]. rewrite filter_cons in Hl |- *. destruct (learned_by n x) eqn:E; cbn in *; [done |].
  f_equal. by apply IH.
Qed.

(** What a call does to the forwarding plane: it is built anew from the base,
    or it is used as it is; then the base is as it was or the call fails. *)
Definition call_effect (r r' : DynamicP4Router P) (out : res unit) : Prop :=
  same_config r r' ∧
  ((out = Ok tt ∧ synced r') ∨
   ((∃ history, forwarding r' = after history (forwarding r)) ∧ (rib r' = rib r ∨ out ≠ Ok tt))).

Lemma rebuild_effect (r r1 r' : DynamicP4Router P) out :
  same_config r r1 → forwarding r1 = forwarding r → rebuild_forwarding r1 = (r', out) → call_effect r r' out.
Proof.
  intros (C1 & C2 & C3) Ef H'. destruct (rebuild_cases r1 r' out H') as ((C1' & C2' & C3') & _ & Hok & Hbad).
  split; [split_and!; congruence |]. destruct (decide (out = Ok tt)) as [Ho | Ho]; [left; auto |].
  right. split; [| by right]. exists []. rewrite (Hbad Ho). done.
Qed.
Lemma unchanged_effect (r r' : DynamicP4Router P) out :
  same_config r r' → forwarding r' = forwarding r → (rib r' = rib r ∨ out ≠ Ok tt) → call_effect r r' out.
Proof. intros Hc Ef Hr. split; [done |]. right. split; [by exists [] | done]. Qed.

Lemma set_rib_same (r : DynamicP4Router P) q : same_config r (set_rib q r) ∧ forwarding (set_rib q r) = forwarding r.
Proof. done. Qed.

Lemma advertise_effect from port a (r r' : DynamicP4Router P) out :
  dr_receive_advertisement from port a r = (r', out) → call_effect r r' out.
Proof.
  unfold dr_receive_advertisement, zoom. cbv [mbind st_bind].
  destruct (receive_advertisement from port a (rib r)) as [q [[] | e |]].
  - by apply rebuild_effect.
  - intros [= <- <-]. apply unchanged_effect; [done | done | by right].
  - intros [= <- <-]. apply unchanged_effect; [done | done | by right].
Qed.

Lemma withdraw_effect from w (r r' : DynamicP4Router P) out :
  dr_receive_withdrawal from w r = (r', out) → call_effect r r' ((λ _, tt) <$> out).
Proof.
  unfold dr_receive_withdrawal, zoom. cbv [mbind st_bind].
  destruct (receive_withdrawal from w (rib r)) as [q [[] | e |]] eqn:E.
  - destruct (rebuild_forwarding (set_rib q r)) as [r1 [[] | e |]] eqn:Er; intros [= <- <-];
      by apply (rebuild_effect _ (set_rib q r)).
  - intros [= <- <-]. apply unchanged_effect; [done | done |]. left. by apply withdraw_same in E.
  - intros [= <- <-]. apply unchanged_effect; [done | done | by right].
  - intros [= <- <-]. apply unchanged_effect; [done | done | by right].
Qed.

Lemma down_effect n (r r' : DynamicP4Router P) out : neighbor_down n r = (r', out) → call_effect r r' ((λ _, tt) <$> out).
Proof.
  unfold neighbor_down. cbv [mbind st_bind]. pose proof (down_same n (rib r)) as Hs.
  destruct (remove_learned_from n (rib r)) as [q [| p changed]]; cbn [fst snd] in Hs.
  - intros [= <- <-]. apply unchanged_effect; [done | done |]. left. by apply Hs.
  - destruct (rebuild_forwarding (set_rib q r)) as [r1 [[] | e |]] eqn:Er; intros [= <- <-];
      by apply (rebuild_effect _ (set_rib q r)).
Qed.

Lemma expire_effect now adj (r r' : DynamicP4Router P) adj' out :
  expire_adjacency now (r, adj) = ((r', adj'), out) → call_effect r r' ((λ _, tt) <$> out).
Proof.
  unfold expire_adjacency, guard_st, lift, zoom, gets. cbv [mbind st_bind]. unfold Datatypes.id. cbn [fst snd].
  destruct (negb (ad_router_id adj =? router_id r)); cbn [fail_if].
  { intros [= <- <- <-]. apply unchanged_effect; [done | done | by right]. }
  destruct (expire now adj) as [adj1 []]; cbn [negb fst snd].
  - destruct (rn_router_id <$> ad_neighbor adj) as [n |].
    + cbn [fst]. destruct (neighbor_down n r) as [r1 o] eqn:E. intros [= <- <- <-]. by apply (down_effect n).
    + intros [= <- <- <-]. apply unchanged_effect; [done | done | by left].
  - intros [= <- <- <-]. apply unchanged_effect; [done | done | by left].
Qed.

Lemma process_effect port packet (r r' : DynamicP4Router P) out : dr_process port packet r = (r', out) → call_effect r r' ((λ _, tt) <$> out).
Proof.
  unfold dr_process, zoom. destruct (process port packet (forwarding r)) as [f o] eqn:E. intros [= <- <-].
  split; [done |]. right. split; [| by left]. exists [(port, packet)]. cbn. by rewrite E.
Qed.

Lemma step_effect o (r r' : DynamicP4Router P) out : dynamic_step o r = (r', out) → call_effect r r' out.
Proof.
  assert (Htt : ∀ {X} (m : st (DynamicP4Router P) X), (∀ q y, m r = (q, y) → call_effect r q ((λ _, tt) <$> y)) →
    (m;; mret tt) r = (r', out) → call_effect r r' out).
  { intros X m Hm. cbv [mbind st_bind mret]. destruct (m r) as [q [x | e |]] eqn:E; intros [= <- <-]; apply (Hm q _ eq_refl). }
  destruct o as [from port a | from w | n | now adj | port packet]; cbn [dynamic_step].
  - apply advertise_effect.
  - apply Htt. apply withdraw_effect.
  - apply Htt. apply down_effect.
  - destruct (expire_adjacency now (r, adj)) as [[r1 adj1] o] eqn:E. intros [= <- <-]. by eapply expire_effect.
  - apply Htt. apply process_effect.
Qed.

Lemma step_synced o (r r' : DynamicP4Router P) : synced r → dynamic_step o r = (r', Ok tt) → synced r'.
Proof.
  intros (f0 & history & Hf & Ef) Hs. destruct (step_effect o r r' _ Hs) as ((C1 & C2 & _) & [[_ Hy] | [[h Eh] [Er | Ho]]]); [done | | done].
  exists f0, (history ++ h). rewrite C1, C2, Er. split; [done |]. rewrite Eh, Ef. unfold after. by rewrite fold_left_app.
Qed.

Lemma run_synced ops (r r' : DynamicP4Router P) : synced r → dynamic_run ops r = (r', Ok tt) →
  synced r' ∧ same_config r r'.
Proof.
  revert r. induction ops as [| o ops IH]; intros r Hr Hs.
  { injection Hs as <-. done. }
  cbn [dynamic_run fold_right] in Hs. apply st_bind_Ok in Hs as (r1 & [] & H1 & Hs).
  destruct (IH r1 (step_synced o r r1 Hr H1) Hs) as [Hy (C1 & C2 & C3)]. split; [done |].
  destruct (step_effect o r r1 _ H1) as [(D1 & D2 & D3) _]. split_and!; congruence.
Qed.

(** *** The routes in the base are prefixes and ports. *)

Definition rib_wf (r : RouterRib) : Prop := Forall (λ x, wf_prefix (rr_prefix x) ∧ u16 (rr_port x)) (rib_routes r).

Lemma upsert_Forall {A} (Q : A → Prop) p x (l : list A) : Q x → Forall Q l → Forall Q (upsert p x l).
Proof.
  intros Hx Hl. induction Hl as [| y l Hy Hl IH]; cbn [upsert]; [by constructor |].
  destruct (p y); by constructor.
Qed.
Lemma rib_wf_filter (r : RouterRib) (Q : RibRoute → Prop) `{∀ x, Decision (Q x)} : rib_wf r → rib_wf (set_routes r (filter Q (rib_routes r))).
Proof.
  unfold rib_wf. cbn. rewrite !Forall_forall. intros Hr x [_ Hx]%list_elem_of_filter. by apply Hr.
Qed.
Lemma rib_wf_upsert (r : RouterRib) p x : wf_prefix (rr_prefix x) → u16 (rr_port x) → rib_wf r → rib_wf (set_routes r (upsert p x (rib_routes r))).
Proof. intros Hp Hu Hr. unfold rib_wf. cbn. by apply upsert_Forall. Qed.

Lemma step_rib_wf o (r : DynamicP4Router P) : dop_wf o → rib_wf (rib r) → rib_wf (rib (dynamic_step o r).1).
Proof.
  assert (Hreb : ∀ q : DynamicP4Router P, rib_wf (rib q) → rib_wf (rib (rebuild_forwarding q).1)).
  { intros q Hq. destruct (rebuild_forwarding q) as [q' out] eqn:E. destruct (rebuild_cases q q' out E) as (_ & Er & _).
    cbn. by rewrite Er. }
  assert (Hdown : ∀ n (q : DynamicP4Router P), rib_wf (rib q) → rib_wf (rib (neighbor_down n q).1)).
  { intros n q Hq. unfold neighbor_down. cbv [mbind st_bind mret st_ret]. unfold remove_learned_from.
    assert (Hf : rib_wf (rib (set_rib (set_routes (rib q) (filter (λ x, learned_by n x = false) (rib_routes (rib q)))) q)))
      by (apply rib_wf_filter, Hq).
    destruct (btree_set _); [done |]. pose proof (Hreb _ Hf) as Hr. by destruct (rebuild_forwarding _) as [q' [| |]]. }
  intros Ho Hr. destruct o as [from port a | from w | n | now adj | port packet]; cbn [dynamic_step dop_wf] in *.
  - unfold dr_receive_advertisement, zoom, receive_advertisement. cbv [mbind st_bind].
    destruct (bool_decide (from = local_router_id (rib r)) || _ || _); [done |]. destruct Ho as [Hu Hp].
    apply Hreb. by apply (rib_wf_upsert (rib r)).
  - unfold dr_receive_withdrawal, zoom, receive_withdrawal. cbv [mbind st_bind mret st_ret].
    destruct (bool_decide (from = local_router_id (rib r)) || _); [done |].
    assert (Hf : rib_wf (rib (set_rib (set_routes (rib r) (filter (λ x, learned_for (rw_prefix w) from x = false) (rib_routes (rib r)))) r)))
      by (apply rib_wf_filter, Hr).
    destruct (negb _); [| done]. pose proof (Hreb _ Hf) as Hq. by destruct (rebuild_forwarding _) as [q' [[] | |]].
  - pose proof (Hdown n r Hr) as Hq. cbv [mbind st_bind mret st_ret]. by destruct (neighbor_down n r) as [q [| |]].
  - destruct (expire_adjacency now (r, adj)) as [[q a1] out] eqn:E. cbn [fst].
    unfold expire_adjacency, guard_st, lift, zoom, gets in E. cbv [mbind st_bind mret st_ret] in E. unfold Datatypes.id in E. cbn [fst snd] in E.
    destruct (negb (ad_router_id adj =? router_id r)); cbn [fail_if] in E; [by simplify_eq |].
    destruct (expire now adj) as [adj1 []]; cbn [negb fst snd] in E; [| by simplify_eq].
    destruct (rn_router_id <$> ad_neighbor adj) as [n |]; [| by simplify_eq]. cbn [fst] in E.
    pose proof (Hdown n r Hr) as Hq. destruct (neighbor_down n r) as [q' out']. injection E as <- <- <-. done.
  - unfold dr_process, zoom. cbv [mbind st_bind mret st_ret]. by destruct (process port packet (forwarding r)) as [f [| |]].
Qed.

Lemma run_rib_wf ops (r : DynamicP4Router P) : Forall dop_wf ops → rib_wf (rib r) → rib_wf (rib (dynamic_run ops r).1).
Proof.
  revert r. induction ops as [| o ops IH]; intros r Ho Hr; [done |]. apply Forall_cons in Ho as [Hw Ho].
  cbn [dynamic_run fold_right]. cbv [mbind st_bind]. pose proof (step_rib_wf o r Hw Hr) as Hs.
  destruct (dynamic_step o r) as [r1 [[] | |]]; [| done..]. by apply IH.
Qed.

Lemma initial_rib_wf id ports configured : wf_startup (mkStartup ports configured) →
  rib_wf (fold_left configure_static configured (fold_left configure_port ports (rib_new id))).
Proof.
  intros [Hp Hs]. cbn [rc_ports rc_routes] in *.
  assert (H1 : ∀ q, rib_wf q → rib_wf (fold_left configure_port ports q)).
  { induction Hp as [| p l (Hu & _ & Hx & _) _ IH]; intros q Hq; [done |]. cbn. apply IH. unfold configure_port.
    destruct (connected_prefix p); [| done]. by apply rib_wf_upsert. }
  assert (H2 : ∀ q, rib_wf q → rib_wf (fold_left configure_static configured q)).
  { induction Hs as [| x l (Hx & Hu) _ IH]; intros q Hq; [done |]. cbn. apply IH. by apply rib_wf_upsert. }
  apply H2, H1. constructor.
Qed.

Lemma startup_for_wf ports configured r : wf_startup (mkStartup ports configured) → rib_wf r →
  wf_startup (startup_for ports configured (learned_fib r)).
Proof.
  intros [Hp Hs] Hr. split; [done |]. cbn. apply Forall_app. split; [done |]. apply Forall_forall.
  intros x Hx. apply list_elem_of_fmap in Hx as (s & -> & [_ Hin]%list_elem_of_filter).
  unfold learned_fib in Hin. apply list_elem_of_filter in Hin as [_ Hin]. apply elem_of_selected in Hin as (q & Hb & ->).
  destruct (best_of_elem _ _ Hb) as [Hq _]. unfold routes_for in Hq. apply list_elem_of_filter in Hq as [_ Hq].
  unfold rib_wf in Hr. rewrite Forall_forall in Hr. exact (Hr q Hq).
Qed.

Lemma dynamic_new_ok id ports0 configured (r : DynamicP4Router P) : wf_startup (mkStartup ports0 configured) →
  dynamic_new id ports0 configured = Ok r →
  synced r ∧ rib_wf (rib r) ∧ ports r = ports0 ∧ configured_static r = configured ∧ router_id r = id.
Proof.
  intros Hw Hr. unfold dynamic_new in Hr. rewrite build_forwarding_eq in Hr. apply bind_Ok in Hr as (f & Hf & Hr).
  apply Ok_inj in Hr as <-. split; [exists f, []; by split |]. split; [by apply initial_rib_wf | done].
Qed.

Lemma synced_process (r : DynamicP4Router P) ingress_port packet :
  synced r → wf_startup (mkStartup (ports r) (configured_static r)) → rib_wf (rib r) →
  0 ≤ ingress_port < ROUTER_PORT_COUNT → wf_packet packet →
  (dr_process ingress_port packet r).2 =
  Ok (disposition (fib_of (startup_for (ports r) (configured_static r) (learned_fib (rib r)))) (local_suffixes (ports r)) ingress_port packet).
Proof.
  intros (f0 & history & Hf & Ef) Hw Hr Hi Hp. destruct (router_new_ok _ f0 (startup_for_wf _ _ _ Hw Hr) Hf) as (Hok & Es & Efib).
  destruct (after_ok history f0 Hok) as (Hok' & Ef' & Es'). unfold dr_process, zoom.
  pose proof (process_disposition ingress_port packet (forwarding r)) as Hd. rewrite Ef, Ef', Es', Es, Efib in Hd.
  specialize (Hd Hok' Hi Hp). rewrite Ef. destruct (process _ _ _) as [f out]. cbn in Hd |- *. by rewrite Hd.
Qed.

(** *** A route for one of the router's own addresses *)

Definition own_route (r : DynamicP4Router P) (s : SelectedRoute) : Prop :=
  s ∈ learned_fib (rib r) ∧ sr_prefix s ∉ st_prefix <$> configured_static r ∧
  ∃ a, a ∈ ROUTER_BOOTSTRAP_ADDRESS :: own_addresses (ports r) ∧ sr_prefix s = host a.

Lemma own_route_refused (r : DynamicP4Router P) s : own_route r s →
  router_new (P := P) (startup_for (ports r) (configured_static r) (learned_fib (rib r))) = Err InvalidField.
Proof.
  intros (Hs & Hn & a & Ha & Ep). unfold router_new. destruct (validate_field (startup_for (ports r) (configured_static r) (learned_fib (rib r)))) as [-> | [[] E]]; [done |].
  exfalso. apply validate_valid in E.
  assert (Hin : direct (sr_prefix s) (sr_port s) ∈ rc_routes (startup_for (ports r) (configured_static r) (learned_fib (rib r)))).
  { cbn. apply elem_of_app. right. unfold learned_statics. apply (list_elem_of_fmap_2 (λ s, direct (sr_prefix s) (sr_port s))).
    by apply list_elem_of_filter. }
  destruct (vs_routes _ E _ Hin) as [_ Hv]. apply Hv; cbn [direct st_prefix]; by rewrite Ep.
Qed.

Lemma own_route_rebuild (r : DynamicP4Router P) s : own_route r s → rebuild_forwarding r = (r, Err InvalidField).
Proof.
  intros Hs. unfold rebuild_forwarding, gets, lift, modify. cbv [mbind st_bind]. unfold Datatypes.id.
  by rewrite build_forwarding_eq, (own_route_refused r s Hs).
Qed.
End calls.

(** C33: while the calls on a dynamic router succeed, it forwards every packet
    as the forwarding table built from its ports, its static routes and the
    learned routes its routing information base selects now prescribes. *)
Theorem dynamic_router_tracks_rib `{EntryChoice} {P : Type} `{!Pipeline P, !Runs P router_program}
    id ports configured (r0 : DynamicP4Router P) ops r ingress_port packet :
  wf_startup (mkStartup ports configured) → Forall dop_wf ops →
  dynamic_new id ports configured = Ok r0 → dynamic_run ops r0 = (r, Ok tt) →
  0 ≤ ingress_port < ROUTER_PORT_COUNT → wf_packet packet →
  (dr_process ingress_port packet r).2 =
  Ok (disposition (fib_of (startup_for ports configured (learned_fib (rib r)))) (local_suffixes ports) ingress_port packet).
Proof.
  intros Hw Ho Hn Hr Hi Hp. destruct (dynamic_new_ok id ports configured r0 Hw Hn) as (Hs & Hwf & Ep & Ec & _).
  destruct (run_synced ops r0 r Hs Hr) as [Hs' (Ep' & Ec' & _)]. pose proof (run_rib_wf ops r0 Ho Hwf) as Hwf'. rewrite Hr in Hwf'.
  rewrite <- Ep, <- Ec, <- Ep', <- Ec' in *. by apply synced_process.
Qed.

(** C34: as long as the routing information base selects a learned route for a
    single address that is the router's own (or the bootstrap address) no call
    changes where packets go, and every route announcement, whoever makes it, is
    answered with [InvalidField] although it enters the base. *)
Theorem own_address_route_freezes `{EntryChoice} {P : Type} `{!Pipeline P, !Runs P router_program}
    o (r r' : DynamicP4Router P) out s :
  dynamic_step o r = (r', out) → own_route r' s →
  (∃ history, forwarding r' = after history (forwarding r)) ∧
  match o with DoAdvertise _ _ _ => out = Err InvalidField | _ => True end.
Proof.
  intros Hs Hr. pose proof (own_route_refused r' s Hr) as Hf. split.
  - destruct (step_effect o r r' out Hs) as [_ [[_ (f & h & Hn & _)] | [Hh _]]]; [| done]. by rewrite Hf in Hn.
  - destruct o as [from port a | | | |]; [| done..]. cbn [dynamic_step] in Hs. unfold dr_receive_advertisement, zoom in Hs. cbv [mbind st_bind] in Hs.
    destruct (receive_advertisement from port a (rib r)) as [q [[] | e |]] eqn:E.
    + destruct (rebuild_cases _ _ _ Hs) as (_ & _ & Hok & Hbad).
      destruct (decide (out = Ok tt)) as [Ho | Ho]; [destruct (Hok Ho) as (f & h & Hn & _); by rewrite Hf in Hn |].
      rewrite (Hbad Ho) in Hr. rewrite (own_route_rebuild _ s Hr) in Hs. by injection Hs as _ <-.
    + injection Hs as _ <-. unfold receive_advertisement in E. destruct (_ || _ || _); [by injection E as _ <- | done].
    + unfold receive_advertisement in E. by destruct (_ || _ || _).
Qed.

#[local] Existing Instance first_entry.

Definition demo_ports : list RouterPortConfig := rc_ports demo_startup.
Definition remote : GdpPrefix := mkPrefix 0x3001000000000000 16.
Definition demo_dynamic_ops : list dynamic_op := [DoAdvertise 7 1 (mkAdv 7 remote Connected 5)].
Definition remote_packet : GdpPacket :=
  mkPacket (header_global Gts Tiny3 64 0x2001000000000007 0x3001000000000009) [1; 2; 3].

Lemma wf_remote_packet : wf_packet remote_packet.
Proof. split; [| done]. split_and!; cbn; try lia; try done; unfold u8, u64; lia. Qed.
Lemma wf_demo_ports : wf_startup (mkStartup demo_ports []).
Proof. destruct wf_demo_startup as [Hp _]. split; [exact Hp | apply Forall_nil; done]. Qed.
Lemma wf_demo_ops : Forall dop_wf demo_dynamic_ops.
Proof.
  repeat (apply Forall_cons; split); [| apply Forall_nil; done]. split; [unfold u16; lia |].
  exists 0x3001000000000000, 16. split; [unfold u64; lia |]. split; [lia | done].
Qed.

Lemma dynamic_router_tracks_rib_witness :
  ∃ r0 r : DynamicP4Router (installed router_program),
    dynamic_new 1 demo_ports [] = Ok r0 ∧ dynamic_run demo_dynamic_ops r0 = (r, Ok tt) ∧
    (dr_process 0 remote_packet r).2 =
    Ok (disposition (fib_of (startup_for demo_ports [] (learned_fib (rib r)))) (local_suffixes demo_ports) 0 remote_packet).
Proof.
  assert (Hk : match dynamic_new (P := installed router_program) 1 demo_ports [] with
    | Ok r0 => is_ok (dynamic_run demo_dynamic_ops r0).2 | _ => false end = true) by (vm_compute; reflexivity).
  destruct (dynamic_new 1 demo_ports []) as [r0 | e |] eqn:E0; [| discriminate Hk..].
  destruct (dynamic_run demo_dynamic_ops r0) as [r [[] | e |]] eqn:E1; cbn in Hk; [clear Hk | discriminate Hk..].
  exists r0, r. split; [reflexivity |]. split; [exact E1 |].
  exact (dynamic_router_tracks_rib 1 demo_ports [] r0 demo_dynamic_ops r 0 remote_packet wf_demo_ports wf_demo_ops E0 E1
    (conj (Z.le_refl 0) eq_refl) wf_remote_packet).
Defined.

(** A neighbour announces the address of the router on its second port. *)
Definition hostile_op : dynamic_op := DoAdvertise 7 1 (mkAdv 7 (host 0x2002000000000001) Connected 0).
Definition hostile_route : SelectedRoute := mkSel (host 0x2002000000000001) 1 Learned 0 (Some 7).

Lemma own_address_route_freezes_witness :
  ∃ r0 : DynamicP4Router (installed router_program),
    dynamic_new 1 demo_ports [] = Ok r0 ∧ own_route (dynamic_step hostile_op r0).1 hostile_route ∧
    ((∃ history, forwarding (dynamic_step hostile_op r0).1 = after history (forwarding r0)) ∧
     (dynamic_step hostile_op r0).2 = Err InvalidField).
Proof.
  assert (Hk : match dynamic_new (P := installed router_program) 1 demo_ports [] with
    | Ok r0 => bool_decide (learned_fib (rib (dynamic_step hostile_op r0).1) = [hostile_route] ∧
        configured_static (dynamic_step hostile_op r0).1 = [] ∧
        own_addresses (ports (dynamic_step hostile_op r0).1) = own_addresses demo_ports)
    | _ => false end = true) by (vm_compute; reflexivity).
  destruct (dynamic_new 1 demo_ports []) as [r0 | e |] eqn:E0; [| discriminate Hk..]. exists r0. split; [reflexivity |].
  apply bool_decide_eq_true in Hk as (Hl & Hc & Ho).
  assert (Hr : own_route (dynamic_step hostile_op r0).1 hostile_route).
  { split; [rewrite Hl; apply list_elem_of_here |]. split; [rewrite Hc; apply not_elem_of_nil |].
    exists 0x2002000000000001. split; [| reflexivity]. rewrite Ho. do 4 apply list_elem_of_further. apply list_elem_of_here. }
  split; [exact Hr |].
  exact (own_address_route_freezes hostile_op r0 _ _ hostile_route (surjective_pairing _) Hr).
Defined.
