(* ===== verification/Runtime.v ===== *)
(** * The endpoint with routes, and its scheduling (src/src/endpoint.rs, src/src/runtime.rs)

    The endpoint of the library is the core of EndpointCore.v with a routing
    table of eight entries; the runtime gives it typed times, tells its caller
    when to poll next, and wakes the tasks that wait for it. Proved: what a next
    hop is, that the poll deadline misses no route expiry, and what happens
    at the very instant a route expires. *)
From stdpp Require Import prelude gmap.
From Stdlib Require Import ZArith Lia ZifyBool.
From S2P Require Import Prelude Time Css Gctl GdpWire GtsWire Dlp Reliable GtsStream Routing EndpointCore.
Local Open Scope Z_scope.

(** ** endpoint.rs *)

Definition ENDPOINT_ROUTE_CAPACITY : nat := 8.

Record Endpoint : Set := mkEndpoint { ep_inner : EndpointCore; ep_routes : RouteTable }.

Definition endpoint_new (address : Z) (cfg : EndpointConfig) : res Endpoint :=
  inner ← ep_new address cfg; Ok (mkEndpoint inner (table_new ENDPOINT_ROUTE_CAPACITY)).
Definition endpoint_unconfigured (link_local_suffix : Z) (cfg : EndpointConfig) : res Endpoint :=
  inner ← ep_unconfigured link_local_suffix cfg; Ok (mkEndpoint inner (table_new ENDPOINT_ROUTE_CAPACITY)).

(** [DerefMut]: a call on the core *)
Definition put_inner (c : EndpointCore) (self : Endpoint) : Endpoint := mkEndpoint c (ep_routes self).
Definition on_core {A} (m : st EndpointCore A) : st Endpoint A := zoom ep_inner put_inner m.
Definition put_routes (t : RouteTable) (self : Endpoint) : Endpoint := mkEndpoint (ep_inner self) t.

Definition route (self : Endpoint) (destination now : Z) : option Z := table_lookup (ep_routes self) destination now.
Definition next_hop (self : Endpoint) (destination now : Z) : option Z :=
  if table_len (ep_routes self) =? 0 then Some destination else route self destination now.
Definition require_next_hop (destination now : Z) : st Endpoint Z :=
  self ← gets Datatypes.id; lift (ok_or (next_hop self destination now) NoRoute).

Definition connect_at (remote : Z) (css : ServiceSelector) (p : StreamProfile) (now : Z) : st Endpoint Z :=
  _ ← require_next_hop remote now; on_core (ep_connect remote css p).
Definition send_gctl_at (remote : Z) (msg : GctlMessage) (class : SizeClass) (now : Z) : st Endpoint unit :=
  _ ← require_next_hop remote now; on_core (send_gctl remote msg class).
Definition send_echo_at (remote transaction_id : Z) (data : list Z) (class : SizeClass) (now : Z) : st Endpoint unit :=
  _ ← require_next_hop remote now; on_core (send_echo remote transaction_id data class).

(** ** runtime.rs: typed times *)

Definition send_at (h sid : Z) (data : list Z) (now : Z) : st Endpoint unit :=
  on_core (ep_send h sid data (Instant.total_millis now)).
Definition send_end_at (h sid : Z) (data : list Z) (now : Z) : st Endpoint unit :=
  on_core (ep_send_end h sid data (Instant.total_millis now)).
Definition receive_flit_at (flit : Flit) (now : Z) : st Endpoint bool :=
  on_core (receive_flit flit (Instant.total_millis now)).
Definition receive_frame_at (frame : GnetFrame) (now : Z) : st Endpoint bool :=
  on_core (ep_receive_frame frame (Instant.total_millis now)).

Definition tick_at (now : Z) : st Endpoint Z :=
  pruned ← (λ self, let '(t, n) := prune_expired now (ep_routes self) in (put_routes t self, Ok n));
  transport_work ← on_core (ep_tick (Instant.total_millis now));
  mret (saturating_add 64 transport_work pruned).

Definition poll_at (self : Endpoint) (now : Z) : PollAt :=
  if negb (queued_flits (dlp (ep_inner self)) =? 0) then Now
  else
    let transport_deadline := Instant.add now DEFAULT_RTO_MS in
    match next_expiry (ep_routes self) with
    | Some expiry =>
        if expiry <=? now then Now
        else if expiry <? transport_deadline then Time expiry
        else Time transport_deadline
    | None => Time transport_deadline
    end.
Definition poll_delay (self : Endpoint) (now : Z) : option Z := delay_from (poll_at self now) now.

(** ** runtime.rs: wakers

    A [Waker] is a value of a type [W]; waking one is an effect, recorded in
    [woken] in the order of the calls. *)
Section wakers.
Context {W : Type} (will_wake : W → W → bool).

Definition WakerRegistration : Type := option W.
Definition waker_register (w : W) (self : WakerRegistration) : WakerRegistration :=
  match self with
  | Some old => if will_wake old w then self else Some w
  | None => Some w
  end.
Definition waker_wake (self : WakerRegistration) : WakerRegistration * list W := (None, option_list self).
Definition waker_clear (self : WakerRegistration) : WakerRegistration := None.

Record AsyncEndpoint : Type := mkAsync {
  as_endpoint : Endpoint; rx_waker : WakerRegistration; tx_waker : WakerRegistration; woken : list W }.

Definition async_new (endpoint : Endpoint) : AsyncEndpoint := mkAsync endpoint None None [].
Definition into_inner (self : AsyncEndpoint) : Endpoint := as_endpoint self.
Definition register_recv_waker (w : W) (self : AsyncEndpoint) : AsyncEndpoint :=
  mkAsync (as_endpoint self) (waker_register w (rx_waker self)) (tx_waker self) (woken self).
Definition register_send_waker (w : W) (self : AsyncEndpoint) : AsyncEndpoint :=
  mkAsync (as_endpoint self) (rx_waker self) (waker_register w (tx_waker self)) (woken self).
Definition wake_rx (self : AsyncEndpoint) : AsyncEndpoint :=
  let '(r, l) := waker_wake (rx_waker self) in mkAsync (as_endpoint self) r (tx_waker self) (woken self ++ l).
Definition wake_tx (self : AsyncEndpoint) : AsyncEndpoint :=
  let '(r, l) := waker_wake (tx_waker self) in mkAsync (as_endpoint self) (rx_waker self) r (woken self ++ l).

Definition put_endpoint (e : Endpoint) (self : AsyncEndpoint) : AsyncEndpoint :=
  mkAsync e (rx_waker self) (tx_waker self) (woken self).
Definition on_endpoint {A} (m : st Endpoint A) : st AsyncEndpoint A := zoom as_endpoint put_endpoint m.

Definition async_receive_frame_at (frame : GnetFrame) (now : Z) : st AsyncEndpoint bool :=
  r ← on_endpoint (receive_frame_at frame now);
  modify (λ s, wake_tx (wake_rx s));;
  mret r.
Definition async_receive_flit_at (flit : Flit) (now : Z) : st AsyncEndpoint bool :=
  r ← on_endpoint (receive_flit_at flit now);
  modify (λ s, wake_tx (wake_rx s));;
  mret r.
Definition async_recv (h sid : Z) : st AsyncEndpoint (option (list Z)) :=
  r ← on_endpoint (on_core (ep_recv h sid));
  modify (λ s, match r with Some _ => wake_tx s | None => s end);;
  mret r.
Definition async_send_at (h sid : Z) (data : list Z) (now : Z) : st AsyncEndpoint unit :=
  on_endpoint (send_at h sid data now).
Definition async_tick_at (now : Z) : st AsyncEndpoint Z :=
  count ← on_endpoint (tick_at now);
  modify (λ s, if negb (count =? 0) then wake_tx s else s);;
  mret count.
Definition async_poll_at (self : AsyncEndpoint) (now : Z) : PollAt := poll_at (as_endpoint self) now.
Definition async_poll_delay (self : AsyncEndpoint) (now : Z) : option Z := poll_delay (as_endpoint self) now.
End wakers.

(** ** Expiries *)

Lemma min_fold l a : ∃ m, fold_left min_step l (Some a) = Some m ∧ m ≤ a ∧ (m = a ∨ m ∈ l) ∧ Forall (λ x, m ≤ x) l.
Proof.
  revert a. induction l as [| x l IH]; intros a; [exists a; split; [done |]; split; [lia |]; split; [by left | constructor] |].
  cbn [fold_left min_step]. destruct (IH (Z.min a x)) as (m & E & Hm & Hc & Hf). exists m. split; [done |]. split; [lia |].
  split; [| constructor; [lia | done]]. destruct Hc as [Hc | Hc]; [| right; by right].
  destruct (Z.le_ge_cases a x); [left; lia | right; rewrite Hc, Z.min_r by lia; left].
Qed.

(** The earliest expiry of the routes *)
Lemma next_expiry_spec t :
  match next_expiry t with
  | Some e => (∃ r, r ∈ table_entries t ∧ expires_at r = Some e) ∧
      ∀ r x, r ∈ table_entries t → expires_at r = Some x → e ≤ x
  | None => ∀ r, r ∈ table_entries t → expires_at r = None
  end.
Proof.
  unfold next_expiry. set (l := omap expires_at (table_entries t)).
  assert (Hin : ∀ x, x ∈ l ↔ ∃ r, r ∈ table_entries t ∧ expires_at r = Some x) by (intros x; apply list_elem_of_omap).
  destruct l as [| a l'].
  - cbn. intros r Hr. destruct (expires_at r) as [x |] eqn:E; [| done].
    assert (x ∈ @nil Z) as Hx by (apply Hin; by exists r). by apply not_elem_of_nil in Hx.
  - cbn [fold_left]. change (min_step None a) with (Some a). destruct (min_fold l' a) as (m & E & Hm & Hc & Hf). rewrite E. split.
    + apply Hin. destruct Hc as [-> | Hc]; [left | by right].
    + intros r x Hr Hx. assert (x ∈ a :: l') as Hxl by (apply Hin; by exists r).
      apply elem_of_cons in Hxl as [-> | Hxl]; [done |]. rewrite Forall_forall in Hf. by apply Hf.
Qed.

(** Between two instants at which the same routes are alive a lookup does not change. *)
Lemma lookup_stable t d now now' :
  (∀ r, r ∈ table_entries t → is_expired r now = is_expired r now') → table_lookup t d now = table_lookup t d now'.
Proof.
  intros Hr. unfold table_lookup. f_equal. generalize (@None Route). revert Hr. generalize (table_entries t). intros l.
  induction l as [| r l IH]; intros Hr best; [done |]. cbn [fold_left]. 
  assert (Es : lookup_step d now best r = lookup_step d now' best r) by (unfold lookup_step; by rewrite (Hr r) by left).
  rewrite Es. apply IH. intros q Hq. apply Hr. by right.
Qed.

Lemma pruned_alive t now r : table_ok t → r ∈ table_entries (prune_expired now t).1 → is_expired r now = false ∧ r ∈ table_entries t.
Proof.
  intros Ht Hr. pose proof (prune_ok t now Ht) as Hp. destruct (prune_expired now t) as [t' n]. destruct Hp as (_ & _ & E).
  cbn in Hr. rewrite E in Hr. by apply list_elem_of_filter in Hr.
Qed.

(** What a successful tick leaves *)
Lemma tick_at_routes now (e e' : Endpoint) n : tick_at now e = (e', Ok n) → ep_routes e' = (prune_expired now (ep_routes e)).1.
Proof.
  unfold tick_at, on_core, zoom. cbv [mbind st_bind]. destruct (prune_expired now (ep_routes e)) as [t k]. cbn [ep_inner put_routes fst].
  destruct (ep_tick _ _) as [c [m | |]]; intros [= <- _]. done.
Qed.

Lemma filter_all {A} (Q : A → Prop) `{∀ x, Decision (Q x)} (l : list A) : (∀ x, x ∈ l → Q x) → filter Q l = l.
Proof.
  induction l as [| x l IH]; intros Hl; [done |]. rewrite filter_cons_True by (apply Hl; left). f_equal.
  apply IH. intros y Hy. apply Hl. by right.
Qed.

(** ** The schedule *)

(** C35: after a successful tick the endpoint asks to be polled at once exactly
    when flits wait for the link or a route expires at this very instant;
    otherwise it names an instant at most one retransmission timeout ahead, and up
    to that instant no route expires: every destination keeps its next hop. *)
Theorem runtime_schedule now (e e' : Endpoint) n :
  u64 now → table_ok (ep_routes e) → tick_at now e = (e', Ok n) →
  match poll_at e' now with
  | Now => queued_flits (dlp (ep_inner e')) ≠ 0 ∨ ∃ r, r ∈ table_entries (ep_routes e') ∧ expires_at r = Some now
  | Time t => queued_flits (dlp (ep_inner e')) = 0 ∧ now ≤ t ≤ now + DEFAULT_RTO_MS ∧ (now < 2 ^ 64 - 1 → now < t) ∧
      ∀ destination now', now ≤ now' ≤ t → next_hop e' destination now' = next_hop e' destination now
  | Ingress => False
  end.
Proof.
  intros Hnow Ht Htick. pose proof (tick_at_routes _ _ _ _ Htick) as Er. unfold poll_at.
  destruct (Z.eqb_spec (queued_flits (dlp (ep_inner e'))) 0) as [Hq | Hq]; cbn [negb]; [| by left].
  assert (Halive : ∀ r, r ∈ table_entries (ep_routes e') → is_expired r now = false).
  { intros r Hr. rewrite Er in Hr. by apply (pruned_alive _ _ _ Ht) in Hr as [? _]. }
  assert (Hgo : ∀ t, (∀ r x, r ∈ table_entries (ep_routes e') → expires_at r = Some x → t ≤ x) →
    ∀ destination now', now ≤ now' ≤ t → next_hop e' destination now' = next_hop e' destination now).
  { intros t Hx d now' Hn. unfold next_hop, route. destruct (_ =? 0); [done |]. apply lookup_stable. intros r Hr.
    rewrite (Halive r Hr). unfold is_expired. destruct (expires_at r) as [x |] eqn:Ex; [| done]. specialize (Hx r x Hr Ex). lia. }
  assert (Hd : now ≤ Instant.add now DEFAULT_RTO_MS ≤ now + DEFAULT_RTO_MS ∧ (now < 2 ^ 64 - 1 → now < Instant.add now DEFAULT_RTO_MS)).
  { unfold Instant.add, DEFAULT_RTO_MS. ulia. }
  pose proof (next_expiry_spec (ep_routes e')) as Hs. destruct (next_expiry (ep_routes e')) as [x |].
  - destruct Hs as [(r & Hr & Ex) Hmin]. destruct (Z.leb_spec x now) as [Hle | Hgt].
    + right. exists r. split; [done |]. pose proof (Halive r Hr) as Ha. unfold is_expired in Ha. rewrite Ex in Ha |- *. f_equal. lia.
    + destruct (Z.ltb_spec x (Instant.add now DEFAULT_RTO_MS)).
      * split_and!; try done; try lia. by apply Hgo.
      * split_and!; try done; try lia. apply Hgo. intros q y Hq' Ey. specialize (Hmin q y Hq' Ey). lia.
  - split_and!; try done; try lia. apply Hgo. intros q y Hq' Ey. by rewrite (Hs q Hq') in Ey.
Qed.

(** At the instant a route expires polling reports work that a tick does not
    find: the deadline is now, but no route is pruned, and as long as the link
    is idle the deadline stays now. *)
Theorem expiry_instant_spins now (e e' : Endpoint) n :
  table_ok (ep_routes e) → next_expiry (ep_routes e) = Some now →
  tick_at now e = (e', Ok n) →
  poll_at e now = Now ∧ poll_at e' now = Now ∧ table_entries (ep_routes e') = table_entries (ep_routes e).
Proof.
  intros Ht Hn Htick. pose proof (next_expiry_spec (ep_routes e)) as Hs. rewrite Hn in Hs. destruct Hs as [_ Hmin].
  assert (Er : table_entries (ep_routes e') = table_entries (ep_routes e)).
  { rewrite (tick_at_routes _ _ _ _ Htick). pose proof (prune_ok (ep_routes e) now Ht) as Hp.
    destruct (prune_expired now (ep_routes e)) as [t k]. destruct Hp as (_ & _ & E). cbn. rewrite E.
    apply filter_all. intros q Hq. unfold is_expired. destruct (expires_at q) as [x |] eqn:Eq; [| done]. specialize (Hmin q x Hq Eq). lia. }
  assert (Hpoll : ∀ q : Endpoint, next_expiry (ep_routes q) = Some now → poll_at q now = Now).
  { intros q Hq. unfold poll_at. rewrite Hq, Z.leb_refl. by destruct (negb _). }
  split; [by apply Hpoll |]. split; [| done]. apply Hpoll. unfold next_expiry in *. by rewrite Er.
Qed.

(** An endpoint with a default route and a route that expires at 1250 *)
Definition demo_route : Route := mkRoute (mkPrefix 0x1234000000000000 16) 2 None (Some 1250).
Definition demo_table : RouteTable := (table_add (route_new_default 3) (table_add demo_route (table_new ENDPOINT_ROUTE_CAPACITY)).1).1.
Definition demo_endpoint : res Endpoint := put_routes demo_table <$> endpoint_new 0x0102030400000001 (ep_config_new 256).

Lemma demo_table_ok : table_ok demo_table.
Proof.
  apply (table_reachable_ok ENDPOINT_ROUTE_CAPACITY). apply tr_add; [| exact wf_default]. apply tr_add; [apply tr_new |].
  exists 0x1234000000000000, 16. split; [unfold u64; lia |]. split; [lia | done].
Qed.

Lemma runtime_schedule_witness :
  match demo_endpoint with
  | Ok e =>
      let e' := (tick_at 1000 e).1 in
      match poll_at e' 1000 with
      | Now => queued_flits (dlp (ep_inner e')) ≠ 0 ∨ ∃ r, r ∈ table_entries (ep_routes e') ∧ expires_at r = Some 1000
      | Time t => queued_flits (dlp (ep_inner e')) = 0 ∧ 1000 ≤ t ≤ 1000 + DEFAULT_RTO_MS ∧ (1000 < 2 ^ 64 - 1 → 1000 < t) ∧
          ∀ destination now', 1000 ≤ now' ≤ t → next_hop e' destination now' = next_hop e' destination 1000
      | Ingress => False
      end
  | _ => False
  end.
Proof.
  assert (Hk : match demo_endpoint with Ok e => ep_routes e = demo_table ∧ (tick_at 1000 e).2 = Ok 0 | _ => False end)
    by (vm_compute; split; reflexivity).
  destruct demo_endpoint as [e | |]; [| exact Hk..]. destruct Hk as [Er Hk]. cbv zeta.
  refine (runtime_schedule 1000 e (tick_at 1000 e).1 0 _ _ _).
  - unfold u64. lia.
  - rewrite Er. exact demo_table_ok.
  - rewrite <- Hk. apply surjective_pairing.
Defined.

Lemma expiry_instant_spins_witness :
  match demo_endpoint with
  | Ok e => poll_at e 1250 = Now ∧ poll_at (tick_at 1250 e).1 1250 = Now ∧
      table_entries (ep_routes (tick_at 1250 e).1) = table_entries (ep_routes e)
  | _ => False
  end.
Proof.
  assert (Hk : match demo_endpoint with Ok e => ep_routes e = demo_table ∧ (tick_at 1250 e).2 = Ok 0 | _ => False end)
    by (vm_compute; split; reflexivity).
  destruct demo_endpoint as [e | |]; [| exact Hk..]. destruct Hk as [Er Hk].
  refine (expiry_instant_spins 1250 e (tick_at 1250 e).1 0 _ _ _).
  - rewrite Er. exact demo_table_ok.
  - rewrite Er. reflexivity.
  - rewrite <- Hk. apply surjective_pairing.
Defined.
