(* ===== verification/P4Gts.v ===== *)
(** * GTS through the P4 parser and deparser (src/p4-common/gts_wire.p4, src/src/p4_gts.rs)

    The headers and the parser of gts_wire.p4 and the second backend of the
    lower GTS codec, built on the Rust that is generated from them. The generated
    code is taken to do what the P4 source says: extracting a header takes its
    octets (and slices out of range when there are too few), [set] wants exactly
    as many, a field is its octets in network order, and the serialization is the
    valid headers in the order of [headers_t]. Proved: the two backends are the
    same functions, so the theorems about packets hold for both. *)
From stdpp Require Import prelude.
From Stdlib Require Import ZArith Lia.
From S2P Require Import Prelude Crc GdpWire GtsWire GtsCodec P4Gdp.
Local Open Scope Z_scope.

(** ** gts_wire.p4 *)

(** A header: its octets when it is valid *)
Definition header : Set := option (list Z).
(** The width of each header, in octets *)
Definition kind_len : Z := 1.
Definition connect_len : Z := 11.
Definition connect_ack_len : Z := 15.
Definition stream_open_len : Z := 9.
Definition stream_ack_len : Z := 8.
Definition data_len : Z := 9.
Definition data_option_len : Z := 2.
Definition ack_len : Z := 15.
Definition datagram_len : Z := 5.
Definition datagram_options_len : Z := 6.
Definition stream_close_len : Z := 9.
Definition tunnel_close_len : Z := 4.
Definition reset_len : Z := 9.
Definition stream_reset_len : Z := 7.

Record gts_headers_t : Set := mkGtsHeaders {
  h_kind : header; h_connect : header; h_connect_ack : header; h_stream_open : header; h_stream_ack : header;
  h_data : header; h_data_option : header; h_ack : header; h_datagram : header; h_datagram_options : header;
  h_stream_close : header; h_tunnel_close : header; h_reset : header; h_stream_reset : header }.
Definition no_headers : gts_headers_t :=
  mkGtsHeaders None None None None None None None None None None None None None None.

(** The headers with one of them set *)
Section set.
Context (h : header) (s : gts_headers_t).
Definition with_kind := mkGtsHeaders h (h_connect s) (h_connect_ack s) (h_stream_open s) (h_stream_ack s) (h_data s)
  (h_data_option s) (h_ack s) (h_datagram s) (h_datagram_options s) (h_stream_close s) (h_tunnel_close s) (h_reset s) (h_stream_reset s).
Definition with_connect := mkGtsHeaders (h_kind s) h (h_connect_ack s) (h_stream_open s) (h_stream_ack s) (h_data s)
  (h_data_option s) (h_ack s) (h_datagram s) (h_datagram_options s) (h_stream_close s) (h_tunnel_close s) (h_reset s) (h_stream_reset s).
Definition with_connect_ack := mkGtsHeaders (h_kind s) (h_connect s) h (h_stream_open s) (h_stream_ack s) (h_data s)
  (h_data_option s) (h_ack s) (h_datagram s) (h_datagram_options s) (h_stream_close s) (h_tunnel_close s) (h_reset s) (h_stream_reset s).
Definition with_stream_open := mkGtsHeaders (h_kind s) (h_connect s) (h_connect_ack s) h (h_stream_ack s) (h_data s)
  (h_data_option s) (h_ack s) (h_datagram s) (h_datagram_options s) (h_stream_close s) (h_tunnel_close s) (h_reset s) (h_stream_reset s).
Definition with_stream_ack := mkGtsHeaders (h_kind s) (h_connect s) (h_connect_ack s) (h_stream_open s) h (h_data s)
  (h_data_option s) (h_ack s) (h_datagram s) (h_datagram_options s) (h_stream_close s) (h_tunnel_close s) (h_reset s) (h_stream_reset s).
Definition with_data := mkGtsHeaders (h_kind s) (h_connect s) (h_connect_ack s) (h_stream_open s) (h_stream_ack s) h
  (h_data_option s) (h_ack s) (h_datagram s) (h_datagram_options s) (h_stream_close s) (h_tunnel_close s) (h_reset s) (h_stream_reset s).
Definition with_data_option := mkGtsHeaders (h_kind s) (h_connect s) (h_connect_ack s) (h_stream_open s) (h_stream_ack s) (h_data s)
  h (h_ack s) (h_datagram s) (h_datagram_options s) (h_stream_close s) (h_tunnel_close s) (h_reset s) (h_stream_reset s).
Definition with_ack := mkGtsHeaders (h_kind s) (h_connect s) (h_connect_ack s) (h_stream_open s) (h_stream_ack s) (h_data s)
  (h_data_option s) h (h_datagram s) (h_datagram_options s) (h_stream_close s) (h_tunnel_close s) (h_reset s) (h_stream_reset s).
Definition with_datagram := mkGtsHeaders (h_kind s) (h_connect s) (h_connect_ack s) (h_stream_open s) (h_stream_ack s) (h_data s)
  (h_data_option s) (h_ack s) h (h_datagram_options s) (h_stream_close s) (h_tunnel_close s) (h_reset s) (h_stream_reset s).
Definition with_datagram_options := mkGtsHeaders (h_kind s) (h_connect s) (h_connect_ack s) (h_stream_open s) (h_stream_ack s) (h_data s)
  (h_data_option s) (h_ack s) (h_datagram s) h (h_stream_close s) (h_tunnel_close s) (h_reset s) (h_stream_reset s).
Definition with_stream_close := mkGtsHeaders (h_kind s) (h_connect s) (h_connect_ack s) (h_stream_open s) (h_stream_ack s) (h_data s)
  (h_data_option s) (h_ack s) (h_datagram s) (h_datagram_options s) h (h_tunnel_close s) (h_reset s) (h_stream_reset s).
Definition with_tunnel_close := mkGtsHeaders (h_kind s) (h_connect s) (h_connect_ack s) (h_stream_open s) (h_stream_ack s) (h_data s)
  (h_data_option s) (h_ack s) (h_datagram s) (h_datagram_options s) (h_stream_close s) h (h_reset s) (h_stream_reset s).
Definition with_reset := mkGtsHeaders (h_kind s) (h_connect s) (h_connect_ack s) (h_stream_open s) (h_stream_ack s) (h_data s)
  (h_data_option s) (h_ack s) (h_datagram s) (h_datagram_options s) (h_stream_close s) (h_tunnel_close s) h (h_stream_reset s).
Definition with_stream_reset := mkGtsHeaders (h_kind s) (h_connect s) (h_connect_ack s) (h_stream_open s) (h_stream_ack s) (h_data s)
  (h_data_option s) (h_ack s) (h_datagram s) (h_datagram_options s) (h_stream_close s) (h_tunnel_close s) (h_reset s) h.
End set.

(** [pkt.extract(hdr.x)]: the octets of the header, and what is left *)
Definition extract_header (n : Z) (pkt : list Z) : res (header * list Z) :=
  w ← get_slice pkt 0 n; Ok (Some w, drop (Z.to_nat n) pkt).
(** A state that extracts one header and accepts *)
Definition parse_one (n : Z) (put : header → gts_headers_t → gts_headers_t) (pkt : list Z) (hdr : gts_headers_t)
    : res (option gts_headers_t) :=
  '(h, _) ← extract_header n pkt; Ok (Some (put h hdr)).
(** A state that extracts two *)
Definition parse_two (n m : Z) (put put' : header → gts_headers_t → gts_headers_t) (pkt : list Z) (hdr : gts_headers_t)
    : res (option gts_headers_t) :=
  '(h, pkt) ← extract_header n pkt;
  '(h', _) ← extract_header m pkt;
  Ok (Some (put' h' (put h hdr))).

(** A field of a header: [n] octets from [off] on *)
Definition field (h : header) (off n : Z) : Z := from_be (slice (default [] h) off (off + n)).
(** The two halves of the kind octet *)
Definition kind_reserved (hdr : gts_headers_t) : Z := Z.shiftr (field (h_kind hdr) 0 1) 4.
Definition kind_packet_type (hdr : gts_headers_t) : Z := Z.land (field (h_kind hdr) 0 1) 0x0f.

(** The state [start]; [None] is [reject] *)
Definition gts_parse_start (pkt : list Z) : res (option gts_headers_t) :=
  '(k, pkt) ← extract_header kind_len pkt;
  let hdr := with_kind k no_headers in
  if negb (kind_reserved hdr =? 0) then Ok None
  else match kind_packet_type hdr with
  | 1 => parse_one connect_len with_connect pkt hdr
  | 2 => parse_one connect_ack_len with_connect_ack pkt hdr
  | 3 => parse_one stream_open_len with_stream_open pkt hdr
  | 4 => parse_one stream_ack_len with_stream_ack pkt hdr
  | 5 => parse_two data_len data_option_len with_data with_data_option pkt hdr
  | 6 => parse_one ack_len with_ack pkt hdr
  | 7 => parse_two data_len data_option_len with_data with_data_option pkt hdr
  | 8 => parse_one stream_close_len with_stream_close pkt hdr
  | 9 => parse_one stream_close_len with_stream_close pkt hdr
  | 10 => parse_one tunnel_close_len with_tunnel_close pkt hdr
  | 11 => parse_one tunnel_close_len with_tunnel_close pkt hdr
  | 12 => parse_one reset_len with_reset pkt hdr
  | 13 => parse_two datagram_len datagram_options_len with_datagram with_datagram_options pkt hdr
  | 14 => parse_one stream_reset_len with_stream_reset pkt hdr
  | 15 => parse_one stream_reset_len with_stream_reset pkt hdr
  | _ => Ok None
  end.

(** [hdr.to_bitvec()] *)
Definition to_bitvec (s : gts_headers_t) : list Z :=
  default [] (h_kind s) ++ default [] (h_connect s) ++ default [] (h_connect_ack s) ++ default [] (h_stream_open s) ++
  default [] (h_stream_ack s) ++ default [] (h_data s) ++ default [] (h_data_option s) ++ default [] (h_ack s) ++
  default [] (h_datagram s) ++ default [] (h_datagram_options s) ++ default [] (h_stream_close s) ++
  default [] (h_tunnel_close s) ++ default [] (h_reset s) ++ default [] (h_stream_reset s).

(** ** p4_gts.rs *)

Definition p4_parse_lower (buf : list Z) : res GtsLowerPacket :=
  fail_if (len buf <? 5) InvalidLength;;
  b0 ← get_index buf 0;
  fail_if (negb (Z.shiftr b0 4 =? 0)) Unsupported;;
  ty ← gts_type_from_wire (Z.land b0 0x0f);
  prefix_len ← lower_prefix_len ty;
  fail_if (len buf <? prefix_len + 4) InvalidLength;;
  hdr ← gts_parse_start buf;
  hdr ← ok_or hdr Unsupported;
  fail_if (negb (kind_packet_type hdr =? gts_type_to_wire ty)) InvalidField;;
  match ty with
  | TConnect =>
      let h := h_connect hdr in
      Ok (LConnect (field h 0 4) (field h 4 4) (field h 8 2) (field h 10 1))
  | TConnectAck =>
      let h := h_connect_ack hdr in
      Ok (LConnectAck (field h 0 4) (field h 4 4) (field h 8 4) (field h 12 1) (field h 13 1) (field h 14 1))
  | TStreamOpen =>
      let h := h_stream_open hdr in
      Ok (LStreamOpen (field h 0 4) (field h 4 1) (field h 5 2) (field h 7 1) (field h 8 1))
  | TStreamAck =>
      let h := h_stream_ack hdr in
      Ok (LStreamAck (field h 0 4) (field h 4 1) (field h 5 1) (field h 6 1) (field h 7 1))
  | TData | TDataEnd =>
      let h := h_data hdr in
      Ok (LData (field h 0 4) (field h 4 1) (field h 5 4) (bool_decide (ty = TDataEnd)) (field (h_data_option hdr) 0 2))
  | TAck =>
      let h := h_ack hdr in
      Ok (LAck (field h 0 4) (field h 4 1) (field h 5 4) (field h 9 4) (field h 13 1) (field h 14 1))
  | TDatagram =>
      let h := h_datagram hdr in
      let o := h_datagram_options hdr in
      Ok (LDatagram (field h 0 4) (field h 4 1)
        [field o 0 1; field o 1 1; field o 2 1; field o 3 1; field o 4 1; field o 5 1])
  | TStreamClose | TStreamCloseAck =>
      let h := h_stream_close hdr in
      Ok (LStreamClose (field h 0 4) (field h 4 1) (field h 5 4) (bool_decide (ty = TStreamCloseAck)))
  | TTunnelClose | TTunnelCloseAck =>
      Ok (LTunnelClose (field (h_tunnel_close hdr) 0 4) (bool_decide (ty = TTunnelCloseAck)))
  | TReset =>
      let h := h_reset hdr in Ok (LReset (field h 0 4) (field h 4 4) (field h 8 1))
  | TStreamReset | TStreamResetAck =>
      let h := h_stream_reset hdr in
      Ok (LStreamReset (field h 0 4) (field h 4 1) (field h 5 1) (field h 6 1) (bool_decide (ty = TStreamResetAck)))
  | TReserved => Err Unsupported
  end.

(** [set_header(&mut hdr.x, bytes)] *)
Definition set_header (n : Z) (put : header → gts_headers_t → gts_headers_t) (bs : list Z) (hdr : gts_headers_t)
    : res gts_headers_t :=
  fail_if (negb (len bs =? n)) InvalidLength;; Ok (put (Some bs) hdr).

Definition p4_encode_lower (lower : GtsLowerPacket) : res (list Z) :=
  hdr ← set_header kind_len with_kind [gts_type_to_wire (lower_packet_type lower)] no_headers;
  hdr ← match lower with
  | LConnect a b c d => set_header connect_len with_connect (to_be 4 a ++ to_be 4 b ++ to_be 2 c ++ [d]) hdr
  | LConnectAck a b c d e f =>
      set_header connect_ack_len with_connect_ack (to_be 4 a ++ to_be 4 b ++ to_be 4 c ++ [d; e; f]) hdr
  | LStreamOpen a b c d e =>
      set_header stream_open_len with_stream_open (to_be 4 a ++ [b] ++ to_be 2 c ++ [d; e]) hdr
  | LStreamAck a b c d e => set_header stream_ack_len with_stream_ack (to_be 4 a ++ [b; c; d; e]) hdr
  | LData a b c _ d =>
      hdr ← set_header data_len with_data (to_be 4 a ++ [b] ++ to_be 4 c) hdr;
      set_header data_option_len with_data_option (to_be 2 d) hdr
  | LAck a b c d e f => set_header ack_len with_ack (to_be 4 a ++ [b] ++ to_be 4 c ++ to_be 4 d ++ [e; f]) hdr
  | LDatagram a b o =>
      hdr ← set_header datagram_len with_datagram (to_be 4 a ++ [b]) hdr;
      set_header datagram_options_len with_datagram_options o hdr
  | LStreamClose a b c _ => set_header stream_close_len with_stream_close (to_be 4 a ++ [b] ++ to_be 4 c) hdr
  | LTunnelClose a _ => set_header tunnel_close_len with_tunnel_close (to_be 4 a) hdr
  | LReset a b c => set_header reset_len with_reset (to_be 4 a ++ to_be 4 b ++ [c]) hdr
  | LStreamReset a b c d _ => set_header stream_reset_len with_stream_reset (to_be 4 a ++ [b; c; d]) hdr
  end;
  let out := to_bitvec hdr in
  n ← lower_prefix_len (lower_packet_type lower);
  fail_if (negb (len out =? n)) InvalidLength;;
  Ok out.

Definition p4_decoder : GtsLowerDecoder := p4_parse_lower.
Definition p4_encoder : GtsLowerEncoder := p4_encode_lower.

(** ** The features [p4-gts] and [p4-gts-compare] (gts.rs, gts_tx.rs) *)

Definition encode_p4_reference : GtsPacket → GtsContext → option StreamProfile → res (list Z) := encode_with (H := p4_encoder).
Definition decode_p4_reference : list Z → GtsContext → option StreamProfile → res GtsPacket := decode_with (H := p4_decoder).

#[export] Instance GtsLowerPacket_eq_dec : EqDecision GtsLowerPacket.
Proof. solve_decision. Defined.

Definition decode_compare (buf : list Z) (ctx : GtsContext) (profile : option StreamProfile) : res GtsPacket :=
  fail_if (negb (len buf =? sc_bytes (ctx_size_class ctx)) || (len buf <? 5)) InvalidLength;;
  let handwritten := handwritten_parse_lower buf in
  let p4 := p4_parse_lower buf in
  fail_if (negb (bool_decide (handwritten = p4))) InvalidField;;
  lower ← p4;
  finish_decode buf ctx profile lower.
Definition encode_compare (packet : GtsPacket) (ctx : GtsContext) (profile : option StreamProfile) : res (list Z) :=
  let handwritten := encode_packet packet ctx profile in
  let p4 := encode_p4_reference packet ctx profile in
  fail_if (negb (bool_decide (handwritten = p4))) InvalidField;;
  p4.

(** ** The two backends agree *)

Lemma p4_encode_lower_ok l : wf_lower l → p4_encode_lower l = Ok (lower_bytes l).
Proof.
  intros Hwf. destruct l; try reflexivity; try (by destruct end_); try (by destruct ack).
  destruct Hwf as (_ & _ & Hl & _). explode option_probe Hl. reflexivity.
Qed.

Lemma extract_header_eq n pkt : 0 ≤ n → n ≤ len pkt → extract_header n pkt = Ok (Some (slice pkt 0 n), drop (Z.to_nat n) pkt).
Proof. intros Hn Hl. unfold extract_header. by rewrite get_slice_eq, bind_Ok_l by lia. Qed.

(** A field of an extracted header, in the packet *)
Lemma field_slice (buf : list Z) (k : nat) n off w :
  0 ≤ off → 0 ≤ w → off + w ≤ n →
  field (Some (slice (drop k buf) 0 n)) off w = from_be (slice buf (Z.of_nat k + off) (Z.of_nat k + off + w)).
Proof.
  intros Ho Hw Hn. change (field (Some (slice (drop k buf) 0 n)) off w) with (from_be (slice (slice (drop k buf) 0 n) off (off + w))).
  rewrite slice_slice by lia. rewrite slice_drop by lia.
  do 2 f_equal; lia.
Qed.

(** The cursor reads of the other backend *)
Lemma read_u32_eq buf pos limit : 0 ≤ pos → pos + 4 ≤ limit → limit ≤ len buf →
  read_u32 buf pos limit = Ok (from_be (slice buf pos (pos + 4)), pos + 4).
Proof.
  intros. unfold read_u32. replace (limit <? pos + 4) with false by lia. cbn [fail_if].
  rewrite bind_Ok_l, get_slice_eq, bind_Ok_l, try_from_be_eq by (rewrite ?len_slice; lia). done.
Qed.
Lemma read_u16_eq buf pos limit : 0 ≤ pos → pos + 2 ≤ limit → limit ≤ len buf →
  read_u16 buf pos limit = Ok (from_be (slice buf pos (pos + 2)), pos + 2).
Proof.
  intros. unfold read_u16. replace (limit <? pos + 2) with false by lia. cbn [fail_if].
  rewrite bind_Ok_l, get_slice_eq, bind_Ok_l, try_from_be_eq by (rewrite ?len_slice; lia). done.
Qed.
Lemma get_index_slice (buf : list Z) pos : 0 ≤ pos → pos < len buf → get_index buf pos = Ok (from_be (slice buf pos (pos + 1))).
Proof.
  intros Hp Hl. destruct (get_index buf pos) as [v | e |] eqn:E.
  - by rewrite (slice_index _ _ _ E).
  - exfalso. unfold get_index, expect in E. by repeat case_match.
  - exfalso. exact (no_panic_get_index buf pos ltac:(lia) E).
Qed.
Lemma read_u8_eq buf pos limit : 0 ≤ pos → pos + 1 ≤ limit → limit ≤ len buf →
  read_u8 buf pos limit = Ok (from_be (slice buf pos (pos + 1)), pos + 1).
Proof.
  intros. unfold read_u8. replace (limit <=? pos) with false by lia. cbn [fail_if].
  rewrite bind_Ok_l, get_index_slice, bind_Ok_l by lia. done.
Qed.

(** The kind octet, as the adapter and the parser see it *)
Lemma kind_of_octet b : Z.shiftr b 4 = 0 → ∃ t, b = gts_type_to_wire t ∧ gts_type_from_wire (Z.land b 0x0f) = Ok t.
Proof.
  intros Hs. rewrite shiftr_div in Hs by lia. change (2 ^ 4) with 16 in Hs. assert (0 ≤ b < 16) as Hr by zdiv.
  assert (Hall : forallb (λ b, match gts_type_from_wire (Z.land b 0x0f) with Ok t => gts_type_to_wire t =? b | _ => false end) (seqZ 0 16) = true) by done.
  rewrite forallb_forall in Hall. specialize (Hall b). rewrite <- list_elem_of_In in Hall.
  assert (b ∈ seqZ 0 16) as Hin by (apply elem_of_seqZ; lia). specialize (Hall Hin). destruct (gts_type_from_wire _) as [t | |]; [| done..].
  exists t. split; [lia | done].
Qed.

Ltac p4_fields :=
  repeat (rewrite extract_header_eq, bind_Ok_l by (rewrite ?len_drop; lia));
  repeat (first [rewrite read_u32_eq, bind_Ok_l by lia | rewrite read_u16_eq, bind_Ok_l by lia | rewrite read_u8_eq, bind_Ok_l by lia]).

Lemma parse_one_eq n put pkt hdr : 0 ≤ n → n ≤ len pkt → parse_one n put pkt hdr = Ok (Some (put (Some (slice pkt 0 n)) hdr)).
Proof. intros. unfold parse_one. by rewrite extract_header_eq, bind_Ok_l. Qed.
Lemma parse_two_eq n m put put' pkt hdr : 0 ≤ n → 0 ≤ m → n + m ≤ len pkt →
  parse_two n m put put' pkt hdr =
  Ok (Some (put' (Some (slice (drop (Z.to_nat n) pkt) 0 m)) (put (Some (slice pkt 0 n)) hdr))).
Proof.
  intros. unfold parse_two. rewrite extract_header_eq, bind_Ok_l by lia.
  by rewrite extract_header_eq, bind_Ok_l by (rewrite ?len_drop; lia).
Qed.

(** What the parser makes of the kind octet *)
Lemma start_kind buf b : get_index buf 0 = Ok b →
  gts_parse_start buf =
  let pkt := drop 1 buf in let hdr := with_kind (Some [b]) no_headers in
  if negb (Z.shiftr b 4 =? 0) then Ok None
  else match Z.land b 0x0f with
  | 1 => parse_one connect_len with_connect pkt hdr
  | 2 => parse_one connect_ack_len with_connect_ack pkt hdr
  | 3 => parse_one stream_open_len with_stream_open pkt hdr
  | 4 => parse_one stream_ack_len with_stream_ack pkt hdr
  | 5 => parse_two data_len data_option_len with_data with_data_option pkt hdr
  | 6 => parse_one ack_len with_ack pkt hdr
  | 7 => parse_two data_len data_option_len with_data with_data_option pkt hdr
  | 8 => parse_one stream_close_len with_stream_close pkt hdr
  | 9 => parse_one stream_close_len with_stream_close pkt hdr
  | 10 => parse_one tunnel_close_len with_tunnel_close pkt hdr
  | 11 => parse_one tunnel_close_len with_tunnel_close pkt hdr
  | 12 => parse_one reset_len with_reset pkt hdr
  | 13 => parse_two datagram_len datagram_options_len with_datagram with_datagram_options pkt hdr
  | 14 => parse_one stream_reset_len with_stream_reset pkt hdr
  | 15 => parse_one stream_reset_len with_stream_reset pkt hdr
  | _ => Ok None
  end.
Proof.
  intros Hi. unfold gts_parse_start. pose proof (slice_index _ _ _ Hi) as Hs. apply get_index_Ok in Hi as [_ Hi].
  apply lookup_lt_Some in Hi. rewrite extract_header_eq, bind_Ok_l by (unfold kind_len, len; lia).
  change (0 + 1) with 1 in Hs. change kind_len with 1. rewrite Hs. done.
Qed.

(** One packet type: the parser's headers on one side, the cursor's reads on the other *)
Ltac p4_side :=
  unfold connect_len, connect_ack_len, stream_open_len, stream_ack_len, data_len, data_option_len, ack_len, datagram_len,
    datagram_options_len, stream_close_len, tunnel_close_len, reset_len, stream_reset_len;
  first [rewrite parse_one_eq by (rewrite ?len_drop; lia) | rewrite parse_two_eq by (rewrite ?len_drop; lia)];
  rewrite bind_Ok_l; cbn [ok_or]; rewrite bind_Ok_l;
  match goal with |- context [negb (kind_packet_type ?h =? ?n)] => change (negb (kind_packet_type h =? n)) with false end;
  cbn [fail_if]; rewrite bind_Ok_l;
  cbn [h_connect h_connect_ack h_stream_open h_stream_ack h_data h_data_option h_ack h_datagram h_datagram_options h_stream_close
    h_tunnel_close h_reset h_stream_reset with_connect with_connect_ack with_stream_open with_stream_ack with_data
    with_data_option with_ack with_datagram with_datagram_options with_stream_close with_tunnel_close with_reset with_stream_reset];
  rewrite ?drop_drop; repeat (rewrite field_slice by lia).
Ltac cursor_side :=
  cbn [read_octets];
  repeat (first [rewrite read_u32_eq, bind_Ok_l by lia | rewrite read_u16_eq, bind_Ok_l by lia | rewrite read_u8_eq, bind_Ok_l by lia]);
  rewrite ?bind_Ok_l.

Lemma p4_parse_lower_eq buf : p4_parse_lower buf = handwritten_parse_lower buf.
Proof.
  unfold p4_parse_lower, handwritten_parse_lower. destruct (Z.ltb_spec (len buf) 5) as [| H5]; [done |].
  cbn [fail_if]. rewrite !bind_Ok_l. rewrite get_index_slice, !bind_Ok_l by lia.
  pose proof (get_index_slice buf 0 ltac:(lia) ltac:(lia)) as Hi. set (b := from_be (slice buf 0 (0 + 1))) in *.
  destruct (Z.eqb_spec (Z.shiftr b 4) 0) as [Hs | Hs]; [| done]. cbn [negb fail_if]. rewrite !bind_Ok_l.
  rewrite (start_kind buf b Hi). cbv zeta. rewrite Hs. cbn [negb Z.eqb].
  destruct (kind_of_octet b Hs) as (t & Eb & Et). rewrite Et, !bind_Ok_l. clear Hi. clearbody b. subst b. clear Et Hs.
  destruct t; cbn [lower_prefix_len]; try done; rewrite !bind_Ok_l;
    match goal with |- context [len buf <? ?n] => destruct (Z.ltb_spec (len buf) n) as [| Hl]; [done |] end;
    cbn [fail_if gts_type_to_wire]; rewrite !bind_Ok_l;
    repeat match goal with |- context [Z.land ?x 15] => let v := eval vm_compute in (Z.land x 15) in change (Z.land x 15) with v end;
    cbn iota; p4_side; cursor_side; reflexivity.
Qed.

(** The backend made of generated code satisfies the contract of the lower codec. *)
Lemma p4_codec : GtsLowerCodec (D := p4_decoder) (E := p4_encoder).
Proof.
  split; unfold encode_lower, parse_lower, p4_encoder, p4_decoder.
  - apply p4_encode_lower_ok.
  - intros l rest Hl Hr. rewrite p4_parse_lower_eq. by apply handwritten_parse_lower_ok.
  - intros buf Hb. rewrite p4_parse_lower_eq. by apply no_panic_handwritten_parse_lower.
  - intros buf l Hb. rewrite p4_parse_lower_eq. by apply handwritten_parse_lower_inv.
Qed.

Lemma p4_finish_encode plan ctx : wf_lower (plan_lower plan) →
  finish_encode (H := p4_encoder) plan ctx = finish_encode (H := handwritten_encoder) plan ctx.
Proof.
  intros Hl. unfold finish_encode. unfold encode_lower, p4_encoder, handwritten_encoder.
  by rewrite p4_encode_lower_ok, handwritten_encode_lower_ok.
Qed.

Lemma prepared_lower p ctx profile plan : wf_packet p → prepare_encode p ctx profile = Ok plan → wf_lower (plan_lower plan).
Proof.
  intros Hp Hl. apply prepare_encode_Ok in Hl as [_ Hl]; [| done]. destruct (parts_frames _ _ _ _ _ _ Hp Hl) as [Hok _].
  exact (plan_ok_lower _ _ Hok).
Qed.

Lemma p4_encode_agrees p ctx profile : wf_packet p → encode_p4_reference p ctx profile = encode_packet p ctx profile.
Proof.
  intros Hp. unfold encode_p4_reference, encode_packet, encode_with.
  destruct (prepare_encode p ctx profile) as [plan | |] eqn:E; [| done..]. rewrite !bind_Ok_l.
  apply p4_finish_encode. by eapply prepared_lower.
Qed.
Lemma p4_decode_agrees_gts buf ctx profile : decode_p4_reference buf ctx profile = decode_packet buf ctx profile.
Proof.
  unfold decode_p4_reference, decode_packet, decode_with, parse_lower, p4_decoder, handwritten_decoder.
  by rewrite p4_parse_lower_eq.
Qed.

(** C36: encoding and decoding GTS packets with the codec built on generated P4
    code is the same function as with the handwritten one, errors included, and
    the mode that runs both and compares never finds a difference. *)
Theorem gts_backends_agree p buf ctx profile :
  wf_packet p →
  encode_p4_reference p ctx profile = encode_packet p ctx profile ∧
  encode_compare p ctx profile = encode_packet p ctx profile ∧
  decode_p4_reference buf ctx profile = decode_packet buf ctx profile ∧
  decode_compare buf ctx profile = decode_packet buf ctx profile.
Proof.
  intros Hp. split; [by apply p4_encode_agrees |]. split.
  { unfold encode_compare. rewrite p4_encode_agrees, bool_decide_eq_true_2 by done. done. }
  split; [apply p4_decode_agrees_gts |]. unfold decode_compare, decode_packet, decode_with, parse_lower, handwritten_decoder.
  rewrite p4_parse_lower_eq, bool_decide_eq_true_2 by done. done.
Qed.

Lemma gts_backends_agree_witness :
  encode_p4_reference (Ack 7 2 40 5 9) (mkContext 0 Ctrl64 1 2) None = encode_packet (Ack 7 2 40 5 9) (mkContext 0 Ctrl64 1 2) None ∧
  encode_compare (Ack 7 2 40 5 9) (mkContext 0 Ctrl64 1 2) None = encode_packet (Ack 7 2 40 5 9) (mkContext 0 Ctrl64 1 2) None ∧
  decode_p4_reference [6; 0; 0] (mkContext 0 Ctrl64 1 2) None = decode_packet [6; 0; 0] (mkContext 0 Ctrl64 1 2) None ∧
  decode_compare [6; 0; 0] (mkContext 0 Ctrl64 1 2) None = decode_packet [6; 0; 0] (mkContext 0 Ctrl64 1 2) None.
Proof. apply gts_backends_agree. cbn. unfold u8, u32. lia. Defined.
