(* ===== verification/P4GdpPlane.v ===== *)
(** * The P4 GDP forwarding plane (src/p4-gdp/src/lib.rs, src/p4-gdp/p4/gdp.p4)

    The separate crate around gdp.p4: its checked parser with its own error type,
    its own CRC-8, and the pipeline with exact routes. The records [ParsedGdp]
    and [ParsedAddresses] it declares are those of P4Gdp.v. Proved: it accepts
    exactly the packets the library decodes, and what leaves the pipeline,
    octet for octet. *)
From stdpp Require Import prelude strings list.
From Stdlib Require Import ZArith Lia.
From S2P Require Import Prelude Crc GdpWire P4Gdp P4Pipeline.
Local Open Scope Z_scope.

(** ** Parsing and validation *)

(** The errors; [WrongLength] and [WrongCrc] are [InvalidLength] and [InvalidCrc]
    of the crate, renamed apart from those of the library. *)

Inductive P4GdpError : Set :=
  | Truncated
  | WrongLength (expected actual : Z)
  | ParserRejected
  | WrongCrc (expected actual : Z).

(** [Result<A, P4GdpError>], and [Panic] *)
Local Notation gres A := (res (A + P4GdpError)).
Definition gret {A} (a : A) : gres A := Ok (inl a).
Definition gerr {A} (e : P4GdpError) : gres A := Ok (inr e).
Definition gbind {A B} (m : gres A) (f : A → gres B) : gres B :=
  match m with Ok (inl a) => f a | Ok (inr e) => Ok (inr e) | Err e => Err e | Panic => Panic end.

Definition size_class_bytes (size_class : Z) : Z :=
  match Z.land size_class 0x0f with
  | 0 => 0 | 1 => 3 | 2 => 32 | 3 => 64 | 4 => 128 | 5 => 192 | 6 => 256 | 7 => 384 | 8 => 512 | 9 => 768
  | 10 => 1024 | 11 => 1280 | 12 => 1500 | 13 => 2048 | 14 => 4096 | 15 => 8192
  | _ => 0 (* unreachable *)
  end.

Definition parsed_header_len (self : ParsedGdp) : Z := if p_local_form self then 8 else 20.
Definition parsed_payload_len (self : ParsedGdp) : Z := size_class_bytes (p_size_class self).
Definition parsed_packet_len (self : ParsedGdp) : Z := parsed_header_len self + parsed_payload_len self.

Definition crc8_update_bit (crc : Z) (bit : bool) : Z :=
  let top := negb (Z.land crc 0x80 =? 0) in
  let crc := as_u8 (Z.shiftl crc 1) in
  if xorb top bit then Z.lxor crc 0x07 else crc.
(** The loop over [i] from [bits - 1] down to 0 *)
Definition crc8_update_bits (crc : Z) (value : Z) (bits : nat) : Z :=
  fold_left (λ crc i, crc8_update_bit crc (negb (Z.land (Z.shiftr value (Z.of_nat i)) 1 =? 0))) (rev (seq 0 bits)) crc.

Definition recomputed_crc8 (self : ParsedGdp) : Z :=
  let crc := 0 in
  let crc := crc8_update_bits crc (p_version self) 2 in
  let crc := crc8_update_bits crc (p_packet_type self) 4 in
  let crc := crc8_update_bits crc (p_size_class self) 4 in
  let crc := crc8_update_bit crc (p_local_form self) in
  match p_addresses self with
  | PGlobal destination source => crc8_update_bits (crc8_update_bits crc destination 64) source 64
  | PLocal destination source => crc8_update_bits (crc8_update_bits crc destination 16) source 16
  end.
Definition crc_is_valid (self : ParsedGdp) : bool := recomputed_crc8 self =? p_crc8 self.

Definition parse_gdp (bs : list Z) : gres ParsedGdp :=
  if len bs <? 4 then gerr Truncated
  else
    w ← get_slice bs 0 4;
    word ← try_from_be 4 w;
    let local_form := negb (Z.land (Z.shiftr word 21) 1 =? 0) in
    let header_len := if local_form then 8 else 20 in
    if len bs <? header_len then gerr Truncated
    else
      '(hdr, _) ← parse_start bs;
      match hdr with
      | None => gerr ParserRejected
      | Some hdr =>
          let parsed := parsed_of local_form hdr in
          let expected := parsed_packet_len parsed in
          if negb (len bs =? expected) then gerr (WrongLength expected (len bs)) else gret parsed
      end.

Definition validate_gdp (bs : list Z) : gres ParsedGdp :=
  gbind (parse_gdp bs) (λ parsed,
  let expected := recomputed_crc8 parsed in
  if negb (p_crc8 parsed =? expected) then gerr (WrongCrc expected (p_crc8 parsed)) else gret parsed).

(** ** The pipeline *)

Inductive RouteDisposition : Set := RForward | RLocal | RDrop.
Record GdpOutput : Set := mkOutput { go_port : Z; go_bytes : list Z }.

Definition action_name (self : RouteDisposition) : string :=
  match self with RForward => "forward" | RLocal => "deliver_local" | RDrop => "drop" end.
Definition parameter_data (self : RouteDisposition) (port : Z) : list Z :=
  match self with RForward | RLocal => to_le 2 port | RDrop => [] end.

Section pipeline.
Context {P : Type} `{Pipeline P}.

Definition gdp_pipeline_new (radix : Z) : P := pipeline_new radix.
Definition add_global_route (destination port : Z) (disposition : RouteDisposition) (self : P) : P :=
  let hi := as_u32 (Z.shiftr destination 32) in
  let lo := as_u32 destination in
  add_table_entry "ingress.global_routes" (action_name disposition) (to_le 4 hi ++ to_le 4 lo)
    (parameter_data disposition port) self.
Definition add_local_route (destination port : Z) (disposition : RouteDisposition) (self : P) : P :=
  add_table_entry "ingress.local_routes" (action_name disposition) (to_le 2 destination) (parameter_data disposition port) self.

Definition gdp_process (ingress_port : Z) (bs : list Z) (self : P) : P * gres (list GdpOutput) :=
  match validate_gdp bs with
  | Ok (inl _) =>
      let '(self, outputs) := process_packet ingress_port bs self in
      (self, (λ out : list output, inl ((λ '(header_data, payload_data, port), mkOutput port (header_data ++ payload_data)) <$> out)) <$> outputs)
  | Ok (inr e) => (self, gerr e)
  | Err e => (self, Err e)
  | Panic => (self, Panic)
  end.
End pipeline.

(** ** The ingress control of gdp.p4 *)

Definition gdp_action (action : string) (params : list Z) (g : egress_t) : egress_t :=
  if String.eqb action "drop" then mkEgress (eg_port g) true (eg_transit g) (eg_decided g)
  else if String.eqb action "deliver_local" then mkEgress (from_le params) (eg_drop g) false (eg_decided g)
  else if String.eqb action "forward" then mkEgress (from_le params) (eg_drop g) true (eg_decided g)
  else g.

Definition gdp_ingress `{EntryChoice} (es : list table_entry) (ingress_port : Z) (hdr : headers_t) : headers_t * egress_t :=
  let g := mkEgress 0 false false false in
  let g :=
    if g_valid (global_addr hdr) then
      apply_table gdp_action "ingress.global_routes"
        [(Exact 4, destination_hi (global_addr hdr)); (Exact 4, destination_lo (global_addr hdr))] "drop" es g
    else apply_table gdp_action "ingress.local_routes" [(Exact 2, l_destination (local_addr hdr))] "drop" es g in
  spend_hop g hdr.
Definition gdp_program `{EntryChoice} (es : list table_entry) (port : Z) (bs : list Z) : res (list output) :=
  run_p4 (gdp_ingress es) port bs.

(** ** The second CRC-8 and the second size table *)

Lemma update_bits_eq crc value n : crc8_update_bits crc value n = Crc8.update_bits crc value n.
Proof.
  unfold crc8_update_bits. revert crc. induction n as [| n IH]; intros crc; [done |].
  rewrite seq_S, rev_app_distr. cbn. apply IH.
Qed.

Lemma size_class_eq c : size_class_bytes (sc_index c) = sc_bytes c.
Proof. by destruct c. Qed.
Lemma size_class_wire v c : sc_from_wire v = Ok c → 0 ≤ v < 16 → size_class_bytes v = sc_bytes c.
Proof.
  intros Hc Hv. destruct (sc_from_wire_total v) as (c' & Hc' & Hi). rewrite Hc in Hc'. apply Ok_inj in Hc' as <-.
  rewrite Z.mod_small in Hi by lia. by rewrite <- size_class_eq, Hi.
Qed.

(** What the parser yields, branch by branch *)
Lemma parse_gdp_eq bs :
  parse_gdp bs =
    if len bs <? 4 then gerr Truncated
    else if len bs <? head_len bs then gerr Truncated
    else
      let parsed := parsed_of (is_local bs) (headers_of bs) in
      if negb (len bs =? parsed_packet_len parsed) then gerr (WrongLength (parsed_packet_len parsed) (len bs)) else gret parsed.
Proof.
  unfold parse_gdp. destruct (Z.ltb_spec (len bs) 4) as [| H4]; [done |].
  rewrite get_slice_eq, bind_Ok_l, try_from_be_eq, bind_Ok_l by (rewrite ?len_slice; lia). cbv zeta.
  rewrite <- is_local_bit. fold (head_len bs). destruct (Z.ltb_spec (len bs) (head_len bs)); [done |].
  by rewrite parse_start_eq, bind_Ok_l by (done || lia).
Qed.

Lemma base_ranges w : u32 w →
  0 ≤ b_version (base_of w) < 4 ∧ 0 ≤ b_packet_type (base_of w) < 16 ∧ 0 ≤ b_size_class (base_of w) < 16 ∧
  0 ≤ b_local_form (base_of w) < 2 ∧ 0 ≤ b_reserved (base_of w) < 32 ∧ u8 (b_crc8 (base_of w)) ∧ u8 (b_hop (base_of w)).
Proof.
  intros Hw. unfold base_of, u8. cbn [b_version b_packet_type b_size_class b_local_form b_reserved b_crc8 b_hop].
  rewrite (land_ones_mod _ 2 3), !(land_ones_mod _ 4 0x0f), (land_ones_mod _ 1 1), (land_ones_mod _ 5 0x1f), !(land_ones_mod _ 8 0xff) by done.
  repeat split; zdiv.
Qed.

(** Packing the fields of a word gives the word. *)
Lemma base_word_eq b :
  0 ≤ b_version b < 4 → 0 ≤ b_packet_type b < 16 → 0 ≤ b_size_class b < 16 → 0 ≤ b_local_form b < 2 →
  0 ≤ b_reserved b < 32 → u8 (b_crc8 b) → u8 (b_hop b) →
  base_word b = b_version b * 2 ^ 30 + b_packet_type b * 2 ^ 26 + b_size_class b * 2 ^ 22 + b_local_form b * 2 ^ 21 +
    b_reserved b * 2 ^ 16 + b_crc8 b * 2 ^ 8 + b_hop b.
Proof.
  intros. unfold base_word. rewrite <- !Z.lor_assoc.
  rewrite (lor_shiftl_add 8) by ulia. rewrite (lor_shiftl_add 16) by ulia. rewrite (lor_shiftl_add 21) by ulia.
  rewrite (lor_shiftl_add 22) by ulia. rewrite (lor_shiftl_add 26) by ulia. rewrite (lor_shiftl_add 30) by ulia. lia.
Qed.
Lemma base_word_base_of w : u32 w → base_word (base_of w) = w.
Proof.
  intros Hw. destruct (base_ranges w Hw) as (? & ? & ? & ? & ? & ? & ?). rewrite base_word_eq by done.
  unfold base_of. cbn [b_version b_packet_type b_size_class b_local_form b_reserved b_crc8 b_hop].
  rewrite !shiftr_div by lia.
  rewrite (land_ones_mod _ 2 3), !(land_ones_mod _ 4 0x0f), (land_ones_mod _ 1 1), (land_ones_mod _ 5 0x1f), !(land_ones_mod _ 8 0xff) by done.
  clear -Hw. zdiv.
Qed.

(** The library's header and what the crate parsed *)
Definition header_of (bs : list Z) (lp : Z) (c : SizeClass) : GdpHeader :=
  let parsed := parsed_of (is_local bs) (headers_of bs) in
  {| hdr_version := p_version parsed; hdr_packet_type := type_from_wire (p_packet_type parsed); hdr_size_class := c;
     hdr_hop_limit := p_hop_limit parsed;
     hdr_addresses := match p_addresses parsed with
                      | PGlobal destination source => Global destination source
                      | PLocal destination source => Local destination source (clear_low16 lp)
                      end |}.

Lemma parsed_ranges bs l : bytes bs → 4 ≤ len bs →
  let p := parsed_of l (headers_of bs) in
  0 ≤ p_version p < 4 ∧ 0 ≤ p_packet_type p < 16 ∧ 0 ≤ p_size_class p < 16.
Proof.
  intros Hb Hl. assert (Hw : u32 (from_be (slice bs 0 4))) by (apply (from_be_short bs 0 4 Hb); lia).
  destruct (base_ranges _ Hw) as (? & ? & ? & _). unfold headers_of. cbv zeta.
  by destruct (b_local_form _ =? 1).
Qed.

Lemma type_from_to v : 0 ≤ v < 16 → type_to_wire (type_from_wire v) = v.
Proof.
  intros Hv. assert (Hall : forallb (λ v, type_to_wire (type_from_wire v) =? v) (seqZ 0 16) = true) by done.
  rewrite forallb_forall in Hall. apply Z.eqb_eq, Hall, list_elem_of_In, elem_of_seqZ. lia.
Qed.

#[local] Opaque Crc8.update_bits crc8_update_bits.

Lemma recomputed_eq bs lp c : bytes bs → 4 ≤ len bs → sc_from_wire (p_size_class (parsed_of (is_local bs) (headers_of bs))) = Ok c →
  recomputed_crc8 (parsed_of (is_local bs) (headers_of bs)) = crc8 (header_of bs lp c) GdpWireConfig_default.
Proof.
  intros Hb Hl Hc. destruct (parsed_ranges bs (is_local bs) Hb Hl) as (Hv & Ht & Hs). cbv zeta in *.
  unfold recomputed_crc8, crc8, header_of. cbn [hdr_version hdr_packet_type hdr_size_class hdr_addresses].
  set (p := parsed_of (is_local bs) (headers_of bs)) in *. rewrite !update_bits_eq. change Crc8.new with 0.
  rewrite type_from_to by done. rewrite (land_ones_mod _ 2 3), Z.mod_small by (done || (change (2 ^ 2) with 4; lia)).
  destruct (sc_from_wire_total (p_size_class p)) as (c' & Hc' & Hi). rewrite Hc in Hc'. apply Ok_inj in Hc' as <-.
  rewrite Hi, Z.mod_small by lia.
  assert (Ea : p_addresses p = parsed_addresses (is_local bs) (headers_of bs)) by done.
  assert (El : p_local_form p = is_local bs) by done. rewrite El, Ea. unfold parsed_addresses.
  destruct (is_local bs); cbn [addr_form form_bit GdpWireConfig_default local_form_bit eqb]; rewrite !update_bits_eq; reflexivity.
Qed.

#[local] Opaque crc8.

Lemma decode_header_cases bs lp c : bytes bs → 4 ≤ len bs → head_len bs ≤ len bs →
  sc_from_wire (p_size_class (parsed_of (is_local bs) (headers_of bs))) = Ok c →
  decode_header bs GdpWireConfig_default lp =
  if crc8 (header_of bs lp c) GdpWireConfig_default =? p_crc8 (parsed_of (is_local bs) (headers_of bs))
  then Ok (header_of bs lp c) else Err InvalidCrc.
Proof.
  intros Hb H4 Hh Hc. rewrite <- p4_decode_eq by done. unfold p4_decode_header. rewrite parse_header_eq.
  replace (len bs <? 4) with false by lia. replace (len bs <? head_len bs) with false by lia.
  rewrite bind_Ok_l, Hc, bind_Ok_l. unfold header_of. cbv zeta. by destruct (crc8 _ _ =? _).
Qed.

Lemma header_of_len bs lp c : header_len (header_of bs lp c) = head_len bs.
Proof. unfold header_of, head_len, parsed_of, parsed_addresses. cbn. by destruct (is_local bs). Qed.

(** The validation of the P4 forwarding plane accepts exactly the octet
    strings the library decodes as a packet, with the fields the decoded header
    has, although it has a CRC-8, a size table and an order of checks of its own;
    and it never panics. *)
Theorem gdp_plane_accepts bs lp : bytes bs →
  match validate_gdp bs with
  | Ok (inl parsed) => ∃ h payload, packet_decode bs GdpWireConfig_default lp = Ok (mkPacket h payload) ∧
      hdr_version h = p_version parsed ∧ hdr_packet_type h = type_from_wire (p_packet_type parsed) ∧
      sc_bytes (hdr_size_class h) = parsed_payload_len parsed ∧ hdr_hop_limit h = p_hop_limit parsed ∧
      match hdr_addresses h with
      | Global d s => p_addresses parsed = PGlobal d s
      | Local d s _ => p_addresses parsed = PLocal d s
      end
  | Ok (inr _) => ∃ e, packet_decode bs GdpWireConfig_default lp = Err e
  | _ => False
  end.
Proof.
  intros Hb. unfold validate_gdp. rewrite parse_gdp_eq. unfold packet_decode.
  destruct (Z.ltb_spec (len bs) 4) as [H4 | H4].
  { eexists. rewrite <- p4_decode_eq by done. unfold p4_decode_header. rewrite parse_header_eq.
    replace (len bs <? 4) with true by lia. done. }
  destruct (Z.ltb_spec (len bs) (head_len bs)) as [Hh | Hh].
  { eexists. rewrite <- p4_decode_eq by done. unfold p4_decode_header. rewrite parse_header_eq.
    replace (len bs <? 4) with false by lia. replace (len bs <? head_len bs) with true by lia. done. }
  set (parsed := parsed_of (is_local bs) (headers_of bs)). destruct (sc_from_wire_total (p_size_class parsed)) as (c & Hc & _).
  pose proof (parsed_ranges bs (is_local bs) Hb H4) as (_ & _ & Hs). cbv zeta in Hs.
  rewrite (decode_header_cases bs lp c Hb H4 Hh Hc). fold parsed.
  assert (El : parsed_packet_len parsed = head_len bs + sc_bytes c).
  { unfold parsed_packet_len, parsed_payload_len. by rewrite (size_class_wire _ _ Hc Hs). }
  cbv zeta. destruct (Z.eqb_spec (len bs) (parsed_packet_len parsed)) as [Hl | Hl]; cbn [negb gret gerr gbind].
  - pose proof (recomputed_eq bs lp c Hb H4 Hc) as Hrec. fold parsed in Hrec. rewrite Hrec, (Z.eqb_sym (p_crc8 parsed)).
    destruct (crc8 (header_of bs lp c) GdpWireConfig_default =? p_crc8 parsed); cbn [negb]; [| by eexists].
    rewrite bind_Ok_l. cbv zeta. rewrite header_of_len. change (hdr_size_class (header_of bs lp c)) with c.
    replace (len bs =? head_len bs + sc_bytes c) with true by lia. cbn [negb fail_if]. rewrite bind_Ok_l.
    pose proof (header_len_pos (header_of bs lp c)) as Hp. rewrite header_of_len in Hp.
    rewrite get_slice_eq, bind_Ok_l by lia. eexists _, _. split; [reflexivity |]. split; [done |]. split; [done |]. split.
    { unfold parsed_payload_len. by rewrite (size_class_wire _ _ Hc Hs). }
    split; [done |]. unfold header_of. fold parsed. cbn [hdr_addresses]. by destruct (p_addresses parsed).
  - destruct (crc8 _ _ =? _); [| by eexists]. rewrite bind_Ok_l. cbv zeta. rewrite header_of_len.
    change (hdr_size_class (header_of bs lp c)) with c. replace (len bs =? head_len bs + sc_bytes c) with false by lia. by eexists.
Qed.

Lemma gdp_plane_accepts_witness :
  match validate_gdp [4; 32; 4; 7; 0; 9; 0; 8] with
  | Ok (inl parsed) => ∃ h payload, packet_decode [4; 32; 4; 7; 0; 9; 0; 8] GdpWireConfig_default 0 = Ok (mkPacket h payload) ∧
      hdr_version h = p_version parsed ∧ hdr_packet_type h = type_from_wire (p_packet_type parsed) ∧
      sc_bytes (hdr_size_class h) = parsed_payload_len parsed ∧ hdr_hop_limit h = p_hop_limit parsed ∧
      match hdr_addresses h with
      | Global d s => p_addresses parsed = PGlobal d s
      | Local d s _ => p_addresses parsed = PLocal d s
      end
  | Ok (inr _) => ∃ e, packet_decode [4; 32; 4; 7; 0; 9; 0; 8] GdpWireConfig_default 0 = Err e
  | _ => False
  end.
Proof.
  refine (gdp_plane_accepts [4; 32; 4; 7; 0; 9; 0; 8] 0 _).
  repeat (apply Forall_cons; split; [unfold u8; lia |]). apply Forall_nil. done.
Defined.

(** ** What leaves the pipeline *)

Inductive gdp_route : Set :=
  | AddGlobal (destination port : Z) (disposition : RouteDisposition)
  | AddLocal (destination port : Z) (disposition : RouteDisposition).
Definition route_port (r : gdp_route) : Z := match r with AddGlobal _ p _ | AddLocal _ p _ => p end.
Definition route_disposition (r : gdp_route) : RouteDisposition := match r with AddGlobal _ _ d | AddLocal _ _ d => d end.
Definition route_wf (r : gdp_route) : Prop :=
  match r with AddGlobal d p _ => u64 d ∧ u16 p | AddLocal d p _ => u16 d ∧ u16 p end.
(** A route for the destination of a packet *)
Definition route_for (a : ParsedAddresses) (r : gdp_route) : Prop :=
  match a, r with PGlobal d _, AddGlobal d' _ _ => d = d' | PLocal d _, AddLocal d' _ _ => d = d' | _, _ => False end.

(** The octets with the hop limit, octet 3, set *)
Definition with_hop_octet (bs : list Z) (hop : Z) : list Z := slice bs 0 3 ++ hop :: slice bs 4 (len bs).
(** What a route does with a packet *)
Definition route_output (r : gdp_route) (bs : list Z) : list GdpOutput :=
  match route_disposition r with
  | RDrop => []
  | RLocal => [mkOutput (route_port r) bs]
  | RForward =>
      let hop := from_be (slice bs 3 4) in
      if hop <=? 1 then [] else [mkOutput (route_port r) (with_hop_octet bs (hop - 1))]
  end.

Lemma to_be_slice (bs : list Z) a b (n : nat) : bytes bs → 0 ≤ a → b = a + Z.of_nat n → b ≤ len bs →
  to_be n (from_be (slice bs a b)) = slice bs a b.
Proof.
  intros Hb Ha -> Hl. replace n with (length (slice bs a (a + Z.of_nat n))) at 1.
  - apply to_be_from_be, bytes_slice, Hb.
  - pose proof (len_slice bs a (a + Z.of_nat n)) as H. unfold len in *. lia.
Qed.

(** The headers after the first word *)
Definition rest_of (bs : list Z) : list Z := slice bs 4 (head_len bs).
Lemma deparse_rest bs b : bytes bs → head_len bs ≤ len bs →
  deparse (mkHeaders b (global_addr (headers_of bs)) (local_addr (headers_of bs))) = to_be 4 (base_word b) ++ rest_of bs.
Proof.
  intros Hb Hl. unfold deparse, rest_of, head_len, is_local, headers_of in *. cbv zeta in *. f_equal.
  destruct (b_local_form _ =? 1); cbn [base global_addr local_addr g_valid l_valid no_global no_local destination_hi destination_lo
    source_hi source_lo l_destination l_source app].
  - rewrite (to_be_slice bs 4 6), (to_be_slice bs 6 8) by (done || lia). symmetry. apply slice_split; lia.
  - rewrite app_nil_r, (to_be_slice bs 4 8), (to_be_slice bs 8 12), (to_be_slice bs 12 16), (to_be_slice bs 16 20) by (done || lia).
    rewrite (slice_split bs 4 8 20), (slice_split bs 8 12 20), (slice_split bs 12 16 20) by lia. done.
Qed.

Lemma drop_slice (bs : list Z) n : 0 ≤ n → drop (Z.to_nat n) bs = slice bs n (len bs).
Proof.
  intros Hn. unfold slice. rewrite take_ge; [done |]. rewrite length_drop. unfold len. lia.
Qed.

(** The word and its hop octet *)
Lemma word_hop bs : bytes bs → 4 ≤ len bs →
  let w := from_be (slice bs 0 4) in
  u32 w ∧ w mod 256 = from_be (slice bs 3 4) ∧ to_be 3 (w / 256) = slice bs 0 3 ∧ b_hop (base_of w) = from_be (slice bs 3 4).
Proof.
  intros Hb Hl. cbv zeta. pose proof (from_be_short bs 0 4 Hb ltac:(lia) ltac:(lia) ltac:(lia)) as Hw. change (0 + 4) with 4 in Hw.
  pose proof (from_be_short bs 3 1 Hb ltac:(lia) ltac:(lia) ltac:(lia)) as Hh. change (3 + 1) with 4 in Hh.
  assert (E : from_be (slice bs 0 4) = from_be (slice bs 0 3) * 256 + from_be (slice bs 3 4)).
  { rewrite (slice_split bs 0 3 4), from_be_app by lia. replace (len (slice bs 3 4)) with 1 by (rewrite len_slice; lia). done. }
  assert (Ed : from_be (slice bs 0 4) / 256 = from_be (slice bs 0 3)) by (rewrite E; change (256 ^ 1) with 256 in Hh; zdiv).
  assert (Em : from_be (slice bs 0 4) mod 256 = from_be (slice bs 3 4)) by (rewrite E; change (256 ^ 1) with 256 in Hh; zdiv).
  split; [exact Hw |]. split; [exact Em |]. split.
  - rewrite Ed. apply (to_be_slice bs 0 3 3 Hb); lia.
  - unfold base_of. cbn [b_hop]. rewrite (land_ones_mod _ 8 0xff) by done. exact Em.
Qed.

(** Emitted unchanged, and with one hop less *)
Lemma emit_same bs : bytes bs → 4 ≤ len bs → head_len bs ≤ len bs →
  deparse (headers_of bs) ++ drop (Z.to_nat (head_len bs)) bs = bs.
Proof.
  intros Hb H4 Hl. destruct (word_hop bs Hb H4) as (Hw & _). cbv zeta in Hw.
  replace (headers_of bs) with (mkHeaders (base_of (from_be (slice bs 0 4))) (global_addr (headers_of bs)) (local_addr (headers_of bs)))
    by (unfold headers_of; cbv zeta; by destruct (b_local_form _ =? 1)).
  rewrite deparse_rest, base_word_base_of by done. rewrite (to_be_slice bs 0 4 4 Hb) by lia.
  assert (0 ≤ head_len bs) by (unfold head_len; destruct (is_local bs); lia). rewrite drop_slice by done.
  unfold rest_of. assert (4 ≤ head_len bs) by (unfold head_len; destruct (is_local bs); lia).
  rewrite <- app_assoc, <- (slice_split bs 4), <- (slice_split bs 0) by lia. by apply slice_full.
Qed.

Lemma emit_hop bs hop : bytes bs → 4 ≤ len bs → head_len bs ≤ len bs → hop = from_be (slice bs 3 4) → 1 ≤ hop →
  deparse (mkHeaders (mkBase (b_version (base (headers_of bs))) (b_packet_type (base (headers_of bs))) (b_size_class (base (headers_of bs)))
    (b_local_form (base (headers_of bs))) (b_reserved (base (headers_of bs))) (b_crc8 (base (headers_of bs))) (hop - 1))
    (global_addr (headers_of bs)) (local_addr (headers_of bs))) ++ drop (Z.to_nat (head_len bs)) bs = with_hop_octet bs (hop - 1).
Proof.
  intros Hb H4 Hl Eh Hge. destruct (word_hop bs Hb H4) as (Hw & Em & Et & Ehop). cbv zeta in *.
  replace (base (headers_of bs)) with (base_of (from_be (slice bs 0 4))) by (unfold headers_of; cbv zeta; by destruct (b_local_form _ =? 1)).
  rewrite deparse_rest by done. set (w := from_be (slice bs 0 4)) in *.
  assert (Ew : base_word (mkBase (b_version (base_of w)) (b_packet_type (base_of w)) (b_size_class (base_of w)) (b_local_form (base_of w))
    (b_reserved (base_of w)) (b_crc8 (base_of w)) (hop - 1)) = w - 1).
  { destruct (base_ranges w Hw) as (? & ? & ? & ? & ? & ? & Hu). pose proof (base_word_base_of w Hw) as E0.
    rewrite base_word_eq in E0 by done. set (b := base_of w) in *. clearbody b.
    rewrite base_word_eq; cbn [b_version b_packet_type b_size_class b_local_form b_reserved b_crc8 b_hop]; try done; [lia |].
    unfold u8 in *. lia. }
  rewrite Ew, to_be_4_split. unfold u32 in Hw. replace ((w - 1) / 256) with (w / 256) by zdiv. rewrite Et.
  replace ((w - 1) mod 256) with (hop - 1) by zdiv. unfold with_hop_octet, rest_of.
  assert (4 ≤ head_len bs) by (unfold head_len; destruct (is_local bs); lia). rewrite drop_slice by lia.
  rewrite <- !app_assoc. cbn [app]. do 2 f_equal. symmetry. apply slice_split; lia.
Qed.

(** The routes of a pipeline, and the table entries they become *)
Definition route_entry (r : gdp_route) : table_entry :=
  match r with
  | AddGlobal d p ro => mkEntry "ingress.global_routes" (action_name ro)
      (to_le 4 (as_u32 (Z.shiftr d 32)) ++ to_le 4 (as_u32 d)) (parameter_data ro p)
  | AddLocal d p ro => mkEntry "ingress.local_routes" (action_name ro) (to_le 2 d) (parameter_data ro p)
  end.
Definition add_route `{Pipeline P} (r : gdp_route) (self : P) : P :=
  match r with AddGlobal d p ro => add_global_route d p ro self | AddLocal d p ro => add_local_route d p ro self end.
Definition gdp_configure `{Pipeline P} (radix : Z) (routes : list gdp_route) : P :=
  fold_left (λ self r, add_route r self) routes (gdp_pipeline_new radix).

Lemma configure_entries `{Runs P prog} radix routes : entries (gdp_configure radix routes) = route_entry <$> routes.
Proof.
  unfold gdp_configure. transitivity (entries (gdp_pipeline_new radix) ++ (route_entry <$> routes));
    [| by unfold gdp_pipeline_new; rewrite entries_new].
  generalize (gdp_pipeline_new radix). induction routes as [| r routes IH]; intros pl; cbn; [by rewrite app_nil_r |].
  rewrite IH. destruct r; cbn; unfold add_global_route, add_local_route; rewrite entries_add, <- app_assoc; done.
Qed.

(** What the action of a route does to the metadata *)
Definition route_egress (r : gdp_route) : egress_t :=
  match route_disposition r with
  | RForward => mkEgress (route_port r) false true false
  | RLocal => mkEgress (route_port r) false false false
  | RDrop => mkEgress 0 true false false
  end.
Lemma route_action r : route_wf r →
  gdp_action (te_action (route_entry r)) (te_params (route_entry r)) (mkEgress 0 false false false) = route_egress r.
Proof.
  intros Hr. assert (Hp : from_le (to_le 2 (route_port r)) = route_port r).
  { rewrite from_le_to_le, Z.mod_small; [done |]. change (256 ^ Z.of_nat 2) with 65536. destruct r; destruct Hr as [_ Hu]; unfold u16 in Hu; cbn; lia. }
  destruct r as [d p [] | d p []]; unfold route_egress; cbn [route_port route_disposition route_entry te_action te_params
    action_name parameter_data] in *; unfold gdp_action; cbn [String.eqb Ascii.eqb Bool.eqb eg_drop eg_port eg_transit eg_decided]; by rewrite ?Hp.
Qed.

Section routes.
Context `{EntryChoice} (routes : list gdp_route).
Hypothesis Hroutes : Forall route_wf routes.

(** The table lookup of an ingress control, given which routes its key means *)
Lemma route_lookup table key (means : gdp_route → Prop) :
  (∀ r, r ∈ routes → te_table (route_entry r) = table → route_wf r →
    (key_matches (te_key (route_entry r)) key = Some 0 ∧ means r) ∨ (key_matches (te_key (route_entry r)) key = None ∧ ¬ means r)) →
  (∀ r, means r → te_table (route_entry r) = table) →
  let g := apply_table gdp_action table key "drop" (route_entry <$> routes) (mkEgress 0 false false false) in
  (g = mkEgress 0 true false false ∧ ∀ r, r ∈ routes → ¬ means r) ∨ (∃ r, r ∈ routes ∧ means r ∧ g = route_egress r).
Proof.
  intros Hkey Htable. cbv zeta. unfold apply_table. rewrite Forall_forall in Hroutes.
  pose proof (table_lookup_spec table key (route_entry <$> routes)) as Hs. destruct (table_lookup _ _ _) as [te |].
  - destruct Hs as (Hte & Ht & k & Hk & _). apply list_elem_of_fmap in Hte as (r & -> & Hr).
    destruct (Hkey r Hr Ht (Hroutes r Hr)) as [[_ Hm] | [E _]]; [| by rewrite E in Hk].
    right. exists r. split; [done |]. split; [done |]. apply route_action. by apply Hroutes.
  - left. split; [done |]. intros r Hr Hm. specialize (Hs (route_entry r)). rewrite (Htable r Hm) in Hs.
    destruct (Hkey r Hr (Htable r Hm) (Hroutes r Hr)) as [[E _] | [_ ?]]; [| done].
    rewrite E in Hs. discriminate Hs; [| done]. by apply list_elem_of_fmap_2.
Qed.

Lemma global_route_lookup d s : u64 d →
  let g := apply_table gdp_action "ingress.global_routes" [(Exact 4, d / 2 ^ 32); (Exact 4, d mod 2 ^ 32)] "drop"
    (route_entry <$> routes) (mkEgress 0 false false false) in
  (g = mkEgress 0 true false false ∧ ∀ r, r ∈ routes → ¬ route_for (PGlobal d s) r) ∨
  (∃ r, r ∈ routes ∧ route_for (PGlobal d s) r ∧ g = route_egress r).
Proof.
  intros Hd. apply route_lookup; [| by intros []]. intros [d' p ro | d' p ro] Hr Ht Hwf; [| done].
  cbn [route_entry te_key route_for]. destruct Hwf as [Hd' _]. rewrite global_key by done.
  destruct (Z.eqb_spec d' d) as [-> |]; [left | right]; split; congruence.
Qed.

Lemma local_route_lookup d s : u16 d →
  let g := apply_table gdp_action "ingress.local_routes" [(Exact 2, d)] "drop"
    (route_entry <$> routes) (mkEgress 0 false false false) in
  (g = mkEgress 0 true false false ∧ ∀ r, r ∈ routes → ¬ route_for (PLocal d s) r) ∨
  (∃ r, r ∈ routes ∧ route_for (PLocal d s) r ∧ g = route_egress r).
Proof.
  intros Hd. apply route_lookup; [| by intros []]. intros [d' p ro | d' p ro] Hr Ht Hwf; [done |].
  cbn [route_entry te_key route_for]. destruct Hwf as [Hd' _].
  rewrite port_key, Z.mod_small by (change (256 ^ Z.of_nat 2) with 65536; unfold u16 in *; lia).
  destruct (Z.eqb_spec d' d) as [-> |]; [left | right]; split; congruence.
Qed.
End routes.

(** ** A packet through the plane *)

Lemma validate_no_panic bs : ∃ r, validate_gdp bs = Ok r.
Proof.
  unfold validate_gdp. rewrite parse_gdp_eq. cbv zeta. destruct (len bs <? 4); [by eexists |].
  destruct (len bs <? head_len bs); [by eexists |]. destruct (negb (len bs =? _)); [by eexists |].
  cbn [gbind gret]. destruct (negb _); by eexists.
Qed.
Lemma validate_ok bs parsed : validate_gdp bs = Ok (inl parsed) →
  4 ≤ len bs ∧ head_len bs ≤ len bs ∧ parsed = parsed_of (is_local bs) (headers_of bs).
Proof.
  unfold validate_gdp. rewrite parse_gdp_eq. cbv zeta.
  destruct (Z.ltb_spec (len bs) 4); [done |]. destruct (Z.ltb_spec (len bs) (head_len bs)); [done |].
  destruct (negb (len bs =? _)); [done |]. cbn [gbind gret]. destruct (negb _); [done |]. intros E. apply Ok_inj in E. by simplify_eq.
Qed.

(** What the pipeline emits when the action of a route was taken *)
Lemma route_emits r bs : bytes bs → 4 ≤ len bs → head_len bs ≤ len bs →
  (λ '(header_data, payload_data, port), mkOutput port (header_data ++ payload_data)) <$>
    (let '(hdr, g) := spend_hop (route_egress r) (headers_of bs) in
     if eg_drop g then [] else [(deparse hdr, drop (Z.to_nat (head_len bs)) bs, eg_port g)]) = route_output r bs.
Proof.
  intros Hb H4 Hl. destruct (word_hop bs Hb H4) as (_ & _ & _ & Ehop).
  assert (Eb : b_hop (base (headers_of bs)) = from_be (slice bs 3 4)).
  { rewrite <- Ehop. unfold headers_of. cbv zeta. by destruct (b_local_form _ =? 1). }
  pose proof (from_be_short bs 3 1 Hb ltac:(lia) ltac:(lia) ltac:(lia)) as Hu. change (3 + 1) with 4 in Hu.
  unfold route_output, route_egress, spend_hop. destruct (route_disposition r); cbn [eg_transit eg_drop eg_port]; [| | done].
  - rewrite Eb. cbv zeta. destruct (Z.leb_spec (from_be (slice bs 3 4)) 1).
    + replace ((from_be (slice bs 3 4) =? 0) || (from_be (slice bs 3 4) =? 1)) with true by lia. done.
    + replace ((from_be (slice bs 3 4) =? 0) || (from_be (slice bs 3 4) =? 1)) with false by lia.
      cbn [eg_drop eg_port fmap list_fmap]. by rewrite emit_hop by (done || lia).
  - cbn [fmap list_fmap]. by rewrite emit_same.
Qed.

(** What the ingress control decides from the routes *)
Lemma ingress_routes `{EntryChoice} routes port bs : Forall route_wf routes → bytes bs → 4 ≤ len bs → head_len bs ≤ len bs →
  ∃ g, gdp_ingress (route_entry <$> routes) port (headers_of bs) = spend_hop g (headers_of bs) ∧
    let addresses := p_addresses (parsed_of (is_local bs) (headers_of bs)) in
    ((g = mkEgress 0 true false false ∧ ∀ r, r ∈ routes → ¬ route_for addresses r) ∨
     (∃ r, r ∈ routes ∧ route_for addresses r ∧ g = route_egress r)).
Proof.
  intros Hr Hb H4 Hl. unfold gdp_ingress, parsed_of, parsed_addresses, is_local, headers_of, head_len, is_local in *. cbv zeta in *.
  cbn [p_addresses]. destruct (b_local_form (base_of (from_be (slice bs 0 4))) =? 1);
    cbn [global_addr local_addr g_valid no_global l_destination l_source destination_hi destination_lo source_hi source_lo].
  - eexists. split; [reflexivity |]. pose proof (from_be_short bs 4 2 Hb ltac:(lia) ltac:(lia) ltac:(lia)) as Hd.
    change (4 + 2) with 6 in Hd. apply local_route_lookup; [exact Hr | exact Hd].
  - eexists. split; [reflexivity |]. pose proof (join_words bs 4 Hb ltac:(lia) ltac:(lia)) as Ej. change (4 + 4) with 8 in Ej. change (4 + 8) with 12 in Ej.
    rewrite Ej. set (d := from_be (slice bs 4 12)).
    pose proof (from_be_short bs 4 8 Hb ltac:(lia) ltac:(lia) ltac:(lia)) as Hd. change (4 + 8) with 12 in Hd. fold d in Hd.
    assert (E : d = from_be (slice bs 4 8) * 2 ^ 32 + from_be (slice bs 8 12)).
    { unfold d. rewrite (slice_split bs 4 8 12), from_be_app by lia. replace (len (slice bs 8 12)) with 4 by (rewrite len_slice; lia). done. }
    pose proof (from_be_short bs 8 4 Hb ltac:(lia) ltac:(lia) ltac:(lia)) as Hlo. change (8 + 4) with 12 in Hlo. change (256 ^ 4) with (2 ^ 32) in Hlo.
    replace (from_be (slice bs 4 8)) with (d / 2 ^ 32) by (rewrite E; zdiv).
    replace (from_be (slice bs 8 12)) with (d mod 2 ^ 32) by (rewrite E; zdiv).
    apply global_route_lookup; [exact Hr | exact Hd].
Qed.

(** What may come of the octets [bs] at a pipeline with these routes *)
Definition routed (routes : list gdp_route) (bs : list Z) (result : gres (list GdpOutput)) : Prop :=
  match validate_gdp bs with
  | Ok (inl parsed) =>
      ∃ out, result = Ok (inl out) ∧
        ((out = [] ∧ ∀ r, r ∈ routes → ¬ route_for (p_addresses parsed) r) ∨
         (∃ r, r ∈ routes ∧ route_for (p_addresses parsed) r ∧ out = route_output r bs))
  | Ok (inr e) => result = gerr e
  | _ => False
  end.

(** C37: whatever entry the generated pipeline prefers among equal ones, a packet
    that passes validation is dropped when no route was added for its
    destination, and otherwise treated as one of the routes for it says: dropped,
    delivered octet for octet, or forwarded with octet 3 lowered by one and
    every other octet kept, unless that octet is 0 or 1; a packet that fails
    validation gets the validation's error. Nothing panics. *)
Theorem gdp_plane_routes `{EntryChoice} {P : Type} `{!Pipeline P, !Runs P gdp_program} radix routes port bs :
  Forall route_wf routes → bytes bs →
  routed routes bs (gdp_process port bs (gdp_configure (P := P) radix routes)).2.
Proof.
  intros Hr Hb. unfold routed, gdp_process. pose proof (validate_no_panic bs) as Hnp.
  destruct (validate_gdp bs) as [[parsed | e] | e |] eqn:Hv; [| done | by destruct Hnp as [? [=]]..].
  destruct (validate_ok bs parsed Hv) as (H4 & Hl & ->).
  pose proof (process_runs port bs (gdp_configure (P := P) radix routes)) as Hp. rewrite configure_entries in Hp.
  destruct (process_packet _ _ _) as [pl outputs]. cbn [snd] in *. subst outputs.
  unfold gdp_program, run_p4. rewrite parse_start_eq, bind_Ok_l by done.
  destruct (ingress_routes routes port bs Hr Hb H4 Hl) as (g & -> & Hg). cbv zeta in Hg.
  pose proof (λ r, route_emits r bs Hb H4 Hl) as He.
  destruct Hg as [[-> Hno] | (r & Hin & Hfor & ->)].
  - exists []. split; [done | by left].
  - exists (route_output r bs). split; [| right; exists r; split; [exact Hin |]; split; [exact Hfor | reflexivity]]. rewrite <- He.
    destruct (spend_hop _ _) as [hdr g]. by destruct (eg_drop g).
Qed.

#[local] Existing Instance first_entry.

(** Two routes, and a Local packet with two hops left *)
Definition demo_routes : list gdp_route := [AddGlobal 7 3 RDrop; AddLocal 7 5 RForward].

Lemma gdp_plane_routes_witness :
  routed demo_routes [4; 32; 40; 2; 0; 7; 0; 8]
    (gdp_process 9 [4; 32; 40; 2; 0; 7; 0; 8] (gdp_configure (P := installed gdp_program) 16 demo_routes)).2.
Proof.
  refine (gdp_plane_routes (P := installed gdp_program) 16 demo_routes 9 [4; 32; 40; 2; 0; 7; 0; 8] _ _).
  - repeat (apply Forall_cons; split; [unfold route_wf, u64, u16; lia |]). by apply Forall_nil.
  - repeat (apply Forall_cons; split; [unfold u8; lia |]). apply Forall_nil. done.
Defined.

(** The Local hop limit is the low nibble of octet 3, but the plane counts the
    whole octet down: a packet whose hop limit is 0 leaves with hop limit 15. *)
Example expired_local_revived :
  option_map p_hop_limit (match validate_gdp [4; 32; 40; 0x10; 0; 7; 0; 8] with Ok (inl p) => Some p | _ => None end) = Some 0 ∧
  (gdp_process 9 [4; 32; 40; 0x10; 0; 7; 0; 8] (gdp_configure (P := installed gdp_program) 16 demo_routes)).2 =
    Ok (inl [mkOutput 5 [4; 32; 40; 0x0f; 0; 7; 0; 8]]).
Proof. vm_compute. done. Qed.
