(* ===== verification/Network.v ===== *)
(** * A network of routers

    Routers joined by links, with any number of packets in flight, in any order,
    while the routing of the nodes may change at any time. Routers come in
    through the interface [RouterNode], which the static, the cycle-aware and the
    dynamic router implement. Proved: no packet is forwarded more often than
    its hop limit says, whatever the routing tables are; and, as long as no
    routing changes, what becomes of every packet does not depend on the
    order in which the packets move. *)
From stdpp Require Import prelude list.
From Stdlib Require Import ZArith Lia.
From S2P Require Import Prelude Crc GdpWire Routing Rib P4Gdp P4Pipeline StaticRouter DynamicRouter.
Local Open Scope Z_scope.

Local Notation hops p := (hdr_hop_limit (pkt_header p)).

(** ** What a network expects of a router *)

(** What a router may do with a packet *)
Definition proper (ingress_port : Z) (packet : GdpPacket) (d : RouterDisposition) : Prop :=
  match d with
  | Drop => True
  | Punt port p => port = ingress_port ∧ p = packet
  | Forward port p => 0 ≤ port < ROUTER_PORT_COUNT ∧ port ≠ ingress_port ∧ 1 < hops packet ∧ p = pkt_with_hop packet (hops packet - 1)
  end.

Class RouterNode (R : Type) : Type := {
  node_process : Z → GdpPacket → st R RouterDisposition;
  (** the router can be used *)
  node_ok : R → Prop;
  (** what it would do with a packet now *)
  node_decides : R → Z → GdpPacket → RouterDisposition;
  node_process_spec : ∀ r port packet, node_ok r → 0 ≤ port < ROUTER_PORT_COUNT → wf_packet packet →
    ∃ r', node_process port packet r = (r', Ok (node_decides r port packet)) ∧ node_ok r' ∧
      ∀ port' packet', node_decides r' port' packet' = node_decides r port' packet';
  node_decides_proper : ∀ r port packet, node_ok r → 0 ≤ port < ROUTER_PORT_COUNT → wf_packet packet →
    proper port packet (node_decides r port packet) }.

(** ** The routers of the library *)

Lemma disposition_proper fib locals port packet : wf_fib fib → wf_packet packet →
  proper port packet (disposition fib locals port packet).
Proof.
  intros [_ Hf] [Hh _]. unfold disposition. pose proof (wf_hop_range _ Hh).
  destruct (hdr_addresses _) as [d s | d s pr]; [| by case_bool_decide].
  pose proof (fib_lookup_spec fib d) as Hs. destruct (fib_lookup fib d) as [e |]; [| done]. destruct Hs as [He _].
  rewrite Forall_forall in Hf. specialize (Hf e He). destruct (fe_egress e) as [p |]; [| done].
  destruct (Z.leb_spec (hops packet) 1); [done |]. destruct (Z.eqb_spec p port); [done |].
  cbn [orb proper]. destruct Hf as [_ Hp]. split_and!; try done; lia.
Qed.

Section nodes.
Context `{EntryChoice} {P : Type} `{!Pipeline P, !Runs P router_program}.

Definition static_decides (r : StaticP4Router P) : Z → GdpPacket → RouterDisposition :=
  disposition (fib r) (local_suffixes (rc_ports (startup r))).

#[export] Program Instance static_node : RouterNode (StaticP4Router P) := {|
  node_process := process; node_ok := router_ok; node_decides := static_decides |}.
Next Obligation.
  intros r port packet Hr Hi Hp. destruct (process_ok port packet r Hr) as (Hr' & Ef & Es).
  pose proof (process_disposition port packet r Hr Hi Hp) as Hd. exists (process port packet r).1.
  split; [unfold static_decides; rewrite <- Hd; apply surjective_pairing |]. split; [done |]. intros. unfold static_decides. by rewrite Ef, Es.
Qed.
Next Obligation. intros r port packet (_ & Hf & _) _ Hp. by apply disposition_proper. Qed.

#[export] Program Instance cycle_node : RouterNode (CycleAwareRouter P) := {|
  node_process := cycle_process; node_ok := λ r, router_ok (inner r); node_decides := λ r, static_decides (inner r) |}.
Next Obligation.
  intros r port packet Hr Hi Hp. destruct (node_process_spec (RouterNode := static_node) (inner r) port packet Hr Hi Hp) as (r' & E & Hr' & Ed).
  exists (set_inner r' r). cbn in E. unfold cycle_process, zoom. by rewrite E.
Qed.
Next Obligation. intros r port packet Hr Hi Hp. by apply (node_decides_proper (RouterNode := static_node) (inner r)). Qed.

#[export] Program Instance dynamic_node : RouterNode (DynamicP4Router P) := {|
  node_process := dr_process; node_ok := λ r, router_ok (forwarding r); node_decides := λ r, static_decides (forwarding r) |}.
Next Obligation.
  intros r port packet Hr Hi Hp. destruct (node_process_spec (RouterNode := static_node) (forwarding r) port packet Hr Hi Hp) as (r' & E & Hr' & Ed).
  exists (set_forwarding r' r). cbn in E. unfold dr_process, zoom. by rewrite E.
Qed.
Next Obligation. intros r port packet Hr Hi Hp. by apply (node_decides_proper (RouterNode := static_node) (forwarding r)). Qed.
End nodes.

(** Routers of two kinds in one network *)
#[export] Program Instance sum_node {R1 R2} `{RouterNode R1, RouterNode R2} : RouterNode (R1 + R2) := {|
  node_process := λ port packet r,
    match r with
    | inl r => let '(r, d) := node_process port packet r in (inl r, d)
    | inr r => let '(r, d) := node_process port packet r in (inr r, d)
    end;
  node_ok := λ r, match r with inl r => node_ok r | inr r => node_ok r end;
  node_decides := λ r, match r with inl r => node_decides r | inr r => node_decides r end |}.
Next Obligation.
  intros R1 R2 ? ? [r | r] port packet Hr Hi Hp; destruct (node_process_spec r port packet Hr Hi Hp) as (r' & E & Hr' & Ed);
    [exists (inl r') | exists (inr r')]; cbn; by rewrite E.
Qed.
Next Obligation. intros R1 R2 ? ? [r | r] port packet Hr Hi Hp; by apply node_decides_proper. Qed.

(** ** The network *)

(** A packet that waits at a port of a router, and where a packet ends *)
Record flight : Set := mkFlight { fl_router : nat; fl_port : Z; fl_packet : GdpPacket }.
Inductive fate : Set :=
  | Punted (router : nat) (port : Z) (packet : GdpPacket)   (** at the router itself *)
  | Emitted (router : nat) (port : Z) (packet : GdpPacket)  (** out of a port that no link joins to a router *)
  | Dropped.
Definition fate_packet (e : fate) : option GdpPacket :=
  match e with Punted _ _ p | Emitted _ _ p => Some p | Dropped => None end.

Section network.
Context {R : Type} `{RouterNode R}.
(** The links: the port of a router to the ingress port of another *)
Context (link : nat → Z → option (nat * Z)).

Record net : Type := mkNet { routers : list R; flying : list flight; ended : list fate }.

(** What a decision makes of a packet *)
Definition next_stage (i : nat) (d : RouterDisposition) : flight + fate :=
  match d with
  | Drop => inr Dropped
  | Punt port p => inr (Punted i port p)
  | Forward port p => match link i port with Some (j, q) => inl (mkFlight j q p) | None => inr (Emitted i port p) end
  end.
Definition arrive (n : net) (rs : list R) (fs : list flight) (s : flight + fate) : net :=
  match s with inl f => mkNet rs (f :: fs) (ended n) | inr e => mkNet rs fs (e :: ended n) end.

(** One of the packets is processed by the router it waits at; or a router is
    configured anew, in whatever way leaves it usable. *)
Inductive move : net → net → Prop :=
  | move_packet n fs1 f fs2 r r' d :
      flying n = fs1 ++ f :: fs2 → routers n !! fl_router f = Some r →
      node_process (fl_port f) (fl_packet f) r = (r', Ok d) →
      move n (arrive n (<[fl_router f := r']> (routers n)) (fs1 ++ fs2) (next_stage (fl_router f) d)).
Inductive reroute : net → net → Prop :=
  | reroute_node n i r' : node_ok r' → reroute n (mkNet (<[i := r']> (routers n)) (flying n) (ended n)).
(** Runs, with the number of packets that moved *)
Inductive run : nat → net → net → Prop :=
  | run_done n : run 0 n n
  | run_move k n n' n'' : move n n' → run k n' n'' → run (S k) n n''
  | run_reroute k n n' n'' : reroute n n' → run k n' n'' → run k n n''.
(** Runs in which nothing is configured anew *)
Inductive steady : net → net → Prop :=
  | steady_done n : steady n n
  | steady_move n n' n'' : move n n' → steady n' n'' → steady n n''.

(** ** Well-formed networks *)

Definition flight_ok (len : nat) (f : flight) : Prop :=
  (fl_router f < len)%nat ∧ 0 ≤ fl_port f < ROUTER_PORT_COUNT ∧ wf_packet (fl_packet f).
Definition net_ok (n : net) : Prop :=
  Forall node_ok (routers n) ∧ Forall (flight_ok (length (routers n))) (flying n).
(** Links lead to ports of routers. *)
Definition links_ok (len : nat) : Prop :=
  ∀ i port j q, link i port = Some (j, q) → (j < len)%nat ∧ 0 ≤ q < ROUTER_PORT_COUNT.

(** How often a packet can still be processed *)
Definition budget (f : flight) : nat := Nat.max 1 (Z.to_nat (hops (fl_packet f))).
Definition budgets (fs : list flight) : nat := sum_list_with budget fs.

(** [p] is [q] after some hops. *)
Definition hop_of (p q : GdpPacket) : Prop := ∃ h, 0 ≤ h ≤ hops q ∧ p = pkt_with_hop q h.

Lemma hop_of_refl p : wf_packet p → hop_of p p.
Proof.
  intros [Hh _]. pose proof (wf_hop_range _ Hh). exists (hops p). split; [lia |]. by destruct p as [[] ?].
Qed.
Lemma hop_of_trans p q r : hop_of p q → hop_of q r → hop_of p r.
Proof.
  intros (h & Hh & ->) (k & Hk & ->). exists h. split; [| done]. cbn in Hh. lia.
Qed.

Lemma next_stage_ok n f d :
  links_ok (length (routers n)) → flight_ok (length (routers n)) f → proper (fl_port f) (fl_packet f) d →
  match next_stage (fl_router f) d with
  | inl f' => flight_ok (length (routers n)) f' ∧ hop_of (fl_packet f') (fl_packet f) ∧ (S (budget f') ≤ budget f)%nat
  | inr e => match fate_packet e with Some p => hop_of p (fl_packet f) | None => True end
  end.
Proof.
  intros Hl (Hi & Hq & Hw) Hd. destruct d as [port p | port p |]; cbn [next_stage proper] in *; [| | done].
  - destruct Hd as (Hport & Hne & Hh & ->).
    assert (Hhop : hop_of (pkt_with_hop (fl_packet f) (hops (fl_packet f) - 1)) (fl_packet f)) by (eexists; split; [| done]; lia).
    destruct (link (fl_router f) port) as [[j q] |] eqn:El; [| done].
    destruct (Hl _ _ _ _ El) as [Hj Hqq]. split_and!; cbn [fl_packet]; try done.
    + split_and!; cbn [fl_router fl_port fl_packet]; try done; try lia. apply wf_pkt_with_hop; [done | lia].
    + unfold budget. cbn. lia.
  - destruct Hd as [-> ->]. by apply hop_of_refl.
Qed.

(** ** Moving packets *)

(** What a packet that ends or is in flight comes from *)
Definition stems (fs : list flight) (p : GdpPacket) : Prop := ∃ f, f ∈ fs ∧ hop_of p (fl_packet f).
Definition end_stems (n : net) (e : fate) : Prop :=
  e ∈ ended n ∨ match fate_packet e with Some p => stems (flying n) p | None => True end.
(** The routers decide as before. *)
Definition same_decisions (rs rs' : list R) : Prop :=
  Forall2 (λ r r', ∀ port packet, node_decides r' port packet = node_decides r port packet) rs rs'.

Record moved (n n' : net) : Prop := {
  mv_ok : net_ok n';
  mv_len : length (routers n') = length (routers n);
  mv_budget : (S (budgets (flying n')) ≤ budgets (flying n))%nat;
  mv_count : (length (flying n') + length (ended n') = length (flying n) + length (ended n))%nat;
  mv_stems : ∀ f, f ∈ flying n' → stems (flying n) (fl_packet f);
  mv_ends : ∀ e, e ∈ ended n' → end_stems n e;
  mv_same : same_decisions (routers n) (routers n') }.

Lemma same_refl rs : same_decisions rs rs.
Proof. apply Forall2_same_length_lookup_2; [done |]. intros i r r' E E'. by simplify_eq. Qed.

Lemma same_insert rs i r r' : rs !! i = Some r → (∀ port packet, node_decides r' port packet = node_decides r port packet) →
  same_decisions rs (<[i := r']> rs).
Proof.
  intros Hr Hd. rewrite <- (list_insert_id rs i r Hr) at 1. apply Forall2_insert; [apply same_refl | done].
Qed.

Lemma stems_refl n f : net_ok n → f ∈ flying n → stems (flying n) (fl_packet f).
Proof. intros [_ Hf] Hin. rewrite Forall_forall in Hf. exists f. split; [done |]. by apply hop_of_refl, (Hf f Hin). Qed.

Lemma budgets_app fs gs : budgets (fs ++ gs) = (budgets fs + budgets gs)%nat.
Proof. unfold budgets. by rewrite sum_list_with_app. Qed.

Lemma move_spec n n' : net_ok n → links_ok (length (routers n)) → move n n' → moved n n'.
Proof.
  intros [Hr Hf] Hl Hm. pose proof (conj Hr Hf : net_ok n) as Hn. destruct Hm as [n fs1 f fs2 r r' d Ef Er Hp].
  rewrite Ef in Hf. apply Forall_app in Hf as [Hf1 [Hff Hf2]%Forall_cons].
  assert (Hrok : node_ok r) by (rewrite Forall_forall in Hr; by eapply Hr, list_elem_of_lookup_2).
  destruct Hff as (Hi & Hq & Hw). destruct (node_process_spec r _ _ Hrok Hq Hw) as (r1 & E & Hok & Hsame).
  rewrite E in Hp. injection Hp as <- <-.
  pose proof (next_stage_ok n f _ Hl (conj Hi (conj Hq Hw)) (node_decides_proper r _ _ Hrok Hq Hw)) as Hns.
  assert (Hin : ∀ g, g ∈ fs1 ++ fs2 → g ∈ flying n) by (intros g; rewrite Ef, !elem_of_app, elem_of_cons; tauto).
  assert (Hfin : f ∈ flying n) by (rewrite Ef, elem_of_app, elem_of_cons; tauto).
  assert (Hrs : Forall node_ok (<[fl_router f := r1]> (routers n))) by (by apply Forall_insert).
  destruct (next_stage _ _) as [f' | e]; cbn [arrive]; constructor; cbn [routers flying ended]; rewrite ?length_insert.
  - split; cbn [routers flying]; [done |]. rewrite length_insert. apply Forall_cons. split; [apply Hns | by apply Forall_app].
  - done.
  - destruct Hns as (_ & _ & Hb). rewrite Ef. unfold budgets in *. cbn [sum_list_with]. rewrite !sum_list_with_app. cbn [sum_list_with]. lia.
  - rewrite Ef. cbn [length]. rewrite !length_app. cbn [length]. lia.
  - intros g [-> | Hg]%elem_of_cons; [exists f; split; [done | apply Hns] | by apply stems_refl, Hin].
  - intros e He. by left.
  - by apply (same_insert _ _ r).
  - split; cbn [routers flying]; [done |]. rewrite length_insert. by apply Forall_app.
  - done.
  - rewrite Ef. unfold budgets. rewrite !sum_list_with_app. cbn [sum_list_with]. assert (1 ≤ budget f)%nat by (unfold budget; lia). lia.
  - rewrite Ef. cbn [length]. rewrite !length_app. cbn [length]. lia.
  - intros g Hg. by apply stems_refl, Hin.
  - intros e' [-> | He]%elem_of_cons; [right | by left]. destruct (fate_packet e); [| done]. by exists f.
  - by apply (same_insert _ _ r).
Qed.

Lemma can_move n : net_ok n → flying n ≠ [] → ∃ n', move n n'.
Proof.
  intros [Hr Hf] Hne. destruct (flying n) as [| f fs] eqn:E; [done |]. apply Forall_cons in Hf as [(Hi & Hq & Hw) _].
  destruct (lookup_lt_is_Some_2 (routers n) (fl_router f) Hi) as [r Er]. rewrite Forall_forall in Hr.
  destruct (node_process_spec r _ _ (Hr r (list_elem_of_lookup_2 _ _ _ Er)) Hq Hw) as (r' & Ep & _).
  eexists. eapply (move_packet n [] f fs); [exact E | exact Er | exact Ep].
Qed.

(** ** Runs *)

Lemma reroute_spec n n' : net_ok n → reroute n n' → net_ok n' ∧ flying n' = flying n ∧ ended n' = ended n ∧ length (routers n') = length (routers n).
Proof.
  intros Hn Hm. destruct Hm as [n i r' Hok]. destruct Hn as [Hr Hf]. split; [| split_and!; cbn; [done | done | by rewrite length_insert]].
  split; cbn; [by apply Forall_insert | by rewrite length_insert].
Qed.

Record ran (k : nat) (n n' : net) : Prop := {
  ra_ok : net_ok n';
  ra_len : length (routers n') = length (routers n);
  ra_budget : (k + budgets (flying n') ≤ budgets (flying n))%nat;
  ra_count : (length (flying n') + length (ended n') = length (flying n) + length (ended n))%nat;
  ra_stems : ∀ f, f ∈ flying n' → stems (flying n) (fl_packet f);
  ra_ends : ∀ e, e ∈ ended n' → end_stems n e }.

Lemma stems_trans n n' p : (∀ f, f ∈ flying n' → stems (flying n) (fl_packet f)) → stems (flying n') p → stems (flying n) p.
Proof.
  intros Hs (f & Hf & Hh). destruct (Hs f Hf) as (g & Hg & Hh'). exists g. split; [done |]. by eapply hop_of_trans.
Qed.

Lemma run_spec k n n' : net_ok n → links_ok (length (routers n)) → run k n n' → ran k n n'.
Proof.
  intros Hn Hl Hr. induction Hr as [n | k n n' n'' Hm Hr IH | k n n' n'' Hm Hr IH].
  - split; try done; [intros f Hf; by apply stems_refl | intros e He; by left].
  - pose proof (move_spec n n' Hn Hl Hm) as [H1 H2 H3 H4 H5 H6 _]. rewrite <- H2 in Hl. destruct (IH H1 Hl) as [R1 R2 R3 R4 R5 R6].
    split; [done | congruence | lia | lia | intros f Hf; eapply stems_trans; [exact H5 | by apply R5] |].
    intros e He. destruct (R6 e He) as [He' | Hs]; [by apply H6 |]. right. destruct (fate_packet e); [| done].
    by eapply stems_trans.
  - destruct (reroute_spec n n' Hn Hm) as (H1 & Ef & Ee & Elen). rewrite <- Elen in Hl. destruct (IH H1 Hl) as [R1 R2 R3 R4 R5 R6].
    rewrite Ef in *. rewrite Ee in *. split; try done; [congruence |]. intros e He. unfold end_stems in *. rewrite Ef, Ee in R6. by apply R6.
Qed.

(** ** The fate of a packet by itself *)

(** A packet on its way through routers that decide as they do in [rs] *)
Fixpoint walk (fuel : nat) (rs : list R) (f : flight) : option fate :=
  match fuel, rs !! fl_router f with
  | S fuel, Some r =>
      match next_stage (fl_router f) (node_decides r (fl_port f) (fl_packet f)) with
      | inl f' => walk fuel rs f'
      | inr e => Some e
      end
  | _, _ => None
  end.
Definition fate_of (rs : list R) (f : flight) : option fate := walk (budget f) rs f.

Lemma walk_same fuel rs rs' f : same_decisions rs rs' → walk fuel rs' f = walk fuel rs f.
Proof.
  intros Hs. revert f. induction fuel as [| fuel IH]; intros f; [done |]. cbn [walk].
  destruct (rs !! fl_router f) as [r |] eqn:E.
  - destruct (Forall2_lookup_l _ _ _ _ _ Hs E) as (r' & E' & Ed). rewrite E', Ed. destruct (next_stage _ _); [apply IH | done].
  - destruct (rs' !! fl_router f) as [r' |] eqn:E'; [| done]. destruct (Forall2_lookup_r _ _ _ _ _ Hs E') as (r & ? & _). congruence.
Qed.

(** Enough fuel gives the fate, and more does not change it. *)
Lemma walk_total rs f fuel : Forall node_ok rs → links_ok (length rs) → flight_ok (length rs) f → (budget f ≤ fuel)%nat →
  ∃ e, walk fuel rs f = Some e ∧ fate_of rs f = Some e.
Proof.
  intros Hr Hl. unfold fate_of. remember (budget f) as b eqn:Eb. revert f fuel Eb.
  induction b as [b IH] using lt_wf_ind. intros f fuel -> Hf Hb. pose proof Hf as (Hi & Hq & Hw).
  destruct (lookup_lt_is_Some_2 rs (fl_router f) Hi) as [r Er]. assert (Hrok : node_ok r) by (rewrite Forall_forall in Hr; by eapply Hr, list_elem_of_lookup_2).
  assert (Hpos : (1 ≤ budget f)%nat) by (unfold budget; lia).
  pose proof (next_stage_ok (mkNet rs [] []) f _ Hl Hf (node_decides_proper r _ _ Hrok Hq Hw)) as Hs.
  destruct fuel as [| fuel]; [lia |]. destruct (budget f) as [| c] eqn:Ec; [lia |]. cbn [walk]. rewrite Er.
  destruct (next_stage _ _) as [f' | e]; [| by exists e]. destruct Hs as (Hf' & _ & Hb'). cbn [routers] in Hf'.
  destruct (IH (budget f') ltac:(lia) f' c eq_refl Hf' ltac:(lia)) as (e & E1 & E2).
  destruct (IH (budget f') ltac:(lia) f' fuel eq_refl Hf' ltac:(lia)) as (e' & E1' & E2'). exists e. split; [| done]. congruence.
Qed.

(** All the packets' fates, those still to come included *)
Definition fates (n : net) : list (option fate) := (Some <$> ended n) ++ (fate_of (routers n) <$> flying n).

Lemma move_fates n n' : net_ok n → links_ok (length (routers n)) → move n n' → fates n' ≡ₚ fates n.
Proof.
  intros Hn Hl Hm. pose proof (move_spec n n' Hn Hl Hm) as [Hok Elen _ _ _ _ Hs]. destruct Hn as [Hr Hf].
  assert (Hsame : ∀ fs : list flight, fate_of (routers n') <$> fs = fate_of (routers n) <$> fs).
  { intros fs. apply list_fmap_ext. intros _ f _. by apply walk_same. }
  unfold fates. rewrite Hsame. destruct Hm as [n fs1 f fs2 r r' d Ef Er Hp].
  rewrite Ef in Hf. apply Forall_app in Hf as [_ [Hff _]%Forall_cons]. pose proof Hff as (Hi & Hq & Hw).
  assert (Hrok : node_ok r) by (rewrite Forall_forall in Hr; by eapply Hr, list_elem_of_lookup_2).
  destruct (node_process_spec r _ _ Hrok Hq Hw) as (r1 & E & _). rewrite E in Hp. injection Hp as <- <-.
  pose proof (next_stage_ok n f _ Hl Hff (node_decides_proper r _ _ Hrok Hq Hw)) as Hns.
  assert (Hpos : (1 ≤ budget f)%nat) by (unfold budget; lia).
  assert (Hfate : fate_of (routers n) f = match next_stage (fl_router f) (node_decides r (fl_port f) (fl_packet f)) with
    | inl f' => fate_of (routers n) f' | inr e => Some e end).
  { unfold fate_of at 1. destruct (budget f) as [| c] eqn:Ec; [lia |]. cbn [walk]. rewrite Er.
    destruct (next_stage _ _) as [f' | e]; [| done]. destruct Hns as (Hf' & _ & Hb).
    destruct (walk_total (routers n) f' c Hr Hl Hf' ltac:(lia)) as (e & -> & ->). done. }
  rewrite Ef. destruct (next_stage _ _) as [f' | e]; cbn [arrive flying ended]; rewrite ?fmap_cons, !fmap_app, ?fmap_cons, Hfate; solve_Permutation.
Qed.
End network.

(** Every call on a dynamic router leaves it usable, also the ones that fail: it
    is one of the ways a network is configured anew. *)
Lemma dynamic_step_usable `{EntryChoice} {P : Type} `{!Pipeline P, !Runs P router_program} o (r : DynamicP4Router P) :
  dop_wf o → wf_startup (mkStartup (ports r) (configured_static r)) → rib_wf (rib r) → node_ok r → node_ok (dynamic_step o r).1.
Proof.
  intros Ho Hw Hr Hok. pose proof (step_rib_wf o r Ho Hr) as Hr'.
  destruct (dynamic_step o r) as [r' out] eqn:E. destruct (step_effect o r r' out E) as [(Ep & Ec & _) Hc]. cbn in *.
  destruct Hc as [[_ (f & h & Hn & Ef)] | [(h & Ef) _]].
  - rewrite Ef. rewrite <- Ep, <- Ec in Hw. destruct (router_new_ok _ f (startup_for_wf _ _ _ Hw Hr') Hn) as [Hf _].
    by apply after_ok.
  - rewrite Ef. by apply after_ok.
Qed.

(** ** The theorems *)

(** A router of any kind *)
Definition any_router (P : Type) : Type := StaticP4Router P + CycleAwareRouter P + DynamicP4Router P.

(** C38: a network of routers cannot keep a packet: in any run, however the
    packets are interleaved and however routers are configured anew in between,
    the packets move at most as often as their hop limits add up to (at least
    once each); as long as one is in flight, one can move, none is lost or
    doubled, and what ends is a packet that was sent, with no more hops left
    than it had. *)
Theorem network_hops_bounded `{EntryChoice} {P : Type} `{!Pipeline P, !Runs P router_program} link k (n n' : net (R := any_router P)) :
  net_ok n → links_ok link (length (routers n)) → run link k n n' →
  (k + budgets (flying n') ≤ budgets (flying n))%nat ∧
  (flying n' ≠ [] → ∃ n'', move link n' n'') ∧
  (length (flying n') + length (ended n') = length (flying n) + length (ended n))%nat ∧
  (∀ e, e ∈ ended n' → end_stems n e).
Proof.
  intros Hn Hl Hr. destruct (run_spec link k n n' Hn Hl Hr) as [R1 R2 R3 R4 R5 R6].
  split; [done |]. split; [by apply can_move |]. by split.
Qed.

(** C39: while no router is configured anew the packets of a network do not
    disturb each other: whatever the order in which they move, all of them end,
    and each ends where it would end alone, with the hops it would have left. *)
Theorem network_fates `{EntryChoice} {P : Type} `{!Pipeline P, !Runs P router_program} link (n : net (R := any_router P)) :
  net_ok n → links_ok link (length (routers n)) →
  (∃ n', steady link n n' ∧ flying n' = []) ∧
  ∀ n', steady link n n' → flying n' = [] →
    Some <$> ended n' ≡ₚ (Some <$> ended n) ++ (fate_of link (routers n) <$> flying n).
Proof.
  intros Hn Hl. split.
  - remember (budgets (flying n)) as b eqn:Eb. revert n Eb Hn Hl. induction b as [b IH] using lt_wf_ind. intros n -> Hn Hl.
    destruct (decide (flying n = [])) as [E | E]; [exists n; split; [constructor | done] |].
    destruct (can_move link n Hn E) as [n1 Hm]. destruct (move_spec link n n1 Hn Hl Hm) as [H1 H2 H3 _ _ _ _].
    destruct (IH _ H3 n1 eq_refl H1 ltac:(by rewrite H2)) as (n' & Hs & Ef). exists n'. split; [by econstructor | done].
  - intros n' Hs Ef. assert (Hp : fates link n' ≡ₚ fates link n).
    { clear Ef. induction Hs as [n | n n1 n' Hm Hs IH]; [done |]. destruct (move_spec link n n1 Hn Hl Hm) as [H1 H2 _ _ _ _ _].
      rewrite IH by (try done; by rewrite H2). by apply move_fates. }
    unfold fates in Hp. rewrite Ef in Hp. cbn in Hp. by rewrite app_nil_r in Hp.
Qed.

(** ** A ring *)

#[local] Existing Instance first_entry.

(** Router [a] has the network [a]/16 behind port 0 and sends what it does not
    know out of port 1, to port 0 of the next router: a static, a dynamic and a
    cycle-aware one. *)
Definition ring_startup (a : Z) : RouterStartupConfig := mkStartup
  [with_connected_network (mkPrefix (Z.shiftl a 48) 16) (Z.shiftl a 48 + 1) (port_new 0 (0xfe80000000000000 + 2 * a));
   port_new 1 (0xfe80000000000000 + 2 * a + 1)]
  [via default_route 1 0xfe80000000000009].
Definition ring_link (i : nat) (port : Z) : option (nat * Z) := if port =? 1 then Some ((S i mod 3)%nat, 0) else None.
Definition ring : option (list (any_router (installed router_program))) :=
  match router_new (ring_startup 0x2001), dynamic_new 7 (rc_ports (ring_startup 0x2002)) (rc_routes (ring_startup 0x2002)),
        cycle_new (ring_startup 0x2003) RouterVc0Policy_default with
  | Ok a, Ok b, Ok c => Some [inl (inl a); inr b; inl (inr c)]
  | _, _, _ => None
  end.
(** One packet for the third router itself, one for an address nobody has *)
Definition known_packet : GdpPacket := mkPacket (header_global Gts Tiny3 64 0x2001000000000007 0x2003000000000001) [1; 2; 3].
Definition unknown_packet : GdpPacket := mkPacket (header_global Gts Tiny3 9 0x2001000000000007 0x3001000000000009) [4; 5; 6].
Definition ring_flights : list flight := [mkFlight 1 0 known_packet; mkFlight 0 0 unknown_packet].

Lemma ring_wf a : 0x2001 ≤ a ≤ 0x2003 → wf_startup (ring_startup a).
Proof.
  intros Ha. assert (a = 0x2001 ∨ a = 0x2002 ∨ a = 0x2003) as Hc by lia.
  assert (Hp : ∀ p, prefix_new (network p) (prefix_len p) = Some p → u64 (network p) → 0 ≤ prefix_len p ≤ 64 → wf_prefix p).
  { intros p E Hu Hl. exists (network p), (prefix_len p). split; [exact Hu |]. split; [lia | exact E]. }
  split; [| apply Forall_singleton; split; [apply wf_default | unfold u16; cbn; lia]].
  destruct Hc as [-> | [-> | ->]]; (apply Forall_cons; split; [| apply Forall_singleton]);
    (split; [unfold u16; cbn; lia |]; split; [unfold u64; cbn; lia |]; split; [| done || (unfold u64; cbn; lia)]);
    done || (apply Hp; [reflexivity | vm_compute; intuition congruence | vm_compute; intuition congruence]).
Qed.

Lemma wf_ring_flights : Forall (flight_ok 3) ring_flights.
Proof.
  repeat (apply Forall_cons; split); [| | apply Forall_nil; done];
    (split; [cbn; lia |]; split; [cbn; unfold ROUTER_PORT_COUNT; lia |]; split; [| done];
     split_and!; cbn; try lia; try done; unfold u8, u64; lia).
Qed.

Lemma ring_ok rs : ring = Some rs → net_ok (mkNet rs ring_flights []) ∧ links_ok ring_link (length rs).
Proof.
  unfold ring. destruct (router_new (ring_startup 0x2001)) as [a | |] eqn:Ea; [| done..].
  destruct (dynamic_new 7 _ _) as [b | |] eqn:Eb; [| done..]. destruct (cycle_new (ring_startup 0x2003) _) as [c | |] eqn:Ec; [| done..].
  intros E. apply Some_inj in E as <-. split.
  - split; [| exact wf_ring_flights]. cbn [routers]. apply Forall_cons. split; [exact (proj1 (router_new_ok _ a (ring_wf 0x2001 ltac:(lia)) Ea)) |].
    apply Forall_cons. split.
    2: { apply Forall_singleton. unfold cycle_new in Ec. apply bind_Ok in Ec as (q & Hq & Ec). apply Ok_inj in Ec as <-.
         exact (proj1 (router_new_ok _ q (ring_wf 0x2003 ltac:(lia)) Hq)). }
    unfold dynamic_new in Eb. rewrite build_forwarding_eq in Eb. apply bind_Ok in Eb as (f & Hf & Eb). apply Ok_inj in Eb as <-.
    refine (proj1 (router_new_ok _ f (startup_for_wf _ _ _ (ring_wf 0x2002 ltac:(lia)) _) Hf)).
    exact (initial_rib_wf 7 _ _ (ring_wf 0x2002 ltac:(lia))).
  - intros i port j q E. unfold ring_link in E. destruct (port =? 1); [| done]. injection E as <- <-.
    split; [cbn [length]; lia | unfold ROUTER_PORT_COUNT; lia].
Qed.

Lemma network_fates_witness :
  match ring with
  | Some rs =>
      (fate_of ring_link rs <$> ring_flights) = [Some (Punted 2 0 (pkt_with_hop known_packet 63)); Some Dropped] ∧
      let n := mkNet rs ring_flights [] in
      (∃ n', steady ring_link n n' ∧ flying n' = []) ∧
      ∀ n', steady ring_link n n' → flying n' = [] →
        Some <$> ended n' ≡ₚ (Some <$> ended n) ++ (fate_of ring_link (routers n) <$> flying n)
  | None => False
  end.
Proof.
  assert (Hk : match ring with
    | Some rs => (fate_of ring_link rs <$> ring_flights) = [Some (Punted 2 0 (pkt_with_hop known_packet 63)); Some Dropped]
    | None => False end) by (vm_compute; reflexivity).
  destruct ring as [rs |] eqn:E; [| exact Hk]. split; [exact Hk |]. destruct (ring_ok rs E) as [Hn Hl].
  exact (network_fates ring_link _ Hn Hl).
Defined.

Lemma network_hops_bounded_witness :
  match ring with
  | Some rs =>
      let n := mkNet rs ring_flights [] in
      ∃ n', run ring_link 1 n n' ∧
      (1 + budgets (flying n') ≤ budgets (flying n))%nat ∧
      (flying n' ≠ [] → ∃ n'', move ring_link n' n'') ∧
      (length (flying n') + length (ended n') = length (flying n) + length (ended n))%nat ∧
      (∀ e, e ∈ ended n' → end_stems n e)
  | None => False
  end.
Proof.
  assert (Hk : match ring with Some _ => True | None => False end) by (vm_compute; exact I).
  destruct ring as [rs |] eqn:E; [| exact Hk]. destruct (ring_ok rs E) as [Hn Hl]. cbv zeta.
  destruct (can_move ring_link _ Hn ltac:(discriminate)) as [n' Hm]. exists n'.
  assert (Hr : run ring_link 1 (mkNet rs ring_flights []) n') by (eapply run_move; [exact Hm | apply run_done]).
  split; [exact Hr |]. exact (network_hops_bounded ring_link 1 _ n' Hn Hl Hr).
Defined.
