(* ===== verification/RoutingExchange.v ===== *)
(** * Two dynamic routers: from an announcement to a delivered packet

    One router announces a network of its own in a routing message; the other
    takes the message from the wire, learns the route and compiles it into its
    forwarding plane. Proved: packets for that network then cross both routers
    and leave at the port that has the network, from Rib, RoutingWire,
    DynamicRouter, StaticRouter and Network together. *)
From stdpp Require Import prelude gmap list.
From Stdlib Require Import ZArith Lia.
From S2P Require Import Prelude Time BTree Crc GdpWire Routing RoutingWire Rib P4Gdp P4Pipeline StaticRouter DynamicRouter Network.
Local Open Scope Z_scope.

Local Notation hops p := (hdr_hop_limit (pkt_header p)).

(** [p] is the longest prefix of the forwarding table that [d] has. *)
Definition longest_prefix (fib : list FibEntry) (p : GdpPrefix) (d : Z) : Prop :=
  contains p d = true ∧ ∀ e, e ∈ fib → contains (fe_prefix e) d = true → prefix_len (fe_prefix e) ≤ prefix_len p.

(** The base learns a prefix it did not have. *)
Lemma upsert_fresh (key : RibRoute → bool) x l p :
  rr_prefix x = p → (∀ r, key r = true → rr_prefix r = p) → (∀ r, r ∈ l → rr_prefix r ≠ p) → upsert key x l = l ++ [x].
Proof.
  intros Hx Hk Hl. induction l as [| y l IH]; [done |]. cbn [upsert app].
  destruct (key y) eqn:E; [destruct (Hl y ltac:(left)); by apply Hk |]. f_equal. apply IH. intros r Hr. apply Hl. by right.
Qed.

Lemma learned_fresh (r : RouterRib) r' from port a :
  (∀ x, x ∈ rib_routes r → rr_prefix x ≠ ra_prefix a) → receive_advertisement from port a r = (r', Ok tt) →
  mkSel (ra_prefix a) port Learned (ra_metric a) (Some from) ∈ learned_fib r'.
Proof.
  intros Hf Hr. unfold receive_advertisement in Hr. destruct (_ || _ || _); [done |]. injection Hr as <-.
  unfold learned_fib. apply list_elem_of_filter. split; [done |]. apply elem_of_selected.
  exists (mkRib (ra_prefix a) port Learned (ra_metric a) (Some from)). split; [| done]. cbn [sr_prefix].
  unfold routes_for. cbn [rib_routes set_routes rr_prefix].
  rewrite (upsert_fresh _ _ _ (ra_prefix a)) by (try done; by intros x [? _]%learned_for_learned).
  rewrite filter_app. replace (filter _ (rib_routes r)) with (@nil RibRoute).
  - cbn [app]. rewrite filter_cons_True by done. exists [], []. done.
  - symmetry. apply filter_nil_iff. exact Hf.
Qed.

(** What an announcement says, and that it survives the wire *)
Lemma announcement_wf (r : RouterRib) n m a :
  rib_wf r → Forall (λ x, u32 (rr_metric x)) (rib_routes r) → u32 m → u64 (local_router_id r) → local_router_id r ≠ 0 →
  a ∈ advertisements_for r n m → ra_advertiser a = local_router_id r ∧ wf_body (BAdvertise a).
Proof.
  intros Hw Hm Hu Hid Hnz Ha. apply elem_of_advertisements, announced_Some in Ha as (s & [Hs _]%selected_for_prefix_spec & _ & ->).
  apply elem_of_selected in Hs as (x & [Hx _]%best_of_elem & ->). unfold routes_for in Hx. apply list_elem_of_filter in Hx as [_ Hx].
  unfold rib_wf in Hw. rewrite Forall_forall in Hw, Hm. destruct (Hw x Hx) as [Hp _]. specialize (Hm x Hx).
  split; [done |]. cbn. split_and!; try done; unfold metric_saturating_add, saturating_add, u32 in *; lia.
Qed.

Section exchange.
Context `{EntryChoice} {P : Type} `{!Pipeline P, !Runs P router_program}.

(** A dynamic router between calls that succeeded *)
Record in_step (r : DynamicP4Router P) : Prop := {
  is_synced : synced r;
  is_startup : wf_startup (mkStartup (ports r) (configured_static r));
  is_rib : rib_wf (rib r) }.

Definition fib_now (r : DynamicP4Router P) : list FibEntry :=
  fib_of (startup_for (ports r) (configured_static r) (learned_fib (rib r))).

Lemma in_step_node (r : DynamicP4Router P) : in_step r →
  node_ok r ∧ NoDup (fe_prefix <$> fib_now r) ∧
  ∀ port packet, node_decides r port packet = disposition (fib_now r) (local_suffixes (ports r)) port packet.
Proof.
  intros [(f0 & history & Hf & Ef) Hw Hr]. destruct (router_new_ok _ f0 (startup_for_wf _ _ _ Hw Hr) Hf) as (Hok & Es & Efib).
  destruct (after_ok history f0 Hok) as (Hok' & Ef' & Es'). cbn [node_ok node_decides dynamic_node]. rewrite Ef. split; [done |]. split.
  - unfold fib_now. rewrite <- Efib. apply Hok.
  - intros port packet. unfold static_decides. by rewrite Ef', Es', Efib, Es.
Qed.

(** Where a packet goes whose longest prefix has a port *)
Lemma in_step_forward (r : DynamicP4Router P) e port out packet d s :
  in_step r → e ∈ fib_now r → fe_egress e = Some out → longest_prefix (fib_now r) (fe_prefix e) d →
  hdr_addresses (pkt_header packet) = Global d s → 1 < hops packet → port ≠ out →
  node_decides r port packet = Forward out (pkt_with_hop packet (hops packet - 1)).
Proof.
  intros Hr He Eo [Hc Hmax] Ea Hh Hp. destruct (in_step_node r Hr) as (_ & Hnd & ->). unfold disposition. rewrite Ea.
  rewrite (fib_lookup_longest _ d e) by (try done; by split_and!). rewrite Eo.
  replace (hops packet <=? 1) with false by lia. by replace (out =? port) with false by lia.
Qed.

Lemma connected_entry (r : DynamicP4Router P) port p : port ∈ ports r → connected_prefix port = Some p →
  mkFib p (Some (rp_id port)) ConnectedNet ∈ fib_now r.
Proof.
  intros Hp Ep. unfold fib_now, fib_of. right. rewrite !elem_of_app. right. left.
  unfold connected_entries. cbn [rc_ports startup_for]. apply list_elem_of_omap. exists port. by rewrite Ep.
Qed.

Lemma learned_entry (r : DynamicP4Router P) s : s ∈ learned_fib (rib r) → sr_prefix s ∉ st_prefix <$> configured_static r →
  mkFib (sr_prefix s) (Some (sr_port s)) StaticNet ∈ fib_now r.
Proof.
  intros Hs Hn. unfold fib_now, fib_of. right. rewrite !elem_of_app. right. right. unfold static_entries. cbn [rc_routes startup_for].
  apply list_elem_of_fmap. exists (direct (sr_prefix s) (sr_port s)). split; [done |]. rewrite elem_of_app. right.
  unfold learned_statics. apply list_elem_of_fmap. exists s. split; [done |]. by apply list_elem_of_filter.
Qed.

(** Learning a route succeeds: the router is in step again and has it. *)
Lemma learn_in_step (r r' : DynamicP4Router P) from port a :
  in_step r → u16 port → wf_prefix (ra_prefix a) →
  (∀ x, x ∈ rib_routes (rib r) → rr_prefix x ≠ ra_prefix a) →
  dr_receive_advertisement from port a r = (r', Ok tt) →
  in_step r' ∧ configured_static r' = configured_static r ∧
  mkSel (ra_prefix a) port Learned (ra_metric a) (Some from) ∈ learned_fib (rib r').
Proof.
  intros [Hs Hw Hr] Hu Hp Hf Hl. assert (Hstep : dynamic_step (DoAdvertise from port a) r = (r', Ok tt)) by done.
  pose proof (step_rib_wf (DoAdvertise from port a) r (conj Hu Hp) Hr) as Hr'. rewrite Hstep in Hr'.
  destruct (step_effect _ _ _ _ Hstep) as [(Ep & Ec & _) _]. split; [constructor |].
  - exact (step_synced _ _ _ Hs Hstep).
  - by rewrite Ep, Ec.
  - done.
  - split; [done |]. unfold dr_receive_advertisement, zoom in Hl. cbv [mbind st_bind] in Hl.
    destruct (receive_advertisement from port a (rib r)) as [q [[] | |]] eqn:Eq; [| done..].
    destruct (rebuild_cases _ _ _ Hl) as (_ & Erib & _). rewrite Erib. cbn [rib set_rib]. by eapply learned_fresh.
Qed.
End exchange.

(** C40: a network that a router announces is reachable through the router that
    learned it. Router A announces the network of one of its ports in a routing
    message; B, which knew nothing of this network, decodes the message from
    the wire and takes it in. Then a packet to an address in the network for
    which neither router has a longer prefix, arriving at B from elsewhere,
    crosses B and A and leaves at the port of A that has the network, with
    two hops less. *)
Theorem learned_network_reachable `{EntryChoice} {P : Type} `{!Pipeline P, !Runs P router_program}
    (A B B' : DynamicP4Router P) link a msg a' t m q y portA p packet port d s :
  in_step A → Forall (λ x, u32 (rr_metric x)) (rib_routes (rib A)) → u64 (local_router_id (rib A)) → local_router_id (rib A) ≠ 0 →
  in_step B → u16 q → u32 t → u32 m →
  portA ∈ ports A → connected_prefix portA = Some p →
  a ∈ dr_advertisements_for A (local_router_id (rib B)) m → ra_prefix a = p →
  routing_decode (routing_encode (route_advertise t a)) = Ok msg → rm_body msg = BAdvertise a' →
  (∀ r, r ∈ rib_routes (rib B) → rr_prefix r ≠ p) → p ∉ st_prefix <$> configured_static B →
  dr_receive_advertisement (local_router_id (rib A)) q a' B = (B', Ok tt) →
  link 1%nat q = Some (0%nat, y) → link 0%nat (rp_id portA) = None → y ≠ rp_id portA →
  hdr_addresses (pkt_header packet) = Global d s → 3 ≤ hops packet → port ≠ q →
  longest_prefix (fib_now A) p d → longest_prefix (fib_now B') p d →
  fate_of link [A; B'] (mkFlight 1 port packet) = Some (Emitted 0 (rp_id portA) (pkt_with_hop packet (hops packet - 2))).
Proof.
  intros HA Hmet Hid Hnz HB Hq Ht Hm HpA Ep Ha Eap Hdec Hbody Hfresh Hstat Hrecv Hl1 Hl0 Hy Eaddr Hhops Hport HlA HlB.
  destruct (announcement_wf _ _ m a (is_rib A HA) Hmet Hm Hid Hnz Ha) as [_ Hwf].
  rewrite routing_decode_encode in Hdec by (split; [exact Ht | exact Hwf]). apply Ok_inj in Hdec as <-.
  cbn in Hbody. injection Hbody as <-. subst p.
  destruct (learn_in_step B B' _ q a HB Hq (proj1 (proj2 (proj2 Hwf))) Hfresh Hrecv) as (HB' & Ec & Hlearn). rewrite <- Ec in Hstat.
  pose proof (learned_entry B' _ Hlearn Hstat) as HeB. pose proof (connected_entry A portA _ HpA Ep) as HeA.
  unfold fate_of. remember (budget (mkFlight 1 port packet)) as b eqn:Eb. unfold budget in Eb. cbn [fl_packet] in Eb.
  destruct b as [| [| b]]; [lia.. |]. cbn [walk fl_router fl_port fl_packet lookup list_lookup].
  pose proof (in_step_forward B' _ port q packet d s HB' HeB eq_refl HlB Eaddr ltac:(lia) Hport) as Edec.
  cbn [node_decides dynamic_node] in Edec |- *. rewrite Edec. cbn [next_stage]. rewrite Hl1.
  cbn [walk fl_router fl_port fl_packet lookup list_lookup].
  pose proof (in_step_forward A _ y (rp_id portA) (pkt_with_hop packet (hops packet - 1)) d s HA HeA eq_refl HlA) as EdecA.
  cbn [node_decides dynamic_node] in EdecA |- *. rewrite EdecA; [| cbn; by rewrite Eaddr | cbn; lia | done].
  cbn [next_stage]. rewrite Hl0. cbn. do 2 f_equal. unfold pkt_with_hop. cbn. f_equal. unfold set_hop. cbn. f_equal. lia.
Qed.

Definition longest_prefixb (fib : list FibEntry) (p : GdpPrefix) (d : Z) : bool :=
  contains p d && forallb (λ e, negb (contains (fe_prefix e) d) || (prefix_len (fe_prefix e) <=? prefix_len p)) fib.
Lemma longest_prefixb_ok fib p d : longest_prefixb fib p d = true → longest_prefix fib p d.
Proof.
  intros [Hc Hf]%andb_true_iff. split; [done |]. intros e He Hce. rewrite forallb_forall in Hf.
  specialize (Hf e (proj1 (list_elem_of_In _ _) He)). rewrite Hce in Hf. cbn in Hf. lia.
Qed.

#[local] Existing Instance first_entry.

(** A with the network 2001/16 at port 0, B with 2002/16; their ports 1 are joined. *)
Definition ports_a : list RouterPortConfig := rc_ports (ring_startup 0x2001).
Definition ports_b : list RouterPortConfig := rc_ports (ring_startup 0x2002).
Definition pair_link (i : nat) (port : Z) : option (nat * Z) := if port =? 1 then Some ((1 - i)%nat, 1) else None.
Definition network_a : GdpPrefix := mkPrefix 0x2001000000000000 16.
Definition announcement_a : RouteAdvertise := mkAdv 7 network_a Connected 1.
Definition packet_to_a : GdpPacket := mkPacket (header_global Gts Tiny3 64 0x2002000000000009 0x2001000000000005) [1; 2; 3].

Lemma exchange_wf a : 0x2001 ≤ a ≤ 0x2003 → wf_startup (mkStartup (rc_ports (ring_startup a)) []).
Proof. intros Ha. destruct (ring_wf a Ha) as [Hp _]. split; [exact Hp | apply Forall_nil; done]. Qed.

(** What is computed of the two routers *)
Definition exchange_facts (A B B' : DynamicP4Router (installed router_program)) : bool :=
  bool_decide (local_router_id (rib A) = 7) && bool_decide (rib_routes (rib A) = [mkRib network_a 0 Connected 0 None]) &&
  bool_decide (rib_routes (rib B) = [mkRib (mkPrefix 0x2002000000000000 16) 0 Connected 0 None]) &&
  bool_decide (dr_advertisements_for A (local_router_id (rib B)) 1 = [announcement_a]) &&
  longest_prefixb (fib_now A) network_a 0x2001000000000005 && longest_prefixb (fib_now B') network_a 0x2001000000000005.

Lemma learned_network_reachable_witness :
  match dynamic_new (P := installed router_program) 7 ports_a [], dynamic_new (P := installed router_program) 8 ports_b [] with
  | Ok A, Ok B => ∃ B', dr_receive_advertisement 7 1 announcement_a B = (B', Ok tt) ∧
      fate_of pair_link [A; B'] (mkFlight 1 0 packet_to_a) = Some (Emitted 0 0 (pkt_with_hop packet_to_a 62))
  | _, _ => False
  end.
Proof.
  assert (Hk : match dynamic_new (P := installed router_program) 7 ports_a [], dynamic_new (P := installed router_program) 8 ports_b [] with
    | Ok A, Ok B => match dr_receive_advertisement 7 1 announcement_a B with (B', Ok tt) => exchange_facts A B B' | _ => false end
    | _, _ => false end = true) by (vm_compute; reflexivity).
  destruct (dynamic_new 7 ports_a []) as [A | |] eqn:EA; [| discriminate Hk..].
  destruct (dynamic_new 8 ports_b []) as [B | |] eqn:EB; [| discriminate Hk..].
  destruct (dr_receive_advertisement 7 1 announcement_a B) as [B' [[] | |]] eqn:EB'; [| discriminate Hk..].
  apply andb_true_iff in Hk as [[[[[Hid HrA]%andb_true_iff HrB]%andb_true_iff Hadv]%andb_true_iff HlA]%andb_true_iff HlB].
  apply bool_decide_eq_true in Hid, HrA, HrB, Hadv. apply longest_prefixb_ok in HlA, HlB. exists B'. split; [reflexivity |].
  destruct (dynamic_new_ok 7 ports_a [] A (exchange_wf 0x2001 ltac:(lia)) EA) as (SA & WA & PA & CA & _).
  destruct (dynamic_new_ok 8 ports_b [] B (exchange_wf 0x2002 ltac:(lia)) EB) as (SB & WB & PB & CB & _).
  refine (learned_network_reachable A B B' pair_link announcement_a (route_advertise 5 announcement_a) announcement_a 5 1 1 1
    (with_connected_network network_a 0x2001000000000001 (port_new 0 0xfe80000000004002)) network_a packet_to_a 0
    0x2001000000000005 0x2002000000000009 _ _ _ _ _ _ _ _ _ _ _ _ _ _ _ _ _ _ _ _ _ _ _ HlA HlB).
  - constructor; [exact SA | rewrite PA, CA; exact (exchange_wf 0x2001 ltac:(lia)) | exact WA].
  - rewrite HrA. apply Forall_singleton. unfold u32. cbn. lia.
  - rewrite Hid. unfold u64. lia.
  - rewrite Hid. discriminate.
  - constructor; [exact SB | rewrite PB, CB; exact (exchange_wf 0x2002 ltac:(lia)) | exact WB].
  - unfold u16. lia.
  - unfold u32. lia.
  - unfold u32. lia.
  - rewrite PA. left.
  - reflexivity.
  - rewrite Hadv. left.
  - reflexivity.
  - vm_compute. reflexivity.
  - reflexivity.
  - rewrite HrB. intros r ->%list_elem_of_singleton. discriminate.
  - rewrite CB. apply not_elem_of_nil.
  - rewrite Hid. exact EB'.
  - reflexivity.
  - reflexivity.
  - discriminate.
  - reflexivity.
  - cbn. lia.
  - discriminate.
Defined.
