(* ===== verification/EndpointNet.v ===== *)
(** * A conversation across routers

    Two endpoints attached to ports of a network of routers. Proved: when every
    router on the way forwards towards the other endpoint, in both directions,
    a tunnel comes up between the endpoints and every message of a conversation
    is delivered, from EndpointData, StaticRouter, DynamicRouter and Network
    together. *)
From stdpp Require Import prelude gmap list.
From Stdlib Require Import ZArith Lia.
From S2P Require Import Prelude Crc Css GdpWire GtsWire GtsStream Dlp EndpointCore EndpointData Routing Rib P4Gdp P4Pipeline StaticRouter DynamicRouter Network RoutingExchange.
Local Open Scope Z_scope.

Local Notation hops p := (hdr_hop_limit (pkt_header p)).

Section across.
Context {R : Type} `{RouterNode R} (link : nat → Z → option (nat * Z)) (rs : list R).

(** Router [r] forwards what comes in at [port] for [d] out of [out]. *)
Definition sends_toward (r : R) (port d out : Z) : Prop :=
  ∀ packet s, hdr_addresses (pkt_header packet) = Global d s → 1 < hops packet →
    node_decides r port packet = Forward out (pkt_with_hop packet (hops packet - 1)).

(** From a port of a router towards [d] through a number of routers, and out of
    a port that has no router behind it *)
Inductive path (d : Z) : nat * Z → nat → nat * Z → Prop :=
  | path_out i port r out : rs !! i = Some r → sends_toward r port d out → link i out = None → path d (i, port) 1 (i, out)
  | path_on i port r out next k last : rs !! i = Some r → sends_toward r port d out → link i out = Some next →
      path d next k last → path d (i, port) (S k) last.

Lemma path_walk d from k last : path d from k last → ∀ packet s fuel,
  hdr_addresses (pkt_header packet) = Global d s → Z.of_nat k < hops packet → (k ≤ fuel)%nat →
  walk link fuel rs (mkFlight from.1 from.2 packet) = Some (Emitted last.1 last.2 (pkt_with_hop packet (hops packet - Z.of_nat k))).
Proof.
  induction 1 as [i port r out Er Hr El | i port r out [j q] k last Er Hr El Hp IH]; intros packet s fuel Ea Hh Hf;
    (destruct fuel as [| fuel]; [lia |]); cbn [walk fl_router fl_port fl_packet fst snd];
    rewrite Er, (Hr packet s Ea ltac:(lia)); cbn [next_stage]; rewrite El; [done |].
  cbn [fst snd] in IH. rewrite (IH (pkt_with_hop packet (hops packet - 1)) s fuel); [| exact Ea | cbn; lia | lia].
  replace (hops packet - Z.of_nat (S k)) with (hops packet - 1 - Z.of_nat k) by lia. reflexivity.
Qed.

(** Where the endpoints are attached, and how their links encode *)
Context (port_of : bool → nat * Z) (wire_of : bool → GdpWireConfig).

(** What side [w] posts goes over its link to a router, through the routers, and
    over the link of the other side. *)
Definition through_routers (w : bool) (p p' : GdpPacket) : Prop :=
  ∃ q q', crosses (wire_of w) GdpWireConfig_default p q ∧
    fate_of link rs (mkFlight (port_of w).1 (port_of w).2 q) = Some (Emitted (port_of (negb w)).1 (port_of (negb w)).2 q') ∧
    crosses GdpWireConfig_default (wire_of (negb w)) q' p'.

Lemma routers_join c : (∀ w, wire_of w = GdpWireConfig_default) →
  (∀ w, ∃ k, (k < 64)%nat ∧ path (ch_other (end_of w c)) (port_of w) k (port_of (negb w))) → joined through_routers c.
Proof.
  intros Hg Hp w p [Ea Eh Hw Hl]. destruct (Hp w) as (k & Hk & Hpath). set (q := pkt_with_hop p (hops p - Z.of_nat k)).
  exists q. split; [| by exists (hops p - Z.of_nat k)]. exists p, q. rewrite !Hg. split; [by eapply crosses_same |]. split.
  - unfold fate_of. apply (path_walk _ _ _ _ Hpath p (ch_own (end_of w c))); [exact Ea | rewrite Eh; lia |].
    unfold budget. cbn. rewrite Eh. lia.
  - eapply (crosses_same _ q); [exact Ea | apply wf_with_hop; [exact Hw | rewrite Eh; lia] | exact Hl].
Qed.
End across.

(** A router of the library sends towards [d] as its forwarding table says. *)
Lemma static_sends_toward `{EntryChoice} {P : Type} `{!Pipeline P, !Runs P router_program} (r : StaticP4Router P) port d e out :
  fib_lookup (fib r) d = Some e → fe_egress e = Some out → out ≠ port → sends_toward (R := StaticP4Router P) r port d out.
Proof.
  intros El Ee Hne packet s Ea Hh. cbn [node_decides static_node]. unfold static_decides, disposition. rewrite Ea, El, Ee.
  replace (hops packet <=? 1) with false by lia. by replace (out =? port) with false by lia.
Qed.

Definition wire_of_pair (A B : EndpointCore) (w : bool) : GdpWireConfig := cfg (dlp (if w then A else B)).

(** C3: two endpoints with the default wire configuration, which routers use,
    joined by a network of routers of any kind talk as on one link: when the routers forward along a path of fewer than 64 routers, the hop
    limit an endpoint starts with, from each endpoint to the other, the tunnel
    comes up and every message of the conversation is received by the
    application of the other side, in order and unchanged, and acknowledged. *)
Theorem conversation_across_routers `{EntryChoice} {P : Type} `{!Pipeline P, !Runs P router_program}
    link (rs : list (any_router P)) (port_of : bool → nat * Z) ka kb A B css prof (now : Z) msgs :
  path link rs (primary_address B) (port_of true) ka (port_of false) → (ka < 64)%nat →
  path link rs (primary_address A) (port_of false) kb (port_of true) → (kb < 64)%nat →
  can_talk A B css prof → cfg (dlp A) = GdpWireConfig_default → cfg (dlp B) = GdpWireConfig_default → len msgs < 2 ^ 32 →
  Forall (λ m, may_send prof m.1 = true ∧ sendable prof m.2 ∧ bytes m.2) msgs →
  ∃ n, EndpointData.steps (through_routers link rs port_of (wire_of_pair A B)) (mkPair A B [] [])
      ([Opened true (next_tunnel A); Took false (next_tunnel B)] ++ (msgs ≫= said)) n ∧
    to_a n = [] ∧ to_b n = [] ∧
    all_acknowledged (next_tunnel A) (at_a n) (sent_by true msgs) ∧
    all_acknowledged (next_tunnel B) (at_b n) (sent_by false msgs).
Proof.
  intros Hab Hka Hba Hkb Ht HgA HgB. assert (Hj : joined (through_routers link rs port_of (wire_of_pair A B)) (channel_between A B prof)).
  { apply routers_join; [by intros [] |]. intros []; [exists ka; exact (conj Hka Hab) | exists kb; exact (conj Hkb Hba)]. }
  exact (conversation_over _ A B css prof now msgs Hj Ht).
Qed.

#[local] Existing Instance first_entry.

(** A static router with the network 2001/16 and a cycle-aware one with 2002/16,
    each with a default route to the other; an endpoint in each network *)
Definition two_routers : option (list (any_router (installed router_program))) :=
  match router_new (ring_startup 0x2001), cycle_new (ring_startup 0x2002) RouterVc0Policy_default with
  | Ok a, Ok b => Some [inl (inl a); inl (inr b)]
  | _, _ => None
  end.
Definition at_edges (w : bool) : nat * Z := ((if w then 0 else 1)%nat, 0).

Lemma edge_paths rs : two_routers = Some rs →
  path pair_link rs 0x2002000000000009 (at_edges true) 2 (at_edges false) ∧
  path pair_link rs 0x2001000000000005 (at_edges false) 2 (at_edges true).
Proof.
  unfold two_routers. destruct (router_new (ring_startup 0x2001)) as [a | |] eqn:Ea; [| done..].
  destruct (cycle_new (ring_startup 0x2002) _) as [b | |] eqn:Eb; [| done..]. intros E. apply Some_inj in E as <-.
  destruct (router_new_ok _ a (ring_wf 0x2001 ltac:(lia)) Ea) as (_ & _ & Efa).
  unfold cycle_new in Eb. apply bind_Ok in Eb as (q & Hq & Eb). apply Ok_inj in Eb as <-.
  destruct (router_new_ok _ q (ring_wf 0x2002 ltac:(lia)) Hq) as (_ & _ & Efb).
  assert (Ha : ∀ port d e out, fib_lookup (fib_of (ring_startup 0x2001)) d = Some e → fe_egress e = Some out → out ≠ port →
    sends_toward (inl (inl a) : any_router (installed router_program)) port d out).
  { intros port d e out El. rewrite <- Efa in El. exact (static_sends_toward a port d e out El). }
  assert (Hb : ∀ port d e out, fib_lookup (fib_of (ring_startup 0x2002)) d = Some e → fe_egress e = Some out → out ≠ port →
    sends_toward (inl (inr (mkCycle q RouterVc0Policy_default)) : any_router (installed router_program)) port d out).
  { intros port d e out El. rewrite <- Efb in El. exact (static_sends_toward q port d e out El). }
  split.
  - eapply (path_on _ _ _ 0 0 _ 1 (1%nat, 1) 1); [reflexivity | eapply Ha; [vm_compute; reflexivity | reflexivity | discriminate] | reflexivity |].
    eapply (path_out _ _ _ 1 1 _ 0); [reflexivity | eapply Hb; [vm_compute; reflexivity | reflexivity | discriminate] | reflexivity].
  - eapply (path_on _ _ _ 1 0 _ 1 (0%nat, 1) 1); [reflexivity | eapply Hb; [vm_compute; reflexivity | reflexivity | discriminate] | reflexivity |].
    eapply (path_out _ _ _ 0 1 _ 0); [reflexivity | eapply Ha; [vm_compute; reflexivity | reflexivity | discriminate] | reflexivity].
Qed.

Lemma conversation_across_routers_witness :
  match two_routers, ep_new 0x2001000000000005 (ep_config_new 64), ep_new 0x2002000000000009 (ep_config_new 64) with
  | Some rs, Ok A, Ok B => ∃ n, EndpointData.steps (through_routers pair_link rs at_edges (wire_of_pair A (listen talk_service ListenerConfig_default B)))
      (mkPair A (listen talk_service ListenerConfig_default B) [] [])
      [Opened true 1; Took false 1; Sent true [1; 2; 3]; Got false [1; 2; 3]; Sent false [4]; Got true [4];
       Sent false []; Got true []; Sent true [5; 6]; Got false [5; 6]] n ∧
      to_a n = [] ∧ to_b n = [] ∧ all_acknowledged 1 (at_a n) 2 ∧ all_acknowledged 1 (at_b n) 2
  | _, _, _ => False
  end.
Proof.
  assert (Hr : bool_decide (is_Some two_routers) = true) by (vm_compute; reflexivity).
  assert (HA : is_ok (ep_new 0x2001000000000005 (ep_config_new 64)) = true) by (vm_compute; reflexivity).
  assert (HB : is_ok (ep_new 0x2002000000000009 (ep_config_new 64)) = true) by (vm_compute; reflexivity).
  destruct two_routers as [rs |] eqn:Er; [| discriminate Hr]. destruct (edge_paths rs Er) as [Hab Hba].
  destruct (ep_new 0x2001000000000005 (ep_config_new 64)) as [A | |] eqn:EA; [| discriminate HA..].
  destruct (ep_new 0x2002000000000009 (ep_config_new 64)) as [B | |] eqn:EB; [| discriminate HB..].
  destruct (talkers_ready _ _ A B (or_intror eq_refl) EA EB) as (Ht & HtA & HtB & EpA & EpB & HgA & HgB).
  pose proof (conversation_across_routers pair_link rs at_edges 2 2 A (listen talk_service ListenerConfig_default B)
    talk_service talk_profile 0 talk) as H.
  change (primary_address (listen talk_service ListenerConfig_default B)) with (primary_address B) in H.
  change (next_tunnel (listen talk_service ListenerConfig_default B)) with (next_tunnel B) in H. rewrite HtA, HtB, EpA, EpB in H.
  apply H; [exact Hab | lia | exact Hba | lia | exact Ht | exact HgA | exact HgB | reflexivity | exact talk_sendable].
Defined.
