(* ===== verification/Trace.v ===== *)
(** * Tracing a frame device (src/src/qdx.rs, src/src/trace.rs)

    The interface of a device that carries complete frames and the wrapper that
    reports each frame to a sink. Proved: for every device and every sequence of
    calls the wrapper changes neither what the calls return nor the device, and
    what the sink sees is determined by the calls. *)
From stdpp Require Import prelude list.
From Stdlib Require Import ZArith.
From S2P Require Import Prelude Dlp.
Local Open Scope Z_scope.

(** ** qdx.rs *)

Class GnetFrameDevice (D : Type) : Type := {
  transmit_frame : GnetFrame → st D unit;
  receive_frame : st D (option GnetFrame) }.

(** ** trace.rs *)

Inductive TraceDirection : Set := Transmit | Receive.
Record TraceEvent : Set := mkEvent {
  te_direction : TraceDirection; te_vcid : Z; te_traffic : LinkTraffic; te_equivalent_flits : Z; te_bytes : list Z }.

(** A sink with its state; a sink that panics is not considered. *)
Class TraceSink (S : Type) : Type := trace : TraceEvent → S → S.

Section tracer.
Context {D S : Type} `{GnetFrameDevice D, TraceSink S}.

Record Tracer : Type := mkTracer { tr_inner : D; tr_sink : S }.

Definition tracer_new (inner : D) (sink : S) : Tracer := mkTracer inner sink.
Definition into_parts (self : Tracer) : D * S := (tr_inner self, tr_sink self).
Definition put_inner (d : D) (self : Tracer) : Tracer := mkTracer d (tr_sink self).
Definition put_sink (s : S) (self : Tracer) : Tracer := mkTracer (tr_inner self) s.

Definition event (direction : TraceDirection) (frame : GnetFrame) : TraceEvent :=
  mkEvent direction (gf_vcid frame) (gf_traffic frame) (flit_len (gf_bytes frame)) (gf_bytes frame).
Definition report (e : TraceEvent) : st Tracer unit := modify (λ self, put_sink (trace e (tr_sink self)) self).

Definition tracer_transmit (frame : GnetFrame) : st Tracer unit :=
  report (event Transmit frame);;
  zoom tr_inner put_inner (transmit_frame frame).
Definition tracer_receive : st Tracer (option GnetFrame) :=
  frame ← zoom tr_inner put_inner receive_frame;
  match frame with Some f => report (event Receive f) | None => mret tt end;;
  mret frame.

#[export] Instance tracer_device : GnetFrameDevice Tracer := {|
  transmit_frame := tracer_transmit; receive_frame := tracer_receive |}.
End tracer.
Arguments Tracer D S : clear implicits.

(** ** Calls on a device *)

Inductive device_call : Set := CallTransmit (frame : GnetFrame) | CallReceive.
Inductive device_result : Set := Sent (r : res unit) | Got (r : res (option GnetFrame)).

Definition call {D} `{GnetFrameDevice D} (c : device_call) (d : D) : D * device_result :=
  match c with
  | CallTransmit f => let '(d, r) := transmit_frame f d in (d, Sent r)
  | CallReceive => let '(d, r) := receive_frame d in (d, Got r)
  end.
Fixpoint calls {D} `{GnetFrameDevice D} (cs : list device_call) (d : D) : D * list device_result :=
  match cs with
  | [] => (d, [])
  | c :: cs => let '(d, r) := call c d in let '(d, rs) := calls cs d in (d, r :: rs)
  end.

(** What the sink is told of a call: every frame handed over, whether or not the
    device takes it, and every frame received *)
Definition reported (c : device_call) (r : device_result) : list TraceEvent :=
  match c, r with
  | CallTransmit f, _ => [event Transmit f]
  | CallReceive, Got (Ok (Some f)) => [event Receive f]
  | CallReceive, _ => []
  end.

Lemma call_traced {D S} `{GnetFrameDevice D, TraceSink S} c (t : Tracer D S) :
  call c t = (mkTracer (call c (tr_inner t)).1 (fold_left (λ s e, trace e s) (reported c (call c (tr_inner t)).2) (tr_sink t)),
              (call c (tr_inner t)).2).
Proof.
  destruct t as [d s], c as [f |]; unfold call; cbn [tr_inner tr_sink transmit_frame receive_frame tracer_device].
  - unfold tracer_transmit, report, modify, zoom. cbv [mbind st_bind]. cbn [tr_inner put_sink tr_sink put_inner].
    by destruct (transmit_frame f d) as [d' r].
  - unfold tracer_receive, report, modify, zoom. cbv [mbind st_bind mret st_ret]. cbn [tr_inner].
    by destruct (receive_frame d) as [d' [[f |] | |]].
Qed.

(** A traced device behaves as the device itself: whatever calls are made,
    they return the same and leave the device in the same state, and the sink
    was given exactly the frames handed over and the frames received, in the
    order of the calls. *)
Theorem tracer_transparent {D S} `{GnetFrameDevice D, TraceSink S} cs (t : Tracer D S) :
  calls cs t =
  (mkTracer (calls cs (tr_inner t)).1
     (fold_left (λ s e, trace e s) (concat (zip_with reported cs (calls cs (tr_inner t)).2)) (tr_sink t)),
   (calls cs (tr_inner t)).2).
Proof.
  revert t. induction cs as [| c cs IH]; intros t; [by destruct t |]. cbn [calls]. rewrite call_traced.
  destruct (call c (tr_inner t)) as [d r]. cbn [fst snd]. rewrite IH. cbn [tr_inner tr_sink].
  destruct (calls cs d) as [d' rs]. cbn [fst snd zip_with concat]. by rewrite fold_left_app.
Qed.
